(* ===== verification/_CoqProject ===== *)
-Q . S2P
Prelude.v
PyRandom.v
ExecResult.v
AddFamily.v
LogicalFamily.v
ShiftFamily.v
RotateFamily.v
CompareFamily.v
Encoders.v
FlagState.v
RecoveryModel.v
FetchDrain.v
TlbVectors.v
BatVectors.v
BatService.v
FpReference.v
FpPpc.v
FpStatus.v
FpCases.v
ProgramOracle.v
ProgramFixtures.v
ProgramInvariant.v
ProgramFamilies.v
PerfInsn.v
PerfModel.v
PerfTermination.v
PerfInvariant.v
DispatchClass.v
DispatchRules.v
DispatchTheorems.v
Lha.v
LhaTheorems.v
Words.v
FpRange.v
FpCaseTheorems.v
SelftestInsn.v
SelftestFloat.v
SelftestMachine.v
SelftestRun.v
SelftestPrecise.v
SelftestMemory.v
SelftestFamilies.v
SelftestResolve.v
SelftestTyped.v
SelftestTable.v
Json.v
BusData.v
BusDecode.v
BusAddress.v
BusTheorems.v
IsaMatrix.v
SelftestCases.v
SelftestFpCases.v
SelftestMain.v
SelftestReader.v
LeProgram.v
LeMachine.v
LeMemory.v
LeTheorems.v
LeRuns.v
FpuProgram.v
FpuMachine.v
FpuTheorems.v
FpuRuns.v
Fpu602Program.v
Fpu602Machine.v
Fpu602Theorems.v
Fpu602Runs.v
