(* ===== verification/Prelude.v ===== *)
(** * PowerPC 603e tooling: verification library

    The repository is a PowerPC 603e core in SystemVerilog with a Python
    tool set around it. The tool set holds the executable oracles the core is
    checked against: models of instruction families, of the flag commit and
    recovery machines, of the MMU and the FPU, a symbolic program interpreter, a
    cycle model, a checker of dispatch traces and an archive decoder for the
    demo images. This library is a model of those oracles in Rocq, with the
    theorems that make them right. Paths below are relative to src/.

    ** Conventions

    A Python integer is a [Z]; a 32-bit register is a [Z] masked as the source
    masks it. A function that may raise returns [result A] ([Ok] or [Raise]), with
    the exception's class and, where the source raises a text, its fixed part.
    A method that mutates an object and may raise returns the object too
    ([method S A], the state left behind by an exception included). A dictionary
    is a [gmap] unless its order is used, then it is an association list
    ([dict]). Each component is a [Module] named after its Python module, with
    the source's function names; [Definition]s outside those modules are
    specifications and reference formulas.

    ** Files, in dependency order

    - Prelude: exceptions, [result] and [method], Python sequence access
      ([py_get], [py_set]: negative indices, IndexError), word arithmetic,
      [word_lia] and the hint databases.
    - ExecResult: the interface the integer families implement and the flag
      machine uses (a class of results and the promise [WellFormed]).
    - AddFamily, LogicalFamily, ShiftFamily, RotateFamily, CompareFamily:
      sim/tools/{add,logical,shift,rotate,compare}_family.py, [evaluate] and
      [encode] of each. Each [evaluate] is proved against an independent
      formula (integers for adds, bits for logic and rotates, division for
      shifts, order for compares), the argument errors included. Multiword
      addition and division by a power of two are programs over them.
    - Encoders: the five encoders as one, with a decoder and the round trip.
    - FlagState: sim/tools/flag_state.py. A commit packet writes what its
      permissions allow; one clock edge of [FlagOwnerModel.advance] is one of
      five transitions or raises and changes nothing; an operation through the
      machine is its direct evaluation; SO is sticky.
    - RecoveryModel, FetchDrain: sim/recovery/model.py. The reorder window never
      fails its own assertions, retires in order and never retires killed work;
      the fetch unit delivers the redirected sequential stream and makes progress.
    - TlbVectors, BatVectors, BatService: sim/tools/tlb_vectors.py,
      bat_vectors.py, bat_service_vectors.py. The page TLB, the two BAT oracles
      and their agreement, the BAT registers as masked memory.
    - FpReference, FpPpc, FpStatus: sim/fpu/reference.py, ppc_reference.py,
      enabled_vectors.py, estimate_vectors.py. Correct rounding of the exact
      oracle in four modes, agreement of the PowerPC model with it, the FPSCR bit
      by bit, agreement of the two result-class oracles.
    - ProgramOracle, ProgramFixtures, ProgramInvariant, ProgramFamilies:
      sim/tools/control_memory_program.py. The [Program] class with its encoder
      and interpreter, every fixture generator, the invariant of the recorded
      rows, and the agreement of the interpreter with the family oracles.
    - PerfInsn, PerfModel, PerfTermination, PerfInvariant:
      sim/tools/perf_model_603e.py. Instruction resources, the scheduler, when it
      returns, and the machine limits every schedule respects.
    - DispatchClass, DispatchRules, DispatchTheorems:
      sim/tools/check_dispatch_trace.py. The dispatch class of a word, the
      streaming rule checker, and what a trace it accepts satisfies.
    - Lha, LhaTheorems: toolchain/demo/lha.py. The -lh5- decoder and its
      totality on corrupt input.
    - SelftestInsn, SelftestMachine, SelftestRun: toolchain/demo/selftest/gen.py,
      the model behind the opcode self-test. [selftest_insn] has the memory map,
      the state and the instruction constructors, [selftest] the methods of
      [Machine] in a state-and-exception monad, [selftest_run] the execution of
      a case ([evaluate], [run_case], [flatten]) and the branch words ([resolve]).
    - SelftestFloat: the lfs conversion is the exact oracle's widening, and stfs
      undoes it on every word. SelftestPrecise: rules for the monad ([keeps],
      [traps]) and precise exceptions for every instruction. SelftestMemory:
      translation of a data address, and loads that read what stores wrote.
      SelftestFamilies: the model and the five family oracles agree.
      SelftestResolve: the branch words read back to their labels.
    - Words, FpRange, SelftestTyped, SelftestTable: words of a width and what keeps
      it; the floating-point oracles return words; every step of the self-test
      model keeps its state well typed; a case's rows have the table's shape.
    - IsaMatrix, SelftestCases, SelftestFpCases: the decode entries of
      sim/spec/isa.json and every case builder of gen.py.
    - SelftestMain, SelftestReader: the table main emits and its reader, [run_case]
      of toolchain/demo/selftest/selftest.c. The reader rebuilds the model's rows;
      on the shipped matrix the generator returns for both processors and its table
      fits the C types, with the published numbers of cases.
    - Json, BusData: Python values read from JSON with the operations on them, and
      the shipped manifests sim/spec/bus_encodings.json and bus_addressing.json.
    - BusDecode: sim/tools/bus_decode.py, the transfer encodings. Every five-bit
      TT code has one answer on a manifest that validates.
    - BusAddress, BusTheorems: sim/tools/bus_address.py, the decomposition of an
      access into bus transfers. Validation makes the manifest equal the
      reconstructed tables up to Python's equality, and queries respect that
      equality: on every manifest that validates they answer with the transfers of
      a specification, and the shipped encodings decode each of them.

    - LeProgram, LeMachine, LeMemory, LeTheorems, LeRuns:
      sim/tools/le_core_program.py, the little-endian core program. [le_core_program]
      is the generator in both layouts; [le_machine] is a machine written from the
      contract docs/LITTLE_ENDIAN.md. The generator's byte model is the contract's
      memory, its expected words check the recorded bytes exactly, and its images, run
      on the machine, leave what it expects.

    ** How the parts interact

    FlagState calls the families through [ExecResult]; BatService calls the
    stored-bank rule of BatVectors; FpPpc and FpStatus call FpReference. ProgramFamilies relates
    ProgramOracle to the families, SelftestFamilies relates the self-test model to
    them, SelftestFloat relates its conversions to FpReference, and SelftestResolve
    its branch words to PerfInsn; the source leaves all four to its tests.
    BusTheorems relates the two bus tools through the TSIZ code.

    ** Fuel and bounds

    Every loop of the source that is not structural runs on fuel, and a spent
    fuel is a value no Python run produces ([OutOfFuel], or [None]). The mask
    loop of the rotates has 32 turns, which is enough for every MB and ME.
    [Program.simulate] has the source's own [limit]. The searches of the cycle
    model take their fuel as an argument, and [schedule_returns_iff] says when
    there is enough. The LHA decoder computes its fuel from the lengths of its
    input and of its output, and [extract_total] shows that it is never spent.
    The runs of the little-endian images have 40000 steps; the longest takes 16481.
    [run_case] has the source's own 400 turns. The mask loop of the self-test has
    32 turns, its lfs loop 24 (a fraction has 23 bits) and its stfs loop 23 (the
    exponents it takes are 874 to 896); [single_double_roundtrip] would fail with
    fewer.

    ** Not modelled

    - JSON numbers with a fraction: the bus manifests have none.
    - Texts: the formatting of messages, the parsing of traces, images and
      disassemblies, command lines and files. A rule checker's error carries the
      rule's name.
    - Random stimulus: the generators that draw from [random.Random]
      (the random halves of the TLB and BAT vectors, the FPU vectors); the oracles they
      query are modelled.
    - The iteration order of a Python set. The cycle model numbers fresh symbols
      in the order of the registers.
    - A shift by a negative count, which Python refuses: no encodable operand
      of the interpreter or of the self-test model reaches one.
    - The self-test's assembler text and the text of the files it writes. The words
      of eciwx and ecowx are data of the model, their effect beyond the exceptions
      they take is not.
    - The RTL, the C and C++ code (but the table reader above), the shell and
      synthesis scripts, and the Python that only drives them. The manifest lists each with its reason. *)
From Stdlib Require Export ZArith Bool Lia List.
From stdpp Require Export base strings list gmap.

Open Scope Z_scope.

(** ** Python results: a value or a raised exception. *)
Inductive exn : Type :=
| ValueError (msg : string)
| FlagStateError (msg : string)
| AddressError (msg : string)
| ScopeError (msg : string)
| DecodeError (msg : string)
| AssertionError
| StopIteration
| IndexError
| OverflowError
| KeyError
| TypeError
| AttributeError
| RuntimeError (msg : string)
| SystemExit (msg : string)
| OutOfFuel (* not a Python exception: the model's bound on a loop was reached *).

Inductive result (A : Type) : Type :=
| Ok (a : A)
| Raise (e : exn).
Arguments Ok {A} a.
Arguments Raise {A} e.

Declare Scope py_scope.
Delimit Scope py_scope with py.
Open Scope py_scope.

Notation "'let!' x ':=' e 'in' k" :=
  (match e with Ok x => k | Raise ex => Raise ex end)
  (at level 10, x pattern, e at level 100, k at level 200,
   format "'[v' 'let!'  x  ':='  e  'in' '/' k ']'") : py_scope.
Notation "'require!' c 'else' ex 'in' k" :=
  (if c then k else Raise ex)
  (at level 10, c at level 100, ex at level 100, k at level 200,
   format "'[v' 'require!'  c  'else'  ex  'in' '/' k ']'") : py_scope.

Definition is_ok {A} (r : result A) : bool :=
  match r with Ok _ => true | Raise _ => false end.

(** [v in lo..hi-1], the range check most functions open with. *)
Definition in_range (lo hi v : Z) : bool := (lo <=? v) && (v <? hi).

(** ** Python sequences: a negative index counts from the end. *)
Definition py_index (len i : Z) : option nat :=
  if in_range 0 len i then Some (Z.to_nat i)
  else if in_range (- len) 0 i then Some (Z.to_nat (len + i)) else None.

Definition py_get {A} (l : list A) (i : Z) : result A :=
  match py_index (Z.of_nat (length l)) i with
  | Some k => match l !! k with Some v => Ok v | None => Raise IndexError end
  | None => Raise IndexError
  end.

Definition py_set {A} (l : list A) (i : Z) (v : A) : result (list A) :=
  match py_index (Z.of_nat (length l)) i with
  | Some k => Ok (<[k := v]> l)
  | None => Raise IndexError
  end.

Definition MASK32 : Z := 0xffffffff.

(** The truth value of a Python integer. *)
Definition truthy (x : Z) : bool := negb (x =? 0).

(** [_bit(value, name)]: the flag check each family module repeats. *)
Definition is_flag (v : Z) : bool := (v =? 0) || (v =? 1).

(** The two's complement reading of a 32-bit word, as the modules' [_signed]
    and [_signed32] compute it. *)
Definition to_signed32 (value : Z) : Z :=
  let v := Z.land value MASK32 in
  if truthy (Z.land v (Z.shiftl 1 31)) then v - Z.shiftl 1 32 else v.

(** Python dictionaries with string keys, in insertion order. *)
Definition dict (V : Type) : Type := list (string * V).

Fixpoint dict_get {V} (d : dict V) (k : string) : option V :=
  match d with
  | [] => None
  | (k', v) :: d' => if String.eqb k k' then Some v else dict_get d' k
  end.

Definition dict_mem {V} (d : dict V) (k : string) : bool :=
  match dict_get d k with Some _ => true | None => false end.

(** [k in (k1, k2, ...)] for a tuple or set of strings. *)
Definition str_in (k : string) (l : list string) : bool := existsb (String.eqb k) l.

(** The bit field [lo .. lo+n-1] of a word. *)
Definition field (w lo n : Z) : Z := Z.land (Z.shiftr w lo) (Z.ones n).

(** [n.bit_length()] *)
Definition bit_length (n : Z) : Z := if n =? 0 then 0 else Z.log2 (Z.abs n) + 1.

(** [w0 | w1 | ...] *)
Definition ors (l : list Z) : Z := fold_left Z.lor l 0.

(** [enumerate(l, start)] *)
Fixpoint enumerate {A} (start : Z) (l : list A) : list (Z * A) :=
  match l with [] => [] | a :: l' => (start, a) :: enumerate (start + 1) l' end.

(** ** Automation *)
Create HintDb py discriminated.
Create Rewrite HintDb zbits.

Ltac bool_prop :=
  repeat match goal with
  | H : (_ && _)%bool = true |- _ => apply andb_true_iff in H; destruct H
  | H : (_ || _)%bool = false |- _ => apply orb_false_iff in H; destruct H
  | H : (_ || _)%bool = true |- _ => apply orb_true_iff in H
  | H : negb _ = true |- _ => apply negb_true_iff in H
  | H : negb _ = false |- _ => apply negb_false_iff in H
  | H : (_ <=? _) = true |- _ => apply Z.leb_le in H
  | H : (_ <=? _) = false |- _ => apply Z.leb_gt in H
  | H : (_ <? _) = true |- _ => apply Z.ltb_lt in H
  | H : (_ <? _) = false |- _ => apply Z.ltb_ge in H
  | H : (_ =? _) = true |- _ => apply Z.eqb_eq in H
  | H : (_ =? _) = false |- _ => apply Z.eqb_neq in H
  | H : String.eqb _ _ = true |- _ => apply String.eqb_eq in H
  | H : String.eqb _ _ = false |- _ => apply String.eqb_neq in H
  end.

(** Closed string tests, evaluated. *)
Ltac str_tests :=
  repeat match goal with
  | |- context [str_in ?s ?l] => let v := eval vm_compute in (str_in s l) in change (str_in s l) with v
  | |- context [String.eqb ?s ?t] => let v := eval vm_compute in (String.eqb s t) in change (String.eqb s t) with v
  end; cbv iota; cbn [andb orb negb].

(** Case analysis on the innermost conditional of the goal. *)
Ltac case_if :=
  match goal with
  | |- context [if ?b then _ else _] =>
      lazymatch b with
      | context [if _ then _ else _] => fail
      | _ => let E := fresh "E" in destruct b eqn:E
      end
  end.

(** Split a successful Python run into the checks it passed. *)
Ltac py_step H :=
  match type of H with
  | Raise _ = Ok _ => discriminate H
  | Ok _ = Ok _ => injection H as H
  | (if ?b then _ else _) = Ok _ =>
      let E := fresh "E" in destruct b eqn:E; try discriminate H
  | match ?r with Ok _ => _ | Raise _ => _ end = Ok _ =>
      let E := fresh "E" in destruct r eqn:E; try discriminate H
  end.
Ltac py_inv H := repeat py_step H.

Ltac const_pow :=
  repeat match goal with
  | |- context [2 ^ Zpos ?p] => let v := eval vm_compute in (2 ^ Zpos p) in change (2 ^ Zpos p) with v
  | H : context [2 ^ Zpos ?p] |- _ =>
      let v := eval vm_compute in (2 ^ Zpos p) in change (2 ^ Zpos p) with v in H
  end.

(** Arithmetic on words: linear once division and remainder by constants are
    replaced by their quotient equations. *)
Ltac word_lia := const_pow; Z.div_mod_to_equations; lia.

(** ** Integers, masks and bits *)
Lemma in_range_iff lo hi v : in_range lo hi v = true <-> lo <= v < hi.
Proof. unfold in_range. rewrite andb_true_iff, Z.leb_le, Z.ltb_lt. reflexivity. Qed.

Lemma is_flag_iff v : is_flag v = true <-> v = 0 \/ v = 1.
Proof. unfold is_flag. rewrite orb_true_iff, !Z.eqb_eq. reflexivity. Qed.

Lemma is_flag_b2z b : is_flag (Z.b2z b) = true.
Proof. destruct b; reflexivity. Qed.
#[export] Hint Resolve is_flag_b2z : py.

Lemma is_flag_lor a b : is_flag a = true -> is_flag b = true -> is_flag (Z.lor a b) = true.
Proof. rewrite !is_flag_iff. intros [-> | ->] [-> | ->]; auto. Qed.
#[export] Hint Resolve is_flag_lor : py.

Lemma mask32_ones : MASK32 = Z.ones 32.
Proof. reflexivity. Qed.

Lemma mask32_mod x : Z.land x MASK32 = x mod 2 ^ 32.
Proof. rewrite mask32_ones. apply Z.land_ones. lia. Qed.

Lemma mask32_range x : 0 <= Z.land x MASK32 < 2 ^ 32.
Proof. rewrite mask32_mod. apply Z.mod_pos_bound. lia. Qed.

Lemma mask32_id x : 0 <= x < 2 ^ 32 -> Z.land x MASK32 = x.
Proof. intros. rewrite mask32_mod. apply Z.mod_small. lia. Qed.

Lemma mask32_idem x : Z.land (Z.land x MASK32) MASK32 = Z.land x MASK32.
Proof. apply mask32_id, mask32_range. Qed.
#[export] Hint Rewrite mask32_idem : zbits.

Lemma land_ones_mod x n : 0 <= n -> Z.land x (2 ^ n - 1) = x mod 2 ^ n.
Proof. intros Hn. rewrite <- Z.land_ones by exact Hn. f_equal. rewrite Z.ones_equiv. lia. Qed.

Lemma testbit_ones n i : 0 <= n -> 0 <= i -> Z.testbit (Z.ones n) i = (i <? n).
Proof. intros. rewrite Z.testbit_ones_nonneg by lia. reflexivity. Qed.

Lemma testbit_mask32 i : 0 <= i -> Z.testbit MASK32 i = (i <? 32).
Proof. intros. rewrite mask32_ones. apply testbit_ones; lia. Qed.

Lemma testbit_shiftl_one n i : 0 <= n -> Z.testbit (Z.shiftl 1 n) i = (n =? i).
Proof.
  intros. rewrite Z.shiftl_1_l.
  destruct (Z.eqb_spec n i) as [-> | Hne].
  - apply Z.pow2_bits_true. lia.
  - apply Z.pow2_bits_false. lia.
Qed.

(** A number below [2^n] has no bit from [n] on, and conversely. *)
Lemma testbit_high x n i : 0 <= x < 2 ^ n -> n <= i -> Z.testbit x i = false.
Proof.
  intros Hx Hi.
  destruct (Z.eq_dec x 0) as [-> | Hx0]; [apply Z.bits_0 |].
  destruct (Z.ltb_spec n 0) as [Hn | Hn].
  { rewrite Z.pow_neg_r in Hx by lia. lia. }
  apply Z.bits_above_log2; [lia |].
  apply Z.lt_le_trans with n; [| lia]. apply Z.log2_lt_pow2; lia.
Qed.

Lemma bound_of_bits x n :
  0 <= n -> 0 <= x -> (forall i, n <= i -> Z.testbit x i = false) -> x < 2 ^ n.
Proof.
  intros Hn Hx Hb.
  destruct (Z.eq_dec x 0) as [-> | Hx0]; [apply Z.pow_pos_nonneg; lia |].
  apply Z.log2_lt_pow2; [lia |].
  destruct (Z.ltb_spec (Z.log2 x) n) as [| Hge]; [assumption |].
  specialize (Hb (Z.log2 x) Hge). rewrite Z.bit_log2 in Hb by lia. discriminate.
Qed.

Lemma lor_bound a b n : 0 <= n -> 0 <= a < 2 ^ n -> 0 <= b < 2 ^ n -> 0 <= Z.lor a b < 2 ^ n.
Proof.
  intros Hn Ha Hb.
  assert (0 <= Z.lor a b) by (apply Z.lor_nonneg; lia).
  split; [assumption |]. apply bound_of_bits; [lia | assumption |].
  intros i Hi. rewrite Z.lor_spec, (testbit_high a n), (testbit_high b n) by lia. reflexivity.
Qed.

Lemma land_bound_l a b n : 0 <= n -> 0 <= a < 2 ^ n -> 0 <= Z.land a b < 2 ^ n.
Proof.
  intros Hn Ha.
  assert (0 <= Z.land a b) by (apply Z.land_nonneg; lia).
  split; [assumption |]. apply bound_of_bits; [lia | assumption |].
  intros i Hi. rewrite Z.land_spec, (testbit_high a n) by lia. reflexivity.
Qed.

Lemma truthy_land_bit v n : 0 <= n -> truthy (Z.land v (Z.shiftl 1 n)) = Z.testbit v n.
Proof.
  intros Hn. unfold truthy.
  assert (Hz : Z.land v (Z.shiftl 1 n) = if Z.testbit v n then Z.shiftl 1 n else 0).
  { apply Z.bits_inj'. intros i Hi. rewrite Z.land_spec, testbit_shiftl_one by lia.
    destruct (Z.eqb_spec n i) as [-> |].
    - destruct (Z.testbit v i); rewrite ?testbit_shiftl_one, ?Z.eqb_refl, ?Z.bits_0; auto; lia.
    - destruct (Z.testbit v n); rewrite ?testbit_shiftl_one, ?Z.bits_0, ?andb_false_r; auto.
      symmetry. apply Z.eqb_neq. assumption. }
  rewrite Hz. destruct (Z.testbit v n); [| reflexivity].
  rewrite Z.shiftl_1_l. destruct (Z.eqb_spec (2 ^ n) 0) as [E |]; [| reflexivity].
  pose proof (Z.pow_pos_nonneg 2 n). lia.
Qed.
#[export] Hint Rewrite truthy_land_bit using lia : zbits.

Lemma truthy_b2z b : truthy (Z.b2z b) = b.
Proof. destruct b; reflexivity. Qed.
#[export] Hint Rewrite truthy_b2z : zbits.

(** The sign bit of a word is the comparison with [2^31]. *)
Lemma testbit_top x n : 0 <= n -> 0 <= x < 2 ^ (n + 1) -> Z.testbit x n = (2 ^ n <=? x).
Proof.
  intros Hn Hx. rewrite Z.pow_add_r, Z.pow_1_r in Hx by lia.
  rewrite Z.testbit_eqb by lia.
  pose proof (Z.pow_pos_nonneg 2 n).
  destruct (Z.leb_spec (2 ^ n) x).
  - assert (x / 2 ^ n = 1) as -> by (symmetry; apply Z.div_unique with (x - 2 ^ n); lia).
    reflexivity.
  - rewrite Z.div_small by lia. reflexivity.
Qed.

(** [to_signed32] is the representative of the residue class in
    [-2^31 .. 2^31-1]. *)
Lemma to_signed32_spec x :
  to_signed32 x = if 2 ^ 31 <=? x mod 2 ^ 32 then x mod 2 ^ 32 - 2 ^ 32 else x mod 2 ^ 32.
Proof.
  unfold to_signed32. rewrite truthy_land_bit, mask32_mod by lia.
  rewrite testbit_top by (try apply Z.mod_pos_bound; lia). reflexivity.
Qed.

Lemma to_signed32_range x : - 2 ^ 31 <= to_signed32 x < 2 ^ 31.
Proof.
  rewrite to_signed32_spec. pose proof (Z.mod_pos_bound x (2 ^ 32)).
  destruct (Z.leb_spec (2 ^ 31) (x mod 2 ^ 32)); lia.
Qed.

Lemma to_signed32_mod x : to_signed32 x mod 2 ^ 32 = x mod 2 ^ 32.
Proof.
  rewrite to_signed32_spec. destruct (2 ^ 31 <=? x mod 2 ^ 32).
  - rewrite Zminus_mod, Z_mod_same_full, Z.sub_0_r, !Z.mod_mod by lia. reflexivity.
  - apply Z.mod_mod. lia.
Qed.

Lemma to_signed32_unique x y :
  - 2 ^ 31 <= y < 2 ^ 31 -> y mod 2 ^ 32 = x mod 2 ^ 32 -> to_signed32 x = y.
Proof.
  intros Hy E. rewrite to_signed32_spec, <- E.
  destruct (Z.leb_spec 0 y).
  - rewrite Z.mod_small by lia. destruct (Z.leb_spec (2 ^ 31) y); lia.
  - assert (y mod 2 ^ 32 = y + 2 ^ 32) as ->.
    { symmetry. apply Z.mod_unique with (-1); lia. }
    destruct (Z.leb_spec (2 ^ 31) (y + 2 ^ 32)); lia.
Qed.

(** ** Bit fields *)
Lemma lor_shiftl_add hi lo n :
  0 <= n -> 0 <= lo < 2 ^ n -> Z.lor (Z.shiftl hi n) lo = hi * 2 ^ n + lo.
Proof.
  intros Hn Hlo. rewrite <- Z.shiftl_mul_pow2 by lia.
  symmetry. rewrite <- Z.lxor_lor; [apply Z.add_nocarry_lxor |];
    (apply Z.bits_inj'; intros i Hi; rewrite Z.land_spec, Z.bits_0;
     destruct (Z.ltb_spec i n);
     [rewrite Z.shiftl_spec_low by lia; reflexivity
     | rewrite (testbit_high lo n) by lia; apply andb_false_r]).
Qed.

Lemma lor_disjoint a b n : 0 <= n -> a mod 2 ^ n = 0 -> 0 <= b < 2 ^ n -> Z.lor a b = a + b.
Proof.
  intros Hn Ha Hb. assert (0 < 2 ^ n) by (apply Z.pow_pos_nonneg; lia).
  assert (a = Z.shiftl (a / 2 ^ n) n) as E.
  { rewrite Z.shiftl_mul_pow2 by lia. pose proof (Z.div_mod a (2 ^ n)). lia. }
  rewrite E at 1. rewrite lor_shiftl_add, <- Z.shiftl_mul_pow2, <- E by lia. reflexivity.
Qed.

Lemma field_spec w lo n i :
  0 <= lo -> 0 <= n -> 0 <= i -> Z.testbit (field w lo n) i = (i <? n) && Z.testbit w (i + lo).
Proof.
  intros. unfold field.
  rewrite Z.land_spec, testbit_ones, Z.shiftr_spec by lia. apply andb_comm.
Qed.

Lemma field_mod w lo n : 0 <= lo -> 0 <= n -> field w lo n = (w / 2 ^ lo) mod 2 ^ n.
Proof. intros. unfold field. rewrite Z.land_ones, Z.shiftr_div_pow2 by lia. reflexivity. Qed.

Lemma field_range w lo n : 0 <= lo -> 0 <= n -> 0 <= field w lo n < 2 ^ n.
Proof.
  intros. rewrite field_mod by lia. apply Z.mod_pos_bound. apply Z.pow_pos_nonneg; lia.
Qed.

Lemma ok_inj {A} (x y : A) : Ok x = Ok y -> x = y.
Proof. congruence. Qed.

(** ** Lists and dictionaries *)
Lemma in_seqZ x m n : In x (seqZ m n) -> m <= x < m + n.
Proof. rewrite <- list_elem_of_In, elem_of_seqZ. auto. Qed.

Lemma dict_get_In {V} (d : dict V) k v : dict_get d k = Some v -> In (k, v) d.
Proof.
  induction d as [| [k' v'] d IH]; simpl; [discriminate |].
  destruct (String.eqb_spec k k') as [-> |]; intros H.
  - injection H as ->. auto.
  - auto.
Qed.

Lemma dict_mem_In {V} (d : dict V) k : dict_mem d k = true -> In k (map fst d).
Proof.
  unfold dict_mem. destruct (dict_get d k) as [v |] eqn:E; [| discriminate].
  intros _. apply dict_get_In in E. change k with (fst (k, v)). apply in_map. assumption.
Qed.

(** [H : dict_mem XO f = true] for a literal dictionary: one goal per key. *)
Ltac dict_cases H :=
  apply dict_mem_In in H; simpl in H;
  repeat match type of H with _ \/ _ => destruct H as [H | H] | False => destruct H end;
  try subst.

(** ** Methods: a mutated object and a result

    A Python method that raises leaves its object as it was at the raise, so the
    state is threaded beside the result and not inside it. *)
Definition method (S A : Type) : Type := S -> S * result A.

Section Method.
Context {S : Type}.

Definition m_ret {A} (a : A) : method S A := fun s => (s, Ok a).
Definition m_raise {A} (e : exn) : method S A := fun s => (s, Raise e).
Definition m_get : method S S := fun s => (s, Ok s).
Definition m_put (s : S) : method S unit := fun _ => (s, Ok tt).
Definition m_lift {A} (r : result A) : method S A := fun s => (s, r).
Definition m_bind {A B} (m : method S A) (f : A -> method S B) : method S B :=
  fun s => match m s with
           | (s', Ok a) => f a s'
           | (s', Raise e) => (s', Raise e)
           end.
Definition m_when (c : bool) (m : method S unit) : method S unit :=
  if c then m else m_ret tt.
(** [if c: raise e] *)
Definition m_raise_if (c : bool) (e : exn) : method S unit :=
  if c then m_raise e else m_ret tt.
(** An assignment to attributes, an attribute, [assert c], and two loops: over a
    list, and over a list with a variable the body rebinds. *)
Definition m_update (f : S -> S) : method S unit := fun s => (f s, Ok tt).
Definition m_view {A} (f : S -> A) : method S A := fun s => (s, Ok (f s)).
Definition m_assert (c : bool) : method S unit := m_raise_if (negb c) AssertionError.
Fixpoint m_each {A} (l : list A) (body : A -> method S unit) : method S unit :=
  match l with [] => m_ret tt | a :: l' => m_bind (body a) (fun _ => m_each l' body) end.
Fixpoint m_each_with {A B} (l : list A) (b : B) (body : A -> B -> method S B) : method S B :=
  match l with [] => m_ret b | a :: l' => m_bind (body a b) (fun b => m_each_with l' b body) end.

Lemma m_bind_ok {A B} (m : method S A) (f : A -> method S B) s s' a :
  m s = (s', Ok a) -> m_bind m f s = f a s'.
Proof. unfold m_bind. intros ->. reflexivity. Qed.

Lemma m_bind_raise {A B} (m : method S A) (f : A -> method S B) s s' e :
  m s = (s', Raise e) -> m_bind m f s = (s', Raise e).
Proof. unfold m_bind. intros ->. reflexivity. Qed.
End Method.

Notation "'do!' x ':=' m 'in' k" :=
  (m_bind m (fun x => k))
  (at level 10, x pattern, m at level 100, k at level 200,
   format "'[v' 'do!'  x  ':='  m  'in' '/' k ']'") : py_scope.
