(* ===== verification/PyRandom.v ===== *)
(** * Python's [random.Random] as the generators use it

    The generators take their stimulus from [random.Random(seed)]. [Rng] is what they
    rely on: [getrandbits] and [_randbelow], with the ranges of both as laws. [Random]
    is the generator itself, the Mersenne Twister MT19937 with CPython's seeding from
    an integer and its rejection sampling, so a corpus of a given seed can be
    computed. *)
From S2P Require Import Prelude.

(** ** What a generator asks of its source of draws *)
Class Rng (S : Type) : Type := {
  getrandbits : Z -> method S Z;
  randbelow : Z -> method S Z
}.

(** Draws lie in their range. A refusal is a bad argument, or the rejection loop's fuel. *)
Class RngLaws (S : Type) `{!Rng S} : Prop := {
  getrandbits_range k s : 0 <= k -> exists s' v, getrandbits k s = (s', Ok v) /\ 0 <= v < 2 ^ k;
  randbelow_range n s s' v : 0 < n -> randbelow n s = (s', Ok v) -> 0 <= v < n;
  randbelow_refuses n s s' e : 0 < n -> randbelow n s = (s', Raise e) -> e = OutOfFuel
}.

Section Draws.
Context {S : Type} `{!Rng S}.

(** [rng.randrange(start, stop)], [rng.randrange(stop)], [rng.choice(seq)] *)
Definition randrange (start stop : Z) : method S Z :=
  if start <? stop then do! r := randbelow (stop - start) in m_ret (start + r)
  else m_raise (ValueError "empty range").
Definition choice {A} (l : list A) : method S A :=
  match l with
  | [] => m_raise IndexError
  | _ => do! i := randbelow (Z.of_nat (length l)) in m_lift (py_get l i)
  end.
End Draws.

(** ** MT19937 *)
Module mersenne.

Definition N : Z := 624.
Definition M : Z := 397.
Definition MATRIX_A : Z := 0x9908b0df.
Definition UPPER_MASK : Z := 0x80000000.
Definition LOWER_MASK : Z := 0x7fffffff.

Record Random : Type := { mt : gmap Z Z; index : Z }.

Definition at_ (x : gmap Z Z) (i : Z) : Z := default 0 (x !! i).

(** [init_genrand(s)] *)
Definition init_genrand (s : Z) : gmap Z Z :=
  fold_left (fun x i => let p := at_ x (i - 1) in
                        <[i := Z.land (1812433253 * Z.lxor p (Z.shiftr p 30) + i) MASK32]> x)
    (seqZ 1 (N - 1)) {[0 := Z.land s MASK32]}.

(** One turn of a loop of [init_by_array], on the state and the two indices. *)
Definition wrap (x : gmap Z Z) (i : Z) : gmap Z Z * Z :=
  if N <=? i then (<[0 := at_ x (N - 1)]> x, 1) else (x, i).
Definition mix (mult : Z) (x : gmap Z Z) (i addend : Z) : gmap Z Z * Z :=
  let p := at_ x (i - 1) in
  wrap (<[i := Z.land (Z.lxor (at_ x i) (Z.lxor p (Z.shiftr p 30) * mult) + addend) MASK32]> x) (i + 1).

(** [init_by_array(key)] *)
Definition init_by_array (key : list Z) : gmap Z Z :=
  let len := Z.of_nat (length key) in
  let '(x, i, _) := fold_left (fun '(x, i, j) _ =>
    let '(x', i') := mix 1664525 x i (nth (Z.to_nat j) key 0 + j) in
    (x', i', if len <=? j + 1 then 0 else j + 1)) (seqZ 0 (Z.max N len)) (init_genrand 19650218, 1, 0) in
  let '(x, _) := fold_left (fun '(x, i) _ => mix 1566083941 x i (- i)) (seqZ 0 (N - 1)) (x, i) in
  <[0 := 0x80000000]> x.

(** The 32-bit words of an integer, least significant first; one word for zero. *)
Fixpoint words_of (n : nat) (v : Z) : list Z :=
  match n with O => [] | S n' => Z.land v MASK32 :: words_of n' (Z.shiftr v 32) end.
Definition key_of (seed : Z) : list Z :=
  words_of (Z.to_nat (Z.max 1 ((bit_length seed + 31) / 32))) (Z.abs seed).

(** [random.Random(seed)] *)
Definition Random_ (seed : Z) : Random := {| mt := init_by_array (key_of seed); index := N |}.

(** The next 624 words. *)
Definition twist_at (x : gmap Z Z) (k : Z) : gmap Z Z :=
  let y := Z.lor (Z.land (at_ x k) UPPER_MASK) (Z.land (at_ x ((k + 1) mod N)) LOWER_MASK) in
  <[k := Z.lxor (Z.lxor (at_ x ((k + M) mod N)) (Z.shiftr y 1)) (if Z.odd y then MATRIX_A else 0)]> x.
Definition twist (x : gmap Z Z) : gmap Z Z := fold_left twist_at (seqZ 0 N) x.

Definition temper (y : Z) : Z :=
  let y := Z.lxor y (Z.shiftr y 11) in
  let y := Z.lxor y (Z.land (Z.shiftl y 7) 0x9d2c5680) in
  let y := Z.lxor y (Z.land (Z.shiftl y 15) 0xefc60000) in
  Z.lxor y (Z.shiftr y 18).

Definition genrand (s : Random) : Random * Z :=
  let s := if index s <? N then s else {| mt := twist (mt s); index := 0 |} in
  ({| mt := mt s; index := index s + 1 |}, Z.land (temper (at_ (mt s) (index s))) MASK32).

(** [getrandbits(k)]: the high bits of as many words as they need, least significant
    word first. *)
Fixpoint bits_from (words : nat) (k : Z) (s : Random) : Random * Z :=
  match words with
  | O => (s, 0)
  | S words' =>
      let '(s, r) := genrand s in
      let low := if k <? 32 then Z.shiftr r (32 - k) else r in
      let '(s, high) := bits_from words' (k - 32) s in
      (s, Z.lor low (Z.shiftl high 32))
  end.
Definition getrandbits_ (k : Z) : method Random Z := fun s =>
  if k <? 0 then (s, Raise (ValueError "number of bits must be non-negative"))
  else let '(s, v) := bits_from (Z.to_nat ((k + 31) / 32)) k s in (s, Ok v).

(** [_randbelow(n)]: draw until a value is below [n]. A draw is at least as likely
    as not to be; 256 draws are the fuel. *)
Fixpoint reject (fuel : nat) (n : Z) : method Random Z :=
  match fuel with
  | O => m_raise OutOfFuel
  | S fuel' => do! r := getrandbits_ (bit_length n) in if n <=? r then reject fuel' n else m_ret r
  end.
Definition ATTEMPTS : nat := 256.
Definition randbelow_ (n : Z) : method Random Z := reject ATTEMPTS n.

#[global] Instance random_rng : Rng Random := {| getrandbits := getrandbits_; randbelow := randbelow_ |}.

End mersenne.

(** ** The laws, for the Mersenne Twister *)
Section Laws.
Import mersenne.

Lemma genrand_range s s' v : genrand s = (s', v) -> 0 <= v < 2 ^ 32.
Proof. unfold genrand. intros E. injection E as _ <-. rewrite mask32_mod. apply Z.mod_pos_bound. lia. Qed.

Lemma bits_from_range n : forall k s s' v,
  0 <= k <= 32 * Z.of_nat n -> 32 * (Z.of_nat n - 1) < k -> bits_from n k s = (s', v) -> 0 <= v < 2 ^ k.
Proof.
  induction n as [| n IH]; intros k s s' v Hk Hn; cbn [bits_from].
  - intros E. injection E as _ <-. pose proof (Z.pow_pos_nonneg 2 k). lia.
  - destruct (genrand s) as [s1 r] eqn:Eg. apply genrand_range in Eg.
    destruct (bits_from n (k - 32) s1) as [s2 high] eqn:Eb. intros E. injection E as _ <-.
    destruct (Z.ltb_spec k 32) as [Hlt | Hge].
    + assert (n = O) as -> by lia. cbn in Eb. injection Eb as _ <-.
      rewrite Z.shiftl_0_l, Z.lor_0_r, Z.shiftr_div_pow2 by lia.
      split; [apply Z.div_pos; lia |]. apply Z.div_lt_upper_bound; [lia |]. rewrite <- Z.pow_add_r by lia.
      replace (32 - k + k) with 32 by lia. lia.
    + apply IH in Eb; [| lia | lia].
      rewrite Z.lor_comm, lor_shiftl_add by lia.
      replace (2 ^ k) with (2 ^ (k - 32) * 2 ^ 32) by (rewrite <- Z.pow_add_r by lia; f_equal; lia).
      nia.
Qed.

Lemma getrandbits_ok k s : 0 <= k -> exists s' v, getrandbits_ k s = (s', Ok v) /\ 0 <= v < 2 ^ k.
Proof.
  intros Hk. unfold getrandbits_. rewrite (proj2 (Z.ltb_ge k 0)) by lia.
  destruct (bits_from _ k s) as [s' v] eqn:E. exists s', v. split; [reflexivity |].
  apply bits_from_range in E; [exact E | |]; word_lia.
Qed.

Lemma bit_length_spec n : 0 < n -> n < 2 ^ bit_length n.
Proof.
  intros Hn. unfold bit_length. rewrite (proj2 (Z.eqb_neq n 0)), Z.abs_eq by lia.
  pose proof (Z.log2_spec n Hn). lia.
Qed.

Lemma bit_length_nonneg n : 0 <= bit_length n.
Proof. unfold bit_length. destruct (n =? 0); [lia |]. pose proof (Z.log2_nonneg (Z.abs n)). lia. Qed.

Lemma reject_range fuel : forall n s s' r,
  reject fuel n s = (s', r) -> match r with Ok v => 0 <= v < n | Raise e => e = OutOfFuel end.
Proof.
  induction fuel as [| fuel IH]; intros n s s' r; cbn [reject].
  - intros E. injection E as _ <-. reflexivity.
  - destruct (getrandbits_ok (bit_length n) s (bit_length_nonneg n)) as (s1 & v & E1 & Hv).
    rewrite (m_bind_ok _ _ _ _ _ E1). destruct (Z.leb_spec n v); [apply IH |].
    intros E. injection E as _ <-. lia.
Qed.

#[global] Instance random_laws : RngLaws Random.
Proof.
  split.
  - exact getrandbits_ok.
  - intros n s s' v _ E. apply (reject_range _ _ _ _ _ E).
  - intros n s s' e _ E. apply (reject_range _ _ _ _ _ E).
Qed.
End Laws.
