(* ===== verification/ExecResult.v ===== *)
(** * What the integer families have in common

    Every family module returns a frozen dataclass with the same five members
    ([value], [ca], [ov], [so], [cr0]) and computes CR0 by the same inline
    expression.  [ExecResult] is the interface the flag-commit machine of
    [FlagState] is written against: each family's record is an instance, and
    [WellFormed] is the promise its [evaluate] keeps. *)
From S2P Require Import Prelude.

(** The relation bits of CR0: LT, GT or EQ against zero. *)
Definition cr0_relation (value : Z) : Z :=
  if truthy (Z.land value (Z.shiftl 1 31)) then 8 else if value =? 0 then 2 else 4.

(** The flag check the modules call [_bit]. *)
Definition check_bit (v : Z) (name : string) : result Z :=
  if negb (is_flag v) then Raise (ValueError (name ++ " must be 0 or 1")) else Ok v.

(** The 0..31 check of [_five_bits] and of the encoders' loops; [what] is the
    tail of the message. *)
Definition check_five (what : string) (v : Z) (name : string) : result Z :=
  if negb (in_range 0 32 v) then Raise (ValueError (name ++ what)) else Ok v.

(** [for value, name in (...): if not 0 <= value < 32: raise]. *)
Fixpoint check_indices (what : string) (l : list (Z * string)) : result unit :=
  match l with
  | [] => Ok tt
  | (value, name) :: l' =>
      if negb (in_range 0 32 value) then Raise (ValueError (name ++ what))
      else check_indices what l'
  end.

Class ExecResult (R : Type) := {
  er_value : R -> Z;
  er_ca : R -> Z;
  er_ov : R -> Z;
  er_so : R -> Z;
  er_cr0 : R -> Z
}.

(** A 32-bit value, three flag bits and a CR nibble. *)
Record WellFormed {R} `{ExecResult R} (r : R) : Prop := {
  wf_value : 0 <= er_value r < 2 ^ 32;
  wf_ca : is_flag (er_ca r) = true;
  wf_ov : is_flag (er_ov r) = true;
  wf_so : is_flag (er_so r) = true;
  wf_cr0 : 0 <= er_cr0 r < 16
}.

(** The specification of a recorded (Rc=1) CR0: the sign of the result read as
    a signed word, and the summary overflow bit. *)
Definition cr0_spec (value so : Z) : Z :=
  (if to_signed32 value <? 0 then 8 else if to_signed32 value =? 0 then 2 else 4) + so.

Lemma cr0_relation_signed value :
  0 <= value < 2 ^ 32 ->
  cr0_relation value =
  if to_signed32 value <? 0 then 8 else if to_signed32 value =? 0 then 2 else 4.
Proof.
  intros Hv. unfold cr0_relation.
  rewrite truthy_land_bit, testbit_top, to_signed32_spec, Z.mod_small by lia.
  destruct (Z.leb_spec (2 ^ 31) value).
  - destruct (Z.ltb_spec (value - 2 ^ 32) 0); [reflexivity | lia].
  - destruct (Z.ltb_spec value 0); [lia | reflexivity].
Qed.

Lemma cr0_lor value so :
  0 <= value < 2 ^ 32 -> is_flag so = true -> Z.lor (cr0_relation value) so = cr0_spec value so.
Proof.
  intros Hv Hso. apply is_flag_iff in Hso. unfold cr0_spec.
  rewrite <- cr0_relation_signed by assumption. unfold cr0_relation.
  destruct Hso as [-> | ->]; repeat case_if; reflexivity.
Qed.

Lemma cr0_relation_range value : 0 <= cr0_relation value < 16.
Proof. unfold cr0_relation. repeat case_if; lia. Qed.

Lemma cr0_range value so : is_flag so = true -> 0 <= Z.lor (cr0_relation value) so < 16.
Proof.
  intros Hso. apply is_flag_iff in Hso. change 16 with (2 ^ 4).
  pose proof (cr0_relation_range value). apply lor_bound; lia.
Qed.
#[export] Hint Resolve mask32_range cr0_range : py.

Lemma check_bit_ok v name : is_flag v = true -> check_bit v name = Ok v.
Proof. unfold check_bit. intros ->. reflexivity. Qed.

Lemma check_bit_inv v name w : check_bit v name = Ok w -> is_flag v = true /\ w = v.
Proof.
  unfold check_bit. destruct (is_flag v); simpl; intros H; [injection H as H; auto | discriminate].
Qed.

Lemma check_five_inv what v name w : check_five what v name = Ok w -> 0 <= v < 32 /\ w = v.
Proof.
  unfold check_five. destruct (in_range 0 32 v) eqn:E; simpl; intros H; [| discriminate].
  apply in_range_iff in E. injection H as H. auto.
Qed.

Lemma check_five_ok what v name : 0 <= v < 32 -> check_five what v name = Ok v.
Proof. intros H. unfold check_five. rewrite (proj2 (in_range_iff _ _ _) H). reflexivity. Qed.

Lemma check_indices_ok what l :
  Forall (fun p => 0 <= fst p < 32) l -> check_indices what l = Ok tt.
Proof.
  induction 1 as [| [v n] l Hv _ IH]; [reflexivity |].
  cbn [fst] in Hv. cbn. rewrite (proj2 (in_range_iff _ _ _) Hv). exact IH.
Qed.

Lemma check_indices_inv what l u :
  check_indices what l = Ok u -> Forall (fun p => 0 <= fst p < 32) l.
Proof.
  induction l as [| [v n] l IH]; intros H; constructor; cbn in *;
    destruct (in_range 0 32 v) eqn:E; try discriminate; auto.
  apply in_range_iff in E. exact E.
Qed.

Lemma nibble_in_range v : (0 <=? v) && (v <=? 0xF) = in_range 0 16 v.
Proof. unfold in_range. f_equal. destruct (Z.leb_spec v 15), (Z.ltb_spec v 16); auto; lia. Qed.

(** A value fits the two's complement range of [n] bits. *)
Definition signed_fits (n t : Z) : bool := (- 2 ^ (n - 1) <=? t) && (t <? 2 ^ (n - 1)).

Definition word (w : Z) : Prop := 0 <= w < 2 ^ 32.
