(* ===== verification/AddFamily.v ===== *)
(** * The ADD family ([sim/tools/add_family.py])

    [add], [addc], [adde], [addme] and [addze] with their XER and CR0 side
    effects, the XO-form encoder and the anchor vectors. *)
From S2P Require Import Prelude ExecResult.

Module add_family.

Definition MIN_SIGNED : Z := - Z.shiftl 1 31.
Definition MAX_SIGNED : Z := Z.shiftl 1 31 - 1.

Definition XO : dict Z :=
  [("add", 266); ("addc", 10); ("adde", 138); ("addme", 234); ("addze", 202)]%string.

Record AddResult : Type := {
  value : Z;
  ca : Z;
  ov : Z;
  so : Z;
  cr0 : Z
}.

Definition _bit (v : Z) (name : string) : result Z := check_bit v name.

Definition _signed (v : Z) : Z := to_signed32 v.

(** The unsigned and the signed total of one form. *)
Definition totals (family : string) (a b ca : Z) : Z * Z :=
  if str_in family ["add"; "addc"]%string then (a + b, _signed a + _signed b)
  else if String.eqb family "adde" then (a + b + ca, _signed a + _signed b + ca)
  else if String.eqb family "addme" then (a + MASK32 + ca, _signed a + ca - 1)
  else (a + ca, _signed a + ca).

Definition evaluate (family : string) (a b ca oe rc old_ov old_so old_cr0 : Z)
  : result AddResult :=
  require! dict_mem XO family else ValueError ("unknown ADD family: " ++ family) in
  let! ca := _bit ca "ca" in
  let! oe := _bit oe "oe" in
  let! rc := _bit rc "rc" in
  let! old_ov := _bit old_ov "old_ov" in
  let! old_so := _bit old_so "old_so" in
  require! (0 <=? old_cr0) && (old_cr0 <=? 0xF) else ValueError "old_cr0 must be a nibble" in
  let a := Z.land a MASK32 in
  let b := Z.land b MASK32 in
  let '(unsigned_total, signed_total) := totals family a b ca in
  let value := Z.land unsigned_total MASK32 in
  let carry := Z.b2z (MASK32 <? unsigned_total) in
  let new_ca := if String.eqb family "add" then ca else carry in
  let overflow := Z.b2z ((signed_total <? MIN_SIGNED) || (MAX_SIGNED <? signed_total)) in
  let new_ov := if truthy oe then overflow else old_ov in
  let new_so := if truthy oe then Z.lor old_so overflow else old_so in
  let new_cr0 := if truthy rc then Z.lor (cr0_relation value) new_so else old_cr0 in
  Ok {| value := value; ca := new_ca; ov := new_ov; so := new_so; cr0 := new_cr0 |}.

Definition encode (family : string) (oe rc rd ra rb : Z) : result Z :=
  match dict_get XO family with
  | None => Raise (ValueError ("unknown ADD family: " ++ family))
  | Some xo =>
      let! oe := _bit oe "oe" in
      let! rc := _bit rc "rc" in
      let! _ := check_indices " must be a five-bit register index" [(rd, "rd"); (ra, "ra"); (rb, "rb")]%string in
      require! negb (str_in family ["addme"; "addze"]%string && negb (rb =? 0))
        else ValueError (family ++ " rB field is reserved and must be zero") in
      Ok (Z.lor (Z.lor (Z.lor (Z.lor (Z.lor (Z.lor (Z.shiftl 31 26) (Z.shiftl rd 21))
            (Z.shiftl ra 16)) (Z.shiftl rb 11)) (Z.shiftl oe 10)) (Z.shiftl xo 1)) rc)
  end.

(** The members of one anchor vector, in the dictionary's order. *)
Record Anchor : Type := {
  a_family : string; a_a : Z; a_b : Z; a_ca : Z; a_oe : Z; a_rc : Z
}.

Definition anchor_vectors : list Anchor := [
  Build_Anchor "add" 0xFFFFFFFF 1 0 0 0;
  Build_Anchor "addc" 0xFFFFFFFF 1 0 0 0;
  Build_Anchor "adde" 0xFFFFFFFF 0 1 0 0;
  Build_Anchor "addme" 0 0 0 0 0;
  Build_Anchor "addme" 0 0 1 0 0;
  Build_Anchor "addze" 0xFFFFFFFF 0 1 0 0;
  Build_Anchor "add" 0x7FFFFFFF 1 0 1 1;
  Build_Anchor "addme" 0x80000000 0 0 1 1;
  Build_Anchor "addze" 0x7FFFFFFF 0 1 1 1
].

End add_family.

#[export] Instance AddResult_exec : ExecResult add_family.AddResult := {|
  er_value := add_family.value;
  er_ca := add_family.ca;
  er_ov := add_family.ov;
  er_so := add_family.so;
  er_cr0 := add_family.cr0
|}.

Section Evaluate.
Import add_family.

(** The argument checks of [evaluate], in one predicate. *)
Definition add_args_ok (family : string) (ca oe rc old_ov old_so old_cr0 : Z) : bool :=
  dict_mem XO family && is_flag ca && is_flag oe && is_flag rc && is_flag old_ov
  && is_flag old_so && in_range 0 16 old_cr0.

(** Every form adds a second operand and a carry-in to [a]. *)
Definition second_operand (family : string) (b : Z) : Z :=
  if str_in family ["add"; "addc"; "adde"]%string then b mod 2 ^ 32
  else if String.eqb family "addme" then 2 ^ 32 - 1 else 0.

Definition carry_in (family : string) (ca : Z) : Z :=
  if str_in family ["add"; "addc"]%string then 0 else ca.

Lemma add_args_ok_iff family ca oe rc old_ov old_so old_cr0 :
  add_args_ok family ca oe rc old_ov old_so old_cr0 = true <->
  dict_mem XO family = true /\ is_flag ca = true /\ is_flag oe = true /\ is_flag rc = true /\
  is_flag old_ov = true /\ is_flag old_so = true /\ 0 <= old_cr0 < 16.
Proof. unfold add_args_ok. rewrite !andb_true_iff, in_range_iff. tauto. Qed.

Lemma totals_spec family a b ca :
  dict_mem XO family = true ->
  totals family (a mod 2 ^ 32) (b mod 2 ^ 32) ca =
  (a mod 2 ^ 32 + second_operand family b + carry_in family ca,
   to_signed32 a + to_signed32 (second_operand family b) + carry_in family ca).
Proof.
  intros Hf. unfold totals, second_operand, carry_in, _signed.
  assert (forall x, to_signed32 (x mod 2 ^ 32) = to_signed32 x) as Hm.
  { intros x. rewrite !to_signed32_spec, Z.mod_mod by lia. reflexivity. }
  assert (to_signed32 (2 ^ 32 - 1) = -1) as H1 by reflexivity.
  assert (to_signed32 0 = 0) as H0 by reflexivity.
  dict_cases Hf; cbn; rewrite ?Hm; f_equal; try (change (to_signed32 4294967295) with (-1)); unfold MASK32; lia.
Qed.

(** Success happens exactly when the arguments pass the checks, and the result
    is then determined by the operand and carry of the form. *)
Lemma add_evaluate_eq family a b ca oe rc old_ov old_so old_cr0 :
  add_args_ok family ca oe rc old_ov old_so old_cr0 = true ->
  evaluate family a b ca oe rc old_ov old_so old_cr0 =
    let total := a mod 2 ^ 32 + second_operand family b + carry_in family ca in
    let stotal := to_signed32 a + to_signed32 (second_operand family b) + carry_in family ca in
    let v := total mod 2 ^ 32 in
    let o := Z.b2z ((stotal <? MIN_SIGNED) || (MAX_SIGNED <? stotal)) in
    let so := if truthy oe then Z.lor old_so o else old_so in
    Ok {| value := v;
          ca := if String.eqb family "add" then ca else Z.b2z (MASK32 <? total);
          ov := if truthy oe then o else old_ov;
          so := so;
          cr0 := if truthy rc then Z.lor (cr0_relation v) so else old_cr0 |}.
Proof.
  intros Hok. apply add_args_ok_iff in Hok. destruct Hok as (Hf & Hca & Hoe & Hrc & Hov & Hso & Hcr).
  unfold evaluate. unfold _bit. rewrite Hf, !check_bit_ok, nibble_in_range by assumption.
  rewrite (proj2 (in_range_iff _ _ _) Hcr). rewrite !mask32_mod.
  rewrite totals_spec by assumption. cbv zeta. rewrite !mask32_mod. reflexivity.
Qed.

Lemma add_evaluate_ok_args family a b ca oe rc old_ov old_so old_cr0 r :
  evaluate family a b ca oe rc old_ov old_so old_cr0 = Ok r ->
  add_args_ok family ca oe rc old_ov old_so old_cr0 = true.
Proof.
  unfold evaluate, add_args_ok. intros H.
  destruct (dict_mem XO family); [| discriminate].
  unfold _bit, check_bit in H.
  destruct (is_flag ca); [| discriminate]. destruct (is_flag oe); [| discriminate].
  destruct (is_flag rc); [| discriminate]. destruct (is_flag old_ov); [| discriminate].
  destruct (is_flag old_so); [| discriminate].
  cbn [negb] in H. rewrite nibble_in_range in H.
  destruct (in_range 0 16 old_cr0); [reflexivity | discriminate].
Qed.

Lemma second_operand_range family b :
  dict_mem XO family = true -> 0 <= second_operand family b < 2 ^ 32.
Proof.
  intros Hf. unfold second_operand. pose proof (Z.mod_pos_bound b (2 ^ 32)).
  dict_cases Hf; cbn; lia.
Qed.

Lemma carry_in_flag family ca : is_flag ca = true -> 0 <= carry_in family ca <= 1.
Proof.
  intros H. apply is_flag_iff in H. unfold carry_in. case_if; lia.
Qed.

Lemma add_total_range family a b ca :
  dict_mem XO family = true -> is_flag ca = true ->
  0 <= a mod 2 ^ 32 + second_operand family b + carry_in family ca < 2 * 2 ^ 32.
Proof.
  intros Hf Hca. pose proof (second_operand_range family b Hf).
  pose proof (carry_in_flag family ca Hca). pose proof (Z.mod_pos_bound a (2 ^ 32)). lia.
Qed.

Lemma carry_split t :
  0 <= t < 2 * 2 ^ 32 -> t mod 2 ^ 32 + 2 ^ 32 * Z.b2z (MASK32 <? t) = t.
Proof.
  intros Ht. unfold MASK32. destruct (Z.ltb_spec 0xffffffff t).
  - rewrite <- (Z.mod_unique t (2 ^ 32) 1 (t - 2 ^ 32)) by lia. cbn. lia.
  - rewrite Z.mod_small by lia. cbn. lia.
Qed.

(** The record [evaluate] returns is well formed. *)
Lemma add_evaluate_wf family a b ca oe rc old_ov old_so old_cr0 r :
  evaluate family a b ca oe rc old_ov old_so old_cr0 = Ok r -> WellFormed r.
Proof.
  intros H. pose proof (add_evaluate_ok_args _ _ _ _ _ _ _ _ _ _ H) as Hok.
  rewrite add_evaluate_eq in H by assumption. injection H as <-.
  apply add_args_ok_iff in Hok. destruct Hok as (Hf & Hca & Hoe & Hrc & Hov & Hso & Hcr).
  split; cbn; [apply Z.mod_pos_bound; lia | | | |]; repeat case_if; auto with py.
Qed.

(** Which argument lists raise: exactly those that fail a check. *)
Lemma add_evaluate_ok_iff family a b ca oe rc old_ov old_so old_cr0 :
  is_ok (evaluate family a b ca oe rc old_ov old_so old_cr0) =
  add_args_ok family ca oe rc old_ov old_so old_cr0.
Proof.
  destruct (add_args_ok family ca oe rc old_ov old_so old_cr0) eqn:Hok.
  - rewrite add_evaluate_eq by assumption. reflexivity.
  - destruct (evaluate family a b ca oe rc old_ov old_so old_cr0) eqn:E; [| reflexivity].
    apply add_evaluate_ok_args in E. congruence.
Qed.

(** ** Multiword addition *)

(** The little-endian value of a list of words. *)
Fixpoint limbs (ws : list Z) : Z :=
  match ws with [] => 0 | w :: ws' => w + 2 ^ 32 * limbs ws' end.

(** Add two multiword numbers limb by limb with [adde] (OE=1), each step taking
    the XER and CR0 the previous one left. *)
Fixpoint adde_chain (xs : list (Z * Z)) (r : AddResult) : result (list Z * AddResult) :=
  match xs with
  | [] => Ok ([], r)
  | (a, b) :: xs' =>
      let! r1 := evaluate "adde" a b (ca r) 1 0 (ov r) (so r) (cr0 r) in
      let! p := adde_chain xs' r1 in
      Ok (value r1 :: fst p, snd p)
  end.

Lemma overflow_fits t :
  (t <? MIN_SIGNED) || (MAX_SIGNED <? t) = negb (signed_fits 32 t).
Proof.
  unfold signed_fits, MAX_SIGNED, MIN_SIGNED. change (Z.shiftl 1 31) with (2 ^ 31).
  change (32 - 1) with 31.
  destruct (Z.ltb_spec t (- 2 ^ 31)), (Z.ltb_spec (2 ^ 31 - 1) t),
    (Z.leb_spec (- 2 ^ 31) t), (Z.ltb_spec t (2 ^ 31)); auto; lia.
Qed.

Lemma adde_step a b r :
  word a -> word b -> WellFormed r ->
  exists r1, evaluate "adde" a b (ca r) 1 0 (ov r) (so r) (cr0 r) = Ok r1 /\ WellFormed r1 /\
    word (value r1) /\ value r1 + 2 ^ 32 * ca r1 = a + b + ca r /\
    ov r1 = Z.b2z (negb (signed_fits 32 (to_signed32 a + to_signed32 b + ca r))) /\
    so r1 = Z.lor (so r) (ov r1).
Proof.
  intros Ha Hb Hr. unfold word in *.
  assert (Hok : add_args_ok "adde" (ca r) 1 0 (ov r) (so r) (cr0 r) = true).
  { apply add_args_ok_iff. destruct Hr as [_ H1 H2 H3 H4]; cbn in *. repeat split; auto; lia. }
  pose proof (add_evaluate_eq "adde" a b _ _ _ _ _ _ Hok) as E.
  eexists. split; [exact E |]. split; [eapply add_evaluate_wf; exact E |].
  apply add_args_ok_iff in Hok. destruct Hok as (Hf & Hca & _).
  pose proof (add_total_range "adde" a b (ca r) Hf Hca) as Ht.
  unfold second_operand, carry_in, word in *. cbn -[Z.pow Z.modulo Z.mul to_signed32 MASK32] in *.
  rewrite !(Z.mod_small a), !(Z.mod_small b) in * by lia.
  repeat split; try (apply Z.mod_pos_bound; lia).
  - rewrite carry_split by lia. lia.
  - rewrite overflow_fits. reflexivity.
Qed.

Lemma limbs_range ws : Forall word ws -> 0 <= limbs ws < 2 ^ (32 * Z.of_nat (length ws)).
Proof.
  induction 1 as [| w ws Hw _ IH]; cbn [limbs length].
  - cbn. lia.
  - replace (32 * Z.of_nat (S (length ws))) with (32 + 32 * Z.of_nat (length ws)) by lia.
    rewrite Z.pow_add_r by lia. unfold word in Hw. nia.
Qed.

Lemma limbs_app ws vs :
  limbs (ws ++ vs) = limbs ws + 2 ^ (32 * Z.of_nat (length ws)) * limbs vs.
Proof.
  induction ws as [| w ws IH]; cbn [limbs length app].
  - change (2 ^ (32 * Z.of_nat 0)) with 1. lia.
  - rewrite IH. replace (32 * Z.of_nat (S (length ws))) with (32 + 32 * Z.of_nat (length ws)) by lia.
    rewrite Z.pow_add_r by lia. ring.
Qed.

Lemma adde_chain_sum xs : forall r,
  Forall (fun p => word (fst p) /\ word (snd p)) xs -> WellFormed r ->
  exists vs r', adde_chain xs r = Ok (vs, r') /\ WellFormed r' /\ Forall word vs /\
    length vs = length xs /\
    limbs vs + 2 ^ (32 * Z.of_nat (length xs)) * ca r' =
      limbs (map fst xs) + limbs (map snd xs) + ca r.
Proof.
  induction xs as [| [a b] xs IH]; intros r Hxs Hr.
  - exists [], r. cbn. repeat split; auto; try apply Hr. destruct (ca r); lia.
  - inversion Hxs as [| ? ? [Ha Hb] Hxs']; subst. cbn [fst snd] in *.
    destruct (adde_step a b r Ha Hb Hr) as (r1 & E1 & Hr1 & Hv1 & Hs1 & _).
    destruct (IH r1 Hxs' Hr1) as (vs & r' & E2 & Hr' & Hvs & Hlen & Hsum).
    exists (value r1 :: vs), r'. cbn [adde_chain map fst snd limbs length].
    rewrite E1, E2. cbn [fst snd]. repeat split; auto; try apply Hr'.
    replace (32 * Z.of_nat (S (length xs))) with (32 + 32 * Z.of_nat (length xs)) by lia.
    rewrite Z.pow_add_r by lia. nia.
Qed.

Lemma adde_chain_snoc xs a b : forall r vs r1 r2,
  adde_chain xs r = Ok (vs, r1) ->
  evaluate "adde" a b (ca r1) 1 0 (ov r1) (so r1) (cr0 r1) = Ok r2 ->
  adde_chain (xs ++ [(a, b)]) r = Ok (vs ++ [value r2], r2).
Proof.
  induction xs as [| [x y] xs IH]; intros r vs r1 r2 H1 H2.
  - cbn [adde_chain] in H1. injection H1 as <- <-. cbn [app adde_chain]. rewrite H2. reflexivity.
  - cbn [adde_chain app] in *. destruct (evaluate "adde" x y _ _ _ _ _ _) as [r3 |]; [| discriminate].
    destruct (adde_chain xs r3) as [[vs' r'] |] eqn:E; [| discriminate].
    cbn [fst snd] in H1. injection H1 as <- ->. rewrite (IH _ _ _ _ E H2). reflexivity.
Qed.

(** The two's complement value of a number whose top limb is [w]. *)
Definition signed_limbs (ws : list Z) (w : Z) : Z :=
  limbs ws + 2 ^ (32 * Z.of_nat (length ws)) * to_signed32 w.

End Evaluate.

Section AddTheorems.
Import add_family.

(** C1. Multiword addition by an [adde] chain is integer addition: the limbs it
    writes and the carry it leaves are the sum of the two numbers and the
    incoming carry, and OV of the last step tells exactly when the sum of the
    numbers read in two's complement does not fit. *)
Theorem adde_chain_correct xs a b r :
  Forall (fun p => word (fst p) /\ word (snd p)) xs -> word a -> word b -> WellFormed r ->
  exists vs v r',
    adde_chain (xs ++ [(a, b)]) r = Ok (vs ++ [v], r') /\
    Forall word (vs ++ [v]) /\ length vs = length xs /\
    limbs (vs ++ [v]) + 2 ^ (32 * Z.of_nat (S (length xs))) * ca r' =
      limbs (map fst xs ++ [a]) + limbs (map snd xs ++ [b]) + ca r /\
    ov r' = Z.b2z (negb (signed_fits (32 * Z.of_nat (S (length xs)))
      (signed_limbs (map fst xs) a + signed_limbs (map snd xs) b + ca r))).
Proof.
  intros Hxs Ha Hb Hr.
  destruct (adde_chain_sum xs r Hxs Hr) as (vs & r1 & E1 & Hr1 & Hvs & Hlen & Hsum).
  destruct (adde_step a b r1 Ha Hb Hr1) as (r2 & E2 & Hr2 & Hv & Hs & Ho & _).
  exists vs, (value r2), r2. rewrite (adde_chain_snoc _ _ _ _ _ _ _ E1 E2).
  pose proof (limbs_range vs Hvs) as Hr0.
  repeat split; auto.
  - apply Forall_app. auto.
  - rewrite !limbs_app, !length_map, Hlen. cbn [limbs].
    replace (32 * Z.of_nat (S (length xs))) with (32 + 32 * Z.of_nat (length xs)) by lia.
    rewrite Z.pow_add_r by lia. nia.
  - rewrite Ho. f_equal. f_equal. unfold signed_limbs. rewrite !length_map.
    rewrite Hlen in Hr0. unfold signed_fits.
    replace (32 * Z.of_nat (S (length xs)) - 1) with (31 + 32 * Z.of_nat (length xs)) by lia.
    rewrite Z.pow_add_r by lia. change (32 - 1) with 31.
    remember (2 ^ (32 * Z.of_nat (length xs))) as B.
    replace (limbs (map fst xs) + B * to_signed32 a + (limbs (map snd xs) + B * to_signed32 b) + ca r)
      with (limbs vs + B * (to_signed32 a + to_signed32 b + ca r1)) by nia.
    generalize (to_signed32 a + to_signed32 b + ca r1). intros t.
    f_equal.
    + destruct (Z.leb_spec (- 2 ^ 31) t), (Z.leb_spec (- (2 ^ 31 * B)) (limbs vs + B * t)); auto; nia.
    + destruct (Z.ltb_spec t (2 ^ 31)), (Z.ltb_spec (limbs vs + B * t) (2 ^ 31 * B)); auto; nia.
Qed.

Lemma adde_chain_correct_witness :
  exists vs v r',
    adde_chain ([(0xffffffff, 1); (0xffffffff, 0)] ++ [(0x7fffffff, 0)])
      (Build_AddResult 0 0 0 0 0) = Ok (vs ++ [v], r') /\
    Forall word (vs ++ [v]) /\ length vs = 2%nat /\
    limbs (vs ++ [v]) + 2 ^ 96 * ca r' =
      limbs [0xffffffff; 0xffffffff; 0x7fffffff] + limbs [1; 0; 0] + 0 /\
    ov r' = Z.b2z (negb (signed_fits 96
      (signed_limbs [0xffffffff; 0xffffffff] 0x7fffffff + signed_limbs [1; 0] 0 + 0))).
Proof.
  apply (adde_chain_correct [(0xffffffff, 1); (0xffffffff, 0)] 0x7fffffff 0
           (Build_AddResult 0 0 0 0 0)).
  - repeat constructor; cbn; discriminate.
  - unfold word. lia.
  - unfold word. lia.
  - split; cbn; try reflexivity; lia.
Defined.

(** C2. One [evaluate]: it succeeds exactly on a known form, 0/1 flags and a CR
    nibble; the result and carry-out are the unsigned sum of [a], the form's
    second operand and its carry-in ([add] leaves CA alone); OV (with OE) says
    the signed sum does not fit in 32 bits, SO is sticky, and a recorded CR0 is
    the sign of the result with the new SO. *)
Theorem add_evaluate_correct family a b c oe rc old_ov old_so old_cr0 :
  match evaluate family a b c oe rc old_ov old_so old_cr0 with
  | Raise _ => add_args_ok family c oe rc old_ov old_so old_cr0 = false
  | Ok r =>
      add_args_ok family c oe rc old_ov old_so old_cr0 = true /\
      let cin := carry_in family c in
      let b' := second_operand family b in
      0 <= value r < 2 ^ 32 /\
      (if String.eqb family "add"
       then ca r = c /\ value r = (a + b) mod 2 ^ 32
       else is_flag (ca r) = true /\ value r + 2 ^ 32 * ca r = a mod 2 ^ 32 + b' + cin) /\
      ov r = (if truthy oe then Z.b2z (negb (signed_fits 32 (to_signed32 a + to_signed32 b' + cin)))
              else old_ov) /\
      so r = (if truthy oe then Z.lor old_so (ov r) else old_so) /\
      cr0 r = (if truthy rc then cr0_spec (value r) (so r) else old_cr0)
  end.
Proof.
  destruct (evaluate family a b c oe rc old_ov old_so old_cr0) as [r | e] eqn:E.
  2: { rewrite <- (add_evaluate_ok_iff family a b), E. reflexivity. }
  pose proof (add_evaluate_ok_args _ _ _ _ _ _ _ _ _ _ E) as Hok. split; [exact Hok |].
  pose proof (add_evaluate_wf _ _ _ _ _ _ _ _ _ _ E) as [Hv Hca _ Hso _].
  rewrite add_evaluate_eq in E by assumption. injection E as <-.
  apply add_args_ok_iff in Hok. destruct Hok as (Hf & Hc & _).
  pose proof (add_total_range family a b c Hf Hc) as Ht.
  cbn -[Z.modulo Z.pow Z.mul Z.add String.eqb] in Hv, Hca, Hso |- *.
  repeat split; try apply Hv.
  - destruct (String.eqb_spec family "add") as [-> | Hne].
    + split; [reflexivity |]. unfold second_operand, carry_in. cbn -[Z.modulo Z.pow Z.add].
      rewrite Z.add_0_r, <- Z.add_mod by lia. reflexivity.
    + split; [apply is_flag_b2z |]. apply carry_split. lia.
  - rewrite overflow_fits. reflexivity.
  - case_if; reflexivity.
  - destruct (truthy rc); [| reflexivity]. apply cr0_lor; assumption.
Qed.

End AddTheorems.
