(* ===== verification/LogicalFamily.v ===== *)
(** * Register-logical instructions ([sim/tools/logical_family.py]) *)
From S2P Require Import Prelude ExecResult.

Module logical_family.

Definition XO : dict Z :=
  [("and", 28); ("andc", 60); ("or", 444); ("orc", 412); ("xor", 316); ("nand", 476);
   ("nor", 124); ("eqv", 284)]%string.

Record LogicalResult : Type := {
  value : Z;
  ca : Z;
  ov : Z;
  so : Z;
  cr0 : Z
}.

Definition _bit (v : Z) (name : string) : result Z := check_bit v name.

(** The Boolean operation of a form, before it is masked to a word. *)
Definition operation (family : string) (s b : Z) : Z :=
  if String.eqb family "and" then Z.land s b
  else if String.eqb family "andc" then Z.land s (Z.lnot b)
  else if String.eqb family "or" then Z.lor s b
  else if String.eqb family "orc" then Z.lor s (Z.lnot b)
  else if String.eqb family "xor" then Z.lxor s b
  else if String.eqb family "nand" then Z.lnot (Z.land s b)
  else if String.eqb family "nor" then Z.lnot (Z.lor s b)
  else Z.lnot (Z.lxor s b).

Definition evaluate (family : string) (s b rc ca ov so old_cr0 : Z) : result LogicalResult :=
  require! dict_mem XO family
    else ValueError ("unknown register-logical family: " ++ family) in
  let! rc := _bit rc "rc" in
  let! ca := _bit ca "ca" in
  let! ov := _bit ov "ov" in
  let! so := _bit so "so" in
  require! (0 <=? old_cr0) && (old_cr0 <=? 0xF) else ValueError "old_cr0 must be a nibble" in
  let s := Z.land s MASK32 in
  let b := Z.land b MASK32 in
  let value := Z.land (operation family s b) MASK32 in
  let cr0 := if truthy rc then Z.lor (cr0_relation value) so else old_cr0 in
  Ok {| value := value; ca := ca; ov := ov; so := so; cr0 := cr0 |}.

Definition encode (family : string) (rc rs ra rb : Z) : result Z :=
  match dict_get XO family with
  | None => Raise (ValueError ("unknown register-logical family: " ++ family))
  | Some xo =>
      let! rc := _bit rc "rc" in
      let! _ := check_indices " must be a five-bit register index"
                  [(rs, "rs"); (ra, "ra"); (rb, "rb")]%string in
      Ok (Z.lor (Z.lor (Z.lor (Z.lor (Z.lor (Z.shiftl 31 26) (Z.shiftl rs 21))
            (Z.shiftl ra 16)) (Z.shiftl rb 11)) (Z.shiftl xo 1)) rc)
  end.

(** The members of an anchor vector; [None] where the dictionary leaves [so]
    to its default. *)
Record Anchor : Type := {
  a_family : string; a_s : Z; a_b : Z; a_rc : Z; a_so : option Z
}.

Definition anchor_vectors : list Anchor := [
  Build_Anchor "and" 0xF0F0F0F0 0x0FF000FF 0 None;
  Build_Anchor "andc" 0xF0F0F0F0 0x0FF000FF 0 None;
  Build_Anchor "or" 0x80000000 0 1 (Some 1);
  Build_Anchor "orc" 0 0xFFFFFFFF 1 None;
  Build_Anchor "xor" 0xAAAAAAAA 0x55555555 0 None;
  Build_Anchor "nand" MASK32 MASK32 1 None;
  Build_Anchor "nor" 0 0 1 None;
  Build_Anchor "eqv" 0xAAAAAAAA 0x55555555 0 None
].

End logical_family.

#[export] Instance LogicalResult_exec : ExecResult logical_family.LogicalResult := {|
  er_value := logical_family.value;
  er_ca := logical_family.ca;
  er_ov := logical_family.ov;
  er_so := logical_family.so;
  er_cr0 := logical_family.cr0
|}.

Section Evaluate.
Import logical_family.

(** One bit of the result from the operands' bits. *)
Definition bit_op (family : string) (x y : bool) : bool :=
  if String.eqb family "and" then x && y
  else if String.eqb family "andc" then x && negb y
  else if String.eqb family "or" then x || y
  else if String.eqb family "orc" then x || negb y
  else if String.eqb family "xor" then xorb x y
  else if String.eqb family "nand" then negb (x && y)
  else if String.eqb family "nor" then negb (x || y)
  else eqb x y.

Definition logical_args_ok (family : string) (rc ca ov so old_cr0 : Z) : bool :=
  dict_mem XO family && is_flag rc && is_flag ca && is_flag ov && is_flag so
  && in_range 0 16 old_cr0.

Lemma operation_spec family s b i :
  0 <= i -> Z.testbit (operation family s b) i = bit_op family (Z.testbit s i) (Z.testbit b i).
Proof.
  intros Hi. unfold operation, bit_op.
  repeat case_if;
    rewrite ?Z.land_spec, ?Z.lor_spec, ?Z.lxor_spec, ?Z.lnot_spec,
      ?Z.land_spec, ?Z.lor_spec, ?Z.lxor_spec, ?Z.lnot_spec by lia; auto.
  destruct (Z.testbit s i), (Z.testbit b i); reflexivity.
Qed.

Lemma logical_evaluate_eq family s b rc ca ov so old_cr0 :
  logical_args_ok family rc ca ov so old_cr0 = true ->
  evaluate family s b rc ca ov so old_cr0 =
  let v := Z.land (operation family (Z.land s MASK32) (Z.land b MASK32)) MASK32 in
  Ok {| value := v; ca := ca; ov := ov; so := so;
        cr0 := if truthy rc then Z.lor (cr0_relation v) so else old_cr0 |}.
Proof.
  unfold logical_args_ok, evaluate, _bit, check_bit. intros H. bool_prop.
  rewrite nibble_in_range.
  repeat match goal with E : _ = true |- _ => rewrite E end. reflexivity.
Qed.

Lemma logical_evaluate_ok_args family s b rc ca ov so old_cr0 r :
  evaluate family s b rc ca ov so old_cr0 = Ok r ->
  logical_args_ok family rc ca ov so old_cr0 = true.
Proof.
  unfold evaluate, logical_args_ok, _bit. intros H. py_inv H.
  repeat match goal with E : check_bit _ _ = Ok _ |- _ =>
    apply check_bit_inv in E; destruct E as [-> ->] end.
  rewrite nibble_in_range in *.
  repeat match goal with E : _ = true |- _ => rewrite E end. reflexivity.
Qed.

Lemma logical_evaluate_wf family s b rc ca ov so old_cr0 r :
  evaluate family s b rc ca ov so old_cr0 = Ok r -> WellFormed r.
Proof.
  intros H. pose proof (logical_evaluate_ok_args _ _ _ _ _ _ _ _ _ H) as Hok.
  rewrite logical_evaluate_eq in H by assumption. injection H as <-.
  unfold logical_args_ok in Hok. rewrite !andb_true_iff, in_range_iff in Hok.
  destruct Hok as (((((_ & Hrc) & Hca) & Hov) & Hso) & Hcr).
  split; cbn -[Z.land]; auto with py. case_if; auto with py.
Qed.

(** A register-logical form applies its Boolean operation to every bit of
    the two source words, records CR0 from the result and the incoming SO when
    asked, and leaves CA, OV and SO alone; the argument checks decide success. *)
Theorem logical_evaluate_correct family s b rc c o t old_cr0 :
  match evaluate family s b rc c o t old_cr0 with
  | Raise _ => logical_args_ok family rc c o t old_cr0 = false
  | Ok r =>
      logical_args_ok family rc c o t old_cr0 = true /\
      (forall i, 0 <= i -> Z.testbit (value r) i =
         (i <? 32) && bit_op family (Z.testbit s i) (Z.testbit b i)) /\
      ca r = c /\ ov r = o /\ so r = t /\
      cr0 r = (if truthy rc then cr0_spec (value r) t else old_cr0)
  end.
Proof.
  destruct (logical_args_ok family rc c o t old_cr0) eqn:Hok.
  2: { destruct (evaluate family s b rc c o t old_cr0) eqn:E; [| reflexivity].
       apply logical_evaluate_ok_args in E. congruence. }
  rewrite logical_evaluate_eq by assumption. cbn -[Z.land].
  unfold logical_args_ok in Hok. bool_prop. repeat split; auto.
  - intros i Hi.
    rewrite Z.land_spec, operation_spec, !Z.land_spec, testbit_mask32 by lia.
    destruct (i <? 32); rewrite ?andb_false_r, ?andb_true_r; reflexivity.
  - case_if; [| reflexivity]. apply cr0_lor; [apply mask32_range | assumption].
Qed.

End Evaluate.
