(* ===== verification/ShiftFamily.v ===== *)
(** * Word shifts ([sim/tools/shift_family.py])

    [slw], [srw], [sraw] and [srawi], and how [sraw] followed by [addze] divides
    a signed word by a power of two. *)
From S2P Require Import Prelude ExecResult AddFamily.

Module shift_family.

Definition XO : dict Z := [("slw", 24); ("srw", 536); ("sraw", 792); ("srawi", 824)]%string.

Record ShiftResult : Type := {
  value : Z;
  ca : Z;
  ov : Z;
  so : Z;
  cr0 : Z
}.

Definition _bit (v : Z) (name : string) : result Z := check_bit v name.

(** The shift count: the immediate of [srawi], else the low six bits. *)
Definition count_of (family : string) (shift : Z) : result Z :=
  if String.eqb family "srawi"
  then require! in_range 0 32 shift else ValueError "srawi SH must be a five-bit value" in Ok shift
  else Ok (Z.land shift 0x3F).

(** The shifted word and the new carry. *)
Definition shifted (family : string) (s count ca : Z) : Z * Z :=
  let negative := truthy (Z.land s 0x80000000) in
  if String.eqb family "slw"
  then ((if count <? 32 then Z.land (Z.shiftl s count) MASK32 else 0), ca)
  else if String.eqb family "srw"
  then ((if count <? 32 then Z.shiftr s count else 0), ca)
  else
    let '(value, discarded_one) :=
      if 32 <=? count then ((if negative then MASK32 else 0), negative)
      else
        let signed_s := if negative then s - Z.shiftl 1 32 else s in
        (Z.land (Z.shiftr signed_s count) MASK32,
         (0 <? count) && truthy (Z.land s (Z.shiftl 1 count - 1))) in
    (value, Z.b2z (negative && discarded_one)).

Definition evaluate (family : string) (s shift rc ca ov so old_cr0 : Z) : result ShiftResult :=
  require! dict_mem XO family else ValueError ("unknown word-shift family: " ++ family) in
  let! rc := _bit rc "rc" in
  let! ca := _bit ca "ca" in
  let! ov := _bit ov "ov" in
  let! so := _bit so "so" in
  require! (0 <=? old_cr0) && (old_cr0 <=? 0xF) else ValueError "old_cr0 must be a nibble" in
  let! count := count_of family shift in
  let s := Z.land s MASK32 in
  let '(value, new_ca) := shifted family s count ca in
  let cr0 := if truthy rc then Z.lor (cr0_relation value) so else old_cr0 in
  Ok {| value := value; ca := new_ca; ov := ov; so := so; cr0 := cr0 |}.

Definition encode (family : string) (rc rs ra rb_or_sh : Z) : result Z :=
  match dict_get XO family with
  | None => Raise (ValueError ("unknown word-shift family: " ++ family))
  | Some xo =>
      let! rc := _bit rc "rc" in
      let! _ := check_indices " must be a five-bit field"
                  [(rs, "rs"); (ra, "ra"); (rb_or_sh, "rb_or_sh")]%string in
      Ok (Z.lor (Z.lor (Z.lor (Z.lor (Z.lor (Z.shiftl 31 26) (Z.shiftl rs 21))
            (Z.shiftl ra 16)) (Z.shiftl rb_or_sh 11)) (Z.shiftl xo 1)) rc)
  end.

(** The members of an anchor vector; [None] where the dictionary leaves the
    argument to its default. *)
Record Anchor : Type := {
  a_family : string; a_s : Z; a_shift : Z; a_rc : option Z; a_so : option Z
}.

Definition anchor_vectors : list Anchor := [
  Build_Anchor "slw" 1 31 None None;
  Build_Anchor "slw" MASK32 32 None None;
  Build_Anchor "srw" 0x80000000 31 None None;
  Build_Anchor "srw" MASK32 63 None None;
  Build_Anchor "sraw" 0xF0000008 4 None None;
  Build_Anchor "sraw" 0x80000000 32 None None;
  Build_Anchor "srawi" 0xF0000008 4 (Some 1) (Some 1)
].

End shift_family.

#[export] Instance ShiftResult_exec : ExecResult shift_family.ShiftResult := {|
  er_value := shift_family.value;
  er_ca := shift_family.ca;
  er_ov := shift_family.ov;
  er_so := shift_family.so;
  er_cr0 := shift_family.cr0
|}.

Section Evaluate.
Import shift_family.

(** The count a form shifts by, without the range split of the code. *)
Definition shift_count (family : string) (shift : Z) : Z :=
  if String.eqb family "srawi" then shift else shift mod 64.

Definition shift_args_ok (family : string) (shift rc ca ov so old_cr0 : Z) : bool :=
  dict_mem XO family && is_flag rc && is_flag ca && is_flag ov && is_flag so
  && in_range 0 16 old_cr0 && (negb (String.eqb family "srawi") || in_range 0 32 shift).

(** The arithmetic a form performs, the same for every count. *)
Definition shift_spec (family : string) (s n ca : Z) : Z * Z :=
  if String.eqb family "slw" then (s * 2 ^ n mod 2 ^ 32, ca)
  else if String.eqb family "srw" then (s mod 2 ^ 32 / 2 ^ n, ca)
  else ((to_signed32 s / 2 ^ n) mod 2 ^ 32,
        Z.b2z ((to_signed32 s <? 0) && negb (to_signed32 s mod 2 ^ n =? 0))).

Lemma pow2_split n m : 0 <= m <= n -> 2 ^ n = 2 ^ (n - m) * 2 ^ m.
Proof. intros. rewrite <- Z.pow_add_r by lia. f_equal. lia. Qed.

Lemma truthy_low s n : 0 <= n -> truthy (Z.land s (Z.shiftl 1 n - 1)) = negb (s mod 2 ^ n =? 0).
Proof.
  intros Hn. unfold truthy. rewrite Z.shiftl_1_l.
  replace (2 ^ n - 1) with (Z.ones n) by (rewrite Z.ones_equiv; lia).
  rewrite Z.land_ones by lia. reflexivity.
Qed.

Lemma negative_signed s :
  0 <= s < 2 ^ 32 -> truthy (Z.land s 0x80000000) = (to_signed32 s <? 0).
Proof.
  intros Hs. change 0x80000000 with (Z.shiftl 1 31).
  rewrite truthy_land_bit, testbit_top, to_signed32_spec, Z.mod_small by lia.
  destruct (Z.leb_spec (2 ^ 31) s); symmetry; [apply Z.ltb_lt | apply Z.ltb_ge]; lia.
Qed.

Lemma signed_of_negative s :
  0 <= s < 2 ^ 32 -> (if to_signed32 s <? 0 then s - Z.shiftl 1 32 else s) = to_signed32 s.
Proof.
  intros Hs. change (Z.shiftl 1 32) with (2 ^ 32).
  pose proof (to_signed32_range s) as Hr. rewrite to_signed32_spec, Z.mod_small in * by lia.
  destruct (2 ^ 31 <=? s); [destruct (Z.ltb_spec (s - 2 ^ 32) 0) | destruct (Z.ltb_spec s 0)]; lia.
Qed.

(** Reducing modulo [2^n] below the word width does not see the sign. *)
Lemma signed_mod_low s n : 0 <= n <= 32 -> to_signed32 s mod 2 ^ n = s mod 2 ^ n.
Proof.
  intros Hn.
  assert (Hp : 0 < 2 ^ n) by (apply Z.pow_pos_nonneg; lia).
  assert (forall x, (x mod 2 ^ 32) mod 2 ^ n = x mod 2 ^ n) as Hm.
  { intros x. rewrite (pow2_split 32 n) by lia. rewrite Z.mul_comm, Z.rem_mul_r by
      (try lia; apply Z.pow_pos_nonneg; lia).
    rewrite Z.mul_comm, Z.mod_add, Z.mod_mod by lia. reflexivity. }
  rewrite <- (Hm (to_signed32 s)), to_signed32_mod. apply Hm.
Qed.

Lemma sraw_large x n : 32 <= n -> - 2 ^ 31 <= x < 2 ^ 31 ->
  x / 2 ^ n = (if x <? 0 then -1 else 0) /\ (x <> 0 -> x mod 2 ^ n <> 0).
Proof.
  intros Hn Hx. assert (2 ^ 32 <= 2 ^ n) by (apply Z.pow_le_mono_r; lia).
  destruct (Z.ltb_spec x 0).
  - assert (x / 2 ^ n = -1) as E by (symmetry; apply Z.div_unique with (x + 2 ^ n); lia).
    split; [exact E |]. intros _. rewrite Z.mod_eq, E by lia. lia.
  - rewrite Z.div_small, Z.mod_small by lia. auto.
Qed.

Lemma shifted_spec family s n ca :
  dict_mem XO family = true -> 0 <= n -> 
  shifted family (s mod 2 ^ 32) n ca = shift_spec family s n ca.
Proof.
  intros Hf Hn. unfold shifted, shift_spec.
  pose proof (Z.mod_pos_bound s (2 ^ 32)) as Hs.
  assert (Ht : to_signed32 (s mod 2 ^ 32) = to_signed32 s).
  { rewrite !to_signed32_spec, Z.mod_mod by lia. reflexivity. }
  assert (Hp : 0 < 2 ^ n) by (apply Z.pow_pos_nonneg; lia).
  case_if; [| case_if]; cbv zeta.
  - f_equal. destruct (Z.ltb_spec n 32).
    + rewrite mask32_mod, Z.shiftl_mul_pow2 by lia. rewrite Z.mul_mod_idemp_l by lia. reflexivity.
    + rewrite (pow2_split n 32), Z.mul_assoc, Z.mod_mul by lia. reflexivity.
  - f_equal. rewrite <- Z.shiftr_div_pow2 by lia. destruct (Z.ltb_spec n 32); [reflexivity |].
    rewrite Z.shiftr_div_pow2 by lia. symmetry. apply Z.div_small.
    assert (2 ^ 32 <= 2 ^ n) by (apply Z.pow_le_mono_r; lia). lia.
  - rewrite negative_signed, signed_of_negative, Ht by lia.
    destruct (Z.leb_spec 32 n) as [Hc | Hc].
    + destruct (sraw_large (to_signed32 s) n Hc (to_signed32_range s)) as [Ed Em].
      rewrite Ed. destruct (Z.ltb_spec (to_signed32 s) 0); [| reflexivity].
      f_equal. cbn [andb]. f_equal. symmetry. apply negb_true_iff, Z.eqb_neq, Em. lia.
    + rewrite mask32_mod, Z.shiftr_div_pow2, truthy_low by lia. f_equal. f_equal. f_equal.
      assert ((s mod 2 ^ 32) mod 2 ^ n = to_signed32 s mod 2 ^ n) as ->.
      { rewrite signed_mod_low by lia. rewrite <- (signed_mod_low (s mod 2 ^ 32)) by lia.
        rewrite Ht. apply signed_mod_low. lia. }
      destruct (Z.ltb_spec 0 n); [reflexivity |].
      replace n with 0 by lia. rewrite Z.mod_1_r. reflexivity.
Qed.


Lemma count_of_ok family shift :
  negb (String.eqb family "srawi") || in_range 0 32 shift = true ->
  count_of family shift = Ok (shift_count family shift) /\ 0 <= shift_count family shift.
Proof.
  unfold count_of, shift_count. intros H. destruct (String.eqb family "srawi"); cbn in H.
  - rewrite H. apply in_range_iff in H. split; [reflexivity | lia].
  - change 63 with (Z.ones 6). rewrite Z.land_ones by lia.
    split; [reflexivity |]. apply Z.mod_pos_bound. lia.
Qed.

Lemma shift_evaluate_eq family s shift rc ca ov so old_cr0 :
  shift_args_ok family shift rc ca ov so old_cr0 = true ->
  evaluate family s shift rc ca ov so old_cr0 =
  let p := shift_spec family s (shift_count family shift) ca in
  Ok {| value := fst p; ca := snd p; ov := ov; so := so;
        cr0 := if truthy rc then Z.lor (cr0_relation (fst p)) so else old_cr0 |}.
Proof.
  unfold shift_args_ok. rewrite !andb_true_iff.
  intros ((((((Hf & Hrc) & Hca) & Hov) & Hso) & Hcr) & Hsh).
  destruct (count_of_ok family shift Hsh) as [Hc Hc0].
  unfold evaluate, _bit. rewrite Hf, !check_bit_ok, nibble_in_range, Hcr, Hc by assumption.
  rewrite mask32_mod, shifted_spec by assumption.
  destruct (shift_spec family s (shift_count family shift) ca). reflexivity.
Qed.

Lemma shift_evaluate_ok_args family s shift rc ca ov so old_cr0 r :
  evaluate family s shift rc ca ov so old_cr0 = Ok r ->
  shift_args_ok family shift rc ca ov so old_cr0 = true.
Proof.
  unfold evaluate, shift_args_ok, _bit, count_of. intros H.
  destruct (dict_mem XO family); [| discriminate H].
  do 4 match type of H with context [check_bit ?v ?n] =>
    let E := fresh "E" in destruct (check_bit v n) eqn:E; [| discriminate H];
    apply check_bit_inv in E; destruct E as [-> ->] end.
  rewrite nibble_in_range in H.
  destruct (in_range 0 16 old_cr0); [| discriminate H].
  destruct (String.eqb family "srawi"); [| reflexivity].
  destruct (in_range 0 32 shift); [reflexivity | discriminate H].
Qed.

Lemma shift_spec_range family s n ca :
  dict_mem XO family = true -> 0 <= n -> is_flag ca = true ->
  0 <= fst (shift_spec family s n ca) < 2 ^ 32 /\ is_flag (snd (shift_spec family s n ca)) = true.
Proof.
  intros Hf Hn Hca. unfold shift_spec.
  assert (0 < 2 ^ n) by (apply Z.pow_pos_nonneg; lia).
  pose proof (Z.mod_pos_bound s (2 ^ 32)).
  case_if; [| case_if]; cbn [fst snd]; auto with py; split; auto with py.
  - apply Z.mod_pos_bound. lia.
  - assert (0 <= s mod 2 ^ 32 / 2 ^ n <= s mod 2 ^ 32) as [? ?]; [| lia].
    split; [apply Z.div_pos; lia | apply Z.div_le_upper_bound; nia].
  - apply Z.mod_pos_bound. lia.
Qed.

Lemma shift_evaluate_wf family s shift rc ca ov so old_cr0 r :
  evaluate family s shift rc ca ov so old_cr0 = Ok r -> WellFormed r.
Proof.
  intros H. pose proof (shift_evaluate_ok_args _ _ _ _ _ _ _ _ _ H) as Hok.
  rewrite shift_evaluate_eq in H by assumption. injection H as <-.
  unfold shift_args_ok in Hok. rewrite !andb_true_iff, in_range_iff in Hok.
  destruct Hok as ((((((Hf & Hrc) & Hca) & Hov) & Hso) & Hcr) & Hsh).
  destruct (count_of_ok family shift Hsh) as [_ Hc].
  destruct (shift_spec_range family s _ ca Hf Hc Hca) as [Hv Hc'].
  split; cbn; auto. case_if; auto with py.
Qed.

(** A shift computes the multiplication, the logical or the arithmetic
    division by [2^n] of its operand for every count [n] up to 63 (the code's
    separate branches for counts of 32 and more agree with the same formula);
    the algebraic forms set CA exactly when a negative operand loses a one bit;
    OV and SO pass through and CR0 records the result. *)
Theorem shift_evaluate_correct family s shift rc c o t old_cr0 :
  match evaluate family s shift rc c o t old_cr0 with
  | Raise _ => shift_args_ok family shift rc c o t old_cr0 = false
  | Ok r =>
      shift_args_ok family shift rc c o t old_cr0 = true /\
      (value r, ca r) = shift_spec family s (shift_count family shift) c /\
      ov r = o /\ so r = t /\
      cr0 r = (if truthy rc then cr0_spec (value r) t else old_cr0)
  end.
Proof.
  destruct (evaluate family s shift rc c o t old_cr0) as [r |] eqn:E.
  - pose proof (shift_evaluate_ok_args _ _ _ _ _ _ _ _ _ E) as Hok. split; [exact Hok |].
    pose proof (shift_evaluate_wf _ _ _ _ _ _ _ _ _ E) as [Hv _ _ Hso _].
    rewrite shift_evaluate_eq in E by assumption. injection E as <-. cbn in *.
    rewrite <- surjective_pairing. repeat split.
    destruct (truthy rc); [| reflexivity]. apply cr0_lor; assumption.
  - destruct (shift_args_ok family shift rc c o t old_cr0) eqn:Hok; [| reflexivity].
    rewrite shift_evaluate_eq in E by assumption. discriminate.
Qed.

(** Truncating division by a power of two is the floor plus the lost-bit carry. *)
Lemma quot_pow2 x n :
  0 <= n -> Z.quot x (2 ^ n) = x / 2 ^ n + Z.b2z ((x <? 0) && negb (x mod 2 ^ n =? 0)).
Proof.
  intros Hn. assert (Hp : 0 < 2 ^ n) by (apply Z.pow_pos_nonneg; lia).
  pose proof (Z.mod_pos_bound x (2 ^ n) Hp) as Hm. pose proof (Z.div_mod x (2 ^ n)) as Hd.
  destruct (Z.ltb_spec x 0).
  - rewrite <- (Z.opp_involutive x) at 1. rewrite Z.quot_opp_l, Z.quot_div_nonneg by lia.
    destruct (Z.eqb_spec (x mod 2 ^ n) 0) as [E | E]; cbn [negb andb Z.b2z].
    + rewrite Z.div_opp_l_z by lia. lia.
    + rewrite Z.div_opp_l_nz by lia. lia.
  - rewrite Z.quot_div_nonneg by lia. cbn. lia.
Qed.

(** C3. The idiom [sraw] (or [srawi]) then [addze] divides the signed word by
    [2^n] rounding towards zero: the carry of the shift is the rounding
    correction. *)
Theorem shift_then_addze_divides family s shift rc o t old_cr0 r :
  str_in family ["sraw"; "srawi"]%string = true ->
  evaluate family s shift rc 0 o t old_cr0 = Ok r ->
  exists q, add_family.evaluate "addze" (value r) 0 (ca r) 0 0 (ov r) (so r) (cr0 r) = Ok q /\
    to_signed32 (add_family.value q) = Z.quot (to_signed32 s) (2 ^ shift_count family shift).
Proof.
  intros Hfam E. pose proof (shift_evaluate_ok_args _ _ _ _ _ _ _ _ _ E) as Hok.
  pose proof (shift_evaluate_wf _ _ _ _ _ _ _ _ _ E) as Hwf.
  assert (Hadd : add_args_ok "addze" (ca r) 0 0 (ov r) (so r) (cr0 r) = true).
  { apply add_args_ok_iff. destruct Hwf as [_ H1 H2 H3 H4]. cbn in H1, H2, H3, H4.
    repeat split; auto; lia. }
  eexists. split; [apply add_evaluate_eq; exact Hadd |].
  rewrite shift_evaluate_eq in E by assumption. injection E as <-.
  unfold shift_args_ok in Hok. rewrite !andb_true_iff in Hok.
  destruct (count_of_ok family shift (proj2 Hok)) as [_ Hn].
  assert (Hspec : shift_spec family s (shift_count family shift) 0 =
    ((to_signed32 s / 2 ^ shift_count family shift) mod 2 ^ 32,
     Z.b2z ((to_signed32 s <? 0) && negb (to_signed32 s mod 2 ^ shift_count family shift =? 0)))).
  { unfold str_in in Hfam. cbn in Hfam. rewrite orb_false_r in Hfam. unfold shift_spec.
    apply orb_true_iff in Hfam. destruct Hfam as [H | H]; apply String.eqb_eq in H; subst; reflexivity. }
  rewrite Hspec. clear Hspec. rewrite quot_pow2 by assumption.
  cbn [fst snd add_family.value value ca]. unfold second_operand, carry_in.
  cbn -[Z.modulo Z.pow Z.div Z.add to_signed32].
  pose proof (to_signed32_range s) as Hr. remember (shift_count family shift) as n.
  assert (Hp : 0 < 2 ^ n) by (apply Z.pow_pos_nonneg; lia).
  assert (Hq : - 2 ^ 31 <= to_signed32 s / 2 ^ n +
            Z.b2z ((to_signed32 s <? 0) && negb (to_signed32 s mod 2 ^ n =? 0)) < 2 ^ 31).
  { pose proof (Z.div_mod (to_signed32 s) (2 ^ n)). pose proof (Z.mod_pos_bound (to_signed32 s) (2 ^ n) Hp).
    destruct (Z.ltb_spec (to_signed32 s) 0), (Z.eqb_spec (to_signed32 s mod 2 ^ n) 0);
      cbn [negb andb Z.b2z]; nia. }
  apply to_signed32_unique; [exact Hq |].
  rewrite !Z.mod_mod, Z.add_0_r, Z.add_mod_idemp_l by lia. reflexivity.
Qed.

Lemma shift_then_addze_divides_witness :
  exists q, add_family.evaluate "addze" 0xFFFFFFFE 0 1 0 0 0 0 0 = Ok q /\
    to_signed32 (add_family.value q) = Z.quot (to_signed32 0xFFFFFFF9) (2 ^ shift_count "sraw" 2).
Proof.
  apply (shift_then_addze_divides "sraw" 0xFFFFFFF9 2 0 0 0 0 (Build_ShiftResult 0xFFFFFFFE 1 0 0 0));
    reflexivity.
Defined.

End Evaluate.
