(* ===== verification/RotateFamily.v ===== *)
(** * Word rotates ([sim/tools/rotate_family.py])

    MASK(MB,ME) as the loop builds it, the 32-bit rotate, and the three rotate
    forms. *)
From S2P Require Import Prelude ExecResult.

Module rotate_family.

Definition PRIMARY_OPCODE : dict Z := [("rlwimi", 20); ("rlwinm", 21); ("rlwnm", 23)]%string.

Record RotateResult : Type := {
  value : Z;
  ca : Z;
  ov : Z;
  so : Z;
  cr0 : Z
}.

Definition _bit (v : Z) (name : string) : result Z := check_bit v name.

Definition _five_bits (v : Z) (name : string) : result Z :=
  check_five " must be a five-bit value" v name.

(** The [while True] loop of [ppc_mask]: [fuel] bounds its iterations. *)
Fixpoint mask_loop (fuel : nat) (index me result : Z) : option Z :=
  match fuel with
  | O => None
  | S fuel' =>
      let result := Z.lor result (Z.shiftl 1 (31 - index)) in
      if index =? me then Some result
      else mask_loop fuel' (Z.land (index + 1) 31) me result
  end.

Definition ppc_mask (mb me : Z) : result Z :=
  let! mb := _five_bits mb "mb" in
  let! me := _five_bits me "me" in
  match mask_loop 32 mb me 0 with Some m => Ok m | None => Raise OutOfFuel end.

Definition rotate_left (value amount : Z) : Z :=
  let value := Z.land value MASK32 in
  let amount := Z.land amount 31 in
  if amount =? 0 then value
  else Z.land (Z.lor (Z.shiftl value amount) (Z.shiftr value (32 - amount))) MASK32.

(** The value of one form from the rotated source and the mask. *)
Definition merge (family : string) (rotated mask old_a : Z) : Z :=
  if String.eqb family "rlwimi"
  then Z.lor (Z.land rotated mask) (Z.land (Z.land old_a MASK32) (Z.lnot mask))
  else Z.land rotated mask.

Definition evaluate (family : string) (s shift mb me old_a rc ca ov so old_cr0 : Z)
  : result RotateResult :=
  require! dict_mem PRIMARY_OPCODE family
    else ValueError ("unknown word-rotate family: " ++ family) in
  let! _ := (if negb (String.eqb family "rlwnm") then _five_bits shift "sh" else Ok shift) in
  let! rc := _bit rc "rc" in
  let! ca := _bit ca "ca" in
  let! ov := _bit ov "ov" in
  let! so := _bit so "so" in
  require! (0 <=? old_cr0) && (old_cr0 <=? 0xF) else ValueError "old_cr0 must be a nibble" in
  let! mask := ppc_mask mb me in
  let rotated := rotate_left s shift in
  let value := Z.land (merge family rotated mask old_a) MASK32 in
  let cr0 := if truthy rc then Z.lor (cr0_relation value) so else old_cr0 in
  Ok {| value := value; ca := ca; ov := ov; so := so; cr0 := cr0 |}.

Definition encode (family : string) (rc rs ra sh_or_rb mb me : Z) : result Z :=
  match dict_get PRIMARY_OPCODE family with
  | None => Raise (ValueError ("unknown word-rotate family: " ++ family))
  | Some opcode =>
      let! rc := _bit rc "rc" in
      let! rs := _five_bits rs "rs" in
      let! ra := _five_bits ra "ra" in
      let! sh_or_rb := _five_bits sh_or_rb "sh_or_rb" in
      let! mb := _five_bits mb "mb" in
      let! me := _five_bits me "me" in
      Ok (Z.lor (Z.lor (Z.lor (Z.lor (Z.lor (Z.lor (Z.shiftl opcode 26) (Z.shiftl rs 21))
            (Z.shiftl ra 16)) (Z.shiftl sh_or_rb 11)) (Z.shiftl mb 6)) (Z.shiftl me 1)) rc)
  end.

(** The members of an anchor vector; [None] where the dictionary leaves [old_a]
    to its default. *)
Record Anchor : Type := {
  a_family : string; a_s : Z; a_shift : Z; a_mb : Z; a_me : Z; a_old_a : option Z
}.

Definition anchor_vectors : list Anchor := [
  Build_Anchor "rlwinm" 0x12345678 0 0 31 None;
  Build_Anchor "rlwinm" 0x80000001 31 0 31 None;
  Build_Anchor "rlwimi" 0x12345678 0 8 15 (Some 0xAAAA5555);
  Build_Anchor "rlwimi" 0x12345678 0 24 7 (Some 0xAABBCCDD);
  Build_Anchor "rlwnm" 0x80000000 0xFFFFFFE1 0 31 None
].

End rotate_family.

#[export] Instance RotateResult_exec : ExecResult rotate_family.RotateResult := {|
  er_value := rotate_family.value;
  er_ca := rotate_family.ca;
  er_ov := rotate_family.ov;
  er_so := rotate_family.so;
  er_cr0 := rotate_family.cr0
|}.

Section Evaluate.
Import rotate_family.

Lemma land31_mod x : Z.land x 31 = x mod 32.
Proof. change 31 with (Z.ones 5). apply Z.land_ones. lia. Qed.

(** The architecture's bit [j] counts from the left. *)
Definition in_mask (mb me j : Z) : bool :=
  if mb <=? me then (mb <=? j) && (j <=? me) else (mb <=? j) || (j <=? me).

(** Positions from [index] on, modulo 32, up to [d] steps. *)
Lemma mask_loop_spec d : forall fuel index me r,
  0 <= index < 32 -> 0 <= me < 32 -> Z.of_nat d = (me - index) mod 32 -> (d < fuel)%nat ->
  exists m, mask_loop fuel index me r = Some m /\
    forall i, 0 <= i -> Z.testbit m i =
      Z.testbit r i || ((i <? 32) && ((31 - i - index) mod 32 <=? Z.of_nat d)).
Proof.
  induction d as [| d IH]; intros [| fuel] index me r Hi Hm Hd Hf; try lia.
  - assert (index = me) as ->.
    { symmetry in Hd. apply Z.mod_divide in Hd; [| lia]. destruct Hd as [k Hk]. lia. }
    exists (Z.lor r (Z.shiftl 1 (31 - me))). split; [cbn; rewrite Z.eqb_refl; reflexivity |].
    intros i Hi0. rewrite Z.lor_spec, testbit_shiftl_one by lia. f_equal.
    destruct (Z.eqb_spec (31 - me) i) as [<- | Hne].
    + replace (31 - (31 - me) - me) with 0 by lia. cbn. destruct (Z.ltb_spec (31 - me) 32); auto; lia.
    + destruct (Z.ltb_spec i 32); [| reflexivity]. symmetry. apply Z.leb_gt.
      pose proof (Z.mod_pos_bound (31 - i - me) 32).
      assert ((31 - i - me) mod 32 <> 0); [| lia].
      intros E. apply Z.mod_divide in E; [| lia]. destruct E as [k Hk]. lia.
  - assert (Hne : index <> me).
    { intros ->. rewrite Z.sub_diag, Z.mod_0_l in Hd by lia. lia. }
    destruct (IH fuel ((index + 1) mod 32) me (Z.lor r (Z.shiftl 1 (31 - index)))) as (m & E & Hbits);
      try lia.
    { apply Z.mod_pos_bound. lia. }
    { rewrite Zminus_mod_idemp_r.
      replace (me - (index + 1)) with ((me - index) - 1) by lia.
      rewrite <- Zminus_mod_idemp_l, <- Hd, Z.mod_small; [lia |].
      pose proof (Z.mod_pos_bound (me - index) 32). lia. }
    exists m. split.
    { cbn. apply Z.eqb_neq in Hne. rewrite Hne. rewrite land31_mod. exact E. }
    intros i Hi0. rewrite Hbits, Z.lor_spec, testbit_shiftl_one by lia. rewrite <- orb_assoc. f_equal.
    pose proof (Z.mod_pos_bound (me - index) 32).
    destruct (Z.ltb_spec i 32); cbn [andb].
    2: { destruct (Z.eqb_spec (31 - index) i); [lia | reflexivity]. }
    rewrite Zminus_mod_idemp_r.
    replace (31 - i - (index + 1)) with ((31 - i - index) - 1) by lia.
    rewrite <- Zminus_mod_idemp_l. pose proof (Z.mod_pos_bound (31 - i - index) 32).
    destruct (Z.eqb_spec (31 - index) i) as [<- | Hne'].
    + replace (31 - (31 - index) - index) with 0 by lia. cbn [orb]. rewrite (Z.mod_0_l 32) by lia.
      symmetry. apply Z.leb_le. lia.
    + assert ((31 - i - index) mod 32 <> 0).
      { intros E0. apply Z.mod_divide in E0; [| lia]. destruct E0 as [k Hk]. lia. }
      cbn [orb]. rewrite Z.mod_small by lia.
      destruct (Z.leb_spec ((31 - i - index) mod 32 - 1) (Z.of_nat d)),
        (Z.leb_spec ((31 - i - index) mod 32) (Z.of_nat (S d))); auto; lia.
Qed.

Lemma mod32_neg x : -32 <= x < 32 -> x mod 32 = if x <? 0 then x + 32 else x.
Proof.
  intros H. destruct (Z.ltb_spec x 0).
  - symmetry. apply Z.mod_unique with (-1); lia.
  - apply Z.mod_small. lia.
Qed.

(** The mask exists for every pair of bounds and selects the architectural
    positions from MB to ME, wrapping past 31. *)
Lemma ppc_mask_spec mb me :
  0 <= mb < 32 -> 0 <= me < 32 ->
  exists m, ppc_mask mb me = Ok m /\
    forall i, 0 <= i -> Z.testbit m i = (i <? 32) && in_mask mb me (31 - i).
Proof.
  intros Hb He. unfold ppc_mask, _five_bits. rewrite !check_five_ok by assumption.
  pose proof (Z.mod_pos_bound (me - mb) 32).
  destruct (mask_loop_spec (Z.to_nat ((me - mb) mod 32)) 32 mb me 0) as (m & E & Hbits); try lia.
  exists m. rewrite E. split; [reflexivity |]. intros i Hi. rewrite Hbits, Z.bits_0 by lia.
  cbn [orb]. destruct (Z.ltb_spec i 32); cbn [andb]; [| reflexivity].
  rewrite Z2Nat.id by lia. unfold in_mask. rewrite !mod32_neg by lia.
  destruct (Z.leb_spec mb me), (Z.ltb_spec (31 - i - mb) 0), (Z.ltb_spec (me - mb) 0),
    (Z.leb_spec mb (31 - i)), (Z.leb_spec (31 - i) me); cbn [andb orb];
    try lia; first [apply Z.leb_le; lia | apply Z.leb_gt; lia].
Qed.

(** Bit [i] of a rotated word is bit [i - n mod 32] of the word. *)
Lemma rotate_left_spec v n i :
  0 <= i < 32 -> Z.testbit (rotate_left v n) i = Z.testbit v ((i - n) mod 32).
Proof.
  intros Hi. unfold rotate_left. rewrite land31_mod.
  pose proof (Z.mod_pos_bound n 32) as Hn.
  rewrite <- (Zminus_mod_idemp_r i n). remember (n mod 32) as k.
  destruct (Z.eqb_spec k 0) as [-> |].
  - rewrite Z.sub_0_r, Z.mod_small by lia. rewrite Z.land_spec, testbit_mask32 by lia.
    destruct (Z.ltb_spec i 32); [apply andb_true_r | lia].
  - rewrite Z.land_spec, Z.lor_spec, testbit_mask32, Z.shiftr_spec by lia.
    rewrite (proj2 (Z.ltb_lt i 32)), andb_true_r by lia. rewrite mod32_neg by lia.
    destruct (Z.ltb_spec (i - k) 0).
    + rewrite Z.shiftl_spec_low by lia. cbn [orb].
      rewrite Z.land_spec, testbit_mask32 by lia.
      rewrite (proj2 (Z.ltb_lt _ 32)), andb_true_r by lia. f_equal. lia.
    + rewrite Z.shiftl_spec, !Z.land_spec, !testbit_mask32 by lia.
      rewrite (proj2 (Z.ltb_lt (i - k) 32)), (proj2 (Z.ltb_ge (i + (32 - k)) 32)) by lia.
      rewrite andb_true_r, andb_false_r, orb_false_r. reflexivity.
Qed.

Lemma rotate_left_range v n : 0 <= rotate_left v n < 2 ^ 32.
Proof. unfold rotate_left. case_if; apply mask32_range. Qed.

Definition rotate_args_ok (family : string) (shift mb me rc ca ov so old_cr0 : Z) : bool :=
  dict_mem PRIMARY_OPCODE family && (String.eqb family "rlwnm" || in_range 0 32 shift)
  && is_flag rc && is_flag ca && is_flag ov && is_flag so && in_range 0 16 old_cr0
  && in_range 0 32 mb && in_range 0 32 me.

Lemma rotate_evaluate_eq family s shift mb me old_a rc ca ov so old_cr0 :
  rotate_args_ok family shift mb me rc ca ov so old_cr0 = true ->
  exists m, ppc_mask mb me = Ok m /\
    evaluate family s shift mb me old_a rc ca ov so old_cr0 =
    let v := Z.land (merge family (rotate_left s shift) m old_a) MASK32 in
    Ok {| value := v; ca := ca; ov := ov; so := so;
          cr0 := if truthy rc then Z.lor (cr0_relation v) so else old_cr0 |}.
Proof.
  unfold rotate_args_ok. rewrite !andb_true_iff.
  intros ((((((((Hf & Hsh) & Hrc) & Hca) & Hov) & Hso) & Hcr) & Hb) & He).
  destruct (ppc_mask_spec mb me) as (m & E & _); try (apply in_range_iff; assumption).
  exists m. split; [exact E |].
  unfold evaluate, _bit. rewrite Hf, !check_bit_ok, nibble_in_range, Hcr, E by assumption.
  destruct (String.eqb family "rlwnm"); cbn [negb]; [reflexivity |].
  cbn [orb] in Hsh. apply in_range_iff in Hsh. unfold _five_bits. rewrite check_five_ok by assumption.
  reflexivity.
Qed.

Lemma rotate_evaluate_ok_args family s shift mb me old_a rc ca ov so old_cr0 r :
  evaluate family s shift mb me old_a rc ca ov so old_cr0 = Ok r ->
  rotate_args_ok family shift mb me rc ca ov so old_cr0 = true.
Proof.
  unfold evaluate, rotate_args_ok, _bit, ppc_mask, _five_bits. intros H.
  destruct (dict_mem PRIMARY_OPCODE family); [| discriminate H].
  assert (Hsh : String.eqb family "rlwnm" || in_range 0 32 shift = true).
  { destruct (String.eqb family "rlwnm"); [reflexivity |]. cbn [negb] in H.
    destruct (check_five _ shift "sh") eqn:E; [| discriminate H].
    apply check_five_inv in E. apply in_range_iff. tauto. }
  rewrite Hsh. destruct (if negb _ then _ else _) as [z |]; [| discriminate H].
  do 4 match type of H with context [check_bit ?v ?n] =>
    let E := fresh "E" in destruct (check_bit v n) eqn:E; [| discriminate H];
    apply check_bit_inv in E; destruct E as [-> ->] end.
  rewrite nibble_in_range in H. destruct (in_range 0 16 old_cr0); [| discriminate H].
  do 2 match type of H with context [check_five ?w ?v ?n] =>
    let E := fresh "E" in destruct (check_five w v n) eqn:E; [| discriminate H];
    apply check_five_inv in E; destruct E as [E ->]; apply in_range_iff in E end.
  repeat match goal with X : _ = true |- _ => rewrite X; clear X end. reflexivity.
Qed.

Lemma rotate_evaluate_wf family s shift mb me old_a rc ca ov so old_cr0 r :
  evaluate family s shift mb me old_a rc ca ov so old_cr0 = Ok r -> WellFormed r.
Proof.
  intros H. pose proof (rotate_evaluate_ok_args _ _ _ _ _ _ _ _ _ _ _ _ H) as Hok.
  destruct (rotate_evaluate_eq family s shift mb me old_a rc ca ov so old_cr0 Hok) as (m & _ & E).
  rewrite E in H. injection H as <-.
  unfold rotate_args_ok in Hok. rewrite !andb_true_iff, !in_range_iff in Hok.
  destruct Hok as ((((((((_ & _) & Hrc) & Hca) & Hov) & Hso) & Hcr) & _) & _).
  split; cbn -[Z.land]; auto with py. case_if; auto with py.
Qed.

(** C4. The rotate forms, bit by bit: under the mask the result is the source
    rotated left by the low five bits of the amount, outside it [rlwimi] keeps
    the old destination and the other forms clear; the mask loop always ends and
    selects the positions MB..ME, wrapping when MB > ME.  XER passes through and
    CR0 records the result. *)
Theorem rotate_evaluate_correct family s shift mb me old_a rc c o t old_cr0 :
  match evaluate family s shift mb me old_a rc c o t old_cr0 with
  | Raise _ => rotate_args_ok family shift mb me rc c o t old_cr0 = false
  | Ok r =>
      rotate_args_ok family shift mb me rc c o t old_cr0 = true /\
      0 <= value r < 2 ^ 32 /\
      (forall i, 0 <= i < 32 -> Z.testbit (value r) i =
         if in_mask mb me (31 - i) then Z.testbit s ((i - shift) mod 32)
         else String.eqb family "rlwimi" && Z.testbit old_a i) /\
      ca r = c /\ ov r = o /\ so r = t /\
      cr0 r = (if truthy rc then cr0_spec (value r) t else old_cr0)
  end.
Proof.
  destruct (evaluate family s shift mb me old_a rc c o t old_cr0) as [r |] eqn:E.
  - pose proof (rotate_evaluate_ok_args _ _ _ _ _ _ _ _ _ _ _ _ E) as Hok. split; [exact Hok |].
    pose proof (rotate_evaluate_wf _ _ _ _ _ _ _ _ _ _ _ _ E) as [Hv _ _ Hso _].
    destruct (rotate_evaluate_eq family s shift mb me old_a rc c o t old_cr0 Hok) as (m & Em & E').
    rewrite E' in E. injection E as <-. split; [exact Hv |]. cbn -[Z.land merge] in *.
    unfold rotate_args_ok in Hok. rewrite !andb_true_iff, !in_range_iff in Hok.
    destruct (ppc_mask_spec mb me) as (m' & Em' & Hbits); try tauto.
    assert (m' = m) as -> by congruence. repeat split.
    + intros i Hi. rewrite Z.land_spec, testbit_mask32, (proj2 (Z.ltb_lt i 32)), andb_true_r by lia.
      unfold merge.
      destruct (String.eqb family "rlwimi");
        rewrite ?Z.lor_spec, !Z.land_spec, ?Z.land_spec, ?Z.lnot_spec, ?testbit_mask32, Hbits, rotate_left_spec,
          (proj2 (Z.ltb_lt i 32)) by lia; destruct (in_mask mb me (31 - i)); cbn;
        rewrite ?andb_true_r, ?andb_false_r, ?orb_false_r; reflexivity.
    + destruct (truthy rc); [| reflexivity]. apply cr0_lor; assumption.
  - destruct (rotate_args_ok family shift mb me rc c o t old_cr0) eqn:Hok; [| reflexivity].
    destruct (rotate_evaluate_eq family s shift mb me old_a rc c o t old_cr0 Hok) as (m & _ & E').
    congruence.
Qed.

(** The rotate is a group action of Z/32: rotations compose by adding their
    amounts, and any multiple of 32 does nothing to a word. *)
Theorem rotate_left_compose v n m :
  rotate_left (rotate_left v n) m = rotate_left v (n + m) /\
  rotate_left v (32 * n) = v mod 2 ^ 32.
Proof.
  split.
  - apply Z.bits_inj'. intros i Hi. destruct (Z.ltb_spec i 32).
    + rewrite !rotate_left_spec by (try apply Z.mod_pos_bound; lia).
      rewrite Zminus_mod_idemp_l. do 2 f_equal. lia.
    + rewrite !(testbit_high _ 32) by (try apply rotate_left_range; lia). reflexivity.
  - apply Z.bits_inj'. intros i Hi. destruct (Z.ltb_spec i 32).
    + rewrite rotate_left_spec, <- Zminus_mod_idemp_r, Z.mul_comm, Z.mod_mul, Z.sub_0_r, Z.mod_small by lia.
      rewrite Z.mod_pow2_bits_low by lia. reflexivity.
    + rewrite (testbit_high (rotate_left _ _) 32), Z.mod_pow2_bits_high by
        (try apply rotate_left_range; lia). reflexivity.
Qed.

End Evaluate.
