(* ===== verification/CompareFamily.v ===== *)
(** * Word compares ([sim/tools/compare_family.py])

    [cmp], [cmpi], [cmpl] and [cmpli] write one field of CR. *)
From Stdlib Require Import Ascii.
From S2P Require Import Prelude ExecResult.

Module compare_family.

Inductive form : Type := X | D.

(** The instruction form, the primary opcode and the extended opcode. *)
Definition ENCODINGS : dict (form * Z * option Z) :=
  [("cmp", (X, 31, Some 0)); ("cmpi", (D, 11, None)); ("cmpl", (X, 31, Some 32));
   ("cmpli", (D, 10, None))]%string.

Record CompareResult : Type := {
  cr : Z;
  field : Z;
  ca : Z;
  ov : Z;
  so : Z
}.

Definition _bit (v : Z) (name : string) : result Z := check_bit v name.

Definition _signed32 (v : Z) : Z :=
  let v := Z.land v MASK32 in
  if truthy (Z.land v 0x80000000) then v - Z.shiftl 1 32 else v.

(** [family.endswith("i")] *)
Fixpoint endswith_i (s : string) : bool :=
  match s with
  | EmptyString => false
  | String c EmptyString => Ascii.eqb c "i"%char
  | String _ s' => endswith_i s'
  end.

(** The right operand: an encoded immediate or a register word. *)
Definition right_operand (family : string) (rhs : Z) : result Z :=
  if endswith_i family
  then
    require! in_range 0 (Z.shiftl 1 16) rhs
      else ValueError "immediate rhs must be a 16-bit encoded field" in
    Ok (if String.eqb family "cmpi" && truthy (Z.land rhs 0x8000) then rhs - Z.shiftl 1 16 else rhs)
  else Ok (Z.land rhs MASK32).

Definition evaluate (family : string) (a rhs bf l ca ov so old_cr : Z) : result CompareResult :=
  require! dict_mem ENCODINGS family else ValueError ("unknown compare family: " ++ family) in
  require! in_range 0 8 bf else ValueError "bf must be a three-bit field" in
  require! l =? 0 else ValueError "only the 32-bit L=0 form is legal on 603e" in
  let! ca := _bit ca "ca" in
  let! ov := _bit ov "ov" in
  let! so := _bit so "so" in
  require! (0 <=? old_cr) && (old_cr <=? MASK32) else ValueError "old_cr must be a 32-bit value" in
  let a := Z.land a MASK32 in
  let! b := right_operand family rhs in
  let '(lhs, rhs') :=
    if str_in family ["cmp"; "cmpi"]%string then (_signed32 a, _signed32 b) else (a, b) in
  let relation := if lhs <? rhs' then 8 else if rhs' <? lhs then 4 else 2 in
  let field := Z.lor relation so in
  let shift := 28 - 4 * bf in
  let field_mask := Z.shiftl 0xF shift in
  let cr := Z.lor (Z.land old_cr (Z.lnot field_mask)) (Z.shiftl field shift) in
  Ok {| cr := cr; field := field; ca := ca; ov := ov; so := so |}.

Definition encode (family : string) (bf ra rhs l : Z) : result Z :=
  match dict_get ENCODINGS family with
  | None => Raise (ValueError ("unknown compare family: " ++ family))
  | Some (f, opcode, xo) =>
      require! in_range 0 8 bf else ValueError "bf must be a three-bit field" in
      require! in_range 0 32 ra else ValueError "ra must be a five-bit field" in
      require! l =? 0 else ValueError "only the 32-bit L=0 form is legal on 603e" in
      let word := Z.lor (Z.lor (Z.shiftl opcode 26) (Z.shiftl bf 23)) (Z.shiftl ra 16) in
      match f with
      | D =>
          require! in_range 0 (Z.shiftl 1 16) rhs
            else ValueError "immediate rhs must be a 16-bit encoded field" in
          Ok (Z.lor word rhs)
      | X =>
          require! in_range 0 32 rhs else ValueError "register rhs must be a five-bit field" in
          match xo with
          | Some xo => Ok (Z.lor (Z.lor word (Z.shiftl rhs 11)) (Z.shiftl xo 1))
          | None => Raise TypeError
          end
      end
  end.

(** The members of an anchor vector; [None] where the dictionary leaves the
    argument to its default. *)
Record Anchor : Type := {
  a_family : string; a_a : Z; a_rhs : Z; a_bf : Z; a_so : option Z; a_old_cr : option Z
}.

Definition anchor_vectors : list Anchor := [
  Build_Anchor "cmp" 0xFFFFFFFF 0 0 None None;
  Build_Anchor "cmpl" 0xFFFFFFFF 0 3 (Some 1) None;
  Build_Anchor "cmpi" 0 0xFFFF 7 None None;
  Build_Anchor "cmpli" 0 0xFFFF 5 None (Some 0x12345678)
].

End compare_family.

Section Evaluate.
Import compare_family.

Definition compare_args_ok (family : string) (rhs bf l ca ov so old_cr : Z) : bool :=
  dict_mem ENCODINGS family && in_range 0 8 bf && (l =? 0) && is_flag ca && is_flag ov
  && is_flag so && in_range 0 (2 ^ 32) old_cr
  && (negb (str_in family ["cmpi"; "cmpli"]%string) || in_range 0 (2 ^ 16) rhs).

(** The two numbers a form compares: [cmp] two signed words, [cmpi] a signed
    word and the sign-extended immediate, [cmpl] two unsigned words, [cmpli] an
    unsigned word and the zero-extended immediate. *)
Definition compare_operands (family : string) (a rhs : Z) : Z * Z :=
  if String.eqb family "cmp" then (to_signed32 a, to_signed32 rhs)
  else if String.eqb family "cmpi"
  then (to_signed32 a, if rhs <? 2 ^ 15 then rhs else rhs - 2 ^ 16)
  else if String.eqb family "cmpl" then (a mod 2 ^ 32, rhs mod 2 ^ 32)
  else (a mod 2 ^ 32, rhs).

Definition relation_bits (x y : Z) : Z :=
  match x ?= y with Lt => 8 | Gt => 4 | Eq => 2 end.

Lemma _signed32_eq v : _signed32 v = to_signed32 v.
Proof. reflexivity. Qed.

Lemma to_signed32_mask v : to_signed32 (Z.land v MASK32) = to_signed32 v.
Proof. unfold to_signed32. rewrite mask32_idem. reflexivity. Qed.

Lemma relation_bits_eq x y :
  (if x <? y then 8 else if y <? x then 4 else 2) = relation_bits x y.
Proof.
  unfold relation_bits, Z.ltb. rewrite (Z.compare_antisym x y).
  destruct (x ?= y); reflexivity.
Qed.

Lemma right_operand_spec family a rhs :
  dict_mem ENCODINGS family = true ->
  negb (str_in family ["cmpi"; "cmpli"]%string) || in_range 0 (2 ^ 16) rhs = true ->
  exists b, right_operand family rhs = Ok b /\
    (if str_in family ["cmp"; "cmpi"]%string then (_signed32 (Z.land a MASK32), _signed32 b)
     else (Z.land a MASK32, b)) = compare_operands family a rhs.
Proof.
  intros Hf Hr. unfold right_operand, compare_operands. rewrite !_signed32_eq, to_signed32_mask.
  change (Z.shiftl 1 16) with (2 ^ 16).
  dict_cases Hf; cbn -[in_range Z.land Z.pow Z.modulo to_signed32 Z.ltb] in Hr |- *;
    rewrite ?Hr; cbn -[in_range Z.land Z.pow Z.modulo to_signed32 Z.ltb];
    eexists; (split; [reflexivity |]); rewrite ?_signed32_eq, ?to_signed32_mask, ?mask32_mod;
    try reflexivity.
  apply in_range_iff in Hr. f_equal.
  change 0x8000 with (Z.shiftl 1 15). rewrite truthy_land_bit, testbit_top by lia.
  destruct (Z.leb_spec (2 ^ 15) rhs), (Z.ltb_spec rhs (2 ^ 15)); try lia;
    apply to_signed32_unique; lia || reflexivity.
Qed.

Lemma endswith_i_str family :
  dict_mem ENCODINGS family = true -> endswith_i family = str_in family ["cmpi"; "cmpli"]%string.
Proof. intros Hf. dict_cases Hf; reflexivity. Qed.

Lemma compare_ok_args family a rhs bf l ca ov so old_cr r :
  evaluate family a rhs bf l ca ov so old_cr = Ok r ->
  compare_args_ok family rhs bf l ca ov so old_cr = true.
Proof.
  unfold evaluate, compare_args_ok, _bit, right_operand. intros H.
  destruct (dict_mem ENCODINGS family) eqn:Hf; [| discriminate H].
  rewrite endswith_i_str in H by assumption.
  destruct (in_range 0 8 bf); [| discriminate H]. destruct (l =? 0); [| discriminate H].
  do 3 match type of H with context [check_bit ?v ?n] =>
    let E := fresh "E" in destruct (check_bit v n) eqn:E; [| discriminate H];
    apply check_bit_inv in E; destruct E as [-> ->] end.
  destruct ((0 <=? old_cr) && (old_cr <=? MASK32)) eqn:E; [| discriminate H].
  assert (in_range 0 (2 ^ 32) old_cr = true) as ->.
  { unfold MASK32 in E. bool_prop. apply in_range_iff. lia. }
  destruct (str_in family _); [| reflexivity]. change (Z.shiftl 1 16) with (2 ^ 16) in H.
  destruct (in_range 0 (2 ^ 16) rhs); [reflexivity | discriminate H].
Qed.

Lemma compare_evaluate_eq family a rhs bf l ca ov so old_cr :
  compare_args_ok family rhs bf l ca ov so old_cr = true ->
  evaluate family a rhs bf l ca ov so old_cr =
  let '(x, y) := compare_operands family a rhs in
  let f := Z.lor (relation_bits x y) so in
  let sh := 28 - 4 * bf in
  Ok {| cr := Z.lor (Z.land old_cr (Z.lnot (Z.shiftl 0xF sh))) (Z.shiftl f sh);
        field := f; ca := ca; ov := ov; so := so |}.
Proof.
  unfold compare_args_ok. rewrite !andb_true_iff.
  intros (((((((Hf & Hbf) & Hl) & Hca) & Hov) & Hso) & Hcr) & Hr).
  unfold evaluate, _bit. rewrite Hf, Hbf, Hl, !check_bit_ok by assumption.
  apply in_range_iff in Hcr.
  assert ((0 <=? old_cr) && (old_cr <=? MASK32) = true) as ->.
  { unfold MASK32. apply andb_true_iff. rewrite !Z.leb_le. lia. }
  destruct (right_operand_spec family a rhs Hf Hr) as (b & Eb & Ep). rewrite Eb. cbv zeta.
  rewrite Ep. destruct (compare_operands family a rhs) as [x y]. rewrite relation_bits_eq.
  reflexivity.
Qed.

Lemma field_bits_range x y t : is_flag t = true -> 0 <= Z.lor (relation_bits x y) t < 2 ^ 4.
Proof.
  intros Ht. apply is_flag_iff in Ht. unfold relation_bits.
  apply lor_bound; [lia | destruct (x ?= y); lia | lia].
Qed.

(** A compare writes exactly one CR field: field BF gets LT, GT or EQ of
    the two numbers the form compares, with the incoming SO below; the other
    seven fields, and XER, keep their values; CR stays a 32-bit word. *)
Theorem compare_evaluate_correct family a rhs bf l c o t old_cr :
  match evaluate family a rhs bf l c o t old_cr with
  | Raise _ => compare_args_ok family rhs bf l c o t old_cr = false
  | Ok r =>
      compare_args_ok family rhs bf l c o t old_cr = true /\
      let '(x, y) := compare_operands family a rhs in
      field r = relation_bits x y + t /\
      (forall k, 0 <= k < 8 ->
        Prelude.field (cr r) (28 - 4 * k) 4 =
        if k =? bf then field r else Prelude.field old_cr (28 - 4 * k) 4) /\
      0 <= cr r < 2 ^ 32 /\ ca r = c /\ ov r = o /\ so r = t
  end.
Proof.
  destruct (evaluate family a rhs bf l c o t old_cr) as [r |] eqn:E.
  2: { destruct (compare_args_ok family rhs bf l c o t old_cr) eqn:Hok; [| reflexivity].
       rewrite compare_evaluate_eq in E by assumption.
       destruct (compare_operands family a rhs). discriminate. }
  pose proof (compare_ok_args _ _ _ _ _ _ _ _ _ _ E) as Hok. split; [exact Hok |].
  rewrite compare_evaluate_eq in E by assumption. unfold compare_args_ok in Hok.
  rewrite !andb_true_iff, !in_range_iff in Hok.
  destruct Hok as (((((((_ & Hbf) & _) & _) & _) & Ht) & Hcr) & _).
  destruct (compare_operands family a rhs) as [x y]. injection E as <-.
  pose proof (field_bits_range x y t Ht) as Hfr.
  cbn -[Z.land Z.lor Z.shiftl Z.lnot Prelude.field Z.sub Z.mul Z.add] in *.
  set (f := Z.lor (relation_bits x y) t) in *.
  assert (Hb : 0 <= Z.lor (Z.land old_cr (Z.lnot (Z.shiftl 15 (28 - 4 * bf))))
                          (Z.shiftl f (28 - 4 * bf)) < 2 ^ 32).
  { apply lor_bound; [lia | apply land_bound_l; lia |]. rewrite Z.shiftl_mul_pow2 by lia.
    assert (0 < 2 ^ (28 - 4 * bf) <= 2 ^ 28) by
      (split; [apply Z.pow_pos_nonneg; lia | apply Z.pow_le_mono_r; lia]). nia. }
  repeat split.
  - unfold f, relation_bits. apply is_flag_iff in Ht.
    destruct Ht as [-> | ->], (x ?= y); reflexivity.
  - intros k Hk. apply Z.bits_inj'. intros i Hi. rewrite field_spec by lia.
    destruct (Z.ltb_spec i 4); cbn [andb].
    + rewrite Z.lor_spec, Z.land_spec, Z.lnot_spec, !Z.shiftl_spec by lia.
      destruct (Z.eqb_spec k bf) as [-> | Hne].
      * replace (i + (28 - 4 * bf) - (28 - 4 * bf)) with i by lia.
        change 15 with (Z.ones 4). rewrite testbit_ones, (proj2 (Z.ltb_lt i 4)) by lia.
        rewrite andb_false_r. reflexivity.
      * rewrite field_spec, (proj2 (Z.ltb_lt i 4)) by lia. cbn [andb].
        assert (forall z, 0 <= z < 2 ^ 4 ->
          Z.testbit z (i + (28 - 4 * k) - (28 - 4 * bf)) = false) as Hz.
        { intros z Hz. destruct (Z.ltb_spec (i + (28 - 4 * k) - (28 - 4 * bf)) 0).
          - apply Z.testbit_neg_r. assumption.
          - apply (testbit_high z 4); lia. }
        rewrite (Hz 15), (Hz f), andb_true_r, orb_false_r by lia. reflexivity.
    + destruct (k =? bf); [rewrite (testbit_high f 4) by lia; reflexivity |].
      rewrite field_spec, (proj2 (Z.ltb_ge i 4)) by lia. reflexivity.
  - apply Hb.
  - apply Hb.
Qed.

End Evaluate.
