(* ===== verification/Encoders.v ===== *)
(** * The encoders of the integer families, together

    The five [encode] functions as one encoder of a joint instruction type, a
    reference decoder, and their round trip: no field is lost and no two
    instructions of the families share a word. *)
From S2P Require Import Prelude ExecResult AddFamily LogicalFamily ShiftFamily RotateFamily.
From S2P Require Import CompareFamily.

Inductive instr : Type :=
| IAdd (family : string) (oe rc rd ra rb : Z)
| ILogical (family : string) (rc rs ra rb : Z)
| IShift (family : string) (rc rs ra rb_or_sh : Z)
| IRotate (family : string) (rc rs ra sh_or_rb mb me : Z)
| ICompare (family : string) (bf ra rhs : Z).

Definition encode_instr (i : instr) : result Z :=
  match i with
  | IAdd f oe rc rd ra rb => add_family.encode f oe rc rd ra rb
  | ILogical f rc rs ra rb => logical_family.encode f rc rs ra rb
  | IShift f rc rs ra x => shift_family.encode f rc rs ra x
  | IRotate f rc rs ra x mb me => rotate_family.encode f rc rs ra x mb me
  | ICompare f bf ra rhs => compare_family.encode f bf ra rhs 0
  end.

(** The key of a dictionary value. *)
Fixpoint key_of (d : dict Z) (v : Z) : option string :=
  match d with
  | [] => None
  | (k, v') :: d' => if v =? v' then Some k else key_of d' v
  end.

Definition decode_31 (w : Z) : option instr :=
  let rs := field w 21 5 in let ra := field w 16 5 in let rb := field w 11 5 in
  let rc := field w 0 1 in let xo := field w 1 10 in
  match key_of logical_family.XO xo, key_of shift_family.XO xo, key_of add_family.XO (field w 1 9) with
  | Some f, _, _ => Some (ILogical f rc rs ra rb)
  | None, Some f, _ => Some (IShift f rc rs ra rb)
  | None, None, Some f => Some (IAdd f (field w 10 1) rc rs ra rb)
  | None, None, None =>
      if xo =? 0 then Some (ICompare "cmp" (field w 23 3) ra rb)
      else if xo =? 32 then Some (ICompare "cmpl" (field w 23 3) ra rb) else None
  end.

Definition decode (w : Z) : option instr :=
  let op := field w 26 6 in
  match key_of rotate_family.PRIMARY_OPCODE op with
  | Some f => Some (IRotate f (field w 0 1) (field w 21 5) (field w 16 5) (field w 11 5)
                            (field w 6 5) (field w 1 5))
  | None =>
      if op =? 31 then decode_31 w
      else if op =? 11 then Some (ICompare "cmpi" (field w 23 3) (field w 16 5) (field w 0 16))
      else if op =? 10 then Some (ICompare "cmpli" (field w 23 3) (field w 16 5) (field w 0 16))
      else None
  end.

(** ** Words as sums of their fields *)
Lemma x_word op a b c x rc :
  0 <= a < 32 -> 0 <= b < 32 -> 0 <= c < 32 -> 0 <= x < 1024 -> 0 <= rc < 2 ->
  Z.lor (Z.lor (Z.lor (Z.lor (Z.lor (Z.shiftl op 26) (Z.shiftl a 21)) (Z.shiftl b 16))
           (Z.shiftl c 11)) (Z.shiftl x 1)) rc =
  op * 2 ^ 26 + a * 2 ^ 21 + b * 2 ^ 16 + c * 2 ^ 11 + x * 2 ^ 1 + rc.
Proof.
  intros. rewrite !Z.shiftl_mul_pow2 by lia.
  rewrite (lor_disjoint (op * 2 ^ 26) _ 26) by word_lia.
  rewrite (lor_disjoint (op * 2 ^ 26 + a * 2 ^ 21) _ 21) by word_lia.
  rewrite (lor_disjoint (op * 2 ^ 26 + a * 2 ^ 21 + b * 2 ^ 16) _ 16) by word_lia.
  rewrite (lor_disjoint (op * 2 ^ 26 + a * 2 ^ 21 + b * 2 ^ 16 + c * 2 ^ 11) _ 11) by word_lia.
  rewrite (lor_disjoint _ rc 1) by word_lia. reflexivity.
Qed.

(** Two adjacent fields read as one. *)
Lemma split_field acc hi lo n m :
  0 <= n -> 0 <= m ->
  Z.lor (Z.lor acc (Z.shiftl hi (n + m))) (Z.shiftl lo m) =
  Z.lor acc (Z.shiftl (Z.lor (Z.shiftl hi n) lo) m).
Proof.
  intros. rewrite Z.shiftl_lor, Z.shiftl_shiftl, Z.lor_assoc by lia. reflexivity.
Qed.

Lemma field_x_word op a b c x rc :
  0 <= op < 64 -> 0 <= a < 32 -> 0 <= b < 32 -> 0 <= c < 32 -> 0 <= x < 1024 -> 0 <= rc < 2 ->
  let w := op * 2 ^ 26 + a * 2 ^ 21 + b * 2 ^ 16 + c * 2 ^ 11 + x * 2 ^ 1 + rc in
  0 <= w < 2 ^ 32 /\ field w 26 6 = op /\ field w 21 5 = a /\ field w 16 5 = b /\
  field w 11 5 = c /\ field w 1 10 = x /\ field w 0 1 = rc /\
  field w 10 1 = x / 512 /\ field w 1 9 = x mod 512 /\ field w 23 3 = a / 4 /\
  field w 6 5 = x / 32 /\ field w 1 5 = x mod 32 /\
  field w 0 16 = c * 2 ^ 11 + x * 2 + rc.
Proof. intros. unfold w. rewrite !field_mod by lia. repeat split; word_lia. Qed.

(** Closed by evaluation once the family and its codes are literals. *)
Ltac rewrite_fields E :=
  let H := fresh "Hw" in
  destruct E as (H & F0 & F1 & F2 & F3 & F4 & F5 & F6 & F7 & F8 & F9 & F10 & F11);
  split; [exact H |]; unfold decode, decode_31;
  rewrite ?F0, ?F1, ?F2, ?F3, ?F4, ?F5, ?F6, ?F7, ?F8, ?F9, ?F10, ?F11.

Lemma is_flag_range v : is_flag v = true -> 0 <= v < 2.
Proof. rewrite is_flag_iff. lia. Qed.

Lemma Forall3_indices (rs ra rb : Z) (n1 n2 n3 : string) :
  Forall (fun p : Z * string => 0 <= fst p < 32) [(rs, n1); (ra, n2); (rb, n3)] ->
  0 <= rs < 32 /\ 0 <= ra < 32 /\ 0 <= rb < 32.
Proof.
  intros H. inversion H as [| ? ? H1 H']; subst. inversion H' as [| ? ? H2 H'']; subst.
  inversion H'' as [| ? ? H3 _]; subst. auto.
Qed.

(** The keys of a literal dictionary behind a successful lookup. *)
Ltac get_cases H :=
  apply dict_get_In in H; simpl in H;
  repeat match type of H with
  | _ \/ _ => destruct H as [H | H]
  | False => destruct H
  end; inversion H; subst; clear H.

Lemma decode_logical f rc rs ra rb w :
  logical_family.encode f rc rs ra rb = Ok w ->
  0 <= w < 2 ^ 32 /\ decode w = Some (ILogical f rc rs ra rb).
Proof.
  unfold logical_family.encode, logical_family._bit.
  destruct (dict_get logical_family.XO f) as [xo |] eqn:Hxo; [| discriminate]. intros H.
  destruct (check_bit rc "rc") eqn:E; [| discriminate H]. apply check_bit_inv in E.
  destruct E as [Hrc ->]. apply is_flag_range in Hrc.
  destruct (check_indices _ _) eqn:E; [| discriminate H]. apply check_indices_inv, Forall3_indices in E.
  assert (0 <= xo < 1024) by (get_cases Hxo; lia).
  rewrite x_word in H by tauto. injection H as <-.
  pose proof (field_x_word 31 rs ra rb xo rc ltac:(lia) ltac:(tauto) ltac:(tauto) ltac:(tauto)
                ltac:(lia) ltac:(lia)) as F. cbv zeta in F.
  rewrite_fields F. get_cases Hxo; reflexivity.
Qed.

Lemma decode_shift f rc rs ra x w :
  shift_family.encode f rc rs ra x = Ok w ->
  0 <= w < 2 ^ 32 /\ decode w = Some (IShift f rc rs ra x).
Proof.
  unfold shift_family.encode, shift_family._bit.
  destruct (dict_get shift_family.XO f) as [xo |] eqn:Hxo; [| discriminate]. intros H.
  destruct (check_bit rc "rc") eqn:E; [| discriminate H]. apply check_bit_inv in E.
  destruct E as [Hrc ->]. apply is_flag_range in Hrc.
  destruct (check_indices _ _) eqn:E; [| discriminate H]. apply check_indices_inv, Forall3_indices in E.
  assert (0 <= xo < 1024) by (get_cases Hxo; lia).
  rewrite x_word in H by tauto. injection H as <-.
  pose proof (field_x_word 31 rs ra x xo rc ltac:(lia) ltac:(tauto) ltac:(tauto) ltac:(tauto)
                ltac:(lia) ltac:(lia)) as F. cbv zeta in F.
  rewrite_fields F. get_cases Hxo; reflexivity.
Qed.

Lemma decode_add f oe rc rd ra rb w :
  add_family.encode f oe rc rd ra rb = Ok w ->
  0 <= w < 2 ^ 32 /\ decode w = Some (IAdd f oe rc rd ra rb).
Proof.
  unfold add_family.encode, add_family._bit.
  destruct (dict_get add_family.XO f) as [xo |] eqn:Hxo; [| discriminate]. intros H.
  destruct (check_bit oe "oe") eqn:E; [| discriminate H]. apply check_bit_inv in E.
  destruct E as [Hoe ->].
  destruct (check_bit rc "rc") eqn:E; [| discriminate H]. apply check_bit_inv in E.
  destruct E as [Hrc ->]. apply is_flag_range in Hrc.
  destruct (check_indices _ _) eqn:E; [| discriminate H]. apply check_indices_inv, Forall3_indices in E.
  destruct (negb (_ && _)); [| discriminate H].
  assert (0 <= xo < 512) by (get_cases Hxo; lia).
  change 10 with (9 + 1) in H. rewrite split_field in H by lia.
  assert (Z.lor (Z.shiftl oe 9) xo = oe * 512 + xo) as Ho.
  { rewrite lor_shiftl_add by lia. reflexivity. }
  rewrite Ho in H. pose proof (is_flag_range _ Hoe).
  rewrite x_word in H by (lia || tauto). injection H as <-.
  pose proof (field_x_word 31 rd ra rb (oe * 512 + xo) rc ltac:(lia) ltac:(tauto) ltac:(tauto)
                ltac:(tauto) ltac:(lia) ltac:(lia)) as F. cbv zeta in F.
  rewrite_fields F. apply is_flag_iff in Hoe.
  destruct Hoe as [-> | ->]; get_cases Hxo; reflexivity.
Qed.

Lemma decode_rotate f rc rs ra x mb me w :
  rotate_family.encode f rc rs ra x mb me = Ok w ->
  0 <= w < 2 ^ 32 /\ decode w = Some (IRotate f rc rs ra x mb me).
Proof.
  unfold rotate_family.encode, rotate_family._bit, rotate_family._five_bits.
  destruct (dict_get rotate_family.PRIMARY_OPCODE f) as [op |] eqn:Hop; [| discriminate]. intros H.
  destruct (check_bit rc "rc") eqn:E; [| discriminate H]. apply check_bit_inv in E.
  destruct E as [Hrc ->]. apply is_flag_range in Hrc.
  do 5 match type of H with context [check_five ?w ?v ?n] =>
    let E := fresh "E" in destruct (check_five w v n) eqn:E; [| discriminate H];
    apply check_five_inv in E; destruct E as [E ->] end.
  assert (0 <= op < 64) by (get_cases Hop; lia).
  change 6 with (5 + 1) in H. rewrite split_field in H by lia.
  rewrite (lor_shiftl_add mb me 5) in H by lia. change (2 ^ 5) with 32 in H.
  rewrite x_word in H by lia. injection H as <-.
  pose proof (field_x_word op rs ra x (mb * 32 + me) rc ltac:(lia) ltac:(lia) ltac:(lia)
                ltac:(lia) ltac:(lia) ltac:(lia)) as F. cbv zeta in F.
  replace ((mb * 32 + me) / 32) with mb in F by word_lia.
  replace ((mb * 32 + me) mod 32) with me in F by word_lia.
  rewrite_fields F. get_cases Hop; reflexivity.
Qed.

(** A D-form word, or an X-form one whose first operand is BF. *)
Lemma cmp_word op bf ra lo :
  0 <= bf < 8 -> 0 <= ra < 32 -> 0 <= lo < 2 ^ 16 ->
  Z.lor (Z.lor (Z.lor (Z.shiftl op 26) (Z.shiftl bf 23)) (Z.shiftl ra 16)) lo =
  op * 2 ^ 26 + (bf * 4) * 2 ^ 21 + ra * 2 ^ 16 + (lo / 2 ^ 11) * 2 ^ 11
    + ((lo mod 2 ^ 11) / 2) * 2 ^ 1 + lo mod 2.
Proof.
  intros. rewrite !Z.shiftl_mul_pow2 by lia.
  rewrite (lor_disjoint (op * 2 ^ 26) _ 26) by word_lia.
  rewrite (lor_disjoint (op * 2 ^ 26 + bf * 2 ^ 23) _ 21) by word_lia.
  rewrite (lor_disjoint _ lo 16) by word_lia. word_lia.
Qed.

Lemma compare_d_fields op bf ra lo :
  0 <= op < 64 -> 0 <= bf < 8 -> 0 <= ra < 32 -> 0 <= lo < 2 ^ 16 ->
  let w := Z.lor (Z.lor (Z.lor (Z.shiftl op 26) (Z.shiftl bf 23)) (Z.shiftl ra 16)) lo in
  0 <= w < 2 ^ 32 /\ field w 26 6 = op /\ field w 23 3 = bf /\ field w 16 5 = ra /\
  field w 11 5 = lo / 2 ^ 11 /\ field w 1 10 = (lo mod 2 ^ 11) / 2 /\ field w 0 16 = lo /\
  field w 1 9 = ((lo mod 2 ^ 11) / 2) mod 512.
Proof.
  intros Hop Hbf Hra Hlo. cbv zeta. rewrite cmp_word by assumption.
  rewrite !field_mod by lia. repeat split; word_lia.
Qed.

Lemma compare_x_fields bf ra rb xo :
  0 <= bf < 8 -> 0 <= ra < 32 -> 0 <= rb < 32 -> 0 <= xo < 512 ->
  let w := Z.lor (Z.lor (Z.lor (Z.lor (Z.shiftl 31 26) (Z.shiftl bf 23)) (Z.shiftl ra 16))
                    (Z.shiftl rb 11)) (Z.shiftl xo 1) in
  0 <= w < 2 ^ 32 /\ field w 26 6 = 31 /\ field w 23 3 = bf /\ field w 16 5 = ra /\
  field w 11 5 = rb /\ field w 1 10 = xo /\ field w 1 9 = xo.
Proof.
  intros Hbf Hra Hrb Hxo.
  assert (Z.lor (Z.shiftl rb 11) (Z.shiftl xo 1) = rb * 2 ^ 11 + xo * 2) as Hlo.
  { rewrite lor_shiftl_add by (rewrite ?Z.shiftl_mul_pow2 by lia; lia).
    rewrite Z.shiftl_mul_pow2 by lia. reflexivity. }
  cbv zeta. rewrite <- Z.lor_assoc, Hlo.
  destruct (compare_d_fields 31 bf ra (rb * 2 ^ 11 + xo * 2)) as (H0 & H1 & H2 & H3 & H4 & H5 & H6 & H7);
    try lia. cbv zeta in *. rewrite H1, H2, H3, H4, H5, H7. repeat split; try apply H0; word_lia.
Qed.

Lemma decode_compare f bf ra rhs w :
  compare_family.encode f bf ra rhs 0 = Ok w ->
  0 <= w < 2 ^ 32 /\ decode w = Some (ICompare f bf ra rhs).
Proof.
  unfold compare_family.encode. intros H.
  destruct (dict_get compare_family.ENCODINGS f) as [[[fm op] xo] |] eqn:Hf; [| discriminate H].
  destruct (in_range 0 8 bf) eqn:Hbf; [| discriminate H]. apply in_range_iff in Hbf.
  destruct (in_range 0 32 ra) eqn:Hra; [| discriminate H]. apply in_range_iff in Hra.
  cbn [Z.eqb] in H. change (Z.shiftl 1 16) with (2 ^ 16) in H.
  get_cases Hf; destruct (in_range 0 _ rhs) eqn:Hr; try discriminate H; apply in_range_iff in Hr;
    injection H as <-.
  - destruct (compare_x_fields bf ra rhs 0 Hbf Hra Hr ltac:(lia)) as (Hw & F0 & F1 & F2 & F3 & F4 & F5).
    split; [exact Hw |]. unfold decode, decode_31. rewrite F0, F1, F2, F3, F4, F5. reflexivity.
  - destruct (compare_d_fields 11 bf ra rhs ltac:(lia) Hbf Hra Hr) as (Hw & F0 & F1 & F2 & _ & _ & F6 & _).
    split; [exact Hw |]. unfold decode. rewrite F0, F1, F2, F6. reflexivity.
  - destruct (compare_x_fields bf ra rhs 32 Hbf Hra Hr ltac:(lia)) as (Hw & F0 & F1 & F2 & F3 & F4 & F5).
    split; [exact Hw |]. unfold decode, decode_31. rewrite F0, F1, F2, F3, F4, F5. reflexivity.
  - destruct (compare_d_fields 10 bf ra rhs ltac:(lia) Hbf Hra Hr) as (Hw & F0 & F1 & F2 & _ & _ & F6 & _).
    split; [exact Hw |]. unfold decode. rewrite F0, F1, F2, F6. reflexivity.
Qed.

(** C5. Decoding is a left inverse of encoding for all five families at once:
    every word an encoder returns is a 32-bit word from which the family and all
    operands are recovered, so no two instructions, of one family or of
    different ones, share an encoding. *)
Theorem decode_encode_instr i w :
  encode_instr i = Ok w -> 0 <= w < 2 ^ 32 /\ decode w = Some i.
Proof.
  destruct i; cbn [encode_instr]; intros H;
    eauto using decode_add, decode_logical, decode_shift, decode_rotate, decode_compare.
Qed.

Lemma decode_encode_instr_witness :
  encode_instr (IRotate "rlwimi" 1 3 4 5 6 7) = Ok 0x5064298F /\
  (0 <= 0x5064298F < 2 ^ 32 /\ decode 0x5064298F = Some (IRotate "rlwimi" 1 3 4 5 6 7)).
Proof.
  split; [reflexivity |]. apply (decode_encode_instr (IRotate "rlwimi" 1 3 4 5 6 7)). reflexivity.
Defined.
