(* ===== verification/FlagState.v ===== *)
(** * CR0/XER commit and the flag-owner lifecycle ([sim/tools/flag_state.py])

    The masked commit packet, the completion checks, the three [prepare_*]
    functions that call the family models, and the one-owner machine
    [FlagOwnerModel] whose [advance] is one clock edge. *)
From S2P Require Import Prelude ExecResult AddFamily LogicalFamily ShiftFamily.

Module flag_state.

Definition CR0_MASK : Z := 0xF0000000.
Definition XER_SO_MASK : Z := 0x80000000.
Definition XER_OV_MASK : Z := 0x40000000.
Definition XER_CA_MASK : Z := 0x20000000.
Definition OWNER_DEPTH : Z := 5.
Definition GENERATION_MODULUS : Z := 256.

Definition _bit (v : Z) (name : string) : result Z :=
  if negb (is_flag v) then Raise (FlagStateError (name ++ " must be 0 or 1")) else Ok v.

Definition _word (v : Z) (name : string) : result Z :=
  if negb ((0 <=? v) && (v <=? MASK32))
  then Raise (FlagStateError (name ++ " must be a 32-bit unsigned value")) else Ok v.

(** The frozen dataclasses: the record, and the constructor whose
    [__post_init__] validates it. *)
Record OwnerTag : Type := { index : Z; generation : Z }.

Definition mk_OwnerTag (index generation : Z) : result OwnerTag :=
  require! in_range 0 OWNER_DEPTH index
    else FlagStateError "owner index must select one of five completion slots" in
  require! in_range 0 GENERATION_MODULUS generation
    else FlagStateError "owner generation must be an eight-bit value" in
  Ok {| index := index; generation := generation |}.

Record WritePermissions : Type := {
  read_ca : bool;
  read_so : bool;
  write_ca : bool;
  write_ov_so : bool;
  write_cr_field : bool
}.

Definition mk_WritePermissions (read_ca read_so write_ca write_ov_so write_cr_field : bool)
  : result WritePermissions :=
  require! negb ((write_ov_so || write_cr_field) && negb read_so)
    else FlagStateError "OV/SO or CR0 writers must capture incoming SO" in
  Ok {| read_ca := read_ca; read_so := read_so; write_ca := write_ca;
        write_ov_so := write_ov_so; write_cr_field := write_cr_field |}.

Definition needs_flags (p : WritePermissions) : bool :=
  read_ca p || read_so p || write_ca p || write_ov_so p || write_cr_field p.

Definition cr_mask (p : WritePermissions) : Z := if write_cr_field p then CR0_MASK else 0.

Definition xer_mask (p : WritePermissions) : Z :=
  Z.lor (if write_ca p then XER_CA_MASK else 0)
        (if write_ov_so p then Z.lor XER_SO_MASK XER_OV_MASK else 0).

Record CompletionPayload : Type := {
  value : Z;
  ca : Z;
  ov : Z;
  so : Z;
  cr0 : Z
}.

Definition mk_CompletionPayload (value ca ov so cr0 : Z) : result CompletionPayload :=
  let! _ := _word value "result value" in
  let! _ := _bit ca "ca" in
  let! _ := _bit ov "ov" in
  let! _ := _bit so "so" in
  require! (0 <=? cr0) && (cr0 <=? 0xF) else FlagStateError "cr0 must be a four-bit value" in
  Ok {| value := value; ca := ca; ov := ov; so := so; cr0 := cr0 |}.

Record ArchitecturalState : Type := { cr : Z; xer : Z; gprs : list Z }.

Fixpoint check_words (l : list Z) : result unit :=
  match l with
  | [] => Ok tt
  | v :: l' => let! _ := _word v "gprs[index]" in check_words l'
  end.

Definition mk_ArchitecturalState (cr xer : Z) (gprs : list Z) : result ArchitecturalState :=
  let! _ := _word cr "cr" in
  let! _ := _word xer "xer" in
  require! (length gprs =? 32)%nat else FlagStateError "gprs must contain exactly 32 values" in
  let! _ := check_words gprs in
  Ok {| cr := cr; xer := xer; gprs := gprs |}.

Record CommitPacket : Type := {
  cp_permissions : WritePermissions;
  cp_payload : CompletionPayload;
  cp_gpr_write : bool;
  cp_gpr : Z
}.

Definition mk_CommitPacket permissions payload gpr_write (gpr : Z) : result CommitPacket :=
  require! in_range 0 32 gpr else FlagStateError "gpr must be a five-bit register index" in
  Ok {| cp_permissions := permissions; cp_payload := payload; cp_gpr_write := gpr_write;
        cp_gpr := gpr |}.

Record AllocationRequest : Type := {
  ar_tag : OwnerTag;
  ar_permissions : WritePermissions;
  ar_gpr_write : bool;
  ar_gpr : Z
}.

Definition mk_AllocationRequest tag permissions gpr_write (gpr : Z) : result AllocationRequest :=
  require! in_range 0 32 gpr else FlagStateError "gpr must be a five-bit register index" in
  Ok {| ar_tag := tag; ar_permissions := permissions; ar_gpr_write := gpr_write; ar_gpr := gpr |}.

Record CapturedAllocation : Type := { request : AllocationRequest; ca_in : Z; so_in : Z }.

Definition mk_CapturedAllocation (request : AllocationRequest) (ca_in so_in : Z)
  : result CapturedAllocation :=
  let! _ := _bit ca_in "ca_in" in
  let! _ := _bit so_in "so_in" in
  require! needs_flags (ar_permissions request)
    else FlagStateError "flag-free allocation cannot own the flag token" in
  Ok {| request := request; ca_in := ca_in; so_in := so_in |}.

Record PreparedOperation : Type := {
  po_permissions : WritePermissions;
  po_payload : CompletionPayload
}.

Record EdgeOutcome : Type := {
  eo_retired : bool;
  eo_finished : bool;
  eo_wake : bool;
  eo_killed : bool;
  eo_acquired : bool;
  eo_captured : option CapturedAllocation
}.

Definition apply_commit (state : ArchitecturalState) (packet : CommitPacket)
  : result ArchitecturalState :=
  let permissions := cp_permissions packet in
  let payload := cp_payload packet in
  let cr_candidate := Z.shiftl (cr0 payload) 28 in
  let xer_candidate := Z.lor (Z.lor (Z.shiftl (so payload) 31) (Z.shiftl (ov payload) 30))
                             (Z.shiftl (ca payload) 29) in
  let cr := Z.lor (Z.land (cr state) (Z.lnot (cr_mask permissions)))
                  (Z.land cr_candidate (cr_mask permissions)) in
  let xer := Z.lor (Z.land (xer state) (Z.lnot (xer_mask permissions)))
                   (Z.land xer_candidate (xer_mask permissions)) in
  let gprs := if cp_gpr_write packet
              then <[Z.to_nat (cp_gpr packet) := value payload]> (gprs state)
              else gprs state in
  mk_ArchitecturalState cr xer gprs.

#[export] Instance ArchitecturalState_eq_dec : EqDecision ArchitecturalState.
Proof. solve_decision. Defined.

#[export] Instance OwnerTag_eq_dec : EqDecision OwnerTag.
Proof. solve_decision. Defined.

Definition check_commit_transition (before : ArchitecturalState) (packet : CommitPacket)
  (after : ArchitecturalState) : result unit :=
  let! expected := apply_commit before packet in
  require! bool_decide (after = expected)
    else FlagStateError "architectural transition is not the allocated atomic commit" in
  Ok tt.

Definition validate_ov_so (allocation : CapturedAllocation) (payload : CompletionPayload)
  : result unit :=
  if write_ov_so (ar_permissions (request allocation)) then
    let expected_so := Z.lor (so_in allocation) (ov payload) in
    if negb (so payload =? expected_so) then
      if truthy (so_in allocation) && negb (truthy (so payload))
      then Raise (FlagStateError "sticky SO cannot clear an incoming one")
      else Raise (FlagStateError "SO must equal incoming SO OR current OV")
    else Ok tt
  else Ok tt.

Definition validate_cr_field (allocation : CapturedAllocation) (payload : CompletionPayload)
  : result unit :=
  let permissions := ar_permissions (request allocation) in
  if write_cr_field permissions then
    let relation := Z.land (cr0 payload) 0xE in
    let expected_relation :=
      if truthy (Z.land (value payload) 0x80000000) then 8 else if value payload =? 0 then 2 else 4 in
    require! relation =? expected_relation
      else FlagStateError "CR0 LT/GT/EQ must describe the signed result value" in
    let final_so := if write_ov_so permissions then so payload else so_in allocation in
    require! Z.land (cr0 payload) 1 =? final_so
      else FlagStateError "CR0.SO must use the instruction's final SO" in
    Ok tt
  else Ok tt.

Definition validate_completion (allocation : CapturedAllocation) (payload : CompletionPayload)
  : result unit :=
  let! _ := validate_ov_so allocation payload in
  validate_cr_field allocation payload.

(** [CompletionPayload(result.value, result.ca, ...)] over any family's result. *)
Definition payload_of {R} `{ExecResult R} (r : R) : result CompletionPayload :=
  mk_CompletionPayload (er_value r) (er_ca r) (er_ov r) (er_so r) (er_cr0 r).

Definition prepare_add (family : string) (a b ca_in oe rc ov_in so_in old_cr0 : Z)
  : result PreparedOperation :=
  require! dict_mem add_family.XO family else FlagStateError ("unknown ADD family: " ++ family) in
  let! oe := _bit oe "oe" in
  let! rc := _bit rc "rc" in
  let! ca_in := _bit ca_in "ca_in" in
  let! ov_in := _bit ov_in "ov_in" in
  let! so_in := _bit so_in "so_in" in
  let! r := add_family.evaluate family a b ca_in oe rc ov_in so_in old_cr0 in
  let! permissions := mk_WritePermissions (str_in family ["adde"; "addme"; "addze"]%string)
    (truthy oe || truthy rc) (negb (String.eqb family "add")) (truthy oe) (truthy rc) in
  let! payload := payload_of r in
  Ok {| po_permissions := permissions; po_payload := payload |}.

Definition prepare_shift (family : string) (source count rc ca_in ov_in so_in old_cr0 : Z)
  : result PreparedOperation :=
  require! dict_mem shift_family.XO family else FlagStateError ("unknown shift family: " ++ family) in
  let! rc := _bit rc "rc" in
  let! r := shift_family.evaluate family source count rc ca_in ov_in so_in old_cr0 in
  let writes_ca := str_in family ["sraw"; "srawi"]%string in
  let! permissions := mk_WritePermissions false (truthy rc) writes_ca false (truthy rc) in
  let! payload := payload_of r in
  Ok {| po_permissions := permissions; po_payload := payload |}.

Definition prepare_logical (family : string) (source operand rc ca_in ov_in so_in old_cr0 : Z)
  : result PreparedOperation :=
  require! dict_mem logical_family.XO family
    else FlagStateError ("unknown logical family: " ++ family) in
  let! rc := _bit rc "rc" in
  let! r := logical_family.evaluate family source operand rc ca_in ov_in so_in old_cr0 in
  let! permissions := mk_WritePermissions false (truthy rc) false false (truthy rc) in
  let! payload := payload_of r in
  Ok {| po_permissions := permissions; po_payload := payload |}.

(** ** The owner machine *)
Record FlagOwnerModel : Type := {
  state : ArchitecturalState;
  owner : option CapturedAllocation;
  finished : option CompletionPayload
}.

Definition init (st : ArchitecturalState) : FlagOwnerModel :=
  {| state := st; owner := None; finished := None |}.

Definition busy (m : FlagOwnerModel) : bool := match owner m with Some _ => true | None => false end.

Definition owner_tag (o : CapturedAllocation) : OwnerTag := ar_tag (request o).

(** The keyword arguments of one [advance]. *)
Record edge : Type := {
  retire : option OwnerTag;
  finish : option (OwnerTag * CompletionPayload);
  allocate : option AllocationRequest;
  post_commit_survivors : option (list OwnerTag)
}.

Definition is_retired (m : FlagOwnerModel) (e : edge) : bool :=
  match retire e, owner m, finished m with
  | Some t, Some o, Some _ => bool_decide (t = owner_tag o)
  | _, _, _ => false
  end.

(** The consistency checks on an accepted redirect. *)
Definition check_recovery (m : FlagOwnerModel) (retired : bool) (survivors : list OwnerTag)
  : method FlagOwnerModel unit :=
  do! _ := m_raise_if (negb (length survivors =? length (remove_dups survivors))%nat)
    (FlagStateError "recovery flag-owner list contains a duplicate") in
  do! _ := m_raise_if (1 <? length survivors)%nat
    (FlagStateError "at most one flag owner may survive recovery") in
  do! _ := match owner m, survivors with
    | None, _ :: _ => m_raise (FlagStateError "recovery names a flag owner when none is allocated")
    | Some o, t :: _ =>
        m_raise_if (negb (bool_decide (t = owner_tag o)))
          (FlagStateError "recovery survivor is not the exact allocated flag owner")
    | _, [] => m_ret tt
    end in
  m_raise_if (retired && match survivors with [] => false | _ => true end)
    (FlagStateError "retiring flag owner must be absent from post-commit survivors").

Definition retire_step (pre_owner : CapturedAllocation) (pre_finished : CompletionPayload)
  : method FlagOwnerModel unit :=
  do! _ := m_lift (validate_completion pre_owner pre_finished) in
  do! packet := m_lift (mk_CommitPacket (ar_permissions (request pre_owner)) pre_finished
    (ar_gpr_write (request pre_owner)) (ar_gpr (request pre_owner))) in
  do! m := m_get in
  do! st := m_lift (apply_commit (state m) packet) in
  m_put {| state := st; owner := None; finished := None |}.

Definition kill_step (e : edge) : method FlagOwnerModel bool :=
  do! m := m_get in
  match post_commit_survivors e, owner m with
  | Some survivors, Some o =>
      if negb (bool_decide (owner_tag o ∈ survivors)) then
        do! _ := m_put {| state := state m; owner := None; finished := None |} in m_ret true
      else m_ret false
  | _, _ => m_ret false
  end.

Definition finish_step (e : edge) : method FlagOwnerModel bool :=
  do! m := m_get in
  match finish e, owner m, finished m with
  | Some (tag, payload), Some o, None =>
      if bool_decide (tag = owner_tag o) then
        do! _ := m_lift (validate_completion o payload) in
        do! _ := m_put {| state := state m; owner := owner m; finished := Some payload |} in
        m_ret true
      else m_ret false
  | _, _, _ => m_ret false
  end.

Definition allocate_step (pre_busy : bool) (e : edge)
  : method FlagOwnerModel (bool * option CapturedAllocation) :=
  do! m := m_get in
  match allocate e, post_commit_survivors e with
  | Some request, None =>
      if negb (needs_flags (ar_permissions request)) then m_ret (true, None)
      else if negb pre_busy then
        do! captured := m_lift (mk_CapturedAllocation request
          (Z.b2z (truthy (Z.land (xer (state m)) XER_CA_MASK)))
          (Z.b2z (truthy (Z.land (xer (state m)) XER_SO_MASK)))) in
        do! _ := m_put {| state := state m; owner := Some captured; finished := None |} in
        m_ret (true, Some captured)
      else m_ret (false, None)
  | _, _ => m_ret (false, None)
  end.

Definition advance (e : edge) : method FlagOwnerModel EdgeOutcome :=
  do! pre := m_get in
  let retired := is_retired pre e in
  do! _ := match post_commit_survivors e with
    | Some survivors => check_recovery pre retired survivors
    | None => m_ret tt
    end in
  do! _ := match retired, owner pre, finished pre with
    | true, Some o, Some p => retire_step o p
    | _, _, _ => m_ret tt
    end in
  do! killed := kill_step e in
  do! did_finish := finish_step e in
  do! alloc := allocate_step (busy pre) e in
  do! m := m_get in
  m_ret {| eo_retired := retired;
           eo_finished := did_finish;
           eo_wake := did_finish && match owner m with
                                    | Some o => ar_gpr_write (request o)
                                    | None => false
                                    end;
           eo_killed := killed;
           eo_acquired := fst alloc;
           eo_captured := snd alloc |}.

End flag_state.

Section Commit.
Import flag_state.

Record payload_ok (p : CompletionPayload) : Prop := {
  pok_value : word (value p);
  pok_ca : is_flag (ca p) = true;
  pok_ov : is_flag (ov p) = true;
  pok_so : is_flag (so p) = true;
  pok_cr0 : 0 <= cr0 p < 16
}.

Record state_ok (st : ArchitecturalState) : Prop := {
  sok_cr : word (cr st);
  sok_xer : word (xer st);
  sok_len : length (gprs st) = 32%nat;
  sok_gprs : Forall word (gprs st)
}.

Definition SO_of (st : ArchitecturalState) : Z := Z.b2z (Z.testbit (xer st) 31).
Definition CA_of (st : ArchitecturalState) : Z := Z.b2z (Z.testbit (xer st) 29).

Lemma fs_bit_ok v name : is_flag v = true -> flag_state._bit v name = Ok v.
Proof. unfold flag_state._bit. intros ->. reflexivity. Qed.

Lemma _word_ok v name : word v -> _word v name = Ok v.
Proof.
  unfold _word, word, MASK32. intros H.
  destruct (Z.leb_spec 0 v), (Z.leb_spec v 0xffffffff); try lia. reflexivity.
Qed.

Lemma check_words_ok l : Forall word l -> check_words l = Ok tt.
Proof. induction 1 as [| v l Hv _ IH]; [reflexivity |]. cbn. rewrite _word_ok by assumption. exact IH. Qed.

Lemma mk_state_ok cr xer gprs :
  word cr -> word xer -> length gprs = 32%nat -> Forall word gprs ->
  mk_ArchitecturalState cr xer gprs = Ok {| cr := cr; xer := xer; gprs := gprs |}.
Proof.
  intros Hc Hx Hl Hg. unfold mk_ArchitecturalState.
  rewrite !_word_ok, Hl, check_words_ok by assumption. reflexivity.
Qed.

Lemma mk_payload_ok v c o s r :
  payload_ok {| value := v; ca := c; ov := o; so := s; cr0 := r |} ->
  mk_CompletionPayload v c o s r =
  Ok {| value := v; ca := c; ov := o; so := s; cr0 := r |}.
Proof.
  intros [Hv Hc Ho Hs Hr]; cbn in *. unfold mk_CompletionPayload.
  rewrite _word_ok, !fs_bit_ok, nibble_in_range, (proj2 (in_range_iff _ _ _) Hr) by assumption.
  reflexivity.
Qed.

Lemma masked_bit old cand mask i :
  0 <= i -> Z.testbit (Z.lor (Z.land old (Z.lnot mask)) (Z.land cand mask)) i =
            if Z.testbit mask i then Z.testbit cand i else Z.testbit old i.
Proof.
  intros. rewrite Z.lor_spec, !Z.land_spec, Z.lnot_spec by lia.
  destruct (Z.testbit mask i); rewrite ?andb_true_r, ?andb_false_r, ?orb_false_r; reflexivity.
Qed.

Lemma masked_word old cand mask n :
  0 <= n -> 0 <= old < 2 ^ n -> 0 <= mask < 2 ^ n ->
  0 <= Z.lor (Z.land old (Z.lnot mask)) (Z.land cand mask) < 2 ^ n.
Proof.
  intros. apply lor_bound; [lia | apply land_bound_l; lia |].
  rewrite Z.land_comm. apply land_bound_l; lia.
Qed.

Lemma testbit_flag v i : is_flag v = true -> Z.testbit v i = (i =? 0) && (v =? 1).
Proof.
  intros H. apply is_flag_iff in H. destruct (Z.eqb_spec i 0) as [-> |]; cbn [andb].
  - destruct H as [-> | ->]; reflexivity.
  - destruct (Z.ltb_spec i 0); [rewrite Z.testbit_neg_r by lia; reflexivity |].
    apply (testbit_high v 1); lia.
Qed.

Lemma cr_mask_bit p i : 0 <= i -> Z.testbit (cr_mask p) i = write_cr_field p && in_range 28 32 i.
Proof.
  intros Hi. unfold cr_mask. destruct (write_cr_field p); cbn [andb]; [| apply Z.bits_0].
  change CR0_MASK with (Z.shiftl (Z.ones 4) 28). rewrite Z.shiftl_spec by lia.
  unfold in_range. destruct (Z.leb_spec 28 i); cbn [andb].
  - rewrite testbit_ones by lia. destruct (Z.ltb_spec (i - 28) 4), (Z.ltb_spec i 32); auto; lia.
  - apply Z.testbit_neg_r. lia.
Qed.

Lemma xer_mask_bit p i :
  0 <= i -> Z.testbit (xer_mask p) i =
  (write_ca p && (i =? 29)) || (write_ov_so p && ((i =? 30) || (i =? 31))).
Proof.
  intros Hi. unfold xer_mask. rewrite Z.lor_spec.
  change XER_CA_MASK with (Z.shiftl 1 29). change XER_SO_MASK with (Z.shiftl 1 31).
  change XER_OV_MASK with (Z.shiftl 1 30).
  rewrite !(Z.eqb_sym i). f_equal.
  - destruct (write_ca p); [apply testbit_shiftl_one; lia | apply Z.bits_0].
  - destruct (write_ov_so p); [| apply Z.bits_0]. rewrite Z.lor_spec, !testbit_shiftl_one by lia.
    apply orb_comm.
Qed.

Lemma xer_candidate_bit p i :
  payload_ok p -> 29 <= i <= 31 ->
  Z.testbit (Z.lor (Z.lor (Z.shiftl (so p) 31) (Z.shiftl (ov p) 30)) (Z.shiftl (ca p) 29)) i =
  if i =? 31 then so p =? 1 else if i =? 30 then ov p =? 1 else ca p =? 1.
Proof.
  intros [_ Hca Hov Hso _] Hi. rewrite !Z.lor_spec, !Z.shiftl_spec, !testbit_flag by (assumption || lia).
  assert (i = 29 \/ i = 30 \/ i = 31) as [-> | [-> | ->]] by lia; cbn;
    rewrite ?orb_false_r; reflexivity.
Qed.

Lemma single_bit w i : 0 <= i -> field w i 1 = Z.b2z (Z.testbit w i).
Proof.
  intros Hi. rewrite field_mod, Z.pow_1_r by lia. rewrite <- Z.bit0_mod.
  rewrite Z.div_pow2_bits by lia. f_equal.
Qed.

Lemma b2z_flag v : is_flag v = true -> Z.b2z (v =? 1) = v.
Proof. intros H. apply is_flag_iff in H. destruct H as [-> | ->]; reflexivity. Qed.

Lemma low_field_eq x y n :
  0 <= n -> (forall i, 0 <= i < n -> Z.testbit x i = Z.testbit y i) -> field x 0 n = field y 0 n.
Proof.
  intros Hn H. apply Z.bits_inj'. intros i Hi. rewrite !field_spec, Z.add_0_r by lia.
  destruct (Z.ltb_spec i n); [| reflexivity]. cbn. apply H. lia.
Qed.

Lemma insert_words (l : list Z) k v : Forall word l -> word v -> Forall word (<[k := v]> l).
Proof. intros Hl Hv. apply Forall_insert; assumption. Qed.

Lemma cr_mask_range p : 0 <= cr_mask p < 2 ^ 32.
Proof. unfold cr_mask, CR0_MASK. case_if; lia. Qed.

Lemma xer_mask_range p : 0 <= xer_mask p < 2 ^ 32.
Proof.
  unfold xer_mask. apply lor_bound; [lia | case_if; unfold XER_CA_MASK; lia |].
  case_if; [| lia]. apply lor_bound; unfold XER_SO_MASK, XER_OV_MASK; lia.
Qed.

(** The parts of the architectural state a commit packet may write, and what
    each becomes. *)
Record committed (st : ArchitecturalState) (k : CommitPacket) (st' : ArchitecturalState) : Prop := {
  cm_ok : state_ok st';
  cm_cr0 : field (cr st') 28 4 =
    if write_cr_field (cp_permissions k) then cr0 (cp_payload k) else field (cr st) 28 4;
  cm_cr_rest : field (cr st') 0 28 = field (cr st) 0 28;
  cm_so : field (xer st') 31 1 =
    if write_ov_so (cp_permissions k) then so (cp_payload k) else field (xer st) 31 1;
  cm_ov : field (xer st') 30 1 =
    if write_ov_so (cp_permissions k) then ov (cp_payload k) else field (xer st) 30 1;
  cm_ca : field (xer st') 29 1 =
    if write_ca (cp_permissions k) then ca (cp_payload k) else field (xer st) 29 1;
  cm_xer_rest : field (xer st') 0 29 = field (xer st) 0 29;
  cm_gprs : forall r, 0 <= r < 32 -> gprs st' !! Z.to_nat r =
    if cp_gpr_write k && (r =? cp_gpr k) then Some (value (cp_payload k)) else gprs st !! Z.to_nat r
}.

Lemma apply_commit_committed st k :
  state_ok st -> payload_ok (cp_payload k) -> 0 <= cp_gpr k < 32 ->
  exists st', apply_commit st k = Ok st' /\ committed st k st'.
Proof.
  intros Hst Hp Hg. pose proof Hst as [Hcr Hxer Hlen Hgprs]. pose proof Hp as [Hv Hca Hov Hso Hcr0].
  unfold apply_commit. destruct k as [perm p gw gpr]. cbn [cp_permissions cp_payload cp_gpr_write cp_gpr] in *.
  set (crc := Z.shiftl (cr0 p) 28). set (xc := Z.lor _ (Z.shiftl (ca p) 29)).
  assert (Hw : word (Z.lor (Z.land (cr st) (Z.lnot (cr_mask perm))) (Z.land crc (cr_mask perm)))).
  { apply masked_word; [lia | exact Hcr | apply cr_mask_range]. }
  assert (Hx : word (Z.lor (Z.land (xer st) (Z.lnot (xer_mask perm))) (Z.land xc (xer_mask perm)))).
  { apply masked_word; [lia | exact Hxer | apply xer_mask_range]. }
  assert (Hl : length (if gw then <[Z.to_nat gpr:=value p]> (gprs st) else gprs st) = 32%nat).
  { destruct gw; rewrite ?length_insert; exact Hlen. }
  assert (Hf : Forall word (if gw then <[Z.to_nat gpr:=value p]> (gprs st) else gprs st)).
  { destruct gw; [apply insert_words |]; assumption. }
  rewrite mk_state_ok by assumption. eexists. split; [reflexivity |].
  assert (Hxb : forall i, 29 <= i <= 31 ->
    Z.testbit (Z.lor (Z.land (xer st) (Z.lnot (xer_mask perm))) (Z.land xc (xer_mask perm))) i =
    if (write_ca perm && (i =? 29)) || (write_ov_so perm && ((i =? 30) || (i =? 31)))
    then (if i =? 31 then so p =? 1 else if i =? 30 then ov p =? 1 else ca p =? 1)
    else Z.testbit (xer st) i).
  { intros i Hi. rewrite masked_bit, xer_mask_bit by lia. unfold xc.
    rewrite xer_candidate_bit by assumption. reflexivity. }
  split; cbn [cr xer gprs cp_permissions cp_payload cp_gpr_write cp_gpr]; [split; assumption | ..].
  - apply Z.bits_inj'. intros i Hi. rewrite field_spec by lia.
    destruct (Z.ltb_spec i 4); cbn [andb].
    + rewrite masked_bit, cr_mask_bit, (proj2 (in_range_iff 28 32 (i + 28))) by lia.
      rewrite andb_true_r. destruct (write_cr_field perm).
      * unfold crc. rewrite Z.shiftl_spec by lia. f_equal. lia.
      * rewrite field_spec, (proj2 (Z.ltb_lt i 4)) by lia. reflexivity.
    + destruct (write_cr_field perm); [rewrite (testbit_high (cr0 p) 4) by lia; reflexivity |].
      rewrite field_spec, (proj2 (Z.ltb_ge i 4)) by lia. reflexivity.
  - apply low_field_eq; [lia |]. intros i Hi. rewrite masked_bit, cr_mask_bit by lia.
    unfold in_range. rewrite (proj2 (Z.leb_gt 28 i)), andb_false_r by lia. reflexivity.
  - rewrite !single_bit, Hxb by lia. cbn. rewrite andb_false_r, andb_true_r. cbn [orb].
    destruct (write_ov_so perm); [apply b2z_flag; assumption | reflexivity].
  - rewrite !single_bit, Hxb by lia. cbn. rewrite andb_false_r, andb_true_r. cbn [orb].
    destruct (write_ov_so perm); [apply b2z_flag; assumption | reflexivity].
  - rewrite !single_bit, Hxb by lia. cbn. rewrite andb_false_r, andb_true_r, orb_false_r.
    destruct (write_ca perm); [apply b2z_flag; assumption | reflexivity].
  - apply low_field_eq; [lia |]. intros i Hi. rewrite masked_bit, xer_mask_bit by lia.
    rewrite (proj2 (Z.eqb_neq i 29)), (proj2 (Z.eqb_neq i 30)), (proj2 (Z.eqb_neq i 31)),
      !andb_false_r by lia. reflexivity.
  - intros r Hr. destruct gw; cbn [andb]; [| reflexivity].
    destruct (Z.eqb_spec r gpr) as [-> | Hne].
    + apply list_lookup_insert_eq. lia.
    + apply list_lookup_insert_ne. lia.
Qed.

End Commit.

Section Prepare.
Import flag_state.

(** What a prepared operation promises the owner machine: the packet is well
    formed; any allocation that captured the SO the operation read accepts it;
    and a field it has no permission to write holds the incoming value. *)
Record prepared_ok (op : PreparedOperation) (ca_in ov_in so_in cr0_in : Z) : Prop := {
  pr_payload : payload_ok (po_payload op);
  pr_reads_so : write_ov_so (po_permissions op) || write_cr_field (po_permissions op) = true ->
                read_so (po_permissions op) = true;
  pr_valid : forall alloc,
    ar_permissions (request alloc) = po_permissions op -> flag_state.so_in alloc = so_in ->
    validate_completion alloc (po_payload op) = Ok tt;
  pr_ca : write_ca (po_permissions op) = false -> ca (po_payload op) = ca_in;
  pr_ov : write_ov_so (po_permissions op) = false -> ov (po_payload op) = ov_in;
  pr_so : write_ov_so (po_permissions op) = false -> so (po_payload op) = so_in;
  pr_cr0 : write_cr_field (po_permissions op) = false -> cr0 (po_payload op) = cr0_in
}.

Lemma cr0_spec_parts v t :
  word v -> is_flag t = true ->
  Z.land (cr0_spec v t) 0xE =
    (if truthy (Z.land v 0x80000000) then 8 else if v =? 0 then 2 else 4) /\
  Z.land (cr0_spec v t) 1 = t.
Proof.
  intros Hv Ht. rewrite <- cr0_lor by assumption. change 0x80000000 with (Z.shiftl 1 31).
  unfold cr0_relation. apply is_flag_iff in Ht.
  destruct Ht as [-> | ->]; repeat case_if; split; reflexivity.
Qed.

(** The completion checks hold of a result whose SO and CR0 follow the families'
    specification. *)
Lemma validate_spec alloc p :
  payload_ok p ->
  (write_ov_so (ar_permissions (request alloc)) = true ->
     so p = Z.lor (flag_state.so_in alloc) (ov p)) ->
  (write_ov_so (ar_permissions (request alloc)) = false -> so p = flag_state.so_in alloc) ->
  (write_cr_field (ar_permissions (request alloc)) = true -> cr0 p = cr0_spec (value p) (so p)) ->
  validate_completion alloc p = Ok tt.
Proof.
  intros [Hv _ _ Hso _] H1 H2 H3. unfold validate_completion, validate_ov_so, validate_cr_field.
  assert (E1 : (if write_ov_so (ar_permissions (request alloc)) then
      if negb (so p =? Z.lor (flag_state.so_in alloc) (ov p)) then
        if truthy (flag_state.so_in alloc) && negb (truthy (so p))
        then Raise (FlagStateError "sticky SO cannot clear an incoming one")
        else Raise (FlagStateError "SO must equal incoming SO OR current OV")
      else Ok tt else Ok tt) = Ok tt).
  { destruct (write_ov_so _); [| reflexivity]. rewrite <- H1, Z.eqb_refl by reflexivity. reflexivity. }
  rewrite E1. clear E1. cbv zeta. destruct (write_cr_field _); [| reflexivity].
  destruct (cr0_spec_parts (value p) (so p) Hv Hso) as [E2 E3].
  rewrite H3, E2, Z.eqb_refl, E3 by reflexivity.
  destruct (write_ov_so _).
  - rewrite Z.eqb_refl. reflexivity.
  - rewrite H2, Z.eqb_refl by reflexivity. reflexivity.
Qed.

Lemma payload_of_ok {R} `{ExecResult R} (r : R) :
  WellFormed r ->
  payload_of r = Ok {| value := er_value r; ca := er_ca r; ov := er_ov r; so := er_so r;
                       cr0 := er_cr0 r |} /\
  payload_ok {| value := er_value r; ca := er_ca r; ov := er_ov r; so := er_so r; cr0 := er_cr0 r |}.
Proof.
  intros [Hv Hc Ho Hs Hr].
  assert (payload_ok {| value := er_value r; ca := er_ca r; ov := er_ov r; so := er_so r; cr0 := er_cr0 r |})
    as Hp by (split; assumption).
  split; [apply mk_payload_ok |]; exact Hp.
Qed.

Lemma fs_bit_inv v name w : flag_state._bit v name = Ok w -> is_flag v = true /\ w = v.
Proof.
  unfold flag_state._bit. destruct (is_flag v); simpl; intros H; [injection H as H; auto | discriminate].
Qed.

(** The common end of the three functions. *)
Lemma prepared_intro {R} `{ExecResult R} (r : R) perm ca_in ov_in so_in cr0_in op :
  WellFormed r ->
  (let! payload := payload_of r in Ok {| po_permissions := perm; po_payload := payload |}) = Ok op ->
  (write_ov_so perm || write_cr_field perm = true -> read_so perm = true) ->
  (write_ca perm = false -> er_ca r = ca_in) ->
  (if write_ov_so perm then er_so r = Z.lor so_in (er_ov r)
   else er_ov r = ov_in /\ er_so r = so_in) ->
  (er_cr0 r = if write_cr_field perm then cr0_spec (er_value r) (er_so r) else cr0_in) ->
  prepared_ok op ca_in ov_in so_in cr0_in.
Proof.
  intros Hwf E Hrd Hca Hov Hcr. destruct (payload_of_ok r Hwf) as [Ep Hp]. rewrite Ep in E.
  injection E as <-. split; cbn -[validate_completion]; auto.
  - intros alloc Ha Hs. apply validate_spec; [exact Hp | | |]; rewrite Ha, ?Hs; cbn.
    + intros Hw. rewrite Hw in Hov. exact Hov.
    + intros Hw. rewrite Hw in Hov. apply Hov.
    + intros Hw. rewrite Hw in Hcr. exact Hcr.
  - intros Hw. rewrite Hw in Hov. apply Hov.
  - intros Hw. rewrite Hw in Hov. apply Hov.
  - intros Hw. rewrite Hw in Hcr. exact Hcr.
Qed.

Lemma prepare_add_spec family a b ca_in oe rc ov_in so_in old_cr0 op :
  prepare_add family a b ca_in oe rc ov_in so_in old_cr0 = Ok op ->
  prepared_ok op ca_in ov_in so_in old_cr0.
Proof.
  unfold prepare_add. intros H. destruct (dict_mem add_family.XO family) eqn:Hf; [| discriminate H].
  do 5 match type of H with context [flag_state._bit ?v ?n] =>
    let E := fresh "E" in destruct (flag_state._bit v n) eqn:E; [| discriminate H];
    apply fs_bit_inv in E; destruct E as [E ->] end.
  destruct (add_family.evaluate _ _ _ _ _ _ _ _ _) as [r |] eqn:Er; [| discriminate H].
  pose proof (add_evaluate_wf _ _ _ _ _ _ _ _ _ _ Er) as Hwf.
  pose proof (add_evaluate_ok_args _ _ _ _ _ _ _ _ _ _ Er) as Hok.
  rewrite add_evaluate_eq in Er by exact Hok. 
  destruct (mk_WritePermissions _ _ _ _ _) as [perm |] eqn:Eperm; [| discriminate H].
  unfold mk_WritePermissions in Eperm. destruct (negb (_ && _)) eqn:Erd in Eperm; [| discriminate Eperm].
  assert (Hvalue : 0 <= add_family.value r < 2 ^ 32) by apply Hwf.
  assert (Hso : is_flag (add_family.so r) = true) by apply Hwf.
  injection Eperm as <-. apply (prepared_intro r _ _ _ _ _ _ Hwf H);
    cbn [write_ov_so write_cr_field write_ca read_so er_ca er_so er_ov er_cr0 er_value AddResult_exec].
  - auto.
  - intros Hw. apply negb_false_iff in Hw. injection Er as <-. cbn [add_family.ca]. rewrite Hw. reflexivity.
  - injection Er as <-. cbn [add_family.so add_family.ov]. destruct (truthy oe); auto.
  - destruct (truthy rc) eqn:Hrc.
    + rewrite <- cr0_lor by assumption. injection Er as <-.
      cbn [add_family.cr0 add_family.so add_family.value]. rewrite ?Hrc. reflexivity.
    + injection Er as <-. cbn [add_family.cr0]. rewrite ?Hrc. reflexivity.
Qed.

Lemma prepare_shift_spec family source count rc ca_in ov_in so_in old_cr0 op :
  prepare_shift family source count rc ca_in ov_in so_in old_cr0 = Ok op ->
  prepared_ok op ca_in ov_in so_in old_cr0.
Proof.
  unfold prepare_shift. intros H. destruct (dict_mem shift_family.XO family) eqn:Hf; [| discriminate H].
  destruct (flag_state._bit rc "rc") eqn:E; [| discriminate H]. apply fs_bit_inv in E.
  destruct E as [E ->].
  destruct (shift_family.evaluate _ _ _ _ _ _ _ _) as [r |] eqn:Er; [| discriminate H].
  pose proof (shift_evaluate_wf _ _ _ _ _ _ _ _ _ Er) as Hwf.
  pose proof (shift_evaluate_correct family source count rc ca_in ov_in so_in old_cr0) as Hc.
  rewrite Er in Hc. destruct Hc as (_ & Hv & Ho & Hs & Hcr).
  destruct (mk_WritePermissions _ _ _ _ _) as [perm |] eqn:Eperm; [| discriminate H].
  unfold mk_WritePermissions in Eperm. destruct (negb (_ && _)) eqn:Erd in Eperm; [| discriminate Eperm].
  injection Eperm as <-. apply (prepared_intro r _ _ _ _ _ _ Hwf H);
    cbn [write_ov_so write_cr_field write_ca read_so er_ca er_so er_ov er_cr0 er_value ShiftResult_exec].
  - auto.
  - intros Hw. unfold shift_spec in Hv. dict_cases Hf; cbn in Hw; try discriminate Hw; injection Hv; auto.
  - auto.
  - rewrite Hs. exact Hcr.
Qed.

Lemma prepare_logical_spec family source operand rc ca_in ov_in so_in old_cr0 op :
  prepare_logical family source operand rc ca_in ov_in so_in old_cr0 = Ok op ->
  prepared_ok op ca_in ov_in so_in old_cr0.
Proof.
  unfold prepare_logical. intros H.
  destruct (dict_mem logical_family.XO family) eqn:Hf; [| discriminate H].
  destruct (flag_state._bit rc "rc") eqn:E; [| discriminate H]. apply fs_bit_inv in E.
  destruct E as [E ->].
  destruct (logical_family.evaluate _ _ _ _ _ _ _ _) as [r |] eqn:Er; [| discriminate H].
  pose proof (logical_evaluate_wf _ _ _ _ _ _ _ _ _ Er) as Hwf.
  pose proof (logical_evaluate_correct family source operand rc ca_in ov_in so_in old_cr0) as Hc.
  rewrite Er in Hc. destruct Hc as (_ & _ & Hca & Ho & Hs & Hcr).
  destruct (mk_WritePermissions _ _ _ _ _) as [perm |] eqn:Eperm; [| discriminate H].
  unfold mk_WritePermissions in Eperm. destruct (negb (_ && _)) eqn:Erd in Eperm; [| discriminate Eperm].
  injection Eperm as <-. apply (prepared_intro r _ _ _ _ _ _ Hwf H);
    cbn [write_ov_so write_cr_field write_ca read_so er_ca er_so er_ov er_cr0 er_value LogicalResult_exec]; auto.
  rewrite Hs. exact Hcr.
Qed.

End Prepare.

Section Machine.
Import flag_state.

(** The registered state between edges: the machine's state is well formed, an
    owner's captured flags are still the architectural ones, and a finished
    payload has passed the owner's checks. *)
Record owner_inv (m : FlagOwnerModel) : Prop := {
  oi_state : state_ok (state m);
  oi_owner : forall o, owner m = Some o ->
    so_in o = SO_of (state m) /\ ca_in o = CA_of (state m) /\
    needs_flags (ar_permissions (request o)) = true /\ 0 <= ar_gpr (request o) < 32;
  oi_finished : forall p, finished m = Some p ->
    payload_ok p /\ exists o, owner m = Some o /\ validate_completion o p = Ok tt
}.

(** The arguments of an edge come from validated dataclasses. *)
Record edge_ok (e : edge) : Prop := {
  eok_finish : forall t p, finish e = Some (t, p) -> payload_ok p;
  eok_allocate : forall r, allocate e = Some r -> 0 <= ar_gpr r < 32
}.

Definition packet_of (o : CapturedAllocation) (p : CompletionPayload) : CommitPacket :=
  {| cp_permissions := ar_permissions (request o); cp_payload := p;
     cp_gpr_write := ar_gpr_write (request o); cp_gpr := ar_gpr (request o) |}.

Lemma m_raise_if_pure {S} c ex (s : S) : fst (m_raise_if c ex s) = s.
Proof. unfold m_raise_if. destruct c; reflexivity. Qed.

Lemma check_recovery_pure m0 r l m : fst (check_recovery m0 r l m) = m.
Proof.
  unfold check_recovery, m_bind, m_raise_if, m_raise, m_ret.
  destruct (negb _); [reflexivity |]. destruct (1 <? _)%nat; [reflexivity |].
  destruct (owner m0) as [o |], l as [| t l]; try reflexivity;
    repeat (case_if; try reflexivity).
Qed.

Lemma retire_step_ok m o p :
  owner_inv m -> owner m = Some o -> finished m = Some p ->
  exists st', retire_step o p m = ({| state := st'; owner := None; finished := None |}, Ok tt) /\
    committed (state m) (packet_of o p) st'.
Proof.
  intros [Hst Ho Hf] Eo Ef. destruct (Ho o Eo) as (_ & _ & _ & Hg).
  destruct (Hf p Ef) as (Hp & o' & Eo' & Hv). assert (o' = o) as -> by congruence.
  destruct (apply_commit_committed (state m) (packet_of o p) Hst Hp Hg) as (st' & Ea & Hc).
  exists st'. split; [| exact Hc].
  unfold retire_step, m_bind, m_lift, m_get, m_put. rewrite Hv. unfold mk_CommitPacket.
  rewrite (proj2 (in_range_iff 0 32 _) Hg). unfold packet_of in Ea. rewrite Ea. reflexivity.
Qed.

Lemma truthy_bit_of st k : 0 <= k -> Z.b2z (truthy (Z.land (xer st) (Z.shiftl 1 k))) = Z.b2z (Z.testbit (xer st) k).
Proof. intros. rewrite truthy_land_bit by lia. reflexivity. Qed.

Lemma allocate_step_ok m pre_busy e :
  exists b c m', allocate_step pre_busy e m = (m', Ok (b, c)) /\
    match c with
    | None => m' = m /\
        (b = true -> exists r, allocate e = Some r /\ needs_flags (ar_permissions r) = false)
    | Some o => b = true /\ pre_busy = false /\ post_commit_survivors e = None /\
        m' = {| state := state m; owner := Some o; finished := None |} /\
        allocate e = Some (request o) /\ needs_flags (ar_permissions (request o)) = true /\
        so_in o = SO_of (state m) /\ ca_in o = CA_of (state m)
    end.
Proof.
  unfold allocate_step, m_bind, m_get, m_ret, m_lift, m_put.
  destruct (allocate e) as [r |]; [| exists false, None, m; repeat split; discriminate].
  destruct (post_commit_survivors e); [exists false, None, m; repeat split; discriminate |].
  destruct (needs_flags (ar_permissions r)) eqn:En; cbn [negb].
  2: { exists true, None, m. repeat split. exists r. auto. }
  destruct pre_busy; cbn [negb]; [exists false, None, m; repeat split; discriminate |].
  unfold mk_CapturedAllocation. rewrite !fs_bit_ok, En by apply is_flag_b2z.
  change XER_CA_MASK with (Z.shiftl 1 29). change XER_SO_MASK with (Z.shiftl 1 31).
  rewrite !truthy_bit_of by lia.
  eexists true, (Some _), _. split; [reflexivity |]. repeat split; auto.
Qed.

Lemma finish_step_cases m e :
  (exists x, finish_step e m = (m, Raise x)) \/
  finish_step e m = (m, Ok false) \/
  (exists o p, owner m = Some o /\ finished m = None /\ finish e = Some (owner_tag o, p) /\
    validate_completion o p = Ok tt /\
    finish_step e m = ({| state := state m; owner := Some o; finished := Some p |}, Ok true)).
Proof.
  unfold finish_step, m_bind, m_get, m_ret, m_lift, m_put.
  destruct (finish e) as [[t p] |]; [| auto]. destruct (owner m) as [o |]; [| auto].
  destruct (finished m); [auto |]. case_bool_decide as Et; [| auto]. subst t.
  destruct (validate_completion o p) as [[] |] eqn:Ev.
  - right. right. exists o, p. auto 6.
  - left. eauto.
Qed.

Lemma kill_step_cases m e :
  kill_step e m = (m, Ok false) \/
  (exists l o, post_commit_survivors e = Some l /\ owner m = Some o /\ (owner_tag o ∉ l) /\
     kill_step e m = ({| state := state m; owner := None; finished := None |}, Ok true)).
Proof.
  unfold kill_step, m_bind, m_get, m_ret, m_put.
  destruct (post_commit_survivors e) as [l |]; [| auto]. destruct (owner m) as [o |]; [| auto].
  case_bool_decide; cbn [negb]; [auto |]. right. exists l, o. auto.
Qed.

Lemma no_owner_kill st e :
  let m := {| state := st; owner := None; finished := None |} in kill_step e m = (m, Ok false).
Proof. unfold kill_step, m_bind, m_get, m_ret. cbn. destruct (post_commit_survivors e); reflexivity. Qed.

Lemma no_owner_finish st e :
  let m := {| state := st; owner := None; finished := None |} in finish_step e m = (m, Ok false).
Proof. unfold finish_step, m_bind, m_get, m_ret. cbn. destruct (finish e) as [[] |]; reflexivity. Qed.

Lemma allocate_not_free m e b :
  post_commit_survivors e <> None \/ b = true ->
  exists a, allocate_step b e m = (m, Ok (a, None)).
Proof.
  intros H. destruct (allocate_step_ok m b e) as (a & c & m' & E & Hc).
  destruct c as [o |].
  - destruct Hc as (_ & Hb & Hs & _). destruct H; congruence.
  - destruct Hc as [-> _]. eauto.
Qed.

Lemma allocate_recovery m e b l :
  post_commit_survivors e = Some l -> allocate_step b e m = (m, Ok (false, None)).
Proof.
  intros El. unfold allocate_step, m_bind, m_get, m_ret. rewrite El.
  destruct (allocate e); reflexivity.
Qed.

(** The transition of a successful edge, case by case. *)
Inductive edge_step (m : FlagOwnerModel) (e : edge) : FlagOwnerModel -> EdgeOutcome -> Prop :=
| step_retire o p st' acq :
    owner m = Some o -> finished m = Some p -> retire e = Some (owner_tag o) ->
    committed (state m) (packet_of o p) st' ->
    edge_step m e {| state := st'; owner := None; finished := None |}
      {| eo_retired := true; eo_finished := false; eo_wake := false; eo_killed := false;
         eo_acquired := acq; eo_captured := None |}
| step_kill o l :
    owner m = Some o -> post_commit_survivors e = Some l -> owner_tag o ∉ l ->
    edge_step m e {| state := state m; owner := None; finished := None |}
      {| eo_retired := false; eo_finished := false; eo_wake := false; eo_killed := true;
         eo_acquired := false; eo_captured := None |}
| step_finish o p acq :
    owner m = Some o -> finished m = None -> finish e = Some (owner_tag o, p) ->
    validate_completion o p = Ok tt ->
    edge_step m e {| state := state m; owner := Some o; finished := Some p |}
      {| eo_retired := false; eo_finished := true; eo_wake := ar_gpr_write (request o);
         eo_killed := false; eo_acquired := acq; eo_captured := None |}
| step_capture o :
    owner m = None -> post_commit_survivors e = None -> allocate e = Some (request o) ->
    needs_flags (ar_permissions (request o)) = true ->
    so_in o = SO_of (state m) -> ca_in o = CA_of (state m) ->
    edge_step m e {| state := state m; owner := Some o; finished := None |}
      {| eo_retired := false; eo_finished := false; eo_wake := false; eo_killed := false;
         eo_acquired := true; eo_captured := Some o |}
| step_idle acq :
    edge_step m e m
      {| eo_retired := false; eo_finished := false; eo_wake := false; eo_killed := false;
         eo_acquired := acq; eo_captured := None |}.

Lemma is_retired_inv m e :
  is_retired m e = true ->
  exists o p, owner m = Some o /\ finished m = Some p /\ retire e = Some (owner_tag o).
Proof.
  unfold is_retired. destruct (retire e) as [t |], (owner m) as [o' |], (finished m) as [p |]; try discriminate.
  intros H. apply bool_decide_eq_true in H. subst. eauto.
Qed.

Lemma advance_recovery_check m e :
  exists r, (match post_commit_survivors e with
             | Some survivors => check_recovery m (is_retired m e) survivors
             | None => m_ret tt
             end) m = (m, r).
Proof.
  destruct (post_commit_survivors e) as [l |]; [| eexists; reflexivity].
  pose proof (check_recovery_pure m (is_retired m e) l m) as Hp.
  destruct (check_recovery m (is_retired m e) l m) as [m' r]. cbn in Hp. subst. eauto.
Qed.

Lemma busy_owner m o : owner m = Some o -> busy m = true.
Proof. unfold busy. intros ->. reflexivity. Qed.

(** Every edge either raises with the machine untouched or makes one of the
    five transitions. *)
Lemma advance_spec m e :
  owner_inv m ->
  (exists x, advance e m = (m, Raise x)) \/
  (exists m' out, advance e m = (m', Ok out) /\ edge_step m e m' out).
Proof.
  intros Hinv. unfold advance. rewrite (m_bind_ok m_get _ m m m eq_refl).
  destruct (advance_recovery_check m e) as (r & Er).
  destruct r as [[] | x]; [| left; exists x; apply (m_bind_raise _ _ _ _ _ Er)].
  rewrite (m_bind_ok _ _ _ _ _ Er). clear Er.
  destruct (is_retired m e) eqn:Hret.
  - destruct (is_retired_inv m e Hret) as (o & p & Eo & Ef & Et). rewrite Eo, Ef.
    destruct (retire_step_ok m o p Hinv Eo Ef) as (st' & Es & Hc).
    rewrite (m_bind_ok _ _ _ _ _ Es), (m_bind_ok _ _ _ _ _ (no_owner_kill st' e)),
      (m_bind_ok _ _ _ _ _ (no_owner_finish st' e)).
    destruct (allocate_not_free {| state := st'; owner := None; finished := None |} e (busy m)) as (a & Ea).
    { right. eapply busy_owner. exact Eo. }
    rewrite (m_bind_ok _ _ _ _ _ Ea). right.
    eexists _, _. split; [reflexivity |]. econstructor; eauto.
  - rewrite (m_bind_ok (m_ret tt) _ m m tt eq_refl).
    destruct (kill_step_cases m e) as [Ek | (l & o & El & Eo & Hn & Ek)]; rewrite (m_bind_ok _ _ _ _ _ Ek).
    2: { rewrite (m_bind_ok _ _ _ _ _ (no_owner_finish (state m) e)).
         pose proof (allocate_recovery {| state := state m; owner := None; finished := None |} e (busy m) l El) as Ea.
         rewrite (m_bind_ok _ _ _ _ _ Ea). right.
         eexists _, _. split; [reflexivity |]. econstructor; eauto. }
    destruct (finish_step_cases m e) as [(x & Ef) | [Ef | (o & p & Eo & Ef' & Efin & Hv & Ef)]];
      [left; exists x; apply (m_bind_raise _ _ _ _ _ Ef) | |]; rewrite (m_bind_ok _ _ _ _ _ Ef); right.
    + destruct (allocate_step_ok m (busy m) e) as (a & c & m' & Ea & Hc).
      rewrite (m_bind_ok _ _ _ _ _ Ea). destruct c as [o |].
      * destruct Hc as (-> & Hb & Hs & -> & Ha & Hn & Hso & Hca).
        eexists _, _. split; [reflexivity |]. apply step_capture; auto.
        unfold busy in Hb. destruct (owner m); [discriminate | reflexivity].
      * destruct Hc as [-> _]. eexists _, _. split; [reflexivity |]. apply step_idle.
    + destruct (allocate_not_free {| state := state m; owner := Some o; finished := Some p |} e (busy m))
        as (a & Ea). { right. eapply busy_owner. exact Eo. }
      rewrite (m_bind_ok _ _ _ _ _ Ea). eexists _, _. split; [reflexivity |]. apply step_finish; auto.
Qed.

Lemma edge_step_inv m e m' out :
  owner_inv m -> edge_ok e -> edge_step m e m' out -> owner_inv m'.
Proof.
  intros [Hst Ho Hf] [Hef Hea] Hs. destruct Hs; split; cbn; try discriminate; auto.
  - apply H2.
  - intros o' E. injection E as <-. auto.
  - intros p' E. injection E as <-. split; [eapply Hef; eauto | eauto].
  - intros o' E. injection E as <-. repeat split; try assumption; eapply Hea; eauto.
Qed.

(** The machine after a list of edges, raising ones included (they leave it
    where it was). *)
Fixpoint run (es : list edge) (m : FlagOwnerModel) : FlagOwnerModel :=
  match es with [] => m | e :: es' => run es' (fst (advance e m)) end.

Lemma advance_inv m e : owner_inv m -> edge_ok e -> owner_inv (fst (advance e m)).
Proof.
  intros Hm He. destruct (advance_spec m e Hm) as [(x & ->) | (m' & out & -> & Hs)]; [assumption |].
  eapply edge_step_inv; eauto.
Qed.

Lemma run_inv es : forall m, owner_inv m -> Forall edge_ok es -> owner_inv (run es m).
Proof.
  induction es as [| e es IH]; intros m Hm Hes; [exact Hm |].
  inversion Hes; subst. cbn [run]. apply IH; [apply advance_inv |]; assumption.
Qed.


Definition OV_of (st : ArchitecturalState) : Z := Z.b2z (Z.testbit (xer st) 30).
Definition CR0_of (st : ArchitecturalState) : Z := field (cr st) 28 4.

(** An operation prepared by one of the three functions on the flags of [st]. *)
Inductive prepared_on (st : ArchitecturalState) (op : PreparedOperation) : Prop :=
| on_add family a b oe rc :
    prepare_add family a b (CA_of st) oe rc (OV_of st) (SO_of st) (CR0_of st) = Ok op ->
    prepared_on st op
| on_shift family s n rc :
    prepare_shift family s n rc (CA_of st) (OV_of st) (SO_of st) (CR0_of st) = Ok op ->
    prepared_on st op
| on_logical family s b rc :
    prepare_logical family s b rc (CA_of st) (OV_of st) (SO_of st) (CR0_of st) = Ok op ->
    prepared_on st op.

Lemma prepared_on_ok st op :
  prepared_on st op -> prepared_ok op (CA_of st) (OV_of st) (SO_of st) (CR0_of st).
Proof.
  intros [family a b oe rc H | family s n rc H | family s b rc H].
  - eapply prepare_add_spec. exact H.
  - eapply prepare_shift_spec. exact H.
  - eapply prepare_logical_spec. exact H.
Qed.

(** An edge that does not concern the owner [t]: no retirement or finish of it,
    and a redirect, if any, that keeps it. *)
Definition quiet (t : OwnerTag) (e : edge) : Prop :=
  retire e <> Some t /\ (forall p, finish e <> Some (t, p)) /\
  (forall l, post_commit_survivors e = Some l -> t ∈ l).

Lemma quiet_advance m o e :
  owner_inv m -> owner m = Some o -> quiet (owner_tag o) e -> fst (advance e m) = m.
Proof.
  intros Hm Ho (Hr & Hf & Hl).
  destruct (advance_spec m e Hm) as [(x & ->) | (m' & out & -> & Hs)]; [reflexivity |].
  destruct Hs as [o' | o' l Ho' El Hn | o' p acq Ho' _ Ef _ | o' |]; cbn; try reflexivity; exfalso;
    assert (o' = o) as -> by congruence; try congruence.
  apply Hn, Hl. assumption.
Qed.

Lemma quiet_run es m o :
  owner_inv m -> owner m = Some o -> Forall (quiet (owner_tag o)) es -> run es m = m.
Proof.
  intros Hm Ho Hes. revert Hes. induction es as [| e es IH]; intros Hes; [reflexivity |].
  inversion Hes; subst. cbn [run]. rewrite (quiet_advance m o e) by assumption. auto.
Qed.

Lemma run_app es1 es2 m : run (es1 ++ es2) m = run es2 (run es1 m).
Proof. revert m. induction es1; intros m; [reflexivity |]. cbn [run app]. auto. Qed.

Definition allocate_edge (r : AllocationRequest) : edge :=
  {| retire := None; finish := None; allocate := Some r; post_commit_survivors := None |}.
Definition finish_edge (t : OwnerTag) (p : CompletionPayload) : edge :=
  {| retire := None; finish := Some (t, p); allocate := None; post_commit_survivors := None |}.
Definition retire_edge (t : OwnerTag) : edge :=
  {| retire := Some t; finish := None; allocate := None; post_commit_survivors := None |}.

Lemma advance_allocate m r :
  owner m = None -> needs_flags (ar_permissions r) = true ->
  fst (advance (allocate_edge r) m) =
  {| state := state m; finished := None;
     owner := Some {| request := r; ca_in := CA_of (state m); so_in := SO_of (state m) |} |}.
Proof.
  intros Ho Hn. destruct m as [st ow fi]. cbn in Ho. subst ow.
  unfold advance, m_bind, m_get, m_ret. cbn [post_commit_survivors allocate_edge].
  unfold is_retired. cbn [retire allocate_edge]. unfold kill_step, finish_step, allocate_step, m_bind, m_get, m_ret, m_lift, m_put.
  cbn [post_commit_survivors allocate_edge owner finish allocate]. rewrite Hn. cbn [negb busy owner].
  unfold mk_CapturedAllocation. rewrite !fs_bit_ok, Hn by apply is_flag_b2z. cbn [state].
  change XER_CA_MASK with (Z.shiftl 1 29). change XER_SO_MASK with (Z.shiftl 1 31).
  rewrite !truthy_bit_of by lia. reflexivity.
Qed.

Lemma advance_finish m o p :
  owner m = Some o -> finished m = None -> validate_completion o p = Ok tt ->
  fst (advance (finish_edge (owner_tag o) p) m) =
  {| state := state m; owner := Some o; finished := Some p |}.
Proof.
  intros Ho Hf Hv. destruct m as [st ow fi]. cbn in Ho, Hf. subst ow fi.
  unfold advance, m_bind, m_get, m_ret, is_retired, kill_step, finish_step, allocate_step, m_bind, m_get,
    m_ret, m_lift, m_put. cbn [post_commit_survivors finish_edge retire owner finished finish allocate].
  rewrite bool_decide_true by reflexivity. rewrite Hv. reflexivity.
Qed.

Lemma advance_retire m o p :
  owner_inv m -> owner m = Some o -> finished m = Some p ->
  exists st', fst (advance (retire_edge (owner_tag o)) m) =
    {| state := st'; owner := None; finished := None |} /\ committed (state m) (packet_of o p) st'.
Proof.
  intros Hm Ho Hf.
  destruct (retire_step_ok m o p Hm Ho Hf) as (st' & Es & Hc). exists st'. split; [| exact Hc].
  unfold advance. rewrite (m_bind_ok m_get _ m m m eq_refl).
  assert (Hr : is_retired m (retire_edge (owner_tag o)) = true).
  { unfold is_retired. cbn. rewrite Ho, Hf. apply bool_decide_eq_true. reflexivity. }
  rewrite Hr. cbn [post_commit_survivors retire_edge].
  rewrite (m_bind_ok (m_ret tt) _ m m tt eq_refl), Ho, Hf, (m_bind_ok _ _ _ _ _ Es). reflexivity.
Qed.

(** Writing a prepared packet under its permissions is writing all of it: the
    unpermitted fields already hold the incoming values. *)
Lemma committed_all st op o st' :
  prepared_ok op (CA_of st) (OV_of st) (SO_of st) (CR0_of st) ->
  ar_permissions (request o) = po_permissions op ->
  committed st (packet_of o (po_payload op)) st' ->
  CR0_of st' = cr0 (po_payload op) /\ SO_of st' = so (po_payload op) /\
  OV_of st' = ov (po_payload op) /\ CA_of st' = ca (po_payload op).
Proof.
  intros [Hp _ _ Hca Hov Hso Hcr] Ho [_ H1 _ H2 H3 H4 _ _].
  unfold packet_of in *. cbn [cp_permissions cp_payload] in *. rewrite Ho in *.
  unfold CR0_of, SO_of, OV_of, CA_of in *. rewrite <- !single_bit by lia. rewrite H1, H2, H3, H4.
  rewrite <- !single_bit in Hca, Hov, Hso by lia.
  repeat split.
  - destruct (write_cr_field _); [reflexivity | symmetry; auto].
  - destruct (write_ov_so _); [reflexivity | symmetry; auto].
  - destruct (write_ov_so _); [reflexivity | symmetry; auto].
  - destruct (write_ca _); [reflexivity | symmetry; auto].
Qed.

End Machine.

Section FlagStateTheorems.
Import flag_state.

(** The masked commit: on a well-formed state and packet it always
    succeeds, keeps the state well formed, writes exactly the permitted parts
    (CR0, the XER bits by group, one GPR) with the packet's values and nothing
    else; and the transition checker accepts a next state exactly when it is
    that one. *)
Theorem apply_commit_masked st k :
  state_ok st -> payload_ok (cp_payload k) -> 0 <= cp_gpr k < 32 ->
  exists st', apply_commit st k = Ok st' /\ committed st k st' /\
    forall after, is_ok (check_commit_transition st k after) = bool_decide (after = st').
Proof.
  intros Hst Hp Hg. destruct (apply_commit_committed st k Hst Hp Hg) as (st' & E & Hc).
  exists st'. split; [exact E |]. split; [exact Hc |].
  intros after. unfold check_commit_transition. rewrite E. case_bool_decide; reflexivity.
Qed.

Definition sample_state : ArchitecturalState :=
  {| cr := 0x12345678; xer := 0x20000000; gprs := repeat 7 32 |}.

Lemma sample_state_ok : state_ok sample_state.
Proof. split; [unfold word; cbn; lia | unfold word; cbn; lia | reflexivity |]; repeat constructor; cbn; discriminate. Qed.

Lemma apply_commit_masked_witness :
  let k := {| cp_permissions := Build_WritePermissions true true true true true;
              cp_payload := Build_CompletionPayload 0x80000000 0 1 1 9;
              cp_gpr_write := true; cp_gpr := 3 |} in
  exists st', apply_commit sample_state k = Ok st' /\ committed sample_state k st' /\
    forall after, is_ok (check_commit_transition sample_state k after) = bool_decide (after = st').
Proof.
  intros k. apply (apply_commit_masked sample_state k).
  - exact sample_state_ok.
  - split; try reflexivity; unfold word; cbn; lia.
  - cbn. lia.
Defined.

(** C6. One clock edge on a consistent machine: either it raises and the
    machine is exactly as before, or it makes one of the five transitions
    (retire, kill, finish, capture, idle); in both cases the invariant holds
    after it: the state is well formed, a finished payload has passed the
    owner's checks, and the CA and SO the owner captured are still the
    architectural ones. *)
Theorem advance_correct m e :
  owner_inv m -> edge_ok e ->
  owner_inv (fst (advance e m)) /\
  match advance e m with
  | (m', Raise _) => m' = m
  | (m', Ok out) => edge_step m e m' out
  end.
Proof.
  intros Hm He. split; [apply advance_inv; assumption |].
  destruct (advance_spec m e Hm) as [(x & ->) | (m' & out & -> & Hs)]; [reflexivity | exact Hs].
Qed.

Definition sample_request : AllocationRequest :=
  {| ar_tag := {| index := 1; generation := 7 |};
     ar_permissions := Build_WritePermissions false true true true true;
     ar_gpr_write := true; ar_gpr := 3 |}.

Lemma sample_inv : owner_inv (init sample_state).
Proof. split; [exact sample_state_ok | |]; cbn; discriminate. Qed.

Lemma advance_correct_witness :
  owner_inv (fst (advance (allocate_edge sample_request) (init sample_state))) /\
  match advance (allocate_edge sample_request) (init sample_state) with
  | (m', Raise _) => m' = init sample_state
  | (m', Ok out) => edge_step (init sample_state) (allocate_edge sample_request) m' out
  end.
Proof.
  apply (advance_correct (init sample_state) (allocate_edge sample_request)).
  - exact sample_inv.
  - split; cbn; [discriminate |]. intros r H. injection H as <-. cbn. lia.
Defined.

(** The operations [prepare_add], [prepare_shift] and [prepare_logical]
    build satisfy the owner machine's completion checks under any allocation
    with their permissions that captured the SO they read, and carry the
    incoming value in every field they may not write. *)
Theorem prepared_operations_accepted st op :
  prepared_on st op ->
  prepared_ok op (CA_of st) (OV_of st) (SO_of st) (CR0_of st).
Proof. apply prepared_on_ok. Qed.

Definition sample_op : PreparedOperation :=
  {| po_permissions := Build_WritePermissions true true true true true;
     po_payload := Build_CompletionPayload 0x80000000 0 1 1 9 |}.

Lemma prepared_operations_accepted_witness :
  prepared_ok sample_op (CA_of sample_state) (OV_of sample_state) (SO_of sample_state)
    (CR0_of sample_state).
Proof.
  apply (prepared_operations_accepted sample_state sample_op).
  apply (on_add _ _ "addze" 0x7fffffff 0 1 1). vm_compute. reflexivity.
Defined.

(** C7. The whole life of an instruction through the machine is the direct
    evaluation: allocate on a free machine, any edges that do not concern the
    owner, finish with the operation prepared on the state's flags, any such
    edges again, retire.  The machine is free again and CR0, SO, OV, CA and the
    destination register hold the payload's values, all other state is kept. *)
Theorem lifecycle_commits m r op es1 es2 :
  owner_inv m -> owner m = None -> 0 <= ar_gpr r < 32 ->
  prepared_on (state m) op -> ar_permissions r = po_permissions op ->
  needs_flags (ar_permissions r) = true ->
  Forall (quiet (ar_tag r)) es1 -> Forall (quiet (ar_tag r)) es2 ->
  let m' := run ([allocate_edge r] ++ es1 ++ [finish_edge (ar_tag r) (po_payload op)] ++ es2
                 ++ [retire_edge (ar_tag r)]) m in
  let p := po_payload op in
  owner m' = None /\ finished m' = None /\ state_ok (state m') /\
  CR0_of (state m') = cr0 p /\ SO_of (state m') = so p /\ OV_of (state m') = ov p /\
  CA_of (state m') = ca p /\
  field (cr (state m')) 0 28 = field (cr (state m)) 0 28 /\
  field (xer (state m')) 0 29 = field (xer (state m)) 0 29 /\
  (forall g, 0 <= g < 32 -> gprs (state m') !! Z.to_nat g =
     if ar_gpr_write r && (g =? ar_gpr r) then Some (value p) else gprs (state m) !! Z.to_nat g).
Proof.
  intros Hm Ho Hg Hop Hperm Hn Hq1 Hq2. cbv zeta.
  pose proof (prepared_on_ok _ _ Hop) as Hpo.
  set (o := {| request := r; ca_in := CA_of (state m); so_in := SO_of (state m) |}).
  assert (Hv : validate_completion o (po_payload op) = Ok tt) by (apply Hpo; [exact Hperm | reflexivity]).
  set (m1 := {| state := state m; owner := Some o; finished := None |}).
  set (m2 := {| state := state m; owner := Some o; finished := Some (po_payload op) |}).
  assert (Hst : state_ok (state m)) by apply Hm.
  assert (H1 : owner_inv m1).
  { split; cbn; [exact Hst | | discriminate]. intros ? E. injection E as <-. auto. }
  assert (H2 : owner_inv m2).
  { split; cbn; [exact Hst | |]; intros ? E; injection E as <-; [auto |].
    split; [apply Hpo | eauto]. }
  destruct (advance_retire m2 o (po_payload op) H2 eq_refl eq_refl) as (st' & Er & Hc).
  rewrite !run_app. cbn [run]. rewrite (advance_allocate m r Ho Hn). fold o. fold m1.
  rewrite (quiet_run es1 m1 o H1 eq_refl Hq1).
  change (ar_tag r) with (owner_tag o). rewrite (advance_finish m1 o (po_payload op) eq_refl eq_refl Hv).
  change {| state := state m1; owner := Some o; finished := Some (po_payload op) |} with m2.
  rewrite (quiet_run es2 m2 o H2 eq_refl Hq2), Er. cbn [owner finished state].
  destruct (committed_all (state m) op o st' Hpo Hperm Hc) as (E1 & E2 & E3 & E4).
  repeat split; try assumption; try apply Hc.
Qed.

Lemma lifecycle_commits_witness :
  let m' := run ([allocate_edge (Build_AllocationRequest (Build_OwnerTag 1 7)
                     (po_permissions sample_op) true 3)] ++ [] ++
                 [finish_edge (Build_OwnerTag 1 7) (po_payload sample_op)] ++
                 [allocate_edge sample_request] ++ [retire_edge (Build_OwnerTag 1 7)])
              (init sample_state) in
  owner m' = None /\ finished m' = None /\ state_ok (state m') /\
  CR0_of (state m') = 9 /\ SO_of (state m') = 1 /\ OV_of (state m') = 1 /\
  CA_of (state m') = 0 /\
  field (cr (state m')) 0 28 = field (cr sample_state) 0 28 /\
  field (xer (state m')) 0 29 = field (xer sample_state) 0 29 /\
  (forall g, 0 <= g < 32 -> gprs (state m') !! Z.to_nat g =
     if true && (g =? 3) then Some 0x80000000 else gprs sample_state !! Z.to_nat g).
Proof.
  apply (lifecycle_commits (init sample_state)
    (Build_AllocationRequest (Build_OwnerTag 1 7) (po_permissions sample_op) true 3)
    sample_op [] [allocate_edge sample_request]).
  - exact sample_inv.
  - reflexivity.
  - cbn. lia.
  - apply (on_add _ _ "addze" 0x7fffffff 0 1 1). vm_compute. reflexivity.
  - reflexivity.
  - reflexivity.
  - constructor.
  - repeat constructor; cbn; discriminate.
Defined.

Lemma SO_flag st : is_flag (SO_of st) = true.
Proof. apply is_flag_b2z. Qed.

Lemma advance_sticky m e :
  owner_inv m -> SO_of (state m) = 1 -> SO_of (state (fst (advance e m))) = 1.
Proof.
  intros Hm Hso. destruct (advance_spec m e Hm) as [(x & ->) | (m' & out & -> & Hs)]; [exact Hso |].
  destruct Hs as [o p st' acq Ho Hf _ Hc | | | |]; try exact Hso. cbn [fst state].
  pose proof Hm as [_ Howner Hfin]. destruct (Howner o Ho) as (Hin & _).
  destruct (Hfin p Hf) as (Hp & o' & Ho' & Hv). assert (o' = o) as -> by congruence.
  destruct Hc as [_ _ _ H2 _ _ _ _]. unfold SO_of in *. rewrite <- single_bit in * by lia.
  rewrite H2. unfold packet_of. cbn [cp_permissions cp_payload].
  destruct (write_ov_so (ar_permissions (request o))) eqn:Hw; [| exact Hso].
  unfold validate_completion, validate_ov_so in Hv. rewrite Hw in Hv.
  destruct (so p =? Z.lor (so_in o) (ov p)) eqn:E.
  - apply Z.eqb_eq in E. rewrite E, Hin, Hso. destruct Hp as [_ _ Hov _ _].
    apply is_flag_iff in Hov. destruct Hov as [-> | ->]; reflexivity.
  - cbn [negb] in Hv. destruct (truthy _ && _); discriminate Hv.
Qed.

(** SO is sticky in the machine: once set, no sequence of edges, whatever
    they allocate, finish, retire or redirect, clears it. *)
Theorem summary_overflow_sticky es m :
  owner_inv m -> Forall edge_ok es -> SO_of (state m) = 1 -> SO_of (state (run es m)) = 1.
Proof.
  revert m. induction es as [| e es IH]; intros m Hm Hes Hso; [exact Hso |].
  inversion Hes; subst. cbn [run].
  apply IH; [apply advance_inv | | apply advance_sticky]; assumption.
Qed.

Lemma summary_overflow_sticky_witness :
  SO_of (state (run [allocate_edge sample_request; retire_edge (Build_OwnerTag 1 7)]
    (init {| cr := 0; xer := 0x80000000; gprs := repeat 7 32 |}))) = 1.
Proof.
  apply (summary_overflow_sticky [allocate_edge sample_request; retire_edge (Build_OwnerTag 1 7)]
           (init {| cr := 0; xer := 0x80000000; gprs := repeat 7 32 |})).
  - split; [| cbn; discriminate | cbn; discriminate].
    split; [unfold word; cbn; lia | unfold word; cbn; lia | reflexivity |]; repeat constructor; cbn; discriminate.
  - repeat constructor; cbn; try discriminate; injection H as <-; cbn; discriminate || reflexivity.
  - reflexivity.
Defined.

End FlagStateTheorems.
