(* ===== verification/RecoveryModel.v ===== *)
(** * The recovery policy model ([sim/recovery/model.py], [RecoveryModel])

    A reorder window with ring-allocated tags, producer tokens that outlive
    killed entries, in-order retirement and redirects that cut the window.
    [step] is one clock edge and ends with [check_invariants], whose assertions
    are the model's own contract. *)
From stdpp Require Import sorting.
From S2P Require Import Prelude.

Module recovery.

Record Tag : Type := { slot : Z; generation : Z }.

#[export] Instance Tag_eq_dec : EqDecision Tag.
Proof. solve_decision. Defined.

#[export] Instance Tag_countable : Countable Tag.
Proof.
  refine (inj_countable' (fun t => (slot t, generation t)) (fun p => Build_Tag p.1 p.2) _).
  intros []. reflexivity.
Defined.

Record Entry : Type := {
  tag : Tag;
  serial : Z;
  dst : option Z;
  rename : option Z;
  done : bool;
  value : Z;
  fault : bool;
  issued : bool
}.

Record Redirect : Type := { target : Z; pivot : option Tag; keep_pivot : bool }.

Definition mk_Redirect (target : Z) (pivot : option Tag) (keep_pivot : bool) : result Redirect :=
  require! (0 <=? target) && (target <=? MASK32) && negb (truthy (target mod 4))
    else ValueError "redirect target must be an aligned 32-bit PC" in
  Ok {| target := target; pivot := pivot; keep_pivot := keep_pivot |}.

(** [(serial, dst, value)] of a retired instruction. *)
Definition commit_record : Type := Z * option Z * Z.

Record Events : Type := {
  ev_allocated : option Tag;
  ev_finished : option Tag;
  ev_committed : option commit_record;
  ev_killed : list Tag;
  ev_redirect_accepted : bool;
  ev_redirect_rejected : option string;
  ev_issue_accepted : bool;
  ev_result_consumed : bool
}.

Record RecoveryModel : Type := {
  depth : Z;
  rename_depth : Z;
  generation_mask : Z;
  entries : list Entry;
  generations : list Z;
  tail : Z;
  tokens : gmap Tag string;
  arch : list Z;
  mapping : gmap Z Tag;
  next_serial : Z;
  retired : list commit_record
}.

(** [__init__], ending in [reset]. *)
Definition init (depth rename_depth generation_bits : Z) : result RecoveryModel :=
  require! negb (Z.min (Z.min depth rename_depth) generation_bits <? 1)
    else ValueError "positive resource dimensions required" in
  Ok {| depth := depth;
        rename_depth := rename_depth;
        generation_mask := Z.shiftl 1 generation_bits - 1;
        entries := [];
        generations := repeat 0 (Z.to_nat depth);
        tail := 0;
        tokens := ∅;
        arch := repeat 0 32;
        mapping := ∅;
        next_serial := 0;
        retired := [] |}.

Definition candidate (m : RecoveryModel) : result Tag :=
  match generations m !! Z.to_nat (tail m) with
  | Some g => Ok {| slot := tail m; generation := Z.land (g + 1) (generation_mask m) |}
  | None => Raise IndexError
  end.

(** [next((e for e in l if e.tag == t), None)] *)
Definition find_tag (t : Tag) (l : list Entry) : option Entry :=
  List.find (fun e => bool_decide (tag e = t)) l.

Definition operand (m : RecoveryModel) (reg : Z) : result (bool * Z * option Tag) :=
  require! in_range 0 32 reg else ValueError "GPR index out of range" in
  match mapping m !! reg with
  | None =>
      match arch m !! Z.to_nat reg with
      | Some v => Ok (true, v, None)
      | None => Raise IndexError
      end
  | Some t =>
      match find_tag t (entries m) with
      | Some e => Ok (done e, value e, Some t)
      | None => Raise StopIteration
      end
  end.

(** The keyword arguments of one [step]. *)
Record step_args : Type := {
  a_allocate : bool;
  a_dst : option Z;
  a_fault : bool;
  a_issue : option Tag;
  a_producer_kind : string;
  a_result : option (Tag * Z);
  a_redirect : option Redirect;
  a_retire_ready : bool
}.

Fixpoint index_of (t : Tag) (l : list Entry) : option nat :=
  match l with
  | [] => None
  | e :: l' => if bool_decide (tag e = t) then Some 0%nat else S <$> index_of t l'
  end.

(** Where a redirect cuts the pre-edge window. *)
Definition redirect_cut (r : Redirect) (pre : list Entry) : option nat :=
  match pivot r with
  | None => Some 0%nat
  | Some t => (fun found => (found + Nat.b2n (keep_pivot r))%nat) <$> index_of t pre
  end.

(** [(accepted, rejected, survivors)] *)
Definition redirect_outcome (r : option Redirect) (pre : list Entry)
  : bool * option string * list Entry :=
  match r with
  | None => (false, None, pre)
  | Some r =>
      match redirect_cut r pre with
      | None => (false, Some "inactive_pivot"%string, pre)
      | Some cut =>
          if (cut =? 0)%nat && match pre with e :: _ => done e | [] => false end
          then (false, Some "irrevocable_retirement_head"%string, pre)
          else (true, None, take cut pre)
      end
  end.

Definition redirect_tail (m : RecoveryModel) (survivors pre : list Entry) : Z :=
  match last survivors, pre with
  | Some e, _ => (slot (tag e) + 1) mod depth m
  | None, e :: _ => slot (tag e)
  | None, [] => tail m
  end.

(** Drop the tokens of killed local producers. *)
Definition cancel_local (killed : list Tag) (tokens : gmap Tag string) : gmap Tag string :=
  foldl (fun tk t => if bool_decide (tk !! t = Some "local"%string) then delete t tk else tk)
    tokens killed.

(** Mutate the first entry with the tag. *)
Fixpoint update_tag (t : Tag) (f : Entry -> Entry) (l : list Entry) : list Entry :=
  match l with
  | [] => []
  | e :: l' => if bool_decide (tag e = t) then f e :: l' else e :: update_tag t f l'
  end.

Definition set_done (v : Z) (e : Entry) : Entry :=
  {| tag := tag e; serial := serial e; dst := dst e; rename := rename e; done := true;
     value := Z.land v MASK32; fault := fault e; issued := issued e |}.

Definition set_issued (e : Entry) : Entry :=
  {| tag := tag e; serial := serial e; dst := dst e; rename := rename e; done := done e;
     value := value e; fault := fault e; issued := true |}.

(** [(tokens, survivors, finished)] after an optional result. *)
Definition finish_result (result : option (Tag * Z)) (pre_tokens tokens : gmap Tag string)
  (survivors : list Entry) : gmap Tag string * list Entry * option Tag :=
  match result with
  | None => (tokens, survivors, None)
  | Some (t, v) =>
      let tokens := delete t tokens in
      match find_tag t survivors with
      | Some e =>
          if negb (done e) && bool_decide (is_Some (pre_tokens !! t))
          then (tokens, update_tag t (set_done v) survivors, Some t)
          else (tokens, survivors, None)
      | None => (tokens, survivors, None)
      end
  end.

(** [(arch, survivors, committed)] after an optional retirement of the head. *)
Definition commit_head (pre : list Entry) (keep : list Tag) (retire_ready : bool)
  (arch : list Z) (survivors : list Entry) : result (list Z * list Entry * option commit_record) :=
  match pre with
  | e :: _ =>
      if done e && bool_decide (tag e ∈ keep) && retire_ready then
        match survivors with
        | head :: survivors =>
            let arch := match dst head with
                        | Some d => <[Z.to_nat d := value head]> arch
                        | None => arch
                        end in
            Ok (arch, survivors, Some (serial head, dst head, value head))
        | [] => Raise IndexError
        end
      else Ok (arch, survivors, None)
  | [] => Ok (arch, survivors, None)
  end.

(** [(tokens, survivors, issue_accepted)] after an optional issue. *)
Definition issue_entry (issue : option Tag) (kind : string) (tokens : gmap Tag string)
  (survivors : list Entry) : gmap Tag string * list Entry * bool :=
  match issue with
  | None => (tokens, survivors, false)
  | Some t =>
      match find_tag t survivors with
      | Some e =>
          if negb (issued e) && negb (done e)
          then (<[t := kind]> tokens, update_tag t set_issued survivors, true)
          else (tokens, survivors, false)
      | None => (tokens, survivors, false)
      end
  end.

Definition used_rename (pre : list Entry) : list Z := omap rename pre.

Definition free_rename (rename_depth : Z) (pre : list Entry) : option Z :=
  List.find (fun i => negb (bool_decide (i ∈ used_rename pre))) (seqZ 0 rename_depth).

Definition mapping_of (l : list Entry) : gmap Z Tag :=
  foldl (fun mp e => match dst e with Some d => <[d := tag e]> mp | None => mp end) ∅ l.

Definition new_entry (m : RecoveryModel) (a : step_args) (t : Tag) (free : option Z) : Entry :=
  {| tag := t; serial := next_serial m;
     dst := if a_fault a then None else a_dst a;
     rename := if match a_dst a with Some _ => negb (a_fault a) | None => false end
               then free else None;
     done := a_fault a; value := 0; fault := a_fault a; issued := false |}.

(** Each adjacent pair of the window, as [zip(entries, entries[1:])]. *)
Fixpoint adjacent (depth : Z) (l : list Entry) : bool :=
  match l with
  | older :: ((younger :: _) as l') =>
      (slot (tag younger) =? (slot (tag older) + 1) mod depth) && adjacent depth l'
  | _ => true
  end.

Definition distinct {A} `{EqDecision A} (l : list A) : bool :=
  (length (remove_dups l) =? length l)%nat.

(** The assertions of [check_invariants], in order. *)
Definition invariants (m : RecoveryModel) : bool :=
  let es := entries m in
  let renames := omap rename es in
  let active := map tag es in
  (Z.of_nat (length es) <=? depth m)
  && distinct (map (fun e => slot (tag e)) es)
  && distinct (map serial es)
  && bool_decide (map serial es = merge_sort Z.le (map serial es))
  && (distinct renames && (Z.of_nat (length (remove_dups renames)) <=? rename_depth m))
  && bool_decide (mapping m = mapping_of es)
  && adjacent (depth m) es
  && match last es with
     | Some e => tail m =? (slot (tag e) + 1) mod depth m
     | None => true
     end
  && forallb (fun p => bool_decide (p.1 ∈ active) || String.eqb p.2 "external")
       (map_to_list (tokens m))
  && forallb (fun e => negb (done e) || bool_decide (tokens m !! tag e = None)) es.

Definition check_invariants : method RecoveryModel unit :=
  fun m => if invariants m then (m, Ok tt) else (m, Raise AssertionError).

(** The state of the edge after redirect, result, retirement and issue. *)
Record window : Type := {
  w_survivors : list Entry;
  w_tokens : gmap Tag string;
  w_arch : list Z;
  w_tail : Z;
  w_accepted : bool;
  w_rejected : option string;
  w_killed : list Tag;
  w_finished : option Tag;
  w_committed : option commit_record;
  w_issue_accepted : bool
}.

Definition step_window (m : RecoveryModel) (a : step_args) : result window :=
  let pre := entries m in
  let '(accepted, rejected, survivors) := redirect_outcome (a_redirect a) pre in
  let keep := map tag survivors in
  let killed := List.filter (fun t => negb (bool_decide (t ∈ keep))) (map tag pre) in
  let tail := if accepted : bool then redirect_tail m survivors pre else tail m in
  let tokens := if accepted : bool then cancel_local killed (tokens m) else tokens m in
  let '(tokens, survivors, finished) :=
    finish_result (a_result a) (recovery.tokens m) tokens survivors in
  let! (arch, survivors, committed) :=
    commit_head pre keep (a_retire_ready a) (arch m) survivors in
  let '(tokens, survivors, issue_accepted) :=
    issue_entry (a_issue a) (a_producer_kind a) tokens survivors in
  Ok {| w_survivors := survivors; w_tokens := tokens; w_arch := arch; w_tail := tail;
        w_accepted := accepted; w_rejected := rejected; w_killed := killed;
        w_finished := finished; w_committed := committed; w_issue_accepted := issue_accepted |}.

(** The object after the window updates; [entries] and [mapping] are written at
    the end of [step]. *)
Definition with_window (m : RecoveryModel) (w : window) : RecoveryModel :=
  {| depth := depth m; rename_depth := rename_depth m; generation_mask := generation_mask m;
     entries := entries m; generations := generations m; tail := w_tail w;
     tokens := w_tokens w; arch := w_arch w; mapping := mapping m;
     next_serial := next_serial m;
     retired := retired m ++ match w_committed w with Some c => [c] | None => [] end |}.

Definition can_allocate (m : RecoveryModel) (a : step_args) (accepted : bool) (cand : Tag) : bool :=
  a_allocate a && negb accepted && (Z.of_nat (length (entries m)) <? depth m)
  && (negb match a_dst a with Some _ => negb (a_fault a) | None => false end
      || match free_rename (rename_depth m) (entries m) with Some _ => true | None => false end)
  && bool_decide (tokens m !! cand = None).

(** The last part of the edge: allocation, and the new window and mapping. *)
Definition allocate_and_close (m : RecoveryModel) (a : step_args) (w : window) (cand : Tag)
  (m1 : RecoveryModel) : RecoveryModel * option Tag :=
  let ok := can_allocate m a (w_accepted w) cand in
  let survivors := if ok
    then w_survivors w ++ [new_entry m a cand (free_rename (rename_depth m) (entries m))]
    else w_survivors w in
  ({| depth := depth m1; rename_depth := rename_depth m1; generation_mask := generation_mask m1;
      entries := survivors;
      generations := if ok then <[Z.to_nat (slot cand) := generation cand]> (generations m1)
                     else generations m1;
      tail := if ok then (tail m1 + 1) mod depth m1 else tail m1;
      tokens := tokens m1; arch := arch m1;
      mapping := mapping_of survivors;
      next_serial := if ok then next_serial m1 + 1 else next_serial m1;
      retired := retired m1 |},
   if ok then Some cand else None).

Definition valid_kind (k : string) : bool := str_in k ["local"; "external"]%string.

Definition step (a : step_args) : method RecoveryModel Events :=
  do! _ := m_raise_if (match a_dst a with Some d => negb (in_range 0 32 d) | None => false end)
    (ValueError "GPR index out of range") in
  do! _ := m_raise_if (negb (valid_kind (a_producer_kind a)))
    (ValueError "unknown producer cancellation kind") in
  do! m := m_get in
  do! w := m_lift (step_window m a) in
  do! _ := m_put (with_window m w) in
  do! m1 := m_get in
  do! cand := m_lift (candidate m1) in
  let '(m2, allocated) := allocate_and_close m a w cand m1 in
  do! _ := m_put m2 in
  do! _ := check_invariants in
  m_ret {| ev_allocated := allocated;
           ev_finished := w_finished w;
           ev_committed := w_committed w;
           ev_killed := w_killed w;
           ev_redirect_accepted := w_accepted w;
           ev_redirect_rejected := w_rejected w;
           ev_issue_accepted := w_issue_accepted w;
           ev_result_consumed := match a_result a with Some _ => true | None => false end |}.

End recovery.

Section Window.
Import recovery.

(** ** Ring slots *)
Definition slots_at (d tl : Z) (ts : list Tag) : Prop :=
  forall i t, ts !! i = Some t ->
    slot t = (tl - Z.of_nat (length ts) + Z.of_nat i) mod d.

Lemma mod_sub_add x l i d : 1 <= d -> (x mod d - l + i) mod d = (x - l + i) mod d.
Proof.
  intros Hd. replace (x mod d - l + i) with (x mod d + (i - l)) by lia.
  rewrite Z.add_mod_idemp_l by lia. f_equal. lia.
Qed.

Lemma slots_take d tl ts n last_t :
  1 <= d -> slots_at d tl ts -> last (take n ts) = Some last_t ->
  slots_at d ((slot last_t + 1) mod d) (take n ts).
Proof.
  intros Hd Hs Hl i t Ht.
  rewrite last_lookup in Hl.
  assert (Hlen : (0 < length (take n ts))%nat) by (apply lookup_lt_Some in Hl; lia).
  pose proof (length_take ts n) as Hlt.
  rewrite lookup_take_lt in Hl by lia. rewrite lookup_take_lt in Ht by (apply lookup_lt_Some in Ht; lia).
  apply Hs in Hl. apply Hs in Ht. rewrite Hl, Ht.
  rewrite Z.add_mod_idemp_l by lia. rewrite mod_sub_add by lia. f_equal. lia.
Qed.

Lemma slots_tl d tl t ts : slots_at d tl (t :: ts) -> slots_at d tl ts.
Proof. intros Hs i u Hu. rewrite (Hs (S i) u Hu). f_equal. cbn [length]. lia. Qed.

Lemma slots_snoc d tl ts t :
  1 <= d -> 0 <= tl < d -> slots_at d tl ts -> slot t = tl ->
  slots_at d ((tl + 1) mod d) (ts ++ [t]).
Proof.
  intros Hd Htl Hs Ht i u Hu. rewrite length_app. cbn [length].
  rewrite mod_sub_add by lia.
  destruct (decide (i < length ts)%nat).
  - rewrite lookup_app_l in Hu by assumption. rewrite (Hs i u Hu). f_equal. lia.
  - assert (i = length ts) as ->.
    { apply lookup_lt_Some in Hu. rewrite length_app in Hu. cbn in Hu. lia. }
    rewrite list_lookup_middle in Hu by reflexivity. injection Hu as <-.
    rewrite Ht. rewrite <- (Z.mod_small tl d) at 1 by lia. f_equal. lia.
Qed.

Lemma mod_inj_window d x i j :
  1 <= d -> 0 <= i < d -> 0 <= j < d -> (x + i) mod d = (x + j) mod d -> i = j.
Proof.
  intros Hd Hi Hj E. pose proof (Z.div_mod (x + i) d). pose proof (Z.div_mod (x + j) d).
  assert ((x + i) / d = (x + j) / d); nia.
Qed.

Lemma slots_NoDup d tl ts :
  1 <= d -> Z.of_nat (length ts) <= d -> slots_at d tl ts -> NoDup (map slot ts).
Proof.
  intros Hd Hl Hs. apply NoDup_alt. intros i j x Hi Hj.
  rewrite list_lookup_fmap in Hi, Hj.
  destruct (ts !! i) as [ti |] eqn:Ei; [| discriminate].
  destruct (ts !! j) as [tj |] eqn:Ej; [| discriminate].
  cbn in Hi, Hj. pose proof (lookup_lt_Some _ _ _ Ei). pose proof (lookup_lt_Some _ _ _ Ej).
  pose proof (Hs _ _ Ei) as Si. pose proof (Hs _ _ Ej) as Sj.
  assert (Z.of_nat i = Z.of_nat j); [| lia].
  apply (mod_inj_window d (tl - Z.of_nat (length ts))); [lia | lia | lia | congruence].
Qed.

(** The slot the tail points to is free while the window is not full. *)
Lemma slots_fresh d tl ts t :
  1 <= d -> 0 <= tl < d -> Z.of_nat (length ts) < d -> slots_at d tl ts -> t ∈ ts -> slot t <> tl.
Proof.
  intros Hd Htl Hl Hs Ht E. apply list_elem_of_lookup in Ht. destruct Ht as [i Hi].
  pose proof (lookup_lt_Some _ _ _ Hi). apply Hs in Hi.
  assert (Z.of_nat i = Z.of_nat (length ts)); [| lia].
  apply (mod_inj_window d (tl - Z.of_nat (length ts))); [lia | lia | lia |].
  rewrite <- Hi, E. rewrite <- (Z.mod_small tl d) at 1 by lia. f_equal. lia.
Qed.

(** ** Updating the entry of a tag *)
Section Update.
Context (t : Tag) (f : Entry -> Entry).

Lemma update_map {B} (g : Entry -> B) l :
  (forall e, g (f e) = g e) -> map g (update_tag t f l) = map g l.
Proof.
  intros Hf. induction l as [| e l IH]; [reflexivity |]. cbn.
  case_bool_decide; cbn; rewrite ?Hf, ?IH; reflexivity.
Qed.

Lemma update_omap {B} (g : Entry -> option B) l :
  (forall e, g (f e) = g e) -> omap g (update_tag t f l) = omap g l.
Proof.
  intros Hf. induction l as [| e l IH]; [reflexivity |]. cbn.
  case_bool_decide; cbn; rewrite ?Hf, ?IH; reflexivity.
Qed.

Lemma update_elem l e :
  NoDup (map tag l) -> (forall e, tag (f e) = tag e) -> e ∈ update_tag t f l ->
  (e ∈ l /\ tag e <> t) \/ exists e0, e0 ∈ l /\ tag e0 = t /\ e = f e0.
Proof.
  intros Hnd Hf. induction l as [| x l IH]; cbn; [intros H; inversion H |].
  apply NoDup_cons in Hnd. destruct Hnd as [Hx Hnd]. case_bool_decide as Ht; intros He.
  - apply list_elem_of_In in He. destruct He as [<- | He].
    + right. exists x. split; [left | auto].
    + apply list_elem_of_In in He. left. split; [right; exact He |]. intros E. apply Hx.
      rewrite Ht, <- E. apply list_elem_of_fmap_2. exact He.
  - apply list_elem_of_In in He. destruct He as [<- | He].
    + left. split; [left | exact Ht].
    + apply list_elem_of_In in He. destruct (IH Hnd He) as [[H1 H2] | (e0 & H1 & H2 & H3)].
      * left. split; [right |]; assumption.
      * right. exists e0. split; [right |]; auto.
Qed.

Lemma update_length l : length (update_tag t f l) = length l.
Proof. induction l; [reflexivity |]. cbn. case_bool_decide; cbn; auto. Qed.

Lemma update_found l e :
  find_tag t l = Some e -> tag e = t /\ e ∈ l /\ f e ∈ update_tag t f l.
Proof.
  unfold find_tag. induction l as [| x l IH]; cbn; [discriminate |].
  case_bool_decide as Ht.
  - intros E. injection E as ->. split; [exact Ht |]. split; left.
  - intros E. destruct (IH E) as (H1 & H2 & H3). split; [exact H1 |]. split; right; assumption.
Qed.
End Update.

Lemma find_tag_Some t l e : find_tag t l = Some e -> tag e = t /\ e ∈ l.
Proof. intros H. destruct (update_found t (fun e => e) l e H) as (H1 & H2 & _). auto. Qed.

Lemma find_tag_is_Some t l : t ∈ map tag l -> is_Some (find_tag t l).
Proof.
  unfold find_tag. induction l as [| x l IH]; cbn; intros H; [inversion H |].
  case_bool_decide; [eauto |]. apply IH. inversion H; subst; [contradiction | assumption].
Qed.

Lemma NoDup_tags_unique l e1 e2 :
  NoDup (map tag l) -> e1 ∈ l -> e2 ∈ l -> tag e1 = tag e2 -> e1 = e2.
Proof.
  intros Hnd H1 H2 E. apply list_elem_of_lookup in H1, H2.
  destruct H1 as [i Hi], H2 as [j Hj].
  assert (i = j) as ->; [| congruence].
  eapply (proj1 (NoDup_alt _) Hnd); rewrite list_lookup_fmap, ?Hi, ?Hj; cbn; [reflexivity | congruence].
Qed.

(** ** Tokens *)
Lemma cancel_local_lookup killed : forall tk t,
  cancel_local killed tk !! t =
  if bool_decide (t ∈ killed) && bool_decide (tk !! t = Some "local"%string) then None else tk !! t.
Proof.
  unfold cancel_local. induction killed as [| u killed IH]; intros tk t; [reflexivity |].
  cbn [foldl]. rewrite IH. clear IH.
  destruct (decide (t = u)) as [-> | Hne].
  - rewrite (bool_decide_true (u ∈ u :: killed)) by left. cbn [andb].
    destruct (decide (tk !! u = Some "local"%string)) as [E | E].
    + rewrite (bool_decide_true _ E), !lookup_delete_eq. case_match; reflexivity.
    + rewrite (bool_decide_false _ E), (bool_decide_false _ E), andb_false_r. reflexivity.
  - assert (H : bool_decide (t ∈ u :: killed) = bool_decide (t ∈ killed)).
    { apply bool_decide_ext. rewrite elem_of_cons. intuition. }
    rewrite H. destruct (bool_decide (tk !! u = _)); rewrite ?lookup_delete_ne by congruence; reflexivity.
Qed.

End Window.

Section Invariant.
Import recovery.

Definition serial_of (c : commit_record) : Z := c.1.1.

(** The register file after a list of retirements. *)
Definition write_back (ar : list Z) (c : commit_record) : list Z :=
  match c.1.2 with Some d => <[Z.to_nat d := c.2]> ar | None => ar end.
Definition replay (rt : list commit_record) : list Z := foldl write_back (repeat 0 32) rt.

Definition kind_ok (k : string) : Prop := k = "local"%string \/ k = "external"%string.

(** The invariant of the window [l], its tokens, registers, tail and retirement
    log, at the moments between the parts of an edge as well as between edges. *)
Record core (d rd ns : Z) (l : list Entry) (tk : gmap Tag string) (ar : list Z) (tl : Z)
    (rt : list commit_record) : Prop := {
  c_depth : 1 <= d;
  c_tail : 0 <= tl < d;
  c_len : Z.of_nat (length l) <= d;
  c_slots : slots_at d tl (map tag l);
  c_serial : StronglySorted Z.lt (map serial_of rt ++ map serial l);
  c_next : Forall (fun s => s < ns) (map serial_of rt ++ map serial l);
  c_renames : NoDup (omap rename l);
  c_rename_range : forall r, r ∈ omap rename l -> 0 <= r < rd;
  c_kind : forall t k, tk !! t = Some k -> kind_ok k;
  c_active : forall t k, tk !! t = Some k -> t ∈ map tag l \/ k = "external"%string;
  c_done : forall e, e ∈ l -> done e = true -> tk !! tag e = None;
  c_issued : forall e, e ∈ l -> is_Some (tk !! tag e) -> issued e = true;
  c_arch : ar = replay rt;
  c_dst : forall e r, e ∈ l -> dst e = Some r -> 0 <= r < 32
}.

Lemma core_NoDup_slots d rd ns l tk ar tl rt :
  core d rd ns l tk ar tl rt -> NoDup (map slot (map tag l)).
Proof.
  intros [Hd _ Hl Hs _ _ _ _ _ _ _ _ _ _].
  apply (slots_NoDup d tl); [exact Hd | rewrite length_map; exact Hl | exact Hs].
Qed.

Lemma core_NoDup_tags d rd ns l tk ar tl rt :
  core d rd ns l tk ar tl rt -> NoDup (map tag l).
Proof. intros H. apply core_NoDup_slots in H. apply NoDup_fmap_1 in H. exact H. Qed.

(** A change of the window that keeps the entries' identities. *)
Lemma core_same d rd ns l l' tk tk' ar tl rt :
  core d rd ns l tk ar tl rt ->
  map tag l' = map tag l -> map serial l' = map serial l -> omap rename l' = omap rename l ->
  (forall e, e ∈ l' -> exists e0, e0 ∈ l /\ tag e0 = tag e /\ dst e0 = dst e) ->
  (forall t k, tk' !! t = Some k -> kind_ok k) ->
  (forall t k, tk' !! t = Some k -> t ∈ map tag l' \/ k = "external"%string) ->
  (forall e, e ∈ l' -> done e = true -> tk' !! tag e = None) ->
  (forall e, e ∈ l' -> is_Some (tk' !! tag e) -> issued e = true) ->
  core d rd ns l' tk' ar tl rt.
Proof.
  intros [Hd Ht Hl Hs Hse Hn Hr Hrr Hk Ha Hdn Hi Har Hds] Et Es Er He H1 H2 H3 H4.
  split; auto; rewrite ?Et, ?Es, ?Er; auto.
  - rewrite <- (length_map tag), Et, length_map. exact Hl.
  - intros e r Hel Hdst. destruct (He e Hel) as (e0 & He0 & _ & Ed). rewrite <- Ed in Hdst. eauto.
Qed.

(** ** Redirect *)
Lemma map_take {A B} (g : A -> B) n l : map g (take n l) = take n (map g l).
Proof. revert n. induction l; intros [|n]; cbn; [reflexivity | reflexivity | reflexivity |]. rewrite IHl. reflexivity. Qed.

Lemma omap_take_sub {A B} (g : A -> option B) n l : sublist (omap g (take n l)) (omap g l).
Proof.
  revert n. induction l as [| a l IH]; intros [| n]; cbn [take]; try constructor; cbn.
  - apply sublist_nil_l.
  - destruct (g a); [apply sublist_skip |]; apply IH.
Qed.

Lemma elem_of_take_sub {A} (x : A) n l : x ∈ take n l -> x ∈ l.
Proof. rewrite elem_of_take, list_elem_of_lookup. intros (i & H & _). eauto. Qed.

Lemma filter_In_map (keep : list Tag) ts t :
  t ∈ List.filter (fun t => negb (bool_decide (t ∈ keep))) ts <-> t ∈ ts /\ t ∉ keep.
Proof.
  rewrite list_elem_of_In, filter_In, <- list_elem_of_In, negb_true_iff, bool_decide_eq_false. reflexivity.
Qed.

Lemma core_redirect d rd ns l tk ar tl rt cut tl' :
  core d rd ns l tk ar tl rt ->
  match last (take cut l), l with
  | Some e, _ => tl' = (slot (tag e) + 1) mod d
  | None, e :: _ => tl' = slot (tag e)
  | None, [] => tl' = tl
  end ->
  core d rd ns (take cut l)
    (cancel_local (List.filter (fun t => negb (bool_decide (t ∈ map tag (take cut l)))) (map tag l)) tk)
    ar tl' rt.
Proof.
  intros [Hd Ht Hl Hs Hse Hn Hr Hrr Hk Ha Hdn Hi Har Hds] Htl.
  assert (Htk : forall t k, cancel_local (List.filter (fun t => negb (bool_decide (t ∈ map tag (take cut l))))
      (map tag l)) tk !! t = Some k ->
    tk !! t = Some k /\ (t ∈ map tag l -> t ∉ map tag (take cut l) -> k <> "local"%string)).
  { intros t k. rewrite cancel_local_lookup. 
    destruct (bool_decide (t ∈ _)) eqn:E1; cbn [andb].
    - destruct (bool_decide (tk !! t = Some "local"%string)) eqn:E2; [discriminate |].
      apply bool_decide_eq_false in E2. intros E. split; [exact E |]. congruence.
    - intros E. split; [exact E |]. intros H1 H2 _. apply bool_decide_eq_false in E1. apply E1.
      apply filter_In_map. auto. }
  split; auto.
  - destruct (last (take cut l)) as [e |].
    + subst. apply Z.mod_pos_bound. lia.
    + destruct l as [| e l]; subst; [exact Ht |].
      rewrite (Hs 0%nat (tag e) eq_refl). apply Z.mod_pos_bound. lia.
  - rewrite length_take. lia.
  - rewrite map_take. destruct (last (take cut l)) as [e |] eqn:El.
    + subst. apply slots_take with (tl := tl); [lia | exact Hs |].
      rewrite <- map_take. change (map tag (take cut l)) with (tag <$> take cut l).
      rewrite fmap_last, El. reflexivity.
    + apply last_None in El. rewrite <- map_take, El. intros i t Hit. cbn in Hit. rewrite lookup_nil in Hit. discriminate Hit.
  - rewrite map_take. apply (StronglySorted_app_1_l _ _ (drop cut (map serial l))).
    rewrite <- app_assoc, take_drop. exact Hse.
  - rewrite map_take. apply Forall_app in Hn. apply Forall_app. split; [apply Hn |].
    apply Forall_take. apply Hn.
  - eapply sublist_NoDup; [exact Hr | apply omap_take_sub].
  - intros r H. apply Hrr. eapply elem_of_sublist; [exact H | apply omap_take_sub].
  - intros t k H. apply Htk in H. eapply Hk, H.
  - intros t k H. destruct (Htk t k H) as [H1 H2]. destruct (Ha t k H1) as [Hin |]; [| auto].
    destruct (decide (t ∈ map tag (take cut l))); [auto |].
    destruct (Hk t k H1) as [-> |]; [| auto]. destruct (H2 Hin n eq_refl).
  - intros e He Hde. apply elem_of_take_sub in He. pose proof (Hdn e He Hde) as Hnone.
    rewrite cancel_local_lookup, Hnone. destruct (_ && _); reflexivity.
  - intros e He [k Hk']. apply Htk in Hk'. apply elem_of_take_sub in He. apply Hi; [exact He |].
    exists k. apply Hk'.
  - intros e r He. apply elem_of_take_sub in He. eauto.
Qed.


(** ** Result *)
Lemma core_finish d rd ns l tk pre_tk ar tl rt res :
  core d rd ns l tk ar tl rt ->
  let '(tk', l', f) := finish_result res pre_tk tk l in
  core d rd ns l' tk' ar tl rt.
Proof.
  intros H. pose proof (core_NoDup_tags _ _ _ _ _ _ _ _ H) as Hnd.
  destruct res as [[t v] |]; cbn [finish_result]; [| exact H].
  pose proof H as [Hd Ht Hl Hs Hse Hn Hr Hrr Hk Ha Hdn Hi Har Hds].
  assert (Hsub : forall u k, delete t tk !! u = Some k -> tk !! u = Some k /\ u <> t).
  { intros u k. rewrite lookup_delete_Some. intuition. }
  assert (Hplain : core d rd ns l (delete t tk) ar tl rt).
  { apply (core_same _ _ _ l _ tk); auto.
    - eauto.
    - intros u k E. apply Hsub in E. eapply Hk, E.
    - intros u k E. apply Hsub in E. eapply Ha, E.
    - intros e He Hde. destruct (decide (t = tag e)) as [-> |].
      + apply lookup_delete_eq.
      + rewrite lookup_delete_ne by assumption. auto.
    - intros e He [k E]. apply Hsub in E. apply Hi; [exact He |]. exists k. apply E. }
  destruct (find_tag t l) as [e |] eqn:Ef; [| exact Hplain].
  destruct (negb (done e) && _) eqn:Eq; [| exact Hplain].
  apply (core_same _ _ _ l _ tk); auto; rewrite ?update_map, ?update_omap by reflexivity; auto.
  - intros e' He'. apply update_elem in He'; [| exact Hnd | reflexivity].
    destruct He' as [[He' _] | (e0 & He0 & _ & ->)]; eauto.
  - intros u k E. apply Hsub in E. eapply Hk, E.
  - intros u k E. apply Hsub in E. eapply Ha, E.
  - intros e' He' Hde. apply update_elem in He'; [| exact Hnd | reflexivity].
    destruct He' as [[He' Hne] | (e0 & He0 & <- & ->)].
    + rewrite lookup_delete_ne by congruence. auto.
    + apply lookup_delete_eq.
  - intros e' He' [k E]. apply Hsub in E. apply update_elem in He'; [| exact Hnd | reflexivity].
    destruct He' as [[He' Hne] | (e0 & He0 & _ & ->)].
    + apply Hi; [exact He' |]. exists k. apply E.
    + cbn in *. apply Hi; [exact He0 |]. exists k. apply E.
Qed.

(** ** Retirement *)
Lemma core_commit d rd ns h l tk ar tl rt :
  core d rd ns (h :: l) tk ar tl rt -> done h = true ->
  core d rd ns l tk
    (match dst h with Some r => <[Z.to_nat r := value h]> ar | None => ar end) tl
    (rt ++ [(serial h, dst h, value h)]).
Proof.
  intros H Hdh. pose proof (core_NoDup_tags _ _ _ _ _ _ _ _ H) as Hnd.
  destruct H as [Hd Ht Hl Hs Hse Hn Hr Hrr Hk Ha Hdn Hi Har Hds].
  apply NoDup_cons in Hnd. destruct Hnd as [Hh Hnd].
  assert (Hc : forall e, e ∈ l -> e ∈ h :: l) by (intros; right; assumption).
  split; auto.
  - cbn [length] in Hl. lia.
  - eapply slots_tl. exact Hs.
  - rewrite map_app, <- app_assoc. exact Hse.
  - rewrite map_app, <- app_assoc. exact Hn.
  - cbn in Hr. destruct (rename h); [apply NoDup_cons in Hr; apply Hr | exact Hr].
  - intros r Hin. apply Hrr. cbn. destruct (rename h); [right |]; exact Hin.
  - intros t k E. destruct (Ha t k E) as [Hin | ]; [| auto]. cbn in Hin.
    apply elem_of_cons in Hin. destruct Hin as [-> | Hin]; [| auto].
    rewrite Hdn in E by (assumption || left). discriminate.
  - unfold replay. rewrite foldl_snoc. fold (replay rt). rewrite <- Har. reflexivity.
  - eauto.
Qed.

(** ** Issue *)
Lemma core_issue d rd ns l tk ar tl rt issue kind :
  core d rd ns l tk ar tl rt -> kind_ok kind ->
  let '(tk', l', b) := issue_entry issue kind tk l in
  core d rd ns l' tk' ar tl rt.
Proof.
  intros H Hkind. pose proof (core_NoDup_tags _ _ _ _ _ _ _ _ H) as Hnd.
  destruct issue as [t |]; cbn [issue_entry]; [| exact H].
  destruct (find_tag t l) as [e |] eqn:Ef; [| exact H].
  destruct (negb (issued e) && negb (done e)) eqn:Eq; [| exact H].
  apply find_tag_Some in Ef. destruct Ef as [Et He].
  apply andb_true_iff in Eq. destruct Eq as [_ Hde]. apply negb_true_iff in Hde.
  pose proof H as [Hd Ht Hl Hs Hse Hn Hr Hrr Hk Ha Hdn Hi Har Hds].
  apply (core_same _ _ _ l _ tk); auto; rewrite ?update_map, ?update_omap by reflexivity; auto.
  - intros e' He'. apply update_elem in He'; [| exact Hnd | reflexivity].
    destruct He' as [[He' _] | (e0 & He0 & _ & ->)]; eauto.
  - intros u k. rewrite lookup_insert_Some. intros [[_ <-] | [_ E]]; eauto.
  - intros u k. rewrite lookup_insert_Some. intros [[<- _] | [_ E]]; [| eauto].
    left. rewrite <- Et. apply list_elem_of_fmap_2. exact He.
  - intros e' He' Hde'. apply update_elem in He'; [| exact Hnd | reflexivity].
    destruct He' as [[He' Hne] | (e0 & He0 & E0 & ->)].
    + rewrite lookup_insert_ne by congruence. auto.
    + exfalso. assert (e0 = e) as -> by (eapply NoDup_tags_unique; eauto; congruence).
      cbn in Hde'. congruence.
  - intros e' He' Hsome. apply update_elem in He'; [| exact Hnd | reflexivity].
    destruct He' as [[He' Hne] | (e0 & He0 & E0 & ->)]; [| reflexivity].
    rewrite lookup_insert_ne in Hsome by congruence. auto.
Qed.

(** ** Allocation *)
Lemma core_allocate d rd ns l tk ar tl rt e :
  core d rd ns l tk ar tl rt -> Z.of_nat (length l) < d ->
  slot (tag e) = tl -> serial e = ns -> issued e = false ->
  tk !! tag e = None ->
  (forall r, rename e = Some r -> 0 <= r < rd /\ r ∉ omap rename l) ->
  (forall r, dst e = Some r -> 0 <= r < 32) ->
  core d rd (ns + 1) (l ++ [e]) tk ar ((tl + 1) mod d) rt.
Proof.
  intros [Hd Ht Hl Hs Hse Hn Hr Hrr Hk Ha Hdn Hi Har Hds] Hfull Hslot Hser Hiss Htk Hren Hdst.
  split; auto.
  - apply Z.mod_pos_bound. lia.
  - rewrite length_app. cbn. lia.
  - rewrite map_app. apply slots_snoc; auto.
  - rewrite map_app, app_assoc. apply StronglySorted_app. repeat split.
    + intros x y Hx Hy. apply list_elem_of_singleton in Hy. rewrite Hy, Hser.
      rewrite Forall_forall in Hn. apply Hn, Hx.
    + exact Hse.
    + repeat constructor.
  - rewrite map_app, app_assoc. apply Forall_app. split.
    + eapply Forall_impl; [exact Hn |]. intros; cbn in *; lia.
    + repeat constructor. lia.
  - rewrite omap_app. apply NoDup_app. split; [exact Hr |]. cbn.
    destruct (rename e) as [r |] eqn:Er; [| split; [intros x _ Hx; inversion Hx | constructor]].
    split.
    + intros x Hx Hx'. apply list_elem_of_singleton in Hx'. subst. apply (Hren r eq_refl). exact Hx.
    + apply NoDup_singleton.
  - intros r Hin. rewrite omap_app in Hin. apply elem_of_app in Hin. destruct Hin as [Hin | Hin]; [auto |].
    cbn in Hin. destruct (rename e) as [r' |] eqn:Er; [| inversion Hin].
    apply list_elem_of_singleton in Hin. subst. apply Hren. reflexivity.
  - intros t k E. destruct (Ha t k E) as [Hin |]; [| auto]. left. rewrite map_app. apply elem_of_app. auto.
  - intros e' He' Hde. apply elem_of_app in He'. destruct He' as [He' | He']; [auto |].
    apply list_elem_of_singleton in He'. subst. exact Htk.
  - intros e' He' Hsome. apply elem_of_app in He'. destruct He' as [He' | He']; [auto |].
    apply list_elem_of_singleton in He'. subst. rewrite Htk in Hsome. destruct Hsome. discriminate.
  - intros e' r He' Hr'. apply elem_of_app in He'. destruct He' as [He' | He']; [eauto |].
    apply list_elem_of_singleton in He'. subst. auto.
Qed.

End Invariant.

Section Step.
Import recovery.

Record inv (m : RecoveryModel) : Prop := {
  in_core : core (depth m) (rename_depth m) (next_serial m) (entries m) (tokens m) (arch m)
              (tail m) (retired m);
  in_rename : 1 <= rename_depth m;
  in_generations : length (generations m) = Z.to_nat (depth m);
  in_mapping : mapping m = mapping_of (entries m)
}.

(** ** The assertions follow from the invariant *)
Lemma distinct_NoDup {A} `{EqDecision A} (l : list A) : NoDup l -> distinct l = true.
Proof.
  intros Hl. unfold distinct. apply Nat.eqb_eq, Permutation_length.
  apply NoDup_Permutation; [apply NoDup_remove_dups | exact Hl |].
  intros x. apply elem_of_remove_dups.
Qed.

Lemma remove_dups_length {A} `{EqDecision A} (l : list A) : NoDup l -> length (remove_dups l) = length l.
Proof. intros H. apply distinct_NoDup in H. apply Nat.eqb_eq. exact H. Qed.

Lemma lt_sorted_le l : StronglySorted Z.lt l -> StronglySorted Z.le l.
Proof.
  induction 1 as [| x l _ IH Hx]; constructor; [exact IH |].
  eapply List.Forall_impl; [| exact Hx]. intros; lia.
Qed.

Lemma merge_sort_id l : StronglySorted Z.lt l -> l = merge_sort Z.le l.
Proof.
  intros H. apply (StronglySorted_unique Z.le).
  - apply lt_sorted_le, H.
  - apply (StronglySorted_merge_sort Z.le).
  - symmetry. apply merge_sort_Permutation.
Qed.

Lemma lt_sorted_NoDup l : StronglySorted Z.lt l -> NoDup l.
Proof.
  induction 1 as [| x l _ IH Hx]; constructor; [| exact IH].
  intros Hin. rewrite List.Forall_forall in Hx. apply list_elem_of_In in Hin.
  specialize (Hx x Hin). lia.
Qed.

Lemma adjacent_slots d tl l :
  1 <= d -> slots_at d tl (map tag l) -> adjacent d l = true.
Proof.
  intros Hd. induction l as [| e1 l IH]; [reflexivity |]. intros Hs.
  destruct l as [| e2 l]; [reflexivity |].
  change (adjacent d (e1 :: e2 :: l)) with
    ((slot (tag e2) =? (slot (tag e1) + 1) mod d) && adjacent d (e2 :: l)).
  rewrite IH by (eapply slots_tl; exact Hs). rewrite andb_true_r. apply Z.eqb_eq.
  rewrite (Hs 0%nat (tag e1) eq_refl), (Hs 1%nat (tag e2) eq_refl).
  rewrite Z.add_mod_idemp_l by lia. f_equal. lia.
Qed.

Lemma last_slot d tl l e :
  1 <= d -> 0 <= tl < d -> slots_at d tl (map tag l) -> last l = Some e ->
  tl = (slot (tag e) + 1) mod d.
Proof.
  intros Hd Ht Hs Hl. rewrite last_lookup in Hl.
  pose proof (lookup_lt_Some _ _ _ Hl).
  assert (H2 : map tag l !! Init.Nat.pred (length l) = Some (tag e)).
  { rewrite list_lookup_fmap, Hl. reflexivity. }
  rewrite (Hs _ _ H2), length_map, Z.add_mod_idemp_l by lia.
  rewrite <- (Z.mod_small tl d) at 1 by lia. f_equal. lia.
Qed.

Lemma renames_bound rd l :
  1 <= rd -> NoDup l -> (forall r, r ∈ l -> 0 <= r < rd) -> Z.of_nat (length l) <= rd.
Proof.
  intros Hrd Hnd Hr.
  assert (length l <= length (seqZ 0 rd))%nat as Hl.
  { apply submseteq_length, NoDup_submseteq; [exact Hnd |].
    intros x Hx. apply elem_of_seqZ. apply Hr in Hx. lia. }
  rewrite length_seqZ in Hl. lia.
Qed.

Lemma invariants_hold m : inv m -> invariants m = true.
Proof.
  intros [Hc Hrn Hg Hm]. pose proof (core_NoDup_slots _ _ _ _ _ _ _ _ Hc) as Hnd.
  destruct Hc as [Hd Ht Hl Hs Hse Hn Hr Hrr Hk Ha Hdn Hi Har Hds].
  apply StronglySorted_app in Hse. destruct Hse as (_ & _ & Hse).
  unfold invariants. rewrite !andb_true_iff. repeat split.
  - apply Z.leb_le. exact Hl.
  - apply distinct_NoDup. rewrite map_map in Hnd. exact Hnd.
  - apply distinct_NoDup, lt_sorted_NoDup, Hse.
  - apply bool_decide_eq_true, merge_sort_id, Hse.
  - apply distinct_NoDup, Hr.
  - apply Z.leb_le. rewrite remove_dups_length by exact Hr. apply renames_bound; assumption.
  - apply bool_decide_eq_true, Hm.
  - eapply adjacent_slots; eauto.
  - destruct (last (entries m)) eqn:E; [| reflexivity]. apply Z.eqb_eq. eapply last_slot; eauto.
  - apply forallb_forall. intros [t k] Hin. apply list_elem_of_In, elem_of_map_to_list in Hin. cbn.
    apply orb_true_iff. destruct (Ha t k Hin) as [H | ->]; [left | right; reflexivity].
    apply bool_decide_eq_true, H.
  - apply forallb_forall. intros e Hin. apply list_elem_of_In in Hin.
    destruct (done e) eqn:E; [| reflexivity]. cbn. apply bool_decide_eq_true. auto.
Qed.

(** ** The window part of an edge *)
Lemma redirect_outcome_take r pre acc rej sv :
  redirect_outcome r pre = (acc, rej, sv) ->
  exists cut, sv = take cut pre /\ (acc = false -> sv = pre).
Proof.
  assert (Hid : pre = take (length pre) pre) by (symmetry; apply take_ge; lia).
  unfold redirect_outcome. destruct r as [r |].
  - destruct (redirect_cut r pre) as [cut |].
    + destruct (_ && _); intros E; injection E as <- <- <-; [eauto |].
      exists cut. split; [reflexivity | discriminate].
    + intros E; injection E as <- <- <-. eauto.
  - intros E; injection E as <- <- <-. eauto.
Qed.

Lemma finish_facts res pre_tk tk l tk' l' f :
  finish_result res pre_tk tk l = (tk', l', f) ->
  map tag l' = map tag l /\ map serial l' = map serial l /\ omap rename l' = omap rename l /\
  (forall t, is_Some (tk' !! t) -> is_Some (tk !! t)) /\
  (forall e l0, l = e :: l0 -> done e = true -> exists e' l1, l' = e' :: l1 /\ done e' = true).
Proof.
  assert (Hhd : forall (e : Entry) l0, l = e :: l0 -> done e = true ->
            exists e' l1, l = e' :: l1 /\ done e' = true) by eauto.
  destruct res as [[t v] |]; cbn [finish_result];
    [| intros E; injection E as <- <- <-; auto].
  assert (Hdel : forall u, is_Some (delete t tk !! u) -> is_Some (tk !! u)).
  { intros u [k E]. apply lookup_delete_Some in E. exists k. apply E. }
  destruct (find_tag t l) as [e |]; [| intros E; injection E as <- <- <-; auto].
  destruct (negb (done e) && _); intros E; injection E as <- <- <-; [| auto 6].
  rewrite !update_map, update_omap by reflexivity. repeat split; auto.
  intros e0 l0 -> He0. cbn. case_bool_decide; eexists _, _; split; try reflexivity; exact He0.
Qed.

Lemma issue_facts issue kind tk l tk' l' b :
  issue_entry issue kind tk l = (tk', l', b) ->
  map tag l' = map tag l /\ map serial l' = map serial l /\ omap rename l' = omap rename l /\
  (forall t, is_Some (tk' !! t) -> is_Some (tk !! t) \/ t ∈ map tag l).
Proof.
  destruct issue as [t |]; cbn [issue_entry]; [| intros E; injection E as <- <- <-; auto].
  destruct (find_tag t l) as [e |] eqn:Ef; [| intros E; injection E as <- <- <-; auto].
  destruct (negb (issued e) && _); intros E; injection E as <- <- <-; [| auto].
  rewrite !update_map, update_omap by reflexivity. repeat split; auto.
  intros u [k E]. apply lookup_insert_Some in E. apply find_tag_Some in Ef. destruct Ef as [<- He].
  destruct E as [[<- _] | [_ E]]; [right; apply list_elem_of_fmap_2; exact He | left; eauto].
Qed.

(** What the window part of an edge does, for the proofs about whole edges. *)
Record window_ok (m : RecoveryModel) (w : window) : Prop := {
  wo_core : core (depth m) (rename_depth m) (next_serial m) (w_survivors w) (w_tokens w)
              (w_arch w) (w_tail w)
              (retired m ++ match w_committed w with Some c => [c] | None => [] end);
  wo_tail : w_accepted w = false -> w_tail w = tail m;
  wo_tags : forall t, t ∈ map tag (w_survivors w) -> t ∈ map tag (entries m);
  wo_length : (length (w_survivors w) <= length (entries m))%nat;
  wo_renames : forall r, r ∈ omap rename (w_survivors w) -> r ∈ omap rename (entries m);
  wo_tokens : forall t, is_Some (w_tokens w !! t) ->
                is_Some (tokens m !! t) \/ t ∈ map tag (entries m);
  wo_kept : forall s, s ∈ map serial_of (match w_committed w with Some c => [c] | None => [] end)
                        ++ map serial (w_survivors w) ->
            exists e, e ∈ entries m /\ serial e = s /\ tag e ∉ w_killed w
}.

Lemma fold_serial_of (h : Entry) : serial_of (serial h, dst h, value h) = serial h.
Proof. reflexivity. Qed.

Lemma commit_cases pre keep ready ar l d rd ns tk tl rt :
  core d rd ns l tk ar tl rt ->
  (forall e l0, pre = e :: l0 -> done e = true -> tag e ∈ keep ->
     exists e' l1, l = e' :: l1 /\ done e' = true) ->
  exists ar' l' c, commit_head pre keep ready ar l = Ok (ar', l', c) /\
    core d rd ns l' tk ar' tl (rt ++ match c with Some c => [c] | None => [] end) /\
    map serial l = map serial_of (match c with Some c => [c] | None => [] end) ++ map serial l' /\
    (forall t, t ∈ map tag l' -> t ∈ map tag l) /\ (length l' <= length l)%nat /\
    (forall r, r ∈ omap rename l' -> r ∈ omap rename l).
Proof.
  intros Hc Hhd.
  assert (Hnone : exists ar' l' c, Ok (ar, l, None) = Ok (ar', l', c) /\
    core d rd ns l' tk ar' tl (rt ++ match c with Some c => [c] | None => [] end) /\
    map serial l = map serial_of (match c with Some c => [c] | None => [] end) ++ map serial l' /\
    (forall t, t ∈ map tag l' -> t ∈ map tag l) /\ (length l' <= length l)%nat /\
    (forall r, r ∈ omap rename l' -> r ∈ omap rename l)).
  { exists ar, l, None. rewrite app_nil_r. auto 8. }
  unfold commit_head. destruct pre as [| e pre]; [exact Hnone |].
  destruct (done e && bool_decide (tag e ∈ keep) && ready) eqn:E; [| exact Hnone].
  rewrite !andb_true_iff in E. destruct E as [[Hd Hk] _]. apply bool_decide_eq_true in Hk.
  destruct (Hhd e pre eq_refl Hd Hk) as (h & l1 & -> & Hdh).
  eexists _, l1, (Some _). split; [reflexivity |].
  split; [apply core_commit; assumption |]. cbn [map app]. rewrite fold_serial_of.
  split; [reflexivity |]. split; [intros t Ht; right; exact Ht |]. split; [cbn; lia |].
  intros r Hr. cbn. destruct (rename h); [right |]; exact Hr.
Qed.

Lemma step_window_ok m a :
  inv m -> kind_ok (a_producer_kind a) -> exists w, step_window m a = Ok w /\ window_ok m w.
Proof.
  intros [Hc Hrn Hg Hm] Hkind. unfold step_window.
  destruct (redirect_outcome (a_redirect a) (entries m)) as [[acc rej] sv] eqn:Er.
  destruct (redirect_outcome_take _ _ _ _ _ Er) as (cut & Hsv & Hacc).
  set (killed := List.filter _ _). set (tl := if acc then redirect_tail _ _ _ else _).
  set (tk1 := if acc then cancel_local _ _ else _).
  assert (Hc1 : core (depth m) (rename_depth m) (next_serial m) sv tk1 (arch m) tl (retired m)).
  { subst tk1 tl killed. destruct acc; [| rewrite Hacc by reflexivity; exact Hc].
    subst sv. apply core_redirect with (tl := tail m); [exact Hc |].
    unfold redirect_tail. destruct (last (take cut (entries m))); [reflexivity |].
    destruct (entries m); reflexivity. }
  destruct (finish_result (a_result a) (tokens m) tk1 sv) as [[tk2 l2] fin] eqn:Ef.
  pose proof (core_finish _ _ _ _ _ (tokens m) _ _ _ (a_result a) Hc1) as Hc2. rewrite Ef in Hc2.
  destruct (finish_facts _ _ _ _ _ _ _ Ef) as (T2 & S2 & R2 & K2 & D2).
  destruct (commit_cases (entries m) (map tag sv) (a_retire_ready a) (arch m) l2 _ _ _ _ _ _ Hc2)
    as (ar3 & l3 & c & Ec & Hc3 & S3 & T3 & L3 & R3).
  { intros e l0 El Hd Hk. rewrite El in Hsv. destruct cut as [| cut]; cbn in Hsv; subst sv.
    - inversion Hk.
    - eapply D2; [reflexivity | exact Hd]. }
  rewrite Ec. 
  destruct (issue_entry (a_issue a) (a_producer_kind a) tk2 l3) as [[tk4 l4] iss] eqn:Ei.
  pose proof (core_issue _ _ _ _ _ _ _ _ (a_issue a) _ Hc3 Hkind) as Hc4. rewrite Ei in Hc4.
  destruct (issue_facts _ _ _ _ _ _ _ Ei) as (T4 & S4 & R4 & K4).
  eexists. split; [reflexivity |].
  assert (Htags : forall t, t ∈ map tag l4 -> t ∈ map tag sv).
  { intros t Ht. rewrite T4 in Ht. apply T3 in Ht. rewrite T2 in Ht. exact Ht. }
  assert (Hsub : forall t, t ∈ map tag sv -> t ∈ map tag (entries m)).
  { intros t Ht. subst sv. rewrite map_take in Ht. eapply elem_of_take_sub. exact Ht. }
  assert (Hlen : (length l4 <= length (entries m))%nat).
  { apply (f_equal length) in T4, T2. rewrite !length_map in T4, T2. rewrite Hsv, length_take in T2. lia. }
  split; cbn [w_survivors w_tokens w_arch w_tail w_committed w_accepted w_killed]; auto.
  - intros ->. reflexivity.
  - intros r Hr. rewrite R4 in Hr. apply R3 in Hr. rewrite R2 in Hr. subst sv.
    eapply elem_of_sublist; [exact Hr | apply omap_take_sub].
  - intros t Ht. apply K4 in Ht. destruct Ht as [Ht | Ht].
    + apply K2 in Ht. left. subst tk1. destruct acc; [| exact Ht]. destruct Ht as [k Ht].
      rewrite cancel_local_lookup in Ht. destruct (_ && _); [discriminate | eauto].
    + right. apply Hsub. apply T3 in Ht. rewrite T2 in Ht. exact Ht.
  - intros s Hs. rewrite S4, <- S3, S2 in Hs. apply list_elem_of_fmap in Hs.
    destruct Hs as (e & -> & He). exists e. split.
    + subst sv. eapply elem_of_take_sub. exact He.
    + split; [reflexivity |]. unfold killed. rewrite filter_In_map. intros [_ Hn]. apply Hn.
      apply list_elem_of_fmap_2. exact He.
Qed.

End Step.

Section Edge.
Import recovery.

Definition args_ok (a : step_args) : bool :=
  match a_dst a with Some d => in_range 0 32 d | None => true end && valid_kind (a_producer_kind a).

Lemma valid_kind_ok k : valid_kind k = true -> kind_ok k.
Proof.
  unfold valid_kind, str_in, kind_ok. cbn. rewrite orb_false_r. intros H. bool_prop.
  destruct H as [H | H]; apply String.eqb_eq in H; auto.
Qed.

Lemma init_inv d rd gb m : init d rd gb = Ok m -> inv m.
Proof.
  unfold init. destruct (Z.ltb_spec (Z.min (Z.min d rd) gb) 1); [discriminate |]. cbn [negb].
  intros E. injection E as <-. split; cbn -[Z.shiftl repeat]; try lia.
  - split; cbn; try lia; try constructor; try (intros; set_solver);
      try (intros ? ? H'; rewrite lookup_empty in H'; discriminate).
    intros i t Hi. rewrite lookup_nil in Hi. discriminate.
  - apply repeat_length.
  - reflexivity.
Qed.

Lemma candidate_ok m w :
  inv m -> window_ok m w ->
  exists c, candidate (with_window m w) = Ok c /\ slot c = w_tail w.
Proof.
  intros [Hc Hrn Hg Hm] Hw. pose proof (c_tail _ _ _ _ _ _ _ _ (wo_core _ _ Hw)) as Ht.
  unfold candidate, with_window. cbn [generations tail generation_mask].
  destruct (generations m !! Z.to_nat (w_tail w)) as [g |] eqn:E.
  - eexists. split; [reflexivity |]. reflexivity.
  - apply lookup_ge_None in E. rewrite Hg in E. lia.
Qed.

Lemma find_free rd l r : free_rename rd l = Some r -> 0 <= r < rd /\ r ∉ omap rename l.
Proof.
  unfold free_rename. intros H. apply find_some in H. destruct H as [H1 H2].
  apply list_elem_of_In, elem_of_seqZ in H1. apply negb_true_iff, bool_decide_eq_false in H2.
  unfold used_rename in H2. split; [lia | exact H2].
Qed.

Lemma close_inv m a w cand :
  inv m -> args_ok a = true -> window_ok m w -> slot cand = w_tail w ->
  inv (fst (allocate_and_close m a w cand (with_window m w))).
Proof.
  intros [Hc Hrn Hg Hm] Ha Hw Hslot. pose proof (wo_core _ _ Hw) as Hcw.
  unfold allocate_and_close. destruct (can_allocate m a (w_accepted w) cand) eqn:Ecan;
    (split; cbn [fst depth rename_depth next_serial entries tokens arch tail retired generations
                 mapping with_window]; [ | exact Hrn | | reflexivity]);
    rewrite ?length_insert; auto.
  unfold can_allocate in Ecan. rewrite !andb_true_iff in Ecan.
  destruct Ecan as ((((_ & Hacc) & Hlen) & Hfree) & Htok).
  apply negb_true_iff in Hacc. apply Z.ltb_lt in Hlen. apply bool_decide_eq_true in Htok.
  pose proof (wo_length _ _ Hw) as Hwl.
  assert (Hfresh : cand ∉ map tag (entries m)).
  { intros Hin. destruct Hc as [Hd Ht Hl Hs _ _ _ _ _ _ _ _ _ _].
    apply (slots_fresh (depth m) (tail m) (map tag (entries m)) cand); auto.
    - rewrite length_map. exact Hlen.
    - rewrite Hslot. apply (wo_tail _ _ Hw). exact Hacc. }
  apply core_allocate; cbn [tag serial rename dst issued new_entry]; auto.
  - lia.
  - destruct (w_tokens w !! cand) as [k |] eqn:Ek; [| reflexivity]. exfalso.
    destruct (wo_tokens _ _ Hw cand) as [[k' Hk'] | Hin]; [eauto | congruence | contradiction].
  - intros r Hr. destruct (match a_dst a with Some _ => negb (a_fault a) | None => false end);
      [| discriminate]. apply find_free in Hr. destruct Hr as [Hr Hn]. split; [exact Hr |].
    intros Hin. apply Hn, (wo_renames _ _ Hw), Hin.
  - intros r Hr. unfold args_ok in Ha. apply andb_true_iff in Ha. destruct Ha as [Ha _].
    destruct (a_fault a); [discriminate |]. rewrite Hr in Ha. apply in_range_iff in Ha. exact Ha.
Qed.

(** One edge with valid arguments, and the identities it carries over. *)
Lemma step_ok m a :
  inv m -> args_ok a = true ->
  exists m' w ev, step a m = (m', Ok ev) /\ inv m' /\ window_ok m w /\ ev_killed ev = w_killed w /\
    retired m' = retired m ++ match w_committed w with Some c => [c] | None => [] end /\
    next_serial m <= next_serial m' /\
    (forall s, s ∈ map serial (entries m') -> s ∈ map serial (w_survivors w) \/ s = next_serial m).
Proof.
  intros Hinv Ha. pose proof Ha as Ha'. unfold args_ok in Ha'. apply andb_true_iff in Ha'.
  destruct Ha' as [Hdst Hkind].
  destruct (step_window_ok m a Hinv (valid_kind_ok _ Hkind)) as (w & Ew & Hw).
  destruct (candidate_ok m w Hinv Hw) as (c & Ec & Hslot).
  pose proof (close_inv m a w c Hinv Ha Hw Hslot) as Hinv'.
  unfold step. 
  rewrite (m_bind_ok (m_raise_if _ _) _ m m tt) by
    (unfold m_raise_if; destruct (a_dst a); [rewrite Hdst |]; reflexivity).
  rewrite (m_bind_ok (m_raise_if _ _) _ m m tt) by (unfold m_raise_if; rewrite Hkind; reflexivity).
  rewrite (m_bind_ok m_get _ m m m eq_refl).
  rewrite (m_bind_ok (m_lift _) _ m m w) by (unfold m_lift; rewrite Ew; reflexivity).
  rewrite (m_bind_ok (m_put _) _ m (with_window m w) tt eq_refl).
  rewrite (m_bind_ok m_get _ _ (with_window m w) (with_window m w) eq_refl).
  rewrite (m_bind_ok (m_lift _) _ _ (with_window m w) c) by (unfold m_lift; rewrite Ec; reflexivity).
  destruct (allocate_and_close m a w c (with_window m w)) as [m2 al] eqn:Eal. cbn [fst] in Hinv'.
  rewrite (m_bind_ok (m_put _) _ _ m2 tt eq_refl).
  rewrite (m_bind_ok check_invariants _ _ m2 tt) by
    (unfold check_invariants; rewrite invariants_hold by exact Hinv'; reflexivity).
  unfold allocate_and_close in Eal. injection Eal as <- <-.
  eexists _, w, _. split; [reflexivity |]. cbn [ev_killed retired next_serial entries with_window].
  do 4 (split; [first [exact Hinv' | exact Hw | reflexivity] |]). split.
  - destruct (can_allocate _ _ _ _); lia.
  - intros s Hs. destruct (can_allocate _ _ _ _); [| auto].
    rewrite map_app in Hs. apply elem_of_app in Hs. destruct Hs as [Hs | Hs]; [auto |].
    apply list_elem_of_singleton in Hs. right. exact Hs.
Qed.

Lemma step_bad_args m a :
  args_ok a = false -> exists msg, step a m = (m, Raise (ValueError msg)).
Proof.
  unfold args_ok. intros H. unfold step.
  destruct (match a_dst a with Some d => in_range 0 32 d | None => true end) eqn:Ed.
  - cbn [andb] in H.
    rewrite (m_bind_ok (m_raise_if _ _) _ m m tt) by
      (unfold m_raise_if; destruct (a_dst a); [rewrite Ed |]; reflexivity).
    eexists. apply m_bind_raise. unfold m_raise_if. rewrite H. reflexivity.
  - eexists. apply m_bind_raise. unfold m_raise_if. destruct (a_dst a); [| discriminate].
    rewrite Ed. reflexivity.
Qed.

(** The states the model reaches from [init] by successful edges. *)
Inductive reachable (d rd gb : Z) : RecoveryModel -> Prop :=
| reach_init m : init d rd gb = Ok m -> reachable d rd gb m
| reach_step m a m' ev :
    reachable d rd gb m -> step a m = (m', Ok ev) -> reachable d rd gb m'.

Lemma step_success_args m a m' ev : step a m = (m', Ok ev) -> args_ok a = true.
Proof.
  intros E. destruct (args_ok a) eqn:Ha; [reflexivity |].
  destruct (step_bad_args m a Ha) as (msg & E'). congruence.
Qed.

Lemma step_inv m a m' ev : inv m -> step a m = (m', Ok ev) -> inv m'.
Proof.
  intros Hm E. pose proof (step_success_args _ _ _ _ E) as Ha.
  destruct (step_ok m a Hm Ha) as (m2 & w & ev2 & E2 & Hi & _). congruence.
Qed.

Lemma reachable_inv d rd gb m : reachable d rd gb m -> inv m.
Proof. induction 1; [eapply init_inv; eauto | eapply step_inv; eauto]. Qed.

(** A serial that was given out and is neither in the window nor retired. *)
Definition gone (s : Z) (m : RecoveryModel) : Prop :=
  s < next_serial m /\ (s ∉ map serial (entries m)) /\ (s ∉ map serial_of (retired m)).

Lemma serial_unique m e1 e2 :
  inv m -> e1 ∈ entries m -> e2 ∈ entries m -> serial e1 = serial e2 -> e1 = e2.
Proof.
  intros [Hc _ _ _] H1 H2 E. pose proof (c_serial _ _ _ _ _ _ _ _ Hc) as Hs.
  apply StronglySorted_app in Hs. destruct Hs as (_ & _ & Hs). apply lt_sorted_NoDup in Hs.
  apply list_elem_of_lookup in H1, H2. destruct H1 as [i Hi], H2 as [j Hj].
  assert (i = j) as ->; [| congruence].
  eapply (proj1 (NoDup_alt _) Hs); rewrite list_lookup_fmap, ?Hi, ?Hj; cbn; [reflexivity | congruence].
Qed.

Lemma next_serial_bound m e : inv m -> e ∈ entries m -> serial e < next_serial m.
Proof.
  intros [Hc _ _ _] He. pose proof (c_next _ _ _ _ _ _ _ _ Hc) as Hn.
  apply Forall_app in Hn. destruct Hn as [_ Hn]. rewrite Forall_forall in Hn.
  apply Hn, list_elem_of_fmap_2, He.
Qed.

Lemma killed_gone m a m' ev e :
  inv m -> step a m = (m', Ok ev) -> e ∈ entries m -> tag e ∈ ev_killed ev -> gone (serial e) m'.
Proof.
  intros Hm E He Hk. pose proof (step_success_args _ _ _ _ E) as Ha.
  destruct (step_ok m a Hm Ha) as (m2 & w & ev2 & E2 & _ & Hw & Ek & Er & Hn & Hs).
  assert (m2 = m') as -> by congruence. assert (ev2 = ev) as -> by congruence.
  rewrite Ek in Hk. pose proof (next_serial_bound m e Hm He) as Hb.
  assert (Hnot : forall s, s ∈ map serial_of (match w_committed w with Some c => [c] | None => [] end)
                        ++ map serial (w_survivors w) -> s <> serial e).
  { intros s Hin ->. destruct (wo_kept _ _ Hw _ Hin) as (e0 & He0 & Es & Hkill).
    rewrite (serial_unique m e0 e Hm He0 He Es) in Hkill. contradiction. }
  split; [lia |]. split.
  - intros Hin. destruct (Hs _ Hin) as [Hin' | Heq]; [| lia].
    apply (Hnot (serial e)); [| reflexivity]. apply elem_of_app. auto.
  - rewrite Er, map_app. intros Hin. apply elem_of_app in Hin. destruct Hin as [Hin | Hin].
    + destruct Hm as [Hc _ _ _]. pose proof (c_serial _ _ _ _ _ _ _ _ Hc) as Hss.
      pose proof (StronglySorted_app_1_elem_of _ _ _ _ _ Hss Hin (list_elem_of_fmap_2 serial _ _ He)). lia.
    + apply (Hnot (serial e)); [| reflexivity]. apply elem_of_app. auto.
Qed.

Lemma gone_step m a m' ev s :
  inv m -> step a m = (m', Ok ev) -> gone s m -> gone s m'.
Proof.
  intros Hm E (Hn & He & Hr). pose proof (step_success_args _ _ _ _ E) as Ha.
  destruct (step_ok m a Hm Ha) as (m2 & w & ev2 & E2 & _ & Hw & _ & Er & Hn' & Hs).
  assert (m2 = m') as -> by congruence.
  assert (Hnot : forall x, x ∈ map serial_of (match w_committed w with Some c => [c] | None => [] end)
                        ++ map serial (w_survivors w) -> x <> s).
  { intros x Hin ->. destruct (wo_kept _ _ Hw _ Hin) as (e0 & He0 & <- & _).
    apply He, list_elem_of_fmap_2, He0. }
  split; [lia |]. split.
  - intros Hin. destruct (Hs _ Hin) as [Hin' | Heq]; [| lia].
    apply (Hnot s); [| reflexivity]. apply elem_of_app. auto.
  - rewrite Er, map_app. intros Hin. apply elem_of_app in Hin. destruct Hin as [Hin | Hin]; [auto |].
    apply (Hnot s); [| reflexivity]. apply elem_of_app. auto.
Qed.

(** Later states of the same run. *)
Inductive later : RecoveryModel -> RecoveryModel -> Prop :=
| later_refl m : later m m
| later_step m a m' ev m'' : step a m = (m', Ok ev) -> later m' m'' -> later m m''.

Lemma gone_later m m' s : later m m' -> inv m -> gone s m -> gone s m'.
Proof.
  induction 1 as [| m a m1 ev m2 E _ IH]; [auto |]. intros Hm Hg.
  apply IH; [eapply step_inv; eauto | eapply gone_step; eauto].
Qed.

(** ** The register map *)
Lemma mapping_of_snoc l e :
  mapping_of (l ++ [e]) =
  match dst e with Some d => <[d := tag e]> (mapping_of l) | None => mapping_of l end.
Proof. unfold mapping_of. rewrite foldl_snoc. reflexivity. Qed.

(** The youngest in-flight writer of a register. *)
Definition youngest (reg : Z) (l : list Entry) : option Entry :=
  last (base.filter (fun e => dst e = Some reg) l).

Lemma mapping_of_lookup l reg : mapping_of l !! reg = tag <$> youngest reg l.
Proof.
  induction l as [| e l IH] using rev_ind; [reflexivity |].
  rewrite mapping_of_snoc. unfold youngest. rewrite filter_app, filter_cons, filter_nil.
  case_decide as Hd.
  - rewrite Hd, last_snoc, lookup_insert_eq. reflexivity.
  - rewrite app_nil_r. fold (youngest reg l). rewrite <- IH.
    destruct (dst e) as [d |] eqn:E; [| reflexivity].
    rewrite lookup_insert_ne by congruence. reflexivity.
Qed.

Lemma find_tag_unique l e : NoDup (map tag l) -> e ∈ l -> find_tag (tag e) l = Some e.
Proof.
  intros Hnd He. destruct (find_tag_is_Some (tag e) l) as [e' E].
  { apply list_elem_of_fmap_2, He. }
  rewrite E. apply find_tag_Some in E. destruct E as [Et He'].
  f_equal. eapply NoDup_tags_unique; eauto.
Qed.

Lemma replay_length rt : length (replay rt) = 32%nat.
Proof.
  induction rt as [| c rt IH] using rev_ind; [reflexivity |].
  unfold replay in *. rewrite foldl_snoc. unfold write_back at 1.
  destruct (c.1.2); rewrite ?length_insert; exact IH.
Qed.

End Edge.

Section RecoveryTheorems.
Import recovery.

(** C8. The recovery model's own assertions never fire: from every state
    reachable from [init], an edge raises only when its arguments are invalid
    (an out-of-range register or an unknown producer kind), and then changes
    nothing; every other edge completes. *)
Theorem recovery_never_asserts d rd gb m a :
  reachable d rd gb m ->
  match step a m with
  | (m', Ok _) => args_ok a = true /\ invariants m' = true
  | (m', Raise e) => args_ok a = false /\ m' = m /\ exists msg, e = ValueError msg
  end.
Proof.
  intros Hr. apply reachable_inv in Hr. destruct (args_ok a) eqn:Ha.
  - destruct (step_ok m a Hr Ha) as (m' & w & ev & E & Hi & _). rewrite E.
    split; [reflexivity | apply invariants_hold, Hi].
  - destruct (step_bad_args m a Ha) as (msg & ->). eauto.
Qed.

Definition idle_args : step_args :=
  {| a_allocate := false; a_dst := None; a_fault := false; a_issue := None;
     a_producer_kind := "local"; a_result := None; a_redirect := None; a_retire_ready := false |}.

Definition fresh_model : RecoveryModel :=
  {| depth := 5; rename_depth := 5; generation_mask := 255; entries := [];
     generations := repeat 0 5; tail := 0; tokens := ∅; arch := repeat 0 32; mapping := ∅;
     next_serial := 0; retired := [] |}.

Lemma fresh_reachable : reachable 5 5 8 fresh_model.
Proof. apply reach_init. reflexivity. Qed.

Lemma recovery_never_asserts_witness :
  match step idle_args fresh_model with
  | (m', Ok _) => args_ok idle_args = true /\ invariants m' = true
  | (m', Raise e) => args_ok idle_args = false /\ m' = fresh_model /\ exists msg, e = ValueError msg
  end.
Proof. apply (recovery_never_asserts 5 5 8 fresh_model idle_args). exact fresh_reachable. Defined.

(** C9. Retirement is in program order and complete: in every reachable state
    the serials of the retired instructions followed by those in flight are
    strictly increasing, and the registers are exactly the retired writes
    replayed over zeros. *)
Theorem retirement_in_order d rd gb m :
  reachable d rd gb m ->
  StronglySorted Z.lt (map serial_of (retired m) ++ map serial (entries m)) /\
  arch m = replay (retired m).
Proof. intros Hr. apply reachable_inv in Hr. destruct Hr as [Hc _ _ _]. split; apply Hc. Qed.

Lemma retirement_in_order_witness :
  StronglySorted Z.lt (map serial_of (retired fresh_model) ++ map serial (entries fresh_model)) /\
  arch fresh_model = replay (retired fresh_model).
Proof. apply (retirement_in_order 5 5 8 fresh_model). exact fresh_reachable. Defined.

(** A killed instruction never retires: once a redirect removes an entry,
    in no later state of the run is its serial in the retirement log or back in
    the window. *)
Theorem killed_never_retires d rd gb m a m1 ev e m2 :
  reachable d rd gb m -> step a m = (m1, Ok ev) -> e ∈ entries m -> tag e ∈ ev_killed ev ->
  later m1 m2 ->
  (serial e ∉ map serial_of (retired m2)) /\ (serial e ∉ map serial (entries m2)).
Proof.
  intros Hr E He Hk Hl. apply reachable_inv in Hr.
  pose proof (killed_gone m a m1 ev e Hr E He Hk) as Hg.
  apply (gone_later m1 m2) in Hg; [| exact Hl | eapply step_inv; eauto].
  destruct Hg as (_ & H1 & H2). auto.
Qed.

(** Allocate one entry, then redirect with no pivot. *)
Definition alloc_args : step_args :=
  {| a_allocate := true; a_dst := Some 3; a_fault := false; a_issue := None;
     a_producer_kind := "local"; a_result := None; a_redirect := None; a_retire_ready := false |}.
Definition cut_args : step_args :=
  {| a_allocate := false; a_dst := None; a_fault := false; a_issue := None;
     a_producer_kind := "local"; a_result := None;
     a_redirect := Some {| target := 64; pivot := None; keep_pivot := true |};
     a_retire_ready := false |}.

Lemma killed_never_retires_witness :
  let m := fst (step alloc_args fresh_model) in
  let m1 := fst (step cut_args m) in
  (0 ∉ map serial_of (retired m1)) /\ (0 ∉ map serial (entries m1)).
Proof.
  intros m m1.
  apply (killed_never_retires 5 5 8 m cut_args m1
    {| ev_allocated := None; ev_finished := None; ev_committed := None;
       ev_killed := [{| slot := 0; generation := 1 |}]; ev_redirect_accepted := true;
       ev_redirect_rejected := None; ev_issue_accepted := false; ev_result_consumed := false |}
    {| tag := {| slot := 0; generation := 1 |}; serial := 0; dst := Some 3; rename := Some 0;
       done := false; value := 0; fault := false; issued := false |} m1).
  - apply (reach_step 5 5 8 fresh_model alloc_args m
      {| ev_allocated := Some {| slot := 0; generation := 1 |}; ev_finished := None;
         ev_committed := None; ev_killed := []; ev_redirect_accepted := false;
         ev_redirect_rejected := None; ev_issue_accepted := false; ev_result_consumed := false |}).
    + exact fresh_reachable.
    + vm_compute. reflexivity.
  - vm_compute. reflexivity.
  - left.
  - left.
  - apply later_refl.
Defined.

(** Reading an operand always succeeds for a register 0..31, and gives the
    youngest in-flight writer's readiness, value and tag when there is one, else
    the retired value; the generator search never runs dry. *)
Theorem operand_correct d rd gb m reg :
  reachable d rd gb m -> 0 <= reg < 32 ->
  match youngest reg (entries m) with
  | Some e => operand m reg = Ok (done e, value e, Some (tag e))
  | None => exists v, replay (retired m) !! Z.to_nat reg = Some v /\ operand m reg = Ok (true, v, None)
  end.
Proof.
  intros Hr Hreg. apply reachable_inv in Hr. destruct Hr as [Hc _ _ Hm].
  unfold operand. rewrite (proj2 (in_range_iff 0 32 reg) Hreg), Hm, mapping_of_lookup.
  destruct (youngest reg (entries m)) as [e |] eqn:Ey; cbn [fmap option_fmap option_map].
  - rewrite (find_tag_unique (entries m) e); [reflexivity | eapply core_NoDup_tags; exact Hc |].
    unfold youngest in Ey. apply last_Some_elem_of in Ey. apply list_elem_of_filter in Ey. apply Ey.
  - rewrite (c_arch _ _ _ _ _ _ _ _ Hc).
    destruct (replay (retired m) !! Z.to_nat reg) as [v |] eqn:E; [eauto |].
    apply lookup_ge_None in E. rewrite replay_length in E. lia.
Qed.

Lemma operand_correct_witness :
  match youngest 3 (entries fresh_model) with
  | Some e => operand fresh_model 3 = Ok (done e, value e, Some (tag e))
  | None => exists v, replay (retired fresh_model) !! Z.to_nat 3 = Some v /\
                      operand fresh_model 3 = Ok (true, v, None)
  end.
Proof. apply (operand_correct 5 5 8 fresh_model 3); [exact fresh_reachable | lia]. Defined.

End RecoveryTheorems.
