(* ===== verification/FetchDrain.v ===== *)
(** * The fetch drain model ([sim/recovery/model.py], [FetchDrainModel])

    One outstanding fetch with valid/ready offers.  A redirect never withdraws an
    offer or a pending request; it drains them and restarts at the target. *)
From S2P Require Import Prelude.

Module fetch_drain.

Record FetchEvents : Type := {
  request : option Z;
  request_accepted : bool;
  response_consumed : bool;
  packet : option (Z * Z)
}.

Record FetchDrainModel : Type := {
  reset_pc : Z;
  pc : Z;
  offered : option Z;
  pending : option Z;
  target : option Z
}.

(** [__init__], ending in [reset]. *)
Definition init (reset_pc : Z) : FetchDrainModel :=
  {| reset_pc := reset_pc; pc := reset_pc; offered := None; pending := None; target := None |}.

Definition reset (m : FetchDrainModel) : FetchDrainModel := init (reset_pc m).

Definition is_none {A} (o : option A) : bool := match o with None => true | Some _ => false end.

(** [offer] latches the current PC as the offer when it makes one. *)
Definition offer (m : FetchDrainModel) : FetchDrainModel * option Z :=
  match pending m with
  | Some _ => (m, None)
  | None =>
      let m := if is_none (offered m) && is_none (target m)
               then {| reset_pc := reset_pc m; pc := pc m; offered := Some (pc m);
                       pending := pending m; target := target m |}
               else m in
      (m, offered m)
  end.

Record step_args : Type := {
  request_ready : bool;
  response : option Z;
  packet_ready : bool;
  redirect : option Z
}.

(** The model with its four registers replaced. *)
Definition put (m : FetchDrainModel) pc offered pending target : FetchDrainModel :=
  {| reset_pc := reset_pc m; pc := pc; offered := offered; pending := pending; target := target |}.

(** [(pc, packet)] when a response is consumed. *)
Definition consume (target : option Z) (was_pending response pc : Z) : Z * option (Z * Z) :=
  match target with
  | None => (Z.land (was_pending + 4) MASK32, Some (was_pending, Z.land response MASK32))
  | Some _ => (pc, None)
  end.

(** [redirect is not None and (not 0 <= redirect <= MASK32 or redirect % 4)] *)
Definition bad_redirect (redirect : option Z) : bool :=
  match redirect with
  | Some t => negb ((0 <=? t) && (t <=? MASK32)) || truthy (t mod 4)
  | None => false
  end.

Definition step (a : step_args) (m : FetchDrainModel) : FetchDrainModel * result FetchEvents :=
  if bad_redirect (redirect a) then (m, Raise (ValueError "redirect target must be an aligned 32-bit PC"))
  else
    let was_pending := pending m in
    let '(m, req) := offer m in
    let target := match redirect a with Some t => Some t | None => target m end in
    let accepted := negb (is_none req) && request_ready a in
    let pending1 := if accepted then req else pending m in
    let offered1 := if accepted then None else offered m in
    let '(consumed, pc1, pkt, pending2) :=
      match was_pending, response a with
      | Some p, Some r =>
          if negb (is_none target) || packet_ready a
          then let '(pc1, pkt) := consume target p r (pc m) in (true, pc1, pkt, None)
          else (false, pc m, None, pending1)
      | _, _ => (false, pc m, None, pending1)
      end in
    let '(pc2, target2) :=
      match pending2, offered1, target with
      | None, None, Some t => (t, None)
      | _, _, _ => (pc1, target)
      end in
    (put m pc2 offered1 pending2 target2,
     Ok {| request := req; request_accepted := accepted; response_consumed := consumed;
           packet := pkt |}).

End fetch_drain.

Section FetchDrain.
Import fetch_drain.

Definition aligned (x : Z) : Prop := 0 <= x < 2 ^ 32 /\ x mod 4 = 0.

(** The address the program expects next: the redirect target being drained
    to, else the PC. *)
Definition expected_pc (m : FetchDrainModel) : Z :=
  match target m with Some t => t | None => pc m end.

Record fetch_inv (m : FetchDrainModel) : Prop := {
  fi_one : forall x, pending m = Some x -> offered m = None;
  fi_pc : aligned (pc m);
  fi_target : forall t, target m = Some t ->
    aligned t /\ (pending m <> None \/ offered m <> None);
  fi_pending : forall p, pending m = Some p -> target m = None -> p = pc m;
  fi_offered : forall o, offered m = Some o -> target m = None -> o = pc m
}.

Definition args_ok (a : step_args) : Prop :=
  forall t, redirect a = Some t -> aligned t.

Lemma init_fetch_inv r : aligned r -> fetch_inv (init r).
Proof. intros H. split; cbn; try discriminate. exact H. Qed.

Lemma args_guard a : bad_redirect (redirect a) = false <-> args_ok a.
Proof.
  unfold bad_redirect, args_ok, aligned, MASK32. destruct (redirect a) as [t |].
  - rewrite orb_false_iff, negb_false_iff, andb_true_iff, !Z.leb_le. unfold truthy.
    rewrite negb_false_iff, Z.eqb_eq. split.
    + intros [H1 H2] t' E. injection E as <-. lia.
    + intros H. specialize (H t eq_refl). lia.
  - split; [intros _ t E; discriminate | reflexivity].
Qed.

Lemma aligned_next p : aligned p -> aligned (Z.land (p + 4) MASK32).
Proof.
  unfold aligned. intros [Hp Hm]. split; [apply mask32_range |].
  rewrite mask32_mod. destruct (Z.ltb_spec (p + 4) (2 ^ 32)).
  - rewrite (Z.mod_small (p + 4)) by lia. rewrite <- Zplus_mod_idemp_l, Hm. reflexivity.
  - assert (p = 2 ^ 32 - 4) as ->; [| reflexivity].
    apply Z.mod_divide in Hm; [| lia]. destruct Hm as [k ->]. lia.
Qed.

(** One edge: the invariant, the delivered packet and the expected PC. *)
Lemma fetch_step_spec a m :
  fetch_inv m -> args_ok a ->
  exists m' ev, step a m = (m', Ok ev) /\ fetch_inv m' /\
    (forall p w, packet ev = Some (p, w) -> p = expected_pc m /\ redirect a = None /\
       exists r, response a = Some r /\ w = Z.land r MASK32) /\
    expected_pc m' = match redirect a, packet ev with
                     | Some t, _ => t
                     | None, Some (p, _) => Z.land (p + 4) MASK32
                     | None, None => expected_pc m
                     end.
Proof.
  intros [Hone Hpc Htgt Hpend Hoff] Ha. pose proof (proj2 (args_guard a) Ha) as Hg.
  unfold step. rewrite Hg. clear Hg. unfold expected_pc.
  destruct m as [rp pc0 off pend tgt]; cbn in *.
  destruct a as [rdy resp prdy red]; unfold args_ok in Ha; cbn in *.
  pose proof (aligned_next pc0 Hpc) as Hnext.
  destruct pend as [p |].
  - rewrite (Hone p eq_refl) in *. clear Hone.
    unfold offer. cbn. 
    destruct red as [t |]; cbn.
    + specialize (Ha t eq_refl). destruct resp as [r |]; cbn.
      * eexists _, _. split; [reflexivity |]. cbn. split; [split; cbn; try discriminate; auto |].
        split; [discriminate | reflexivity].
      * eexists _, _. split; [reflexivity |]. cbn. split; [split; cbn; try discriminate; auto |].
        { intros t' E. injection E as <-. split; [exact Ha | left; discriminate]. }
        split; [discriminate | reflexivity].
    + destruct tgt as [t |]; cbn.
      * destruct (Htgt t eq_refl) as [Hal _]. destruct resp as [r |]; cbn.
        -- eexists _, _. split; [reflexivity |]. cbn. split; [split; cbn; try discriminate; auto |].
           split; [discriminate | reflexivity].
        -- eexists _, _. split; [reflexivity |]. cbn. split; [split; cbn; try discriminate; auto |].
           split; [discriminate | reflexivity].
      * pose proof (Hpend p eq_refl eq_refl) as ->.
        destruct resp as [r |]; [destruct prdy |]; cbn.
        -- eexists _, _. split; [reflexivity |]. cbn. split; [split; cbn; try discriminate; auto |].
           split; [| reflexivity]. intros p' w E. injection E as <- <-. eauto.
        -- eexists _, _. split; [reflexivity |]. cbn. split; [split; cbn; try discriminate; auto |].
           split; [discriminate | reflexivity].
        -- eexists _, _. split; [reflexivity |]. cbn. split; [split; cbn; try discriminate; auto |].
           split; [discriminate | reflexivity].
  - clear Hone Hpend. unfold offer. cbn.
    assert (Hred : forall t, red = Some t -> aligned t) by exact Ha.
    destruct off as [o |]; cbn.
    + destruct rdy, red as [t |], tgt as [t' |]; cbn;
        (eexists _, _; split; [reflexivity |]; cbn;
         split; [split; cbn; try discriminate; eauto |]; [..]);
        try (split; [discriminate | reflexivity]).
      all: try (intros ? E; injection E as <-; split; [eauto | first [left; discriminate | right; discriminate]]).
      all: try (apply Htgt; reflexivity).
    + destruct tgt as [t' |]; cbn; [destruct (Htgt t' eq_refl) as [_ [H | H]]; contradiction |].
      destruct rdy, red as [t |]; cbn;
        (eexists _, _; split; [reflexivity |]; cbn;
         split; [split; cbn; try discriminate; eauto |]; [..]);
        try (split; [discriminate | reflexivity]).
      all: try (intros ? E; injection E as <-; split; [eauto | first [left; discriminate | right; discriminate]]).
      all: try (intros ? E; injection E as <-; reflexivity).
Qed.


(** The trace of a run: per edge, the redirect and the delivered packet. *)
Fixpoint trace (es : list step_args) (m : FetchDrainModel) : list (option Z * option (Z * Z)) :=
  match es with
  | [] => []
  | a :: es' =>
      match step a m with
      | (m', Ok ev) => (redirect a, packet ev) :: trace es' m'
      | (m', Raise _) => trace es' m'
      end
  end.

(** The specification: packets follow sequentially from [s], restart at each
    redirect target, and none is delivered on a redirect edge. *)
Fixpoint follows (s : Z) (tr : list (option Z * option (Z * Z))) : Prop :=
  match tr with
  | [] => True
  | (Some t, pkt) :: tr' => pkt = None /\ follows t tr'
  | (None, Some (p, _)) :: tr' => p = s /\ follows (Z.land (p + 4) MASK32) tr'
  | (None, None) :: tr' => follows s tr'
  end.

(** C10. Fetch refines the sequential instruction stream: from an aligned reset
    PC, whatever the ready, response and redirect inputs, the delivered packets
    are consecutive addresses restarting at the latest redirect target; nothing
    fetched on the wrong path is ever delivered. *)
Theorem fetch_refines_stream es : forall m,
  fetch_inv m -> Forall args_ok es -> follows (expected_pc m) (trace es m).
Proof.
  induction es as [| a es IH]; intros m Hm Hes; [exact I |].
  inversion Hes; subst.
  destruct (fetch_step_spec a m Hm) as (m' & ev & E & Hm' & Hpkt & Hexp); [assumption |].
  cbn [trace]. rewrite E. cbn [follows]. specialize (IH m' Hm' ltac:(assumption)).
  rewrite Hexp in IH. destruct (redirect a) as [t |] eqn:Er, (packet ev) as [[p w] |] eqn:Ep; auto.
  - destruct (Hpkt p w eq_refl) as (_ & H & _). discriminate.
  - destruct (Hpkt p w eq_refl) as (-> & _). auto.
Qed.

Definition go (r : option Z) : step_args :=
  {| request_ready := true; response := Some 0x60000000; packet_ready := true; redirect := r |}.

Lemma fetch_refines_stream_witness :
  let tr := trace [go None; go None; go (Some 64); go None; go None; go None; go None]
              (init 0xFFF00100) in
  tr <> [] /\ follows (expected_pc (init 0xFFF00100)) tr.
Proof.
  intros tr. split; [discriminate |].
  apply (fetch_refines_stream [go None; go None; go (Some 64); go None; go None; go None; go None]
           (init 0xFFF00100)).
  - apply init_fetch_inv. split; [lia | reflexivity].
  - repeat (apply List.Forall_cons;
      [intros t E; first [discriminate E | injection E as <-; split; (lia || reflexivity)] |]).
    apply List.Forall_nil.
Defined.

(** The request channel keeps its valid/ready promise across redirects: an
    offer that was not accepted is offered again, unchanged, on the next edge,
    whatever that edge's inputs and a redirect in between. *)
Theorem offer_is_stable a m m1 ev r b m2 ev2 :
  fetch_inv m -> step a m = (m1, Ok ev) -> request ev = Some r -> request_accepted ev = false ->
  step b m1 = (m2, Ok ev2) -> request ev2 = Some r.
Proof.
  intros [Hone _ _ _ _] E1 Hr Hacc E2.
  destruct m as [rp pc0 off pend tgt], a as [rdy resp prdy red], b as [rdy2 resp2 prdy2 red2]; cbn in *.
  unfold step in E1. cbn -[bad_redirect] in E1. destruct (bad_redirect red); [discriminate E1 |].
  unfold offer in E1. destruct pend as [p |]; cbn in E1.
  - (* nothing is offered while a request is pending *)
    rewrite (Hone p eq_refl) in E1.
    destruct resp, red, tgt, prdy; cbn in E1; injection E1 as <- <-; discriminate Hr.
  - destruct off as [o |]; cbn in E1.
    + destruct rdy; [destruct red, tgt; cbn in E1; injection E1 as <- <-; discriminate Hacc |].
      cbn in E1.
      assert (m1 = put {| reset_pc := rp; pc := pc0; offered := Some o; pending := None; target := tgt |}
                pc0 (Some o) None (match red with Some t => Some t | None => tgt end)
              /\ o = r) as [-> ->].
      { destruct red, tgt; cbn in E1; injection E1 as <- <-; cbn in Hr; injection Hr as <-; auto. }
      unfold step in E2. cbn -[bad_redirect] in E2. destruct (bad_redirect red2); [discriminate E2 |].
      cbn in E2. destruct (_ : option Z) as [t |] in E2; destruct rdy2; cbn in E2;
        repeat match type of E2 with context [match ?x with Some _ => _ | None => _ end] => destruct x end;
        cbn in E2; injection E2 as <- <-; reflexivity.
    + destruct tgt as [t |]; cbn in E1.
      { destruct red; cbn in E1; injection E1 as <- <-; discriminate Hr. }
      destruct rdy; [destruct red; cbn in E1; injection E1 as <- <-; discriminate Hacc |].
      cbn in E1.
      assert (m1 = put {| reset_pc := rp; pc := pc0; offered := Some pc0; pending := None; target := None |}
                pc0 (Some pc0) None red /\ pc0 = r) as [-> ->].
      { destruct red; cbn in E1; injection E1 as <- <-; cbn in Hr; injection Hr as <-; auto. }
      unfold step in E2. cbn -[bad_redirect] in E2. destruct (bad_redirect red2); [discriminate E2 |].
      cbn in E2. destruct red, rdy2; cbn in E2;
        repeat match type of E2 with context [match ?x with Some _ => _ | None => _ end] => destruct x end;
        cbn in E2; injection E2 as <- <-; reflexivity.
Qed.

Definition stall (r : option Z) : step_args :=
  {| request_ready := false; response := None; packet_ready := false; redirect := r |}.

Lemma offer_is_stable_witness :
  let m := init 0xFFF00100 in
  let m1 := fst (step (stall (Some 64)) m) in
  match snd (step (go (Some 128)) m1) with Ok ev => request ev = Some 0xFFF00100 | Raise _ => False end.
Proof.
  intros m m1.
  apply (offer_is_stable (stall (Some 64)) m m1
    {| request := Some 0xFFF00100; request_accepted := false; response_consumed := false; packet := None |}
    0xFFF00100 (go (Some 128)) (fst (step (go (Some 128)) m1))
    {| request := Some 0xFFF00100; request_accepted := true; response_consumed := false; packet := None |}).
  - apply init_fetch_inv. split; [lia | reflexivity].
  - vm_compute. reflexivity.
  - reflexivity.
  - reflexivity.
  - vm_compute. reflexivity.
Defined.

(** C11. The fetch unit makes progress: when the memory accepts and answers and
    the queue takes packets, one of any two consecutive edges consumes a
    response, so a drain towards a redirect target ends. *)
Theorem fetch_makes_progress m w1 w2 :
  fetch_inv m ->
  let a w := {| request_ready := true; response := Some w; packet_ready := true; redirect := None |} in
  exists m1 ev1 m2 ev2, step (a w1) m = (m1, Ok ev1) /\ step (a w2) m1 = (m2, Ok ev2) /\
    (response_consumed ev1 = true \/ response_consumed ev2 = true) /\ target m2 = None.
Proof.
  intros [Hone _ Htgt _ _]. destruct m as [rp pc0 off pend tgt]; cbn in *.
  destruct pend as [p |].
  - rewrite (Hone p eq_refl) in *. destruct tgt as [t |]; cbn;
      (do 4 eexists; split; [reflexivity |]; split; [reflexivity |]; cbn; auto).
  - destruct off as [o |]; destruct tgt as [t |]; cbn;
      try (do 4 eexists; split; [reflexivity |]; split; [reflexivity |]; cbn; auto).
    destruct (Htgt t eq_refl) as [_ [H | H]]; contradiction.
Qed.

Lemma fetch_makes_progress_witness :
  let a w := {| request_ready := true; response := Some w; packet_ready := true; redirect := None |} in
  exists m1 ev1 m2 ev2, step (a 1) (init 0) = (m1, Ok ev1) /\ step (a 2) m1 = (m2, Ok ev2) /\
    (response_consumed ev1 = true \/ response_consumed ev2 = true) /\ target m2 = None.
Proof.
  apply (fetch_makes_progress (init 0) 1 2). apply init_fetch_inv. split; [lia | reflexivity].
Defined.

End FetchDrain.
