(* ===== verification/TlbVectors.v ===== *)
(** * The software-loaded TLB oracle ([sim/tools/tlb_vectors.py])

    The two-way, two-bank page TLB as a dictionary of slots, its request and
    response layouts, and the directed part of the request stream. *)
From S2P Require Import Prelude.

Module tlb_vectors.

(** A Python dict with string keys and integer values, read with a default of
    zero as [pack] does. *)
Definition fields : Type := string -> Z.
Definition zeros : fields := fun _ => 0.
Definition set (k : string) (v : Z) (f : fields) : fields :=
  fun k' => if String.eqb k' k then v else f k'.

Definition layout : Type := list (string * Z).

Definition REQUEST : layout :=
  [("kind", 2); ("bank", 1); ("ea", 32); ("vsid", 24); ("pr", 1); ("ks", 1); ("kp", 1); ("n", 1);
   ("t", 1); ("write", 1); ("way", 1); ("rpn", 20); ("c", 1); ("wimg", 4); ("pp", 2)]%string.

Definition RESPONSE : layout :=
  [("kind", 2); ("bank", 1); ("ea", 32); ("allow", 1); ("hit", 1); ("miss", 1); ("pp_fault", 1);
   ("g_fault", 1); ("n_fault", 1); ("t_unsupported", 1); ("needs_c", 1); ("privileged", 1);
   ("refill_rejected", 1); ("unsupported", 1); ("invalid_input", 1); ("matched", 2);
   ("way", 1); ("pa", 32); ("wimg", 4); ("pp", 2); ("c", 1); ("r", 1)]%string.

Definition PERMISSIONS : list (list (Z * Z)) :=
  [[(1, 1); (1, 1); (1, 1); (1, 0)]; [(0, 0); (1, 0); (1, 1); (1, 0)]].

Fixpoint pack_from (l : layout) (f : fields) (acc : Z) : result Z :=
  match l with
  | [] => Ok acc
  | (name, width) :: l' =>
      let value := f name in
      if negb ((0 <=? value) && (value <? 2 ^ width)) then Raise (ValueError name)
      else pack_from l' f (acc * 2 ^ width + value)
  end.

Definition pack (l : layout) (f : fields) : result Z := pack_from l f 0.

(** [request]: the keyword arguments over zeros, range checked. *)
Definition request (kw : list (string * Z)) : result fields :=
  let r := foldl (fun f p => set p.1 p.2 f) zeros kw in
  let! _ := pack REQUEST r in
  Ok r.

(** [(bank, index, way)] *)
Definition slot : Type := Z * Z * Z.

Record entry : Type := { key : Z * Z; e_rpn : Z; e_c : Z; e_wimg : Z; e_pp : Z }.

Record Model : Type := {
  sets : Z;
  slots : gmap slot entry;
  lru : gmap (Z * Z) Z
}.

Definition init (sets : Z) : Model := {| sets := sets; slots := ∅; lru := ∅ |}.

Definition page_of (q : fields) : Z := (q "ea"%string mod 0x10000000) / 4096.
Definition key_of (q : fields) : Z * Z := (q "vsid"%string, page_of q).

Definition slot_way (s : slot) : Z := s.2.
Definition slot_index (s : slot) : Z := s.1.2.
Definition slot_bank (s : slot) : Z := s.1.1.

(** The slots of the bank that hold the key, in dictionary order. *)
Definition matches (m : Model) (q : fields) : list (slot * entry) :=
  base.filter (fun p : slot * entry => slot_bank p.1 = q "bank"%string /\ key p.2 = key_of q)
    (map_to_list (slots m)).

Definition perm (key_bit pp write : Z) : Z :=
  match PERMISSIONS !! Z.to_nat key_bit with
  | Some row => match row !! Z.to_nat pp with
                | Some (r, w) => if truthy write then w else r
                | None => 0
                end
  | None => 0
  end.

Definition load (m : Model) (q : fields) (s : fields) : Model * fields :=
  if truthy (q "pr"%string) then (m, set "privileged" 1 s)
  else
    let index := page_of q mod sets m in
    let kept := foldl (fun d p => if negb (slot_way p.1 =? q "way"%string) then delete p.1 d else d)
                  (slots m) (matches m q) in
    ({| sets := sets m;
        slots := <[(q "bank"%string, index, q "way"%string) :=
                     {| key := key_of q; e_rpn := q "rpn"%string; e_c := q "c"%string;
                        e_wimg := q "wimg"%string; e_pp := q "pp"%string |}]> kept;
        lru := <[(q "bank"%string, index) := 1 - q "way"%string]> (lru m) |}, s).

Definition invalidate (m : Model) (q : fields) (s : fields) : Model * fields :=
  if truthy (q "pr"%string) then (m, set "privileged" 1 s)
  else
    let index := page_of q mod sets m in
    ({| sets := sets m;
        slots := base.filter (fun p : slot * entry => slot_index p.1 <> index) (slots m);
        lru := lru m |}, s).

(** A hit: the response fields of the entry, then the access decision. *)
Definition hit (m : Model) (q s : fields) (sl : slot) (e : entry) : fields :=
  let s := set "r" 1 (set "way" (slot_way sl) (set "matched" (2 ^ slot_way sl) (set "hit" 1 s))) in
  let s := set "pp" (e_pp e) (set "wimg" (e_wimg e) (set "c" (e_c e) s)) in
  let key_bit := if truthy (q "pr"%string) then q "kp"%string else q "ks"%string in
  if negb (truthy (perm key_bit (e_pp e) (q "write"%string))) then set "pp_fault" 1 s
  else if negb (truthy (q "bank"%string)) && truthy (e_wimg e mod 2) then set "g_fault" 1 s
  else if truthy (q "write"%string) && negb (truthy (e_c e)) then set "needs_c" 1 s
  else set "pa" (4096 * e_rpn e + q "ea"%string mod 4096) (set "allow" 1 s).

Definition lookup (m : Model) (q : fields) (s : fields) : result (Model * fields) :=
  let index := page_of q mod sets m in
  if negb (truthy (q "bank"%string)) && truthy (q "write"%string)
  then Ok (m, set "invalid_input" 1 s)
  else if truthy (q "t"%string) then Ok (m, set "t_unsupported" 1 s)
  else if negb (truthy (q "bank"%string)) && truthy (q "n"%string) then Ok (m, set "n_fault" 1 s)
  else match matches m q with
  | [] =>
      Ok (m, set "way" (default 0 (lru m !! (q "bank"%string, index))) (set "miss" 1 s))
  | [(sl, e)] =>
      Ok ({| sets := sets m; slots := slots m;
             lru := <[(q "bank"%string, index) := 1 - slot_way sl]> (lru m) |}, hit m q s sl e)
  | _ => Raise AssertionError
  end.

Definition accept (m : Model) (q : fields) : result (Model * fields) :=
  let s := set "ea" (q "ea"%string) (set "bank" (q "bank"%string) (set "kind" (q "kind"%string) zeros)) in
  if q "kind"%string =? 1 then Ok (load m q s)
  else if q "kind"%string =? 2 then Ok (invalidate m q s)
  else if q "kind"%string =? 3 then Ok (m, set "unsupported" 1 s)
  else lookup m q s.

(** ** The directed request stream (the part before the random traffic) *)
Definition prod2 {A B} (l : list A) (k : list B) : list (A * B) := list_prod l k.

Open Scope string_scope.

Definition fill_requests (sets : Z) : list (list (string * Z)) :=
  bank ← seqZ 0 2; index ← seqZ 0 sets; way ← seqZ 0 2;
  let ea := (index + sets * way) * 4096 in
  [[("kind", 1); ("bank", bank); ("ea", ea); ("vsid", 0x123456); ("way", way);
    ("rpn", 0x80000 + index + sets * way + 2 * sets * bank); ("c", 1); ("pp", 2)]].

Definition probe_requests (sets : Z) : list (list (string * Z)) :=
  bank ← seqZ 0 2; index ← seqZ 0 sets; way ← seqZ 0 2; offset ← [0; 1; 4095];
  [[("bank", bank); ("ea", (index + sets * way) * 4096 + offset); ("vsid", 0x123456)]].

Definition alias_requests (sets : Z) : list (list (string * Z)) :=
  segment ← seqZ 0 16; bank ← seqZ 0 2; way ← seqZ 0 2;
  [[("bank", bank); ("ea", segment * 0x10000000 + way * sets * 4096 + 0xfff); ("vsid", 0x123456)];
   [("bank", bank); ("ea", segment * 0x10000000 + way * sets * 4096); ("vsid", 0x123457)]].

Definition invalidate_requests (sets : Z) : list (list (string * Z)) :=
  index ← seqZ 0 sets;
  [("kind", 2); ("bank", index mod 2); ("ea", 0xfffff000 - index * 4096); ("vsid", 0xffffff)]
  :: (bank ← seqZ 0 2; way ← seqZ 0 2;
      [[("bank", bank); ("ea", (sets - 1 - index + sets * way) * 4096); ("vsid", 0x123456)];
       [("bank", bank); ("ea", sets * way * 4096); ("vsid", 0x123456)]]).

Definition permission_requests : list (list (string * Z)) :=
  bank ← seqZ 0 2; pp ← seqZ 0 4; c ← seqZ 0 2; wimg ← seqZ 0 16;
  [("kind", 1); ("bank", bank); ("ea", 0x23456000); ("vsid", 0xabcdef);
   ("rpn", 0xfffff); ("pp", pp); ("c", c); ("wimg", wimg)]
  :: (pr ← seqZ 0 2; ks ← seqZ 0 2; kp ← seqZ 0 2; write ← seqZ 0 2;
      [[("bank", bank); ("ea", 0x23456fff); ("vsid", 0xabcdef);
        ("pr", pr); ("ks", ks); ("kp", kp); ("write", write)]]).

Definition precedence_requests : list (list (string * Z)) :=
  bank ← seqZ 0 2;
  ([[("kind", 2); ("ea", 0x55000)];
   [("kind", 1); ("bank", bank); ("ea", 0x55000); ("vsid", 7); ("rpn", 1); ("pp", 2)]]
  ++ (kind ← [1; 2; 3]; pr ← seqZ 0 2; way ← seqZ 0 2;
      [[("kind", kind); ("bank", bank); ("ea", 0x55000); ("vsid", 7); ("pr", pr); ("way", way);
        ("rpn", 2); ("pp", 1); ("c", 1)];
       [("bank", bank); ("ea", 0x55001); ("vsid", 7)]])
  ++ (t ← seqZ 0 2; n ← seqZ 0 2; write ← seqZ 0 2; vsid ← [7; 8];
      [[("bank", bank); ("ea", 0x55000); ("vsid", vsid); ("t", t); ("n", n); ("write", write)]]))%list.

Definition directed_requests (sets : Z) : list (list (string * Z)) :=
  (fill_requests sets ++ probe_requests sets ++ alias_requests sets ++ invalidate_requests sets
  ++ permission_requests ++ precedence_requests)%list.

Close Scope string_scope.

End tlb_vectors.

Section Pack.
Import tlb_vectors.

Definition total_width (l : layout) : Z := foldr (fun p w => p.2 + w) 0 l.

Definition in_layout (l : layout) (f : fields) : Prop :=
  Forall (fun p => 0 <= f p.1 < 2 ^ p.2) l.

(** The fields of a packed word, first field highest. *)
Fixpoint unpack (l : layout) (r : Z) : list Z :=
  match l with
  | [] => []
  | (_, width) :: l' => r / 2 ^ total_width l' :: unpack l' (r mod 2 ^ total_width l')
  end.

Lemma total_width_nonneg l : Forall (fun p => 0 <= p.2) l -> 0 <= total_width l.
Proof.
  induction 1 as [| [n w] l Hw _ IH]; [cbn; lia |].
  change (total_width ((n, w) :: l)) with (w + total_width l). cbn in Hw. lia.
Qed.

Lemma pack_from_ok l f : forall acc,
  in_layout l f -> exists r, pack_from l f acc = Ok r.
Proof.
  induction l as [| [n w] l IH]; intros acc H; [eexists; reflexivity |].
  inversion H as [| ? ? Hn Hl]; subst. cbn in Hn |- *.
  assert ((0 <=? f n) && (f n <? 2 ^ w) = true) as -> by (apply andb_true_iff; rewrite Z.leb_le, Z.ltb_lt; lia).
  cbn. apply IH, Hl.
Qed.

Lemma pack_from_inv l f : forall acc r,
  Forall (fun p => 0 <= p.2) l -> pack_from l f acc = Ok r ->
  in_layout l f /\ exists v, r = acc * 2 ^ total_width l + v /\ 0 <= v < 2 ^ total_width l /\
    unpack l v = map (fun p => f p.1) l.
Proof.
  induction l as [| [n w] l IH]; intros acc r Hw E.
  - cbn in E. injection E as <-. split; [constructor |]. exists 0. cbn. repeat split; lia.
  - inversion Hw as [| ? ? Hn Hl]; subst. cbn in Hn, E.
    destruct ((0 <=? f n) && (f n <? 2 ^ w)) eqn:Er; [| discriminate].
    cbn in E. bool_prop. destruct (IH _ _ Hl E) as (Hin & v & Hr & Hv & Hu).
    split; [constructor; [cbn; lia | exact Hin] |].
    pose proof (total_width_nonneg l Hl). assert (0 < 2 ^ total_width l) by (apply Z.pow_pos_nonneg; lia).
    exists (f n * 2 ^ total_width l + v). cbn [total_width foldr snd]. fold (total_width l).
    rewrite Z.pow_add_r by lia. split; [rewrite Hr; ring |]. split; [nia |].
    cbn [unpack map fst]. f_equal.
    + rewrite Z.div_add_l, Z.div_small by lia. lia.
    + rewrite <- Hu. f_equal. rewrite Z.add_comm, Z.mod_add, Z.mod_small by lia. reflexivity.
Qed.

Lemma pack_ok l f : in_layout l f -> exists r, pack l f = Ok r.
Proof. apply pack_from_ok. Qed.

Lemma pack_inv l f r :
  Forall (fun p => 0 <= p.2) l -> pack l f = Ok r ->
  in_layout l f /\ 0 <= r < 2 ^ total_width l /\ unpack l r = map (fun p => f p.1) l.
Proof.
  intros Hw E. destruct (pack_from_inv l f 0 r Hw E) as (Hin & v & -> & Hv & Hu). auto.
Qed.

Lemma layouts_nonneg : Forall (fun p => 0 <= p.2) REQUEST /\ Forall (fun p => 0 <= p.2) RESPONSE.
Proof. split; repeat constructor; cbn; discriminate. Qed.

Lemma in_layout_field l f n w : in_layout l f -> In (n, w) l -> 0 <= f n < 2 ^ w.
Proof. unfold in_layout. rewrite List.Forall_forall. intros H Hin. exact (H _ Hin). Qed.

End Pack.

Section Tlb.
Import tlb_vectors.

Definition valid (q : fields) : Prop := in_layout REQUEST q.

Ltac field_of H name :=
  let w := eval vm_compute in
    (match List.find (fun p => String.eqb p.1 name) REQUEST with Some p => p.2 | None => 0 end) in
  let Hf := fresh "Hf" in
  pose proof (in_layout_field REQUEST _ name w H ltac:(cbn; tauto)) as Hf.

Record entry_ok (e : entry) : Prop := {
  eo_rpn : 0 <= e_rpn e < 2 ^ 20;
  eo_c : 0 <= e_c e < 2 ^ 1;
  eo_wimg : 0 <= e_wimg e < 2 ^ 4;
  eo_pp : 0 <= e_pp e < 2 ^ 2
}.

(** The dictionary is a set-associative TLB: each slot's index is its page's
    set, and no bank holds one virtual page twice. *)
Record tlb_inv (m : Model) : Prop := {
  ti_sets : 1 <= sets m;
  ti_slot : forall s e, slots m !! s = Some e ->
    slot_index s = (key e).2 mod sets m /\ 0 <= slot_way s < 2 /\ entry_ok e;
  ti_unique : forall s1 s2 e1 e2, slots m !! s1 = Some e1 -> slots m !! s2 = Some e2 ->
    slot_bank s1 = slot_bank s2 -> key e1 = key e2 -> s1 = s2;
  ti_lru : forall k v, lru m !! k = Some v -> 0 <= v < 2
}.

Lemma elem_matches m q s e :
  (s, e) ∈ matches m q <->
  slots m !! s = Some e /\ slot_bank s = q "bank"%string /\ key e = key_of q.
Proof.
  unfold matches. rewrite list_elem_of_filter, elem_of_map_to_list. cbn. tauto.
Qed.

Lemma NoDup_all_equal {A} (l : list A) :
  NoDup l -> (forall x y, x ∈ l -> y ∈ l -> x = y) -> l = [] \/ exists x, l = [x].
Proof.
  intros Hnd Heq. destruct l as [| x [| y l]]; [auto | eauto |].
  assert (x = y) as -> by (apply Heq; [left | right; left]).
  apply NoDup_cons in Hnd. destruct Hnd as [H _]. exfalso. apply H. left.
Qed.

(** The dictionary oracle's own assertion: at most one slot matches. *)
Lemma matches_at_most_one m q :
  tlb_inv m -> matches m q = [] \/ exists p, matches m q = [p].
Proof.
  intros [_ _ Hu _]. apply NoDup_all_equal.
  - unfold matches. apply NoDup_filter, NoDup_map_to_list.
  - intros [s1 e1] [s2 e2] H1 H2. apply elem_matches in H1, H2.
    destruct H1 as (E1 & B1 & K1), H2 as (E2 & B2 & K2).
    assert (s1 = s2) as -> by (eapply Hu; eauto; congruence). congruence.
Qed.

(** What the load's deletion loop leaves. *)
Lemma kept_lookup (way : Z) l : forall (d : gmap slot entry) s,
  (foldl (fun d (p : slot * entry) => if negb (slot_way p.1 =? way) then delete p.1 d else d) d l) !! s =
  if existsb (fun p => bool_decide (p.1 = s) && negb (slot_way p.1 =? way)) l then None else d !! s.
Proof.
  induction l as [| [u e] l IH]; intros d s; [reflexivity |]. cbn [foldl existsb fst].
  rewrite IH. clear IH. case_bool_decide as Hu; cbn [andb orb].
  - subst u. destruct (slot_way s =? way); cbn [negb orb].
    + reflexivity.
    + rewrite lookup_delete_eq. destruct (existsb _ l); reflexivity.
  - destruct (slot_way u =? way); cbn [negb]; [reflexivity |].
    destruct (existsb _ l); [reflexivity |]. apply lookup_delete_ne. exact Hu.
Qed.

Lemma slot_eta (s : slot) : s = (slot_bank s, slot_index s, slot_way s).
Proof. destruct s as [[]]. reflexivity. Qed.

(** After a load no other slot of the bank holds the page. *)
Lemma kept_no_match m q s e :
  tlb_inv m -> valid q ->
  foldl (fun d (p : slot * entry) => if negb (slot_way p.1 =? q "way"%string) then delete p.1 d else d)
    (slots m) (matches m q) !! s = Some e ->
  slots m !! s = Some e /\
  (slot_bank s = q "bank"%string -> key e = key_of q ->
   s = (q "bank"%string, page_of q mod sets m, q "way"%string)).
Proof.
  intros [_ Hs _ _] Hq E. rewrite kept_lookup in E.
  destruct (existsb _ _) eqn:Ex; [discriminate |]. split; [exact E |]. intros Hb Hk.
  assert (Hin : (s, e) ∈ matches m q) by (apply elem_matches; auto).
  destruct (Hs s e E) as (Hi & _ & _). rewrite (slot_eta s), Hb, Hi, Hk. f_equal.
  destruct (slot_way s =? q "way"%string) eqn:Ew; [apply Z.eqb_eq; exact Ew |].
  exfalso. assert (existsb (fun p : slot * entry => bool_decide (p.1 = s) && negb (slot_way p.1 =? q "way"%string))
    (matches m q) = true); [| congruence].
  apply existsb_exists. exists (s, e). split; [apply list_elem_of_In; exact Hin |].
  cbn. rewrite bool_decide_true by reflexivity. rewrite Ew. reflexivity.
Qed.

Lemma load_inv m q s : tlb_inv m -> valid q -> tlb_inv (fst (load m q s)).
Proof.
  intros Hm Hq. unfold load. destruct (truthy (q "pr"%string)); [exact Hm |].
  pose proof Hm as [Hsets Hs Hu Hl].
  field_of Hq "way"%string. field_of Hq "rpn"%string. field_of Hq "c"%string.
  field_of Hq "wimg"%string. field_of Hq "pp"%string.
  split; cbn [fst sets slots lru].
  - exact Hsets.
  - intros t e E. apply lookup_insert_Some in E. destruct E as [[<- <-] | [_ E]].
    + cbn. split; [reflexivity |]. split; [lia |]. split; assumption.
    + apply kept_no_match in E; [| assumption..]. apply Hs, E.
  - intros s1 s2 e1 e2 E1 E2 Hb Hk. apply lookup_insert_Some in E1, E2.
    destruct E1 as [[<- <-] | [Hn1 E1]], E2 as [[<- <-] | [Hn2 E2]].
    + reflexivity.
    + apply kept_no_match in E2; [| assumption..]. symmetry. apply E2; [symmetry; exact Hb | symmetry; exact Hk].
    + apply kept_no_match in E1; [| assumption..]. apply E1; assumption.
    + apply kept_no_match in E1, E2; [| assumption..]. eapply Hu; [apply E1 | apply E2 | |]; assumption.
  - intros k v E. apply lookup_insert_Some in E. destruct E as [[_ <-] | [_ E]]; [lia | eauto].
Qed.

Lemma invalidate_inv m q s : tlb_inv m -> tlb_inv (fst (invalidate m q s)).
Proof.
  intros Hm. unfold invalidate. destruct (truthy (q "pr"%string)); [exact Hm |].
  pose proof Hm as [Hsets Hs Hu Hl]. split; cbn [fst sets slots lru]; auto.
  - intros t e E. apply map_lookup_filter_Some in E. apply Hs, E.
  - intros s1 s2 e1 e2 E1 E2. apply map_lookup_filter_Some in E1, E2. apply Hu; tauto.
Qed.

Lemma lookup_spec m q s :
  tlb_inv m -> exists m' s', lookup m q s = Ok (m', s') /\ tlb_inv m' /\ slots m' = slots m /\ sets m' = sets m.
Proof.
  intros Hm. unfold lookup. repeat case_if; try (do 2 eexists; split; [reflexivity |]; auto).
  destruct (matches_at_most_one m q Hm) as [-> | [[sl e] Em]]; [eauto 6 |].
  rewrite Em. do 2 eexists. split; [reflexivity |]. split; [| auto].
  assert (Hin : (sl, e) ∈ matches m q) by (rewrite Em; left). apply elem_matches in Hin.
  pose proof Hm as [Hsets Hs Hu Hl]. destruct (Hs sl e (proj1 Hin)) as (_ & Hw & _).
  split; cbn; auto. intros k v E2. apply lookup_insert_Some in E2.
  destruct E2 as [[_ <-] | [_ E2]]; [lia | eauto].
Qed.

Lemma accept_inv m q : tlb_inv m -> valid q -> exists m' s, accept m q = Ok (m', s) /\ tlb_inv m'.
Proof.
  intros Hm Hq. unfold accept. case_if; [| case_if; [| case_if]].
  - eexists _, _. rewrite (surjective_pairing (load _ _ _)). split; [reflexivity |].
    apply load_inv; assumption.
  - eexists _, _. rewrite (surjective_pairing (invalidate _ _ _)). split; [reflexivity |].
    apply invalidate_inv. exact Hm.
  - eauto.
  - edestruct (lookup_spec m q) as (m' & s & E' & Hi & _); [exact Hm |]. rewrite E'. eauto.
Qed.

End Tlb.

Section TlbTheorems.
Import tlb_vectors.

Open Scope string_scope.

(** The outcome flags of a lookup. *)
Definition outcome_sum (s : fields) : Z :=
  s "allow" + s "miss" + s "pp_fault" + s "g_fault" + s "n_fault" + s "t_unsupported"
  + s "needs_c" + s "invalid_input".

Lemma mod_range x n : 0 < n -> 0 <= x mod n < n.
Proof. apply Z.mod_pos_bound. Qed.

(** Each field of a chain of updates is read off by computation. *)
Ltac response_fields :=
  repeat (apply List.Forall_cons; [cbn -[Z.pow Z.mul Z.add Z.modulo]; unfold zeros; try lia |]); apply List.Forall_nil.

Lemma pow2_way w : 0 <= w < 2 -> 0 <= 2 ^ w < 4.
Proof. intros H. assert (w = 0 \/ w = 1) as [-> | ->] by lia; cbn; lia. Qed.

Section Responses.
Context (q s : fields).
Context (Hkind : 0 <= q "kind" < 4) (Hbank : 0 <= q "bank" < 2) (Hea : 0 <= q "ea" < 2 ^ 32).
Let s0 : fields := set "ea" (q "ea") (set "bank" (q "bank") (set "kind" (q "kind") zeros)).

Lemma base_response : in_layout RESPONSE s0.
Proof using Hkind Hbank Hea. unfold s0, in_layout, RESPONSE. response_fields. Qed.

Lemma flag_response name :
  In name ["invalid_input"; "t_unsupported"; "n_fault"; "privileged"; "unsupported"] ->
  in_layout RESPONSE (set name 1 s0).
Proof using Hkind Hbank Hea.
  intros Hn. repeat destruct Hn as [<- | Hn]; try destruct Hn;
    unfold s0, in_layout, RESPONSE; response_fields.
Qed.

Lemma miss_response w : 0 <= w < 2 -> in_layout RESPONSE (set "way" w (set "miss" 1 s0)).
Proof using Hkind Hbank Hea. intros Hw. unfold s0, in_layout, RESPONSE. response_fields. Qed.

Lemma hit_response m sl e :
  entry_ok e -> 0 <= slot_way sl < 2 -> in_layout RESPONSE (hit m q s0 sl e).
Proof using Hkind Hbank Hea.
  intros [Hr Hc Hw Hp] Hway. pose proof (pow2_way _ Hway) as Hpow.
  pose proof (mod_range (q "ea") 4096 ltac:(lia)) as Hoff.
  unfold hit. repeat case_if; unfold s0, in_layout, RESPONSE; response_fields.
Qed.

Lemma hit_outcome m sl e : outcome_sum (hit m q s0 sl e) = 1.
Proof using. unfold outcome_sum, hit. repeat case_if; reflexivity. Qed.
End Responses.

(** C12. The TLB oracle is total and consistent: on a set-associative state and
    a well-formed request [accept] never fails its assertion of a single match
    and keeps the state set-associative (each page in its set, at most once per
    bank); the response fits its packed layout, from which every field can be
    read back; and a lookup has exactly one outcome. *)
Theorem tlb_accept_correct m q :
  tlb_inv m -> valid q ->
  exists m' s r, accept m q = Ok (m', s) /\ tlb_inv m' /\
    pack RESPONSE s = Ok r /\ 0 <= r < 2 ^ total_width RESPONSE /\
    unpack RESPONSE r = map (fun p => s p.1) RESPONSE /\
    (q "kind" = 0 -> outcome_sum s = 1).
Proof.
  intros Hm Hq. destruct (accept_inv m q Hm Hq) as (m' & s & E & Hm').
  pose proof (in_layout_field REQUEST q "kind" 2 Hq ltac:(cbn; tauto)) as Hkind.
  pose proof (in_layout_field REQUEST q "bank" 1 Hq ltac:(cbn; tauto)) as Hbank.
  pose proof (in_layout_field REQUEST q "ea" 32 Hq ltac:(cbn; tauto)) as Hea.
  assert (Hs : in_layout RESPONSE s /\ (q "kind" = 0 -> outcome_sum s = 1)).
  { unfold accept in E. set (s0 := set "ea" _ _) in E.
    assert (Hb : in_layout RESPONSE s0) by (apply base_response; assumption).
    assert (Hfl : forall name, In name ["invalid_input"; "t_unsupported"; "n_fault"; "privileged"; "unsupported"] ->
      in_layout RESPONSE (set name 1 s0)) by (intros; apply flag_response; assumption).
    destruct (Z.eqb_spec (q "kind") 1).
    { split; [| lia]. unfold load in E. destruct (truthy _); injection E as _ <-; [apply Hfl; cbn; tauto | exact Hb]. }
    destruct (Z.eqb_spec (q "kind") 2).
    { split; [| lia]. unfold invalidate in E. destruct (truthy _); injection E as _ <-; [apply Hfl; cbn; tauto | exact Hb]. }
    destruct (Z.eqb_spec (q "kind") 3).
    { split; [| lia]. injection E as _ <-. apply Hfl; cbn; tauto. }
    unfold lookup in E.
    destruct (_ && truthy (q "write")); [injection E as _ <-; split; [apply Hfl; cbn; tauto | reflexivity] |].
    destruct (truthy (q "t")); [injection E as _ <-; split; [apply Hfl; cbn; tauto | reflexivity] |].
    destruct (_ && truthy (q "n")); [injection E as _ <-; split; [apply Hfl; cbn; tauto | reflexivity] |].
    destruct (matches_at_most_one m q Hm) as [Em | [[sl e] Em]]; rewrite Em in E; injection E as _ <-.
    - split; [| reflexivity]. apply miss_response; try assumption.
      destruct (lru m !! _) as [v |] eqn:El; cbn; [exact (ti_lru m Hm _ _ El) | lia].
    - assert (Hin : (sl, e) ∈ matches m q) by (rewrite Em; left). apply elem_matches in Hin.
      destruct (ti_slot m Hm sl e (proj1 Hin)) as (_ & Hw & He).
      split; [apply hit_response; assumption | intros _; apply hit_outcome]. }
  destruct (pack_ok RESPONSE s (proj1 Hs)) as [r Er].
  destruct (pack_inv RESPONSE s r (proj2 layouts_nonneg) Er) as (_ & Hr & Hu).
  exists m', s, r. exact (conj E (conj Hm' (conj Er (conj Hr (conj Hu (proj2 Hs)))))).
Qed.

Lemma init_tlb_inv n : 1 <= n -> tlb_inv (init n).
Proof.
  intros Hn. split; cbn; auto; intros *; rewrite ?lookup_empty; discriminate.
Qed.

(** A request made of literals. *)
Definition load_request : fields :=
  set "kind" 1 (set "ea" 0x23456000 (set "vsid" 7 (set "rpn" 0x80000 (set "c" 1 (set "pp" 2 zeros))))).
Definition read_request : fields := set "bank" 1 (set "ea" 0xF3456123 (set "vsid" 7 zeros)).

Ltac literal_request :=
  repeat (apply List.Forall_cons; [split; [vm_compute; discriminate | vm_compute; reflexivity] |]);
  apply List.Forall_nil.

Lemma tlb_accept_correct_witness :
  exists m' s r, accept (init 32) load_request = Ok (m', s) /\ tlb_inv m' /\
    pack RESPONSE s = Ok r /\ 0 <= r < 2 ^ total_width RESPONSE /\
    unpack RESPONSE r = map (fun p => s p.1) RESPONSE /\
    (load_request "kind" = 0 -> outcome_sum s = 1).
Proof.
  apply (tlb_accept_correct (init 32) load_request); [apply init_tlb_inv; lia | literal_request].
Defined.

(** A run of lookups; it changes only replacement state. *)
Inductive lookups : Model -> Model -> Prop :=
| lookups_refl m : lookups m m
| lookups_step m q m1 s m2 :
    q "kind" = 0 -> accept m q = Ok (m1, s) -> lookups m1 m2 -> lookups m m2.

Lemma lookups_slots m m' : lookups m m' -> tlb_inv m -> tlb_inv m' /\ slots m' = slots m /\ sets m' = sets m.
Proof.
  induction 1 as [| m q m1 s m2 Hk E _ IH]; [auto |]. intros Hm.
  unfold accept in E. rewrite Hk in E. cbn [Z.eqb] in E.
  edestruct (lookup_spec m q) as (m1' & s' & E' & Hm1 & Es & En); [exact Hm |].
  rewrite E' in E. injection E as <- <-. destruct (IH Hm1) as (H1 & H2 & H3).
  split; [exact H1 |]. split; congruence.
Qed.

Lemma matches_single m q sl e :
  tlb_inv m -> slots m !! sl = Some e -> slot_bank sl = q "bank" -> key e = key_of q ->
  matches m q = [(sl, e)].
Proof.
  intros Hm E Hb Hk. assert (Hin : (sl, e) ∈ matches m q) by (apply elem_matches; auto).
  destruct (matches_at_most_one m q Hm) as [Em | [p Em]]; rewrite Em in Hin.
  - inversion Hin.
  - apply list_elem_of_singleton in Hin. rewrite Em, Hin. reflexivity.
Qed.

(** The access is not answered before the dictionary is consulted. *)
Definition reaches_lookup (q : fields) : bool :=
  negb (negb (truthy (q "bank")) && truthy (q "write")) && negb (truthy (q "t"))
  && negb (negb (truthy (q "bank")) && truthy (q "n")).

(** PEM table 7-21 with the guarded and changed-bit conditions. *)
Definition permitted (q : fields) (c wimg pp : Z) : bool :=
  truthy (perm (if truthy (q "pr") then q "kp" else q "ks") pp (q "write"))
  && (truthy (q "bank") || negb (truthy (wimg mod 2)))
  && (negb (truthy (q "write")) || truthy c).

(** What is loaded is found: after a supervisor load of a page, any lookups
    in between and any segment alias, a lookup of that page in the same bank
    hits in the loaded way with the loaded attributes; it is allowed exactly
    when the permission table, the guarded bit and the changed bit say so, and
    then translates to the loaded page number and the page offset. *)
Theorem load_then_lookup_hits m q m1 s1 m2 a :
  tlb_inv m -> valid q -> q "kind" = 1 -> q "pr" = 0 -> accept m q = Ok (m1, s1) ->
  lookups m1 m2 ->
  valid a -> a "kind" = 0 -> a "bank" = q "bank" -> key_of a = key_of q -> reaches_lookup a = true ->
  exists m3 s, accept m2 a = Ok (m3, s) /\
    s "hit" = 1 /\ s "way" = q "way" /\ s "c" = q "c" /\ s "wimg" = q "wimg" /\ s "pp" = q "pp" /\
    s "allow" = Z.b2z (permitted a (q "c") (q "wimg") (q "pp")) /\
    s "pa" = (if permitted a (q "c") (q "wimg") (q "pp") then 4096 * q "rpn" + a "ea" mod 4096 else 0).
Proof.
  intros Hm Hq Hk Hpr E1 Hl Ha Hka Hb Hkey Hreach.
  destruct (accept_inv m q Hm Hq) as (m1' & s1' & E1' & Hm1).
  assert (m1' = m1) as -> by congruence.
  destruct (lookups_slots m1 m2 Hl Hm1) as (Hm2 & Hslots & Hsets).
  unfold accept in E1. rewrite Hk in E1. cbn [Z.eqb Pos.eqb] in E1.
  unfold load in E1. rewrite Hpr in E1. injection E1 as <- _. cbn [slots sets] in Hslots, Hsets.
  set (sl := (q "bank", page_of q mod sets m, q "way")) in *.
  set (e := {| key := key_of q; e_rpn := q "rpn"; e_c := q "c"; e_wimg := q "wimg"; e_pp := q "pp" |}) in *.
  assert (Em : matches m2 a = [(sl, e)]).
  { apply matches_single; [exact Hm2 | rewrite Hslots; apply lookup_insert_eq | |]; cbn; congruence. }
  unfold accept. rewrite Hka. cbn [Z.eqb].
  unfold reaches_lookup in Hreach. rewrite !andb_true_iff, !negb_true_iff in Hreach.
  destruct Hreach as [[H1 H2] H3]. unfold lookup. rewrite H1, H2, H3, Em.
  do 2 eexists. split; [reflexivity |].
  unfold permitted, hit. cbn [e_pp e_wimg e_c e_rpn e].
  destruct (truthy (perm _ _ _)); cbn [negb andb]; [| repeat split].
  destruct (truthy (a "bank")), (truthy (q "wimg" mod 2)); cbn [negb andb orb]; try (repeat split);
    destruct (truthy (a "write")), (truthy (q "c")); cbn [negb andb orb]; repeat split.
Qed.

Lemma load_then_lookup_hits_witness :
  let q := set "bank" 1 load_request in
  exists m1 s1 m3 s, accept (init 32) q = Ok (m1, s1) /\ accept m1 read_request = Ok (m3, s) /\
    s "hit" = 1 /\ s "way" = q "way" /\ s "c" = q "c" /\ s "wimg" = q "wimg" /\ s "pp" = q "pp" /\
    s "allow" = Z.b2z (permitted read_request (q "c") (q "wimg") (q "pp")) /\
    s "pa" = (if permitted read_request (q "c") (q "wimg") (q "pp")
              then 4096 * q "rpn" + read_request "ea" mod 4096 else 0).
Proof.
  intros q.
  set (s1 := set "ea" (q "ea") (set "bank" (q "bank") (set "kind" (q "kind") zeros))).
  set (m1 := fst (load (init 32) q s1)).
  destruct (load_then_lookup_hits (init 32) q m1 s1 m1 read_request) as (m3 & s & H);
    [apply init_tlb_inv; lia | literal_request | reflexivity | reflexivity | reflexivity
    | apply lookups_refl | literal_request | reflexivity | reflexivity | reflexivity | reflexivity |].
  exists m1, s1, m3, s. split; [reflexivity | exact H].
Defined.

(** Invalidation is exactly one set: a supervisor invalidate empties the
    addressed index in both banks and both ways, whatever the VSID, and leaves
    every other slot as it was; a user one changes nothing. *)
Theorem invalidate_clears_set m q m1 s1 :
  tlb_inv m -> valid q -> q "kind" = 2 -> accept m q = Ok (m1, s1) ->
  if truthy (q "pr") then m1 = m /\ s1 "privileged" = 1
  else (forall a, page_of a mod sets m = page_of q mod sets m -> matches m1 a = []) /\
       (forall s, slot_index s <> page_of q mod sets m -> slots m1 !! s = slots m !! s).
Proof.
  intros Hm Hq Hk E. unfold accept in E. rewrite Hk in E. cbn [Z.eqb Pos.eqb] in E.
  unfold invalidate in E. destruct (truthy (q "pr")); injection E as <- <-; [split; reflexivity |].
  split.
  - intros a Ha. destruct (matches _ a) as [| [sl e] l] eqn:Em; [reflexivity |]. exfalso.
    assert (Hin : (sl, e) ∈ (sl, e) :: l) by left. rewrite <- Em in Hin. apply elem_matches in Hin.
    destruct Hin as (Es & Hb & Hkey). cbn [slots] in Es. apply map_lookup_filter_Some in Es.
    destruct Es as [Es Hi]. destruct (ti_slot m Hm sl e Es) as (Hidx & _).
    apply Hi. cbn. rewrite Hidx, Hkey. exact Ha.
  - intros sl Hi. cbn [slots]. destruct (slots m !! sl) as [e |] eqn:Es.
    + apply map_lookup_filter_Some. split; [exact Es | exact Hi].
    + apply map_lookup_filter_None. left. exact Es.
Qed.

Lemma invalidate_clears_set_witness :
  let q := set "kind" 2 (set "ea" 0x5000 zeros) in
  let m := fst (load (init 16) load_request zeros) in
  let m1 := fst (invalidate m q zeros) in
  if truthy (q "pr") then m1 = m /\ zeros "privileged" = 1
  else (forall a, page_of a mod sets m = page_of q mod sets m -> matches m1 a = []) /\
       (forall s, slot_index s <> page_of q mod sets m -> slots m1 !! s = slots m !! s).
Proof.
  intros q m m1.
  apply (invalidate_clears_set m q m1
    (set "ea" (q "ea") (set "bank" (q "bank") (set "kind" (q "kind") zeros)))).
  - apply load_inv; [apply init_tlb_inv; lia | literal_request].
  - literal_request.
  - reflexivity.
  - reflexivity.
Defined.

Close Scope string_scope.

End TlbTheorems.
