(* ===== verification/BatVectors.v ===== *)
(** * The BAT translation oracles ([sim/tools/bat_vectors.py])

    [expected] checks a bank by intervals and diagnoses its faults;
    [expected_stored] is the bit-mask rule a BAT service applies to whatever is
    stored.  The theorem relates the two. *)
From S2P Require Import Prelude.

Module bat_vectors.

(** [[(controls >> n) & 1 for n in range(5, -1, -1)]] *)
Record controls_bits : Type := {
  valid : bool; instruction : bool; write : bool; ir : bool; dr : bool; user : bool
}.

Definition control_bit (controls n : Z) : bool := truthy (Z.land (Z.shiftr controls n) 1).

Definition unpack_controls (controls : Z) : controls_bits :=
  {| valid := control_bit controls 5; instruction := control_bit controls 4;
     write := control_bit controls 3; ir := control_bit controls 2;
     dr := control_bit controls 1; user := control_bit controls 0 |}.

(** The tuple [expected] keeps per pair. *)
Record interval : Type := {
  enabled : Z; base : Z; limit : Z; physical : Z; malformed : bool; wimg : Z; pp : Z
}.

Definition analyse (instruction : bool) (p : Z * Z) : interval :=
  let '(upper, lower) := p in
  let enabled := upper mod 4 in
  let length := (upper / 4) mod 2048 in
  let size := 131072 * (length + 1) in
  let base := (upper / 131072) * 131072 in
  let physical := (lower / 131072) * 131072 in
  let legal := Z.land (length + 1) length =? 0 in
  let reserved := truthy ((upper / 8192) mod 16) || truthy ((lower / 128) mod 1024)
                  || truthy ((lower / 4) mod 2) in
  let malformed := truthy enabled &&
    (negb legal || reserved || truthy (base mod size) || truthy (physical mod size)
     || (instruction && truthy ((lower / 64) mod 2))) in
  {| enabled := enabled; base := base; limit := base + size; physical := physical;
     malformed := malformed; wimg := (lower / 8) mod 16; pp := lower mod 4 |}.

Definition bad_mask (entries : list interval) : Z :=
  foldl (fun bad p => if malformed p.2 then Z.lor bad (Z.shiftl 1 p.1) else bad) 0
    (enumerate 0 entries).

Definition overlaps (a b : interval) : bool :=
  truthy (Z.land (enabled a) (enabled b)) && negb (malformed a) && negb (malformed b)
  && (Z.max (base a) (base b) <? Z.min (limit a) (limit b)).

Fixpoint any_overlap (entries : list interval) : bool :=
  match entries with
  | [] => false
  | a :: rest => existsb (overlaps a) rest || any_overlap rest
  end.

Definition user_mask (user : bool) : Z := if user then 1 else 2.

Definition interval_match (user : bool) (ea : Z) (e : interval) : bool :=
  truthy (Z.land (enabled e) (user_mask user)) && (base e <=? ea) && (ea <? limit e).

Definition bypass (instruction : bool) (ea : Z) : Z :=
  Z.lor (Z.lor (Z.lor (Z.shiftl 1 56) (Z.shiftl 1 55)) (Z.shiftl ea 6))
        (Z.shiftl (if instruction then 1 else 3) 2).

(** The response of a match: [mbits] are the shifted match bits. *)
Definition respond (c : controls_bits) (mbits index wimg pp pa : Z) : Z :=
  let denied := (pp =? 0) || (write c && negb (pp =? 2)) in
  let wimg := if instruction c then Z.land wimg (Z.lnot 1) else wimg in
  let guarded := false in
  let allow := negb denied && negb guarded in
  let pa := if allow then pa else 0 in
  Z.lor (Z.lor (Z.lor (Z.lor (Z.lor (Z.lor (Z.lor (Z.lor
    (Z.shiftl (Z.b2z allow) 56) (Z.shiftl 1 54)) (Z.shiftl (Z.b2z denied) 52))
    (Z.shiftl (Z.b2z guarded) 51)) mbits) (Z.shiftl index 38)) (Z.shiftl pa 6))
    (Z.shiftl wimg 2)) pp.

Definition expected (controls ea : Z) (pairs : list (Z * Z)) : result Z :=
  let c := unpack_controls controls in
  if negb (valid c) then Ok 0
  else
    let entries := map (analyse (instruction c)) pairs in
    let bad := bad_mask entries in
    let overlap := any_overlap entries in
    let invalid := instruction c && write c in
    if truthy bad || overlap || invalid
    then Ok (Z.lor (Z.lor (Z.lor (Z.shiftl 1 50) (Z.shiftl (Z.b2z invalid) 49))
                      (Z.shiftl (Z.b2z overlap) 48)) (Z.shiftl bad 44))
    else if negb (if instruction c then ir c else dr c) then Ok (bypass (instruction c) ea)
    else
      match List.filter (fun p => interval_match (user c) ea p.2) (enumerate 0 entries) with
      | [] => Ok (Z.shiftl 1 53)
      | [(index, e)] =>
          Ok (respond c (Z.shiftl 1 (40 + index)) index (wimg e) (pp e)
                (physical e + (ea - base e)))
      | _ => Raise AssertionError
      end.

Definition block_offset (upper : Z) : Z := ((upper / 4) mod 2048) * 131072 + 131071.

Definition mask_match (user : bool) (ea : Z) (p : Z * Z) : bool :=
  let '(upper, lower) := p in
  truthy (Z.land upper (user_mask user))
  && (Z.land ea (Z.lnot (block_offset upper)) =? Z.land upper 0xfffe0000).

Definition match_bits (user : bool) (ea : Z) (pairs : list (Z * Z)) : Z :=
  foldl (fun matched p => if mask_match user ea p.2 then Z.lor matched (Z.shiftl 1 p.1) else matched)
    0 (enumerate 0 pairs).

Definition expected_stored (controls ea : Z) (pairs : list (Z * Z)) : result Z :=
  let c := unpack_controls controls in
  if negb (valid c) then Ok 0
  else if instruction c && write c then Ok (Z.lor (Z.shiftl 1 50) (Z.shiftl 1 49))
  else if negb (if instruction c then ir c else dr c) then Ok (bypass (instruction c) ea)
  else
    let matched := match_bits (user c) ea pairs in
    if matched =? 0 then Ok (Z.shiftl 1 53)
    else
      let index := bit_length (Z.land matched (- matched)) - 1 in
      match pairs !! Z.to_nat index with
      | None => Raise IndexError
      | Some (upper, lower) =>
          let offset := block_offset upper in
          Ok (respond c (Z.shiftl matched 40) index ((lower / 8) mod 16) (lower mod 4)
                (Z.lor (Z.land lower 0xfffe0000) (Z.land ea offset)))
      end.

(** ** The generated vectors *)
Definition dirty : Z * Z := (0xfffffffc, 0xffffffff).

Definition sweep_vectors : list (Z * Z * list (Z * Z)) :=
  power ← seqZ 0 12; way ← seqZ 0 4; instruction ← seqZ 0 2; user ← seqZ 0 2;
  pp ← seqZ 0 4; flags ← seqZ 0 4; write ← seqZ 0 2;
  let size := 131072 * 2 ^ power in
  let wimg := if truthy instruction then default 0 ([0; 2; 4; 1] !! Z.to_nat pp)
              else (pp + flags * 3) mod 16 in
  let pairs := <[Z.to_nat way := (0x40000000 + (2 ^ power - 1) * 4 + flags,
                                  0x80000000 + wimg * 8 + pp)]> (repeat dirty 4) in
  offset ← [-1; 0; 1; size / 2; size - 1; size; size + 1];
  [(32 + instruction * 16 + write * 8 + 4 + 2 + user, 0x40000000 + offset, pairs)].

Definition enable_vectors : list (Z * Z * list (Z * Z)) :=
  instruction ← seqZ 0 2; enables ← seqZ 0 4; wimg ← seqZ 0 16; flags ← seqZ 0 4;
  [(32 + instruction * 16 + enables * 2, 0x20012345,
    [(0x20000000 + flags, 0x60000000 + wimg * 8 + 2); (0, 0); (0, 0); (0, 0)])].

Definition fault_base : list (Z * Z) := [(0x20000003, 0x60000002); (0, 0); (0, 0); (0, 0)].
Definition fault_tail : list (Z * Z) := [(0, 0); (0, 0); (0, 0)].

Definition malformed_banks : list (list (Z * Z)) :=
  map (fun bit => (Z.lor 0x20000003 (Z.shiftl 1 bit), 0x60000002) :: fault_tail) (seqZ 13 4)
  ++ map (fun bit => (0x20000003, Z.lor 0x60000002 (Z.shiftl 1 bit)) :: fault_tail) (2 :: seqZ 7 10)
  ++ map (fun length => (0x20000003 + 4 * length, 0x60000002) :: fault_tail)
       [2; 4; 5; 6; 8; 0x155; 0x400; 0x7fe]
  ++ [ (0x20020007, 0x60000002) :: fault_tail;
       (0x20000007, 0x60020002) :: fault_tail;
       [(0x20000003, 0x60000002); (0x20000003, 0x80000002); (0, 0); (0, 0)];
       [(0x20000002, 0x60000002); (0x20000001, 0x80000002); (0, 0); (0, 0)];
       [(0x2000000f, 0x60000002); (0x20040003, 0x80000002); (0, 0); (0, 0)] ].

Definition vectors : list (Z * Z * list (Z * Z)) :=
  sweep_vectors ++ enable_vectors
  ++ (pairs ← malformed_banks; controls ← seqZ 0 64; [(controls, 0x20000000, pairs)]).

End bat_vectors.

Section Blocks.
Import bat_vectors.

(** ** Block lengths *)
Lemma legal_power L :
  0 <= L -> Z.land (L + 1) L = 0 -> exists k, 0 <= k /\ L + 1 = 2 ^ k.
Proof.
  intros HL Hz. exists (Z.log2 (L + 1)). split; [apply Z.log2_nonneg |].
  pose proof (Z.log2_spec (L + 1) ltac:(lia)) as [Hlo Hhi].
  pose proof (Z.log2_nonneg (L + 1)) as Hk. remember (Z.log2 (L + 1)) as k.
  destruct (Z.eq_dec (L + 1) (2 ^ k)) as [| Hne]; [assumption | exfalso].
  assert (H1 : Z.testbit (L + 1) k = true).
  { rewrite testbit_top by (rewrite <- Z.add_1_r in Hhi; lia). apply Z.leb_le. lia. }
  assert (H2 : Z.testbit L k = true).
  { rewrite testbit_top by (rewrite <- Z.add_1_r in Hhi; lia). apply Z.leb_le. lia. }
  assert (H3 : Z.testbit (Z.land (L + 1) L) k = true) by (rewrite Z.land_spec, H1, H2; reflexivity).
  rewrite Hz, Z.bits_0 in H3. discriminate.
Qed.

Lemma land_not_ones x n : 0 <= n -> Z.land x (Z.lnot (Z.ones n)) = 2 ^ n * (x / 2 ^ n).
Proof.
  intros Hn. rewrite <- Z.ldiff_land, Z.ldiff_ones_r, Z.shiftl_mul_pow2, Z.shiftr_div_pow2 by lia. lia.
Qed.

Lemma block_mask upper : 0 <= upper < 2 ^ 32 -> Z.land upper 0xfffe0000 = upper / 131072 * 131072.
Proof.
  intros Hu.
  assert (E : Z.land upper 0xfffe0000 = Z.land upper (Z.lnot (Z.ones 17))).
  { apply Z.bits_inj'. intros i Hi. rewrite !Z.land_spec, Z.lnot_spec by lia.
    change 0xfffe0000 with (Z.shiftl (Z.ones 15) 17).
    destruct (Z.ltb_spec i 17) as [Hl | Hl].
    - rewrite Z.shiftl_spec_low, testbit_ones, (proj2 (Z.ltb_lt i 17)) by lia. reflexivity.
    - rewrite Z.shiftl_spec, !testbit_ones, (proj2 (Z.ltb_ge i 17)) by lia. cbn [negb].
      destruct (Z.ltb_spec (i - 17) 15); [reflexivity |].
      rewrite (testbit_high upper 32) by lia. reflexivity. }
  rewrite E, land_not_ones by lia. change (2 ^ 17) with 131072. lia.
Qed.

(** A well-formed enabled pair: a power-of-two block, aligned at both ends. *)
Record block (p : Z * Z) (n : Z) : Prop := {
  bl_width : 0 <= n;
  bl_offset : block_offset p.1 = Z.ones n;
  bl_base : exists b, p.1 / 131072 * 131072 = 2 ^ n * b;
  bl_phys : exists b, p.2 / 131072 * 131072 = 2 ^ n * b
}.

Lemma well_formed_block instr p :
  enabled (analyse instr p) <> 0 -> malformed (analyse instr p) = false ->
  exists n, block p n /\ limit (analyse instr p) = base (analyse instr p) + 2 ^ n.
Proof.
  destruct p as [upper lower]. unfold analyse. cbn [enabled malformed limit base].
  set (L := (upper / 4) mod 2048). intros He Hm.
  assert (HL : 0 <= L < 2048) by (apply Z.mod_pos_bound; lia).
  assert (Ht : truthy (upper mod 4) = true) by (apply negb_true_iff, Z.eqb_neq, He).
  rewrite Ht in Hm. cbn [andb] in Hm. rewrite !orb_false_iff in Hm.
  destruct Hm as ((((Hlegal & _) & Hb) & Hp) & _).
  apply negb_false_iff, Z.eqb_eq in Hlegal.
  destruct (legal_power L ltac:(lia) Hlegal) as (k & Hk & EL).
  unfold truthy in Hb, Hp. apply negb_false_iff, Z.eqb_eq in Hb, Hp.
  assert (Esize : 131072 * (L + 1) = 2 ^ (17 + k)) by (rewrite EL, Z.pow_add_r by lia; reflexivity).
  rewrite Esize in *. assert (0 < 2 ^ (17 + k)) by (apply Z.pow_pos_nonneg; lia).
  exists (17 + k). split; [| reflexivity]. split; cbn [fst snd].
  - lia.
  - unfold block_offset. fold L. rewrite Z.ones_equiv. lia.
  - apply Z.mod_divide in Hb; [| lia]. destruct Hb as [b Hb]. exists b. lia.
  - apply Z.mod_divide in Hp; [| lia]. destruct Hp as [b Hp]. exists b. lia.
Qed.

(** The interval test and the mask test agree on a well-formed pair. *)
Lemma block_match p n ea :
  block p n -> 0 <= p.1 < 2 ^ 32 ->
  (Z.land ea (Z.lnot (block_offset p.1)) =? Z.land p.1 0xfffe0000) =
  (p.1 / 131072 * 131072 <=? ea) && (ea <? p.1 / 131072 * 131072 + 2 ^ n).
Proof.
  intros [Hn Ho [b Hb] _] Hu. rewrite Ho, land_not_ones, block_mask, Hb by assumption.
  assert (0 < 2 ^ n) by (apply Z.pow_pos_nonneg; lia).
  pose proof (Z.div_mod ea (2 ^ n) ltac:(lia)) as Hd.
  pose proof (Z.mod_pos_bound ea (2 ^ n) ltac:(lia)) as Hm.
  remember (2 ^ n) as P. remember (ea / P) as q. remember (ea mod P) as r.
  assert (q = b \/ P * q + P <= P * b \/ P * b + P <= P * q) as Hq.
  { destruct (Z.lt_total q b) as [H1 | [H1 | H1]]; [right; left | left | right; right]; nia. }
  destruct (Z.eqb_spec (P * q) (P * b)), (Z.leb_spec (P * b) ea), (Z.ltb_spec ea (P * b + P));
    try reflexivity; exfalso; destruct Hq as [-> | Hq]; lia.
Qed.

(** Both translations of a hit. *)
Lemma block_address p n ea :
  block p n -> 0 <= p.1 < 2 ^ 32 -> 0 <= p.2 < 2 ^ 32 ->
  p.1 / 131072 * 131072 <= ea < p.1 / 131072 * 131072 + 2 ^ n ->
  Z.lor (Z.land p.2 0xfffe0000) (Z.land ea (block_offset p.1)) =
  p.2 / 131072 * 131072 + (ea - p.1 / 131072 * 131072).
Proof.
  intros [Hn Ho [b Hb] [b' Hb']] Hu Hl He.
  assert (0 < 2 ^ n) by (apply Z.pow_pos_nonneg; lia).
  rewrite Ho, Z.land_ones, block_mask by lia. rewrite Hb in He |- *. rewrite Hb'.
  assert (Em : ea mod 2 ^ n = ea - 2 ^ n * b) by (symmetry; apply Z.mod_unique with b; lia).
  rewrite Em. rewrite (lor_disjoint _ _ n); [lia | lia | | lia].
  rewrite Z.mul_comm. apply Z.mod_mul. lia.
Qed.

Lemma user_bit_mod4 upper user :
  Z.land (upper mod 4) (user_mask user) = Z.land upper (user_mask user).
Proof.
  change 4 with (2 ^ 2). rewrite <- Z.land_ones by lia.
  rewrite <- Z.land_assoc. f_equal. destruct user; reflexivity.
Qed.

Definition pair_ok (p : Z * Z) : Prop := 0 <= p.1 < 2 ^ 32 /\ 0 <= p.2 < 2 ^ 32.

Lemma match_agree instr user ea p :
  pair_ok p -> malformed (analyse instr p) = false ->
  mask_match user ea p = interval_match user ea (analyse instr p).
Proof.
  intros [Hu Hl] Hm. destruct p as [upper lower]. unfold mask_match, interval_match.
  assert (Een : enabled (analyse instr (upper, lower)) = upper mod 4) by reflexivity.
  rewrite Een, user_bit_mod4.
  destruct (truthy (Z.land upper (user_mask user))) eqn:Et; [| reflexivity]. cbn [andb].
  destruct (well_formed_block instr (upper, lower)) as (n & Hb & Hlim); [| exact Hm |].
  - rewrite Een. intros E0. rewrite <- user_bit_mod4, E0 in Et. discriminate.
  - rewrite Hlim. apply (block_match (upper, lower) n ea Hb Hu).
Qed.

(** ** At most one match without overlap *)
Lemma overlap_two a b user ea :
  malformed a = false -> malformed b = false ->
  interval_match user ea a = true -> interval_match user ea b = true -> overlaps a b = true.
Proof.
  unfold interval_match, overlaps. rewrite !andb_true_iff, !Z.leb_le, !Z.ltb_lt.
  intros -> -> [[Ha1 Ha2] Ha3] [[Hb1 Hb2] Hb3]. cbn [negb andb].
  repeat split; try lia.
  unfold truthy in *. apply negb_true_iff, Z.eqb_neq. apply negb_true_iff, Z.eqb_neq in Ha1, Hb1.
  intros E. set (i := if user then 0 else 1).
  assert (Hbit : forall x, Z.land x (user_mask user) <> 0 -> Z.testbit x i = true).
  { intros x Hx. destruct (Z.testbit x i) eqn:E1; [reflexivity | exfalso]. apply Hx.
    apply Z.bits_inj'. intros j Hj. rewrite Z.land_spec, Z.bits_0.
    assert (user_mask user = Z.shiftl 1 i) as -> by (subst i; destruct user; reflexivity).
    rewrite testbit_shiftl_one by (subst i; destruct user; lia).
    destruct (Z.eqb_spec i j) as [<- |]; rewrite ?E1, ?andb_false_r; reflexivity. }
  assert (Z.testbit (Z.land (enabled a) (enabled b)) i = true) as Hi
    by (rewrite Z.land_spec, (Hbit _ Ha1), (Hbit _ Hb1); reflexivity).
  rewrite E, Z.bits_0 in Hi. discriminate.
Qed.

Definition single (entries : list interval) (user : bool) (ea : Z) (start : Z) : Prop :=
  let ms := List.filter (fun p => interval_match user ea p.2) (enumerate start entries) in
  ms = [] \/ exists i e, ms = [(i, e)] /\ start <= i /\ entries !! Z.to_nat (i - start) = Some e.

Lemma filter_none entries user ea start :
  Forall (fun e => interval_match user ea e = false) entries ->
  List.filter (fun p => interval_match user ea p.2) (enumerate start entries) = [].
Proof.
  intros H. revert start. induction H as [| e l He _ IH]; intros start; [reflexivity |].
  cbn. rewrite He. apply IH.
Qed.

Lemma no_overlap_single user ea entries : forall start,
  Forall (fun e => malformed e = false) entries -> any_overlap entries = false ->
  single entries user ea start.
Proof.
  unfold single. induction entries as [| a l IH]; intros start Hm Ho; [left; reflexivity |].
  inversion Hm as [| ? ? Ha Hl]; subst. cbn [any_overlap] in Ho. apply orb_false_iff in Ho.
  destruct Ho as [Hov Hrest]. cbn [enumerate List.filter snd].
  destruct (interval_match user ea a) eqn:Em.
  - right. exists start, a. rewrite filter_none.
    + split; [reflexivity |]. split; [lia |]. replace (start - start) with 0 by lia. reflexivity.
    + rewrite List.Forall_forall in *. intros b Hb. destruct (interval_match user ea b) eqn:Eb; [| reflexivity].
      exfalso. assert (existsb (overlaps a) l = true); [| congruence].
      apply existsb_exists. exists b. split; [exact Hb |]. eapply overlap_two; eauto.
  - destruct (IH (start + 1) Hl Hrest) as [-> | (i & e & -> & Hi & He)]; [left; reflexivity |].
    right. exists i, e. split; [reflexivity |]. split; [lia |].
    replace (Z.to_nat (i - start)) with (S (Z.to_nat (i - (start + 1)))) by lia. exact He.
Qed.

(** ** The match bits of a single match *)
Lemma fold_bits_filter (f : Z * Z -> bool) l : forall acc start,
  foldl (fun m (p : Z * (Z * Z)) => if f p.2 then Z.lor m (Z.shiftl 1 p.1) else m) acc (enumerate start l) =
  foldl (fun m (p : Z * (Z * Z)) => Z.lor m (Z.shiftl 1 p.1)) acc
    (List.filter (fun p => f p.2) (enumerate start l)).
Proof.
  induction l as [| a l IH]; intros acc start; [reflexivity |].
  cbn. destruct (f a); cbn; apply IH.
Qed.

Lemma filter_map_agree instr user ea l : forall start,
  Forall pair_ok l -> Forall (fun e => malformed e = false) (map (analyse instr) l) ->
  List.filter (fun p => interval_match user ea p.2) (enumerate start (map (analyse instr) l)) =
  map (fun p => (p.1, analyse instr p.2))
    (List.filter (fun p => mask_match user ea p.2) (enumerate start l)).
Proof.
  induction l as [| a l IH]; intros start Hok Hm; [reflexivity |].
  inversion Hok; inversion Hm; subst. cbn.
  rewrite (match_agree instr) by assumption.
  destruct (interval_match _ _ _); cbn; rewrite IH by assumption; reflexivity.
Qed.

Lemma lowest_bit i : 0 <= i -> Z.land (Z.shiftl 1 i) (- Z.shiftl 1 i) = Z.shiftl 1 i.
Proof.
  intros Hi. apply Z.bits_inj'. intros j Hj. rewrite Z.land_spec, testbit_shiftl_one by lia.
  destruct (Z.eqb_spec i j) as [<- |]; [| reflexivity]. cbn [andb].
  rewrite Z.bits_opp by lia. rewrite Z.shiftl_1_l, <- Z.sub_1_r.
  replace (2 ^ i - 1) with (Z.ones i) by (rewrite Z.ones_equiv; lia).
  rewrite testbit_ones, Z.ltb_irrefl by lia. reflexivity.
Qed.

Lemma bit_length_pow2 i : 0 <= i -> bit_length (Z.shiftl 1 i) = i + 1.
Proof.
  intros Hi. unfold bit_length. rewrite Z.shiftl_1_l.
  assert (0 < 2 ^ i) by (apply Z.pow_pos_nonneg; lia).
  destruct (Z.eqb_spec (2 ^ i) 0); [lia |]. rewrite Z.abs_eq, Z.log2_pow2 by lia. reflexivity.
Qed.

Lemma bad_mask_zero entries :
  truthy (bad_mask entries) = false -> Forall (fun e => malformed e = false) entries.
Proof.
  assert (Hmono : forall l acc start i, 0 <= i -> 0 <= start -> Z.testbit acc i = true ->
    Z.testbit (foldl (fun bad (p : Z * interval) => if malformed p.2 then Z.lor bad (Z.shiftl 1 p.1) else bad)
      acc (enumerate start l)) i = true).
  { induction l as [| e l IH]; intros acc start i Hi Hs Ha; [exact Ha |]. cbn.
    apply IH; [lia | lia |]. destruct (malformed e); [rewrite Z.lor_spec, Ha; reflexivity | exact Ha]. }
  assert (Hgen : forall l acc start, 0 <= start ->
    foldl (fun bad (p : Z * interval) => if malformed p.2 then Z.lor bad (Z.shiftl 1 p.1) else bad)
      acc (enumerate start l) = 0 -> Forall (fun e => malformed e = false) l).
  { induction l as [| e l IH]; intros acc start Hs E; constructor; cbn in E.
    - destruct (malformed e) eqn:Em; [exfalso | reflexivity].
      pose proof (Hmono l (Z.lor acc (Z.shiftl 1 start)) (start + 1) start Hs ltac:(lia)) as Hb.
      rewrite E, Z.bits_0 in Hb. discriminate Hb.
      rewrite Z.lor_spec, testbit_shiftl_one, Z.eqb_refl, orb_true_r by lia. reflexivity.
    - eapply IH; [| exact E]. lia. }
  unfold bad_mask, truthy. intros H. apply negb_false_iff, Z.eqb_eq in H.
  eapply Hgen; [| exact H]. lia.
Qed.

End Blocks.

Section BatTheorems.
Import bat_vectors.

(** The bank needs no diagnosis: no malformed entry and no overlap. *)
Definition bank_clean (instr : bool) (pairs : list (Z * Z)) : bool :=
  let entries := map (analyse instr) pairs in
  negb (truthy (bad_mask entries)) && negb (any_overlap entries).

Lemma clean_single instr user ea pairs :
  bank_clean instr pairs = true ->
  Forall (fun e => malformed e = false) (map (analyse instr) pairs) /\
  single (map (analyse instr) pairs) user ea 0.
Proof.
  unfold bank_clean. rewrite andb_true_iff, !negb_true_iff. intros [Hb Ho].
  apply bad_mask_zero in Hb. split; [exact Hb |]. apply no_overlap_single; assumption.
Qed.

Lemma bat_expected_ok controls ea pairs : exists r, expected controls ea pairs = Ok r.
Proof.
  unfold expected. set (c := unpack_controls controls).
  destruct (valid c); cbn [negb]; [| eauto].
  destruct (truthy _ || _ || _) eqn:E; [eauto |]. rewrite !orb_false_iff in E. destruct E as [[Hb Ho] _].
  destruct (if instruction c then ir c else dr c); cbn [negb]; [| eauto].
  destruct (clean_single (instruction c) (user c) ea pairs) as [_ Hs].
  { unfold bank_clean. rewrite Hb, Ho. reflexivity. }
  destruct Hs as [-> | (i & e & -> & _)]; eauto.
Qed.

Lemma match_bits_lookup user ea pairs index :
  0 <= index -> match_bits user ea pairs = Z.shiftl 1 index ->
  bit_length (Z.land (match_bits user ea pairs) (- match_bits user ea pairs)) - 1 = index.
Proof. intros Hi ->. rewrite lowest_bit, bit_length_pow2 by lia. lia. Qed.

(** The stored-bank rule on a single match. *)
Lemma stored_single instr user ea pairs i e :
  Forall pair_ok pairs -> Forall (fun e => malformed e = false) (map (analyse instr) pairs) ->
  List.filter (fun p => interval_match user ea p.2) (enumerate 0 (map (analyse instr) pairs)) = [(i, e)] ->
  0 <= i -> map (analyse instr) pairs !! Z.to_nat (i - 0) = Some e ->
  match_bits user ea pairs = Z.shiftl 1 i /\
  exists upper lower, pairs !! Z.to_nat i = Some (upper, lower) /\
    wimg e = (lower / 8) mod 16 /\ pp e = lower mod 4 /\
    Z.lor (Z.land lower 0xfffe0000) (Z.land ea (block_offset upper)) = physical e + (ea - base e).
Proof.
  intros Hok Hm Hf Hi He. rewrite Z.sub_0_r in He.
  pose proof Hf as Hin. rewrite (filter_map_agree instr) in Hf by assumption.
  destruct (List.filter _ (enumerate 0 pairs)) as [| [i' p'] [|]] eqn:Efilter; try discriminate Hf.
  injection Hf as -> Ee. split.
  - unfold match_bits. rewrite (fold_bits_filter (mask_match user ea)), Efilter. cbn.
    rewrite Z.lor_0_l. reflexivity.
  - rewrite list_lookup_fmap in He. destruct (pairs !! Z.to_nat i) as [p |] eqn:Ep; [| discriminate He].
    cbn in He. injection He as <-. destruct p as [upper lower]. exists upper, lower.
    split; [reflexivity |]. split; [reflexivity |]. split; [reflexivity |].
    rewrite Forall_forall in Hok.
    assert (Hpok : pair_ok (upper, lower)) by (apply Hok; eapply list_elem_of_lookup_2; exact Ep).
    assert (Hmal : malformed (analyse instr (upper, lower)) = false).
    { rewrite Forall_forall in Hm. apply Hm, list_elem_of_fmap_2. eapply list_elem_of_lookup_2; exact Ep. }
    assert (Himatch : interval_match user ea (analyse instr (upper, lower)) = true).
    { assert (In (i, analyse instr (upper, lower))
        (List.filter (fun p => interval_match user ea p.2) (enumerate 0 (map (analyse instr) pairs))))
        by (rewrite Hin; left; reflexivity).
      apply filter_In in H. apply H. }
    unfold interval_match in Himatch. rewrite !andb_true_iff, Z.leb_le, Z.ltb_lt in Himatch.
    destruct Himatch as [[Hen Hlo] Hhi].
    destruct (well_formed_block instr (upper, lower)) as (n & Hb & Hlim); [| exact Hmal |].
    { intros E0. rewrite E0 in Hen. discriminate. }
    rewrite Hlim in Hhi. apply (block_address (upper, lower) n ea Hb); [apply Hpok | apply Hpok |].
    split; assumption.
Qed.

(** C13. The two BAT oracles agree: the interval oracle never fails its
    assertion of a single match, on any stored words; and on a bank with
    nothing to diagnose (power-of-two aligned blocks, no reserved bits, no
    overlap) it gives the very response of the bit-mask rule the service
    applies, which in turn never fails there. *)
Theorem bat_oracles_agree controls ea pairs :
  (exists r, expected controls ea pairs = Ok r) /\
  (Forall pair_ok pairs -> bank_clean (instruction (unpack_controls controls)) pairs = true ->
   instruction (unpack_controls controls) && write (unpack_controls controls) = false ->
   expected_stored controls ea pairs = expected controls ea pairs).
Proof.
  split; [apply bat_expected_ok |]. intros Hok Hclean Hiw.
  unfold expected_stored, expected. set (c := unpack_controls controls) in *.
  destruct (valid c); cbn [negb]; [| reflexivity].
  destruct (clean_single (instruction c) (user c) ea pairs Hclean) as [Hm Hs].
  unfold bank_clean in Hclean. rewrite andb_true_iff, !negb_true_iff in Hclean.
  destruct Hclean as [Hb Ho]. rewrite Hb, Ho, Hiw. cbn [orb].
  destruct (if instruction c then ir c else dr c); cbn [negb]; [| reflexivity].
  destruct Hs as [Hf | (i & e & Hf & Hi & He)]; rewrite Hf.
  - assert (match_bits (user c) ea pairs = 0) as ->; [| reflexivity].
    rewrite (filter_map_agree (instruction c)) in Hf by assumption. apply map_eq_nil in Hf.
    unfold match_bits. rewrite (fold_bits_filter (mask_match (user c) ea)), Hf. reflexivity.
  - destruct (stored_single _ _ _ _ _ _ Hok Hm Hf Hi He) as (Eb & upper & lower & Ep & Ew & Epp & Ea).
    cbv zeta. rewrite (match_bits_lookup _ _ _ i Hi Eb), Eb, Ep, Ew, Epp, Ea.
    assert (0 < 2 ^ i) by (apply Z.pow_pos_nonneg; lia).
    rewrite Z.shiftl_1_l. destruct (Z.eqb_spec (2 ^ i) 0); [lia |].
    rewrite <- Z.shiftl_1_l, Z.shiftl_shiftl by lia. rewrite (Z.add_comm i 40). reflexivity.
Qed.

Lemma bat_oracles_agree_witness :
  (exists r, expected 39 0x40012345 [(0x40000003, 0x80000012); (0, 0); (0, 0); (0, 0)] = Ok r) /\
  expected_stored 39 0x40012345 [(0x40000003, 0x80000012); (0, 0); (0, 0); (0, 0)] =
  expected 39 0x40012345 [(0x40000003, 0x80000012); (0, 0); (0, 0); (0, 0)].
Proof.
  destruct (bat_oracles_agree 39 0x40012345 [(0x40000003, 0x80000012); (0, 0); (0, 0); (0, 0)]) as [H1 H2].
  split; [exact H1 |]. apply H2; [| reflexivity | reflexivity].
  repeat (apply List.Forall_cons; [repeat split; cbn; lia |]); apply List.Forall_nil.
Defined.

Lemma match_bits_bound user ea (pairs : list (Z * Z)) :
  length pairs = 4%nat -> 0 <= bat_vectors.match_bits user ea pairs < 2 ^ 4.
Proof.
  destruct pairs as [| p0 [| p1 [| p2 [| p3 [|]]]]]; try discriminate. intros _.
  unfold bat_vectors.match_bits. cbn -[Z.lor Z.shiftl bat_vectors.mask_match Z.pow].
  destruct (bat_vectors.mask_match user ea p0), (bat_vectors.mask_match user ea p1),
    (bat_vectors.mask_match user ea p2), (bat_vectors.mask_match user ea p3);
    (vm_compute; split; [discriminate | reflexivity]).
Qed.

Lemma lowest_index m :
  0 < m < 2 ^ 4 -> 0 <= bit_length (Z.land m (- m)) - 1 < 4 /\
  Z.testbit m (bit_length (Z.land m (- m)) - 1) = true /\
  (forall j, 0 <= j < bit_length (Z.land m (- m)) - 1 -> Z.testbit m j = false).
Proof.
  intros H.
  assert (m = 1 \/ m = 2 \/ m = 3 \/ m = 4 \/ m = 5 \/ m = 6 \/ m = 7 \/ m = 8 \/ m = 9 \/ m = 10 \/
    m = 11 \/ m = 12 \/ m = 13 \/ m = 14 \/ m = 15) as Hm by lia.
  repeat destruct Hm as [-> | Hm]; try subst m; (split; [vm_compute; split; [discriminate | reflexivity] |]);
    (split; [reflexivity |]); intros j Hj; change (bit_length _ - 1) with 0 in Hj || change (bit_length _ - 1) with 1 in Hj
      || change (bit_length _ - 1) with 2 in Hj || change (bit_length _ - 1) with 3 in Hj;
    try lia; assert (j = 0 \/ j = 1 \/ j = 2) as [-> | [-> | ->]] by lia; try lia; reflexivity.
Qed.

Lemma match_bits_bit user ea pairs i :
  length pairs = 4%nat -> 0 <= i < 4 ->
  Z.testbit (bat_vectors.match_bits user ea pairs) i =
  match pairs !! Z.to_nat i with Some p => bat_vectors.mask_match user ea p | None => false end.
Proof.
  destruct pairs as [| p0 [| p1 [| p2 [| p3 [|]]]]]; try discriminate. intros _ Hi.
  unfold bat_vectors.match_bits. cbn -[Z.lor Z.shiftl bat_vectors.mask_match Z.testbit].
  assert (i = 0 \/ i = 1 \/ i = 2 \/ i = 3) as [-> | [-> | [-> | ->]]] by lia;
    change (Z.to_nat 0) with 0%nat; change (Z.to_nat 1) with 1%nat; change (Z.to_nat 2) with 2%nat;
    change (Z.to_nat 3) with 3%nat; cbn [lookup list_lookup];
    destruct (bat_vectors.mask_match user ea p0), (bat_vectors.mask_match user ea p1),
      (bat_vectors.mask_match user ea p2), (bat_vectors.mask_match user ea p3); reflexivity.
Qed.

(** Translation by stored banks is by the lowest-numbered match: on a
    checked access either no entry matches and the response is a miss, or the
    response is that of the first entry whose block contains the address. *)
Theorem stored_translation_lowest controls ea pairs :
  length pairs = 4%nat ->
  let c := bat_vectors.unpack_controls controls in
  bat_vectors.valid c = true -> bat_vectors.instruction c && bat_vectors.write c = false ->
  (if bat_vectors.instruction c then bat_vectors.ir c else bat_vectors.dr c) = true ->
  (Forall (fun p => bat_vectors.mask_match (bat_vectors.user c) ea p = false) pairs /\
   bat_vectors.expected_stored controls ea pairs = Ok (2 ^ 53)) \/
  (exists i upper lower, 0 <= i < 4 /\ pairs !! Z.to_nat i = Some (upper, lower) /\
     bat_vectors.mask_match (bat_vectors.user c) ea (upper, lower) = true /\
     (forall j p, 0 <= j < i -> pairs !! Z.to_nat j = Some p ->
        bat_vectors.mask_match (bat_vectors.user c) ea p = false) /\
     bat_vectors.expected_stored controls ea pairs =
       Ok (bat_vectors.respond c (Z.shiftl (bat_vectors.match_bits (bat_vectors.user c) ea pairs) 40) i
             ((lower / 8) mod 16) (lower mod 4)
             (Z.lor (Z.land lower 0xfffe0000) (Z.land ea (bat_vectors.block_offset upper))))).
Proof.
  intros Hlen c Hv Hiw Hen. unfold bat_vectors.expected_stored. fold c. rewrite Hv, Hiw, Hen. cbn [negb].
  pose proof (match_bits_bound (bat_vectors.user c) ea pairs Hlen) as Hm.
  pose proof (fun i => match_bits_bit (bat_vectors.user c) ea pairs i Hlen) as Hbit.
  set (m := bat_vectors.match_bits _ _ _) in *. cbv zeta.
  destruct (Z.eqb_spec m 0) as [E | E].
  - left. split; [| reflexivity]. apply Forall_lookup. intros k p Hp.
    pose proof (lookup_lt_Some _ _ _ Hp). specialize (Hbit (Z.of_nat k) ltac:(lia)).
    rewrite Nat2Z.id, Hp, E, Z.bits_0 in Hbit. auto.
  - right. destruct (lowest_index m ltac:(lia)) as (Hi & Ht & Hlow). set (i := bit_length _ - 1) in *.
    pose proof (Hbit i Hi) as Hb.
    destruct (pairs !! Z.to_nat i) as [[upper lower] |] eqn:Ep; [| apply lookup_ge_None in Ep; lia].
    exists i, upper, lower. split; [exact Hi |]. split; [exact Ep |]. split; [congruence |].
    split; [| reflexivity]. intros j p Hj Hp. specialize (Hbit j ltac:(lia)). rewrite Hp in Hbit.
    rewrite <- Hbit. apply Hlow. exact Hj.
Qed.

Lemma stored_translation_lowest_witness :
  let pairs := [(0, 0); (0x20000003, 0x60000002); (0x20000003, 0x80000002); (0, 0)] in
  let c := bat_vectors.unpack_controls 39 in
  (Forall (fun p => bat_vectors.mask_match (bat_vectors.user c) 0x20000010 p = false) pairs /\
   bat_vectors.expected_stored 39 0x20000010 pairs = Ok (2 ^ 53)) \/
  (exists i upper lower, 0 <= i < 4 /\ pairs !! Z.to_nat i = Some (upper, lower) /\
     bat_vectors.mask_match (bat_vectors.user c) 0x20000010 (upper, lower) = true /\
     (forall j p, 0 <= j < i -> pairs !! Z.to_nat j = Some p ->
        bat_vectors.mask_match (bat_vectors.user c) 0x20000010 p = false) /\
     bat_vectors.expected_stored 39 0x20000010 pairs =
       Ok (bat_vectors.respond c (Z.shiftl (bat_vectors.match_bits (bat_vectors.user c) 0x20000010 pairs) 40) i
             ((lower / 8) mod 16) (lower mod 4)
             (Z.lor (Z.land lower 0xfffe0000) (Z.land 0x20000010 (bat_vectors.block_offset upper))))).
Proof.
  intros pairs c. apply (stored_translation_lowest 39 0x20000010 pairs); reflexivity.
Defined.

End BatTheorems.
