(* ===== verification/BatService.v ===== *)
(** * The BAT service oracle ([sim/tools/bat_service_vectors.py])

    Two banks of four pairs behind the SPR numbers 528..543: translations by the
    stored-bank rule, supervisor reads and masked writes, and the packed
    response; with the directed part of the request stream. *)
From S2P Require Import Prelude BatVectors.

Module bat_service.

Record Counts : Type := {
  translation : Z; n_write : Z; n_read : Z; privileged : Z; unsupported : Z
}.

Record Model : Type := { banks : list (list (Z * Z)); counts : Counts }.

Definition init : Model :=
  {| banks := repeat (repeat (0, 0) 4) 2;
     counts := {| translation := 0; n_write := 0; n_read := 0; privileged := 0; unsupported := 0 |} |}.

Definition bump_translation c := Build_Counts (translation c + 1) (n_write c) (n_read c) (privileged c) (unsupported c).
Definition bump_write c := Build_Counts (translation c) (n_write c + 1) (n_read c) (privileged c) (unsupported c).
Definition bump_read c := Build_Counts (translation c) (n_write c) (n_read c + 1) (privileged c) (unsupported c).
Definition bump_privileged c := Build_Counts (translation c) (n_write c) (n_read c) (privileged c + 1) (unsupported c).
Definition bump_unsupported c := Build_Counts (translation c) (n_write c) (n_read c) (privileged c) (unsupported c + 1).

Record request : Type := {
  kind : Z; ea : Z; spr : Z; data : Z; ir : Z; dr : Z; pr : Z
}.

(** [divmod(spr-528, 8)] and [divmod(half, 2)]: bank, entry and half. *)
Definition spr_bank (spr : Z) : Z := (spr - 528) / 8.
Definition spr_entry (spr : Z) : Z := ((spr - 528) mod 8) / 2.
Definition spr_lower (spr : Z) : Z := ((spr - 528) mod 8) mod 2.

Definition get_pair (m : Model) (spr : Z) : result (Z * Z) :=
  match banks m !! Z.to_nat (spr_bank spr) with
  | None => Raise IndexError
  | Some bank => match bank !! Z.to_nat (spr_entry spr) with
                 | None => Raise IndexError
                 | Some p => Ok p
                 end
  end.

Definition half (lower : Z) (p : Z * Z) : Z := if truthy lower then p.2 else p.1.

Definition store_mask (lower : Z) : Z := if truthy lower then 0xfffe007b else 0xfffe1fff.

Definition accept (m : Model) (q : request) : result (Model * Z) :=
  let response := kind q * 2 ^ 134 + ea q * 2 ^ 102 + spr q * 2 ^ 92 in
  if kind q <=? 2 then
    let controls := 32 + Z.b2z (kind q =? 0) * 16 + Z.b2z (kind q =? 2) * 8 + ir q * 4 + dr q * 2 + pr q in
    match banks m !! (if negb (kind q =? 0) then 1%nat else 0%nat) with
    | None => Raise IndexError
    | Some bank =>
        let! t := bat_vectors.expected_stored controls (ea q) bank in
        Ok ({| banks := banks m; counts := bump_translation (counts m) |}, response + t)
    end
  else if negb ((kind q =? 3) || (kind q =? 4)) || negb ((528 <=? spr q) && (spr q <=? 543)) then
    Ok ({| banks := banks m; counts := bump_unsupported (counts m) |}, response + 2 ^ 58)
  else if truthy (pr q) then
    Ok ({| banks := banks m; counts := bump_privileged (counts m) |}, response + 2 ^ 59)
  else
    let bank := spr_bank (spr q) in
    let entry := spr_entry (spr q) in
    let lower := spr_lower (spr q) in
    let! old := get_pair m (spr q) in
    if kind q =? 3 then
      Ok ({| banks := banks m; counts := bump_read (counts m) |}, response + half lower old * 2 ^ 60)
    else
      let data := Z.land (data q) (store_mask lower) in
      let new := if truthy lower then (old.1, data) else (data, old.2) in
      let candidate := <[Z.to_nat entry := new]> (default [] (banks m !! Z.to_nat bank)) in
      Ok ({| banks := <[Z.to_nat bank := candidate]> (banks m); counts := bump_write (counts m) |},
          response).

(** ** The directed request stream *)
Definition req (kind ea spr data ir dr pr : Z) : request :=
  {| kind := kind; ea := ea; spr := spr; data := data; ir := ir; dr := dr; pr := pr |}.

Definition reset_requests : list request :=
  map (fun spr => req 3 (0xabc00000 + spr) spr 0 0 0 0) (seqZ 528 16).

Definition mapping_requests : list request :=
  power ← seqZ 0 12; way ← seqZ 0 4;
  let size := 131072 * 2 ^ power in
  let base := (way + 1) * 0x10000000 in
  bank ← seqZ 0 2;
  let spr := 528 + 8 * bank + 2 * way in
  pp ← seqZ 0 4; flags ← [1; 2; 3];
  let attrs := if bank =? 0 then (pp + flags) mod 8 else (pp * 4 + flags) mod 16 in
  [req 4 0 spr 0 0 0 0; req 4 0 (spr + 1) (0x80000000 + attrs * 8 + pp) 0 0 0;
   req 4 0 spr (base + (2 ^ power - 1) * 4 + flags) 0 0 0; req 3 0 spr 0 0 0 0;
   req 3 0 (spr + 1) 0 0 0 0]
  ++ (pr ← seqZ 0 2; kind ← [0; 1; 2]; offset ← [-1; 0; 3; size - 1; size];
      [req kind (base + offset) spr 0 1 1 pr])
  ++ (enables ← seqZ 0 4;
      [req 0 (base + 16) spr 0 (enables / 2) (enables mod 2) 0;
       req 2 (base + 16) spr 0 (enables / 2) (enables mod 2) 1]).

Definition mutations : list Z :=
  [0xffffffff; 0x20020007; 0x2000000b; 0x20002003; 0x80000006; 0x80000042; 0x80010002; 0x00000000].

Definition mutation_requests : list request :=
  spr ← seqZ 528 16; data ← mutations; pr ← seqZ 0 2;
  req 4 0x76543210 spr data 1 1 pr :: map (fun read_spr => req 3 0 read_spr 0 0 0 0) (seqZ 528 16).

Definition alias_requests : list request :=
  bank ← seqZ 0 2;
  map (fun way => req 4 0 (528 + bank * 8 + way * 2) 0 0 0 0) (seqZ 0 4)
  ++ map (fun p => req 4 0 p.1 p.2 0 0 0)
       [(529 + bank * 8, 0x60000002); (528 + bank * 8, 0x20000002);
        (531 + bank * 8, 0x80000002); (530 + bank * 8, 0x20000002);
        (530 + bank * 8, 0x20000001)]
  ++ (pr ← seqZ 0 2; kind ← seqZ 0 3; [req kind 0x20012345 0 0 1 1 pr]).

Definition directed_requests : list request :=
  reset_requests ++ mapping_requests ++ mutation_requests ++ alias_requests.

(** The reads that follow the random traffic. *)
Definition final_requests : list request := map (fun spr => req 3 0 spr 0 0 0 0) (seqZ 528 16).

End bat_service.

Section BatService.
Import bat_service.

Record request_ok (q : request) : Prop := {
  rq_kind : 0 <= kind q < 8;
  rq_ea : 0 <= ea q < 2 ^ 32;
  rq_spr : 0 <= spr q < 2 ^ 10;
  rq_data : 0 <= data q < 2 ^ 32
}.

(** Two banks of four stored pairs, reserved bits clear. *)
Definition stored_pair (p : Z * Z) : Prop :=
  0 <= p.1 < 2 ^ 32 /\ Z.land p.1 (store_mask 0) = p.1 /\
  0 <= p.2 < 2 ^ 32 /\ Z.land p.2 (store_mask 1) = p.2.

Record service_inv (m : Model) : Prop := {
  si_banks : length (banks m) = 2%nat;
  si_bank : forall i b, banks m !! i = Some b -> length b = 4%nat /\ Forall stored_pair b
}.

Lemma init_service_inv : service_inv init.
Proof.
  split; [reflexivity |]. intros i b Hb. apply list_elem_of_lookup_2 in Hb.
  repeat (apply elem_of_cons in Hb; destruct Hb as [-> | Hb]); try (inversion Hb);
    (split; [reflexivity |]); repeat (apply List.Forall_cons; [repeat split; cbn; lia |]); apply List.Forall_nil.
Qed.

Lemma spr_range s : 528 <= s <= 543 -> 0 <= spr_bank s < 2 /\ 0 <= spr_entry s < 4 /\ 0 <= spr_lower s < 2.
Proof. intros H. unfold spr_bank, spr_entry, spr_lower. repeat split; Z.div_mod_to_equations; lia. Qed.

Lemma spr_unique s t :
  528 <= s <= 543 -> 528 <= t <= 543 ->
  spr_bank s = spr_bank t -> spr_entry s = spr_entry t -> spr_lower s = spr_lower t -> s = t.
Proof. intros. unfold spr_bank, spr_entry, spr_lower in *. Z.div_mod_to_equations. lia. Qed.

Lemma get_pair_ok m s :
  service_inv m -> 528 <= s <= 543 ->
  exists p b, get_pair m s = Ok p /\ banks m !! Z.to_nat (spr_bank s) = Some b /\
    b !! Z.to_nat (spr_entry s) = Some p /\ stored_pair p.
Proof.
  intros [Hl Hb] Hs. destruct (spr_range s Hs) as (H1 & H2 & _). unfold get_pair.
  destruct (banks m !! Z.to_nat (spr_bank s)) as [b |] eqn:Eb.
  2: { apply lookup_ge_None in Eb. lia. }
  destruct (Hb _ _ Eb) as [Hlen Hf].
  destruct (b !! Z.to_nat (spr_entry s)) as [p |] eqn:Ep.
  2: { apply lookup_ge_None in Ep. lia. }
  exists p, b. repeat split; auto; rewrite Forall_forall in Hf;
    specialize (Hf p (list_elem_of_lookup_2 _ _ _ Ep)); apply Hf.
Qed.

Lemma mask_idem d k : Z.land (Z.land d k) k = Z.land d k.
Proof. rewrite <- Z.land_assoc, Z.land_diag. reflexivity. Qed.

Lemma stored_update old d lower :
  stored_pair old -> 0 <= d < 2 ^ 32 -> 0 <= lower < 2 ->
  stored_pair (if truthy lower then (old.1, Z.land d (store_mask lower))
               else (Z.land d (store_mask lower), old.2)).
Proof.
  intros (H1 & H2 & H3 & H4) Hd Hl. assert (lower = 0 \/ lower = 1) as [-> | ->] by lia;
    (split; [| split; [| split]]); cbn [truthy Z.eqb negb fst snd]; auto using mask_idem, land_bound_l.
  - apply land_bound_l; lia.
  - apply land_bound_l; lia.
Qed.

(** ** The size of a translation response *)
Lemma shiftl_bound x n w : 0 <= n -> 0 <= w -> 0 <= x < 2 ^ w -> 0 <= Z.shiftl x n < 2 ^ (n + w).
Proof. intros. rewrite Z.shiftl_mul_pow2, Z.pow_add_r by lia. nia. Qed.

Lemma pow_weaken x n m : 0 <= n <= m -> 0 <= x < 2 ^ n -> 0 <= x < 2 ^ m.
Proof. intros. assert (2 ^ n <= 2 ^ m) by (apply Z.pow_le_mono_r; lia). lia. Qed.

Lemma respond_bound c mbits index wimg pp pa :
  0 <= mbits < 2 ^ 57 -> 0 <= index < 4 -> 0 <= wimg < 2 ^ 4 -> 0 <= pp < 2 ^ 2 -> 0 <= pa < 2 ^ 32 ->
  0 <= bat_vectors.respond c mbits index wimg pp pa < 2 ^ 57.
Proof.
  intros Hm Hi Hw Hp Ha. unfold bat_vectors.respond. cbv zeta.
  set (denied := (pp =? 0) || _). set (w := if bat_vectors.instruction c then _ else _).
  assert (0 <= w < 2 ^ 4) by (subst w; destruct (bat_vectors.instruction c); [apply land_bound_l; lia | lia]).
  set (a := if negb denied && negb false then pa else 0).
  assert (0 <= a < 2 ^ 32) by (subst a; destruct (negb denied && negb false); lia).
  assert (forall b, 0 <= Z.b2z b < 2 ^ 1) as Hb by (destruct b; cbn; lia).
  repeat apply lor_bound; try lia;
    lazymatch goal with
    | |- 0 <= Z.shiftl (Z.b2z ?b) ?n < _ =>
        apply (pow_weaken _ (n + 1)); [lia |]; apply shiftl_bound; [lia | lia | apply Hb]
    | |- 0 <= Z.shiftl index ?n < _ => apply (pow_weaken _ (n + 2)); [lia |]; apply shiftl_bound; lia
    | |- 0 <= Z.shiftl a ?n < _ => apply (pow_weaken _ (n + 32)); [lia |]; apply shiftl_bound; lia
    | |- 0 <= Z.shiftl w ?n < _ => apply (pow_weaken _ (n + 4)); [lia |]; apply shiftl_bound; lia
    | |- 0 <= Z.shiftl 1 ?n < _ => apply (pow_weaken _ (n + 1)); [lia |]; apply shiftl_bound; lia
    end.
Qed.


Lemma translate_ok controls ea pairs :
  0 <= ea < 2 ^ 32 -> length pairs = 4%nat -> Forall stored_pair pairs ->
  exists r, bat_vectors.expected_stored controls ea pairs = Ok r /\ 0 <= r < 2 ^ 57.
Proof.
  intros Hea Hlen Hp. unfold bat_vectors.expected_stored. set (c := bat_vectors.unpack_controls controls).
  destruct (bat_vectors.valid c); cbn [negb]; [| exists 0; split; [reflexivity | lia]].
  destruct (bat_vectors.instruction c && bat_vectors.write c); [eexists; split; [reflexivity | vm_compute; split; [discriminate | reflexivity]] |].
  destruct (if bat_vectors.instruction c then _ else _); cbn [negb].
  2: { eexists. split; [reflexivity |]. unfold bat_vectors.bypass.
       assert (0 <= Z.shiftl ea 6 < 2 ^ (6 + 32)) by (apply shiftl_bound; lia).
       repeat apply lor_bound; try lia; destruct (bat_vectors.instruction c); vm_compute; split; discriminate || reflexivity. }
  pose proof (match_bits_bound (bat_vectors.user c) ea pairs Hlen) as Hm.
  set (m := bat_vectors.match_bits _ _ _) in *. cbv zeta.
  destruct (Z.eqb_spec m 0); [eexists; split; [reflexivity | vm_compute; split; [discriminate | reflexivity]] |].
  destruct (lowest_index m ltac:(lia)) as (Hi & _ & _). set (i := bit_length _ - 1) in *.
  destruct (pairs !! Z.to_nat i) as [[upper lower] |] eqn:Ep; [| apply lookup_ge_None in Ep; lia].
  eexists. split; [reflexivity |].
  rewrite Forall_forall in Hp. destruct (Hp _ (list_elem_of_lookup_2 _ _ _ Ep)) as (_ & _ & Hlo & _).
  cbn [snd] in Hlo. apply respond_bound; try assumption.
  - apply (pow_weaken _ (40 + 4)); [lia |]. apply shiftl_bound; lia.
  - apply Z.mod_pos_bound. lia.
  - apply Z.mod_pos_bound. lia.
  - apply lor_bound; [lia | apply land_bound_l; lia | apply land_bound_l; lia].
Qed.

Lemma response_fields k e s t :
  0 <= k < 8 -> 0 <= e < 2 ^ 32 -> 0 <= s < 2 ^ 10 -> 0 <= t < 2 ^ 92 ->
  let r := k * 2 ^ 134 + e * 2 ^ 102 + s * 2 ^ 92 + t in
  0 <= r < 2 ^ 137 /\ r / 2 ^ 134 = k /\ (r / 2 ^ 102) mod 2 ^ 32 = e /\ (r / 2 ^ 92) mod 2 ^ 10 = s /\
  r mod 2 ^ 92 = t.
Proof.
  intros. unfold r. repeat split; word_lia.
Qed.

(** The supervisor half of [accept]. *)
Definition is_spr_access (q : request) : bool :=
  ((kind q =? 3) || (kind q =? 4)) && ((528 <=? spr q) && (spr q <=? 543)) && negb (truthy (pr q)).

(** What the pair of an SPR holds. *)
Definition spr_value (m : Model) (s : Z) : option Z :=
  match get_pair m s with Ok p => Some (half (spr_lower s) p) | Raise _ => None end.

Lemma write_get m s d t p b :
  service_inv m -> 528 <= s <= 543 -> 528 <= t <= 543 ->
  get_pair m s = Ok p -> banks m !! Z.to_nat (spr_bank s) = Some b ->
  let new := if truthy (spr_lower s) then (p.1, Z.land d (store_mask (spr_lower s)))
             else (Z.land d (store_mask (spr_lower s)), p.2) in
  let m' := {| banks := <[Z.to_nat (spr_bank s) := <[Z.to_nat (spr_entry s) := new]> b]> (banks m);
               counts := bump_write (counts m) |} in
  spr_value m' t = if s =? t then Some (Z.land d (store_mask (spr_lower s))) else spr_value m t.
Proof.
  intros Hm Hs Ht Hp Hb new m'. unfold spr_value.
  destruct (spr_range s Hs) as (S1 & S2 & S3), (spr_range t Ht) as (T1 & T2 & T3).
  destruct (get_pair_ok m s Hm Hs) as (p' & b' & Ep & Eb & El & _).
  assert (p' = p) as -> by congruence. assert (b' = b) as -> by congruence.
  pose proof (lookup_lt_Some _ _ _ Eb) as L1. pose proof (lookup_lt_Some _ _ _ El) as L2.
  destruct (get_pair_ok m t Hm Ht) as (pt & bt & Ept & Ebt & Elt & _).
  unfold get_pair at 1. subst m'. cbn [banks].
  destruct (Z.eq_dec (spr_bank s) (spr_bank t)) as [B | B].
  2: { rewrite list_lookup_insert_ne by lia. rewrite Ebt, Elt, Ept.
       destruct (Z.eqb_spec s t) as [-> |]; [congruence | reflexivity]. }
  rewrite <- B, list_lookup_insert_eq by lia.
  destruct (Z.eq_dec (spr_entry s) (spr_entry t)) as [E | E].
  2: { rewrite list_lookup_insert_ne by lia. assert (bt = b) as -> by congruence. rewrite Elt, Ept.
       destruct (Z.eqb_spec s t) as [-> |]; [congruence | reflexivity]. }
  rewrite <- E, list_lookup_insert_eq by lia. rewrite Ept.
  assert (bt = b) as -> by congruence. assert (pt = p) as -> by congruence.
  destruct (Z.eqb_spec s t) as [-> | Hne].
  - subst new. unfold half. destruct (truthy (spr_lower t)); reflexivity.
  - assert (spr_lower s <> spr_lower t) as Hl by (intros Hl; apply Hne; apply spr_unique; auto).
    subst new. unfold half.
    assert ((spr_lower s = 0 /\ spr_lower t = 1) \/ (spr_lower s = 1 /\ spr_lower t = 0)) as [[-> ->] | [-> ->]] by lia;
      reflexivity.
Qed.

Lemma accept_cases m q :
  service_inv m -> request_ok q ->
  exists m' t, accept m q = Ok (m', kind q * 2 ^ 134 + ea q * 2 ^ 102 + spr q * 2 ^ 92 + t) /\
    0 <= t < 2 ^ 92 /\
    (if is_spr_access q && (kind q =? 4)
     then t = 0 /\ exists p b, get_pair m (spr q) = Ok p /\ banks m !! Z.to_nat (spr_bank (spr q)) = Some b /\
       stored_pair p /\ b !! Z.to_nat (spr_entry (spr q)) = Some p /\
       m' = {| banks := <[Z.to_nat (spr_bank (spr q)) :=
                 <[Z.to_nat (spr_entry (spr q)) :=
                   if truthy (spr_lower (spr q))
                   then (p.1, Z.land (data q) (store_mask (spr_lower (spr q))))
                   else (Z.land (data q) (store_mask (spr_lower (spr q))), p.2)]> b]> (banks m);
               counts := bump_write (counts m) |}
     else banks m' = banks m /\
       (is_spr_access q = true -> exists v, spr_value m (spr q) = Some v /\ t = v * 2 ^ 60)).
Proof.
  intros Hm [Hk He Hs Hd]. unfold accept, is_spr_access. cbv zeta.
  destruct (Z.leb_spec (kind q) 2) as [Hk2 | Hk2].
  { rewrite (proj2 (Z.eqb_neq (kind q) 3)), (proj2 (Z.eqb_neq (kind q) 4)) by lia. cbn [orb andb].
    destruct (banks m !! _) as [b |] eqn:Eb.
    2: { apply lookup_ge_None in Eb. rewrite (si_banks m Hm) in Eb. destruct (negb _); lia. }
    destruct (si_bank m Hm _ _ Eb) as [Hlen Hf].
    edestruct (translate_ok) as (r & Er & Hr); [exact He | exact Hlen | exact Hf |]. rewrite Er.
    exists {| banks := banks m; counts := bump_translation (counts m) |}, r.
    split; [reflexivity |]. split; [apply (pow_weaken _ 57); [lia | exact Hr] |].
    split; [reflexivity | discriminate]. }
  destruct ((kind q =? 3) || (kind q =? 4)) eqn:Ek; cbn [negb orb andb].
  2: { exists {| banks := banks m; counts := bump_unsupported (counts m) |}, (2 ^ 58).
       split; [reflexivity |]. split; [lia |]. split; [reflexivity | discriminate]. }
  destruct ((528 <=? spr q) && (spr q <=? 543)) eqn:Es; cbn [negb andb].
  2: { exists {| banks := banks m; counts := bump_unsupported (counts m) |}, (2 ^ 58).
       split; [reflexivity |]. split; [lia |]. split; [reflexivity | discriminate]. }
  bool_prop. destruct (truthy (pr q)); cbn [negb andb].
  { exists {| banks := banks m; counts := bump_privileged (counts m) |}, (2 ^ 59).
    split; [reflexivity |]. split; [lia |]. split; [reflexivity | discriminate]. }
  destruct (get_pair_ok m (spr q) Hm) as (p & b & Ep & Eb & El & Hp); [lia |]. rewrite Ep.
  destruct Ek as [Ek | Ek]; apply Z.eqb_eq in Ek; rewrite Ek; cbn [Z.eqb Pos.eqb andb].
  - exists {| banks := banks m; counts := bump_read (counts m) |}, (half (spr_lower (spr q)) p * 2 ^ 60).
    split; [reflexivity |].
    assert (0 <= half (spr_lower (spr q)) p < 2 ^ 32).
    { unfold half. destruct Hp as (? & _ & ? & _). destruct (truthy _); assumption. }
    split; [nia |]. split; [reflexivity |]. intros _. exists (half (spr_lower (spr q)) p).
    unfold spr_value. rewrite Ep. auto.
  - eexists _, 0. rewrite Z.add_0_r. split; [reflexivity |]. split; [lia |]. split; [reflexivity |].
    exists p, b. rewrite Eb. cbn [default from_option]. auto 6.
Qed.

Lemma service_step_inv m q m' r :
  service_inv m -> request_ok q -> accept m q = Ok (m', r) -> service_inv m'.
Proof.
  intros Hm Hq E. destruct (accept_cases m q Hm Hq) as (m2 & t & E2 & _ & Hc).
  assert (m2 = m') as -> by congruence.
  destruct (is_spr_access q && (kind q =? 4)) eqn:Ew.
  - destruct Hc as (_ & p & b & Ep & Eb & Hp & El & ->). pose proof Hm as [Hl Hbk].
    apply andb_true_iff in Ew. destruct Ew as [Ea _]. unfold is_spr_access in Ea. bool_prop.
    destruct (spr_range (spr q)) as (S1 & S2 & S3); [lia |].
    split; cbn [banks].
    + rewrite length_insert. exact Hl.
    + intros i b' Hb'. destruct (Hbk _ _ Eb) as [Hlen Hf].
      destruct (Nat.eq_dec (Z.to_nat (spr_bank (spr q))) i) as [<- | Hne].
      * rewrite list_lookup_insert_eq in Hb' by (apply lookup_lt_Some in Eb; exact Eb).
        injection Hb' as <-. split; [rewrite length_insert; exact Hlen |].
        apply Forall_insert; [exact Hf |]. apply stored_update; [exact Hp | apply Hq | exact S3].
      * rewrite list_lookup_insert_ne in Hb' by exact Hne. eapply Hbk. exact Hb'.
  - destruct Hc as [Hb _]. destruct Hm as [H1 H2]. split; rewrite Hb; assumption.
Qed.

End BatService.

Section BatServiceTheorems.
Import bat_service.

(** The BAT service answers every request: from banks of stored pairs and
    for any kind, address, SPR and data in their fields, [accept] succeeds,
    keeps the banks well formed (reserved bits clear), and the response's kind,
    address and SPR fields echo the request above a 92-bit payload. *)
Theorem service_responds m q :
  service_inv m -> request_ok q ->
  exists m' r, accept m q = Ok (m', r) /\ service_inv m' /\
    0 <= r < 2 ^ 137 /\ r / 2 ^ 134 = kind q /\ (r / 2 ^ 102) mod 2 ^ 32 = ea q /\
    (r / 2 ^ 92) mod 2 ^ 10 = spr q.
Proof.
  intros Hm Hq. destruct (accept_cases m q Hm Hq) as (m' & t & E & Ht & _).
  exists m', (kind q * 2 ^ 134 + ea q * 2 ^ 102 + spr q * 2 ^ 92 + t).
  split; [exact E |]. split; [eapply service_step_inv; eauto |].
  destruct Hq as [Hk He Hs _].
  destruct (response_fields (kind q) (ea q) (spr q) t Hk He Hs Ht) as (H1 & H2 & H3 & H4 & _). auto.
Qed.

Definition sample_write : request := req 4 0 530 0xffffffff 0 0 0.

Lemma sample_write_ok : request_ok sample_write.
Proof. split; cbn; lia. Qed.

Lemma service_responds_witness :
  exists m' r, accept init sample_write = Ok (m', r) /\ service_inv m' /\
    0 <= r < 2 ^ 137 /\ r / 2 ^ 134 = 4 /\ (r / 2 ^ 102) mod 2 ^ 32 = 0 /\ (r / 2 ^ 92) mod 2 ^ 10 = 530.
Proof. apply (service_responds init sample_write); [exact init_service_inv | exact sample_write_ok]. Defined.

(** The even SPRs are upper halves, the odd ones lower halves. *)
Lemma store_mask_parity t : store_mask (spr_lower t) = if Z.odd t then 0xfffe007b else 0xfffe1fff.
Proof.
  unfold store_mask, spr_lower, truthy. assert (((t - 528) mod 8) mod 2 = t mod 2) as -> by word_lia.
  rewrite Zmod_odd. destruct (Z.odd t); reflexivity.
Qed.

(** The BAT registers are a memory of sixteen masked words: only a
    supervisor write to one of 528..543 changes anything, it stores the data
    with the half's reserved bits cleared and leaves the other fifteen as they
    were, and a supervisor read returns what is stored. *)
Theorem service_registers m q m' r t :
  service_inv m -> request_ok q -> accept m q = Ok (m', r) -> 528 <= t <= 543 ->
  spr_value m' t =
    (if is_spr_access q && (kind q =? 4) && (spr q =? t)
     then Some (Z.land (data q) (if Z.odd t then 0xfffe007b else 0xfffe1fff)) else spr_value m t) /\
  (is_spr_access q = true -> kind q = 3 -> Some ((r mod 2 ^ 92) / 2 ^ 60) = spr_value m (spr q)).
Proof.
  intros Hm Hq E Ht. destruct (accept_cases m q Hm Hq) as (m2 & u & E2 & Hu & Hc).
  rewrite E2 in E. injection E as -> <-. destruct Hq as [Hk He Hs Hd].
  destruct (response_fields (kind q) (ea q) (spr q) u Hk He Hs Hu) as (_ & _ & _ & _ & H5).
  rewrite H5, <- store_mask_parity. destruct (is_spr_access q && (kind q =? 4)) eqn:Ew; cbn [andb].
  - destruct Hc as (_ & p & b & Ep & Eb & _ & _ & ->). apply andb_true_iff in Ew. destruct Ew as [Ea Ek].
    split.
    + unfold is_spr_access in Ea. bool_prop.
      rewrite (write_get m (spr q) (data q) t p b Hm ltac:(lia) Ht Ep Eb).
      destruct (Z.eqb_spec (spr q) t) as [-> |]; reflexivity.
    + intros _ Hk3. apply Z.eqb_eq in Ek. lia.
  - destruct Hc as [Hb Hread]. split.
    + unfold spr_value, get_pair. rewrite Hb. reflexivity.
    + intros Ha _. destruct (Hread Ha) as (v & -> & ->). f_equal. apply Z.div_mul. lia.
Qed.

Lemma service_registers_witness :
  let m' := fst (match accept init sample_write with Ok p => p | Raise _ => (init, 0) end) in
  spr_value m' 530 = Some (Z.land 0xffffffff (if Z.odd 530 then 0xfffe007b else 0xfffe1fff)) /\
  (is_spr_access sample_write = true -> kind sample_write = 3 ->
   Some (((4 * 2 ^ 134 + 0 + 530 * 2 ^ 92) mod 2 ^ 92) / 2 ^ 60) = spr_value init 530).
Proof.
  intros m'.
  apply (service_registers init sample_write m' (4 * 2 ^ 134 + 0 + 530 * 2 ^ 92) 530).
  - exact init_service_inv.
  - exact sample_write_ok.
  - vm_compute. reflexivity.
  - lia.
Defined.

End BatServiceTheorems.
