(* ===== verification/FpReference.v ===== *)
(** * The exact binary32/binary64 oracle ([sim/fpu/reference.py])

    Finite values are integers times powers of two; every operation rounds once,
    at the destination.  [pack] and [pack_ratio] are the rounding boundary. *)
From S2P Require Import Prelude.

Module reference.

Record Format : Type := { fraction : Z; exponent : Z; bias : Z }.

Definition signbit (f : Format) : Z := fraction f + exponent f.
Definition infinity (f : Format) : Z := Z.shiftl (Z.shiftl 1 (exponent f) - 1) (fraction f).

Definition B32 : Format := {| fraction := 23; exponent := 8; bias := 127 |}.
Definition B64 : Format := {| fraction := 52; exponent := 11; bias := 1023 |}.

Inductive kind : Type := SNaN | QNaN | Inf | Finite.

#[export] Instance kind_eq_dec : EqDecision kind.
Proof. solve_decision. Defined.

(** ['nan' in k] *)
Definition is_nan (k : kind) : bool := match k with SNaN | QNaN => true | _ => false end.
Definition is_inf (k : kind) : bool := match k with Inf => true | _ => false end.
Definition is_finite (k : kind) : bool := match k with Finite => true | _ => false end.
Definition is_snan (k : kind) : bool := match k with SNaN => true | _ => false end.

(** [(kind, sign, significand, exponent)] *)
Record decoded : Type := { d_kind : kind; d_sign : Z; d_sig : Z; d_exp : Z }.

Definition decode (bits : Z) (fmt : Format) : decoded :=
  let sign := Z.shiftr bits (signbit fmt) in
  let e := Z.land (Z.shiftr bits (fraction fmt)) (Z.shiftl 1 (exponent fmt) - 1) in
  let frac := Z.land bits (Z.shiftl 1 (fraction fmt) - 1) in
  if e =? Z.shiftl 1 (exponent fmt) - 1 then
    {| d_kind := if truthy frac && negb (truthy (Z.shiftr frac (fraction fmt - 1))) then SNaN
                 else if truthy frac then QNaN else Inf;
       d_sign := sign; d_sig := frac; d_exp := 0 |}
  else
    {| d_kind := Finite; d_sign := sign;
       d_sig := Z.lor frac (if truthy e then Z.shiftl 1 (fraction fmt) else 0);
       d_exp := (if truthy e then e else 1) - bias fmt - fraction fmt |}.

(** The increment of a rounding: [remainder] of [divisor], under a [quotient];
    an integer because the expression can be the sign itself. *)
Definition increment_of (quotient remainder divisor sign rn : Z) : Z :=
  if truthy remainder then
    if (rn =? 0) && ((divisor <? remainder * 2)
                     || ((remainder * 2 =? divisor) && truthy (Z.land quotient 1))) then 1
    else if (rn =? 2) && negb (truthy sign) then 1
    else if rn =? 3 then sign else 0
  else 0.

(** [(rounded, inexact, increment)] *)
Definition rounded_integer (n shift sign rn : Z) : Z * bool * Z :=
  if shift <=? 0 then (Z.shiftl n (- shift), false, 0)
  else
    let quotient := n / Z.shiftl 1 shift in
    let remainder := n mod Z.shiftl 1 shift in
    let increment := increment_of quotient remainder (Z.shiftl 1 shift) sign rn in
    (quotient + increment, truthy remainder, increment).

(** Raw bits, NX, UF, OF, rounded away from zero. *)
Record packed : Type := { p_bits : Z; p_nx : bool; p_uf : bool; p_of : bool; p_inc : Z }.

(** The overflow and encoding steps [pack] and [pack_ratio] end with, from the
    rounded mantissa and its quantum. *)
Definition encode (mantissa quantum sign rn : Z) (nx : bool) (increment : Z) (fmt : Format) : packed :=
  let '(mantissa, quantum) :=
    if fraction fmt + 1 <? bit_length mantissa then (Z.shiftr mantissa 1, quantum + 1)
    else (mantissa, quantum) in
  let result_exp := quantum + fraction fmt + bias fmt in
  if Z.shiftl 1 (exponent fmt) - 1 <=? result_exp then
    let to_inf := if rn =? 0 then 1 else if (rn =? 2) && negb (truthy sign) then 1
                  else if rn =? 3 then sign else 0 in
    {| p_bits := Z.lor (Z.shiftl sign (signbit fmt))
                   (if truthy to_inf then infinity fmt else infinity fmt - 1);
       p_nx := true; p_uf := false; p_of := true; p_inc := to_inf |}
  else
    let subnormal := mantissa <? Z.shiftl 1 (fraction fmt) in
    let encoded_exp := if subnormal then 0 else result_exp in
    {| p_bits := Z.lor (Z.lor (Z.shiftl sign (signbit fmt)) (Z.shiftl encoded_exp (fraction fmt)))
                       (Z.land mantissa (Z.shiftl 1 (fraction fmt) - 1));
       p_nx := nx; p_uf := nx && subnormal; p_of := false; p_inc := increment |}.

Definition zero_result (sign : Z) (fmt : Format) : packed :=
  {| p_bits := Z.shiftl sign (signbit fmt); p_nx := false; p_uf := false; p_of := false; p_inc := 0 |}.

Definition pack (n exponent sign rn : Z) (fmt : Format) : packed :=
  if negb (truthy n) then zero_result sign fmt
  else
    let top := bit_length n - 1 + exponent in
    let quantum := Z.max (top - fraction fmt) (1 - bias fmt - fraction fmt) in
    let '(mantissa, nx, increment) := rounded_integer n (quantum - exponent) sign rn in
    encode mantissa quantum sign rn nx increment fmt.

(** The exponent of the leading bit of [n / d]. *)
Definition ratio_top (n d : Z) : Z :=
  let top := bit_length n - bit_length d in
  if (if 0 <=? top then n <? Z.shiftl d top else Z.shiftl n (- top) <? d) then top - 1 else top.

(** [n * 2^shift] over [d] as an exact quotient of integers. *)
Definition scaled_ratio (n d shift : Z) : Z * Z :=
  (if 0 <=? shift then Z.shiftl n shift else n,
   if 0 <=? shift then d else Z.shiftl d (- shift)).

Definition pack_ratio (numerator denominator exponent sign rn : Z) (fmt : Format) : packed :=
  if negb (truthy numerator) then zero_result sign fmt
  else
    let top := ratio_top numerator denominator + exponent in
    let quantum := Z.max (top - fraction fmt) (1 - bias fmt - fraction fmt) in
    let shift := exponent - quantum in
    let '(scaled_n, scaled_d) := scaled_ratio numerator denominator shift in
    let mantissa := scaled_n / scaled_d in
    let remainder := scaled_n mod scaled_d in
    let increment := increment_of mantissa remainder scaled_d sign rn in
    encode (mantissa + increment) quantum sign rn (truthy remainder) increment fmt.

(** The result dictionary. *)
Record outcome : Type := {
  bits : Z; nx : bool; uf : bool; of_ : bool; dz : bool; invalid : bool; increment : Z
}.

Definition plain (b : Z) : outcome :=
  {| bits := b; nx := false; uf := false; of_ := false; dz := false; invalid := false; increment := 0 |}.
Definition with_invalid (b : Z) (i : bool) : outcome :=
  {| bits := b; nx := false; uf := false; of_ := false; dz := false; invalid := i; increment := 0 |}.
Definition of_packed (p : packed) : outcome :=
  {| bits := p_bits p; nx := p_nx p; uf := p_uf p; of_ := p_of p; dz := false; invalid := false;
     increment := p_inc p |}.

Definition neg_if (s m : Z) : Z := if truthy s then - m else m.

(** [int(value < 0) if value else s if s == t else int(rn == 3)] *)
Definition sum_sign (value s t rn : Z) : Z :=
  if truthy value then Z.b2z (value <? 0) else if s =? t then s else Z.b2z (rn =? 3).

Definition quiet (b : Z) (fmt : Format) : Z := Z.lor b (Z.shiftl 1 (fraction fmt - 1)).
Definition default_nan (fmt : Format) : Z := quiet (infinity fmt) fmt.

Definition calc_i32tof (a rn : Z) (fmt : Format) : outcome :=
  let value := Z.land a 0xffffffff in
  let value := if truthy (Z.shiftr value 31) then value - Z.shiftl 1 32 else value in
  of_packed (pack (Z.abs value) 0 (Z.b2z (value <? 0)) rn fmt).

Definition calc_cmp (x y : decoded) : outcome :=
  let inv := is_snan (d_kind x) || is_snan (d_kind y) in
  if is_nan (d_kind x) || is_nan (d_kind y) then with_invalid 3 inv
  else
    let side u := if is_inf (d_kind u) then (if truthy (d_sign u) then -2 else 2)
                  else if truthy (d_sig u) then (if truthy (d_sign u) then -1 else 1) else 0 in
    let '(va, vb) :=
      if is_inf (d_kind x) || is_inf (d_kind y) then (side x, side y)
      else
        let e := Z.min (d_exp x) (d_exp y) in
        (Z.shiftl (neg_if (d_sign x) (d_sig x)) (d_exp x - e),
         Z.shiftl (neg_if (d_sign y) (d_sig y)) (d_exp y - e)) in
    plain (if va <? vb then 1 else if vb <? va then 2 else 0).

Definition calc_ftoi32 (x : decoded) (rn : Z) : outcome :=
  if negb (is_finite (d_kind x)) then with_invalid 0x80000000 true
  else
    let '(value, nx, inc) := rounded_integer (d_sig x) (- d_exp x) (d_sign x) rn in
    let value := neg_if (d_sign x) value in
    if negb ((- Z.shiftl 1 31 <=? value) && (value <? Z.shiftl 1 31)) then with_invalid 0x80000000 true
    else {| bits := Z.land value 0xffffffff; nx := nx; uf := false; of_ := false; dz := false;
            invalid := false; increment := inc |}.

Definition calc_convert (x : decoded) (rn : Z) (fmt dest : Format) : outcome :=
  if is_nan (d_kind x) then
    let payload := if fraction dest <=? fraction fmt
                   then Z.shiftr (d_sig x) (fraction fmt - fraction dest)
                   else Z.shiftl (d_sig x) (fraction dest - fraction fmt) in
    with_invalid (Z.lor (Z.lor (Z.lor (Z.shiftl (d_sign x) (signbit dest)) (infinity dest)) payload)
                        (Z.shiftl 1 (fraction dest - 1)))
                 (is_snan (d_kind x))
  else if is_inf (d_kind x) then plain (Z.lor (Z.shiftl (d_sign x) (signbit dest)) (infinity dest))
  else of_packed (pack (d_sig x) (d_exp x) (d_sign x) rn dest).

(** Addition with the sign of [y] already settled for subtraction. *)
Definition calc_add (x y : decoded) (sb rn : Z) (fmt : Format) : outcome :=
  if is_inf (d_kind x) && is_inf (d_kind y) && negb (d_sign x =? sb)
  then with_invalid (default_nan fmt) true
  else if is_inf (d_kind x) || is_inf (d_kind y)
  then plain (Z.lor (Z.shiftl (if is_inf (d_kind x) then d_sign x else sb) (signbit fmt)) (infinity fmt))
  else
    let e := Z.min (d_exp x) (d_exp y) in
    let value := Z.shiftl (neg_if (d_sign x) (d_sig x)) (d_exp x - e)
                 + Z.shiftl (neg_if sb (d_sig y)) (d_exp y - e) in
    of_packed (pack (Z.abs value) e (sum_sign value (d_sign x) sb rn) rn fmt).

Definition is_zero (x : decoded) : bool := is_finite (d_kind x) && negb (truthy (d_sig x)).

Definition calc_div (x y : decoded) (rn : Z) (fmt : Format) : outcome :=
  let s := Z.lxor (d_sign x) (d_sign y) in
  if (is_inf (d_kind x) && is_inf (d_kind y)) || (is_zero x && is_zero y)
  then with_invalid (default_nan fmt) true
  else if is_finite (d_kind x) && truthy (d_sig x) && is_zero y
  then {| bits := Z.lor (Z.shiftl s (signbit fmt)) (infinity fmt); nx := false; uf := false;
          of_ := false; dz := true; invalid := false; increment := 0 |}
  else if is_inf (d_kind x) || is_inf (d_kind y)
  then plain (Z.lor (Z.shiftl s (signbit fmt)) (if is_inf (d_kind x) then infinity fmt else 0))
  else of_packed (pack_ratio (d_sig x) (d_sig y) (d_exp x - d_exp y) s rn fmt).

Definition calc_mul (x y : decoded) (rn : Z) (fmt : Format) : outcome :=
  let s := Z.lxor (d_sign x) (d_sign y) in
  if (is_inf (d_kind x) && is_zero y) || (is_inf (d_kind y) && is_zero x)
  then with_invalid (default_nan fmt) true
  else if is_inf (d_kind x) || is_inf (d_kind y)
  then plain (Z.lor (Z.shiftl s (signbit fmt)) (infinity fmt))
  else of_packed (pack (d_sig x * d_sig y) (d_exp x + d_exp y) s rn fmt).

Definition calculate (op : string) (a b rn : Z) (fmt : Format) : result outcome :=
  let x := decode a fmt in
  let y := decode b fmt in
  let inv := is_snan (d_kind x) || is_snan (d_kind y) in
  if String.eqb op "i32tof" then Ok (calc_i32tof a rn fmt)
  else if String.eqb op "cmp" then Ok (calc_cmp x y)
  else if String.eqb op "ftoi32" then Ok (calc_ftoi32 x rn)
  else if str_in op ["to32"; "to64"]%string
  then Ok (calc_convert x rn fmt (if String.eqb op "to32" then B32 else B64))
  else if is_nan (d_kind x) || is_nan (d_kind y)
  then Ok (with_invalid (quiet (if is_nan (d_kind x) then a else b) fmt) inv)
  else
    let sb := if String.eqb op "sub" then Z.lxor (d_sign y) 1 else d_sign y in
    if str_in op ["add"; "sub"]%string then Ok (calc_add x y sb rn fmt)
    else if String.eqb op "div" then Ok (calc_div x y rn fmt)
    else if String.eqb op "mul" then Ok (calc_mul x y rn fmt)
    else Raise (ValueError op).

(** The first NaN of the three operands. *)
Fixpoint first_nan (l : list (Z * decoded)) : option Z :=
  match l with
  | [] => None
  | (b, d) :: l' => if is_nan (d_kind d) then Some b else first_nan l'
  end.

(** [calculate_fma(a, b, c)]: the exact sum [a * b + c], rounded once. *)
Definition calculate_fma (a b c rn : Z) (fmt : Format) (negate_product negate_addend : bool) : outcome :=
  let x := decode a fmt in
  let y := decode b fmt in
  let z := decode c fmt in
  let inv := is_snan (d_kind x) || is_snan (d_kind y) || is_snan (d_kind z) in
  match first_nan [(a, x); (b, y); (c, z)] with
  | Some v => with_invalid (quiet v fmt) inv
  | None =>
      let sp := Z.lxor (Z.lxor (d_sign x) (d_sign y)) (Z.b2z negate_product) in
      let sc := Z.lxor (d_sign z) (Z.b2z negate_addend) in
      if (is_inf (d_kind x) && is_zero y) || (is_inf (d_kind y) && is_zero x)
      then with_invalid (default_nan fmt) true
      else if is_inf (d_kind x) || is_inf (d_kind y) then
        if is_inf (d_kind z) && negb (sp =? sc) then with_invalid (default_nan fmt) true
        else plain (Z.lor (Z.shiftl sp (signbit fmt)) (infinity fmt))
      else if is_inf (d_kind z) then plain (Z.lor (Z.shiftl sc (signbit fmt)) (infinity fmt))
      else
        let e := Z.min (d_exp x + d_exp y) (d_exp z) in
        let product := Z.shiftl (d_sig x * d_sig y) (d_exp x + d_exp y - e) in
        let addend := Z.shiftl (d_sig z) (d_exp z - e) in
        let value := neg_if sp product + neg_if sc addend in
        of_packed (pack (Z.abs value) e (sum_sign value sp sc rn) rn fmt)
  end.

End reference.

Section Rounding.
Import reference.

Context (fmt : Format) (Hf : 1 <= fraction fmt) (He : 2 <= exponent fmt).

Definition emin : Z := 1 - bias fmt - fraction fmt.
(** The quantum of the largest binade. *)
Definition qmax : Z := Z.shiftl 1 (exponent fmt) - 2 - bias fmt - fraction fmt.

Lemma pow2_pos n : 0 <= n -> 0 < 2 ^ n.
Proof using. intros. apply Z.pow_pos_nonneg; lia. Qed.

Lemma pow2_succ n : 0 <= n -> 2 ^ (n + 1) = 2 * 2 ^ n.
Proof using. intros. rewrite Z.pow_add_r by lia. lia. Qed.

Lemma mul_add_bound a b P E : 0 <= a < E -> 0 <= b < P -> 0 <= a * P + b < P * E.
Proof using.
  intros Ha Hb. assert (a * P + P <= E * P) by (rewrite <- (Z.mul_succ_l a P); apply Z.mul_le_mono_nonneg_r; lia).
  assert (0 <= a * P) by (apply Z.mul_nonneg_nonneg; lia). lia.
Qed.

(** ** The three fields of an encoding *)
Definition assemble (s e f : Z) : Z :=
  Z.lor (Z.lor (Z.shiftl s (signbit fmt)) (Z.shiftl e (fraction fmt))) f.

Section Fields.
Context (s e f : Z) (Hs : 0 <= s <= 1) (Hep : 0 <= e < 2 ^ exponent fmt)
        (Hfr : 0 <= f < 2 ^ fraction fmt).

Lemma assemble_sum : assemble s e f = s * 2 ^ signbit fmt + (e * 2 ^ fraction fmt + f).
Proof using Hf He Hs Hep Hfr.
  unfold assemble. rewrite <- Z.lor_assoc, (lor_shiftl_add e f) by lia. unfold signbit.
  pose proof (pow2_pos (exponent fmt) ltac:(lia)). pose proof (pow2_pos (fraction fmt) ltac:(lia)).
  rewrite lor_shiftl_add; [reflexivity | lia |]. rewrite Z.pow_add_r by lia.
  apply mul_add_bound; assumption.
Qed.

Lemma assemble_range : 0 <= assemble s e f < 2 ^ (signbit fmt + 1).
Proof using Hf He Hs Hep Hfr.
  rewrite assemble_sum. unfold signbit. rewrite pow2_succ, Z.pow_add_r by lia.
  pose proof (mul_add_bound e f _ _ Hep Hfr).
  assert (s = 0 \/ s = 1) as [-> | ->] by lia; lia.
Qed.

Lemma assemble_low : (e * 2 ^ fraction fmt + f) < 2 ^ signbit fmt.
Proof using Hf He Hep Hfr.
  unfold signbit. rewrite Z.pow_add_r by lia. apply mul_add_bound; assumption.
Qed.

Lemma assemble_sign : Z.shiftr (assemble s e f) (signbit fmt) = s.
Proof using Hf He Hs Hep Hfr.
  rewrite assemble_sum, Z.shiftr_div_pow2 by (unfold signbit; lia).
  rewrite Z.div_add_l by (unfold signbit; pose proof (pow2_pos (fraction fmt + exponent fmt)); lia).
  pose proof assemble_low. pose proof (pow2_pos (fraction fmt) ltac:(lia)).
  rewrite Z.div_small by nia. lia.
Qed.

Lemma assemble_exp :
  Z.land (Z.shiftr (assemble s e f) (fraction fmt)) (Z.shiftl 1 (exponent fmt) - 1) = e.
Proof using Hf He Hs Hep Hfr.
  rewrite assemble_sum, Z.shiftr_div_pow2, Z.shiftl_1_l by lia.
  replace (2 ^ exponent fmt - 1) with (Z.ones (exponent fmt)) by (rewrite Z.ones_equiv; lia).
  rewrite Z.land_ones by lia. unfold signbit. rewrite Z.pow_add_r by lia.
  pose proof (pow2_pos (exponent fmt) ltac:(lia)). pose proof (pow2_pos (fraction fmt) ltac:(lia)).
  replace (s * (2 ^ fraction fmt * 2 ^ exponent fmt) + (e * 2 ^ fraction fmt + f))
    with ((s * 2 ^ exponent fmt + e) * 2 ^ fraction fmt + f) by ring.
  rewrite Z.div_add_l, Z.div_small, Z.add_0_r by lia.
  rewrite Z.add_comm, Z.mod_add, Z.mod_small by lia. reflexivity.
Qed.

Lemma assemble_frac : Z.land (assemble s e f) (Z.shiftl 1 (fraction fmt) - 1) = f.
Proof using Hf He Hs Hep Hfr.
  rewrite assemble_sum, Z.shiftl_1_l.
  replace (2 ^ fraction fmt - 1) with (Z.ones (fraction fmt)) by (rewrite Z.ones_equiv; lia).
  rewrite Z.land_ones by lia. unfold signbit. rewrite Z.pow_add_r by lia.
  pose proof (pow2_pos (fraction fmt) ltac:(lia)).
  replace (s * (2 ^ fraction fmt * 2 ^ exponent fmt) + (e * 2 ^ fraction fmt + f))
    with (f + (s * 2 ^ exponent fmt + e) * 2 ^ fraction fmt) by ring.
  rewrite Z.mod_add, Z.mod_small by lia. reflexivity.
Qed.

Lemma decode_assemble :
  decode (assemble s e f) fmt =
  if e =? 2 ^ exponent fmt - 1 then
    {| d_kind := if truthy f && negb (truthy (Z.shiftr f (fraction fmt - 1))) then SNaN
                 else if truthy f then QNaN else Inf;
       d_sign := s; d_sig := f; d_exp := 0 |}
  else
    {| d_kind := Finite; d_sign := s;
       d_sig := if truthy e then 2 ^ fraction fmt + f else f;
       d_exp := (if truthy e then e else 1) - bias fmt - fraction fmt |}.
Proof using Hf He Hs Hep Hfr.
  unfold decode. rewrite assemble_sign, assemble_exp, assemble_frac. rewrite !Z.shiftl_1_l.
  destruct (e =? 2 ^ exponent fmt - 1); [reflexivity |]. f_equal.
  destruct (truthy e); [| apply Z.lor_0_r]. rewrite Z.lor_comm.
  rewrite <- (Z.mul_1_l (2 ^ fraction fmt)), <- Z.shiftl_mul_pow2, lor_shiftl_add by lia. 
  rewrite Z.shiftl_mul_pow2 by lia. reflexivity.
Qed.
End Fields.

(** Every word of the format is such an assembly. *)
Lemma word_fields b :
  0 <= b < 2 ^ (signbit fmt + 1) ->
  exists s e f, 0 <= s <= 1 /\ 0 <= e < 2 ^ exponent fmt /\ 0 <= f < 2 ^ fraction fmt /\
    b = assemble s e f.
Proof using Hf He.
  intros Hb. unfold signbit in Hb. rewrite pow2_succ, Z.pow_add_r in Hb by lia.
  pose proof (pow2_pos (exponent fmt) ltac:(lia)) as He0. pose proof (pow2_pos (fraction fmt) ltac:(lia)) as Hf0.
  set (P := 2 ^ fraction fmt) in *. set (E := 2 ^ exponent fmt) in *.
  exists (b / (P * E)), ((b mod (P * E)) / P), ((b mod (P * E)) mod P).
  pose proof (Z.div_mod b (P * E) ltac:(nia)) as D1.
  pose proof (Z.mod_pos_bound b (P * E) ltac:(nia)) as M1.
  pose proof (Z.div_mod (b mod (P * E)) P ltac:(lia)) as D2.
  pose proof (Z.mod_pos_bound (b mod (P * E)) P ltac:(lia)) as M2.
  assert (H1 : 0 <= b / (P * E) <= 1).
  { split; [apply Z.div_pos; nia |]. apply Z.lt_succ_r, Z.div_lt_upper_bound; nia. }
  assert (H2 : 0 <= (b mod (P * E)) / P < E).
  { split; [apply Z.div_pos; nia |]. apply Z.div_lt_upper_bound; nia. }
  split; [exact H1 |]. split; [exact H2 |]. split; [exact M2 |].
  rewrite assemble_sum by (try exact H1; try exact H2; try exact M2). unfold signbit.
  rewrite Z.pow_add_r by lia. fold P. fold E. nia.
Qed.

(** ** Bit lengths *)
Lemma bit_length_bounds n : 0 < n -> 1 <= bit_length n /\ 2 ^ (bit_length n - 1) <= n < 2 ^ bit_length n.
Proof using.
  intros Hn. unfold bit_length. destruct (Z.eqb_spec n 0); [lia |]. rewrite Z.abs_eq by lia.
  pose proof (Z.log2_spec n Hn). pose proof (Z.log2_nonneg n).
  replace (Z.log2 n + 1 - 1) with (Z.log2 n) by lia. rewrite <- Z.add_1_r in *. lia.
Qed.

Lemma bit_length_gt n k : 0 <= n -> 0 <= k -> (k <? bit_length n) = (2 ^ k <=? n).
Proof using.
  intros Hn Hk. destruct (Z.eq_dec n 0) as [-> |].
  - change (bit_length 0) with 0. pose proof (pow2_pos k Hk).
    rewrite (proj2 (Z.ltb_ge k 0)), (proj2 (Z.leb_gt (2 ^ k) 0)) by lia. reflexivity.
  - destruct (bit_length_bounds n ltac:(lia)) as (H1 & H2 & H3).
    destruct (Z.ltb_spec k (bit_length n)), (Z.leb_spec (2 ^ k) n); try reflexivity; exfalso.
    + assert (2 ^ k <= 2 ^ (bit_length n - 1)) by (apply Z.pow_le_mono_r; lia). lia.
    + assert (2 ^ bit_length n <= 2 ^ k) by (apply Z.pow_le_mono_r; lia). lia.
Qed.

(** ** The encoding step *)
Lemma encode_spec m q s rn nx inc :
  0 <= s <= 1 -> 0 <= m <= 2 ^ (fraction fmt + 1) -> emin <= q ->
  (2 ^ fraction fmt <= m \/ q = emin) ->
  let p := encode m q s rn nx inc fmt in
  (p_of p = true <-> qmax < q \/ (q = qmax /\ m = 2 ^ (fraction fmt + 1))) /\
  (p_of p = true -> p_nx p = true /\ p_uf p = false /\
     p_bits p = assemble s (if truthy (p_inc p) then 2 ^ exponent fmt - 1 else 2 ^ exponent fmt - 2)
                  (if truthy (p_inc p) then 0 else 2 ^ fraction fmt - 1) /\
     p_inc p = (if rn =? 0 then 1 else if (rn =? 2) && negb (truthy s) then 1 else if rn =? 3 then s else 0)) /\
  (p_of p = false -> p_nx p = nx /\ p_inc p = inc /\ p_uf p = nx && (m <? 2 ^ fraction fmt) /\
     0 <= p_bits p < 2 ^ (signbit fmt + 1) /\
     exists M q', decode (p_bits p) fmt = {| d_kind := Finite; d_sign := s; d_sig := M; d_exp := q' |} /\
       q <= q' /\ M * 2 ^ (q' - q) = m /\ (m < 2 ^ (fraction fmt + 1) -> q' = q)).
Proof using Hf He.
  intros Hs Hm Hq Hnorm. unfold encode.
  pose proof (pow2_pos (fraction fmt) ltac:(lia)) as HF.
  pose proof (pow2_pos (exponent fmt) ltac:(lia)) as HE.
  assert (HE4 : 4 <= 2 ^ exponent fmt) by (change 4 with (2 ^ 2); apply Z.pow_le_mono_r; lia).
  pose proof (pow2_succ (fraction fmt) ltac:(lia)) as HF1. rewrite HF1 in *.
  rewrite bit_length_gt, HF1 by lia. rewrite !Z.shiftl_1_l.
  set (carry := 2 * 2 ^ fraction fmt <=? m).
  assert (Hc : carry = true -> m = 2 * 2 ^ fraction fmt) by (subst carry; rewrite Z.leb_le; lia).
  assert (Hnc : carry = false -> m < 2 * 2 ^ fraction fmt) by (subst carry; rewrite Z.leb_gt; lia).
  set (m' := if carry then Z.shiftr m 1 else m). set (q' := if carry then q + 1 else q).
  assert (E : (if carry then (Z.shiftr m 1, q + 1) else (m, q)) = (m', q')) by (subst m' q'; destruct carry; reflexivity).
  rewrite E. clear E. cbv zeta.
  assert (Hm' : 0 <= m' < 2 * 2 ^ fraction fmt /\ (2 ^ fraction fmt <= m' \/ q' = emin) /\ q <= q' /\ m' * 2 ^ (q' - q) = m
                /\ (m' <? 2 ^ fraction fmt) = (m <? 2 ^ fraction fmt)).
  { subst m' q'. destruct carry.
    - rewrite Z.shiftr_div_pow2, Z.pow_1_r, (Hc eq_refl), Z.mul_comm, Z.div_mul by lia.
      replace (q + 1 - q) with 1 by lia. repeat split; try lia.
    - replace (q - q) with 0 by lia. specialize (Hnc eq_refl). repeat split; try lia. }
  destruct Hm' as (Hm1 & Hm2 & Hm3 & Hm4 & Hm5).
  assert (Hov : (2 ^ exponent fmt - 1 <=? q' + fraction fmt + bias fmt) = true <->
                qmax < q \/ (q = qmax /\ m = 2 * 2 ^ fraction fmt)).
  { rewrite Z.leb_le. unfold qmax. rewrite Z.shiftl_1_l. subst q'. destruct carry eqn:Ec.
    - rewrite (Hc eq_refl). lia.
    - specialize (Hnc eq_refl). lia. }
  destruct (2 ^ exponent fmt - 1 <=? q' + fraction fmt + bias fmt) eqn:Eo; cbn [p_of p_nx p_uf p_bits p_inc].
  - split; [rewrite <- Hov; tauto |]. split; [| discriminate]. intros _.
    split; [reflexivity |]. split; [reflexivity |]. split; [| reflexivity].
    set (ti := if rn =? 0 then 1 else _). unfold assemble, infinity. rewrite Z.shiftl_1_l.
    destruct (truthy ti).
    + rewrite Z.lor_0_r. reflexivity.
    + rewrite <- Z.lor_assoc. f_equal. rewrite lor_shiftl_add by lia.
      rewrite Z.shiftl_mul_pow2 by lia. ring.
  - split; [rewrite <- Hov; split; discriminate |]. split; [discriminate |]. intros _.
    apply Z.leb_gt in Eo. unfold emin in *.
    set (sub := m' <? 2 ^ fraction fmt).
    set (ee := if sub then 0 else q' + fraction fmt + bias fmt).
    set (fr := Z.land m' (2 ^ fraction fmt - 1)).
    assert (Hfr : fr = m' mod 2 ^ fraction fmt).
    { subst fr. replace (2 ^ fraction fmt - 1) with (Z.ones (fraction fmt)) by (rewrite Z.ones_equiv; lia).
      apply Z.land_ones. lia. }
    pose proof (Z.mod_pos_bound m' (2 ^ fraction fmt) HF) as Hfb. rewrite <- Hfr in Hfb.
    assert (Hee : 0 <= ee < 2 ^ exponent fmt - 1).
    { subst ee sub. destruct (Z.ltb_spec m' (2 ^ fraction fmt)); lia. }
    split; [reflexivity |]. split; [reflexivity |]. split; [subst sub; rewrite Hm5; reflexivity |].
    split; [apply assemble_range; lia |].
    exists m', q'. split; [| split; [assumption | split; [assumption |]]].
    2: { intros Hlt. subst q'. destruct carry; [specialize (Hc eq_refl); lia | reflexivity]. }
    change (Z.lor (Z.lor (Z.shiftl s (signbit fmt)) (Z.shiftl ee (fraction fmt))) fr) with (assemble s ee fr).
    rewrite decode_assemble by lia. rewrite (proj2 (Z.eqb_neq ee _)) by lia.
    subst ee sub. destruct (Z.ltb_spec m' (2 ^ fraction fmt)) as [Hsub | Hsub].
    + cbn [truthy Z.eqb negb]. rewrite Hfr, Z.mod_small by lia. f_equal. lia.
    + unfold truthy. rewrite (proj2 (Z.eqb_neq _ 0)) by lia. cbn [negb].
      f_equal; [| lia]. rewrite Hfr.
      rewrite <- (Z.mod_unique m' (2 ^ fraction fmt) 1 (m' - 2 ^ fraction fmt)) by lia. lia.
Qed.


(** ** Correct rounding of a ratio *)

(** [m] is [num / den] rounded in mode [rn] for a value of sign [s]: nearest
    with ties to even, away from zero, or towards zero. *)
Definition rounds (rn s num den m : Z) : Prop :=
  if rn =? 0 then
    2 * Z.abs (m * den - num) <= den /\ (2 * Z.abs (m * den - num) = den -> Z.even m = true)
  else if ((rn =? 2) && (s =? 0)) || ((rn =? 3) && (s =? 1))
  then (m - 1) * den < num <= m * den
  else m * den <= num < (m + 1) * den.

Lemma increment_rounds num den s rn :
  0 <= num -> 0 < den -> 0 <= s <= 1 -> 0 <= rn < 4 ->
  let inc := increment_of (num / den) (num mod den) den s rn in
  rounds rn s num den (num / den + inc) /\ 0 <= inc <= 1.
Proof using.
  intros Hn Hd Hs Hrn. cbv zeta. unfold increment_of, rounds.
  pose proof (Z.div_mod num den ltac:(lia)) as D. pose proof (Z.mod_pos_bound num den Hd) as M.
  set (q := num / den) in *. set (r := num mod den) in *.
  assert (Eq : q * den = num - r) by lia.
  assert (Heven : truthy (Z.land q 1) = negb (Z.even q)).
  { change 1 with (Z.ones 1). rewrite Z.land_ones, Z.pow_1_r, Zmod_even by lia.
    destruct (Z.even q); reflexivity. }
  assert (Hsucc : Z.even (q + 1) = negb (Z.even q)).
  { rewrite Z.add_1_r, Z.even_succ, <- Z.negb_even. reflexivity. }
  change (truthy r) with (negb (r =? 0)). destruct (Z.eqb_spec r 0) as [Er | Er]; cbn [negb].
  - rewrite Z.add_0_r. split; [| lia].
    destruct (rn =? 0); [split; [| intros Hx; exfalso; revert Hx] | destruct (_ || _)];
      rewrite ?Z.mul_add_distr_r, ?Z.mul_sub_distr_r, ?Eq; lia.
  - destruct (Z.eqb_spec rn 0) as [-> | Hr0]; cbn [andb].
    + rewrite Heven. destruct (Z.ltb_spec den (r * 2)); cbn [orb].
      * rewrite Z.mul_add_distr_r, Eq. split; [split; [lia | lia] | lia].
      * destruct (Z.eqb_spec (r * 2) den); cbn [andb].
        -- destruct (Z.even q) eqn:Ev; cbn [negb].
           ++ change (if (0 =? 2) && _ then 1 else if 0 =? 3 then s else 0) with 0.
              rewrite Z.add_0_r, Eq. split; [split; [lia | auto] | lia].
           ++ rewrite Z.mul_add_distr_r, Eq, Hsucc. split; [split; [lia | reflexivity] | lia].
        -- change (if (0 =? 2) && _ then 1 else if 0 =? 3 then s else 0) with 0.
           rewrite Z.add_0_r, Eq. split; [split; [lia | lia] | lia].
    + assert (Hts : truthy s = (s =? 1)) by (assert (s = 0 \/ s = 1) as [-> | ->] by lia; reflexivity).
      rewrite Hts. assert (Hs0 : (s =? 0) = negb (s =? 1)) by (assert (s = 0 \/ s = 1) as [-> | ->] by lia; reflexivity).
      rewrite Hs0. assert (s = 0 \/ s = 1) as [-> | ->] by lia;
        (assert (rn = 1 \/ rn = 2 \/ rn = 3) as [-> | [-> | ->]] by lia); cbn [Z.eqb Pos.eqb negb andb orb];
        rewrite ?Z.add_0_r, ?Z.add_simpl_r, ?Z.mul_add_distr_r, ?Eq; lia.
Qed.

Lemma lt_scale n d a b a' b' :
  0 <= d -> 0 <= a -> 0 <= b -> 0 <= a' -> 0 <= b' ->
  n * 2 ^ b < d * 2 ^ a -> a + b' <= a' + b -> n * 2 ^ b' < d * 2 ^ a'.
Proof using.
  intros Hd Ha Hb Ha' Hb' H Hle. pose proof (pow2_pos b Hb). pose proof (pow2_pos b' Hb').
  apply (Z.mul_lt_mono_pos_r (2 ^ b)); [assumption |].
  assert (S1 : n * 2 ^ b * 2 ^ b' < d * 2 ^ a * 2 ^ b') by (apply Z.mul_lt_mono_pos_r; assumption).
  assert (S2 : d * 2 ^ (a + b') <= d * 2 ^ (a' + b)).
  { apply Z.mul_le_mono_nonneg_l; [exact Hd |]. apply Z.pow_le_mono_r; lia. }
  rewrite !Z.pow_add_r in S2 by lia. lia.
Qed.

Lemma le_scale n d a b a' b' :
  0 <= d -> 0 <= a -> 0 <= b -> 0 <= a' -> 0 <= b' ->
  d * 2 ^ a <= n * 2 ^ b -> a' + b <= a + b' -> d * 2 ^ a' <= n * 2 ^ b'.
Proof using.
  intros Hd Ha Hb Ha' Hb' H Hle. pose proof (pow2_pos b Hb). pose proof (pow2_pos b' Hb').
  apply (Z.mul_le_mono_pos_r _ _ (2 ^ b)); [assumption |].
  assert (S1 : d * 2 ^ a * 2 ^ b' <= n * 2 ^ b * 2 ^ b') by (apply Z.mul_le_mono_nonneg_r; lia).
  assert (S2 : d * 2 ^ (a' + b) <= d * 2 ^ (a + b')).
  { apply Z.mul_le_mono_nonneg_l; [exact Hd |]. apply Z.pow_le_mono_r; lia. }
  rewrite !Z.pow_add_r in S2 by lia. lia.
Qed.

(** [2^t <= n/d < 2^(t+1)] for [t = ratio_top n d], with every scaling. *)
Lemma ratio_top_spec n d :
  0 < n -> 0 < d ->
  (forall a b, 0 <= a -> 0 <= b -> ratio_top n d + 1 <= a - b -> n * 2 ^ b < d * 2 ^ a) /\
  (forall a b, 0 <= a -> 0 <= b -> a - b <= ratio_top n d -> d * 2 ^ a <= n * 2 ^ b).
Proof using.
  intros Hn Hd. destruct (bit_length_bounds n Hn) as (Ln & N1 & N2), (bit_length_bounds d Hd) as (Ld & D1 & D2).
  set (bn := bit_length n) in *. set (bd := bit_length d) in *.
  pose proof (pow2_pos (bn - 1) ltac:(lia)). pose proof (pow2_pos bd ltac:(lia)).
  pose proof (pow2_pos (bd - 1) ltac:(lia)). pose proof (pow2_pos bn ltac:(lia)).
  assert (Hup : n * 2 ^ (bd - 1) < d * 2 ^ bn).
  { apply Z.lt_le_trans with (2 ^ bn * 2 ^ (bd - 1)); [apply Z.mul_lt_mono_pos_r; lia |].
    rewrite Z.mul_comm. apply Z.mul_le_mono_nonneg_r; lia. }
  assert (Hlo : d * 2 ^ (bn - 1) <= n * 2 ^ bd).
  { apply Z.le_trans with (2 ^ bd * 2 ^ (bn - 1)); [apply Z.mul_le_mono_nonneg_r; lia |].
    rewrite Z.mul_comm. apply Z.mul_le_mono_nonneg_r; lia. }
  unfold ratio_top. fold bn bd. cbv zeta.
  assert (Htest : forall a b, 0 <= a -> 0 <= b -> a - b = bn - bd ->
    (if 0 <=? bn - bd then n <? Z.shiftl d (bn - bd) else Z.shiftl n (- (bn - bd)) <? d) =
    (n * 2 ^ b <? d * 2 ^ a)).
  { intros a b Ha Hb Eab. destruct (Z.leb_spec 0 (bn - bd)).
    - rewrite Z.shiftl_mul_pow2 by lia.
      destruct (Z.ltb_spec n (d * 2 ^ (bn - bd))) as [Hlt | Hge], (Z.ltb_spec (n * 2 ^ b) (d * 2 ^ a)) as [Hlt' | Hge'];
        try reflexivity; exfalso.
      + apply (Z.lt_irrefl (n * 2 ^ b)). apply Z.lt_le_trans with (d * 2 ^ a); [| exact Hge'].
        apply (lt_scale n d (bn - bd) 0); lia.
      + apply (Z.lt_irrefl (n * 2 ^ b)). apply Z.lt_le_trans with (d * 2 ^ a); [exact Hlt' |].
        apply (le_scale n d (bn - bd) 0); lia.
    - rewrite Z.shiftl_mul_pow2 by lia.
      destruct (Z.ltb_spec (n * 2 ^ (- (bn - bd))) d) as [Hlt | Hge], (Z.ltb_spec (n * 2 ^ b) (d * 2 ^ a)) as [Hlt' | Hge'];
        try reflexivity; exfalso.
      + apply (Z.lt_irrefl (n * 2 ^ b)). apply Z.lt_le_trans with (d * 2 ^ a); [| exact Hge'].
        apply (lt_scale n d 0 (- (bn - bd))); lia.
      + apply (Z.lt_irrefl (n * 2 ^ b)). apply Z.lt_le_trans with (d * 2 ^ a); [exact Hlt' |].
        apply (le_scale n d 0 (- (bn - bd))); lia. }
  destruct (if 0 <=? bn - bd then _ else _).
  - split; intros a b Ha Hb Hab.
    + pose proof (Htest (bn + b + a) (bd + b + a) ltac:(lia) ltac:(lia) ltac:(lia)) as Ht.
      symmetry in Ht. apply Z.ltb_lt in Ht.
      apply (lt_scale n d (bn + b + a) (bd + b + a)); lia.
    + apply (le_scale n d (bn - 1) bd); lia.
  - split; intros a b Ha Hb Hab.
    + apply (lt_scale n d bn (bd - 1)); lia.
    + pose proof (Htest (bn + b + a) (bd + b + a) ltac:(lia) ltac:(lia) ltac:(lia)) as Ht.
      symmetry in Ht. apply Z.ltb_ge in Ht.
      apply (le_scale n d (bn + b + a) (bd + b + a)); lia.
Qed.

(** The mantissa before encoding: a full-precision, correctly rounded one. *)
Lemma ratio_mantissa n d e s rn :
  0 < n -> 0 < d -> 0 <= s <= 1 -> 0 <= rn < 4 ->
  let q := Z.max (ratio_top n d + e - fraction fmt) emin in
  let sn := fst (scaled_ratio n d (e - q)) in
  let sd := snd (scaled_ratio n d (e - q)) in
  let inc := increment_of (sn / sd) (sn mod sd) sd s rn in
  0 < sd /\ rounds rn s sn sd (sn / sd + inc) /\
  0 <= sn / sd + inc <= 2 ^ (fraction fmt + 1) /\
  sn < sd * 2 ^ (fraction fmt + 1) /\
  (sd * 2 ^ fraction fmt <= sn /\ 2 ^ fraction fmt <= sn / sd + inc \/ q = emin).
Proof using Hf.
  intros Hn Hd Hs Hrn. cbv zeta. set (t := ratio_top n d).
  destruct (ratio_top_spec n d Hn Hd) as [Hup Hlo]. fold t in Hup, Hlo.
  set (q := Z.max (t + e - fraction fmt) emin). set (sh := e - q).
  unfold scaled_ratio. fold sh. cbn [fst snd].
  pose proof (pow2_pos (fraction fmt) ltac:(lia)).
  assert (Hb : exists a b, 0 <= a /\ 0 <= b /\ b - a = sh /\
     (if 0 <=? sh then Z.shiftl n sh else n) = n * 2 ^ b /\
     (if 0 <=? sh then d else Z.shiftl d (- sh)) = d * 2 ^ a).
  { destruct (Z.leb_spec 0 sh).
    - exists 0, sh. rewrite Z.shiftl_mul_pow2, Z.mul_1_r by lia. repeat split; lia.
    - exists (- sh), 0. rewrite Z.shiftl_mul_pow2, Z.mul_1_r by lia. repeat split; lia. }
  destruct Hb as (a & b & Ha & Hb & Hab & -> & ->).
  pose proof (pow2_pos a Ha). pose proof (pow2_pos b Hb).
  assert (Hsd : 0 < d * 2 ^ a) by (apply Z.mul_pos_pos; lia).
  assert (Hsn : 0 <= n * 2 ^ b) by (apply Z.mul_nonneg_nonneg; lia).
  destruct (increment_rounds (n * 2 ^ b) (d * 2 ^ a) s rn Hsn Hsd Hs Hrn) as [Hr Hi].
  split; [exact Hsd |]. split; [exact Hr |].
  assert (Hq0 : 0 <= n * 2 ^ b / (d * 2 ^ a)) by (apply Z.div_pos; lia).
  assert (Hlt : n * 2 ^ b < d * 2 ^ a * 2 ^ (fraction fmt + 1)).
  { rewrite <- Z.mul_assoc, <- Z.pow_add_r by lia. apply Hup; subst sh q; lia. }
  assert (Hdiv : n * 2 ^ b / (d * 2 ^ a) < 2 ^ (fraction fmt + 1)) by (apply Z.div_lt_upper_bound; assumption).
  split; [lia |]. split; [exact Hlt |].
  destruct (Z.max_spec (t + e - fraction fmt) emin) as [[_ Eq] | [Hge Eq]]; [right; exact Eq | left].
  assert (Hle : d * 2 ^ a * 2 ^ fraction fmt <= n * 2 ^ b).
  { rewrite <- Z.mul_assoc, <- Z.pow_add_r by lia. apply Hlo; subst sh q; lia. }
  split; [exact Hle |].
  assert (2 ^ fraction fmt <= n * 2 ^ b / (d * 2 ^ a)) by (apply Z.div_le_lower_bound; assumption). lia.
Qed.

(** What a correctly rounded encoding of [n / d * 2^e] is. *)
Record rounded_result (n d e s rn : Z) (p : packed) (q m : Z) : Prop := {
  rr_num := fst (scaled_ratio n d (e - q)); rr_den := snd (scaled_ratio n d (e - q));
  (** [q] is the quantum of the format at this magnitude *)
  rr_quantum : emin <= q;
  rr_upper : rr_num < rr_den * 2 ^ (fraction fmt + 1);
  rr_lower : rr_den * 2 ^ fraction fmt <= rr_num \/ q = emin;
  (** [m] quanta are the value, rounded once *)
  rr_rounds : rounds rn s rr_num rr_den m;
  rr_overflow : p_of p = true <-> qmax < q \/ (q = qmax /\ m = 2 ^ (fraction fmt + 1));
  rr_to_limit : p_of p = true -> p_nx p = true /\ p_uf p = false /\
    p_bits p = assemble s (if truthy (p_inc p) then 2 ^ exponent fmt - 1 else 2 ^ exponent fmt - 2)
                 (if truthy (p_inc p) then 0 else 2 ^ fraction fmt - 1) /\
    p_inc p = (if rn =? 0 then 1 else if (rn =? 2) && negb (truthy s) then 1 else if rn =? 3 then s else 0);
  rr_finite : p_of p = false ->
    (p_nx p = true <-> m * rr_den <> rr_num) /\
    (p_uf p = true <-> m * rr_den <> rr_num /\ m < 2 ^ fraction fmt) /\
    0 <= p_bits p < 2 ^ (signbit fmt + 1) /\
    exists M q', decode (p_bits p) fmt = {| d_kind := Finite; d_sign := s; d_sig := M; d_exp := q' |} /\
      q <= q' /\ M * 2 ^ (q' - q) = m
}.

Lemma inexact_iff num den inc :
  0 < den -> 0 <= inc <= 1 -> (inc = 1 -> truthy (num mod den) = true) ->
  truthy (num mod den) = true <-> (num / den + inc) * den <> num.
Proof using.
  intros Hd Hi Hone. pose proof (Z.div_mod num den ltac:(lia)) as D. pose proof (Z.mod_pos_bound num den Hd) as M.
  set (q := num / den) in *. set (r := num mod den) in *.
  unfold truthy in *. rewrite negb_true_iff, Z.eqb_neq in *.
  assert (inc = 0 \/ inc = 1) as [-> | ->] by lia; rewrite Z.mul_add_distr_r, (Z.mul_comm q den); lia.
Qed.

Lemma increment_inexact q r d s rn : increment_of q r d s rn = 1 -> truthy r = true.
Proof using. unfold increment_of. destruct (truthy r); [reflexivity | discriminate]. Qed.

Lemma pack_ratio_rounded n d e s rn :
  0 < n -> 0 < d -> 0 <= s <= 1 -> 0 <= rn < 4 ->
  exists q m, rounded_result n d e s rn (pack_ratio n d e s rn fmt) q m.
Proof using Hf He.
  intros Hn Hd Hs Hrn. pose proof (ratio_mantissa n d e s rn Hn Hd Hs Hrn) as R. cbv zeta in R.
  unfold pack_ratio. change (truthy n) with (negb (n =? 0)). rewrite (proj2 (Z.eqb_neq n 0)) by lia. cbn [negb].
  cbv zeta. change (1 - bias fmt - fraction fmt) with emin. set (q := Z.max _ emin) in *.
  destruct (scaled_ratio n d (e - q)) as [sn sd] eqn:Es. cbn [fst snd] in R.
  destruct R as (Hsd & Hr & Hm & Hup & Hlo).
  set (inc := increment_of (sn / sd) (sn mod sd) sd s rn) in *.
  exists q, (sn / sd + inc).
  assert (Hq : emin <= q) by (subst q; lia).
  destruct (encode_spec (sn / sd + inc) q s rn (truthy (sn mod sd)) inc Hs Hm Hq ltac:(tauto)) as (Hov & Hlim & Hfin).
  assert (Hinc : 0 <= inc <= 1).
  { subst inc. unfold increment_of. repeat case_if; lia. }
  assert (Hx : truthy (sn mod sd) = true <-> (sn / sd + inc) * sd <> sn).
  { apply inexact_iff; [exact Hsd | exact Hinc | apply increment_inexact]. }
  constructor; rewrite ?Es; cbn [fst snd]; try assumption.
  - tauto.
  - intros Hno. destruct (Hfin Hno) as (Hnx & _ & Huf & Hb & Hd'). rewrite Hnx, Huf.
    split; [exact Hx |]. split; [rewrite andb_true_iff, Z.ltb_lt; tauto |]. split; [exact Hb |].
    destruct Hd' as (M & q' & Hd1 & Hd2 & Hd3 & _). eauto.
Qed.

(** [pack] is [pack_ratio] over one. *)
Lemma bit_length_1 : bit_length 1 = 1.
Proof using. reflexivity. Qed.

Lemma ratio_top_1 n : 0 < n -> ratio_top n 1 = bit_length n - 1.
Proof using.
  intros Hn. unfold ratio_top. rewrite bit_length_1. cbv zeta.
  destruct (bit_length_bounds n Hn) as (Hl & Hlo & _).
  rewrite (proj2 (Z.leb_le 0 _)) by lia. rewrite Z.shiftl_1_l.
  destruct (Z.ltb_spec n (2 ^ (bit_length n - 1))); [lia | reflexivity].
Qed.

Lemma pack_is_ratio n e s rn : 0 <= n -> pack n e s rn fmt = pack_ratio n 1 e s rn fmt.
Proof using.
  intros Hn. unfold pack, pack_ratio. destruct (truthy n) eqn:Et; cbn [negb]; [| reflexivity].
  assert (0 < n) by (unfold truthy in Et; apply negb_true_iff, Z.eqb_neq in Et; lia).
  rewrite ratio_top_1 by lia. cbv zeta.
  set (q := Z.max _ _). unfold rounded_integer, scaled_ratio.
  destruct (Z.leb_spec (q - e) 0).
  - rewrite (proj2 (Z.leb_le 0 (e - q))) by lia. replace (- (q - e)) with (e - q) by lia.
    rewrite Z.div_1_r, Z.mod_1_r. unfold increment_of. cbn [truthy Z.eqb negb]. rewrite Z.add_0_r. reflexivity.
  - rewrite (proj2 (Z.leb_gt 0 (e - q))) by lia. replace (- (e - q)) with (q - e) by lia. reflexivity.
Qed.

(** ** Exact results *)
Lemma encode_exact m q s rn :
  0 <= s <= 1 -> 0 < m < 2 ^ (fraction fmt + 1) -> emin <= q <= qmax ->
  (2 ^ fraction fmt <= m \/ q = emin) ->
  let p := encode m q s rn false 0 fmt in
  p = {| p_bits := p_bits p; p_nx := false; p_uf := false; p_of := false; p_inc := 0 |} /\
  0 <= p_bits p < 2 ^ (signbit fmt + 1) /\
  decode (p_bits p) fmt = {| d_kind := Finite; d_sign := s; d_sig := m; d_exp := q |}.
Proof using Hf He.
  intros Hs Hm Hq Hn. cbv zeta.
  destruct (encode_spec m q s rn false 0 Hs ltac:(lia) ltac:(lia) Hn) as (Hov & _ & Hfin).
  destruct (encode m q s rn false 0 fmt) as [b x u o i]. cbn [p_of p_nx p_uf p_bits p_inc] in *.
  destruct o; [exfalso; destruct (proj1 Hov eq_refl); lia |].
  destruct (Hfin eq_refl) as (-> & -> & -> & Hb & M & q' & Hd & Hle & HM & Hqq). cbn [andb] in *.
  split; [reflexivity |]. split; [exact Hb |].
  rewrite (Hqq ltac:(lia)) in Hd, HM. rewrite Z.sub_diag, Z.mul_1_r in HM. subst M. exact Hd.
Qed.

(** [pack] of a value the format holds is exact, at the format's own scale. *)
Lemma pack_exact n e s rn :
  0 <= s <= 1 -> 0 < n < 2 ^ (fraction fmt + 1) -> emin <= e -> bit_length n + e <= qmax + fraction fmt + 1 ->
  exists k, 0 <= k /\
  let p := pack n e s rn fmt in
  p = {| p_bits := p_bits p; p_nx := false; p_uf := false; p_of := false; p_inc := 0 |} /\
  0 <= p_bits p < 2 ^ (signbit fmt + 1) /\
  decode (p_bits p) fmt = {| d_kind := Finite; d_sign := s; d_sig := n * 2 ^ k; d_exp := e - k |}.
Proof using Hf He.
  intros Hs Hn Hemin Hemax. destruct (bit_length_bounds n ltac:(lia)) as (Hl & Hlo & Hhi).
  assert (HE4 : 4 <= 2 ^ exponent fmt) by (change 4 with (2 ^ 2); apply Z.pow_le_mono_r; lia).
  assert (Hbl : bit_length n <= fraction fmt + 1).
  { apply Z.lt_succ_r, Z.lt_nge. intros Hge.
    assert (2 ^ (fraction fmt + 1) <= 2 ^ (bit_length n - 1)) by (apply Z.pow_le_mono_r; lia). lia. }
  unfold pack. change (truthy n) with (negb (n =? 0)). rewrite (proj2 (Z.eqb_neq n 0)) by lia. cbn [negb].
  change (1 - bias fmt - fraction fmt) with emin. set (q := Z.max _ emin).
  assert (Hq : emin <= q <= e) by (subst q; lia).
  exists (e - q). split; [lia |]. unfold rounded_integer. rewrite (proj2 (Z.leb_le (q - e) 0)) by lia.
  rewrite Z.shiftl_mul_pow2 by lia. replace (- (q - e)) with (e - q) by lia. replace (e - (e - q)) with q by lia.
  pose proof (pow2_pos (e - q) ltac:(lia)).
  apply encode_exact.
  - exact Hs.
  - split; [lia |]. apply Z.lt_le_trans with (2 ^ bit_length n * 2 ^ (e - q)); [apply Z.mul_lt_mono_pos_r; lia |].
    rewrite <- Z.pow_add_r by lia. apply Z.pow_le_mono_r; lia.
  - split; [lia |]. unfold qmax, emin in *. rewrite Z.shiftl_1_l in *. subst q. lia.
  - destruct (Z.max_spec (bit_length n - 1 + e - fraction fmt) emin) as [[_ Eq] | [Hge Eq]]; [right; exact Eq | left].
    apply Z.le_trans with (2 ^ (bit_length n - 1) * 2 ^ (e - q)).
    + rewrite <- Z.pow_add_r by lia. apply Z.pow_le_mono_r; subst q; lia.
    + apply Z.mul_le_mono_nonneg_r; lia.
Qed.

Lemma decode_bounds b x :
  0 <= b < 2 ^ (signbit fmt + 1) -> decode b fmt = x -> d_kind x = Finite ->
  0 <= d_sign x <= 1 /\ 0 <= d_sig x < 2 ^ (fraction fmt + 1) /\ emin <= d_exp x <= qmax /\
  (2 ^ fraction fmt <= d_sig x \/ d_exp x = emin).
Proof using Hf He.
  intros Hb <-. destruct (word_fields b Hb) as (s & e & f & Hs & Hep & Hfr & ->).
  rewrite decode_assemble by assumption. pose proof (pow2_succ (fraction fmt) ltac:(lia)).
  unfold emin, qmax. rewrite Z.shiftl_1_l.
  destruct (Z.eqb_spec e (2 ^ exponent fmt - 1)); cbn [d_kind d_sign d_sig d_exp].
  - case_if; [discriminate |]. case_if; discriminate.
  - intros _. unfold truthy. assert (4 <= 2 ^ exponent fmt) by (change 4 with (2 ^ 2); apply Z.pow_le_mono_r; lia).
    destruct (Z.eqb_spec e 0); cbn [negb]; lia.
Qed.

Lemma decode_inj b b' :
  0 <= b < 2 ^ (signbit fmt + 1) -> 0 <= b' < 2 ^ (signbit fmt + 1) ->
  d_kind (decode b fmt) = Finite -> decode b fmt = decode b' fmt -> b = b'.
Proof using Hf He.
  intros Hb Hb'. destruct (word_fields b Hb) as (s & e & f & Hs & Hep & Hfr & ->).
  destruct (word_fields b' Hb') as (s' & e' & f' & Hs' & Hep' & Hfr' & ->).
  rewrite !decode_assemble by assumption.
  destruct (Z.eqb_spec e (2 ^ exponent fmt - 1)); cbn [d_kind]; [intros Hk; exfalso; revert Hk; case_if; [| case_if]; discriminate |].
  intros _. destruct (Z.eqb_spec e' (2 ^ exponent fmt - 1)) as [|He'].
  { intros H. apply (f_equal d_kind) in H. cbn [d_kind] in H. revert H. case_if; [| case_if]; discriminate. }
  intros H. apply (f_equal d_sign) in H as Hsg. apply (f_equal d_sig) in H as Hsi. apply (f_equal d_exp) in H.
  cbn [d_sign d_sig d_exp] in *. unfold truthy in *.
  destruct (Z.eqb_spec e 0), (Z.eqb_spec e' 0); cbn [negb] in *; subst s'; f_equal; lia.
Qed.

(** [pack] of a decoded word is the word. *)
Lemma pack_decode b rn :
  0 <= b < 2 ^ (signbit fmt + 1) -> d_kind (decode b fmt) = Finite ->
  pack (d_sig (decode b fmt)) (d_exp (decode b fmt)) (d_sign (decode b fmt)) rn fmt =
  {| p_bits := b; p_nx := false; p_uf := false; p_of := false; p_inc := 0 |}.
Proof using Hf He.
  intros Hb Hk. destruct (decode_bounds b _ Hb eq_refl Hk) as (Hs & Hn & Hq & Hnorm).
  destruct (decode b fmt) as [k s n e] eqn:Ed. cbn [d_kind d_sign d_sig d_exp] in *. subst k.
  destruct (Z.eq_dec n 0) as [-> | Hnz].
  - unfold pack. cbn [truthy Z.eqb negb]. unfold zero_result. f_equal.
    destruct (word_fields b Hb) as (s' & e' & f' & Hs' & Hep' & Hfr' & ->).
    rewrite decode_assemble in Ed by assumption.
    destruct (e' =? 2 ^ exponent fmt - 1); [exfalso; apply (f_equal d_kind) in Ed; cbn [d_kind] in Ed; revert Ed; case_if; [| case_if]; discriminate |].
    unfold truthy in Ed. destruct (Z.eqb_spec e' 0); cbn [negb] in Ed; injection Ed as Hs0 Hf0 _.
    + subst e' s' f'. unfold assemble. rewrite Z.shiftl_0_l, !Z.lor_0_r. reflexivity.
    + pose proof (pow2_pos (fraction fmt) ltac:(lia)). lia.
  - assert (Hbl : bit_length n <= fraction fmt + 1).
    { apply Z.nlt_ge. intros Hlt. apply Z.ltb_lt in Hlt. rewrite bit_length_gt in Hlt by lia. apply Z.leb_le in Hlt. lia. }
    destruct (pack_exact n e s rn Hs ltac:(lia) ltac:(lia) ltac:(lia)) as (k & Hk & Hp & Hpb & Hpd).
    destruct (decode_bounds _ _ Hpb Hpd eq_refl) as (_ & Hn' & Hq' & _). cbn [d_sig d_exp] in *.
    assert (k = 0).
    { destruct (Z.eq_dec k 0); [assumption |]. exfalso. pose proof (pow2_succ (fraction fmt) ltac:(lia)).
      pose proof (pow2_succ (k - 1) ltac:(lia)) as P. replace (k - 1 + 1) with k in P by lia.
      pose proof (pow2_pos (k - 1) ltac:(lia)).
      assert (2 ^ fraction fmt * 2 <= n * 2 ^ k) by (apply Z.mul_le_mono_nonneg; lia). lia. }
    subst k. rewrite Z.mul_1_r, Z.sub_0_r in Hpd. rewrite Hp. f_equal. cbv zeta in Hp.
    apply decode_inj; [exact Hpb | exact Hb | rewrite Hpd; reflexivity | congruence].
Qed.

(** [pack] depends only on the value, not on how it is scaled. *)
Lemma bit_length_scale n k : 0 < n -> 0 <= k -> bit_length (n * 2 ^ k) = bit_length n + k.
Proof using.
  intros Hn Hk. pose proof (pow2_pos k Hk). assert (0 < n * 2 ^ k) by lia.
  unfold bit_length. rewrite !(proj2 (Z.eqb_neq _ 0)) by lia.
  rewrite !Z.abs_eq, Z.log2_mul_pow2 by lia. lia.
Qed.

Lemma increment_scale q r d s rn c : 0 < c -> increment_of q (r * c) (d * c) s rn = increment_of q r d s rn.
Proof using.
  intros Hc. unfold increment_of, truthy. replace (r * c * 2) with (r * 2 * c) by ring.
  assert (E1 : (r * c =? 0) = (r =? 0)) by (destruct (Z.eqb_spec r 0), (Z.eqb_spec (r * c) 0); lia).
  assert (E2 : (d * c <? r * 2 * c) = (d <? r * 2)).
  { destruct (Z.ltb_spec d (r * 2)) as [H|H]; [apply Z.ltb_lt, Z.mul_lt_mono_pos_r | apply Z.ltb_ge, Z.mul_le_mono_nonneg_r]; lia. }
  assert (E3 : (r * 2 * c =? d * c) = (r * 2 =? d)).
  { destruct (Z.eqb_spec (r * 2) d) as [->|H]; [apply Z.eqb_refl | apply Z.eqb_neq]. intros Hx. apply Z.mul_reg_r in Hx; lia. }
  rewrite E1, E2, E3. reflexivity.
Qed.

Lemma rounded_integer_scale n k sh s rn :
  0 <= k -> rounded_integer (n * 2 ^ k) sh s rn = rounded_integer n (sh - k) s rn.
Proof using.
  intros Hk. unfold rounded_integer. pose proof (pow2_pos k Hk).
  destruct (Z.leb_spec sh 0), (Z.leb_spec (sh - k) 0); try lia.
  - rewrite !Z.shiftl_mul_pow2, <- Z.mul_assoc, <- Z.pow_add_r by lia. repeat f_equal. lia.
  - assert (E : n * 2 ^ k = n * 2 ^ (k - sh) * 2 ^ sh) by (rewrite <- Z.mul_assoc, <- Z.pow_add_r by lia; repeat f_equal; lia).
    pose proof (pow2_pos sh ltac:(lia)). rewrite E, Z.shiftl_1_l, Z.div_mul, Z.mod_mul by lia.
    unfold increment_of. cbn [truthy Z.eqb negb]. rewrite Z.add_0_r, Z.shiftl_mul_pow2 by lia. repeat f_equal. lia.
  - rewrite !Z.shiftl_1_l. pose proof (pow2_pos (sh - k) ltac:(lia)).
    assert (E : 2 ^ sh = 2 ^ (sh - k) * 2 ^ k) by (rewrite <- Z.pow_add_r by lia; f_equal; lia).
    rewrite E, Z.div_mul_cancel_r, Z.mul_mod_distr_r by lia. rewrite increment_scale by lia.
    f_equal. f_equal. unfold truthy. f_equal. destruct (Z.eqb_spec (n mod 2 ^ (sh - k)) 0) as [-> | Hr0].
    + reflexivity.
    + apply Z.eqb_neq. lia.
Qed.

Lemma pack_scale n k e s rn :
  0 < n -> 0 <= k -> pack (n * 2 ^ k) e s rn fmt = pack n (e + k) s rn fmt.
Proof using.
  intros Hn Hk. pose proof (pow2_pos k Hk). assert (0 < n * 2 ^ k) by lia. unfold pack, truthy.
  rewrite !(proj2 (Z.eqb_neq _ 0)) by lia. cbn [negb]. rewrite bit_length_scale by lia.
  replace (bit_length n + k - 1 + e) with (bit_length n - 1 + (e + k)) by lia.
  set (q := Z.max _ _). rewrite rounded_integer_scale by lia. replace (q - e - k) with (q - (e + k)) by lia. reflexivity.
Qed.

End Rounding.

(** * The properties of the oracle *)
Import reference.

Lemma format_ok fmt : fmt = B32 \/ fmt = B64 -> 1 <= fraction fmt /\ 2 <= exponent fmt.
Proof. intros [-> | ->]; cbn; lia. Qed.

(** C14. [pack_ratio] is correctly rounded in every mode: some quantum [q] of
    the format and mantissa [m] are the IEEE ones for [n / d * 2^e] (full
    precision or the subnormal quantum, rounded once in the mode), the flags are
    inexactness, tininess and overflow of that result, the word decodes to it,
    and an overflow gives infinity or the largest finite number as the mode says;
    [pack] is the same function over denominator one. *)
Theorem pack_ratio_correctly_rounded fmt n d e s rn :
  fmt = B32 \/ fmt = B64 -> 0 < n -> 0 < d -> 0 <= s <= 1 -> 0 <= rn < 4 ->
  (exists q m, rounded_result fmt n d e s rn (pack_ratio n d e s rn fmt) q m) /\
  pack n e s rn fmt = pack_ratio n 1 e s rn fmt.
Proof.
  intros Hfmt Hn Hd Hs Hrn. destruct (format_ok fmt Hfmt). split.
  - apply pack_ratio_rounded; assumption.
  - apply pack_is_ratio. lia.
Qed.

Lemma pack_ratio_correctly_rounded_witness :
  (exists q m, rounded_result B32 1 3 0 0 0 (pack_ratio 1 3 0 0 0 B32) q m) /\
  p_bits (pack_ratio 1 3 0 0 0 B32) = 0x3eaaaaab.
Proof.
  split; [| vm_compute; reflexivity].
  apply (pack_ratio_correctly_rounded B32 1 3 0 0 0); [left; reflexivity | lia | lia | lia | lia].
Defined.

(** ** Widening and narrowing *)
Definition snan32 (b : Z) : bool := is_snan (d_kind (decode b B32)).

Lemma to64_unfold b rn : calculate "to64" b 0 rn B32 = Ok (calc_convert (decode b B32) rn B32 B64).
Proof. reflexivity. Qed.
Lemma to32_unfold b rn : calculate "to32" b 0 rn B64 = Ok (calc_convert (decode b B64) rn B64 B32).
Proof. reflexivity. Qed.

Lemma b32_ok : 1 <= fraction B32 /\ 2 <= exponent B32.
Proof. apply format_ok. left. reflexivity. Qed.
Lemma b64_ok : 1 <= fraction B64 /\ 2 <= exponent B64.
Proof. apply format_ok. right. reflexivity. Qed.

Lemma widen_finite b rn rn' :
  0 <= b < 2 ^ 32 -> d_kind (decode b B32) = Finite ->
  let w := calc_convert (decode b B32) rn B32 B64 in
  w = plain (bits w) /\ 0 <= bits w < 2 ^ 64 /\
  calc_convert (decode (bits w) B64) rn' B64 B32 = plain b.
Proof.
  intros Hb Hk. destruct b32_ok as [F1 F2]. destruct b64_ok as [G1 G2].
  destruct (decode_bounds B32 F1 F2 b _ Hb eq_refl Hk) as (Hs & Hn & Hq & Hnorm).
  pose proof (pack_decode B32 F1 F2 b rn' Hb Hk) as Hp.
  destruct (decode b B32) as [k s n e]. cbn [d_kind d_sign d_sig d_exp] in *. subst k.
  change (calc_convert {| d_kind := Finite; d_sign := s; d_sig := n; d_exp := e |} rn B32 B64)
    with (of_packed (pack n e s rn B64)). cbv zeta.
  change (emin B32) with (-149) in *. change (qmax B32) with 104 in *.
  destruct (Z.eq_dec n 0) as [-> | Hnz].
  - assert (s = 0 \/ s = 1) as [-> | ->] by lia; unfold pack in *; cbn [truthy Z.eqb negb] in *;
      (split; [reflexivity |]; split; [vm_compute; intuition discriminate |]);
      apply (f_equal p_bits) in Hp; cbn [p_bits zero_result] in Hp; subst b; vm_compute; reflexivity.
  - assert (Hbl : bit_length n <= 24).
    { apply Z.nlt_ge. intros Hlt. apply Z.ltb_lt in Hlt. rewrite bit_length_gt in Hlt by lia.
      apply Z.leb_le in Hlt. change (fraction B32 + 1) with 24 in *. lia. }
    destruct (pack_exact B64 G1 G2 n e s rn Hs) as (j & Hj & He & Hb' & Hd).
    + split; [lia |]. apply Z.lt_le_trans with (2 ^ (fraction B32 + 1)); [lia | vm_compute; discriminate].
    + change (emin B64) with (-1074). lia.
    + change (qmax B64) with 971. change (fraction B64) with 52. lia.
    + cbv zeta in He. unfold of_packed. rewrite He. cbn [p_bits p_nx p_uf p_of p_inc bits plain].
      split; [reflexivity |]. split; [exact Hb' |]. rewrite Hd.
      unfold calc_convert. cbn [d_kind d_sign d_sig d_exp is_nan is_inf].
      rewrite pack_scale by lia. replace (e - j + j) with e by lia. rewrite Hp. reflexivity.
Qed.

Lemma b32_special s f :
  0 <= s <= 1 -> 0 <= f < 2 ^ 23 ->
  decode (assemble B32 s 255 f) B32 =
  {| d_kind := if truthy f && negb (truthy (Z.shiftr f 22)) then SNaN else if truthy f then QNaN else Inf;
     d_sign := s; d_sig := f; d_exp := 0 |}.
Proof.
  intros Hs Hf. destruct b32_ok as [F1 F2]. rewrite (decode_assemble B32 F1 F2 s 255 f Hs) by (cbn; lia). reflexivity.
Qed.

Lemma b64_special s g :
  0 <= s <= 1 -> 0 <= g < 2 ^ 52 ->
  decode (assemble B64 s 2047 g) B64 =
  {| d_kind := if truthy g && negb (truthy (Z.shiftr g 51)) then SNaN else if truthy g then QNaN else Inf;
     d_sign := s; d_sig := g; d_exp := 0 |}.
Proof.
  intros Hs Hf. destruct b64_ok as [F1 F2]. rewrite (decode_assemble B64 F1 F2 s 2047 g Hs) by (cbn; lia). reflexivity.
Qed.

Lemma quiet_payload f :
  0 <= f < 2 ^ 23 ->
  let g := Z.lor (Z.shiftl f 29) (Z.shiftl 1 51) in
  0 <= g < 2 ^ 52 /\ truthy g = true /\ truthy (Z.shiftr g 51) = true /\ Z.shiftr g 29 = Z.lor f (Z.shiftl 1 22).
Proof.
  intros Hf. cbv zeta. set (g := Z.lor _ _).
  assert (Hg : 0 <= g < 2 ^ 52).
  { subst g. apply lor_bound; [lia | | vm_compute; intuition discriminate]. rewrite Z.shiftl_mul_pow2 by lia. const_pow. lia. }
  assert (Hb : Z.testbit g 51 = true) by (subst g; rewrite Z.lor_spec, Z.shiftl_spec by lia; apply orb_true_r).
  assert (Hs : truthy (Z.shiftr g 51) = true).
  { unfold truthy. apply negb_true_iff, Z.eqb_neq. intros H. rewrite <- (Z.add_0_l 51), <- Z.shiftr_spec, H in Hb by lia. discriminate. }
  split; [exact Hg |]. split; [| split; [exact Hs |]].
  - unfold truthy. apply negb_true_iff, Z.eqb_neq. intros ->. discriminate.
  - subst g. rewrite Z.shiftr_lor, Z.shiftr_shiftl_l by lia. reflexivity.
Qed.

Lemma quiet_idempotent f k :
  0 <= k -> 0 <= f < 2 ^ (k + 1) -> truthy (Z.shiftr f k) = true -> Z.lor f (Z.shiftl 1 k) = f.
Proof.
  intros Hk Hf Ht. pose proof (pow2_pos k Hk).
  assert (Hb : Z.testbit f k = true).
  { rewrite testbit_top by assumption. apply Z.leb_le. apply Z.nlt_ge. intros Hlt.
    rewrite Z.shiftr_div_pow2, Z.div_small in Ht by lia. discriminate. }
  apply Z.bits_inj'. intros n Hn. rewrite Z.lor_spec, testbit_shiftl_one by lia.
  destruct (Z.eqb_spec k n) as [<- |]; [rewrite Hb; reflexivity | apply orb_false_r].
Qed.

Lemma widen_special b rn rn' :
  0 <= b < 2 ^ 32 -> d_kind (decode b B32) <> Finite ->
  let w := calc_convert (decode b B32) rn B32 B64 in
  w = with_invalid (bits w) (snan32 b) /\ 0 <= bits w < 2 ^ 64 /\
  calc_convert (decode (bits w) B64) rn' B64 B32 = plain (if snan32 b then quiet b B32 else b).
Proof.
  intros Hb Hk. destruct b32_ok as [F1 F2]. unfold snan32.
  destruct (word_fields B32 F1 F2 b Hb) as (s & e & f & Hs & He & Hf & ->).
  assert (e = 255) as ->.
  { revert Hk. rewrite decode_assemble by assumption. destruct (Z.eqb_spec e (2 ^ exponent B32 - 1)); [auto |].
    cbn [d_kind]. congruence. }
  change (2 ^ fraction B32) with (2 ^ 23) in Hf. rewrite b32_special by assumption. cbn [d_kind].
  destruct (quiet_payload f Hf) as (Hg & Hgt & Hgs & Hgr). set (g := Z.lor _ _) in *.
  destruct (Z.eq_dec f 0) as [-> | Hf0].
  - cbn [truthy Z.eqb negb andb is_snan]. cbv zeta.
    assert (s = 0 \/ s = 1) as [-> | ->] by lia;
      (split; [reflexivity |]; split; [vm_compute; intuition discriminate | vm_compute; reflexivity]).
  - assert (Ht : truthy f = true) by (unfold truthy; apply negb_true_iff, Z.eqb_neq; exact Hf0).
    rewrite Ht. cbn [andb]. set (k := if negb _ then SNaN else QNaN).
    assert (Ec : calc_convert {| d_kind := k; d_sign := s; d_sig := f; d_exp := 0 |} rn B32 B64 =
                 with_invalid (assemble B64 s 2047 g) (is_snan k)).
    { unfold calc_convert. cbn [d_kind d_sign d_sig].
      replace (is_nan k) with true by (subst k; destruct (negb _); reflexivity).
      f_equal. unfold assemble, g. rewrite <- Z.lor_assoc. reflexivity. }
    cbv zeta. rewrite Ec. cbn [bits with_invalid]. split; [reflexivity |].
    destruct b64_ok as [G1 G2].
    split; [apply (assemble_range B64 G1 G2 s 2047 g); [exact Hs | cbn; lia | exact Hg] |].
    rewrite b64_special by assumption. rewrite Hgt, Hgs. cbn [negb andb].
    unfold calc_convert. cbn [d_kind d_sign d_sig is_nan is_snan].
    change (fraction B32 <=? fraction B64) with true. cbv iota.
    change (fraction B64 - fraction B32) with 29. rewrite Hgr. unfold plain, with_invalid. f_equal.
    change (infinity B32) with (Z.shiftl 255 (fraction B32)). change (fraction B32 - 1) with 22.
    rewrite <- !Z.lor_assoc, Z.lor_diag. unfold assemble, quiet. change (fraction B32 - 1) with 22.
    destruct (is_snan k) eqn:Esn; rewrite <- ?Z.lor_assoc; [reflexivity |]. do 2 f_equal.
    apply (quiet_idempotent f 22); [lia | exact Hf |].
    subst k. destruct (truthy (Z.shiftr f 22)); [reflexivity | discriminate].
Qed.

(** Widening a binary32 word to binary64 is exact and quiet (invalid only
    for a signalling NaN) in every mode, and narrowing the result gives the word
    back with no flag, a signalling NaN made quiet, its payload kept. *)
Theorem widen_narrow_roundtrip b rn rn' :
  0 <= b < 2 ^ 32 ->
  exists w, calculate "to64" b 0 rn B32 = Ok (with_invalid w (snan32 b)) /\ 0 <= w < 2 ^ 64 /\
            calculate "to32" w 0 rn' B64 = Ok (plain (if snan32 b then quiet b B32 else b)).
Proof.
  intros Hb. exists (bits (calc_convert (decode b B32) rn B32 B64)).
  rewrite to64_unfold, to32_unfold.
  destruct (decide (d_kind (decode b B32) = Finite)) as [Hk | Hk].
  - destruct (widen_finite b rn rn' Hb Hk) as (Hw & Hr & Hn).
    assert (snan32 b = false) as -> by (unfold snan32; rewrite Hk; reflexivity).
    split; [f_equal; exact Hw |]. split; [exact Hr | f_equal; exact Hn].
  - destruct (widen_special b rn rn' Hb Hk) as (Hw & Hr & Hn).
    split; [f_equal; exact Hw |]. split; [exact Hr | f_equal; exact Hn].
Qed.

Lemma widen_narrow_roundtrip_witness :
  exists w, calculate "to64" 1 0 0 B32 = Ok (with_invalid w (snan32 1)) /\ 0 <= w < 2 ^ 64 /\
            calculate "to32" w 0 3 B64 = Ok (plain (if snan32 1 then quiet 1 B32 else 1)).
Proof. apply (widen_narrow_roundtrip 1 0 3). lia. Defined.
