(* ===== verification/FpPpc.v ===== *)
(** * The PowerPC result model ([sim/fpu/ppc_reference.py])

    [arithmetic] layers invalid causes, enables, exponent adjustment and result
    classes over the exact oracle. *)
From S2P Require Import Prelude FpReference.
Import reference.

Module ppc_reference.

Definition DEFAULT_NAN : Z := 0x7ff8000000000000.
Definition SNAN : Z := Z.shiftl 1 0.
Definition ISI : Z := Z.shiftl 1 1.
Definition IDI : Z := Z.shiftl 1 2.
Definition ZDZ : Z := Z.shiftl 1 3.
Definition IMZ : Z := Z.shiftl 1 4.
Definition VC : Z := Z.shiftl 1 5.
Definition SOFT : Z := Z.shiftl 1 6.
Definition SQRT : Z := Z.shiftl 1 7.
Definition CVI : Z := Z.shiftl 1 8.

Definition by_sign (s neg pos : Z) : Z := if truthy s then neg else pos.

Definition classify (bits : Z) (fmt : Format) : Z :=
  let x := decode bits fmt in
  if is_nan (d_kind x) then 0x11
  else if is_inf (d_kind x) then by_sign (d_sign x) 0x09 0x05
  else if negb (truthy (d_sig x)) then by_sign (d_sign x) 0x12 0x02
  else if negb (truthy (Z.land (Z.shiftr bits (fraction fmt)) (Z.shiftl 1 (exponent fmt) - 1)))
  then by_sign (d_sign x) 0x18 0x14
  else by_sign (d_sign x) 0x08 0x04.

Definition top (n d exponent : Z) : Z :=
  let bit := bit_length n - bit_length d in
  (if (if 0 <=? bit then n <? Z.shiftl d bit else Z.shiftl n (- bit) <? d) then bit - 1 else bit) + exponent.

(** [(mantissa, quantum, inexact, increment)] of a rounding without exponent limits *)
Definition unbounded_round (n d exponent sign rn precision : Z) : Z * Z * bool * bool :=
  let quantum := top n d exponent - precision + 1 in
  let shift := exponent - quantum in
  let scaled_n := if 0 <=? shift then Z.shiftl n shift else n in
  let scaled_d := if 0 <=? shift then d else Z.shiftl d (- shift) in
  let mantissa := scaled_n / scaled_d in
  let remainder := scaled_n mod scaled_d in
  let inexact := truthy remainder in
  let increment := increment_of mantissa remainder scaled_d sign rn in
  let mantissa := mantissa + increment in
  if precision <? bit_length mantissa then (Z.shiftr mantissa 1, quantum + 1, inexact, truthy increment)
  else (mantissa, quantum, inexact, truthy increment).

Definition fused : list string := ["madd"; "msub"; "nmadd"; "nmsub"]%string.
Definition is_fused (op : string) : bool := str_in op fused.
Definition negated (op : string) : bool := str_in op ["nmadd"; "nmsub"]%string.
Definition subtracts (op : string) : bool := str_in op ["msub"; "nmsub"]%string.

(** [(n, d, exponent, sign)]: the exact value [n / d * 2^exponent]. *)
Definition finite (op : string) (a b c rn : Z) : Z * Z * Z * Z :=
  let x := decode a B64 in
  let y := decode b B64 in
  let z := decode c B64 in
  if str_in op ["add"; "sub"]%string then
    let sb := if String.eqb op "sub" then Z.lxor (d_sign y) 1 else d_sign y in
    let exponent := Z.min (d_exp x) (d_exp y) in
    let value := Z.shiftl (neg_if (d_sign x) (d_sig x)) (d_exp x - exponent)
                 + Z.shiftl (neg_if sb (d_sig y)) (d_exp y - exponent) in
    (Z.abs value, 1, exponent, sum_sign value (d_sign x) sb rn)
  else if String.eqb op "mul" then (d_sig x * d_sig z, 1, d_exp x + d_exp z, Z.lxor (d_sign x) (d_sign z))
  else if String.eqb op "div" then (d_sig x, d_sig y, d_exp x - d_exp y, Z.lxor (d_sign x) (d_sign y))
  else
    let sb := Z.lxor (d_sign y) (Z.b2z (subtracts op)) in
    let sp := Z.lxor (d_sign x) (d_sign z) in
    let exponent := Z.min (d_exp x + d_exp z) (d_exp y) in
    let product := Z.shiftl (d_sig x * d_sig z) (d_exp x + d_exp z - exponent) in
    let addend := Z.shiftl (d_sig y) (d_exp y - exponent) in
    let value := neg_if sp product + neg_if sb addend in
    (Z.abs value, 1, exponent, sum_sign value sp sb rn).

(** The result dictionary of [arithmetic]. *)
Record out : Type := {
  o_result : Z; write_result : bool; o_invalid : Z; ox : bool; ux : bool; zx : bool; xx : bool;
  fr : bool; fi : bool; frfi_valid : bool; fprf : Z; fprf_valid : bool; fpcc : Z;
  compare_valid : bool; tiny_before_round : bool
}.

(** Operands whose NaNs count. *)
Definition relevant (op : string) (a b c : Z) : list Z :=
  if is_fused op then [a; b; c]
  else if String.eqb op "mul" then [a; c]
  else if str_in op ["frsp"; "fctiw"; "fctiwz"]%string then [b] else [a; b].

(** [fcmpu]/[fcmpo] *)
Definition compare_out (op : string) (a b : Z) (ve : bool) : out :=
  let x := decode a B64 in
  let y := decode b B64 in
  let '(cc, inv) :=
    if is_nan (d_kind x) || is_nan (d_kind y) then
      let has_snan := is_snan (d_kind x) || is_snan (d_kind y) in
      let inv := if has_snan then SNAN else 0 in
      (1, if String.eqb op "cmpo" && (negb has_snan || negb ve) then Z.lor inv VC else inv)
    else (let v := bits (calc_cmp x y) in if v =? 0 then 2 else if v =? 1 then 8 else 4, 0) in
  {| o_result := 0; write_result := false; o_invalid := inv; ox := false; ux := false; zx := false;
     xx := false; fr := false; fi := false; frfi_valid := false; fprf := 0; fprf_valid := false;
     fpcc := cc; compare_valid := true; tiny_before_round := false |}.

Definition multiplies (op : string) : bool := str_in op ("mul"%string :: fused).
Definition zero_times_inf (x z : decoded) : bool := (is_inf (d_kind x) && is_zero z) || (is_inf (d_kind z) && is_zero x).
Definition inf_minus_inf (op : string) (x y : decoded) : bool :=
  str_in op ["add"; "sub"]%string && is_inf (d_kind x) && is_inf (d_kind y)
  && (if String.eqb op "add" then negb (d_sign x =? d_sign y) else d_sign x =? d_sign y).
Definition fused_minus_inf (op : string) (x y z : decoded) : bool :=
  is_fused op && (is_inf (d_kind x) || is_inf (d_kind z)) && is_inf (d_kind y)
  && negb (is_nan (d_kind x)) && negb (is_nan (d_kind z)).
Definition set_cause (b : bool) (cause v : Z) : Z := if b then Z.lor v cause else v.

(** The invalid causes gathered before any result is chosen. *)
Definition invalid_causes (op : string) (a b c : Z) : Z :=
  let x := decode a B64 in
  let y := decode b B64 in
  let z := decode c B64 in
  let v := fold_left (fun v operand => set_cause (is_snan (d_kind (decode operand B64))) SNAN v)
             (relevant op a b c) 0 in
  let v := set_cause (multiplies op && zero_times_inf x z) IMZ v in
  let v := set_cause (inf_minus_inf op x y) ISI v in
  let v := set_cause (fused_minus_inf op x y z && negb (truthy (Z.land v IMZ))
                      && negb (Z.lxor (d_sign x) (d_sign z) =? Z.lxor (d_sign y) (Z.b2z (subtracts op)))) ISI v in
  let v := set_cause (String.eqb op "div" && is_inf (d_kind x) && is_inf (d_kind y)) IDI v in
  set_cause (String.eqb op "div" && is_zero x && is_zero y) ZDZ v.

(** A result settled without rounding: its class goes with it when written. *)
Definition settled (inv : Z) (zx : bool) (result : Z) (write : bool) : out :=
  {| o_result := result; write_result := write; o_invalid := inv; ox := false; ux := false; zx := zx;
     xx := false; fr := false; fi := false; frfi_valid := true; fprf := classify result B64;
     fprf_valid := write; fpcc := 0; compare_valid := false; tiny_before_round := false |}.

Definition integer_out (op : string) (inv b rn : Z) (ve : bool) : out :=
  let x := decode b B64 in
  let rounded := calc_ftoi32 x (if String.eqb op "fctiwz" then 1 else rn) in
  let bad := invalid rounded in
  let inv := set_cause bad CVI inv in
  {| o_result := if bad then (if is_nan (d_kind x) || truthy (d_sign x) then 0x80000000 else 0x7fffffff)
                 else bits rounded;
     write_result := negb (ve && truthy inv); o_invalid := inv; ox := false; ux := false; zx := false;
     xx := if bad then false else nx rounded; fr := if bad then false else truthy (increment rounded);
     fi := if bad then false else nx rounded; frfi_valid := true; fprf := 0; fprf_valid := false;
     fpcc := 0; compare_valid := false; tiny_before_round := false |}.

Definition nan_out (op : string) (inv nan : Z) (ve : bool) : out :=
  let result := Z.lor nan (Z.shiftl 1 51) in
  let result := if String.eqb op "frsp" then Z.land result (Z.lnot (Z.shiftl 1 29 - 1)) else result in
  settled inv false result (negb (ve && truthy inv)).

(** An operation with an infinite operand and no invalid cause. *)
Definition infinite_out (op : string) (inv a b c rn : Z) : result out :=
  let! bits :=
    if is_fused op then Ok (bits (calculate_fma a c b rn B64 false (subtracts op)))
    else let! r := calculate op a (if String.eqb op "mul" then c else b) rn B64 in Ok (bits r) in
  Ok (settled inv false
        (if negated op && negb (is_nan (d_kind (decode bits B64))) then Z.lxor bits (Z.shiftl 1 63) else bits)
        true).

Definition is_b32 (fmt : Format) : bool := fraction fmt =? 23.

(** The rounded, range-checked result of an exact value. *)
Definition rounded_out (op : string) (inv n d exponent sign rn : Z) (fmt : Format) (ni oe ue : bool) : out :=
  let p := pack_ratio n d exponent sign rn fmt in
  let overflow := p_of p in
  let tiny := truthy n && (top n d exponent <? 1 - bias fmt) in
  let ux := tiny && (ue || p_nx p) in
  if (overflow && oe) || (tiny && ue) then
    let '(mantissa, quantum, inexact, increment) := unbounded_round n d exponent sign rn (fraction fmt + 1) in
    let adjustment := (if is_b32 fmt then 192 else 1536) * (if overflow then -1 else 1) in
    let adjusted := p_bits (pack_ratio mantissa 1 (quantum + adjustment) sign 0 B64) in
    let adjusted := if negated op then Z.lxor adjusted (Z.shiftl 1 63) else adjusted in
    {| o_result := adjusted; write_result := true; o_invalid := inv; ox := overflow; ux := ux; zx := false;
       xx := inexact; fr := increment; fi := inexact; frfi_valid := true; fprf := classify adjusted B64;
       fprf_valid := true; fpcc := 0; compare_valid := false; tiny_before_round := tiny |}
  else
    let bits := p_bits p in
    let flush := ni && (Z.land bits (infinity fmt) =? 0)
                 && truthy (Z.land bits (Z.shiftl 1 (fraction fmt) - 1)) in
    let bits := if flush then Z.land bits (Z.shiftl 1 (signbit fmt)) else bits in
    let bits := if negated op then Z.lxor bits (Z.shiftl 1 (signbit fmt)) else bits in
    {| o_result := if is_b32 fmt then reference.bits (calc_convert (decode bits B32) 0 B32 B64) else bits;
       write_result := true; o_invalid := inv; ox := overflow; ux := ux; zx := false;
       xx := p_nx p || (overflow && negb oe); fr := truthy (p_inc p);
       fi := p_nx p || (overflow && negb oe); frfi_valid := true; fprf := classify bits fmt;
       fprf_valid := true; fpcc := 0; compare_valid := false; tiny_before_round := tiny |}.

Definition rounding_ops : list string := ["add"; "sub"; "mul"; "div"; "madd"; "msub"; "nmadd"; "nmsub"]%string.

Definition first_nan_of (l : list Z) : option Z :=
  find (fun v => is_nan (d_kind (decode v B64))) l.

(** Keyword arguments. *)
Record enables : Type := { single : bool; ni : bool; ve : bool; oe : bool; ue : bool; ze : bool }.

Definition arithmetic (op : string) (a b c rn : Z) (k : enables) : result out :=
  let rel := relevant op a b c in
  if str_in op ["cmpu"; "cmpo"]%string then Ok (compare_out op a b (ve k))
  else
    let inv := invalid_causes op a b c in
    if str_in op ["fctiw"; "fctiwz"]%string then Ok (integer_out op inv b rn (ve k))
    else match first_nan_of rel with
    | Some nan => Ok (nan_out op inv nan (ve k))
    | None =>
        let x := decode a B64 in
        let y := decode b B64 in
        let z := decode c B64 in
        if String.eqb op "frsp" && is_inf (d_kind y) then Ok (settled inv false b true)
        else if String.eqb op "frsp" then
          let '(n, d, exponent, sign) := finite "mul" b 0 0x3ff0000000000000 rn in
          Ok (rounded_out op inv n d exponent sign rn B32 (ni k) (oe k) (ue k))
        else if str_in op rounding_ops then
          if String.eqb op "div" && is_finite (d_kind x) && truthy (d_sig x) && is_zero y
          then Ok (settled inv true (Z.lor (Z.shiftl (Z.lxor (d_sign x) (d_sign y)) 63) (infinity B64)) (negb (ze k)))
          else
            let inv := set_cause (String.eqb op "div" && is_inf (d_kind x) && is_inf (d_kind y)) IDI inv in
            let inv := set_cause (String.eqb op "div" && is_zero x && is_zero y) ZDZ inv in
            let inv := set_cause (multiplies op && zero_times_inf x z) IMZ inv in
            let inv := set_cause (inf_minus_inf op x y) ISI inv in
            if truthy inv then Ok (settled inv false DEFAULT_NAN (negb (ve k)))
            else if existsb (fun v => is_inf (d_kind (decode v B64))) rel then infinite_out op inv a b c rn
            else
              let '(n, d, exponent, sign) := finite op a b c rn in
              Ok (rounded_out op inv n d exponent sign rn (if single k then B32 else B64) (ni k) (oe k) (ue k))
        else Raise (ValueError op)
    end.

End ppc_reference.

Import ppc_reference.

Definition no_enables : enables :=
  {| single := false; ni := false; ve := false; oe := false; ue := false; ze := false |}.

(** The oracle's outcome [r] is what [o] reports, [result] standing for its bits. The
    model finds tininess before rounding and the oracle after it: they differ on a value
    that rounds up to the smallest normal. *)
Record reports (o : out) (r : outcome) (result : Z) : Prop := {
  rep_result : o_result o = result;
  rep_written : write_result o = true;
  rep_overflow : ox o = of_ r;
  rep_zero_divide : zx o = dz r;
  rep_inexact : xx o = nx r;
  rep_underflow : uf r = true -> ux o = true;
  rep_tiny : ux o = true -> uf r = true \/ nx r = true /\ Z.land (bits r) (Z.ones 63) = 2 ^ 52;
  rep_invalid : truthy (o_invalid o) = invalid r;
  rep_rounded : fr o = truthy (increment r);
  rep_class : fprf_valid o = true /\ fprf o = classify result B64
}.







(** ** The four basic operations *)
Definition second (op : string) (b c : Z) : Z := if String.eqb op "mul" then c else b.

Definition agrees (op : string) (a b c rn : Z) : Prop :=
  exists o r, arithmetic op a b c rn no_enables = Ok o /\
              calculate op a (second op b c) rn B64 = Ok r /\ reports o r (bits r).

Lemma of_packed_invalid p : invalid (of_packed p) = false.
Proof. reflexivity. Qed.





























