(* ===== verification/FpStatus.v ===== *)
(** * The FPSCR update and the estimate oracle ([sim/fpu/enabled_vectors.py],
    [sim/fpu/estimate_vectors.py])

    [fpscr_after] is the status word an operation leaves; [check_one] judges one
    observed reciprocal or reciprocal square root estimate by exact rational
    bounds. *)
From S2P Require Import Prelude FpReference FpPpc.
From Stdlib Require Import QArith Qabs.
Import reference ppc_reference.
#[local] Open Scope Z_scope.

Module enabled_vectors.

Definition AFORM : dict (Z * string) :=
  [("fdiv", (18, "div")); ("fsub", (20, "sub")); ("fadd", (21, "add")); ("fmul", (25, "mul"));
   ("fmsub", (28, "msub")); ("fmadd", (29, "madd")); ("fnmsub", (30, "nmsub")); ("fnmadd", (31, "nmadd"))]%string.
Definition XFORM : dict (Z * string) :=
  [("frsp", (12, "frsp")); ("fctiw", (14, "fctiw")); ("fctiwz", (15, "fctiwz"))]%string.
Definition INVALID_BITS : list Z := [24; 23; 22; 21; 20; 19; 10; 9; 8].

Definition encode (name : string) (single : bool) (rc : Z) : result Z :=
  match dict_get AFORM name with
  | Some (xo, _) =>
      let b := if String.eqb name "fmul" then 0 else 2 in
      let c := if str_in name ["fmul"; "fmsub"; "fmadd"; "fnmsub"; "fnmadd"]%string then 3 else 0 in
      Ok (Z.lor (Z.lor (Z.lor (Z.lor (Z.lor (Z.lor (Z.shiftl (if single then 59 else 63) 26)
            (Z.shiftl 4 21)) (Z.shiftl 1 16)) (Z.shiftl b 11)) (Z.shiftl c 6)) (Z.shiftl xo 1)) rc)
  | None =>
      match dict_get XFORM name with
      | Some (xo, _) =>
          Ok (Z.lor (Z.lor (Z.lor (Z.lor (Z.shiftl 63 26) (Z.shiftl 4 21)) (Z.shiftl 2 11)) (Z.shiftl xo 1)) rc)
      | None => Raise KeyError
      end
  end.

Definition set_bit (b : bool) (bit v : Z) : Z := if b then Z.lor v (Z.shiftl 1 bit) else v.
(** [new & ~(mask << lo) | (value << lo)] *)
Definition put_field (new mask lo value : Z) : Z := Z.lor (Z.land new (Z.lnot (Z.shiftl mask lo))) (Z.shiftl value lo).

(** [for cause, bit in enumerate(INVALID_BITS)] *)
Definition set_invalid (inv new : Z) : Z :=
  fold_left (fun new p => set_bit (truthy (Z.land (Z.shiftr inv (fst p)) 1)) (snd p) new) (enumerate 0 INVALID_BITS) new.

Definition exception_bits : list Z := INVALID_BITS ++ [28; 27; 26; 25].
Definition exceptions : Z := fold_left (fun s b => s + Z.shiftl 1 b) exception_bits 0.

Definition bit_at (v b : Z) : bool := truthy (Z.land (Z.shiftr v b) 1).
(** [new >> cause & new >> enable & 1] *)
Definition enabled_cause (v cause enable : Z) : bool :=
  truthy (Z.land (Z.land (Z.shiftr v cause) (Z.shiftr v enable)) 1).

Definition fpscr_after (old : Z) (exp : out) : Z :=
  let new := set_invalid (o_invalid exp) old in
  let new := set_bit (xx exp) 25 (set_bit (zx exp) 26 (set_bit (ux exp) 27 (set_bit (ox exp) 28 new))) in
  let new := if frfi_valid exp
             then Z.lor (put_field new 3 17 0) (Z.lor (Z.shiftl (Z.b2z (fr exp)) 18) (Z.shiftl (Z.b2z (fi exp)) 17))
             else new in
  let new := if fprf_valid exp then put_field new 0x1f 12 (fprf exp) else new in
  let new := if truthy (Z.land (Z.land new (Z.lnot old)) exceptions) then Z.lor new (Z.shiftl 1 31) else new in
  let vx := existsb (fun b => bit_at new b) INVALID_BITS in
  let new := put_field new 1 29 (Z.b2z vx) in
  let fex := (vx && bit_at new 7) || enabled_cause new 28 6 || enabled_cause new 27 5
             || enabled_cause new 26 4 || enabled_cause new 25 3 in
  put_field new 1 30 (Z.b2z fex).

Definition fpscr_mask (exp : out) (oe : bool) : Z :=
  if ox exp && negb oe then Z.land MASK32 (Z.lnot (Z.shiftl 1 18)) else MASK32.

End enabled_vectors.

(** ** The status word, bit by bit *)
Section Fpscr.
Import enabled_vectors.

Lemma testbit_set_bit b k v i : 0 <= k -> 0 <= i -> Z.testbit (set_bit b k v) i = Z.testbit v i || (b && (k =? i)).
Proof.
  intros Hk Hi. unfold set_bit. destruct b; [| rewrite orb_false_r; reflexivity].
  rewrite Z.lor_spec, testbit_shiftl_one by lia. reflexivity.
Qed.

Lemma testbit_put_field v m lo x i n :
  0 <= lo -> 0 <= n -> 0 <= i -> m = Z.ones n -> 0 <= x < 2 ^ n ->
  Z.testbit (put_field v m lo x) i = if (lo <=? i) && (i <? lo + n) then Z.testbit x (i - lo) else Z.testbit v i.
Proof.
  intros Hlo Hn Hi -> Hx. unfold put_field.
  rewrite Z.lor_spec, Z.land_spec, Z.lnot_spec, !Z.shiftl_spec by lia.
  destruct (Z.leb_spec lo i); cbn [andb].
  - rewrite Z.testbit_ones_nonneg by lia. destruct (Z.ltb_spec (i - lo) n), (Z.ltb_spec i (lo + n)); try lia; cbn [negb].
    + rewrite andb_false_r. reflexivity.
    + rewrite andb_true_r, (testbit_high x n (i - lo)) by lia. apply orb_false_r.
  - rewrite !(Z.testbit_neg_r _ (i - lo)) by lia. cbn [negb]. rewrite andb_true_r. apply orb_false_r.
Qed.

Lemma bit_at_testbit v b : 0 <= b -> bit_at v b = Z.testbit v b.
Proof.
  intros Hb. unfold bit_at. change 1 with (Z.shiftl 1 0). rewrite truthy_land_bit, Z.shiftr_spec by lia. reflexivity.
Qed.

Lemma enabled_cause_testbit v c e : 0 <= c -> 0 <= e -> enabled_cause v c e = Z.testbit v c && Z.testbit v e.
Proof.
  intros Hc He. unfold enabled_cause. change 1 with (Z.shiftl 1 0).
  rewrite truthy_land_bit, Z.land_spec, !Z.shiftr_spec by lia. reflexivity.
Qed.

Lemma truthy_lor a b : truthy (Z.lor a b) = truthy a || truthy b.
Proof.
  unfold truthy. destruct (Z.eqb_spec a 0) as [-> | Ha], (Z.eqb_spec b 0) as [-> | Hb]; cbn [negb orb];
    rewrite ?Z.lor_0_l; try reflexivity; apply negb_true_iff, Z.eqb_neq; rewrite ?Z.lor_eq_0_iff; tauto.
Qed.

Lemma truthy_land_bits v l :
  Forall (fun b => 0 <= b) l ->
  truthy (Z.land v (fold_right (fun b m => Z.lor (Z.shiftl 1 b) m) 0 l)) = existsb (Z.testbit v) l.
Proof.
  induction 1 as [| b l Hb Hl IH]; cbn [fold_right existsb]; [rewrite Z.land_0_r; reflexivity |].
  rewrite Z.land_lor_distr_r, truthy_lor, IH, truthy_land_bit by exact Hb. reflexivity.
Qed.

(** Whether the operation raises exception bit [i]. *)
Definition raised (exp : out) (i : Z) : bool :=
  (existsb (fun p => (snd p =? i) && Z.testbit (o_invalid exp) (fst p)) (enumerate 0 INVALID_BITS))
  || ((28 =? i) && ox exp) || ((27 =? i) && ux exp) || ((26 =? i) && zx exp) || ((25 =? i) && xx exp).

(** The bits an operation records: causes accumulate, FR, FI and FPRF are replaced. *)
Definition recorded (old : Z) (exp : out) (i : Z) : bool :=
  if (12 <=? i) && (i <? 17) && fprf_valid exp then Z.testbit (fprf exp) (i - 12)
  else if (i =? 17) && frfi_valid exp then fi exp
  else if (i =? 18) && frfi_valid exp then fr exp
  else Z.testbit old i || raised exp i.

(** The whole word: the summaries FX, FEX and VX follow the recorded bits. *)
Definition fpscr_bit (old : Z) (exp : out) (i : Z) : bool :=
  let stored := recorded old exp in
  let vx := existsb stored INVALID_BITS in
  if i =? 31 then stored 31 || existsb (fun b => stored b && negb (Z.testbit old b)) exception_bits
  else if i =? 29 then vx
  else if i =? 30 then (vx && stored 7) || (stored 28 && stored 6) || (stored 27 && stored 5)
                       || (stored 26 && stored 4) || (stored 25 && stored 3)
  else stored i.

Definition recording (old : Z) (exp : out) : Z :=
  let new := set_invalid (o_invalid exp) old in
  let new := set_bit (xx exp) 25 (set_bit (zx exp) 26 (set_bit (ux exp) 27 (set_bit (ox exp) 28 new))) in
  let new := if frfi_valid exp
             then Z.lor (put_field new 3 17 0) (Z.lor (Z.shiftl (Z.b2z (fr exp)) 18) (Z.shiftl (Z.b2z (fi exp)) 17))
             else new in
  if fprf_valid exp then put_field new 0x1f 12 (fprf exp) else new.

Lemma testbit_set_invalid inv v i :
  0 <= i -> Z.testbit (set_invalid inv v) i =
  Z.testbit v i || existsb (fun p => (snd p =? i) && Z.testbit inv (fst p)) (enumerate 0 INVALID_BITS).
Proof.
  intros Hi. unfold set_invalid. set (l := enumerate 0 INVALID_BITS).
  assert (Hl : Forall (fun p : Z * Z => 0 <= fst p /\ 0 <= snd p) l) by (subst l; repeat constructor; cbn; lia).
  revert v. induction Hl as [| p l [Hp Hq] Hl IH]; intros v; cbn [fold_left existsb]; [rewrite orb_false_r; reflexivity |].
  rewrite IH, testbit_set_bit, orb_assoc by lia. fold (bit_at inv (fst p)). rewrite bit_at_testbit by lia.
  do 2 f_equal. apply andb_comm.
Qed.

Lemma testbit_b2z_shift b k i : 0 <= k -> 0 <= i -> Z.testbit (Z.shiftl (Z.b2z b) k) i = b && (k =? i).
Proof.
  intros Hk Hi. destruct b; cbn [Z.b2z]; [apply testbit_shiftl_one; lia |]. rewrite Z.shiftl_0_l. apply Z.bits_0.
Qed.

Lemma testbit_recording old exp i :
  0 <= i -> 0 <= fprf exp < 32 -> Z.testbit (recording old exp) i = recorded old exp i.
Proof.
  intros Hi Hf. unfold recording, recorded. cbv zeta.
  set (v := set_bit (xx exp) 25 _).
  assert (Hv : Z.testbit v i = Z.testbit old i || raised exp i).
  { subst v. rewrite !testbit_set_bit, testbit_set_invalid by lia. unfold raised.
    rewrite <- !orb_assoc, !(andb_comm (_ =? i)). reflexivity. }
  set (w := if frfi_valid exp then _ else v).
  assert (Hw : Z.testbit w i = if (i =? 17) && frfi_valid exp then fi exp
                               else if (i =? 18) && frfi_valid exp then fr exp else Z.testbit v i).
  { subst w. destruct (frfi_valid exp); [| rewrite !andb_false_r; reflexivity].
    rewrite !Z.lor_spec, !testbit_b2z_shift, (testbit_put_field v 3 17 0 i 2) by (reflexivity || lia).
    rewrite Z.bits_0, !andb_true_r.
    destruct (Z.eqb_spec i 17) as [-> | H17]; [cbn; rewrite andb_false_r, andb_true_r; reflexivity |].
    destruct (Z.eqb_spec i 18) as [-> | H18]; [cbn; rewrite andb_false_r, andb_true_r, orb_false_r; reflexivity |].
    rewrite (proj2 (Z.eqb_neq 18 i)), (proj2 (Z.eqb_neq 17 i)), !andb_false_r, !orb_false_r by lia.
    destruct (Z.leb_spec 17 i), (Z.ltb_spec i (17 + 2)); cbn [andb]; try reflexivity; lia. }
  destruct (fprf_valid exp); [| rewrite andb_false_r, Hw, Hv; reflexivity].
  rewrite (testbit_put_field w 31 12 (fprf exp) i 5), andb_true_r, Hw, Hv by (reflexivity || (cbn; lia)). reflexivity.
Qed.

Lemma existsb_ext_in {A} (f g : A -> bool) l : (forall x, In x l -> f x = g x) -> existsb f l = existsb g l.
Proof. intros H. induction l; cbn; [reflexivity |]. rewrite H, IHl; auto with datatypes. Qed.

(** The status word an operation leaves, bit by bit: exception causes are
    sticky (the old bit or what the operation raises), FR, FI and FPRF are
    replaced when valid, VX is the disjunction of the nine invalid causes, FEX
    the disjunction of the enabled exceptions, FX is set exactly when it was or
    a clear exception bit became set, and every other bit is kept. *)
Theorem fpscr_after_bits old exp i :
  0 <= fprf exp < 32 -> 0 <= i -> Z.testbit (fpscr_after old exp) i = fpscr_bit old exp i.
Proof.
  intros Hf Hi. unfold fpscr_after. fold (recording old exp). set (N := recording old exp).
  change (let new := set_invalid (o_invalid exp) old in _) with N || cbv zeta.
  assert (HN : forall j, 0 <= j -> Z.testbit N j = recorded old exp j).
  { intros j Hj. apply testbit_recording; assumption. }
  set (t := truthy (Z.land (Z.land N (Z.lnot old)) exceptions)).
  assert (Ht : t = existsb (fun b => recorded old exp b && negb (Z.testbit old b)) exception_bits).
  { subst t. change exceptions with (fold_right (fun b m => Z.lor (Z.shiftl 1 b) m) 0 exception_bits).
    rewrite truthy_land_bits by (repeat constructor; lia). apply existsb_ext_in. intros b Hb.
    assert (0 <= b) by (cbn in Hb; lia). rewrite Z.land_spec, Z.lnot_spec, HN by assumption. reflexivity. }
  set (M := if t then Z.lor N (Z.shiftl 1 31) else N).
  assert (HM : forall j, 0 <= j -> Z.testbit M j = recorded old exp j || (t && (31 =? j))).
  { intros j Hj. subst M. change (if t then Z.lor N (Z.shiftl 1 31) else N) with (set_bit t 31 N).
    rewrite testbit_set_bit, HN by lia. reflexivity. }
  assert (HM' : forall j, 0 <= j < 31 -> Z.testbit M j = recorded old exp j).
  { intros j Hj. rewrite HM, (proj2 (Z.eqb_neq 31 j)), andb_false_r, orb_false_r by lia. reflexivity. }
  set (vx := existsb (fun b => bit_at M b) INVALID_BITS).
  assert (Hvx : vx = existsb (recorded old exp) INVALID_BITS).
  { apply existsb_ext_in. intros b Hb. assert (0 <= b < 31) by (cbn in Hb; lia).
    rewrite bit_at_testbit, HM' by lia. reflexivity. }
  assert (B1 : forall b : bool, 0 <= Z.b2z b < 2 ^ 1) by (intros []; cbn; lia).
  set (V := put_field M 1 29 (Z.b2z vx)).
  assert (HV : forall j, 0 <= j -> Z.testbit V j = if j =? 29 then vx else Z.testbit M j).
  { intros j Hj. subst V. rewrite (testbit_put_field M 1 29 _ j 1) by (auto; lia).
    destruct (Z.eqb_spec j 29) as [-> |]; [cbn; apply Z.b2z_bit0 |].
    destruct (Z.leb_spec 29 j), (Z.ltb_spec j (29 + 1)); cbn [andb]; try reflexivity; lia. }
  rewrite (testbit_put_field V 1 30 _ i 1) by (auto; lia). unfold fpscr_bit.
  destruct (Z.eqb_spec i 31) as [-> | H31].
  { cbn [Z.leb Z.ltb Z.compare Pos.compare Pos.compare_cont andb Z.add Pos.add Pos.succ].
    rewrite HV, HM, Ht by lia. cbn [Z.eqb Pos.eqb]. rewrite andb_true_r. reflexivity. }
  destruct (Z.eqb_spec i 29) as [-> | H29].
  { cbn [Z.leb Z.ltb Z.compare Pos.compare Pos.compare_cont andb]. rewrite HV by lia. exact Hvx. }
  destruct (Z.eqb_spec i 30) as [-> | H30].
  - cbn [Z.leb Z.ltb Z.compare Pos.compare Pos.compare_cont andb Z.add Pos.add Pos.succ Z.sub Z.opp Z.pos_sub].
    rewrite Z.b2z_bit0, !enabled_cause_testbit, bit_at_testbit by lia.
    rewrite !HV by lia. cbn [Z.eqb Pos.eqb]. rewrite !HM', Hvx by lia. reflexivity.
  - replace ((30 <=? i) && (i <? 30 + 1)) with false.
    + rewrite HV, HM, (proj2 (Z.eqb_neq i 29)), (proj2 (Z.eqb_neq 31 i)), andb_false_r, orb_false_r by lia. reflexivity.
    + destruct (Z.leb_spec 30 i), (Z.ltb_spec i (30 + 1)); cbn [andb]; try reflexivity; lia.
Qed.

(** Zero by zero with every exception enabled: the enabled invalid operation
    sets FEX (bit 30). *)
Lemma fpscr_after_bits_witness :
  let exp := settled ZDZ false DEFAULT_NAN false in
  fpscr_bit 0xf8 exp 30 = true /\ Z.testbit (fpscr_after 0xf8 exp) 30 = fpscr_bit 0xf8 exp 30.
Proof.
  split; [reflexivity |]. apply fpscr_after_bits; [vm_compute; split; [discriminate | reflexivity] | lia].
Defined.

End Fpscr.

Module estimate_vectors.

Definition FRES : Z := 13.
Definition FRSQRTE : Z := 14.
Definition NORMAL : Z := 0.
Definition OVERFLOW : Z := 1.
Definition UNDERFLOW : Z := 2.
Definition SPECIAL : Z := 3.
Definition RSQRT : Z := 4.
Definition SUBNORMAL : Z := 5.
Definition DEFAULT_NAN : Z := 0x7ff8000000000000.
Definition POS_INF : Z := 0x7ff0000000000000.

(** [calculate('to64', bits, 0, fmt=B32)['bits']], [calculate('to32', bits, 0)['bits']] *)
Definition widen_sp (b : Z) : Z := bits (calc_convert (decode b B32) 0 B32 B64).
Definition narrow_sp (b : Z) : Z := bits (calc_convert (decode b B64) 0 B64 B32).

Definition SP_MAX : Z := widen_sp 0x7f7fffff.
Definition SP_MIN : Z := widen_sp 1.

(** [Fraction(n, d)] *)
Definition Fraction (n d : Z) : Q := Qmake n (Z.to_pos d).

Definition exact_value (b : Z) : result Q :=
  let x := decode b B64 in
  if negb (is_finite (d_kind x)) then Raise (ValueError "kind")
  else
    let value := Fraction (Z.shiftl (d_sig x) (Z.max (d_exp x) 0)) (Z.shiftl 1 (Z.max (- d_exp x) 0)) in
    Ok (if truthy (d_sign x) then Qopp value else value).

Definition power_two (exponent sign : Z) : Z :=
  Z.lor (if exponent <? -1022 then Z.shiftl 1 (exponent + 1074) else Z.shiftl (exponent + 1023) 52)
        (Z.shiftl sign 63).

Definition magnitude (b : Z) : Z := Z.land b (Z.shiftl 1 63 - 1).
Definition Qltb (x y : Q) : bool := negb (Qle_bool y x).
Definition between (lo v hi : Q) : bool := Qle_bool lo v && Qle_bool v hi.

Definition result_class (b : Z) (single : bool) : result Z :=
  let x := decode b B64 in
  if is_nan (d_kind x) then Ok 0x11
  else if is_inf (d_kind x) then Ok (by_sign (d_sign x) 0x09 0x05)
  else if magnitude b =? 0 then Ok (by_sign (d_sign x) 0x12 0x02)
  else
    let! v := exact_value (magnitude b) in
    if Qltb v (Fraction 1 (Z.shiftl 1 (if single then 126 else 1022)))
    then Ok (by_sign (d_sign x) 0x18 0x14) else Ok (by_sign (d_sign x) 0x08 0x04).

Definition scale_fraction (value : Q) (exponent : Z) : Q :=
  if 0 <=? exponent then Qmult value (Fraction (Z.shiftl 1 exponent) 1)
  else Qdiv value (Fraction (Z.shiftl 1 (- exponent)) 1).

(** [(result, invalid, zx)] of a special operand *)
Definition expected_special (op value : Z) : option (Z * Z * Z) :=
  let x := decode value B64 in
  let negative_nonzero := truthy (d_sign x) && truthy (magnitude value) in
  if is_nan (d_kind x) then Some (Z.lor value (Z.shiftl 1 51), Z.b2z (is_snan (d_kind x)), 0)
  else if negb (truthy (magnitude value)) then Some (Z.lor (Z.shiftl (d_sign x) 63) POS_INF, 0, 1)
  else if (op =? FRSQRTE) && negative_nonzero then Some (DEFAULT_NAN, Z.shiftl 1 7, 0)
  else if is_inf (d_kind x) then Some (Z.shiftl (d_sign x) 63, 0, 0)
  else None.

(** A vector [(op, value, rn, ni, ve, oe, ue, ze, mode)] and an observation. *)
Record row : Type := { r_op : Z; r_value : Z; r_rn : Z; r_ni : Z; r_ve : Z; r_oe : Z; r_ue : Z; r_ze : Z; r_mode : Z }.
Record observed : Type := {
  out_op : Z; out_input : Z; b_result : Z; b_invalid : Z; b_ox : Z; b_ux : Z; b_zx : Z; b_xx : Z; b_fr : Z;
  b_fi : Z; b_frfi_valid : Z; b_fprf_valid : Z; b_fprf : Z; b_write_result : Z; b_compare_valid : Z; b_fpcc : Z
}.

Definition verdict := result (option string).
Definition complain (s : string) : verdict := Ok (Some s).

Definition check_special (r : row) (o : observed) (expected_result expected_invalid expected_zx : Z) (k : verdict) : verdict :=
  let exceptional := truthy expected_invalid || truthy expected_zx in
  let suppress := (truthy expected_invalid && truthy (r_ve r)) || (truthy expected_zx && truthy (r_ze r)) in
  if negb (b_frfi_valid o =? Z.b2z exceptional) || (exceptional && (truthy (b_fr o) || truthy (b_fi o)))
  then complain "exceptional FR/FI clear or ordinary FR/FI validity"
  else if negb ((b_invalid o =? expected_invalid) && (b_ox o =? 0) && (b_ux o =? 0) && (b_zx o =? expected_zx)
                && (b_write_result o =? Z.b2z (negb suppress)) && (b_fprf_valid o =? Z.b2z (negb suppress)))
  then complain "special status/suppression"
  else if negb suppress && negb (b_result o =? expected_result) then complain "special result"
  else k.

Definition check_rsqrt (r : row) (o : observed) (k : verdict) : verdict :=
  if truthy (b_ox o) || truthy (b_ux o) then complain "rsqrt affected bits"
  else
    let x := decode (b_result o) B64 in
    if negb (is_finite (d_kind x)) || truthy (d_sign x) || negb (truthy (magnitude (b_result o)))
    then complain "rsqrt positive finite result"
    else
      let! v := exact_value (r_value r) in
      let! e := exact_value (b_result o) in
      if negb (between (Fraction (31 * 31) (32 * 32)) (Qmult v (Qmult e e)) (Fraction (33 * 33) (32 * 32)))
      then complain "rsqrt 1/32 relative bound"
      else if (widen_sp (narrow_sp (r_value r)) =? r_value r)
              && negb (widen_sp (narrow_sp (b_result o)) =? b_result o)
      then complain "rsqrt SP-representable destination"
      else k.

(** [Fraction(255, 256) <= abs(v) <= Fraction(257, 256)] *)
Definition reciprocal_bound (v : Q) : bool := between (Fraction 255 256) (Qabs v) (Fraction 257 256).

(** The bound of a product scaled by an enabled exception's adjustment. *)
Definition scaled_bound (r : row) (o : observed) (exponent : Z) : result bool :=
  let! v := exact_value (r_value r) in
  let! e := exact_value (b_result o) in
  Ok (reciprocal_bound (scale_fraction (Qmult v e) exponent)).

Definition check_mode (r : row) (o : observed) (k : verdict) : verdict :=
  let sign := Z.shiftr (r_value r) 63 in
  let toward_nonzero := ((r_rn r =? 2) && negb (truthy sign)) || ((r_rn r =? 3) && truthy sign) in
  if r_mode r =? NORMAL then
    if truthy (b_ox o) || truthy (b_ux o) then complain "normal reciprocal range flags"
    else
      let! v := exact_value (r_value r) in
      let! e := exact_value (b_result o) in
      if negb (reciprocal_bound (Qmult v e)) then complain "reciprocal 1/256 relative bound"
      else if negb (widen_sp (narrow_sp (b_result o)) =? b_result o)
      then complain "reciprocal is not binary32 representable" else k
  else if r_mode r =? OVERFLOW then
    if negb ((b_ox o =? 1) && (b_ux o =? 0)) then complain "overflow flags"
    else if truthy (r_oe r) then
      let! ok := scaled_bound r o 192 in
      if ok then k else complain "overflow scaled reciprocal bound"
    else if negb (b_result o =? Z.lor (Z.shiftl sign 63) (if (r_rn r =? 0) || toward_nonzero then POS_INF else SP_MAX))
    then complain "overflow RN result" else k
  else if r_mode r =? UNDERFLOW then
    if truthy (b_ox o) || negb (b_ux o =? 1) then complain "underflow flags"
    else if truthy (r_ue r) then
      let! ok := scaled_bound r o (-192) in
      if ok then k else complain "underflow scaled reciprocal bound"
    else if negb (b_result o =? Z.lor (Z.shiftl sign 63) (if toward_nonzero && negb (truthy (r_ni r)) then SP_MIN else 0))
    then complain "underflow RN/NI result" else k
  else if r_mode r =? SUBNORMAL then
    if truthy (b_ox o) || truthy (b_ux o) then complain "exact subnormal flags"
    else
      let exponent := if magnitude (r_value r) =? power_two 149 0 then 149 else 148 in
      if negb (b_result o =? Z.lor (Z.shiftl sign 63)
                 (if truthy (r_ni r) then 0 else widen_sp (if exponent =? 149 then 1 else 2)))
      then complain "exact subnormal result/NI" else k
  else complain "unexpected finite mode".

(** Exponent-adjusted enabled results. *)
Definition adjusted (r : row) : bool :=
  ((r_mode r =? OVERFLOW) && truthy (r_oe r)) || ((r_mode r =? UNDERFLOW) && truthy (r_ue r)).

Definition check_class (r : row) (o : observed) : verdict :=
  if truthy (b_write_result o) then
    let! c := result_class (b_result o) ((r_op r =? FRES) && negb (adjusted r)) in
    if negb (b_fprf o =? c) then complain "FPRF class" else Ok None
  else Ok None.

Definition check_one (r : row) (o : observed) : verdict :=
  if negb ((out_op o =? r_op r) && (out_input o =? r_value r)) then complain "trace op/input"
  else if truthy (b_compare_valid o) || truthy (b_fpcc o) || truthy (b_xx o) then complain "unexpected compare/XX update"
  else match expected_special (r_op r) (r_value r) with
  | Some (res, inv, zx) => check_special r o res inv zx (check_class r o)
  | None =>
      if truthy (b_frfi_valid o) then complain "finite estimate FR/FI validity"
      else if truthy (b_invalid o) || truthy (b_zx o) || negb (truthy (b_write_result o)) || negb (truthy (b_fprf_valid o))
      then complain "finite invalid/ZX/write"
      else if r_op r =? FRSQRTE then check_rsqrt r o (check_class r o)
      else if negb (Z.shiftr (b_result o) 63 =? Z.shiftr (r_value r) 63) then complain "reciprocal finite sign"
      else check_mode r o
             (if adjusted r && truthy (Z.land (b_result o) (Z.shiftl 1 29 - 1))
              then complain "scaled result exceeds binary32 precision" else check_class r o)
  end.

End estimate_vectors.

(** ** The two class oracles *)
Import estimate_vectors.

Lemma magnitude_assemble s e f :
  0 <= s <= 1 -> 0 <= e < 2 ^ 11 -> 0 <= f < 2 ^ 52 ->
  magnitude (assemble B64 s e f) = assemble B64 0 e f /\ assemble B64 0 e f = e * 2 ^ 52 + f.
Proof.
  intros Hs He Hf. destruct b64_ok as [F1 F2].
  assert (E0 : assemble B64 0 e f = e * 2 ^ 52 + f).
  { rewrite (assemble_sum B64 F1 F2) by (assumption || lia). reflexivity. }
  split; [| exact E0]. unfold magnitude. rewrite E0, (assemble_sum B64 F1 F2) by assumption.
  change (Z.shiftl 1 63 - 1) with (Z.ones 63). rewrite Z.land_ones by lia.
  change (2 ^ signbit B64) with (2 ^ 63). change (2 ^ fraction B64) with (2 ^ 52).
  rewrite Z.add_comm, Z.mod_add by lia. apply Z.mod_small. const_pow. lia.
Qed.

Lemma ltb_scale a b k : 0 < k -> (a * k <? b * k) = (a <? b).
Proof.
  intros Hk. destruct (Z.ltb_spec a b); [apply Z.ltb_lt, Z.mul_lt_mono_pos_r | apply Z.ltb_ge, Z.mul_le_mono_nonneg_r]; lia.
Qed.

(** [n * 2^x < 2^-emin] as the oracle compares it. *)
Lemma below_normal n x low f :
  0 <= low -> 0 <= f -> 0 <= n -> - (low + f) <= x ->
  Qltb (Fraction (Z.shiftl n (Z.max x 0)) (Z.shiftl 1 (Z.max (- x) 0))) (Fraction 1 (Z.shiftl 1 low)) =
  (n * 2 ^ (x + (low + f)) <? 2 ^ f).
Proof.
  intros Hlow Hf Hn Hx. unfold Qltb, Qle_bool, Fraction. cbn [Qnum Qden].
  rewrite !Z.shiftl_1_l, Z.shiftl_mul_pow2 by lia.
  rewrite !Z2Pos.id by (apply pow2_pos; lia). rewrite Z.mul_1_l, Z.leb_antisym, negb_involutive.
  rewrite <- (ltb_scale _ (2 ^ Z.max (- x) 0) (2 ^ (low + f - Z.max (- x) 0))) by (apply pow2_pos; lia).
  rewrite <- (ltb_scale _ (2 ^ f) (2 ^ low)) by (apply pow2_pos; lia).
  rewrite <- !Z.mul_assoc, <- !Z.pow_add_r by lia. f_equal; [f_equal |]; f_equal; lia.
Qed.

Lemma result_class_finite s e f :
  0 <= s <= 1 -> 0 <= e < 2 ^ 11 - 1 -> 0 <= f < 2 ^ 52 ->
  result_class (assemble B64 s e f) false = Ok (classify (assemble B64 s e f) B64).
Proof.
  intros Hs He Hf. destruct b64_ok as [F1 F2].
  unfold result_class, classify. rewrite (assemble_exp B64 F1 F2 s e f Hs) by (change (exponent B64) with 11; lia || assumption).
  destruct (magnitude_assemble s e f Hs ltac:(lia) Hf) as [-> Hz].
  assert (D : forall t, 0 <= t <= 1 -> decode (assemble B64 t e f) B64 =
    {| d_kind := Finite; d_sign := t; d_sig := if truthy e then 2 ^ 52 + f else f;
       d_exp := (if truthy e then e else 1) - 1075 |}).
  { intros t Ht. rewrite (decode_assemble B64 F1 F2 t e f Ht) by (change (exponent B64) with 11; lia || assumption).
    change (2 ^ exponent B64 - 1) with (2 ^ 11 - 1). rewrite (proj2 (Z.eqb_neq e (2 ^ 11 - 1))) by lia.
    f_equal. change (bias B64) with 1023. change (fraction B64) with 52. lia. }
  rewrite D by exact Hs. cbn [d_kind d_sig d_sign is_nan is_inf]. unfold exact_value. rewrite D by lia.
  cbn [d_kind d_sig d_sign d_exp is_finite negb]. change (truthy 0) with false. cbv iota.
  rewrite Hz. change (if false then 126 else 1022) with 1022. rewrite (below_normal _ _ 1022 52) by (destruct (truthy e) eqn:Te; unfold truthy in Te; lia).
  unfold truthy. destruct (Z.eqb_spec e 0) as [-> | He0]; cbn [negb].
  - change (1 - 1075 + (1022 + 52)) with 0. change (2 ^ 0) with 1. rewrite Z.mul_1_r, Z.mul_0_l, Z.add_0_l.
    destruct (Z.eqb_spec f 0); cbn [negb]; [reflexivity |]. rewrite (proj2 (Z.ltb_lt f (2 ^ 52))) by lia. reflexivity.
  - rewrite (proj2 (Z.eqb_neq (e * 2 ^ 52 + f) 0)), (proj2 (Z.eqb_neq (2 ^ 52 + f) 0)) by lia. cbn [negb].
    rewrite (proj2 (Z.ltb_ge _ (2 ^ 52))); [reflexivity |].
    pose proof (pow2_pos (e - 1075 + (1022 + 52)) ltac:(lia)). nia.
Qed.

(** The result class the estimate oracle computes by comparing exact
    rationals is the one the PowerPC model reads off the encoding, on every
    binary64 word. *)
Theorem result_classes_agree b :
  0 <= b < 2 ^ 64 -> result_class b false = Ok (classify b B64).
Proof.
  intros Hb. destruct b64_ok as [F1 F2].
  destruct (word_fields B64 F1 F2 b Hb) as (s & e & f & Hs & He & Hf & ->).
  change (2 ^ fraction B64) with (2 ^ 52) in Hf. change (2 ^ exponent B64) with (2 ^ 11) in He.
  destruct (Z.eq_dec e (2 ^ 11 - 1)) as [-> |]; [| apply result_class_finite; assumption || lia].
  unfold result_class, classify. change (2 ^ 11 - 1) with 2047. rewrite b64_special by assumption.
  cbn [d_kind d_sign d_sig]. destruct (truthy f); cbn [andb]; [| reflexivity].
  destruct (negb _); reflexivity.
Qed.

Lemma result_classes_agree_witness : result_class 0x8000000000000001 false = Ok (classify 0x8000000000000001 B64).
Proof. apply result_classes_agree. lia. Defined.
