(* ===== verification/FpCases.v ===== *)
(** * Random floating-point cases ([sim/fpu/cluster_vectors.py],
    [sim/fpu/enabled_vectors.py], [sim/fpu/production_vectors_602.py])

    Operands clustered where rounding is hardest, the enabled-exception cases of the
    603e and of the 602, and the corpora written from them. Each generator is a
    program over the draws of an [Rng]; the order of the draws is Python's order of
    evaluation. *)
From S2P Require Import Prelude PyRandom FpReference FpPpc FpStatus.
Import reference ppc_reference.

Module production_vectors.
Definition OPS : dict Z :=
  [("add", 0); ("sub", 1); ("mul", 2); ("div", 3); ("madd", 4); ("msub", 5); ("nmadd", 6); ("nmsub", 7); ("frsp", 8);
   ("fctiw", 9); ("fctiwz", 10); ("cmpu", 11); ("cmpo", 12)]%string.
(** [calculate('to64', bits, 0, fmt=B32)['bits']] *)
Definition widen (b : Z) : Z := bits (calc_convert (decode b B32) 0 B32 B64).
End production_vectors.

Module production_vectors_602.
Definition ONE : Z := 0x3ff0000000000000.
Definition widen_raw (b : Z) : Z :=
  if (Z.land b 0x7f800000 =? 0x7f800000) && truthy (Z.land b 0x007fffff)
  then Z.lor (Z.lor (Z.shiftl (Z.shiftr b 31) 63) (Z.shiftl 0x7ff 52)) (Z.shiftl (Z.land b 0x7fffff) 29)
  else production_vectors.widen b.

(** [value['result'] = r; value['fprf'] = f] *)
Definition with_result (r f : Z) (o : out) : out :=
  {| o_result := r; write_result := write_result o; o_invalid := o_invalid o; ox := ox o; ux := ux o; zx := zx o;
     xx := xx o; fr := fr o; fi := fi o; frfi_valid := frfi_valid o; fprf := f; fprf_valid := fprf_valid o;
     fpcc := fpcc o; compare_valid := compare_valid o; tiny_before_round := tiny_before_round o |}.

Definition expected_602 (op : string) (a b c rn : Z) (ni ve oe ue ze : bool) : result out :=
  let k s := {| single := s; ni := ni; ve := ve; oe := oe; ue := ue; ze := ze |} in
  let! value := (if String.eqb op "fres" then arithmetic "div" ONE b 0 rn (k true)
                 else arithmetic op a b c rn (k (negb (str_in op ["fctiwz"; "cmpu"; "cmpo"]%string)))) in
  Ok (if ni && tiny_before_round value && write_result value
      then let sign := Z.shiftr (o_result value) 63 in
           with_result (Z.shiftl sign 63) (if truthy sign then 18 else 2) value
      else value).
End production_vectors_602.

Module cluster_vectors.
Import production_vectors production_vectors_602.

Definition THREE : list string := ["madd"; "msub"; "nmadd"; "nmsub"]%string.
Definition OPS_603 : list string := ["add"; "sub"; "mul"; "div"]%string ++ THREE ++ ["frsp"; "fctiw"; "fctiwz"]%string.
Definition OPS_602 : list string := ["add"; "sub"; "mul"; "div"]%string ++ THREE ++ ["frsp"; "fctiwz"; "fres"]%string.
Definition CLUSTERS : list string := ["cancel"; "align"; "tiny"; "overflow"; "denormal"]%string.

(** The attributes of a [Fmt]. *)
Record Fmt : Type := { frac : Z; bias : Z; emax : Z; width : Z }.
Definition Fmt_ (single : bool) : Fmt :=
  {| frac := if single then 23 else 52; bias := if single then 127 else 1023;
     emax := if single then 254 else 2046; width := if single then 32 else 64 |}.
Definition value (f : Fmt) (sign exponent fraction : Z) : Z :=
  let exponent := Z.min (Z.max exponent 0) (emax f) in
  Z.lor (Z.lor (Z.shiftl sign (width f - 1)) (Z.shiftl exponent (frac f)))
        (Z.land fraction (Z.shiftl 1 (frac f) - 1)).
Definition exponent (f : Fmt) (b : Z) : Z := Z.land (Z.shiftr b (frac f)) (Z.shiftl 1 (width f - frac f - 1) - 1).

Section Generators.
Context {S : Type} `{!Rng S}.

Definition fraction (f : Fmt) : method S Z :=
  do! c := randrange 0 4 in
  if c =? 0 then getrandbits (frac f)
  else if c =? 1 then
    do! k := randrange 1 8 in
    do! r := getrandbits k in
    m_ret (Z.lxor (Z.shiftl 1 (frac f) - 1) r)
  else if c =? 2 then do! k := randrange 1 8 in getrandbits k
  else
    do! r := getrandbits (frac f) in
    do! k := randrange 0 (frac f) in
    m_ret (Z.land r (Z.lnot (Z.shiftl 1 k - 1))).

Definition denormal (f : Fmt) : method S Z :=
  do! s := getrandbits 1 in
  do! r := getrandbits (frac f) in
  do! k := randrange 0 (frac f) in
  m_ret (value f s 0 (Z.max 1 (Z.shiftr r k))).

(** [f.value(s(1), e, fraction(rng, f))] *)
Definition signed_value (f : Fmt) (e : Z) : method S Z :=
  do! s := getrandbits 1 in
  do! x := fraction f in
  m_ret (value f s e x).
(** [near(e)] *)
Definition near (e : Z) : method S Z := do! r := randrange (-2) 3 in m_ret (e + r).
(** [if s(1)] *)
Definition coin : method S bool := do! r := getrandbits 1 in m_ret (truthy r).

Definition unary_operands (op cluster : string) (f : Fmt) : method S (Z * Z * Z) :=
  let scalar e := do! v := signed_value f e in m_ret (0, v, 0) in
  if String.eqb cluster "tiny" then
    do! e := (if width f =? 32 then randrange 1 40
              else do! x := randrange (1023 - 160) (1023 - 120) in do! y := randrange 1 40 in choice [x; y]) in
    scalar e
  else if String.eqb cluster "overflow" then
    do! e := (if (width f =? 32) || negb (String.eqb op "frsp") then randrange (emax f - 8) (emax f + 1)
              else randrange (1023 + 125) (1023 + 130)) in
    scalar e
  else if String.eqb cluster "denormal" then do! v := denormal f in m_ret (0, v, 0)
  else
    do! d := (if str_in op ["fctiw"; "fctiwz"]%string then randrange (-2) 33 else randrange (-8) 8) in
    scalar (bias f + d).

Definition sum_operands (cluster : string) (f : Fmt) : method S (Z * Z * Z) :=
  do! ea := (if String.eqb cluster "tiny" then randrange 0 4
             else if String.eqb cluster "overflow" then randrange (emax f - 2) (emax f + 1)
             else randrange 1 (emax f + 1)) in
  do! a := signed_value f ea in
  do! a := (if String.eqb cluster "denormal" then denormal f else m_ret a) in
  do! close := (if str_in cluster ["cancel"; "tiny"; "denormal"]%string then m_ret true else coin) in
  do! b :=
    (if close then
       do! eb := near (if exponent f a =? 0 then 1 else exponent f a) in
       do! fb := fraction f in
       do! mirrored := coin in
       do! fb := (if mirrored
                  then do! k := randrange 1 6 in
                       do! r := getrandbits k in
                       m_ret (Z.land (Z.lxor a r) (Z.shiftl 1 (frac f) - 1))
                  else m_ret fb) in
       do! s := getrandbits 1 in
       m_ret (value f s eb fb)
     else
       do! s := getrandbits 1 in
       do! e := near ea in
       do! x := fraction f in
       m_ret (value f s e x)) in
  do! swap := coin in
  m_ret (if swap then (b, a, 0) else (a, b, 0)).

Definition product_operands (op cluster : string) (f : Fmt) : method S (Z * Z * Z) :=
  do! target := (if String.eqb cluster "tiny" then randrange (- frac f - 4) 3
                 else if String.eqb cluster "overflow" then randrange (emax f - 3) (emax f + 2)
                 else randrange (bias f - 40) (bias f + 40)) in
  do! ea := randrange (Z.max 1 (target - bias f + 1)) (Z.min (emax f) (target + bias f - 1) + 1) in
  let ec := if String.eqb op "div" then ea - target + bias f else target - ea + bias f in
  let ec := Z.min (Z.max ec 1) (emax f) in
  do! a := signed_value f ea in
  do! c := signed_value f ec in
  do! ac :=
    (if String.eqb cluster "denormal" then
       do! first := coin in
       do! v := denormal f in
       m_ret (if first then (v, c) else (a, v))
     else m_ret (a, c)) in
  let '(a, c) := ac in
  if String.eqb op "mul" then m_ret (a, 0, c)
  else if String.eqb op "div" then m_ret (a, c, 0)
  else
    let pe := exponent f a + exponent f c - bias f in
    do! small := (if String.eqb cluster "denormal" then coin else m_ret false) in
    if small then do! b := denormal f in m_ret (a, b, c)
    else
      do! s := getrandbits 1 in
      do! e := near (Z.max pe 1) in
      do! x := fraction f in
      m_ret (a, value f s e x, c).

Definition operands (op cluster : string) (f : Fmt) : method S (Z * Z * Z) :=
  if str_in op ["frsp"; "fctiw"; "fctiwz"; "fres"]%string then unary_operands op cluster f
  else if str_in op ["add"; "sub"]%string then sum_operands cluster f
  else product_operands op cluster f.
End Generators.
End cluster_vectors.

(** ** Enabled-exception cases *)
Module enabled_cases.
Import enabled_vectors cluster_vectors production_vectors production_vectors_602.

Definition NO_EXCEPTION : Z := 0.
Definition FP_ENABLED : Z := 5.
Definition EMULATION_TRAP : Z := 6.

Definition SPECIAL64 : list Z :=
  [0x7ff0000000000001; 0x7ff8000000000000; 0x7ff0000000000000; 0xfff0000000000000; 0; Z.shiftl 1 63;
   0x3ff0000000000000; 0x7fefffffffffffff; 0x0010000000000000; 0x0000000000000001; 0x41e0000000000000;
   0xc1e0000000200000].
Definition SPECIAL32 : list Z :=
  [0x7f800001; 0x7fc00000; 0x7f800000; 0xff800000; 0; 0x80000000; 0x3f800000; 0x7f7fffff; 0x00800000; 0x00000001;
   0x4f000000].

(** The tuple [case_603] and [case_602] return. *)
Record case : Type := {
  insn : Z; ra : Z; rb : Z; rc_ : Z; old : Z; fe : Z; exc : Z; write : bool; result : Z; mask : Z; new : Z;
  fmask : Z; rc : Z; cr1 : Z
}.

Definition triple : Type := Z * Z * Z.
(** [raw[i] = v], [i] in 0..2 *)
Definition put3 (raw : triple) (i v : Z) : triple :=
  let '(a, b, c) := raw in if i =? 0 then (v, b, c) else if i =? 1 then (a, v, c) else (a, b, v).
Definition map3 (f : Z -> Z) (raw : triple) : triple := let '(a, b, c) := raw in (f a, f b, f c).

Definition unary (op : string) : bool := str_in op ["frsp"; "fctiw"; "fctiwz"]%string.
(** [(enables >> (4 - i)) & 1] *)
Definition enable (e i : Z) : bool := truthy (Z.land (Z.shiftr e (4 - i)) 1).
(** [(AFORM.get(name) or XFORM[name])[1]] *)
Definition oracle_of (name : string) : Prelude.result string :=
  match dict_get AFORM name with
  | Some (_, op) => Ok op
  | None => match dict_get XFORM name with Some (_, op) => Ok op | None => Raise KeyError end
  end.

(** [exp = arithmetic(...)] with the five enable bits *)
Definition controls (single : bool) (ni enables : Z) : ppc_reference.enables :=
  {| single := single; ni := truthy ni; ve := enable enables 0; oe := enable enables 1; ue := enable enables 2;
     ze := enable enables 3 |}.
Definition old_word (enables ni rn : Z) : Z := Z.lor (Z.lor (Z.shiftl enables 3) (Z.shiftl ni 2)) rn.

Section Generators.
Context {S : Type} `{!Rng S}.

Definition sources (op : string) (single : bool) : method S triple :=
  let f := Fmt_ single in
  let special := if single then SPECIAL32 else SPECIAL64 in
  do! r := randrange 0 3 in
  do! raw :=
    (if r =? 0 then
       do! a := choice special in do! b := choice special in do! c := choice special in m_ret (a, b, c)
     else
       do! i := randrange 0 5 in
       do! cluster := m_lift (py_get CLUSTERS i) in
       do! raw := operands op cluster f in
       let raw := if unary op then let '(_, b, _) := raw in (b, b, b) else raw in
       do! r := randrange 0 4 in
       if r =? 0 then do! v := choice special in do! i := randrange 0 3 in m_ret (put3 raw i v) else m_ret raw) in
  let one := value f 0 (bias f) 0 in
  let raw := if unary op then let '(_, b, _) := raw in (one, b, one) else raw in
  if String.eqb op "div" then
    do! r := randrange 0 3 in
    if r =? 0 then do! s := getrandbits 1 in m_ret (put3 raw 1 (value f s 0 0)) else m_ret raw
  else m_ret raw.

(** Double sources at single-precision range edges. *)
Definition EDGES : list Z :=
  [0x47efffffe0000000; 0x47f0000000000000; 0x380fffffe0000000; 0x36a0000000000000; 0x3690000000000001].
Definition edge_source : method S triple :=
  do! b := choice EDGES in
  do! s := getrandbits 1 in
  m_ret (0x3ff0000000000000, Z.lor b (Z.shiftl s 63), 0x3ff0000000000000).

(** What is drawn after the sources: the enables, NI, RN, and at the end FE and Rc. *)
Definition draw_modes : method S (Z * Z * Z) :=
  do! enables := getrandbits 5 in
  do! ni := getrandbits 1 in
  do! rn := randrange 0 4 in
  m_ret (enables, ni, rn).
Definition draw_control : method S (Z * Z) :=
  do! fe := randrange 0 4 in
  do! rc := getrandbits 1 in
  m_ret (fe, rc).

Definition case_603_of (name op : string) (single : bool) (abc : triple) (enables ni rn : Z) (exp : out) (fe rc : Z) :
    Prelude.result case :=
  let '(a, b, c) := abc in
  let old := old_word enables ni rn in
  let new := fpscr_after old exp in
  let mask := if str_in name ["fctiw"; "fctiwz"]%string then 0xffffffff else Z.shiftl 1 64 - 1 in
  let! insn := encode name single rc in
  Ok {| insn := insn; ra := a; rb := b; rc_ := c; old := old; fe := fe;
        exc := if truthy fe && truthy (Z.land (Z.shiftr new 30) 1) then FP_ENABLED else NO_EXCEPTION;
        write := write_result exp; result := Z.land (o_result exp) mask; mask := mask; new := new;
        fmask := fpscr_mask exp (enable enables 1); rc := rc; cr1 := Z.shiftr new 28 |}.

Definition names_603 : list string := map fst AFORM ++ map fst XFORM.
Definition case_603 : method S case :=
  do! name := choice names_603 in
  do! op := m_lift (oracle_of name) in
  do! single := (if dict_mem AFORM name then coin else m_ret false) in
  do! edge := (if String.eqb name "frsp" then coin else m_ret false) in
  do! abc :=
    (if edge then edge_source
     else do! raw := sources op single in m_ret (if single then map3 widen raw else raw)) in
  do! modes := draw_modes in
  let '(enables, ni, rn) := modes in
  let '(a, b, c) := abc in
  do! exp := m_lift (arithmetic op a b c rn (controls single ni enables)) in
  do! control := draw_control in
  let '(fe, rc) := control in
  m_lift (case_603_of name op single abc enables ni rn exp fe rc).

(** [calculate('to32', bits, 0)['bits']] *)
Definition narrow (b : Z) : Z := bits (calc_convert (decode b B64) 0 B64 B32).

Definition enabled_602 (exp : out) (enables : Z) : bool :=
  (truthy (o_invalid exp) && enable enables 0) || (ox exp && enable enables 1) || (ux exp && enable enables 2)
  || (zx exp && enable enables 3) || (xx exp && enable enables 4).

Definition case_602_of (name : string) (raw : triple) (enables ni rn : Z) (exp : out) (fe rc : Z) : Prelude.result case :=
  let '(a, b, c) := raw in
  let old := old_word enables ni rn in
  let! insn := encode name true rc in
  if enabled_602 exp enables || (negb (truthy ni) && tiny_before_round exp)
  then Ok {| insn := insn; ra := a; rb := b; rc_ := c; old := old; fe := fe; exc := EMULATION_TRAP; write := false;
             result := 0; mask := 0xffffffff; new := old; fmask := 0xffffffff; rc := 0; cr1 := 0 |}
  else
    let new := fpscr_after old exp in
    let value := if String.eqb name "fctiwz" then Z.land (o_result exp) 0xffffffff else narrow (o_result exp) in
    Ok {| insn := insn; ra := a; rb := b; rc_ := c; old := old; fe := fe; exc := NO_EXCEPTION; write := write_result exp;
          result := value; mask := 0xffffffff; new := new; fmask := fpscr_mask exp (enable enables 1); rc := rc;
          cr1 := Z.shiftr new 28 |}.

Definition names_602 : list string := map fst AFORM ++ ["frsp"; "fctiwz"]%string.
Definition case_602 : method S case :=
  do! name := choice names_602 in
  do! op := m_lift (oracle_of name) in
  do! raw := sources op true in
  do! modes := draw_modes in
  let '(enables, ni, rn) := modes in
  let '(a, b, c) := map3 widen_raw raw in
  do! exp := m_lift (expected_602 op a b c rn (truthy ni) (enable enables 0) (enable enables 1) (enable enables 2)
                                  (enable enables 3)) in
  do! control := draw_control in
  let '(fe, rc) := control in
  m_lift (case_602_of name raw enables ni rn exp fe rc).

(** [for _ in range(count)] over the rows a corpus has. *)
Fixpoint repeat_case {A} (count : nat) (make : method S A) : method S (list A) :=
  match count with
  | O => m_ret []
  | Datatypes.S n => do! a := make in do! rest := repeat_case n make in m_ret (a :: rest)
  end.

(** [generate]: the rows of the file and how many of each exception. *)
Definition row_of (k : case) : list Z :=
  [insn k; ra k; rb k; rc_ k; old k; fe k; exc k; Z.b2z (write k); result k; mask k; new k; fmask k; rc k; cr1 k].
Definition kinds (cases : list case) : gmap Z Z :=
  fold_left (fun x k => <[exc k := default 0 (x !! exc k) + 1]> x) cases ∅.
Definition generate (personality : string) (count : nat) : method S (list (list Z) * gmap Z Z) :=
  do! cases := repeat_case count (if String.eqb personality "602" then case_602 else case_603) in
  m_ret (map row_of cases, kinds cases).
End Generators.
End enabled_cases.
