(* ===== verification/ProgramOracle.v ===== *)
(** * The symbolic program oracle ([sim/tools/control_memory_program.py])

    A program is a list of operation names with integer or label arguments.
    [encode] gives an operation's word; [simulate] executes the names and
    arguments, never the encoded bits. [BASE] is the module's address of the
    256-byte data memory, which the command line can move. *)
From S2P Require Import Prelude.

Module program.

(** An argument is an integer or a label. *)
Inductive arg : Type := I (z : Z) | L (s : string).
Definition operation : Type := string * list arg.

Definition MASK : Z := 0xffffffff.
Definition POISON : Z := 0xdeadbeef.

Definition DOPS_base : dict Z :=
  [("lwz", 32); ("lbz", 34); ("stw", 36); ("stb", 38); ("lhz", 40); ("lha", 42); ("sth", 44)]%string.
Definition DOPS : dict Z := DOPS_base ++ map (fun p => ((fst p +:+ "u")%string, snd p + 1)) DOPS_base.
Definition CROPS : dict Z :=
  [("crand", 257); ("crandc", 129); ("creqv", 289); ("crnand", 225); ("crnor", 33); ("cror", 449);
   ("crorc", 417); ("crxor", 193)]%string.
Definition XOPS_base : dict Z :=
  [("lwzx", 23); ("lbzx", 87); ("stwx", 151); ("stbx", 215); ("lhzx", 279); ("lhax", 343); ("sthx", 407)]%string.
(** [op[:-1]] *)
Definition chop (s : string) : string := String.substring 0 (String.length s - 1) s.
Definition XOPS : dict Z := XOPS_base ++ map (fun p => ((chop (fst p) +:+ "ux")%string, snd p + 32)) XOPS_base.

Definition signed (x bits : Z) : Z :=
  let x := Z.land x (Z.shiftl 1 bits - 1) in
  if truthy (Z.land x (Z.shiftl 1 (bits - 1))) then x - Z.shiftl 1 bits else x.

Definition digest (mem : list Z) : Z :=
  fold_left (fun h byte => Z.land (Z.lxor h byte * 16777619) MASK) mem 2166136261.

(** ** Arguments *)
Definition as_int (a : arg) : result Z := match a with I z => Ok z | L _ => Raise TypeError end.
Definition arg_at (a : list arg) (k : nat) : result Z :=
  match a !! k with Some v => as_int v | None => Raise IndexError end.

Fixpoint all_ints (a : list arg) : result (list Z) :=
  match a with
  | [] => Ok []
  | x :: a' => let! z := as_int x in let! l := all_ints a' in Ok (z :: l)
  end.

(** [d,r,...=a] of integers *)
Definition unpack (n : nat) (a : list arg) : result (list Z) :=
  if Nat.eqb (length a) n then all_ints a else Raise (ValueError "unpack").
Definition unpack3 (a : list arg) : result (Z * Z * Z) :=
  let! l := unpack 3 a in match l with [x; y; z] => Ok (x, y, z) | _ => Raise (ValueError "unpack") end.
Definition unpack4 (a : list arg) : result (Z * Z * Z * Z) :=
  let! l := unpack 4 a in match l with [x; y; z; w] => Ok (x, y, z, w) | _ => Raise (ValueError "unpack") end.
Definition unpack5 (a : list arg) : result (Z * Z * Z * Z * Z) :=
  let! l := unpack 5 a in match l with [x; y; z; w; v] => Ok (x, y, z, w, v) | _ => Raise (ValueError "unpack") end.
Definition unpack6 (a : list arg) : result (Z * Z * Z * Z * Z * Z) :=
  let! l := unpack 6 a in
  match l with [x; y; z; w; v; u] => Ok (x, y, z, w, v, u) | _ => Raise (ValueError "unpack") end.
Definition unpack2 (a : list arg) : result (Z * Z) :=
  let! l := unpack 2 a in match l with [x; y] => Ok (x, y) | _ => Raise (ValueError "unpack") end.

Definition ends_with (s suffix : string) : bool :=
  let n := String.length suffix in
  Nat.leb n (String.length s) && String.eqb (String.substring (String.length s - n) n s) suffix.
Definition removesuffix (s suffix : string) : string :=
  if ends_with s suffix then String.substring 0 (String.length s - String.length suffix) s else s.
Definition startswith (s p : string) : bool := String.prefix p s.

(** ** Programs under construction *)
Record Program : Type := { ops : list operation; labels : gmap string Z; folds : list Z }.
Definition empty_program : Program := {| ops := []; labels := ∅; folds := [] |}.

Definition emit (p : Program) (op : string) (a : list arg) : Program :=
  {| ops := ops p ++ [(op, a)]; labels := labels p; folds := folds p |}.
Definition label (p : Program) (name : string) : result Program :=
  match labels p !! name with
  | Some _ => Raise AssertionError
  | None => Ok {| ops := ops p; labels := <[name := Z.of_nat (length (ops p)) * 4]> (labels p); folds := folds p |}
  end.
Definition address (p : Program) (target : arg) : result Z :=
  match target with
  | L s => match labels p !! s with Some z => Ok z | None => Raise KeyError end
  | I z => Ok z
  end.

(** ** Encoding *)
Definition bits_or (l : list Z) : Z := fold_left Z.lor l 0.

(** [(31<<26)|(d<<21)|(r<<16)|(b<<11)|(oe<<10)|(xo<<1)|rc] *)
Definition xo_word (d r b oe xo rc : Z) : Z :=
  bits_or [Z.shiftl 31 26; Z.shiftl d 21; Z.shiftl r 16; Z.shiftl b 11; Z.shiftl oe 10; Z.shiftl xo 1; rc].
(** [(op<<26)|(d<<21)|(r<<16)|(imm&65535)] *)
Definition d_word (op d r imm : Z) : Z :=
  bits_or [Z.shiftl op 26; Z.shiftl d 21; Z.shiftl r 16; Z.land imm 65535].

Definition ADDS : dict Z := [("add", 266); ("addco", 522); ("adde", 138)]%string.
Definition UNARY : dict Z := [("cntlzw", 26); ("extsb", 954); ("extsh", 922)]%string.
Definition SHIFTS : dict Z := [("slw", 24); ("srw", 536); ("sraw", 792); ("srawi", 824)]%string.
Definition SUBS : dict Z :=
  [("subf", 40); ("subfc", 8); ("subfe", 136); ("subfme", 232); ("subfze", 200); ("neg", 104)]%string.
Definition SUBS3 : list string := ["subf"; "subfc"; "subfe"]%string.

(** The operands [(d, r, b, oe, rc)] of the subtract forms. *)
Definition sub_args (op : string) (a : list arg) : result (Z * Z * Z * Z * Z) :=
  if str_in op SUBS3 then unpack5 a
  else let! (d, r, oe, rc) := unpack4 a in Ok (d, r, 0, oe, rc).

Definition encode_divide (xo : Z) (a : list arg) : result Z :=
  let! a0 := arg_at a 0 in let! a1 := arg_at a 1 in let! a2 := arg_at a 2 in
  let! a3 := arg_at a 3 in let! a4 := arg_at a 4 in Ok (xo_word a0 a1 a2 a3 xo a4).

Definition encode_multiply (op : string) (a : list arg) : result Z :=
  let! a0 := arg_at a 0 in let! a1 := arg_at a 1 in let! a2 := arg_at a 2 in
  if String.eqb op "mulli" then Ok (d_word 7 a0 a1 a2)
  else
    let! a3 := arg_at a 3 in
    if String.eqb op "mullw" then let! a4 := arg_at a 4 in Ok (xo_word a0 a1 a2 a3 235 a4)
    else Ok (xo_word a0 a1 a2 0 (if String.eqb op "mulhw" then 75 else 11) a3).

Definition encode_cr (op : string) (a : list arg) : result Z :=
  let! a0 := arg_at a 0 in
  if String.eqb op "mcrf" then
    let! a1 := arg_at a 1 in Ok (bits_or [Z.shiftl 19 26; Z.shiftl a0 23; Z.shiftl a1 18])
  else if String.eqb op "mcrxr" then Ok (bits_or [Z.shiftl 31 26; Z.shiftl a0 23; Z.shiftl 512 1])
  else if String.eqb op "mfcr" then Ok (bits_or [Z.shiftl 31 26; Z.shiftl a0 21; Z.shiftl 19 1])
  else let! a1 := arg_at a 1 in Ok (bits_or [Z.shiftl 31 26; Z.shiftl a1 21; Z.shiftl a0 12; Z.shiftl 144 1]).

Definition encode_compare (op : string) (a : list arg) : result Z :=
  let! (bf, r, rhs) := unpack3 a in
  if ends_with op "i" then
    Ok (bits_or [Z.shiftl (if String.eqb op "cmpi" then 11 else 10) 26; Z.shiftl bf 23; Z.shiftl r 16; Z.land rhs 65535])
  else Ok (bits_or [Z.shiftl 31 26; Z.shiftl bf 23; Z.shiftl r 16; Z.shiftl rhs 11;
                    Z.shiftl (if String.eqb op "cmpl" then 32 else 0) 1]).

Definition encode_spr (op : string) (a : list arg) : result Z :=
  let spr := if ends_with op "lr" then 8 else 9 in
  let! a0 := arg_at a 0 in
  Ok (bits_or [Z.shiftl 31 26; Z.shiftl a0 21; Z.shiftl (Z.land spr 31) 16; Z.shiftl (Z.shiftr spr 5) 11;
               Z.shiftl (if startswith op "mf" then 339 else 467) 1]).

Definition encode_branch (p : Program) (pc : Z) (op : string) (a : list arg) : result Z :=
  if String.eqb op "b" then
    match a with
    | [target; aa; lk] =>
        let! t := address p target in let! aa := as_int aa in let! lk := as_int lk in
        Ok (bits_or [Z.shiftl 18 26; Z.land (t - (if truthy aa then 0 else pc)) 0x3fffffc; Z.shiftl aa 1; lk])
    | _ => Raise (ValueError "unpack")
    end
  else if String.eqb op "bc" then
    match a with
    | [bo; bi; target; aa; lk] =>
        let! t := address p target in
        let! bo := as_int bo in let! bi := as_int bi in let! aa := as_int aa in let! lk := as_int lk in
        Ok (bits_or [Z.shiftl 16 26; Z.shiftl bo 21; Z.shiftl bi 16;
                     Z.land (t - (if truthy aa then 0 else pc)) 0xfffc; Z.shiftl aa 1; lk])
    | _ => Raise (ValueError "unpack")
    end
  else
    let! (bo, bi, lk) := unpack3 a in
    Ok (bits_or [Z.shiftl 19 26; Z.shiftl bo 21; Z.shiftl bi 16; Z.shiftl (if String.eqb op "bclr" then 16 else 528) 1; lk]).

(** The integer operations with three register or immediate operands. *)
Definition encode_integer (p : Program) (op : string) (a : list arg) : result Z :=
  if str_in op ["addi"; "addis"]%string then
    match a with
    | [d; r; imm] =>
        let! imm := address p imm in let! d := as_int d in let! r := as_int r in
        Ok (d_word (if String.eqb op "addi" then 14 else 15) d r imm)
    | _ => Raise (ValueError "unpack")
    end
  else if String.eqb op "ori" then let! (d, r, imm) := unpack3 a in Ok (d_word 24 r d imm)
  else match dict_get ADDS op with
  | Some xo => let! (d, r, b) := unpack3 a in Ok (xo_word d r b 0 xo 0)
  | None =>
  match dict_get UNARY op with
  | Some xo => let! (d, r, rc) := unpack3 a in Ok (xo_word r d 0 0 xo rc)
  | None =>
  match dict_get SHIFTS op with
  | Some xo => let! (d, r, b, rc) := unpack4 a in Ok (xo_word r d b 0 xo rc)
  | None =>
  match dict_get SUBS op with
  | Some xo => let! (d, r, b, oe, rc) := sub_args op a in Ok (xo_word d r b oe xo rc)
  | None =>
  if str_in op ["addic"; "addic."]%string then
    let! (d, r, imm) := unpack3 a in Ok (d_word (if String.eqb op "addic" then 12 else 13) d r imm)
  else if str_in op ["andi."; "andis."]%string then
    let! (d, r, imm) := unpack3 a in Ok (d_word (if String.eqb op "andi." then 28 else 29) r d imm)
  else if String.eqb op "subfic" then let! (d, r, imm) := unpack3 a in Ok (d_word 8 d r imm)
  else
    let! (d, r, sh, mb, me, rc) := unpack6 a in
    Ok (bits_or [Z.shiftl 20 26; Z.shiftl r 21; Z.shiftl d 16; Z.shiftl sh 11; Z.shiftl mb 6; Z.shiftl me 1; rc])
  end end end end.

Definition MULS : list string := ["mulhw"; "mulhwu"; "mulli"; "mullw"]%string.
Definition CRMOVES : list string := ["mcrf"; "mcrxr"; "mfcr"; "mtcrf"]%string.
Definition IMMEDIATES : list string :=
  ["addi"; "addis"; "ori"; "addic"; "addic."; "andi."; "andis."; "subfic"; "rlwimi"]%string.
Definition is_integer (op : string) : bool :=
  str_in op IMMEDIATES || dict_mem ADDS op || dict_mem UNARY op || dict_mem SHIFTS op || dict_mem SUBS op.
Definition COMPARES : list string := ["cmp"; "cmpl"; "cmpi"; "cmpli"]%string.
Definition SPRMOVES : list string := ["mflr"; "mfctr"; "mtlr"; "mtctr"]%string.
Definition BRANCHES : list string := ["b"; "bc"; "bclr"; "bcctr"]%string.

Definition encode (p : Program) (pc : Z) (op : string) (a : list arg) : result Z :=
  if String.eqb op "divw" then encode_divide 491 a
  else if String.eqb op "divwu" then encode_divide 459 a
  else if str_in op MULS then encode_multiply op a
  else if str_in op CRMOVES then encode_cr op a
  else match dict_get CROPS op with
  | Some xo =>
      let! (d, r, b) := unpack3 a in
      Ok (bits_or [Z.shiftl 19 26; Z.shiftl d 21; Z.shiftl r 16; Z.shiftl b 11; Z.shiftl xo 1])
  | None =>
  if String.eqb op "illegal" then Ok 0
  else if String.eqb op "poison" then Ok POISON
  else if is_integer op then encode_integer p op a
  else match dict_get DOPS op with
  | Some code => let! (d, r, disp) := unpack3 a in Ok (d_word code d r disp)
  | None =>
  match dict_get XOPS op with
  | Some xo => let! (d, r, b) := unpack3 a in Ok (xo_word d r b 0 xo 0)
  | None =>
  if str_in op COMPARES then encode_compare op a
  else if str_in op SPRMOVES then encode_spr op a
  else if str_in op BRANCHES then encode_branch p pc op a
  else Raise (ValueError op)
  end end end.

(** ** Execution *)
Record state : Type := { regs : list Z; cr : Z; xer : Z; lr : Z; ctr : Z; pc : Z; mem : list Z }.

Definition with_regs (s : state) (l : list Z) : state :=
  {| regs := l; cr := cr s; xer := xer s; lr := lr s; ctr := ctr s; pc := pc s; mem := mem s |}.
Definition with_cr (s : state) (v : Z) : state :=
  {| regs := regs s; cr := v; xer := xer s; lr := lr s; ctr := ctr s; pc := pc s; mem := mem s |}.
Definition with_xer (s : state) (v : Z) : state :=
  {| regs := regs s; cr := cr s; xer := v; lr := lr s; ctr := ctr s; pc := pc s; mem := mem s |}.
Definition with_lr (s : state) (v : Z) : state :=
  {| regs := regs s; cr := cr s; xer := xer s; lr := v; ctr := ctr s; pc := pc s; mem := mem s |}.
Definition with_ctr (s : state) (v : Z) : state :=
  {| regs := regs s; cr := cr s; xer := xer s; lr := lr s; ctr := v; pc := pc s; mem := mem s |}.
Definition with_pc (s : state) (v : Z) : state :=
  {| regs := regs s; cr := cr s; xer := xer s; lr := lr s; ctr := ctr s; pc := v; mem := mem s |}.
Definition with_mem (s : state) (m : list Z) : state :=
  {| regs := regs s; cr := cr s; xer := xer s; lr := lr s; ctr := ctr s; pc := pc s; mem := m |}.

(** [regs[d]=value] *)
Definition write_reg (s : state) (d v : Z) : result state :=
  let! l := py_set (regs s) d v in Ok (with_regs s l).

(** The field an instruction leaves in CR0: the sign of [value] and SO. *)
Definition cr_field (value xer : Z) : Z :=
  Z.lor (if truthy (Z.land value 0x80000000) then 8 else if truthy value then 4 else 2) (Z.shiftr xer 31).
Definition record_cr0 (s : state) (value : Z) : state :=
  with_cr s (Z.lor (Z.land (cr s) 0x0fffffff) (Z.shiftl (cr_field value (xer s)) 28)).
Definition if_rc (rc value : Z) (s : state) : state := if truthy rc then record_cr0 s value else s.
(** OV and sticky SO *)
Definition set_overflow (ov : bool) (s : state) : state :=
  with_xer s (Z.lor (Z.lor (Z.land (xer s) 0x3fffffff) (Z.shiftl (Z.b2z ov) 30))
                    (Z.shiftl (Z.b2z (truthy (Z.shiftr (xer s) 31) || ov)) 31)).
Definition if_oe (oe : Z) (ov : bool) (s : state) : state := if truthy oe then set_overflow ov s else s.
Definition carry_of (xer : Z) : Z := Z.land (Z.shiftr xer 29) 1.
Definition set_carry (c : bool) (s : state) : state :=
  with_xer s (Z.lor (Z.land (xer s) (Z.lnot (Z.shiftl 1 29))) (Z.shiftl (Z.b2z c) 29)).
Definition fits32 (v : Z) : bool := (- Z.shiftl 1 31 <=? v) && (v <? Z.shiftl 1 31).

Definition exec_divw (a : list arg) (s : state) : result state :=
  let! (d, r, b, oe, rc) := unpack5 a in
  let! x := py_get (regs s) r in let! y := py_get (regs s) b in
  let av := signed x 32 in let bv := signed y 32 in
  let exceptional := (bv =? 0) || ((av =? - Z.shiftl 1 31) && (bv =? -1)) in
  let magnitude := if exceptional then 0 else Z.abs av / Z.abs bv in
  let value := Z.land (if xorb (av <? 0) (bv <? 0) then - magnitude else magnitude) MASK in
  let! s := write_reg s d value in
  Ok (if_rc rc value (if_oe oe exceptional s)).

Definition exec_divwu (a : list arg) (s : state) : result state :=
  let! (d, r, b, oe, rc) := unpack5 a in
  let! dividend := py_get (regs s) r in let! divisor := py_get (regs s) b in
  let value := if truthy divisor then dividend / divisor else 0 in
  let! s := write_reg s d value in
  Ok (if_rc rc value (if_oe oe (divisor =? 0) s)).

Definition exec_mulh (op : string) (a : list arg) (s : state) : result state :=
  let! (d, r, b, rc) := unpack4 a in
  let! av := py_get (regs s) r in let! bv := py_get (regs s) b in
  let product := if String.eqb op "mulhw" then signed av 32 * signed bv 32 else av * bv in
  let value := Z.land (product / Z.shiftl 1 32) MASK in
  let! s := write_reg s d value in Ok (if_rc rc value s).

Definition exec_mullw (a : list arg) (s : state) : result state :=
  let! (d, r, b, oe, rc) := unpack5 a in
  let! x := py_get (regs s) r in let! y := py_get (regs s) b in
  let product := signed x 32 * signed y 32 in
  let value := Z.land product MASK in
  let! s := write_reg s d value in
  Ok (if_rc rc value (if_oe oe (negb (fits32 product)) s)).

(** [d,r,b=a[:3]]: operands past the third are not read. *)
Definition exec_mulli (a : list arg) (s : state) : result state :=
  let! (d, r, b) := unpack3 (take 3 a) in
  let! x := py_get (regs s) r in
  write_reg s d (Z.land (signed x 32 * signed b 16) MASK).

(** [(word & ~(15<<shift)) | (nibble<<shift)] *)
Definition put_nibble (word shift nibble : Z) : Z :=
  Z.lor (Z.land word (Z.lnot (Z.shiftl 15 shift))) (Z.shiftl nibble shift).

Definition exec_mcrf (a : list arg) (s : state) : result state :=
  let! (dest, source) := unpack2 a in
  let nibble := Z.land (Z.shiftr (cr s) ((7 - source) * 4)) 15 in
  Ok (with_cr s (put_nibble (cr s) ((7 - dest) * 4) nibble)).

Definition exec_mcrxr (a : list arg) (s : state) : result state :=
  let! a0 := arg_at a 0 in
  let s := with_cr s (put_nibble (cr s) ((7 - a0) * 4) (Z.land (Z.shiftr (xer s) 28) 14)) in
  Ok (with_xer s (Z.land (xer s) 0x1fffffff)).

Definition cr_function (op : string) (x y : bool) : bool :=
  if String.eqb op "crand" then x && y
  else if String.eqb op "crandc" then x && negb y
  else if String.eqb op "creqv" then Bool.eqb x y
  else if String.eqb op "crnand" then negb (x && y)
  else if String.eqb op "crnor" then negb (x || y)
  else if String.eqb op "cror" then x || y
  else if String.eqb op "crorc" then x || negb y
  else negb (Bool.eqb x y).

Definition exec_crop (op : string) (a : list arg) (s : state) : result state :=
  let! (d, r, b) := unpack3 a in
  let av := truthy (Z.land (cr s) (Z.shiftl 1 (31 - r))) in
  let bv := truthy (Z.land (cr s) (Z.shiftl 1 (31 - b))) in
  Ok (with_cr s (Z.lor (Z.land (cr s) (Z.lnot (Z.shiftl 1 (31 - d))))
                       (Z.shiftl (Z.b2z (cr_function op av bv)) (31 - d)))).

Definition exec_mfcr (a : list arg) (s : state) : result state :=
  let! a0 := arg_at a 0 in write_reg s a0 (cr s).

(** The fields of [v] the mask selects, written over those of [c]. *)
Definition transfer_fields (fields v c : Z) : Z :=
  fold_left (fun c field =>
      if truthy (Z.land fields (Z.shiftr 128 field))
      then put_nibble c ((7 - field) * 4) (Z.land (Z.shiftr v ((7 - field) * 4)) 15) else c) (seqZ 0 8) c.

Definition exec_mtcrf (a : list arg) (s : state) : result state :=
  let! (fields, r) := unpack2 a in
  let! v := py_get (regs s) r in
  Ok (with_cr s (transfer_fields fields v (cr s))).

(** [regs[r] if r else 0] *)
Definition base_reg (s : state) (r : Z) : result Z := if truthy r then py_get (regs s) r else Ok 0.

Definition exec_addi (p : Program) (op : string) (a : list arg) (s : state) : result state :=
  match a with
  | [d; r; imm] =>
      let! imm := address p imm in let! d := as_int d in let! r := as_int r in
      let val := signed imm 16 in
      let! x := base_reg s r in
      write_reg s d (Z.land (x + (if String.eqb op "addi" then val else Z.shiftl val 16)) MASK)
  | _ => Raise (ValueError "unpack")
  end.

Definition exec_ori (a : list arg) (s : state) : result state :=
  let! (d, r, imm) := unpack3 a in
  let! x := py_get (regs s) r in write_reg s d (Z.lor x imm).

Definition exec_add (op : string) (a : list arg) (s : state) : result state :=
  let! (d, r, b) := unpack3 a in
  let! av := py_get (regs s) r in let! bv := py_get (regs s) b in
  let carry := if String.eqb op "adde" then carry_of (xer s) else 0 in
  let! s := write_reg s d (Z.land (av + bv + carry) MASK) in
  Ok (if String.eqb op "adde" then set_carry (MASK <? av + bv + carry) s
      else if String.eqb op "addco" then
        let ov := negb (fits32 (signed av 32 + signed bv 32)) in
        let so := truthy (Z.shiftr (xer s) 31) || ov in
        with_xer s (bits_or [Z.land (xer s) 0x1fffffff; Z.shiftl (Z.b2z so) 31; Z.shiftl (Z.b2z ov) 30;
                             Z.shiftl (Z.b2z (MASK <? av + bv)) 29])
      else s).

Definition exec_unary (op : string) (a : list arg) (s : state) : result state :=
  let! (d, r, rc) := unpack3 a in
  let! x := py_get (regs s) r in
  let value := if String.eqb op "cntlzw" then 32 - bit_length x
               else Z.land (signed x (if String.eqb op "extsb" then 8 else 16)) MASK in
  let! s := write_reg s d value in Ok (if_rc rc value s).

(** The bit walks of the shifts. *)
Definition select_bits (left : bool) (source count : Z) : Z :=
  fold_left (fun value dest =>
      let origin := if left then dest - count else dest + count in
      if (0 <=? origin) && (origin <? 32)
      then Z.lor value (Z.shiftl (Z.land (Z.shiftr source origin) 1) dest) else value) (seqZ 0 32) 0.

Definition exec_shift (op : string) (a : list arg) (s : state) : result state :=
  let! (d, r, b, rc) := unpack4 a in
  let! source := py_get (regs s) r in let! y := py_get (regs s) b in
  let value := select_bits (String.eqb op "slw") source (y mod 64) in
  let! s := write_reg s d value in Ok (if_rc rc value s).

Definition arithmetic_bits (source count negative : Z) : Z :=
  fold_left (fun value dest =>
      let origin := dest + count in
      Z.lor value (Z.shiftl (if origin <? 32 then Z.land (Z.shiftr source origin) 1 else negative) dest))
    (seqZ 0 32) 0.

Definition exec_sraw (op : string) (a : list arg) (s : state) : result state :=
  let! (d, r, b, rc) := unpack4 a in
  let! source := py_get (regs s) r in
  let! count := (if String.eqb op "srawi" then Ok b else let! y := py_get (regs s) b in Ok (y mod 64)) in
  let negative := Z.land (Z.shiftr source 31) 1 in
  let value := arithmetic_bits source count negative in
  let discarded := existsb (fun bit => truthy (Z.land (Z.shiftr source bit) 1)) (seqZ 0 (Z.min count 32)) in
  let! s := write_reg (set_carry (truthy negative && discarded) s) d value in
  Ok (if_rc rc value s).

Definition exec_subtract (op : string) (a : list arg) (s : state) : result state :=
  let! (d, r, b, oe, rc) := sub_args op a in
  let! rhs := (if str_in op SUBS3 then py_get (regs s) b
               else Ok (if String.eqb op "subfme" then MASK else 0)) in
  let! x := py_get (regs s) r in
  let borrow := if str_in op ["subfe"; "subfme"; "subfze"]%string then 1 - carry_of (xer s) else 0 in
  let s := if str_in op ["subfc"; "subfe"; "subfme"; "subfze"]%string
           then set_carry (x + borrow <=? rhs) s else s in
  let mathematical := signed rhs 32 - signed x 32 - borrow in
  let value := Z.land mathematical MASK in
  let! s := write_reg (if_oe oe (negb (fits32 mathematical)) s) d value in
  Ok (if_rc rc value s).

Definition exec_addic (op : string) (a : list arg) (s : state) : result state :=
  let! (d, r, imm) := unpack3 a in
  let! x := py_get (regs s) r in
  let total := x + Z.land (signed imm 16) MASK in
  let value := Z.land total MASK in
  let! s := write_reg s d value in
  let s := set_carry (MASK <? total) s in
  Ok (if String.eqb op "addic." then record_cr0 s value else s).

Definition exec_andi (op : string) (a : list arg) (s : state) : result state :=
  let! (d, r, imm) := unpack3 a in
  let mask := Z.shiftl (Z.land imm 65535) (if String.eqb op "andis." then 16 else 0) in
  let! x := py_get (regs s) r in
  let value := Z.land x mask in
  let! s := write_reg s d value in Ok (record_cr0 s value).

Definition exec_subfic (a : list arg) (s : state) : result state :=
  let! (d, r, imm) := unpack3 a in
  let rhs := Z.land (signed imm 16) MASK in
  let! source := py_get (regs s) r in
  let! s := write_reg s d (Z.land (rhs - source) MASK) in
  Ok (set_carry (source <=? rhs) s).

Definition insert_bits (source old sh mb me : Z) : Z :=
  fold_left (fun value bit =>
      if (bit - mb) mod 32 <=? (me - mb) mod 32 then
        let selected := Z.land (Z.shiftr source (31 - (bit + sh) mod 32)) 1 in
        Z.lor (Z.land value (Z.lnot (Z.shiftl 1 (31 - bit)))) (Z.shiftl selected (31 - bit))
      else value) (seqZ 0 32) old.

Definition exec_rlwimi (a : list arg) (s : state) : result state :=
  let! (d, r, sh, mb, me, rc) := unpack6 a in
  let! source := py_get (regs s) r in let! old := py_get (regs s) d in
  let value := insert_bits source old sh mb me in
  let! s := write_reg s d value in Ok (if_rc rc value s).

(** ** Memory, comparisons and branches *)
Definition from_bytes_big (l : list Z) : Z := fold_left (fun v b => v * 256 + b) l 0.
Definition to_bytes_big (value : Z) (size : nat) : list Z :=
  map (fun k => Z.land (Z.shiftr value (8 * Z.of_nat (size - 1 - k))) 255) (seq 0 size).

Definition mem_family (op : string) : string := removesuffix (removesuffix op "x") "u".
Definition mem_size (family : string) : Z :=
  if str_in family ["lwz"; "stw"]%string then 4 else if str_in family ["lbz"; "stb"]%string then 1 else 2.
Definition is_update (op : string) : bool := ends_with op "u" || ends_with op "ux".

Definition exec_mem (BASE : Z) (op : string) (a : list arg) (s : state) : result state :=
  let! (d, r, off) := unpack3 a in
  let! base := base_reg s r in
  let! index := (if dict_mem XOPS op then py_get (regs s) off else Ok (signed off 16)) in
  let ea := Z.land (base + index) MASK in
  let update := is_update op in
  let family := mem_family op in
  let store := startswith family "st" in
  require! negb update || (truthy r && (store || negb (r =? d))) else AssertionError in
  let size := mem_size family in
  require! (ea mod size =? 0) && (BASE <=? ea) && (ea + size <=? BASE + Z.of_nat (length (mem s)))
  else AssertionError in
  let off := Z.to_nat (ea - BASE) in
  let n := Z.to_nat size in
  let! s :=
    (if store then
       let! v := py_get (regs s) d in
       let value := Z.land v (Z.shiftl 1 (8 * size) - 1) in
       Ok (with_mem s (take off (mem s) ++ to_bytes_big value n ++ drop (off + n) (mem s)))
     else
       let value := from_bytes_big (take n (drop off (mem s))) in
       write_reg s d (Z.land (if String.eqb family "lha" then signed value 16 else value) MASK)) in
  if update then write_reg s r ea else Ok s.

Definition exec_compare (op : string) (a : list arg) (s : state) : result state :=
  let! (bf, r, rhs) := unpack3 a in
  let! x := py_get (regs s) r in
  let! y :=
    (if ends_with op "i" then Ok (if String.eqb op "cmpi" then signed rhs 16 else Z.land rhs 65535)
     else py_get (regs s) rhs) in
  let s_cmp := str_in op ["cmp"; "cmpi"]%string in
  let x := if s_cmp then signed x 32 else x in
  let y := if s_cmp then signed y 32 else y in
  let field := Z.lor (if x <? y then 8 else if y <? x then 4 else 2) (Z.shiftr (xer s) 31) in
  Ok (with_cr s (put_nibble (cr s) (28 - 4 * bf) field)).

Definition exec_spr (op : string) (a : list arg) (s : state) : result state :=
  let! a0 := arg_at a 0 in
  if String.eqb op "mflr" then write_reg s a0 (lr s)
  else if String.eqb op "mfctr" then write_reg s a0 (ctr s)
  else
    let! v := py_get (regs s) a0 in
    Ok (if String.eqb op "mtlr" then with_lr s v else with_ctr s v).

(** Operations that fall through to the next word. *)
Definition exec_data (BASE : Z) (p : Program) (op : string) (a : list arg) (s : state) : result state :=
  if String.eqb op "divw" then exec_divw a s
  else if String.eqb op "divwu" then exec_divwu a s
  else if str_in op ["mulhw"; "mulhwu"]%string then exec_mulh op a s
  else if String.eqb op "mullw" then exec_mullw a s
  else if String.eqb op "mulli" then exec_mulli a s
  else if String.eqb op "mcrf" then exec_mcrf a s
  else if String.eqb op "mcrxr" then exec_mcrxr a s
  else if dict_mem CROPS op then exec_crop op a s
  else if String.eqb op "mfcr" then exec_mfcr a s
  else if String.eqb op "mtcrf" then exec_mtcrf a s
  else if str_in op ["addi"; "addis"]%string then exec_addi p op a s
  else if String.eqb op "ori" then exec_ori a s
  else if dict_mem ADDS op then exec_add op a s
  else if dict_mem UNARY op then exec_unary op a s
  else if str_in op ["slw"; "srw"]%string then exec_shift op a s
  else if str_in op ["sraw"; "srawi"]%string then exec_sraw op a s
  else if dict_mem SUBS op then exec_subtract op a s
  else if str_in op ["addic"; "addic."]%string then exec_addic op a s
  else if str_in op ["andi."; "andis."]%string then exec_andi op a s
  else if String.eqb op "subfic" then exec_subfic a s
  else if String.eqb op "rlwimi" then exec_rlwimi a s
  else if dict_mem DOPS op || dict_mem XOPS op then exec_mem BASE op a s
  else if str_in op COMPARES then exec_compare op a s
  else if str_in op SPRMOVES then exec_spr op a s
  else if String.eqb op "illegal" then Ok s
  else Raise (ValueError op).

Definition last_int (a : list arg) : result Z := match last a with Some v => as_int v | None => Raise IndexError end.

Definition exec_branch (p : Program) (op : string) (a : list arg) (s : state) : result state :=
  if String.eqb op "b" then
    match a with
    | [target; aa; lk] =>
        let! next := address p target in let! lk := as_int lk in
        Ok (with_pc (if truthy lk then with_lr s (pc s + 4) else s) next)
    | _ => Raise (ValueError "unpack")
    end
  else
    let! bo := arg_at a 0 in let! bi := arg_at a 1 in let! lk := last_int a in
    let! target :=
      (if String.eqb op "bc" then match a !! 2%nat with Some t => address p t | None => Raise IndexError end
       else Ok (Z.land (if String.eqb op "bclr" then lr s else ctr s) (Z.lnot 3))) in
    let s := if truthy (Z.land bo 4) then s else with_ctr s (Z.land (ctr s - 1) MASK) in
    let count_ok := truthy (Z.land bo 4) || xorb (truthy (ctr s)) (truthy (Z.land bo 2)) in
    let condition_ok :=
      truthy (Z.land bo 16)
      || Bool.eqb (truthy (Z.land (Z.shiftr (cr s) (31 - bi)) 1)) (truthy (Z.land bo 8)) in
    let next := if count_ok && condition_ok then target else pc s + 4 in
    Ok (with_pc (if truthy lk then with_lr s (pc s + 4) else s) next).

Definition exec (BASE : Z) (p : Program) (op : string) (a : list arg) (s : state) : result state :=
  if str_in op BRANCHES then exec_branch p op a s
  else let! s' := exec_data BASE p op a s in Ok (with_pc s' (pc s + 4)).

(** ** The interpreter *)
Definition initial : state :=
  {| regs := repeat 0 32; cr := 0; xer := 0; lr := 0; ctr := 0; pc := 0;
     mem := map (fun i => Z.land (Z.lxor (i * 37) 0xa5) 255) (seqZ 0 256) |}.

(** [[pc,word,*regs,cr,xer,lr,ctr,digest(mem)]] *)
Definition snapshot (pc word : Z) (s : state) : list Z :=
  [pc; word] ++ regs s ++ [cr s; xer s; lr s; ctr s; digest (mem s)].

Definition fetch (p : Program) (pc : Z) : result operation :=
  require! (pc mod 4 =? 0) && (0 <=? pc / 4) && (pc / 4 <? Z.of_nat (length (ops p))) else AssertionError in
  match ops p !! Z.to_nat (pc / 4) with Some o => Ok o | None => Raise IndexError end.

Definition bump (c : gmap string Z) (op : string) : gmap string Z := <[op := default 0 (c !! op) + 1]> c.

(** One pass of the loop: the state it leaves, the row it records, whether it stops. *)
Definition step (BASE : Z) (p : Program) (s : state) : result (state * list Z * string) :=
  let! (op, a) := fetch p (pc s) in
  let! word := encode p (pc s) op a in
  let! s' := exec BASE p op a s in
  Ok (s', snapshot (pc s) word s', op).

Fixpoint run (BASE : Z) (p : Program) (limit : nat) (s : state) (c : gmap string Z) : result (list (list Z) * gmap string Z) :=
  match limit with
  | O => Raise AssertionError
  | S limit' =>
      let! (s', row, op) := step BASE p s in
      let c := bump c op in
      if String.eqb op "illegal" then Ok ([row], c)
      else let! (rows, c) := run BASE p limit' s' c in Ok (row :: rows, c)
  end.

Definition simulate (BASE : Z) (p : Program) (limit : nat) : result (list (list Z) * gmap string Z) :=
  run BASE p limit initial ∅.

End program.
