(* ===== verification/ProgramFixtures.v ===== *)
(** * The program fixtures ([sim/tools/control_memory_program.py])

    Each [make_*] builds a program by emitting operations and placing labels;
    the later ones extend [make_program], prefix it (relocating its labels) or
    rewrite the operations of another fixture. [BASE] is the data memory's
    address. *)
From S2P Require Import Prelude ProgramOracle.
From stdpp Require Import pretty sorting.
Import program.
#[local] Open Scope Z_scope.

Module fixtures.

Coercion I : Z >-> arg.
Coercion L : string >-> arg.

(** ** Building *)
Definition e (op : string) (a : list arg) : method Program unit := fun p => (emit p op a, Ok tt).
Definition e0 (op : string) : method Program unit := e op [].
Notation "'e!' op x .. y" := (e op (@cons arg x .. (@cons arg y (@nil arg)) ..))
  (at level 10, op at level 0, x at level 0, y at level 0).
Definition lbl (name : string) : method Program unit :=
  fun p => match label p name with Ok p' => (p', Ok tt) | Raise ex => (p, Raise ex) end.
(** [p.folds.append(len(p.ops)*4)] *)
Definition mark_fold : method Program unit := fun p =>
  ({| ops := ops p; labels := labels p; folds := folds p ++ [Z.of_nat (length (ops p)) * 4] |}, Ok tt).

Fixpoint block (l : list (method Program unit)) : method Program unit :=
  match l with [] => m_ret tt | m :: l' => do! _ := m in block l' end.
Definition for_each {A} (l : list A) (f : A -> method Program unit) : method Program unit := block (map f l).
Definition when (c : bool) (m : method Program unit) : method Program unit := m_when c m.
(** [for x in l: n = f(n, x)] *)
Fixpoint for_count {A} (l : list A) (n : Z) (f : Z -> A -> method Program Z) : method Program Z :=
  match l with [] => m_ret n | x :: l' => do! n' := f n x in for_count l' n' f end.
Definition range (n : Z) : list Z := seqZ 0 n.
(** [range(lo, hi, step)] *)
Definition range_step (lo hi step : Z) : list Z := map (fun k => lo + k * step) (seqZ 0 ((hi - lo + step - 1) / step)).
(** [sorted(set(l))] *)
Definition sorted_set (l : list Z) : list Z := merge_sort Z.le (remove_dups l).
Definition crop_names : list string := map fst CROPS.
(** [tuple(CROPS)[k]] *)
Definition crop_name (k : Z) : string := nth (Z.to_nat k) crop_names "cror".

Definition build (m : method Program unit) (p : Program) : result Program :=
  match m p with (p', Ok _) => Ok p' | (_, Raise ex) => Raise ex end.

(** [p.ops.pop()] *)
Definition pop : method Program unit := fun p =>
  match ops p with
  | [] => (p, Raise IndexError)
  | _ => ({| ops := removelast (ops p); labels := labels p; folds := folds p |}, Ok tt)
  end.

(** [p.ops=prefix+p.ops] and the relocation of the labels *)
Definition prefixed (prefix : list operation) (p : Program) : Program :=
  {| ops := prefix ++ ops p;
     labels := (fun address => address + 4 * Z.of_nat (length prefix)) <$> labels p; folds := folds p |}.

(** One instruction of a prefix. *)
Definition o (op : string) (a : list Z) : operation := (op, map I a).

(** [for op,args in p.ops]: each operation replaced by those of [f], labels moved. *)
Fixpoint expansion (f : operation -> list operation) (l : list operation) (i n : Z) : list operation * gmap Z Z :=
  match l with
  | [] => ([], ∅)
  | x :: l' =>
      let '(rest, relocation) := expansion f l' (i + 1) (n + Z.of_nat (length (f x))) in
      (f x ++ rest, <[i * 4 := n * 4]> relocation)
  end.
Definition expand (f : operation -> list operation) (p : Program) : result Program :=
  let '(expanded, relocation) := expansion f (ops p) 0 0 in
  if forallb (fun q => bool_decide (is_Some (relocation !! snd q))) (map_to_list (labels p))
  then Ok {| ops := expanded; labels := (fun a => default 0 (relocation !! a)) <$> labels p; folds := folds p |}
  else Raise KeyError.

(** [load(r,v)], [nops(n)]: local functions of several fixtures. *)
#[local] Open Scope string_scope. #[local] Open Scope Z_scope.
Definition load (r v : Z) : method Program unit := block [
  e! "addis" r 0 (Z.shiftr v 16); e! "ori" r r (Z.land v 65535)].
Definition nops (n : Z) : method Program unit := for_each (range n) (fun _ => e! "ori" 0 0 0).

Section Fixtures.
Context (BASE : Z).

(** Loads and stores of every size. *)
Definition program_memory : method Program unit :=
  block [
    e! "addi" 1 0 BASE; e! "addi" 0 0 19;
    e! "addi" 2 0 8; e! "mtctr" 2; e! "addi" 3 0 0; e! "addi" 4 0 0;
    lbl "sumloop";
    e! "lwzx" 5 1 3; e! "add" 4 4 5; e! "stwx" 4 1 3;
    e! "addi" 3 3 4; e! "bc" 16 0 "sumloop" 0 0;
    e! "mfctr" 6;
    for_each (range 4) (fun off =>
    block [
      e! "lbz" 7 1 off; e! "addi" 8 0 off; e! "lbzx" 9 1 8;
      e! "stb" 0 1 (64 + off); e! "addi" 8 0 (68 + off); e! "stbx" 0 1 8]);
    for_each [0; 2] (fun off =>
    block [
      e! "lhz" 10 1 off; e! "lha" 11 1 off;
      e! "addi" 8 0 off; e! "lhzx" 12 1 8; e! "lhax" 13 1 8;
      e! "sth" 10 1 (72 + off); e! "addi" 8 0 (76 + off); e! "sthx" 11 1 8]);
    e! "lwz" 14 1 4; e! "stw" 14 1 80;
    e! "lha" 14 1 32; e! "stw" 1 1 88;
    e! "addi" 30 0 0xffff; e! "lwz" 14 30 (BASE + 1);
    e! "lwz" 15 0 BASE; e! "addi" 0 0 BASE; e! "lbzx" 0 0 0;
    e! "addi" 16 1 4; e! "lwz" 16 16 (-4);
    e! "addi" 17 0 8; e! "lwzx" 17 1 17].

(** Comparisons and the subroutine calls. *)
Definition program_compare : method Program unit :=
  block [
    e! "addis" 18 0 0x7fff; e! "ori" 18 18 0xffff; e! "addi" 19 0 1; e! "addco" 20 18 19;
    for_each (range 8) (fun bf =>
    block [
      e! "cmp" bf 20 19; e! "cmpl" bf 20 19;
      e! "cmpi" bf 19 0xffff; e! "cmpli" bf 19 0xffff]);
    e! "cmpi" 3 19 1;
    e! "bc" 12 14 "equal" 0 1; e0 "illegal";
    lbl "equal"; e! "mflr" 21;
    e! "bc" 4 14 "bad" 0 1; e! "mflr" 22;
    e! "b" "subroutine" 0 1;
    lbl "returned"; e! "addi" 24 0 "ctr_target"; e! "mtctr" 24; e! "bcctr" 20 0 1;
    e0 "illegal";
    lbl "ctr_target"; e! "mflr" 26; e! "mfctr" 27;
    e! "b" "absolute" 1 0; e0 "illegal";
    lbl "absolute"; e! "bc" 12 14 "absolute_cond" 1 0; e0 "illegal";
    lbl "absolute_cond"; e! "addi" 28 0 0x55; e! "b" "end" 0 0;
    lbl "subroutine"; e! "mflr" 25; e! "addi" 23 0 0x123; e! "bclr" 20 0 0;
    lbl "bad"; e0 "illegal";
    lbl "end"].

(** The decrement and condition table, link and alignment cases. *)
Definition program_branches : method Program unit :=
  block [
    for_each [0; 2; 4; 8; 10; 12; 16; 18; 20] (fun bo =>
    block [
      for_each [0; 1; 2] (fun count =>
      block [
        for_each [0; 1] (fun condition =>
        let tag := "bo" +:+ pretty bo +:+ "_" +:+ pretty count +:+ "_" +:+ pretty condition in
        block [
          e! "addi" 29 0 count; e! "mtctr" 29;
          e! "addi" 30 0 (if truthy condition then 0xffff else 1);
          e! "cmpi" 0 30 0;
          e! "bc" bo 0 (tag +:+ "_taken") 0 1;
          e! "addi" 29 0 0x11; e! "b" (tag +:+ "_join") 0 0;
          lbl (tag +:+ "_taken"); e! "addi" 29 0 0x22;
          lbl (tag +:+ "_join"); e! "mfctr" 31])])]);
    e! "addi" 29 0 "lr_target"; e! "addi" 29 29 3; e! "mtlr" 29;
    e! "bclr" 20 0 1; e0 "illegal";
    lbl "lr_target"; e! "mflr" 30;
    e! "addi" 29 0 "ctr_aligned"; e! "addi" 29 29 3; e! "mtctr" 29;
    e! "bcctr" 20 0 1; e0 "illegal";
    lbl "ctr_aligned"; e! "mfctr" 31;
    e! "b" "abs_link" 1 1; e0 "illegal";
    lbl "abs_link"; e! "mflr" 21;
    e! "cmpi" 7 19 1;
    e! "bc" 12 30 "abs_cond_link" 1 1; e0 "illegal";
    lbl "abs_cond_link"; e! "mflr" 22;
    e! "cmpi" 7 0 0;
    e0 "illegal"].

Definition make_program : result Program :=
  build (block [program_memory; program_compare; program_branches]) empty_program.

(** [p=make_program();p.ops.pop()] and more emitted behind it. *)
Definition extended (m : method Program unit) : result Program :=
  let! p := make_program in build (block [pop; m]) p.
(** The same behind a prefix. *)
Definition prefix_extended (prefix : list operation) (m : method Program unit) : result Program :=
  let! p := make_program in build (block [pop; m]) (prefixed prefix p).

Definition control_tail : method Program unit :=
  block [
    e! "addi" 29 0 3; e! "mtctr" 29;
    lbl "tight"; e! "bc" 16 0 "tight" 0 0; e! "mfctr" 31;
    e! "addi" 29 0 4; e! "addi" 30 0 0;
    lbl "countdown"; e! "addi" 30 30 1; e! "addi" 29 29 (-1); e! "cmpi" 0 29 0;
    e! "bc" 4 2 "countdown" 0 0;
    e! "b" "leaf" 0 1; e! "addi" 28 28 1; e! "b" "after_leaf" 0 0;
    lbl "leaf"; e! "bclr" 20 0 0;
    lbl "after_leaf"; e! "lwz" 14 1 0; e! "cmpi" 1 14 0;
    e! "bc" 12 6 "loaded_eq" 0 0; e! "addi" 27 0 1;
    lbl "loaded_eq"; e! "addi" 29 0 0;
    lbl "ybit"; e! "addi" 29 29 1; e! "cmpi" 0 29 2; e! "bc" 13 0 "ybit" 0 0;
    e0 "illegal"].

Definition make_control_program : result Program := extended control_tail.

Definition recovery_body : method Program unit :=
  block [
    e! "addi" 1 0 BASE; e! "addi" 22 0 0x1234; e! "addi" 23 0 0;
    for_each (range 48) (fun case' =>
    let pad := case' mod 8 in
    let gap := (case' / 8) mod 3 in
    let early := case' / 24 in
    block [
      for_each (range pad) (fun _ =>
      e! "ori" 0 0 0);
      e! "mulli" 28 22 3; e! "addi" 9 0 (7 + case');
      e! "stw" 9 1 ((case' mod 16) * 4); e! "lwz" 9 1 ((case' mod 16) * 4);
      when (truthy early) (e! "divw" 10 28 9 0 0);
      e! "addi" 21 0 3;
      lbl ("loop" +:+ pretty case'); e! "addi" 21 21 (-1); e! "cmpi" 0 21 0;
      e! "bc" 4 0 ("loop" +:+ pretty case') 0 0;
      when (negb (truthy early)) (e! "divw" 10 28 9 0 0);
      for_each (range gap) (fun _ =>
      e! "addi" 23 23 1);
      e! "subf" 9 9 28 0 0; e! "mulli" 9 9 7; e! "subf" 20 10 9 0 0;
      e! "addi" 22 20 case'; e! "stw" 20 1 (64 + ((case' mod 16) * 4))]);
    e0 "illegal"].

Definition make_branch_recovery : result Program := build recovery_body empty_program.

Definition fold_start : method Program unit :=
  block [
    e! "addi" 1 0 BASE; e! "addi" 20 0 0; e! "addi" 21 0 0; e! "addi" 4 0 1].

(** Returns and CTR branches that fold. *)
Definition fold_returns : method Program unit :=
  block [
    for_each (range 4) (fun pad =>
    let t := fun name : string => name +:+ pretty pad in
    block [
      nops pad;
      e! "b" (t "long") 0 1; e! "addi" 20 20 1; e! "b" (t "a1") 0 0;
      lbl (t "long"); nops 4; e! "stw" 21 1 (16 * pad); e! "lwz" 26 1 (16 * pad); e! "addi" 21 21 1; e! "bclr" 20 0 0;
      lbl (t "a1"); e! "b" (t "leaf") 0 1; e! "addi" 20 20 2; e! "b" (t "a2") 0 0;
      lbl (t "leaf"); e! "bclr" 20 0 0;
      lbl (t "a2"); e! "addi" 3 0 (t "c1"); e! "mtlr" 3; e! "bclr" 20 0 0; e0 "illegal";
      lbl (t "c1"); e! "addi" 3 0 (t "c2"); e! "mtlr" 3; nops 4; e! "bclr" 20 0 0; e0 "illegal";
      lbl (t "c2"); e! "addi" 3 0 (t "c3"); e! "mtctr" 3; e! "bcctr" 20 0 0; e0 "illegal";
      lbl (t "c3"); e! "addi" 3 0 (t "c4"); e! "mtctr" 3; nops 4; e! "bcctr" 20 0 0; e0 "illegal";
      lbl (t "c4"); e! "addi" 3 0 (t "c5"); e! "addi" 3 3 1; e! "mtctr" 3;
      e! "bc" 16 0 (t "c4b") 0 0; lbl (t "c4b"); e! "bcctr" 20 0 0; e0 "illegal";
      lbl (t "c5"); e! "addi" 3 0 (t "bad"); e! "mtlr" 3; e! "mtctr" 3; nops 3;
      e! "cmpi" 0 4 0; e! "bclr" 13 2 0; e! "addi" 20 20 4;
      e! "bcctr" 13 2 0; e! "addi" 20 20 8;
      e! "addi" 3 0 (t "c6"); e! "mtlr" 3; nops 3; e! "cmpi" 0 4 1; e! "bclr" 12 2 0;
      lbl (t "bad"); e0 "illegal";
      lbl (t "c6"); e! "addi" 3 0 (t "c7"); e! "mtctr" 3; nops 3; e! "cmpi" 0 4 1; e! "bcctr" 12 2 0;
      e0 "illegal";
      lbl (t "c7"); e! "addi" 3 0 (t "f1"); e! "mtlr" 3; nops 3; e! "bclr" 20 0 1;
      e! "addi" 20 20 16; e! "addi" 3 0 (t "f2"); e! "mtctr" 3; nops 3; e! "bcctr" 20 0 1;
      e! "addi" 20 20 32; e! "b" (t "c8") 0 0;
      lbl (t "f1"); e! "bclr" 20 0 0;
      lbl (t "f2"); nops 5; e! "bclr" 20 0 0;
      lbl (t "c8"); e! "addi" 5 0 3; e! "mtctr" 5;
      e! "addi" 3 0 (t "d1"); e! "mtlr" 3; nops 3;
      lbl (t "d1"); e! "addi" 21 21 1; e! "stw" 21 1 ((16 * pad) + 4); e! "lwz" 26 1 ((16 * pad) + 4); e! "bclr" 17 0 0;
      e! "addi" 3 0 (t "rb"); e! "mtlr" 3; nops 3; e! "bclr" 20 0 0; e0 "illegal";
      lbl (t "rb"); e! "b" (t "c9") 0 0; e0 "illegal";
      lbl (t "c9"); e! "b" (t "outer") 0 1; e! "addi" 20 20 64; e! "b" (t "next") 0 0;
      lbl (t "outer"); e! "mflr" 24; e! "b" (t "inner") 0 1; e! "mtlr" 24; e! "bclr" 20 0 0;
      lbl (t "inner"); nops pad; e! "addi" 21 21 1; e! "bclr" 20 0 0;
      lbl (t "next");
      e! "b" (t "m1") 0 1; e! "b" (t "m2") 0 0;
      lbl (t "m1"); e! "mflr" 28; e! "stw" 28 1 ((16 * pad) + 8); e! "bclr" 20 0 0;
      lbl (t "m2"); e! "b" (t "m3") 0 1; e! "b" (t "m4") 0 1; e! "b" (t "m5") 0 0;
      lbl (t "m3"); e! "bclr" 20 0 0;
      lbl (t "m4"); e! "mflr" 29; e! "add" 22 22 29; e! "bclr" 20 0 0;
      lbl (t "m5")])].

(** Branches on a waiting compare. *)
Definition fold_predicted : method Program unit :=
  block [
    e! "addi" 6 0 100; e! "addi" 7 0 7;
    for_each (range 4) (fun pad =>
    let t := fun name : string => "s" +:+ name +:+ pretty pad in
    block [
      nops pad;
      let q := (100 + pad) / 7 in
    block [
      e! "addi" 6 0 (100 + pad);
      for_each (enumerate 0 [(12, 1); (12, 0); (4, 1); (4, 0); (13, 0); (5, 1)]) (fun '(k, (bo, eq)) =>
      block [
        e! "divw" 8 6 7 0 0; e! "cmpi" 0 8 (if truthy eq then q else q + 1);
        when (truthy (k mod 2)) (e! "addi" 23 23 1);
        e! "bc" bo 2 (t ("tk" +:+ pretty k)) 0 (if k =? 3 then 1 else 0);
        e! "stw" 6 1 ((128 + (16 * pad)) + (4 * (k mod 4))); e! "lwz" 27 1 (128 + (16 * pad)); e! "addi" 20 20 (Z.shiftl 1 k);
        e! "cmpi" 1 27 0; e! "bc" 12 6 (t ("x" +:+ pretty k)) 0 0;
        lbl (t ("x" +:+ pretty k)); e! "addi" 5 0 (k + 2); e! "mtctr" 5;
        lbl (t ("tk" +:+ pretty k)); e! "addi" 21 21 (k + 1); e! "mflr" 25]);
      e! "addi" 9 0 3; e! "stw" 9 1 (192 + (4 * pad));
      lbl (t "lp"); e! "lwz" 9 1 (192 + (4 * pad)); e! "addi" 9 9 (-1); e! "stw" 9 1 (192 + (4 * pad));
      e! "cmpi" 0 9 0; e! "bc" 4 2 (t "lp") 0 0; e! "stw" 20 1 (208 + (4 * pad));
      e! "addi" 5 0 2; e! "mtctr" 5; e! "divw" 8 6 7 0 0; e! "cmpi" 0 8 0;
      e! "bc" 0 2 (t "ct") 0 0; e! "addi" 20 20 512;
      lbl (t "ct"); e! "mfctr" 26; e! "addi" 22 22 1]])].

Definition fold_second_compare : method Program unit :=
  block [
    for_each (range 4) (fun pad =>
    let t := fun name : string => "w" +:+ name +:+ pretty pad in
    block [
      nops pad;
      let q := (100 + pad) / 7 in
    block [
      e! "addi" 6 0 (100 + pad);
      for_each (enumerate 0 [(1, 6, 12, 1); (1, 6, 13, 0); (1, 2, 4, 1); (1, 2, 12, 0); (0, 6, 12, 1); (0, 6, 13, 0); (0, 6, 4, 0)]) (fun '(k, (two, bi, bo, eq)) =>
      block [
        e! "divw" 8 6 7 0 0;
        when (truthy two) (e! "cmpi" 0 8 q);
        e! "cmpi" 1 7 (if truthy eq then 7 else 8);
        e! "bc" bo bi (t ("tk" +:+ pretty k)) 0 0;
        e! "stw" 23 1 (224 + (4 * pad)); e! "addi" 23 23 (Z.shiftl 1 k);
        lbl (t ("tk" +:+ pretty k)); e! "addi" 21 21 (k + 1); e! "stw" 21 1 (240 + (4 * pad))]);
      e! "addi" 3 0 (t "m1"); e! "divw" 8 6 7 0 0; e! "cmpi" 0 8 q;
      e! "addi" 3 3 0; e! "mtlr" 3; e! "bclr" 20 0 0; e0 "illegal";
      lbl (t "m1"); e! "divw" 8 6 7 0 0; e! "cmpi" 0 8 q; e! "addi" 3 0 (t "m2");
      e! "mtlr" 3; e! "bclr" 12 2 0; e0 "illegal";
      lbl (t "m2"); e! "addi" 21 21 64]])].

(** Branches that stop fetch. *)
Definition fold_stops : method Program unit :=
  block [
    for_each (range 4) (fun pad =>
    let t := fun name : string => "f" +:+ name +:+ pretty pad in
    let tail := fun (target : string) => block [
        for_each (range 5) (fun _ =>
        e0 "illegal");
        for_each (range 4) (fun _ =>
        e0 "poison");
        lbl (t target)] in
    block [
      nops pad;
      e! "addi" 3 0 (t "a"); e! "divw" 8 6 7 0 0; e! "mtlr" 3; e! "bclr" 20 0 0; tail "a";
      e! "addi" 3 0 (t "b"); e! "divw" 8 6 7 0 0; e! "mtctr" 3; e! "bcctr" 20 0 0; tail "b";
      e! "addi" 5 0 2; e! "divw" 8 6 7 0 0; e! "mtctr" 5; e! "bc" 16 0 (t "c") 0 0; tail "c";
      e! "addi" 5 0 3; e! "mtctr" 5; e! "divw" 8 6 7 0 0;
      e! "bc" 16 0 (t "d0") 0 0; lbl (t "d0"); e! "bc" 16 0 (t "d") 0 0; tail "d";
      e! "addi" 3 0 (t "e"); e! "addi" 3 3 1; e! "mtctr" 3; e! "divw" 8 6 7 0 0;
      e! "bc" 16 0 (t "e0") 0 0; lbl (t "e0"); e! "bcctr" 20 0 0; tail "e";
      e! "divw" 8 6 7 0 0; e! "b" (t "f0") 0 1; e0 "illegal";
      lbl (t "f0"); e! "bc" 20 0 (t "f") 0 1; tail "f";
      e! "addi" 5 0 1; e! "divw" 8 6 7 0 0; e! "mtctr" 5; e! "bc" 16 0 (t "a") 0 0; e! "addi" 21 21 1;
      e! "addi" 3 0 (t "g"); e! "cmpi" 0 4 1; e! "divw" 8 6 7 0 0; e! "mtlr" 3;
      mark_fold; e! "bc" (if truthy (pad mod 2) then 13 else 20) 2 (t "g") 0 1; tail "g"])].

Definition fold_second_branch : method Program unit :=
  block [
    for_each (range 4) (fun pad =>
    block [
      for_each [0; 1] (fun pred1 =>
      block [
        for_each [0; 1] (fun pred2 =>
        let t := fun name : string => "c" +:+ name +:+ pretty pad +:+ pretty pred1 +:+ pretty pred2 in
        block [
          nops pad;
          e! "divw" 8 6 7 0 0; e! "cmp" 0 8 8;
          if (truthy pred1) then e! "bc" 13 2 (t "n") 0 0
          else e! "bc" 4 2 (t "z") 0 0;
          lbl (t "n");
          if (truthy pred2) then block [
            e! "bc" 5 2 (t "p") 0 0; e! "b" (t "z") 0 0;
            for_each (range 5) (fun _ =>
            e0 "illegal");
            lbl (t "p")]
          else block [
            e! "bc" 12 2 (t "z") 0 0;
            for_each (range 5) (fun _ =>
            e0 "illegal")];
          for_each (range 4) (fun _ =>
          e0 "poison");
          lbl (t "z")])])])].

Definition fold_removed_links : method Program unit :=
  block [
    for_each (range 4) (fun pad =>
    block [
      for_each (enumerate 0 [(13, 0, 1); (13, 0, 0); (12, 1, 1); (12, 1, 0); (13, 0, 2); (12, 1, 2)]) (fun '(k, (bo, eq, carrier)) =>
      let t := fun name : string => "l" +:+ name +:+ pretty pad +:+ pretty k in
      block [
        nops pad;
        e! "addi" 6 0 (100 + pad); e! "addi" 3 0 (0x40 + (4 * k)); e! "mtlr" 3; nops 3;
        e! "divw" 8 6 7 0 0; e! "cmpi" 0 8 (((100 + pad) / 7) + (if truthy eq then 0 else 1));
        e! "bc" bo 2 (t (if truthy (Z.land bo 1) then "w" else "r")) 0 0;
        when (truthy (Z.land bo 1)) (block [
          e! "mflr" 24; e! "stw" 24 1 ((64 + (24 * pad)) + (4 * k));
          e! "b" (t "g") 0 1; e! "b" (t "d") 0 0;
          lbl (t "w")]);
        when (carrier =? 1) (e! "addi" 20 20 1);
        when (carrier =? 2) (e! "mtlr" 6);
        e! "b" (t "f") 0 1; e0 "illegal";
        lbl (t "f"); e! "mflr" 26; e! "addi" 21 21 4; nops 2; e0 "illegal";
        when (negb (truthy (Z.land bo 1))) (block [
          lbl (t "r"); e! "mflr" 24; e! "stw" 24 1 ((64 + (24 * pad)) + (4 * k));
          e! "b" (t "g") 0 1; e! "b" (t "d") 0 0]);
        lbl (t "g"); e! "mflr" 25; e! "add" 22 22 25; e! "bclr" 20 0 0;
        lbl (t "d"); e! "mflr" 27; e! "stw" 27 1 ((160 + (24 * pad)) + (4 * k))])])].

Definition fold_leaf_loop : method Program unit :=
  block [
    e! "addi" 5 0 8; e! "mtctr" 5;
    lbl "loop"; e! "b" "body" 0 1; e! "add" 22 22 21; e! "bc" 16 0 "loop" 0 0;
    e! "stw" 20 1 0; e! "stw" 21 1 4; e! "stw" 22 1 8; e0 "illegal";
    lbl "body"; e! "addi" 21 21 3; e! "stw" 21 1 64; e! "lwz" 25 1 64; e! "bclr" 20 0 0].

Definition make_branch_fold : result Program :=
  build (block [fold_start; fold_returns; fold_predicted; fold_second_compare; fold_stops; fold_second_branch;
                fold_removed_links; fold_leaf_loop]) empty_program.

(** The block [make_ctr_target_capture] inserts; the branch's fetch lane follows
    the parity of its position in the finished program. *)
Definition align_lane (insert_at lane : Z) : method Program unit := fun q =>
  when (negb ((insert_at + Z.of_nat (length (ops q)) + 8) mod 2 =? lane)) (e! "ori" 0 0 0) q.
Definition capture_case (insert_at phase aa taken lane : Z) : method Program unit :=
  let name := "capture_" +:+ pretty phase +:+ "_" +:+ pretty aa +:+ "_" +:+ pretty taken +:+ "_" +:+ pretty lane in
  block [
    align_lane insert_at lane;
    e! "addi" 6 0 100; e! "addi" 7 0 7;
    e! "divw" 8 6 7 0 0;
    e! "addi" 5 8 ((if truthy taken then 2 else 1) - 14);
    e! "mtctr" 5;
    e! "lwz" 0 1 32;
    e! "ori" 22 0 0; e! "ori" 22 0 0;
    e! "bc" 16 0 (name +:+ "_target") aa 0;
    e! "addi" 21 21 1; e! "b" (name +:+ "_join") 0 0;
    lbl (name +:+ "_target"); e! "addi" 21 21 2;
    lbl (name +:+ "_join");
    e! "mfctr" 24; e! "stw" 24 1 32;
    e! "lwz" 25 1 32; e! "stw" 21 1 36].
Definition capture_block (insert_at : Z) : method Program unit :=
  for_each (range 8) (fun phase => block [
    for_each (range phase) (fun _ => e! "ori" 0 0 0);
    for_each [0; 1] (fun aa => for_each [0; 1] (fun taken => for_each [0; 1] (fun lane =>
      capture_case insert_at phase aa taken lane)))]).

(** [p.ops[insert_at:insert_at] = q.ops] with labels and folds moved *)
Definition inserted (insert_at : Z) (q p : Program) : Program :=
  let delta := 4 * Z.of_nat (length (ops q)) in
  let move a := a + (if insert_at * 4 <=? a then delta else 0) in
  {| ops := take (Z.to_nat insert_at) (ops p) ++ ops q ++ drop (Z.to_nat insert_at) (ops p);
     labels := ((fun a => insert_at * 4 + a) <$> labels q) ∪ (move <$> labels p);
     folds := map move (folds p) |}.

Definition is_illegal (x : operation) : bool :=
  match x with (op, []) => String.eqb op "illegal" | _ => false end.

Definition make_ctr_target_capture : result Program :=
  let! p := make_branch_fold in
  let! body := (match labels p !! "body" with Some v => Ok v | None => Raise KeyError end) in
  let insert_at := body / 4 - 1 in
  let! at_point := py_get (ops p) insert_at in
  require! is_illegal at_point else AssertionError in
  let! q := build (capture_block insert_at) empty_program in
  let p := inserted insert_at q p in
  require! (Z.of_nat (length (ops p)) <=? 4096) && forallb (fun x => snd x <? 0x8000) (map_to_list (labels p))
  else AssertionError in
  Ok p.

Definition shifts_prefix : list operation :=
  [o "addi" [9; 0; 1]; o "addi" [10; 0; 31]; o "slw" [11; 9; 10; 1]; o "srw" [12; 11; 10; 1]].
Definition shifts_body : method Program unit :=
  block [
    for_each [0; 1; 0x80000000; 0xffffffff; 0x89abcdef] (fun source =>
    block [
      e! "addis" 9 0 (Z.shiftr source 16); e! "ori" 9 9 (Z.land source 65535);
      for_each (range 64) (fun count =>
      block [
        e! "addi" 10 0 count;
        for_each ["slw"; "srw"] (fun op =>
        block [
          for_each [0; 1] (fun rc =>
          e! op 11 9 10 rc)])])]);
    for_each [64; 65; 0x80000000; 0x80000001; 0x8000001f; 0x80000020; 0x8000003f; 0xffffffff] (fun count =>
    block [
      e! "addis" 10 0 (Z.shiftr count 16); e! "ori" 10 10 (Z.land count 65535);
      for_each ["slw"; "srw"] (fun op =>
      block [
        for_each [0; 1] (fun rc =>
        e! op 11 9 10 rc)])]);
    e! "addi" 0 0 1; e! "slw" 0 0 0 1; e! "srw" 0 0 0 0;
    e! "addi" 10 0 1; e! "slw" 9 9 10 0; e! "srw" 10 9 10 1;
    e0 "illegal"].

Definition make_shifts : result Program := prefix_extended shifts_prefix shifts_body.

Definition arithmetic_prefix : list operation :=
  [o "addi" [9; 0; -7]; o "srawi" [11; 9; 1; 1]; o "srawi" [12; 11; 0; 0]].
Definition arithmetic_body : method Program unit :=
  block [
    for_each [0; 1; 0x7fffffff; 0x80000000; 0xffffffff; 0xfffffff8; 0xfffffff9; 0x89abcdef] (fun source =>
    block [
      e! "addis" 9 0 (Z.shiftr source 16); e! "ori" 9 9 (Z.land source 65535);
      for_each (range 64) (fun count =>
      block [
        e! "addi" 10 0 count;
        for_each [0; 1] (fun rc =>
        block [
          e! "sraw" 11 9 10 rc;
          when (count <? 32) (e! "srawi" 12 9 count rc)])])]);
    for_each [64; 65; 0x80000000; 0x80000001; 0x8000001f; 0x80000020; 0x8000003f; 0xffffffff] (fun count =>
    block [
      e! "addis" 10 0 (Z.shiftr count 16); e! "ori" 10 10 (Z.land count 65535);
      for_each [0; 1] (fun rc =>
      e! "sraw" 11 9 10 rc)]);
    e! "addi" 0 0 (-7); e! "srawi" 0 0 1 1;
    e! "addi" 10 0 1; e! "sraw" 9 9 10 0; e! "sraw" 10 9 10 1;
    e! "sraw" 0 0 0 1; e0 "illegal"].

Definition make_arithmetic_shifts : result Program := prefix_extended arithmetic_prefix arithmetic_body.

Definition insert_prefix : list operation :=
  [o "addi" [9; 0; -1]; o "addi" [11; 0; 0]; o "rlwimi" [11; 9; 0; 31; 31; 1];
   o "rlwimi" [9; 11; 31; 0; 31; 0]].
Definition insert_body : method Program unit :=
  block [
    e! "addis" 9 0 0x1234; e! "ori" 9 9 0x5678;
    e! "addis" 11 0 0xa5a5; e! "ori" 11 11 0x5a5a;
    for_each (range 32) (fun mb =>
    block [
      for_each (range 32) (fun me =>
      block [
        for_each [0; 1] (fun rc =>
        e! "rlwimi" 11 9 ((mb + me) mod 32) mb me rc)])]);
    for_each [0; 0xffffffff; 0x80000001] (fun source =>
    block [
      e! "addis" 9 0 (Z.shiftr source 16); e! "ori" 9 9 (Z.land source 65535);
      for_each (range 32) (fun sh =>
      block [
        e! "rlwimi" 9 9 sh 28 3 (sh mod 2);
        e! "rlwimi" 11 9 sh 8 15 ((sh + 1) mod 2)])]);
    e! "addi" 0 0 (-1); e! "rlwimi" 0 0 1 31 31 1;
    e! "addi" 9 0 0; e! "rlwimi" 0 9 0 0 31 1;
    e! "addi" 0 0 1; e! "rlwimi" 11 0 31 0 0 1;
    e0 "illegal"].

Definition make_insert : result Program := prefix_extended insert_prefix insert_body.

Definition both : list Z := [0; 1].

Definition subtract_prefix : list operation :=
  [o "addi" [9; 0; 1]; o "addi" [10; 0; 0]]
  ++ flat_map (fun oe => flat_map (fun rc => [o "subf" [11; 9; 10; oe; rc]; o "neg" [12; 9; oe; rc]]) both) both
  ++ [o "addis" [9; 0; 0x8000]; o "neg" [12; 9; 1; 1]].
Definition subtract_body : method Program unit :=
  let values := [0; 1; 2; 0x7fffffff; 0x80000000; 0x80000001; 0xfffffffe; 0xffffffff] in
  block [
    for_each [0; 1] (fun ca =>
    block [
      e! "addis" 18 0 (if truthy ca then 0x8000 else 0); e! "addco" 20 18 18;
      for_each values (fun a =>
      block [
        e! "addis" 9 0 (Z.shiftr a 16); e! "ori" 9 9 (Z.land a 65535);
        for_each [0; 1] (fun oe =>
        block [
          for_each [0; 1] (fun rc =>
          e! "neg" 12 9 oe rc)]);
        for_each values (fun b =>
        block [
          e! "addis" 10 0 (Z.shiftr b 16); e! "ori" 10 10 (Z.land b 65535);
          for_each [0; 1] (fun oe =>
          block [
            for_each [0; 1] (fun rc =>
            e! "subf" 11 9 10 oe rc)])])])]);
    e! "addi" 0 0 (-1); e! "subf" 0 0 0 1 1;
    e! "addi" 0 0 (-1); e! "neg" 0 0 1 1;
    e! "subf" 9 9 10 0 0; e! "subf" 10 9 10 1 1;
    e0 "illegal"].

Definition make_subtract : result Program := prefix_extended subtract_prefix subtract_body.

Definition subcarry_prefix : list operation :=
  [o "addi" [9; 0; 1]; o "addi" [10; 0; 0]]
  ++ flat_map (fun oe => map (fun rc => o "subfc" [11; 9; 10; oe; rc]) both) both
  ++ [o "addis" [9; 0; 0x8000]; o "subfc" [11; 9; 10; 1; 1]].
Definition subcarry_body : method Program unit :=
  block [
    e! "addi" 0 0 0;
    let values := [0; 1; 2; 0x7fffffff; 0x80000000; 0x80000001; 0xfffffffe; 0xffffffff] in
  block [
    for_each [0; 1] (fun ca =>
    block [
      e! "addis" 18 0 (if truthy ca then 0x8000 else 0);
      for_each values (fun a =>
      block [
        e! "addis" 9 0 (Z.shiftr a 16); e! "ori" 9 9 (Z.land a 65535);
        for_each values (fun b =>
        block [
          e! "addis" 10 0 (Z.shiftr b 16); e! "ori" 10 10 (Z.land b 65535);
          for_each [0; 1] (fun oe =>
          block [
            for_each [0; 1] (fun rc =>
            block [
              e! "addco" 20 18 18;
              e! "subfc" 11 9 10 oe rc;
              e! "adde" 13 0 0])])])])]);
    e! "addi" 0 0 (-1); e! "subfc" 0 0 0 1 1;
    e! "addi" 0 0 1; e! "subfc" 9 0 9 0 0;
    e! "subfc" 9 9 10 0 1; e! "subfc" 10 9 10 1 0;
    e0 "illegal"]].

Definition make_subcarry : result Program := prefix_extended subcarry_prefix subcarry_body.

Definition make_subextend : result Program :=
  let! p := make_subcarry in
  Ok {| ops := map (fun x => ((if String.eqb (fst x) "subfc" then "subfe" else fst x), snd x)) (ops p);
        labels := labels p; folds := folds p |}.

Definition subunary_prefix : list operation :=
  [o "addi" [9; 0; 1]; o "addi" [10; 0; 0]; o "addi" [11; 0; 1]]
  ++ flat_map (fun ci => flat_map (fun op => flat_map (fun oe => flat_map (fun rc =>
       [o "subfc" [18; if truthy ci then 10 else 11; 10; 0; 0]; o op [12; 9; oe; rc]]) both) both)
     ["subfme"; "subfze"]) both.
Definition subunary_body : method Program unit :=
  block [
    e! "addi" 0 0 0;
    let values := [0; 1; 2; 0x7ffffffe; 0x7fffffff; 0x80000000; 0x80000001; 0xfffffffe; 0xffffffff] in
  block [
    for_each [0; 1] (fun ci =>
    block [
      e! "addis" 18 0 (if truthy ci then 0x8000 else 0);
      for_each values (fun a =>
      block [
        e! "addis" 9 0 (Z.shiftr a 16); e! "ori" 9 9 (Z.land a 65535);
        for_each ["subfme"; "subfze"] (fun op =>
        block [
          for_each [0; 1] (fun oe =>
          block [
            for_each [0; 1] (fun rc =>
            block [
              e! "addco" 20 18 18;
              e! op 12 9 oe rc;
              e! "adde" 13 0 0])])])])]);
    for_each (range 64) (fun i =>
    e! (if truthy (i mod 2) then "subfme" else "subfze") 9 9 ((i / 2) mod 2) (i mod 2));
    e! "addi" 0 0 (-1); e! "subfme" 0 0 1 1; e! "subfze" 0 0 1 1;
    e0 "illegal"]].

Definition make_subunary : result Program := prefix_extended subunary_prefix subunary_body.

Definition immediates : list Z :=
  sorted_set ([0; 1; 2; 0x7fff; 0x8000; 0xffff; 0x8001; 0xfffe; 0x0401; 0x5555; 0xaaaa] ++ map (Z.shiftl 1) (range 16)).
Definition subimmediate_prefix : list operation :=
  [o "addi" [0; 0; 1]; o "subfic" [11; 0; 0]; o "subfic" [0; 0; 0xffff]; o "subfic" [11; 0; 0x8000]].
Definition subimmediate_body : method Program unit :=
  block [
    e! "addi" 0 0 0;
    let values := [0; 1; 2; 0x7fffffff; 0x80000000; 0x80000001; 0xffff8000; 0xfffffffe; 0xffffffff] in
  block [
    for_each [0; 1] (fun ci =>
    block [
      e! "addis" 18 0 (if truthy ci then 0x8000 else 0);
      for_each values (fun a =>
      block [
        e! "addis" 9 0 (Z.shiftr a 16); e! "ori" 9 9 (Z.land a 65535);
        for_each immediates (fun imm =>
        block [
          e! "addco" 20 18 18;
          e! "subfic" 12 9 imm;
          e! "adde" 13 0 0])])]);
    for_each (range 32) (fun i =>
    e! "subfic" 9 9 (Z.shiftl 1 (i mod 16)));
    e! "addi" 0 0 (-1); e! "subfic" 0 0 0xffff; e! "subfic" 12 0 0x0401;
    e0 "illegal"]].

Definition make_subimmediate : result Program := prefix_extended subimmediate_prefix subimmediate_body.

Definition add_pair (x : operation) : list operation :=
  if String.eqb (fst x) "subfic" then [("addic", snd x); ("addic.", snd x)] else [x].
Definition make_addimmediate : result Program := let! p := make_subimmediate in expand add_pair p.

Definition and_pair (x : operation) : list operation :=
  if String.eqb (fst x) "subfic" then [("andi.", snd x); ("andis.", snd x)] else [x].
Definition make_andimmediate : result Program := let! p := make_subimmediate in expand and_pair p.

Definition unary_values : list Z :=
  sorted_set ([0; 0xffffffff; 0x7fffffff; 0x80000000; 0x7fff; 0x8000; 0xffff; 0xffff0000]
    ++ map (Z.shiftl 1) (range 32) ++ map (Z.lor 0xa55a0000) (range 256)
    ++ map (fun i => Z.lor (Z.lor 0x5a5a0000 (Z.shiftl i 8)) 0xa5) (range_step 0 256 4)).
Definition unary_prefix : list operation :=
  [o "addi" [0; 0; -1]]
  ++ flat_map (fun op => map (fun rc => o op [11; 0; rc]) both) ["cntlzw"; "extsb"; "extsh"].
Definition unary_body : method Program unit :=
  block [
    for_each unary_values (fun a =>
    block [
      e! "addis" 9 0 (Z.shiftr a 16); e! "ori" 9 9 (Z.land a 65535);
      for_each ["cntlzw"; "extsb"; "extsh"] (fun op =>
      block [
        for_each [0; 1] (fun rc =>
        e! op 12 9 rc)])]);
    for_each ["cntlzw"; "extsb"; "extsh"] (fun op =>
    block [
      e! "addi" 0 0 (-128);
      for_each [0; 1] (fun rc =>
      e! op 0 0 rc)]);
    e0 "illegal"].

Definition make_unarylogical : result Program := prefix_extended unary_prefix unary_body.

Definition crtransfer_prefix : list operation :=
  [o "mfcr" [0]; o "addis" [0; 0; 0x1234]; o "ori" [0; 0; 0x5678];
   o "mtcrf" [255; 0]; o "mfcr" [0]; o "mtcrf" [0; 0]; o "mfcr" [11]].
Definition crtransfer_body : method Program unit :=
  block [
    for_each (range 256) (fun mask =>
    block [
      e! "addis" 9 0 0x1234; e! "ori" 9 9 0x5678; e! "mtcrf" 255 9;
      e! "addis" 9 0 0xedcb; e! "ori" 9 9 0xa987;
      e! "mtcrf" mask 9; e! "mfcr" 9;
      e! "cmpi" (mask mod 8) 20 0; e! "mfcr" 10]);
    for_each (range 8) (fun field =>
    block [
      e! "addi" 0 0 (-1); e! "mtcrf" (Z.shiftr 128 field) 0; e! "mfcr" 0]);
    e0 "illegal"].

Definition make_crtransfer : result Program := prefix_extended crtransfer_prefix crtransfer_body.

Definition crlogical_tail : method Program unit :=
  block [
    for_each (range 4) (fun truth =>
    let seed := Z.lor (Z.lor 0x55555554 (Z.shiftl (Z.shiftr truth 1) 31)) (Z.land truth 1) in
    block [
      e! "addis" 8 0 (Z.shiftr seed 16); e! "ori" 8 8 (Z.land seed 65535);
      for_each crop_names (fun op =>
      block [
        for_each (range 32) (fun dest =>
        block [
          e! "mtcrf" 255 8; e! op dest 0 31; e! "mfcr" 9])])]);
    for_each (range 64) (fun i =>
    block [
      e! (crop_name (i mod 8)) (i mod 32) ((i * 7) mod 32) (((i * 13) + 1) mod 32); e! "mfcr" 9]);
    for_each (range 32) (fun i =>
    block [
      e! (crop_name (i mod 8)) i i i; e! "mfcr" 9]);
    e0 "illegal"].

Definition make_crlogical : result Program := extended crlogical_tail.

Definition crstate_tail : method Program unit :=
  block [
    for_each [0x01234567; 0x89abcdef] (fun seed =>
    block [
      e! "addis" 8 0 (Z.shiftr seed 16); e! "ori" 8 8 (Z.land seed 65535);
      for_each (range 8) (fun source =>
      block [
        for_each (range 8) (fun dest =>
        block [
          e! "mtcrf" 255 8; e! "mcrf" dest source; e! "mfcr" 9])])]);
    e! "addi" 0 0 0; e! "addis" 18 0 0x8000;
    e! "addis" 19 0 0x7fff; e! "ori" 19 19 0xffff; e! "addi" 17 0 1;
    for_each (range 8) (fun dest =>
    block [
      for_each (range 6) (fun state =>
      block [
        e! "mcrxr" 7;
        when ((state =? 2) || (state =? 3) || (state =? 5)) (e! "addco" 20 18 18);
        when ((state =? 0) || (state =? 2) || (state =? 3)) (e! "addco" 20 0 0);
        when ((state =? 1) || (state =? 3)) (e! "subfic" 20 0 0);
        when (state =? 4) (e! "addco" 20 19 17);
        e! "mtcrf" 255 8; e! "mcrxr" dest; e! "mfcr" 9;
        e! "mcrxr" ((dest + 1) mod 8); e! "mfcr" 10;
        e! "adde" 13 0 0; e! "andi." 14 17 1])]);
    for_each (range 32) (fun i =>
    e! "mcrf" (i mod 8) ((i + 1) mod 8));
    e0 "illegal"].

Definition make_crstate : result Program := extended crstate_tail.

Definition compare_values : list Z :=
  [0; 1; 0x7fff; 0x8000; 0x7fffffff; 0x80000000; 0x80000001; 0xffff8000; 0xfffffffe; 0xffffffff].
(** The sweep threads the count [n] that picks the result fields. *)
Definition compare_pair (a n b : Z) : method Program Z :=
  do! _ := block [
    load 10 b;
    e! "mtcrf" 255 8;
    e! "cmp" (n mod 8) 9 10; e! "cmpl" ((n + 3) mod 8) 9 10; e! "mfcr" 11] in
  m_ret (n + 1).
Definition compare_immediate (n imm : Z) : method Program Z :=
  do! _ := block [e! "cmpi" (n mod 8) 9 imm; e! "cmpli" ((n + 5) mod 8) 9 imm] in
  m_ret (n + 1).
Definition compare_value (n a : Z) : method Program Z :=
  do! _ := load 9 a in
  do! n := for_count compare_values n (compare_pair a) in
  do! n := for_count [0; 1; 0x7fff; 0x8000; 0xffff] n compare_immediate in
  do! _ := e! "mfcr" 11 in
  m_ret n.
Definition compare_sweep (n so : Z) : method Program Z :=
  do! _ := e! "mcrxr" 7 in
  do! _ := when (truthy so) (e! "addco" 20 18 19) in
  for_count compare_values n compare_value.
Definition compare_tail : method Program unit := block [
  e! "addis" 18 0 0x7fff; e! "ori" 18 18 0xffff; e! "addi" 19 0 1; e! "addis" 8 0 0x5a5a;
  do! _ := for_count [0; 1] 0 compare_sweep in m_ret tt;
  e! "mcrxr" 7; load 9 0x7fffffff;
  for_each (range 8) (fun bf => block [
    e! "addi" 9 9 1; e! "cmp" bf 9 10; e! "cmpli" ((bf + 1) mod 8) 9 0x8000;
    e! "bc" 12 (4 * bf) ("cmp_taken" +:+ pretty bf) 0 0; e! "addi" 12 0 bf;
    lbl ("cmp_taken" +:+ pretty bf); e! "cror" 31 (4 * bf + 2) (4 * bf); e! "mfcr" 11]);
  e0 "illegal"].
Definition make_compare : result Program := extended compare_tail.

Definition multiply_tail : method Program unit :=
  let values := [0; 1; 0xffffffff; 2; 0x7fffffff; 0x80000000; 0x10000; 0xffff0000] in
  block [
    for_each (range 2) (fun oe =>
    block [
      for_each (range 2) (fun rc =>
      block [
        for_each values (fun av =>
        block [
          for_each values (fun bv =>
          block [
            load 4 av; load 6 bv;
            e! "mullw" 4 4 6 oe rc])])])]);
    for_each values (fun av =>
    block [
      for_each [0; 1; -1; 2; -32768; 32767] (fun imm =>
      block [
        load 0 av; e! "mulli" 0 0 imm])]);
    e! "addi" 0 0 0; e! "addis" 18 0 0x8000;
    for_each (range 2) (fun seed =>
    block [
      for_each (range 2) (fun oe =>
      block [
        for_each (range 2) (fun rc =>
        block [
          e! "mcrxr" 7;
          when (truthy seed) (e! "addco" 20 18 18);
          load 4 0x80000000; load 6 0xffffffff;
          e! "mullw" 7 4 6 oe rc;
          e! "addi" 6 0 1; e! "mullw" 7 4 6 oe rc;
          e! "adde" 13 0 0])])]);
    e! "addi" 4 0 3;
    for_each (range 32) (fun _ =>
    e! "mulli" 4 4 3);
    e0 "illegal"].

Definition make_multiply : result Program := extended multiply_tail.

Definition high_tail : method Program unit :=
  let values := [0; 1; 0xffffffff; 2; 0x7fffffff; 0x80000000; 0x10000; 0xffff0000] in
  block [
    for_each ["mulhw"; "mulhwu"] (fun op =>
    block [
      for_each (range 2) (fun rc =>
      block [
        for_each values (fun av =>
        block [
          for_each values (fun bv =>
          block [
            load 4 av; load 6 bv; e! op 4 4 6 rc])]);
        for_each values (fun av =>
        block [
          load 0 av; load 6 0xffffffff; e! op 0 0 6 rc])])]);
    e! "addi" 0 0 0;
    for_each (range 2) (fun seed =>
    block [
      e! "mcrxr" 7;
      when (truthy seed) (block [
        e! "addis" 18 0 0x8000; e! "addco" 20 18 18]);
      load 4 0xffffffff; load 6 0xffffffff;
      for_each ["mulhw"; "mulhwu"] (fun op =>
      block [
        for_each (range 2) (fun rc =>
        e! op 7 4 6 rc)]);
      e! "adde" 13 0 0]);
    load 4 0xffffffff;
    for_each (range 32) (fun i =>
    e! (if truthy (i mod 2) then "mulhw" else "mulhwu") 4 4 6 (i mod 2));
    e0 "illegal"].

Definition make_multiply_high : result Program := extended high_tail.

Definition divwu_tail : method Program unit :=
  let values := [0; 1; 2; 3; 0x7fffffff; 0x80000000; 0xfffffffe; 0xffffffff] in
  block [
    for_each (range 2) (fun oe =>
    block [
      for_each (range 2) (fun rc =>
      block [
        for_each values (fun av =>
        block [
          for_each values (fun bv =>
          block [
            load 4 av; load 6 bv; e! "divwu" 4 4 6 oe rc])]);
        load 0 0xffffffff; e! "divwu" 0 0 0 oe rc])]);
    e! "addi" 0 0 0;
    for_each (range 2) (fun seed =>
    block [
      for_each (range 2) (fun oe =>
      block [
        for_each (range 2) (fun rc =>
        block [
          e! "mcrxr" 7;
          when (truthy seed) (block [
            e! "addis" 18 0 0x8000; e! "addco" 20 18 18]);
          load 4 0xffffffff; e! "addi" 6 0 0;
          e! "divwu" 7 4 6 oe rc;
          e! "addi" 6 0 3; e! "divwu" 7 4 6 oe rc;
          e! "adde" 13 0 0])])]);
    load 4 0xffffffff; e! "addi" 6 0 2;
    for_each (range 32) (fun _ =>
    e! "divwu" 4 4 6 0 0);
    e0 "illegal"].

Definition make_divide_unsigned : result Program := extended divwu_tail.

Definition divw_tail : method Program unit :=
  let values := [0; 1; 2; 3; 0x7fffffff; 0x80000000; 0xfffffffe; 0xffffffff] in
  block [
    for_each (range 2) (fun oe =>
    block [
      for_each (range 2) (fun rc =>
      block [
        for_each values (fun av =>
        block [
          for_each values (fun bv =>
          block [
            load 4 av; load 6 bv; e! "divw" 4 4 6 oe rc])]);
        load 0 0xffffffff; e! "divw" 0 0 0 oe rc])]);
    e! "addi" 0 0 0;
    for_each (range 2) (fun seed =>
    block [
      for_each (range 2) (fun oe =>
      block [
        for_each (range 2) (fun rc =>
        block [
          e! "mcrxr" 7;
          when (truthy seed) (block [
            e! "addis" 18 0 0x8000; e! "addco" 20 18 18]);
          load 4 0xffffffff; e! "addi" 6 0 0;
          e! "divw" 7 4 6 oe rc;
          e! "addi" 6 0 3; e! "divw" 7 4 6 oe rc;
          e! "adde" 13 0 0])])]);
    load 4 0xffffffff; e! "addi" 6 0 2;
    for_each (range 32) (fun _ =>
    e! "divw" 4 4 6 0 0);
    e0 "illegal"].

Definition make_divide_signed : result Program := extended divw_tail.

Definition update_tail : method Program unit :=
  block [
    for_each [("lbz", 1); ("lhz", 2); ("lha", 2); ("lwz", 4); ("stb", 1); ("sth", 2); ("stw", 4)] (fun '(stem, size) =>
    block [
      for_each [false; true] (fun indexed =>
      block [
        for_each (range_step 0 4 size) (fun lane =>
        block [
          for_each [-16; 0; 16] (fun displacement =>
          block [
            e! "addi" 4 0 (((BASE + 96) + lane) - displacement);
            e! "addis" 6 0 0x89ab; e! "ori" 6 6 0xcdef;
            when indexed (e! "addi" 7 0 displacement);
            e! (stem +:+ (if indexed then "ux" else "u")) 6 4 (if indexed then 7 else displacement);
            e! "addi" 8 4 0; e! "addi" 9 6 0;
            e! "lwz" 10 0 (BASE + 96)])])])]);
    for_each ["stb"; "sth"; "stw"] (fun stem =>
    block [
      e! "addi" 4 0 (BASE + 128); e! (stem +:+ "u") 4 4 4;
      e! "addi" 4 0 (BASE + 128); e! "addi" 7 0 8; e! (stem +:+ "ux") 4 4 7]);
    for_each ["lbz"; "lhz"; "lha"; "lwz"] (fun stem =>
    block [
      e! "addi" 4 0 (BASE + 128); e! "addi" 6 0 4; e! (stem +:+ "ux") 6 4 6;
      e! "addi" 4 0 (BASE + 128); e! "addi" 0 0 8; e! (stem +:+ "ux") 0 4 0;
      e! "addi" 4 0 ((BASE + 128) / 2); e! (stem +:+ "ux") 6 4 4]);
    e! "addi" 4 0 (BASE + 128); e! "addi" 7 0 4; e! "stwux" 7 4 7;
    e! "addi" 4 0 ((BASE + 128) / 2); e! "stwux" 4 4 4;
    e! "addi" 4 0 (-4); e! "lwzu" 6 4 (BASE + 4);
    e! "addi" 4 0 (BASE + 160);
    for_each (range 8) (fun _ =>
    block [
      e! "lwzu" 6 4 4; e! "add" 7 6 4]);
    e0 "illegal"].

Definition make_lsu_update : result Program := extended update_tail.

End Fixtures.
End fixtures.
