(* ===== verification/ProgramInvariant.v ===== *)
(** * What the program oracle keeps ([sim/tools/control_memory_program.py])

    Every operation whose fields are in range keeps the architectural state a
    state of words and bytes, so every row [simulate] records is one. *)
From S2P Require Import Prelude ExecResult ProgramOracle.
Import program.

Create HintDb words discriminated.
#[export] Hint Constants Opaque : words.

Definition byte (b : Z) : Prop := 0 <= b < 2 ^ 8.

Record state_ok (s : state) : Prop := {
  ok_len : length (regs s) = 32%nat;
  ok_regs : Forall word (regs s);
  ok_cr : word (cr s);
  ok_xer : word (xer s);
  ok_lr : word (lr s);
  ok_ctr : word (ctr s);
  ok_memlen : length (mem s) = 256%nat;
  ok_mem : Forall byte (mem s)
}.

(** ** Words *)
Lemma word_mask x : word (Z.land x MASK).
Proof. apply mask32_range. Qed.
Lemma word_lor a b : word a -> word b -> word (Z.lor a b).
Proof. intros. apply lor_bound; [lia | assumption | assumption]. Qed.
Lemma word_land a b : word a -> word (Z.land a b).
Proof. intros. apply land_bound_l; [lia | assumption]. Qed.
Lemma word_shift x n k : 0 <= x < 2 ^ n -> 0 <= n -> 0 <= k -> n + k <= 32 -> word (Z.shiftl x k).
Proof.
  intros Hx Hn Hk Hle. rewrite Z.shiftl_mul_pow2 by lia. pose proof (Z.pow_pos_nonneg 2 k ltac:(lia) Hk).
  split; [lia |]. apply Z.lt_le_trans with (2 ^ n * 2 ^ k); [apply Z.mul_lt_mono_pos_r; lia |].
  rewrite <- Z.pow_add_r by lia. apply Z.pow_le_mono_r; lia.
Qed.
Lemma word_bit b k : 0 <= k < 32 -> word (Z.shiftl (Z.b2z b) k).
Proof. intros Hk. apply (word_shift _ 1); [destruct b; cbn; lia | lia | lia | lia]. Qed.
Lemma word_shiftr x k : 0 <= k -> word x -> word (Z.shiftr x k).
Proof.
  intros Hk Hx. rewrite Z.shiftr_div_pow2 by lia. pose proof (Z.pow_pos_nonneg 2 k ltac:(lia) Hk). unfold word in *.
  split; [apply Z.div_pos; lia |]. apply Z.le_lt_trans with x; [| lia]. apply Z.div_le_upper_bound; nia.
Qed.
Lemma low_bits x n : 0 <= n -> 0 <= Z.land x (Z.ones n) < 2 ^ n.
Proof. intros Hn. rewrite Z.land_ones by lia. apply Z.mod_pos_bound. apply Z.pow_pos_nonneg; lia. Qed.
Lemma word_put_nibble w k n : word w -> 0 <= n < 16 -> 0 <= k <= 28 -> word (put_nibble w k n).
Proof. intros Hw Hn Hk. apply word_lor; [apply word_land, Hw |]. apply (word_shift _ 4); lia. Qed.
#[export] Hint Resolve word_mask word_lor word_land word_bit : words.

Lemma cr_field_range v x : word x -> 0 <= cr_field v x < 16.
Proof.
  intros Hx. unfold cr_field. change 16 with (2 ^ 4). apply lor_bound; [lia | repeat case_if; lia |].
  rewrite Z.shiftr_div_pow2 by lia. unfold word in Hx. split; [apply Z.div_pos; lia |].
  apply Z.div_lt_upper_bound; lia.
Qed.

(** ** Registers and state updates *)
Lemma py_index_lt len i k : py_index len i = Some k -> (Z.of_nat k < len).
Proof.
  unfold py_index. case_if; [intros [= <-]; apply in_range_iff in E; lia |].
  case_if; [intros [= <-]; apply in_range_iff in E0; lia | discriminate].
Qed.

Lemma py_get_word l i v : Forall word l -> py_get l i = Ok v -> word v.
Proof.
  intros Hl. unfold py_get. destruct (py_index _ i); [| discriminate].
  destruct (l !! n) eqn:E; [| discriminate]. intros [= <-]. apply (Forall_lookup_1 _ _ _ _ Hl E).
Qed.

Lemma write_reg_ok s d v s' : state_ok s -> word v -> write_reg s d v = Ok s' -> state_ok s'.
Proof.
  intros [] Hv. unfold write_reg, py_set. destruct (py_index _ d); [| discriminate].
  intros [= <-]. constructor; cbn; try assumption.
  - rewrite length_insert. assumption.
  - apply Forall_insert; assumption.
Qed.

Lemma write_reg_xer s d v s' : write_reg s d v = Ok s' -> xer s' = xer s /\ cr s' = cr s /\ mem s' = mem s.
Proof. unfold write_reg. destruct (py_set _ _ _); [intros [= <-] | discriminate]. cbn. auto. Qed.

Lemma with_cr_ok s v : state_ok s -> word v -> state_ok (with_cr s v).
Proof. intros [] Hv. constructor; assumption. Qed.
Lemma with_xer_ok s v : state_ok s -> word v -> state_ok (with_xer s v).
Proof. intros [] Hv. constructor; assumption. Qed.
Lemma with_lr_ok s v : state_ok s -> word v -> state_ok (with_lr s v).
Proof. intros [] Hv. constructor; assumption. Qed.
Lemma with_ctr_ok s v : state_ok s -> word v -> state_ok (with_ctr s v).
Proof. intros [] Hv. constructor; assumption. Qed.
Lemma with_pc_ok s v : state_ok s -> state_ok (with_pc s v).
Proof. intros []. constructor; assumption. Qed.

Lemma record_cr0_ok s v : state_ok s -> state_ok (record_cr0 s v).
Proof.
  intros H. apply with_cr_ok; [exact H |]. apply word_lor; [apply word_land, H |].
  apply (word_shift _ 4); [apply cr_field_range, H | lia | lia | lia].
Qed.
Lemma if_rc_ok rc v s : state_ok s -> state_ok (if_rc rc v s).
Proof. intros H. unfold if_rc. case_if; [apply record_cr0_ok |]; exact H. Qed.
Lemma if_oe_ok oe ov s : state_ok s -> state_ok (if_oe oe ov s).
Proof.
  intros H. unfold if_oe. case_if; [| exact H]. apply with_xer_ok; [exact H |].
  apply word_lor; [apply word_lor; [apply word_land, H |] |]; apply word_bit; lia.
Qed.
Lemma set_carry_ok c s : state_ok s -> state_ok (set_carry c s).
Proof.
  intros H. apply with_xer_ok; [exact H |]. apply word_lor; [apply word_land, H | apply word_bit; lia].
Qed.
#[export] Hint Resolve with_cr_ok with_xer_ok with_lr_ok with_ctr_ok with_pc_ok record_cr0_ok if_rc_ok if_oe_ok
  set_carry_ok ok_cr ok_xer ok_lr ok_ctr : words.

(** ** Results that are words *)
Lemma fold_word {A} (f : Z -> A -> Z) l v : (forall w x, word w -> In x l -> word (f w x)) -> word v -> word (fold_left f l v).
Proof.
  revert v. induction l as [| x l IH]; intros v Hf Hv; [exact Hv |]. cbn. apply IH.
  - intros w y Hw Hy. apply Hf; [exact Hw | right; exact Hy].
  - apply Hf; [exact Hv | left; reflexivity].
Qed.

Lemma word_one_bit x k : 0 <= k < 32 -> word (Z.shiftl (Z.land x 1) k).
Proof. intros Hk. apply (word_shift _ 1); [apply (low_bits x 1); lia | lia | lia | lia]. Qed.

Lemma select_bits_word left source count : word (select_bits left source count).
Proof.
  apply fold_word; [| split; [lia | reflexivity]]. intros w x Hw Hx. apply in_seqZ in Hx.
  cbv zeta. destruct (_ && _); [apply word_lor; [exact Hw | apply word_one_bit; lia] | exact Hw].
Qed.

Lemma arithmetic_bits_word source count : word (arithmetic_bits source count (Z.land (Z.shiftr source 31) 1)).
Proof.
  apply fold_word; [| split; [lia | reflexivity]]. intros w x Hw Hx. apply in_seqZ in Hx.
  cbv zeta. apply word_lor; [exact Hw |]. case_if; apply word_one_bit; lia.
Qed.

Lemma insert_bits_word source old sh mb me : word old -> word (insert_bits source old sh mb me).
Proof.
  intros Ho. apply fold_word; [| exact Ho]. intros w x Hw Hx. apply in_seqZ in Hx.
  case_if; [| exact Hw]. cbv zeta. apply word_lor; [apply word_land, Hw | apply word_one_bit; lia].
Qed.

Lemma divide_word x y : word x -> word y -> word (if truthy y then x / y else 0).
Proof.
  unfold word, truthy. intros Hx Hy. destruct (Z.eqb_spec y 0); cbn [negb]; [lia |].
  split; [apply Z.div_pos; lia |]. apply Z.le_lt_trans with x; [apply Z.div_le_upper_bound; nia | lia].
Qed.

Lemma clz_word x : word x -> word (32 - bit_length x).
Proof.
  unfold word, bit_length. intros Hx. destruct (Z.eqb_spec x 0); [lia |]. rewrite Z.abs_eq by lia.
  pose proof (Z.log2_nonneg x). assert (Z.log2 x < 32) by (apply Z.log2_lt_pow2; lia). lia.
Qed.
Lemma transfer_fields_word fields v c : word c -> word (transfer_fields fields v c).
Proof.
  intros Hc. apply fold_word; [| exact Hc]. intros w x Hw Hx. apply in_seqZ in Hx. case_if; [| exact Hw].
  apply word_put_nibble; [exact Hw | apply (low_bits _ 4); lia | lia].
Qed.
Lemma state_ok_if (c : bool) s t : state_ok s -> state_ok t -> state_ok (if c then s else t).
Proof. destruct c; auto. Qed.
Lemma word_if (c : bool) v w : word v -> word w -> word (if c then v else w).
Proof. destruct c; auto. Qed.
#[export] Hint Resolve state_ok_if word_if transfer_fields_word select_bits_word arithmetic_bits_word insert_bits_word divide_word clz_word : words.

(** ** Every operation *)
Lemma Ok_inj {A} (x y : A) : Ok x = Ok y -> x = y.
Proof. congruence. Qed.

(** [py_inv] for runs whose results are large terms, left as they are. *)
Ltac run_step H :=
  match type of H with
  | Raise _ = Ok _ => discriminate H
  | Ok _ = Ok _ => apply Ok_inj in H
  | match ?r with Ok _ => _ | Raise _ => _ end = Ok _ =>
      let E := fresh "E" in destruct r eqn:E; [| discriminate H]
  | (if ?b then _ else _) = Ok _ =>
      let E := fresh "E" in destruct b eqn:E; try discriminate H
  end; split_tuples
with split_tuples := repeat match goal with p : (_ * _)%type |- _ => destruct p end.
Ltac run_inv H := repeat run_step H.
(** Each register read is a word. *)
Ltac read_words :=
  repeat match goal with
  | Hs : state_ok ?s, E : py_get (regs ?s) _ = Ok ?v |- _ => apply (py_get_word _ _ _ (ok_regs s Hs)) in E
  end.
(** Follow the [let!]s of an operation that returned, then the word lemmas. *)
Ltac exec_tac H :=
  repeat (progress (run_inv H)); try discriminate; read_words;
  repeat match goal with
  | W : write_reg _ _ _ = Ok ?s' |- _ => apply write_reg_ok in W; [| auto 8 with words | auto 8 with words]
  end; subst; auto 8 with words.

Section Exec.
Context (s s' : state) (Hs : state_ok s).

Lemma exec_divw_ok a : exec_divw a s = Ok s' -> state_ok s'.
Proof using Hs. unfold exec_divw. intros H. exec_tac H. Qed.

Lemma exec_divwu_ok a : exec_divwu a s = Ok s' -> state_ok s'.
Proof using Hs. unfold exec_divwu. intros H. exec_tac H. Qed.

Lemma exec_mulh_ok op a : exec_mulh op a s = Ok s' -> state_ok s'.
Proof using Hs. unfold exec_mulh. intros H. exec_tac H. Qed.

Lemma exec_mullw_ok a : exec_mullw a s = Ok s' -> state_ok s'.
Proof using Hs. unfold exec_mullw. intros H. exec_tac H. Qed.

Lemma exec_mulli_ok a : exec_mulli a s = Ok s' -> state_ok s'.
Proof using Hs. unfold exec_mulli. intros H. exec_tac H. Qed.

Lemma exec_mfcr_ok a : exec_mfcr a s = Ok s' -> state_ok s'.
Proof using Hs. unfold exec_mfcr. intros H. exec_tac H. Qed.

Lemma exec_mtcrf_ok a : exec_mtcrf a s = Ok s' -> state_ok s'.
Proof using Hs. unfold exec_mtcrf. intros H. exec_tac H. Qed.

Lemma exec_addi_ok p op a : exec_addi p op a s = Ok s' -> state_ok s'.
Proof using Hs.
  unfold exec_addi. destruct a as [| d [| r [| imm []]]]; try discriminate. intros H. exec_tac H.
Qed.

Lemma exec_add_ok op a : exec_add op a s = Ok s' -> state_ok s'.
Proof using Hs.
  unfold exec_add. intros H. run_inv H. read_words.
  match goal with W : write_reg _ _ _ = Ok ?s1 |- _ =>
    pose proof (write_reg_ok _ _ _ _ Hs (word_mask _) W) as H1 end.
  subst. case_if; [auto with words |]. case_if; [| exact H1].
  cbv zeta. apply with_xer_ok; [exact H1 |]. unfold bits_or. cbn [fold_left].
  apply word_lor; [| apply word_bit; lia]. apply word_lor; [| apply word_bit; lia].
  apply word_lor; [| apply word_bit; lia]. apply word_lor; [split; [lia | reflexivity] | apply word_land, H1].
Qed.

Lemma exec_unary_ok op a : exec_unary op a s = Ok s' -> state_ok s'.
Proof using Hs. unfold exec_unary. intros H. exec_tac H. Qed.

Lemma exec_shift_ok op a : exec_shift op a s = Ok s' -> state_ok s'.
Proof using Hs. unfold exec_shift. intros H. exec_tac H. Qed.

Lemma exec_sraw_ok op a : exec_sraw op a s = Ok s' -> state_ok s'.
Proof using Hs. unfold exec_sraw. intros H. exec_tac H. Qed.

Lemma exec_subtract_ok op a : exec_subtract op a s = Ok s' -> state_ok s'.
Proof using Hs. unfold exec_subtract. intros H. exec_tac H. Qed.

Lemma exec_addic_ok op a : exec_addic op a s = Ok s' -> state_ok s'.
Proof using Hs. unfold exec_addic. intros H. exec_tac H. Qed.

Lemma exec_andi_ok op a : exec_andi op a s = Ok s' -> state_ok s'.
Proof using Hs. unfold exec_andi. intros H. exec_tac H. Qed.

Lemma exec_subfic_ok a : exec_subfic a s = Ok s' -> state_ok s'.
Proof using Hs. unfold exec_subfic. intros H. exec_tac H. Qed.

Lemma exec_rlwimi_ok a : exec_rlwimi a s = Ok s' -> state_ok s'.
Proof using Hs. unfold exec_rlwimi. intros H. exec_tac H. Qed.

Lemma exec_spr_ok op a : exec_spr op a s = Ok s' -> state_ok s'.
Proof using Hs. unfold exec_spr. intros H. exec_tac H. Qed.

(** ** Operations whose fields must be in range *)
Definition field_ok (a : list arg) (k : nat) (lo hi : Z) : bool :=
  match arg_at a k with Ok v => in_range lo hi v | Raise _ => true end.

(** The source never checks these: a destination CR field or bit, and the
    immediate of [ori], which [simulate] does not mask. *)
Definition op_fields (x : operation) : bool :=
  let '(op, a) := x in
  if String.eqb op "ori" then field_ok a 2 0 65536
  else if str_in op ("mcrf" :: "mcrxr" :: COMPARES)%string then field_ok a 0 0 8
  else if dict_mem CROPS op then field_ok a 0 0 32 else true.

Lemma unpack_at n a l : unpack n a = Ok l -> forall k z, l !! k = Some z -> arg_at a k = Ok z.
Proof.
  unfold unpack. case_if; [clear E | discriminate]. revert l. unfold arg_at.
  induction a as [| x a IH]; intros l; cbn; [intros [= <-] k z; discriminate |].
  destruct (as_int x) eqn:Ex; [| discriminate]. destruct (all_ints a); [| discriminate].
  intros [= <-] [| k] z; cbn; [intros [= <-]; exact Ex | apply IH; reflexivity].
Qed.
Lemma unpack3_at a x y z : unpack3 a = Ok (x, y, z) -> arg_at a 0 = Ok x /\ arg_at a 2 = Ok z.
Proof.
  unfold unpack3. destruct (unpack 3 a) as [l |] eqn:E; [| discriminate]. intros H.
  destruct l as [| ? [| ? [| ? []]]]; try discriminate. injection H as -> -> ->.
  split; apply (unpack_at _ _ _ E); reflexivity.
Qed.
Lemma unpack2_at a x y : unpack2 a = Ok (x, y) -> arg_at a 0 = Ok x.
Proof.
  unfold unpack2. destruct (unpack 2 a) as [l |] eqn:E; [| discriminate]. intros H.
  destruct l as [| ? [| ? []]]; try discriminate. injection H as -> ->.
  apply (unpack_at _ _ _ E); reflexivity.
Qed.

Lemma exec_ori_ok a : op_fields ("ori"%string, a) = true -> exec_ori a s = Ok s' -> state_ok s'.
Proof using Hs.
  unfold exec_ori. intros Hf H. run_inv H. cbn in Hf. unfold field_ok in Hf.
  rewrite (proj2 (unpack3_at _ _ _ _ E)) in Hf. apply in_range_iff in Hf. read_words. apply write_reg_ok in H; [exact H | exact Hs |].
  apply word_lor; [assumption | unfold word; lia].
Qed.

Lemma nibble_word_ok w k n : 0 <= k < 8 -> word w -> 0 <= n < 16 -> word (put_nibble w ((7 - k) * 4) n).
Proof. intros. apply word_put_nibble; [assumption | lia | lia]. Qed.

Lemma exec_mcrf_ok a : op_fields ("mcrf"%string, a) = true -> exec_mcrf a s = Ok s' -> state_ok s'.
Proof using Hs.
  unfold exec_mcrf. intros Hf H. run_inv H. cbn in Hf. unfold field_ok in Hf.
  rewrite (unpack2_at _ _ _ E) in Hf. apply in_range_iff in Hf. subst. apply with_cr_ok; [exact Hs |].
  apply nibble_word_ok; [exact Hf | apply Hs | apply (low_bits _ 4); lia].
Qed.

Lemma exec_mcrxr_ok a : op_fields ("mcrxr"%string, a) = true -> exec_mcrxr a s = Ok s' -> state_ok s'.
Proof using Hs.
  unfold exec_mcrxr. intros Hf H. run_inv H. cbn in Hf. unfold field_ok in Hf. rewrite E in Hf.
  apply in_range_iff in Hf. subst.
  apply with_xer_ok; [apply with_cr_ok; [exact Hs |] | apply word_land, Hs].
  apply nibble_word_ok; [exact Hf | apply Hs |].
  change 16 with (2 ^ 4). change 14 with (Z.land (Z.ones 4) 14). rewrite Z.land_assoc.
  apply land_bound_l; [lia | apply low_bits; lia].
Qed.

Lemma exec_crop_ok op a : dict_mem CROPS op = true -> op_fields (op, a) = true -> exec_crop op a s = Ok s' -> state_ok s'.
Proof using Hs.
  unfold exec_crop. intros Hop Hf H. run_inv H.
  assert (Hfield : field_ok a 0 0 32 = true) by (unfold CROPS in Hop; dict_cases Hop; exact Hf).
  unfold field_ok in Hfield. rewrite (proj1 (unpack3_at _ _ _ _ E)) in Hfield. apply in_range_iff in Hfield.
  subst. apply with_cr_ok; [exact Hs |]. apply word_lor; [apply word_land, Hs | apply word_bit; lia].
Qed.

Lemma exec_compare_ok op a :
  str_in op COMPARES = true -> op_fields (op, a) = true -> exec_compare op a s = Ok s' -> state_ok s'.
Proof using Hs.
  unfold exec_compare. intros Hop Hf H. run_inv H.
  assert (Hfield : field_ok a 0 0 8 = true).
  { unfold str_in, COMPARES in Hop. cbn [existsb] in Hop.
    repeat (apply orb_true_iff in Hop; destruct Hop as [Hop | Hop]); try discriminate;
      apply String.eqb_eq in Hop; subst op; exact Hf. }
  unfold field_ok in Hfield. rewrite (proj1 (unpack3_at _ _ _ _ E)) in Hfield. apply in_range_iff in Hfield.
  subst. apply with_cr_ok; [exact Hs |]. apply word_put_nibble; [apply Hs | | lia].
  change 16 with (2 ^ 4). apply lor_bound; [lia | repeat case_if; lia |].
  pose proof (ok_xer s Hs) as Hx. unfold word in Hx. rewrite Z.shiftr_div_pow2 by lia.
  split; [apply Z.div_pos; lia |]. apply Z.div_lt_upper_bound; lia.
Qed.

(** ** Memory and branches *)
Lemma to_bytes_ok v n : Forall byte (to_bytes_big v n) /\ length (to_bytes_big v n) = n.
Proof using.
  unfold to_bytes_big. rewrite length_map, length_seq. split; [| reflexivity].
  apply Forall_forall. intros b Hb. apply list_elem_of_In, in_map_iff in Hb. destruct Hb as (k & <- & _).
  apply (low_bits _ 8). lia.
Qed.

Lemma splice_ok (m l : list Z) off :
  (off + length l <= length m)%nat -> Forall byte m -> Forall byte l ->
  Forall byte (take off m ++ l ++ drop (off + length l) m) /\
  length (take off m ++ l ++ drop (off + length l) m) = length m.
Proof using.
  intros Hle Hm Hl. split.
  - repeat apply Forall_app_2; [apply Forall_take, Hm | exact Hl | apply Forall_drop, Hm].
  - rewrite !length_app, length_take, length_drop. lia.
Qed.

Lemma with_mem_ok m : Forall byte m -> length m = 256%nat -> state_ok (with_mem s m).
Proof using Hs. intros Hm Hl. destruct Hs. constructor; assumption. Qed.

Lemma access_ok (store : bool) d off n m x t :
  (off + n <= length (mem s))%nat ->
  (if store then
     let! v := py_get (regs s) d in
     Ok (with_mem s (take off (mem s) ++ to_bytes_big (Z.land v m) n ++ drop (off + n) (mem s)))
   else write_reg s d (Z.land x MASK)) = Ok t -> state_ok t.
Proof using Hs.
  intros Hle H. destruct store.
  - run_inv H. subst. destruct (to_bytes_ok (Z.land a m) n) as [Hb Hl].
    set (l := to_bytes_big _ _) in *. rewrite <- Hl. rewrite <- Hl in Hle.
    destruct (splice_ok (mem s) l off Hle (ok_mem s Hs) Hb) as [B1 B2].
    apply with_mem_ok; [exact B1 | rewrite B2; apply Hs].
  - exec_tac H.
Qed.

Lemma exec_mem_ok BASE op a : exec_mem BASE op a s = Ok s' -> state_ok s'.
Proof using Hs.
  unfold exec_mem. intros H. run_inv H.
  all: repeat match goal with R : (_ && _)%bool = true |- _ => apply andb_true_iff in R; destruct R end.
  all: match goal with S : (if startswith _ _ then _ else _) = Ok ?t |- _ =>
         apply access_ok in S; [| rewrite !Z.leb_le in *; unfold mem_size in *; repeat case_if; lia] end.
  - apply write_reg_ok in H; auto with words.
  - subst. assumption.
Qed.

Lemma exec_branch_ok p op a : word (pc s + 4) -> exec_branch p op a s = Ok s' -> state_ok s'.
Proof using Hs.
  unfold exec_branch. intros Hpc H. destruct (String.eqb op "b").
  - destruct a as [| t [| aa [| lk []]]]; try discriminate. run_inv H. subst. auto 8 with words.
  - run_inv H; subst; lazymatch goal with |- context [with_ctr s ?v] => set (w := v) end;
      assert (Hw : word w) by apply word_mask; apply with_pc_ok; destruct (truthy (Z.land _ 4));
      apply state_ok_if; auto with words.
Qed.

Ltac by_exec H :=
  lazymatch type of H with
  | exec_divw _ _ = _ => eapply exec_divw_ok; eassumption
  | exec_divwu _ _ = _ => eapply exec_divwu_ok; eassumption
  | exec_mulh _ _ _ = _ => eapply exec_mulh_ok; eassumption
  | exec_mullw _ _ = _ => eapply exec_mullw_ok; eassumption
  | exec_mulli _ _ = _ => eapply exec_mulli_ok; eassumption
  | exec_mcrf _ _ = _ => eapply exec_mcrf_ok; eassumption
  | exec_mcrxr _ _ = _ => eapply exec_mcrxr_ok; eassumption
  | exec_crop _ _ _ = _ => eapply exec_crop_ok; eassumption
  | exec_mfcr _ _ = _ => eapply exec_mfcr_ok; eassumption
  | exec_mtcrf _ _ = _ => eapply exec_mtcrf_ok; eassumption
  | exec_addi _ _ _ _ = _ => eapply exec_addi_ok; eassumption
  | exec_ori _ _ = _ => eapply exec_ori_ok; eassumption
  | exec_add _ _ _ = _ => eapply exec_add_ok; eassumption
  | exec_unary _ _ _ = _ => eapply exec_unary_ok; eassumption
  | exec_shift _ _ _ = _ => eapply exec_shift_ok; eassumption
  | exec_sraw _ _ _ = _ => eapply exec_sraw_ok; eassumption
  | exec_subtract _ _ _ = _ => eapply exec_subtract_ok; eassumption
  | exec_addic _ _ _ = _ => eapply exec_addic_ok; eassumption
  | exec_andi _ _ _ = _ => eapply exec_andi_ok; eassumption
  | exec_subfic _ _ = _ => eapply exec_subfic_ok; eassumption
  | exec_rlwimi _ _ = _ => eapply exec_rlwimi_ok; eassumption
  | exec_mem _ _ _ _ = _ => eapply exec_mem_ok; eassumption
  | exec_compare _ _ _ = _ => eapply exec_compare_ok; eassumption
  | exec_spr _ _ _ = _ => eapply exec_spr_ok; eassumption
  end.

Lemma exec_data_ok BASE p op a : op_fields (op, a) = true -> exec_data BASE p op a s = Ok s' -> state_ok s'.
Proof using Hs.
  intros Hf. unfold exec_data.
  repeat match goal with |- (if ?c then _ else _) = Ok _ -> _ => let E := fresh "E" in destruct c eqn:E end;
    intros Hrun; repeat match goal with E : String.eqb _ _ = true |- _ => apply String.eqb_eq in E; subst end;
    try (by_exec Hrun).
  - apply Ok_inj in Hrun. subst. exact Hs.
  - discriminate.
Qed.

End Exec.

Lemma exec_ok BASE p op a s s' :
  state_ok s -> op_fields (op, a) = true -> word (pc s + 4) -> exec BASE p op a s = Ok s' -> state_ok s'.
Proof.
  intros Hs Hf Hpc. unfold exec. case_if; [apply exec_branch_ok; assumption |]. intros H.
  destruct (exec_data BASE p op a s) as [t |] eqn:Ed; [| discriminate]. apply Ok_inj in H. subst.
  apply with_pc_ok, (exec_data_ok s t Hs BASE p op a Hf Ed).
Qed.

(** ** Whole runs *)
(** Every operation's fields are in range and the program is below [2^32] bytes. *)
Definition program_ok (p : Program) : bool :=
  forallb op_fields (ops p) && (Z.of_nat (length (ops p)) <? 2 ^ 30).

(** A recorded row: the address of an operation, its word, then words. *)
Definition row_ok (p : Program) (row : list Z) : Prop :=
  exists k word' rest, row = (4 * Z.of_nat k) :: word' :: rest /\ (k < length (ops p))%nat /\
    length rest = 37%nat /\ Forall word rest.

Lemma fetch_inv p pc op a :
  fetch p pc = Ok (op, a) -> exists k, pc = 4 * Z.of_nat k /\ (k < length (ops p))%nat /\ ops p !! k = Some (op, a).
Proof.
  unfold fetch. case_if; [| discriminate]. rewrite !andb_true_iff, Z.eqb_eq, Z.leb_le, Z.ltb_lt in E.
  destruct E as [[E1 E2] E3]. destruct (ops p !! Z.to_nat (pc / 4)) eqn:El; [| discriminate]. intros [= ->].
  exists (Z.to_nat (pc / 4)). split; [| split; [lia | exact El]].
  rewrite Z2Nat.id by exact E2. pose proof (Z.div_mod pc 4). lia.
Qed.

Lemma digest_word m : word (digest m).
Proof. unfold digest. apply fold_word; [intros; apply word_mask | split; [lia | reflexivity]]. Qed.

Lemma program_step_ok BASE p s s' row op :
  program_ok p = true -> state_ok s -> step BASE p s = Ok (s', row, op) ->
  state_ok s' /\ row_ok p row /\ exists k a, pc s = 4 * Z.of_nat k /\ ops p !! k = Some (op, a).
Proof.
  intros Hp Hs. unfold step. destruct (fetch p (pc s)) as [[op' a] |] eqn:Ef; [| discriminate].
  destruct (fetch_inv _ _ _ _ Ef) as (k & Epc & Hk & Ek).
  destruct (encode p (pc s) op' a) as [w |]; [| discriminate].
  destruct (exec BASE p op' a s) as [t |] eqn:Ex; [| discriminate]. intros [= <- <- <-].
  unfold program_ok in Hp. apply andb_true_iff in Hp. destruct Hp as [Hf Hlen]. apply Z.ltb_lt in Hlen.
  rewrite forallb_forall in Hf.
  assert (Hs' : state_ok t).
  { apply (exec_ok BASE p op' a s t); [exact Hs | | | exact Ex].
    - apply Hf. apply list_elem_of_In, (list_elem_of_lookup_2 _ _ _ Ek).
    - unfold word. rewrite Epc. lia. }
  split; [exact Hs' |]. split; [| eauto]. destruct Hs' as [L R C X LR CT ML M].
  exists k, w, (regs t ++ [cr t; xer t; lr t; ctr t; digest (mem t)]).
  split; [unfold snapshot; rewrite Epc; reflexivity |]. split; [exact Hk |].
  split; [rewrite length_app, L; reflexivity |].
  apply Forall_app_2; [exact R |]. repeat (apply Forall_cons_2; [first [assumption | apply digest_word] |]). apply Forall_nil_2.
Qed.

Lemma initial_ok : state_ok initial.
Proof.
  constructor; cbn [regs cr xer lr ctr mem initial].
  - reflexivity.
  - apply Forall_forall. intros x Hx. apply list_elem_of_In, repeat_spec in Hx. subst. split; [lia | reflexivity].
  - split; [lia | reflexivity].
  - split; [lia | reflexivity].
  - split; [lia | reflexivity].
  - split; [lia | reflexivity].
  - reflexivity.
  - apply Forall_forall. intros x Hx. apply list_elem_of_In, in_map_iff in Hx. destruct Hx as (i & <- & _).
    apply (low_bits _ 8). lia.
Qed.

Lemma run_ok BASE p limit : forall s c rows c',
  program_ok p = true -> state_ok s -> c !! "illegal"%string = None ->
  run BASE p limit s c = Ok (rows, c') ->
  Forall (row_ok p) rows /\ (1 <= length rows <= limit)%nat /\ c' !! "illegal"%string = Some 1.
Proof.
  induction limit as [| limit IH]; intros s c rows c' Hp Hs Hc; cbn [run]; [discriminate |].
  destruct (step BASE p s) as [[[s1 row] op] |] eqn:Es; [| discriminate].
  destruct (program_step_ok _ _ _ _ _ _ Hp Hs Es) as (Hs1 & Hrow & _). cbv zeta.
  destruct (String.eqb_spec op "illegal") as [-> | Hop].
  - intros H. apply Ok_inj, pair_equal_spec in H. destruct H as [<- <-]. split; [constructor; [exact Hrow | constructor] |]. split; [cbn; lia |].
    unfold bump. rewrite lookup_insert_eq, Hc. reflexivity.
  - destruct (run BASE p limit s1 (bump c op)) as [[rows1 c1] |] eqn:Er; [| discriminate].
    intros H. apply Ok_inj, pair_equal_spec in H. destruct H as [<- <-].
    destruct (IH s1 (bump c op) rows1 c1 Hp Hs1) as (Hr & Hl & Hi); [| exact Er |].
    + unfold bump. rewrite lookup_insert_ne by congruence. exact Hc.
    + split; [constructor; assumption |]. split; [cbn; lia | exact Hi].
Qed.

(** A program whose CR fields and [ori] immediates are in range only ever
    shows words: when [simulate] returns, it recorded between one and [limit]
    rows, each the address and word of an operation of the program followed by
    37 values that fit 32 bits (the registers, CR, XER, LR, CTR and the memory
    digest), and it executed exactly one [illegal], the last. *)
Theorem simulate_records_words BASE p limit rows c :
  program_ok p = true -> simulate BASE p limit = Ok (rows, c) ->
  Forall (row_ok p) rows /\ (1 <= length rows <= limit)%nat /\ c !! "illegal"%string = Some 1.
Proof. intros Hp H. exact (run_ok BASE p limit initial ∅ rows c Hp initial_ok (lookup_empty _) H). Qed.

Definition tiny_program : Program :=
  {| ops := [("addi", [I 1; I 0; I (-1)]); ("ori", [I 2; I 1; I 7]); ("illegal", [])]%string; labels := ∅; folds := [] |}.

Lemma simulate_records_words_witness :
  exists rows c, simulate 0x1000 tiny_program 2000 = Ok (rows, c) /\ Forall (row_ok tiny_program) rows /\
    (1 <= length rows <= 2000)%nat /\ c !! "illegal"%string = Some 1.
Proof.
  eexists _, _. split; [vm_compute; reflexivity |].
  apply (simulate_records_words 0x1000 tiny_program 2000); vm_compute; reflexivity.
Defined.
