(* ===== verification/ProgramFamilies.v ===== *)
(** * The program oracle and the family oracles

    [simulate] walks bits where the family modules use shifts and masks, and
    keeps its flags inside XER and CR where they pass them as arguments. Here
    the two agree, instruction by instruction. *)
From S2P Require Import Prelude ExecResult AddFamily ShiftFamily RotateFamily CompareFamily.
From S2P Require Import ProgramOracle ProgramInvariant.
Import program.

(** ** Flags inside XER and CR *)
Definition ov_of (x : Z) : Z := Z.land (Z.shiftr x 30) 1.
Definition so_of (x : Z) : Z := Z.shiftr x 31.
Definition cr0_of (c : Z) : Z := Z.shiftr c 28.

(** [s'] is [s] with [v] in register [d], the given flags and CR0, and nothing
    else changed. *)
Record performs (s : state) (d v ca ov so cr0 : Z) (s' : state) : Prop := {
  pf_regs : regs s' = <[Z.to_nat d := v]> (regs s);
  pf_ca : carry_of (xer s') = ca;
  pf_ov : ov_of (xer s') = ov;
  pf_so : so_of (xer s') = so;
  pf_cr0 : cr0_of (cr s') = cr0;
  pf_xer : Z.land (xer s') (Z.ones 29) = Z.land (xer s) (Z.ones 29);
  pf_cr : Z.land (cr s') (Z.ones 28) = Z.land (cr s) (Z.ones 28);
  pf_other : lr s' = lr s /\ ctr s' = ctr s /\ pc s' = pc s /\ mem s' = mem s
}.

Lemma land_one x k : 0 <= k -> Z.land (Z.shiftr x k) 1 = Z.b2z (Z.testbit x k).
Proof.
  intros Hk. change 1 with (Z.ones 1) at 1. rewrite Z.land_ones, Z.shiftr_div_pow2, Z.pow_1_r by lia.
  symmetry. apply Z.testbit_spec'. exact Hk.
Qed.

Lemma so_of_testbit x : word x -> so_of x = Z.b2z (Z.testbit x 31).
Proof.
  intros Hx. unfold so_of, word in *. rewrite testbit_top by (const_pow; lia). rewrite Z.shiftr_div_pow2 by lia.
  destruct (Z.leb_spec (2 ^ 31) x); cbn [Z.b2z].
  - symmetry. apply Z.div_unique with (x - 2 ^ 31); const_pow; lia.
  - apply Z.div_small. lia.
Qed.

Lemma land_low_eq x y n :
  0 <= n -> (forall i, 0 <= i < n -> Z.testbit x i = Z.testbit y i) -> Z.land x (Z.ones n) = Z.land y (Z.ones n).
Proof.
  intros Hn H. apply Z.bits_inj'. intros i Hi. rewrite !Z.land_spec, !testbit_ones by lia.
  destruct (Z.ltb_spec i n); [rewrite H by lia |]; rewrite ?andb_false_r; reflexivity.
Qed.

Lemma testbit_set_carry c s i :
  0 <= i -> Z.testbit (xer (set_carry c s)) i = if i =? 29 then c else Z.testbit (xer s) i.
Proof.
  intros Hi. cbn [set_carry xer with_xer].
  rewrite Z.lor_spec, Z.land_spec, Z.lnot_spec, testbit_shiftl_one, Z.shiftl_spec by lia.
  destruct (Z.eqb_spec i 29) as [-> |].
  - rewrite Z.sub_diag, Z.b2z_bit0. cbn. rewrite andb_false_r. reflexivity.
  - rewrite (proj2 (Z.eqb_neq 29 i)) by lia. cbn [negb]. rewrite andb_true_r.
    destruct (Z.ltb_spec (i - 29) 0); [rewrite (Z.testbit_neg_r (Z.b2z c)) by lia; apply orb_false_r |].
    rewrite (testbit_high (Z.b2z c) 1); [apply orb_false_r | destruct c; cbn [Z.b2z]; lia | lia].
Qed.

Lemma set_carry_flags c s :
  word (xer s) ->
  carry_of (xer (set_carry c s)) = Z.b2z c /\ ov_of (xer (set_carry c s)) = ov_of (xer s) /\
  so_of (xer (set_carry c s)) = so_of (xer s) /\
  Z.land (xer (set_carry c s)) (Z.ones 29) = Z.land (xer s) (Z.ones 29).
Proof.
  intros Hx. unfold carry_of, ov_of.
  assert (Hw : word (xer (set_carry c s))).
  { apply word_lor; [apply word_land, Hx | apply word_bit; lia]. }
  rewrite !land_one, !so_of_testbit, !testbit_set_carry by (assumption || lia). cbn [Z.eqb Pos.eqb].
  repeat split. apply land_low_eq; [lia |]. intros i Hi. rewrite testbit_set_carry by lia.
  destruct (Z.eqb_spec i 29); [lia | reflexivity].
Qed.

Lemma cr_field_relation v x : cr_field v x = Z.lor (cr0_relation v) (so_of x).
Proof.
  unfold cr_field, cr0_relation, so_of. change (Z.shiftl 1 31) with 0x80000000. f_equal.
  unfold truthy. destruct (Z.land v 2147483648 =? 0); cbn [negb]; [| reflexivity].
  destruct (v =? 0); reflexivity.
Qed.

Lemma record_cr0_of s v :
  word (xer s) ->
  cr0_of (cr (record_cr0 s v)) = Z.lor (cr0_relation v) (so_of (xer s)) /\
  Z.land (cr (record_cr0 s v)) (Z.ones 28) = Z.land (cr s) (Z.ones 28).
Proof.
  intros Hx. cbn [record_cr0 cr with_cr]. rewrite <- cr_field_relation.
  pose proof (cr_field_range v (xer s) Hx) as Hf. set (f := cr_field v (xer s)) in *. unfold cr0_of.
  change 0x0fffffff with (Z.ones 28).
  split.
  - rewrite Z.shiftr_lor, Z.shiftr_shiftl_l, Z.shiftr_land, Z.shiftl_0_r by lia.
    change (Z.shiftr (Z.ones 28) 28) with 0. rewrite Z.land_0_r. reflexivity.
  - apply land_low_eq; [lia |]. intros i Hi. rewrite Z.lor_spec, Z.land_spec, testbit_ones, Z.shiftl_spec by lia.
    rewrite (proj2 (Z.ltb_lt i 28)), (Z.testbit_neg_r f) by lia. rewrite andb_true_r. apply orb_false_r.
Qed.

(** Writing a register and perhaps CR0. *)
Lemma write_record_performs s1 s d v rc :
  state_ok s -> regs s1 = regs s -> cr s1 = cr s -> word (xer s1) ->
  Z.land (xer s1) (Z.ones 29) = Z.land (xer s) (Z.ones 29) ->
  lr s1 = lr s /\ ctr s1 = ctr s /\ pc s1 = pc s /\ mem s1 = mem s -> 0 <= d < 32 ->
  exists t, write_reg s1 d v = Ok t /\
    performs s d v (carry_of (xer s1)) (ov_of (xer s1)) (so_of (xer s1))
      (if truthy rc then Z.lor (cr0_relation v) (so_of (xer s1)) else cr0_of (cr s)) (if_rc rc v t).
Proof.
  intros Hs Hr Hc Hx Hx' Ho Hd. unfold write_reg, py_set, py_index. rewrite Hr, (ok_len s Hs).
  change (Z.of_nat 32) with 32. rewrite (proj2 (in_range_iff 0 32 d) Hd).
  eexists. split; [reflexivity |]. unfold if_rc. set (t := with_regs s1 _).
  destruct (truthy rc).
  - destruct (record_cr0_of t v) as [E1 E2]; [exact Hx |].
    constructor; try reflexivity; try exact Hx'; try exact Ho; [exact E1 |]. rewrite E2. cbn [cr t with_regs].
    rewrite Hc. reflexivity.
  - constructor; try reflexivity; try exact Hx'; try exact Ho; cbn [cr t with_regs]; rewrite Hc; reflexivity.
Qed.

(** ** The bit walks *)
Lemma fold_left_ext_in {A B} (f g : A -> B -> A) l a :
  (forall x y, In y l -> f x y = g x y) -> fold_left f l a = fold_left g l a.
Proof.
  revert a. induction l as [| b l IH]; intros a H; [reflexivity |]. cbn. rewrite H by (left; reflexivity).
  apply IH. intros x y Hy. apply H. right. exact Hy.
Qed.

(** Collecting bits [f d] at positions [d]. *)
Lemma fold_bits (f : Z -> bool) l v i :
  (forall d, In d l -> 0 <= d) -> 0 <= i ->
  Z.testbit (fold_left (fun v d => Z.lor v (Z.shiftl (Z.b2z (f d)) d)) l v) i =
  Z.testbit v i || existsb (fun d => (d =? i) && f d) l.
Proof.
  revert v. induction l as [| d l IH]; intros v Hl Hi; cbn [fold_left existsb]; [rewrite orb_false_r; reflexivity |].
  rewrite IH by (try assumption; intros; apply Hl; right; assumption).
  rewrite Z.lor_spec, orb_assoc. do 2 f_equal. assert (0 <= d) by (apply Hl; left; reflexivity).
  destruct (f d); cbn [Z.b2z]; [rewrite testbit_shiftl_one, andb_true_r by lia; reflexivity |].
  rewrite Z.shiftl_0_l, Z.bits_0, andb_false_r. reflexivity.
Qed.

Lemma existsb_range (f : Z -> bool) i : existsb (fun d => (d =? i) && f d) (seqZ 0 32) = (0 <=? i) && (i <? 32) && f i.
Proof.
  apply Bool.eq_iff_eq_true. rewrite existsb_exists, !andb_true_iff, Z.leb_le, Z.ltb_lt. split.
  - intros (d & Hd & H). apply in_seqZ in Hd. apply andb_true_iff in H. destruct H as [H1 H2].
    apply Z.eqb_eq in H1. subst. split; [lia | exact H2].
  - intros [[H1 H2] H3]. exists i. rewrite Z.eqb_refl. split; [| exact H3].
    apply list_elem_of_In, elem_of_seqZ. lia.
Qed.

Lemma fold_bits_32 (f : Z -> bool) i :
  0 <= i -> Z.testbit (fold_left (fun v d => Z.lor v (Z.shiftl (Z.b2z (f d)) d)) (seqZ 0 32) 0) i = (i <? 32) && f i.
Proof.
  intros Hi. rewrite fold_bits, Z.bits_0, existsb_range by (try assumption; intros d Hd; apply in_seqZ in Hd; lia).
  rewrite (proj2 (Z.leb_le 0 i)) by lia. reflexivity.
Qed.

Lemma select_bits_testbit left source count i :
  0 <= i -> Z.testbit (select_bits left source count) i =
  (i <? 32) && (let o := if left then i - count else i + count in (0 <=? o) && (o <? 32) && Z.testbit source o).
Proof.
  intros Hi. unfold select_bits.
  etransitivity; [| exact (fold_bits_32 (fun i => let o := if left then i - count else i + count in
                                (0 <=? o) && (o <? 32) && Z.testbit source o) i Hi)].
  f_equal. apply fold_left_ext_in. intros v d Hd. cbv zeta. set (o := if left then _ else _).
  destruct (Z.leb_spec 0 o), (Z.ltb_spec o 32); cbn [andb Z.b2z]; rewrite ?Z.shiftl_0_l, ?Z.lor_0_r; try reflexivity.
  rewrite land_one by lia. reflexivity.
Qed.

Lemma arithmetic_bits_testbit source count i :
  0 <= i -> 0 <= count ->
  Z.testbit (arithmetic_bits source count (Z.land (Z.shiftr source 31) 1)) i =
  (i <? 32) && Z.testbit source (if i + count <? 32 then i + count else 31).
Proof.
  intros Hi Hc. unfold arithmetic_bits.
  etransitivity; [| exact (fold_bits_32 (fun i => Z.testbit source (if i + count <? 32 then i + count else 31)) i Hi)].
  f_equal. apply fold_left_ext_in. intros v d Hd. apply in_seqZ in Hd. cbv zeta.
  destruct (Z.ltb_spec (d + count) 32); rewrite land_one by lia; reflexivity.
Qed.

(** The walks are the shifts the family oracle computes. *)
Lemma word_bits_eq x y : word x -> word y -> (forall i, 0 <= i < 32 -> Z.testbit x i = Z.testbit y i) -> x = y.
Proof.
  intros Hx Hy H. apply Z.bits_inj'. intros i Hi. destruct (Z.ltb_spec i 32); [apply H; lia |].
  rewrite (testbit_high x 32), (testbit_high y 32) by assumption. reflexivity.
Qed.

Lemma select_left x n : word x -> 0 <= n -> select_bits true x n = x * 2 ^ n mod 2 ^ 32.
Proof.
  intros Hx Hn. apply word_bits_eq; [apply select_bits_word | apply Z.mod_pos_bound; lia |]. intros i Hi.
  rewrite select_bits_testbit, Z.mod_pow2_bits_low, Z.mul_pow2_bits by lia. cbv zeta.
  rewrite (proj2 (Z.ltb_lt i 32)), (proj2 (Z.ltb_lt (i - n) 32)), andb_true_r by lia. cbn [andb].
  destruct (Z.leb_spec 0 (i - n)); [reflexivity |]. rewrite Z.testbit_neg_r by lia. reflexivity.
Qed.

Lemma select_right x n : word x -> 0 <= n -> select_bits false x n = x mod 2 ^ 32 / 2 ^ n.
Proof.
  intros Hx Hn. rewrite (Z.mod_small x) by exact Hx. apply word_bits_eq.
  - apply select_bits_word.
  - rewrite <- Z.shiftr_div_pow2 by lia. apply word_shiftr; assumption.
  - intros i Hi. rewrite select_bits_testbit, Z.div_pow2_bits by lia. cbv zeta.
    rewrite (proj2 (Z.ltb_lt i 32)), (proj2 (Z.leb_le 0 (i + n))) by lia. cbn [andb].
    destruct (Z.ltb_spec (i + n) 32); [reflexivity |]. rewrite (testbit_high x 32) by assumption. reflexivity.
Qed.

Lemma signed_testbit x i : word x -> 0 <= i -> Z.testbit (to_signed32 x) i = Z.testbit x (if i <? 32 then i else 31).
Proof.
  intros Hx Hi. destruct (Z.ltb_spec i 32) as [Hlt | Hge].
  - rewrite <- (Z.mod_pow2_bits_low (to_signed32 x) 32 i), to_signed32_mod, Z.mod_small by (exact Hx || lia). reflexivity.
  - unfold word in Hx. rewrite (testbit_top x 31) by (const_pow; lia).
    rewrite to_signed32_spec, Z.mod_small by lia. destruct (Z.leb_spec (2 ^ 31) x).
      replace (x - 2 ^ 32) with (- (2 ^ 32 - x)) by ring. rewrite Z.bits_opp by lia.
      rewrite (testbit_high _ 32) by lia. reflexivity.
    + apply (testbit_high x 32); lia.
Qed.

Lemma arithmetic_shift x n : word x -> 0 <= n -> arithmetic_bits x n (Z.land (Z.shiftr x 31) 1) = (to_signed32 x / 2 ^ n) mod 2 ^ 32.
Proof.
  intros Hx Hn. apply word_bits_eq; [apply arithmetic_bits_word | apply Z.mod_pos_bound; lia |]. intros i Hi.
  rewrite arithmetic_bits_testbit, Z.mod_pow2_bits_low, Z.div_pow2_bits, signed_testbit by (exact Hx || lia).
  rewrite (proj2 (Z.ltb_lt i 32)) by lia. reflexivity.
Qed.

Lemma low_bits_exist x n : 0 <= n -> existsb (fun b => truthy (Z.land (Z.shiftr x b) 1)) (seqZ 0 n) = negb (x mod 2 ^ n =? 0).
Proof.
  intros Hn. pose proof (Z.pow_pos_nonneg 2 n ltac:(lia) Hn). apply Bool.eq_iff_eq_true.
  rewrite existsb_exists, negb_true_iff, Z.eqb_neq. split.
  - intros (b & Hb & Ht) Hz. apply in_seqZ in Hb. rewrite land_one, truthy_b2z in Ht by lia.
    rewrite <- (Z.mod_pow2_bits_low x n b), Hz, Z.bits_0 in Ht by lia. discriminate.
  - intros Hz. destruct (Z.bits_inj_iff' (x mod 2 ^ n) 0) as [Hbits _].
    destruct (existsb (fun b => Z.testbit (x mod 2 ^ n) b) (seqZ 0 n)) eqn:E.
    + apply existsb_exists in E. destruct E as (b & Hb & Ht). exists b. split; [exact Hb |].
      apply in_seqZ in Hb. rewrite land_one, truthy_b2z by lia. rewrite Z.mod_pow2_bits_low in Ht by lia. exact Ht.
    + exfalso. apply Hz. apply Z.bits_inj'. intros b Hb. rewrite Z.bits_0.
      destruct (Z.ltb_spec b n); [| apply Z.mod_pow2_bits_high; lia].
      destruct (Z.testbit (x mod 2 ^ n) b) eqn:Eb; [| reflexivity]. rewrite <- E. symmetry.
      apply existsb_exists. exists b. split; [apply list_elem_of_In, elem_of_seqZ; lia | exact Eb].
Qed.

Lemma negative_testbit x : word x -> truthy (Z.land (Z.shiftr x 31) 1) = (to_signed32 x <? 0).
Proof.
  unfold word. intros Hx. rewrite land_one, truthy_b2z, (testbit_top x 31) by (const_pow; lia).
  rewrite to_signed32_spec, Z.mod_small by lia. destruct (Z.leb_spec (2 ^ 31) x); symmetry; [apply Z.ltb_lt | apply Z.ltb_ge]; lia.
Qed.

Lemma discarded_carry x n :
  word x -> 0 <= n ->
  truthy (Z.land (Z.shiftr x 31) 1) && existsb (fun b => truthy (Z.land (Z.shiftr x b) 1)) (seqZ 0 (Z.min n 32)) =
  (to_signed32 x <? 0) && negb (to_signed32 x mod 2 ^ n =? 0).
Proof.
  intros Hx Hn. rewrite negative_testbit, low_bits_exist by (assumption || lia).
  destruct (Z.ltb_spec (to_signed32 x) 0) as [Hneg |]; [| reflexivity]. cbn [andb]. f_equal.
  destruct (Z.leb_spec n 32).
  - rewrite Z.min_l, signed_mod_low by lia. reflexivity.
  - rewrite Z.min_r by lia. pose proof (to_signed32_range x). unfold word in Hx.
    assert (2 ^ 32 <= 2 ^ n) by (apply Z.pow_le_mono_r; lia).
    rewrite Z.mod_small by lia. rewrite <- (Z.mod_unique (to_signed32 x) (2 ^ n) (-1) (to_signed32 x + 2 ^ n)) by lia.
    rewrite to_signed32_spec, Z.mod_small in Hneg by lia. destruct (Z.leb_spec (2 ^ 31) x); [| lia].
    rewrite !(proj2 (Z.eqb_neq _ 0)) by lia. reflexivity.
Qed.

(** ** Instructions *)
Definition reg (s : state) (r : Z) : Z := nth (Z.to_nat r) (regs s) 0.

Lemma reg_get s r : state_ok s -> 0 <= r < 32 -> py_get (regs s) r = Ok (reg s r) /\ word (reg s r).
Proof.
  intros Hs Hr. assert (E : py_get (regs s) r = Ok (reg s r)).
  { unfold py_get, py_index, reg. rewrite (ok_len s Hs). change (Z.of_nat 32) with 32.
    rewrite (proj2 (in_range_iff 0 32 r) Hr). destruct (regs s !! Z.to_nat r) eqn:El.
    - rewrite (nth_lookup_Some _ _ _ _ El). reflexivity.
    - apply lookup_ge_None_1 in El. rewrite (ok_len s Hs) in El. lia. }
  split; [exact E |]. exact (py_get_word _ _ _ (ok_regs s Hs) E).
Qed.

(** The flags of a state, as the family oracles take them. *)
Definition flags_ok s : state_ok s ->
  is_flag (carry_of (xer s)) = true /\ is_flag (ov_of (xer s)) = true /\ is_flag (so_of (xer s)) = true /\
  0 <= cr0_of (cr s) < 16.
Proof.
  intros Hs. unfold carry_of, ov_of. rewrite !land_one, so_of_testbit by (lia || apply Hs).
  rewrite !is_flag_b2z. repeat split; unfold cr0_of; rewrite Z.shiftr_div_pow2 by lia;
    pose proof (ok_cr s Hs) as Hc; unfold word in Hc; [apply Z.div_pos; lia | apply Z.div_lt_upper_bound; lia].
Qed.

Section Shifts.
Import shift_family.

Lemma exec_data_shift BASE p op a s :
  dict_mem XO op = true ->
  exec_data BASE p op a s = if str_in op ["slw"; "srw"]%string then exec_shift op a s else exec_sraw op a s.
Proof. intros Hop. dict_cases Hop; reflexivity. Qed.

(** The word and carry both oracles give a shift. *)
Lemma exec_shift_spec op s d r b rc :
  state_ok s -> op = "slw"%string \/ op = "srw"%string -> 0 <= d < 32 -> 0 <= r < 32 -> 0 <= b < 32 ->
  let v := fst (shift_spec op (reg s r) (reg s b mod 64) 0) in
  exec_shift op [I d; I r; I b; I rc] s = (let! t := write_reg s d v in Ok (if_rc rc v t)).
Proof.
  intros Hs Hop Hd Hr Hb. destruct (reg_get s r Hs Hr) as [Er Wr]. destruct (reg_get s b Hs Hb) as [Eb Wb].
  pose proof (Z.mod_pos_bound (reg s b) 64 ltac:(lia)) as Hm.
  unfold exec_shift. change (unpack4 [I d; I r; I b; I rc]) with (@Ok (Z * Z * Z * Z) (d, r, b, rc)). cbv iota beta.
  rewrite Er, Eb. destruct Hop as [-> | ->]; cbv zeta.
  - change (String.eqb "slw" "slw") with true. rewrite select_left by (assumption || lia). reflexivity.
  - change (String.eqb "srw" "slw") with false. rewrite select_right by (assumption || lia). reflexivity.
Qed.

Lemma exec_sraw_spec op s d r b rc :
  state_ok s -> op = "sraw"%string \/ op = "srawi"%string -> 0 <= d < 32 -> 0 <= r < 32 -> 0 <= b < 32 ->
  let n := if String.eqb op "srawi" then b else reg s b mod 64 in
  let v := (to_signed32 (reg s r) / 2 ^ n) mod 2 ^ 32 in
  exec_sraw op [I d; I r; I b; I rc] s =
  (let! t := write_reg (set_carry ((to_signed32 (reg s r) <? 0) && negb (to_signed32 (reg s r) mod 2 ^ n =? 0)) s) d v in
   Ok (if_rc rc v t)).
Proof.
  intros Hs Hop Hd Hr Hb. destruct (reg_get s r Hs Hr) as [Er Wr]. destruct (reg_get s b Hs Hb) as [Eb Wb].
  pose proof (Z.mod_pos_bound (reg s b) 64 ltac:(lia)) as Hm.
  unfold exec_sraw. change (unpack4 [I d; I r; I b; I rc]) with (@Ok (Z * Z * Z * Z) (d, r, b, rc)). cbv iota beta.
  rewrite Er. destruct Hop as [-> | ->]; cbv zeta.
  - change (String.eqb "sraw" "srawi") with false. cbv iota. rewrite Eb, arithmetic_shift, discarded_carry by (assumption || lia).
    reflexivity.
  - change (String.eqb "srawi" "srawi") with true. cbv iota. rewrite arithmetic_shift, discarded_carry by (assumption || lia).
    reflexivity.
Qed.

Lemma shift_agrees BASE p s op d r b rc :
  state_ok s -> dict_mem XO op = true -> 0 <= d < 32 -> 0 <= r < 32 -> 0 <= b < 32 -> is_flag rc = true ->
  exists s' res,
    exec_data BASE p op [I d; I r; I b; I rc] s = Ok s' /\
    evaluate op (reg s r) (if String.eqb op "srawi" then b else reg s b) rc
      (carry_of (xer s)) (ov_of (xer s)) (so_of (xer s)) (cr0_of (cr s)) = Ok res /\
    performs s d (value res) (ca res) (ov res) (so res) (cr0 res) s'.
Proof.
  intros Hs Hop Hd Hr Hb Hrc. destruct (flags_ok s Hs) as (F1 & F2 & F3 & F4).
  assert (Hargs : shift_args_ok op (if String.eqb op "srawi" then b else reg s b) rc
                    (carry_of (xer s)) (ov_of (xer s)) (so_of (xer s)) (cr0_of (cr s)) = true).
  { unfold shift_args_ok. rewrite Hop, Hrc, F1, F2, F3, (proj2 (in_range_iff 0 16 _) F4). cbn [andb].
    destruct (String.eqb op "srawi"); [| reflexivity]. apply in_range_iff. exact Hb. }
  rewrite (shift_evaluate_eq _ _ _ _ _ _ _ _ Hargs), exec_data_shift by exact Hop. cbv zeta.
  destruct (String.eqb op "slw" || String.eqb op "srw") eqn:Elog.
  - apply orb_true_iff in Elog. rewrite !String.eqb_eq in Elog.
    assert (Ein : str_in op ["slw"; "srw"]%string = true) by (destruct Elog as [-> | ->]; reflexivity).
    rewrite Ein, exec_shift_spec by assumption. cbv zeta.
    set (v := fst (shift_spec op (reg s r) (reg s b mod 64) 0)).
    destruct (write_record_performs s s d v rc) as (t & -> & Pt); try assumption; try reflexivity; [apply Hs | auto |].
    eexists _, _. split; [reflexivity |]. split; [reflexivity |]. cbn [value ca ov so cr0].
    assert (Ev : shift_spec op (reg s r) (shift_count op (if String.eqb op "srawi" then b else reg s b)) (carry_of (xer s))
                 = (v, carry_of (xer s))) by (subst v; destruct Elog as [-> | ->]; reflexivity).
    rewrite Ev. exact Pt.
  - assert (Hop' : op = "sraw"%string \/ op = "srawi"%string) by (dict_cases Hop; auto; discriminate).
    assert (Ein : str_in op ["slw"; "srw"]%string = false) by (destruct Hop' as [-> | ->]; reflexivity).
    rewrite Ein, exec_sraw_spec by assumption. cbv zeta. set (n := if String.eqb op "srawi" then b else reg s b mod 64).
    set (c := _ && _). set (v := _ mod 2 ^ 32).
    destruct (set_carry_flags c s (ok_xer s Hs)) as (C1 & C2 & C3 & C4).
    destruct (write_record_performs (set_carry c s) s d v rc) as (t & -> & Pt); try assumption; try reflexivity; [| auto |].
    { apply (set_carry_ok c s Hs). }
    eexists _, _. split; [reflexivity |]. split; [reflexivity |]. cbn [value ca ov so cr0].
    assert (Ev : shift_spec op (reg s r) (shift_count op (if String.eqb op "srawi" then b else reg s b)) (carry_of (xer s))
                 = (v, Z.b2z c)) by (subst v c n; destruct Hop' as [-> | ->]; reflexivity).
    rewrite Ev. cbn [fst snd]. rewrite C1, C2, C3 in Pt. exact Pt.
Qed.
End Shifts.

Section Rotates.
Import rotate_family.

(** Replacing bits at [31-d]. *)
Lemma fold_put (c g : Z -> bool) n v i :
  0 <= i < 32 -> Z.of_nat n <= 32 ->
  Z.testbit (fold_left (fun v d =>
      if c d then Z.lor (Z.land v (Z.lnot (Z.shiftl 1 (31 - d)))) (Z.shiftl (Z.b2z (g d)) (31 - d)) else v)
    (seqZ 0 (Z.of_nat n)) v) i =
  if (31 - i <? Z.of_nat n) && c (31 - i) then g (31 - i) else Z.testbit v i.
Proof.
  intros Hi. induction n as [| n IH]; intros Hn.
  { cbn [seqZ fold_left]. rewrite (proj2 (Z.ltb_ge (31 - i) (Z.of_nat 0))) by lia. reflexivity. }
  replace (Z.of_nat (S n)) with (Z.of_nat n + 1) by lia. rewrite seqZ_app by lia. rewrite fold_left_app.
  specialize (IH ltac:(lia)). set (w := fold_left _ (seqZ 0 (Z.of_nat n)) v) in *.
  change (seqZ (0 + Z.of_nat n) 1) with [0 + (0 + Z.of_nat n)]. cbn [fold_left]. rewrite !Z.add_0_l.
  destruct (Z.eqb_spec (31 - i) (Z.of_nat n)) as [E | E].
  - rewrite E, (proj2 (Z.ltb_lt _ _)) by lia. cbn [andb]. rewrite E, Z.ltb_irrefl in IH. cbn [andb] in IH.
    destruct (c (Z.of_nat n)); [| exact IH].
    rewrite Z.lor_spec, Z.land_spec, Z.lnot_spec, testbit_shiftl_one, Z.shiftl_spec by lia.
    replace (31 - Z.of_nat n) with i by lia. rewrite Z.eqb_refl, Z.sub_diag, Z.b2z_bit0. cbn [negb].
    rewrite andb_false_r. reflexivity.
  - assert (Hlt : (31 - i <? Z.of_nat n + 1) = (31 - i <? Z.of_nat n)).
    { destruct (Z.ltb_spec (31 - i) (Z.of_nat n)), (Z.ltb_spec (31 - i) (Z.of_nat n + 1)); lia || reflexivity. }
    rewrite Hlt, <- IH. destruct (c (Z.of_nat n)); [| reflexivity].
    rewrite Z.lor_spec, Z.land_spec, Z.lnot_spec, testbit_shiftl_one, Z.shiftl_spec by lia.
    rewrite (proj2 (Z.eqb_neq _ _)) by lia. cbn [negb]. rewrite andb_true_r.
    destruct (Z.ltb_spec (i - (31 - Z.of_nat n)) 0); [rewrite (Z.testbit_neg_r (Z.b2z _)) by lia; apply orb_false_r |].
    rewrite (testbit_high (Z.b2z _) 1); [apply orb_false_r | | clear - E H; lia].
    destruct (g (Z.of_nat n)); split; reflexivity || discriminate.
Qed.

Lemma in_mask_mod mb me j : 0 <= mb < 32 -> 0 <= me < 32 -> 0 <= j < 32 ->
  ((j - mb) mod 32 <=? (me - mb) mod 32) = in_mask mb me j.
Proof.
  intros. rewrite !mod32_neg by lia. unfold in_mask.
  destruct (Z.ltb_spec (j - mb) 0), (Z.ltb_spec (me - mb) 0), (Z.leb_spec mb me); try lia;
    match goal with |- (?a <=? ?b) = _ => destruct (Z.leb_spec a b) end;
    destruct (Z.leb_spec mb j), (Z.leb_spec j me); cbn [andb orb]; try reflexivity; lia.
Qed.

Lemma insert_bits_testbit source old sh mb me i :
  0 <= mb < 32 -> 0 <= me < 32 -> 0 <= i < 32 ->
  Z.testbit (insert_bits source old sh mb me) i =
  if in_mask mb me (31 - i) then Z.testbit source ((i - sh) mod 32) else Z.testbit old i.
Proof.
  intros Hb He Hi. unfold insert_bits.
  etransitivity; [| etransitivity; [exact (fold_put (in_mask mb me) (fun d => Z.testbit source (31 - (d + sh) mod 32)) 32 old i Hi ltac:(lia)) |]].
  - f_equal. apply fold_left_ext_in. intros v d Hd. apply in_seqZ in Hd. cbv zeta.
    rewrite in_mask_mod by lia. rewrite land_one; [reflexivity |]. pose proof (Z.mod_pos_bound (d + sh) 32). lia.
  - rewrite (proj2 (Z.ltb_lt (31 - i) (Z.of_nat 32))) by lia. cbn [andb]. case_if; [| reflexivity]. f_equal.
    Z.div_mod_to_equations. lia.
Qed.

Lemma rlwimi_agrees BASE p s d r sh mb me rc :
  state_ok s -> 0 <= d < 32 -> 0 <= r < 32 -> 0 <= sh < 32 -> 0 <= mb < 32 -> 0 <= me < 32 -> is_flag rc = true ->
  exists s' res,
    exec_data BASE p "rlwimi" [I d; I r; I sh; I mb; I me; I rc] s = Ok s' /\
    evaluate "rlwimi" (reg s r) sh mb me (reg s d) rc
      (carry_of (xer s)) (ov_of (xer s)) (so_of (xer s)) (cr0_of (cr s)) = Ok res /\
    performs s d (value res) (ca res) (ov res) (so res) (cr0 res) s'.
Proof.
  intros Hs Hd Hr Hsh Hb He Hrc. destruct (flags_ok s Hs) as (F1 & F2 & F3 & F4).
  destruct (reg_get s r Hs Hr) as [Er Wr]. destruct (reg_get s d Hs Hd) as [Ed Wd].
  assert (Hargs : rotate_args_ok "rlwimi" sh mb me rc (carry_of (xer s)) (ov_of (xer s)) (so_of (xer s)) (cr0_of (cr s)) = true).
  { unfold rotate_args_ok. rewrite Hrc, F1, F2, F3, (proj2 (in_range_iff 0 16 _) F4), !(proj2 (in_range_iff 0 32 _)) by assumption.
    reflexivity. }
  destruct (rotate_evaluate_eq "rlwimi" (reg s r) sh mb me (reg s d) rc _ _ _ _ Hargs) as (m & Em & ->).
  destruct (ppc_mask_spec mb me Hb He) as (m' & Em' & Hbits). assert (m' = m) as -> by congruence. clear Em'.
  assert (Ev : Z.land (merge "rlwimi" (rotate_left (reg s r) sh) m (reg s d)) MASK32 =
               insert_bits (reg s r) (reg s d) sh mb me).
  { apply word_bits_eq; [apply mask32_range | apply insert_bits_word, Wd |]. intros i Hi.
    rewrite insert_bits_testbit by assumption. unfold merge. change (String.eqb "rlwimi" "rlwimi") with true. cbv iota.
    rewrite Z.land_spec, Z.lor_spec, !Z.land_spec, Z.lnot_spec, !testbit_mask32, Hbits, rotate_left_spec by lia.
    rewrite (proj2 (Z.ltb_lt i 32)) by lia. destruct (in_mask mb me (31 - i)); cbn [andb negb];
      rewrite ?andb_true_r, ?andb_false_r, ?orb_false_r; reflexivity. }
  cbv zeta. rewrite Ev. set (v := insert_bits _ _ _ _ _).
  destruct (write_record_performs s s d v rc) as (t & Et & Pt); try assumption; try reflexivity; [apply Hs | auto |].
  eexists _, _. split; [| split; [reflexivity | exact Pt]].
  change (exec_data BASE p "rlwimi" ?a ?st) with (exec_rlwimi a st). unfold exec_rlwimi.
  change (unpack6 [I d; I r; I sh; I mb; I me; I rc]) with (@Ok (Z * Z * Z * Z * Z * Z) (d, r, sh, mb, me, rc)).
  cbv iota beta. rewrite Er, Ed. cbv zeta. fold v. rewrite Et. reflexivity.
Qed.
End Rotates.

Section Adds.
Import add_family.

(** The family and OE of each form of the program. *)
Definition add_form (op : string) : string * Z :=
  if String.eqb op "addco" then ("addc"%string, 1) else (op, 0).

Lemma signed_word x : signed x 32 = to_signed32 x.
Proof. reflexivity. Qed.

Lemma fits32_overflow t : (t <? MIN_SIGNED) || (MAX_SIGNED <? t) = negb (fits32 t).
Proof.
  unfold fits32, MIN_SIGNED, MAX_SIGNED. rewrite negb_andb, Z.leb_antisym, negb_involutive. f_equal.
  change (Z.shiftl 1 31) with (2 ^ 31). destruct (Z.ltb_spec (2 ^ 31 - 1) t), (Z.ltb_spec t (2 ^ 31)); cbn; lia || reflexivity.
Qed.

(** The XER [addco] leaves. *)
Definition addco_xer (x : Z) (c ov : bool) : Z :=
  bits_or [Z.land x 0x1fffffff; Z.shiftl (Z.b2z (truthy (Z.shiftr x 31) || ov)) 31; Z.shiftl (Z.b2z ov) 30; Z.shiftl (Z.b2z c) 29].

Lemma testbit_b2z_at b k i : 0 <= k -> 0 <= i -> Z.testbit (Z.shiftl (Z.b2z b) k) i = (k =? i) && b.
Proof.
  intros Hk Hi. destruct b; cbn [Z.b2z]; [rewrite testbit_shiftl_one, andb_true_r by lia; reflexivity |].
  rewrite Z.shiftl_0_l, Z.bits_0, andb_false_r. reflexivity.
Qed.

Lemma addco_xer_flags x c ov :
  word x ->
  word (addco_xer x c ov) /\ carry_of (addco_xer x c ov) = Z.b2z c /\ ov_of (addco_xer x c ov) = Z.b2z ov /\
  so_of (addco_xer x c ov) = Z.lor (so_of x) (Z.b2z ov) /\
  Z.land (addco_xer x c ov) (Z.ones 29) = Z.land x (Z.ones 29).
Proof.
  intros Hx. assert (Hw : word (addco_xer x c ov)).
  { unfold addco_xer, bits_or. cbn [fold_left].
    repeat (apply word_lor; [| apply word_bit; lia]).
    apply word_lor; [split; [lia | reflexivity] | apply word_land, Hx]. }
  assert (T : forall i, 0 <= i -> Z.testbit (addco_xer x c ov) i =
     (i <? 29) && Z.testbit x i || ((31 =? i) && (truthy (Z.shiftr x 31) || ov)) || ((30 =? i) && ov) || ((29 =? i) && c)).
  { intros i Hi. unfold addco_xer, bits_or. cbn [fold_left]. change 0x1fffffff with (Z.ones 29).
    rewrite !Z.lor_spec, !testbit_b2z_at, Z.bits_0, Z.land_spec, testbit_ones by lia.
    rewrite (andb_comm (Z.testbit x i)). reflexivity. }
  unfold carry_of, ov_of. rewrite !land_one, !so_of_testbit, !T by (assumption || lia).
  cbn [Z.ltb Z.eqb Z.compare Pos.compare Pos.compare_cont Pos.eqb andb orb].
  rewrite !orb_false_r. split; [exact Hw |]. split; [reflexivity |]. split; [reflexivity |]. split.
  - change (Z.shiftr x 31) with (so_of x). rewrite so_of_testbit, truthy_b2z by exact Hx.
    destruct (Z.testbit x 31), ov; reflexivity.
  - apply land_low_eq; [lia |]. intros i Hi. rewrite T, (proj2 (Z.ltb_lt i 29)) by lia.
    rewrite !(proj2 (Z.eqb_neq _ i)) by lia. cbn [andb]. rewrite !orb_false_r. reflexivity.
Qed.

(** A register written, then XER replaced. *)
Lemma write_xer_performs s d v x :
  state_ok s -> 0 <= d < 32 -> Z.land x (Z.ones 29) = Z.land (xer s) (Z.ones 29) ->
  exists t, write_reg s d v = Ok t /\ xer t = xer s /\
    performs s d v (carry_of x) (ov_of x) (so_of x) (cr0_of (cr s)) (with_xer t x).
Proof.
  intros Hs Hd Hx. destruct (write_record_performs s s d v 0) as (t & Et & Pt); auto; [apply Hs |].
  exists t. split; [exact Et |]. destruct (write_reg_xer _ _ _ _ Et) as (E1 & E2 & E3). split; [exact E1 |].
  destruct Pt as [P1 _ _ _ P5 _ P7 P8]. constructor; try reflexivity; [exact P1 | exact P5 | exact Hx | exact P7 | exact P8].
Qed.

Lemma exec_add_agrees BASE p s op d r b :
  state_ok s -> dict_mem ADDS op = true -> 0 <= d < 32 -> 0 <= r < 32 -> 0 <= b < 32 ->
  exists s' res,
    exec_data BASE p op [I d; I r; I b] s = Ok s' /\
    evaluate (fst (add_form op)) (reg s r) (reg s b) (carry_of (xer s)) (snd (add_form op)) 0
      (ov_of (xer s)) (so_of (xer s)) (cr0_of (cr s)) = Ok res /\
    performs s d (value res) (ca res) (ov res) (so res) (cr0 res) s'.
Proof.
  intros Hs Hop Hd Hr Hb. destruct (flags_ok s Hs) as (F1 & F2 & F3 & F4).
  destruct (reg_get s r Hs Hr) as [Er Wr]. destruct (reg_get s b Hs Hb) as [Eb Wb].
  assert (Hargs : add_args_ok (fst (add_form op)) (carry_of (xer s)) (snd (add_form op)) 0 (ov_of (xer s))
                    (so_of (xer s)) (cr0_of (cr s)) = true).
  { apply add_args_ok_iff. repeat split; try assumption; try apply F4; dict_cases Hop; reflexivity. }
  rewrite (add_evaluate_eq _ _ _ _ _ _ _ _ _ Hargs). cbv zeta.
  assert (Hx : exec_data BASE p op [I d; I r; I b] s = exec_add op [I d; I r; I b] s) by (dict_cases Hop; reflexivity).
  rewrite Hx. unfold exec_add. change (unpack3 [I d; I r; I b]) with (@Ok (Z * Z * Z) (d, r, b)). cbv iota beta.
  rewrite Er, Eb, !signed_word. cbv zeta. change MASK with MASK32. rewrite mask32_mod.
  assert (Wm : reg s r mod 2 ^ 32 = reg s r) by (apply Z.mod_small, Wr).
  assert (Wm' : reg s b mod 2 ^ 32 = reg s b) by (apply Z.mod_small, Wb).
  dict_cases Hop; cbn [add_form fst snd String.eqb Ascii.eqb Bool.eqb truthy Z.eqb negb];
    unfold second_operand, carry_in; str_tests; rewrite ?Wm, ?Wm', ?fits32_overflow.
  - destruct (write_record_performs s s d ((reg s r + reg s b + 0) mod 2 ^ 32) 0) as (t & -> & Pt);
      try assumption; try reflexivity; [apply Hs | auto |].
    eexists _, _. split; [reflexivity |]. split; [reflexivity | exact Pt].
  - set (c := MASK32 <? reg s r + reg s b). set (o := negb (fits32 _)).
    destruct (addco_xer_flags (xer s) c o (ok_xer s Hs)) as (_ & C1 & C2 & C3 & C4).
    destruct (write_xer_performs s d ((reg s r + reg s b + 0) mod 2 ^ 32) (addco_xer (xer s) c o) Hs Hd C4) as (t & -> & Ex & Pt).
    rewrite Ex. eexists _, _. split; [reflexivity |]. split; [reflexivity |].
    rewrite C1, C2, C3 in Pt. unfold c, o in Pt. rewrite !Z.add_0_r in Pt. rewrite !Z.add_0_r. exact Pt.
  - set (c := MASK32 <? _).
    destruct (set_carry_flags c s (ok_xer s Hs)) as (C1 & C2 & C3 & C4).
    destruct (write_xer_performs s d ((reg s r + reg s b + carry_of (xer s)) mod 2 ^ 32) (xer (set_carry c s)) Hs Hd C4)
      as (t & -> & Ex & Pt).
    eexists _, _. split; [reflexivity |]. split; [reflexivity |].
    rewrite C1, C2, C3 in Pt. unfold set_carry. rewrite Ex. exact Pt.
Qed.
End Adds.

Section Compares.
Import compare_family.

Definition compare_rhs (s : state) (op : string) (rhs : Z) : Z := if ends_with op "i" then rhs else reg s rhs.

Lemma signed_immediate v : 0 <= v < 2 ^ 16 -> signed v 16 = if v <? 2 ^ 15 then v else v - 2 ^ 16.
Proof.
  intros Hv. unfold signed. change (Z.shiftl 1 16 - 1) with (Z.ones 16). rewrite Z.land_ones, Z.mod_small by lia.
  change (16 - 1) with 15. rewrite truthy_land_bit, (testbit_top v 15) by (const_pow; lia).
  rewrite Z.leb_antisym. destruct (v <? 2 ^ 15); reflexivity.
Qed.

Lemma compares_cases op :
  str_in op COMPARES = true ->
  op = "cmp"%string \/ op = "cmpi"%string \/ op = "cmpl"%string \/ op = "cmpli"%string.
Proof.
  unfold COMPARES, str_in. cbn [existsb]. rewrite !orb_true_iff, !String.eqb_eq. intuition discriminate.
Qed.

Lemma exec_compare_spec op s bf r rhs :
  state_ok s -> str_in op COMPARES = true -> 0 <= r < 32 ->
  0 <= rhs < (if ends_with op "i" then 2 ^ 16 else 32) ->
  let '(x, y) := compare_operands op (reg s r) (compare_rhs s op rhs) in
  exec_compare op [I bf; I r; I rhs] s =
  Ok (with_cr s (put_nibble (program.cr s) (28 - 4 * bf) (Z.lor (relation_bits x y) (so_of (xer s))))).
Proof.
  intros Hs Hop Hr Hrhs. destruct (reg_get s r Hs Hr) as [Er Wr]. unfold exec_compare, compare_rhs.
  change (unpack3 [I bf; I r; I rhs]) with (@Ok (Z * Z * Z) (bf, r, rhs)). cbv iota beta. rewrite Er.
  unfold compare_operands. destruct (compares_cases op Hop) as [-> | [-> | [-> | ->]]]; clear Hop; repeat match goal with |- context [ends_with ?a ?b] => let v := eval vm_compute in (ends_with a b) in change (ends_with a b) with v in * end;
    str_tests; cbv iota beta in Hrhs |- *;
    rewrite ?signed_word.
  - destruct (reg_get s rhs Hs Hrhs) as [Eb _]. rewrite Eb, signed_word, relation_bits_eq. reflexivity.
  - rewrite relation_bits_eq, signed_immediate by exact Hrhs.
    rewrite (to_signed32_unique (if rhs <? 2 ^ 15 then rhs else rhs - 2 ^ 16)
               (if rhs <? 2 ^ 15 then rhs else rhs - 2 ^ 16)); [reflexivity | | reflexivity].
    destruct (Z.ltb_spec rhs (2 ^ 15)); lia.
  - destruct (reg_get s rhs Hs Hrhs) as [Eb Wb]. rewrite Eb, relation_bits_eq, !Z.mod_small by (exact Wr || exact Wb).
    reflexivity.
  - change 65535 with (Z.ones 16). rewrite Z.land_ones, relation_bits_eq, !Z.mod_small by (exact Wr || lia). reflexivity.
Qed.

(** One field of CR replaced, and nothing else. *)
Lemma compare_agrees BASE p s op bf r rhs :
  state_ok s -> str_in op COMPARES = true -> 0 <= bf < 8 -> 0 <= r < 32 ->
  0 <= rhs < (if ends_with op "i" then 2 ^ 16 else 32) ->
  exists res,
    evaluate op (reg s r) (compare_rhs s op rhs) bf 0 (carry_of (xer s)) (ov_of (xer s)) (so_of (xer s)) (program.cr s)
      = Ok res /\
    exec_data BASE p op [I bf; I r; I rhs] s = Ok (with_cr s (cr res)).
Proof.
  intros Hs Hop Hbf Hr Hrhs. destruct (flags_ok s Hs) as (F1 & F2 & F3 & F4).
  pose proof (exec_compare_spec op s bf r rhs Hs Hop Hr Hrhs) as E.
  assert (Hargs : compare_args_ok op (compare_rhs s op rhs) bf 0 (carry_of (xer s)) (ov_of (xer s)) (so_of (xer s))
                    (program.cr s) = true).
  { unfold compare_args_ok, compare_rhs. rewrite F1, F2, F3, (proj2 (in_range_iff 0 8 bf) Hbf).
    rewrite (proj2 (in_range_iff 0 (2 ^ 32) (program.cr s)) (ok_cr s Hs)).
    destruct (compares_cases op Hop) as [-> | [-> | [-> | ->]]]; try reflexivity;
      cbn -[in_range Z.pow] in Hrhs |- *; apply in_range_iff, Hrhs. }
  rewrite (compare_evaluate_eq _ _ _ _ _ _ _ _ _ Hargs).
  assert (Hx : exec_data BASE p op [I bf; I r; I rhs] s = exec_compare op [I bf; I r; I rhs] s).
  { destruct (compares_cases op Hop) as [-> | [-> | [-> | ->]]]; reflexivity. }
  rewrite Hx. destruct (compare_operands op (reg s r) (compare_rhs s op rhs)) as [x y]. rewrite E.
  eexists. split; reflexivity.
Qed.
End Compares.

(** C16. The program oracle and the family oracles are one semantics. On a
    well-formed state, the interpreter's branch for a shift, for rlwimi and for
    add, addco and adde returns, and changes the destination register, XER and
    CR0 exactly as the result of the family module's [evaluate] says, run on
    the same operands and flags, everything else kept; a compare leaves the
    state with exactly the CR that [compare_family.evaluate] computes. *)
Theorem interpreter_agrees_with_families BASE p s :
  state_ok s ->
  (forall op d r b rc,
     dict_mem shift_family.XO op = true -> 0 <= d < 32 -> 0 <= r < 32 -> 0 <= b < 32 -> is_flag rc = true ->
     exists s' res,
       exec_data BASE p op [I d; I r; I b; I rc] s = Ok s' /\
       shift_family.evaluate op (reg s r) (if String.eqb op "srawi" then b else reg s b) rc
         (carry_of (xer s)) (ov_of (xer s)) (so_of (xer s)) (cr0_of (cr s)) = Ok res /\
       performs s d (shift_family.value res) (shift_family.ca res) (shift_family.ov res) (shift_family.so res) (shift_family.cr0 res) s') /\
  (forall d r sh mb me rc,
     0 <= d < 32 -> 0 <= r < 32 -> 0 <= sh < 32 -> 0 <= mb < 32 -> 0 <= me < 32 -> is_flag rc = true ->
     exists s' res,
       exec_data BASE p "rlwimi" [I d; I r; I sh; I mb; I me; I rc] s = Ok s' /\
       rotate_family.evaluate "rlwimi" (reg s r) sh mb me (reg s d) rc
         (carry_of (xer s)) (ov_of (xer s)) (so_of (xer s)) (cr0_of (cr s)) = Ok res /\
       performs s d (rotate_family.value res) (rotate_family.ca res) (rotate_family.ov res) (rotate_family.so res) (rotate_family.cr0 res) s') /\
  (forall op d r b,
     dict_mem ADDS op = true -> 0 <= d < 32 -> 0 <= r < 32 -> 0 <= b < 32 ->
     exists s' res,
       exec_data BASE p op [I d; I r; I b] s = Ok s' /\
       add_family.evaluate (fst (add_form op)) (reg s r) (reg s b) (carry_of (xer s)) (snd (add_form op)) 0
         (ov_of (xer s)) (so_of (xer s)) (cr0_of (cr s)) = Ok res /\
       performs s d (add_family.value res) (add_family.ca res) (add_family.ov res) (add_family.so res) (add_family.cr0 res) s') /\
  (forall op bf r rhs,
     str_in op COMPARES = true -> 0 <= bf < 8 -> 0 <= r < 32 ->
     0 <= rhs < (if ends_with op "i" then 2 ^ 16 else 32) ->
     exists res,
       compare_family.evaluate op (reg s r) (compare_rhs s op rhs) bf 0 (carry_of (xer s)) (ov_of (xer s))
         (so_of (xer s)) (cr s) = Ok res /\
       exec_data BASE p op [I bf; I r; I rhs] s = Ok (with_cr s (compare_family.cr res))).
Proof.
  intros Hs. split; [| split; [| split]]; intros.
  - apply shift_agrees; assumption.
  - apply rlwimi_agrees; assumption.
  - apply exec_add_agrees; assumption.
  - apply compare_agrees; assumption.
Qed.

(** sraw. of -3 by 1: a negative value losing a one bit sets CA. *)
Definition shift_example : state := with_regs initial (<[3%nat := 0xfffffffd]> (<[4%nat := 1]> (regs initial))).

Lemma shift_example_ok : state_ok shift_example.
Proof. destruct initial_ok. constructor; try assumption; try reflexivity. unfold word. repeat constructor; lia. Qed.

Lemma interpreter_agrees_with_families_witness :
  state_ok shift_example /\
  exists s' res,
    exec_data 0 empty_program "sraw" [I 5; I 3; I 4; I 1] shift_example = Ok s' /\
    shift_family.evaluate "sraw" (reg shift_example 3) (reg shift_example 4) 1
      (carry_of (xer shift_example)) (ov_of (xer shift_example)) (so_of (xer shift_example)) (cr0_of (cr shift_example)) = Ok res /\
    performs shift_example 5 (shift_family.value res) (shift_family.ca res) (shift_family.ov res) (shift_family.so res) (shift_family.cr0 res) s'.
Proof.
  split; [exact shift_example_ok |].
  apply (proj1 (interpreter_agrees_with_families 0 empty_program shift_example shift_example_ok) "sraw" 5 3 4 1);
    reflexivity || lia.
Defined.
