(* ===== verification/PerfInsn.v ===== *)
(** * Instruction resources of the cycle model ([sim/tools/perf_model_603e.py])

    [Insn] decodes a word into the unit it needs, its latency and the registers
    and CR fields it reads and writes. The defaults [--mul] and [--div] are
    the parameters of the decoder. *)
From S2P Require Import Prelude.

Module perf_insn.

Definition sext (v bits : Z) : Z := if truthy (Z.land v (Z.shiftl 1 (bits - 1))) then v - Z.shiftl 1 bits else v.

(** [ADD] is an add or compare, which either the IU or the SRU may execute. *)
Inductive execution_unit : Type := IU | SRU | ADD | LSU | BPU | FPU.

#[export] Instance execution_unit_eq_dec : EqDecision execution_unit.
Proof. solve_decision. Defined.

Record Insn : Type := {
  pc : Z;
  word : Z;
  unit_ : execution_unit;
  lat : Z;
  src : gset Z;
  dst : gset Z;
  crs : gset Z;
  crd : gset Z;
  cr_fast : bool;
  store : bool;
  load : bool;
  serial : bool;
  dserial : bool;
  lr_r : bool;
  lr_w : bool;
  ctr_r : bool;
  ctr_w : bool;
  bo : Z;
  bi : Z;
  disp : Z;
  lk : bool;
  kind : string
}.

(** The fields before [_decode] runs. *)
Definition blank (pc0 w : Z) : Insn :=
  {| pc := pc0; word := w; unit_ := IU; lat := 1; src := ∅; dst := ∅; crs := ∅; crd := ∅; cr_fast := false;
     store := false; load := false; serial := false; dserial := false; lr_r := false; lr_w := false; ctr_r :=
     false; ctr_w := false; bo := 0; bi := 0; disp := 0; lk := false; kind := ""%string |}.

Definition with_unit (u : execution_unit) (i : Insn) : Insn :=
  {| pc := pc i; word := word i; unit_ := u; lat := lat i; src := src i; dst := dst i; crs := crs i; crd :=
     crd i; cr_fast := cr_fast i; store := store i; load := load i; serial := serial i; dserial := dserial i;
     lr_r := lr_r i; lr_w := lr_w i; ctr_r := ctr_r i; ctr_w := ctr_w i; bo := bo i; bi := bi i; disp := disp
     i; lk := lk i; kind := kind i |}.
Definition with_lat (x : Z) (i : Insn) : Insn :=
  {| pc := pc i; word := word i; unit_ := unit_ i; lat := x; src := src i; dst := dst i; crs := crs i; crd :=
     crd i; cr_fast := cr_fast i; store := store i; load := load i; serial := serial i; dserial := dserial i;
     lr_r := lr_r i; lr_w := lr_w i; ctr_r := ctr_r i; ctr_w := ctr_w i; bo := bo i; bi := bi i; disp := disp
     i; lk := lk i; kind := kind i |}.
Definition with_src (x : gset Z) (i : Insn) : Insn :=
  {| pc := pc i; word := word i; unit_ := unit_ i; lat := lat i; src := x; dst := dst i; crs := crs i; crd :=
     crd i; cr_fast := cr_fast i; store := store i; load := load i; serial := serial i; dserial := dserial i;
     lr_r := lr_r i; lr_w := lr_w i; ctr_r := ctr_r i; ctr_w := ctr_w i; bo := bo i; bi := bi i; disp := disp
     i; lk := lk i; kind := kind i |}.
Definition with_dst (x : gset Z) (i : Insn) : Insn :=
  {| pc := pc i; word := word i; unit_ := unit_ i; lat := lat i; src := src i; dst := x; crs := crs i; crd :=
     crd i; cr_fast := cr_fast i; store := store i; load := load i; serial := serial i; dserial := dserial i;
     lr_r := lr_r i; lr_w := lr_w i; ctr_r := ctr_r i; ctr_w := ctr_w i; bo := bo i; bi := bi i; disp := disp
     i; lk := lk i; kind := kind i |}.
Definition with_crs (x : gset Z) (i : Insn) : Insn :=
  {| pc := pc i; word := word i; unit_ := unit_ i; lat := lat i; src := src i; dst := dst i; crs := x; crd :=
     crd i; cr_fast := cr_fast i; store := store i; load := load i; serial := serial i; dserial := dserial i;
     lr_r := lr_r i; lr_w := lr_w i; ctr_r := ctr_r i; ctr_w := ctr_w i; bo := bo i; bi := bi i; disp := disp
     i; lk := lk i; kind := kind i |}.
Definition with_crd (x : gset Z) (i : Insn) : Insn :=
  {| pc := pc i; word := word i; unit_ := unit_ i; lat := lat i; src := src i; dst := dst i; crs := crs i; crd
     := x; cr_fast := cr_fast i; store := store i; load := load i; serial := serial i; dserial := dserial i;
     lr_r := lr_r i; lr_w := lr_w i; ctr_r := ctr_r i; ctr_w := ctr_w i; bo := bo i; bi := bi i; disp := disp
     i; lk := lk i; kind := kind i |}.
Definition with_cr_fast (x : bool) (i : Insn) : Insn :=
  {| pc := pc i; word := word i; unit_ := unit_ i; lat := lat i; src := src i; dst := dst i; crs := crs i; crd
     := crd i; cr_fast := x; store := store i; load := load i; serial := serial i; dserial := dserial i; lr_r
     := lr_r i; lr_w := lr_w i; ctr_r := ctr_r i; ctr_w := ctr_w i; bo := bo i; bi := bi i; disp := disp i; lk
     := lk i; kind := kind i |}.
Definition with_store (x : bool) (i : Insn) : Insn :=
  {| pc := pc i; word := word i; unit_ := unit_ i; lat := lat i; src := src i; dst := dst i; crs := crs i; crd
     := crd i; cr_fast := cr_fast i; store := x; load := load i; serial := serial i; dserial := dserial i;
     lr_r := lr_r i; lr_w := lr_w i; ctr_r := ctr_r i; ctr_w := ctr_w i; bo := bo i; bi := bi i; disp := disp
     i; lk := lk i; kind := kind i |}.
Definition with_load (x : bool) (i : Insn) : Insn :=
  {| pc := pc i; word := word i; unit_ := unit_ i; lat := lat i; src := src i; dst := dst i; crs := crs i; crd
     := crd i; cr_fast := cr_fast i; store := store i; load := x; serial := serial i; dserial := dserial i;
     lr_r := lr_r i; lr_w := lr_w i; ctr_r := ctr_r i; ctr_w := ctr_w i; bo := bo i; bi := bi i; disp := disp
     i; lk := lk i; kind := kind i |}.
Definition with_serial (x : bool) (i : Insn) : Insn :=
  {| pc := pc i; word := word i; unit_ := unit_ i; lat := lat i; src := src i; dst := dst i; crs := crs i; crd
     := crd i; cr_fast := cr_fast i; store := store i; load := load i; serial := x; dserial := dserial i; lr_r
     := lr_r i; lr_w := lr_w i; ctr_r := ctr_r i; ctr_w := ctr_w i; bo := bo i; bi := bi i; disp := disp i; lk
     := lk i; kind := kind i |}.
Definition with_dserial (x : bool) (i : Insn) : Insn :=
  {| pc := pc i; word := word i; unit_ := unit_ i; lat := lat i; src := src i; dst := dst i; crs := crs i; crd
     := crd i; cr_fast := cr_fast i; store := store i; load := load i; serial := serial i; dserial := x; lr_r
     := lr_r i; lr_w := lr_w i; ctr_r := ctr_r i; ctr_w := ctr_w i; bo := bo i; bi := bi i; disp := disp i; lk
     := lk i; kind := kind i |}.
Definition with_lr_r (x : bool) (i : Insn) : Insn :=
  {| pc := pc i; word := word i; unit_ := unit_ i; lat := lat i; src := src i; dst := dst i; crs := crs i; crd
     := crd i; cr_fast := cr_fast i; store := store i; load := load i; serial := serial i; dserial := dserial
     i; lr_r := x; lr_w := lr_w i; ctr_r := ctr_r i; ctr_w := ctr_w i; bo := bo i; bi := bi i; disp := disp i;
     lk := lk i; kind := kind i |}.
Definition with_lr_w (x : bool) (i : Insn) : Insn :=
  {| pc := pc i; word := word i; unit_ := unit_ i; lat := lat i; src := src i; dst := dst i; crs := crs i; crd
     := crd i; cr_fast := cr_fast i; store := store i; load := load i; serial := serial i; dserial := dserial
     i; lr_r := lr_r i; lr_w := x; ctr_r := ctr_r i; ctr_w := ctr_w i; bo := bo i; bi := bi i; disp := disp i;
     lk := lk i; kind := kind i |}.
Definition with_ctr_r (x : bool) (i : Insn) : Insn :=
  {| pc := pc i; word := word i; unit_ := unit_ i; lat := lat i; src := src i; dst := dst i; crs := crs i; crd
     := crd i; cr_fast := cr_fast i; store := store i; load := load i; serial := serial i; dserial := dserial
     i; lr_r := lr_r i; lr_w := lr_w i; ctr_r := x; ctr_w := ctr_w i; bo := bo i; bi := bi i; disp := disp i;
     lk := lk i; kind := kind i |}.
Definition with_ctr_w (x : bool) (i : Insn) : Insn :=
  {| pc := pc i; word := word i; unit_ := unit_ i; lat := lat i; src := src i; dst := dst i; crs := crs i; crd
     := crd i; cr_fast := cr_fast i; store := store i; load := load i; serial := serial i; dserial := dserial
     i; lr_r := lr_r i; lr_w := lr_w i; ctr_r := ctr_r i; ctr_w := x; bo := bo i; bi := bi i; disp := disp i;
     lk := lk i; kind := kind i |}.
Definition with_bo (x : Z) (i : Insn) : Insn :=
  {| pc := pc i; word := word i; unit_ := unit_ i; lat := lat i; src := src i; dst := dst i; crs := crs i; crd
     := crd i; cr_fast := cr_fast i; store := store i; load := load i; serial := serial i; dserial := dserial
     i; lr_r := lr_r i; lr_w := lr_w i; ctr_r := ctr_r i; ctr_w := ctr_w i; bo := x; bi := bi i; disp := disp
     i; lk := lk i; kind := kind i |}.
Definition with_bi (x : Z) (i : Insn) : Insn :=
  {| pc := pc i; word := word i; unit_ := unit_ i; lat := lat i; src := src i; dst := dst i; crs := crs i; crd
     := crd i; cr_fast := cr_fast i; store := store i; load := load i; serial := serial i; dserial := dserial
     i; lr_r := lr_r i; lr_w := lr_w i; ctr_r := ctr_r i; ctr_w := ctr_w i; bo := bo i; bi := x; disp := disp
     i; lk := lk i; kind := kind i |}.
Definition with_disp (x : Z) (i : Insn) : Insn :=
  {| pc := pc i; word := word i; unit_ := unit_ i; lat := lat i; src := src i; dst := dst i; crs := crs i; crd
     := crd i; cr_fast := cr_fast i; store := store i; load := load i; serial := serial i; dserial := dserial
     i; lr_r := lr_r i; lr_w := lr_w i; ctr_r := ctr_r i; ctr_w := ctr_w i; bo := bo i; bi := bi i; disp := x;
     lk := lk i; kind := kind i |}.
Definition with_lk (x : bool) (i : Insn) : Insn :=
  {| pc := pc i; word := word i; unit_ := unit_ i; lat := lat i; src := src i; dst := dst i; crs := crs i; crd
     := crd i; cr_fast := cr_fast i; store := store i; load := load i; serial := serial i; dserial := dserial
     i; lr_r := lr_r i; lr_w := lr_w i; ctr_r := ctr_r i; ctr_w := ctr_w i; bo := bo i; bi := bi i; disp :=
     disp i; lk := x; kind := kind i |}.
Definition with_kind (k : string) (i : Insn) : Insn :=
  {| pc := pc i; word := word i; unit_ := unit_ i; lat := lat i; src := src i; dst := dst i; crs := crs i; crd
     := crd i; cr_fast := cr_fast i; store := store i; load := load i; serial := serial i; dserial := dserial
     i; lr_r := lr_r i; lr_w := lr_w i; ctr_r := ctr_r i; ctr_w := ctr_w i; bo := bo i; bi := bi i; disp :=
     disp i; lk := lk i; kind := k |}.

Definition as_set (l : list Z) : gset Z := list_to_set l.
(** [{ra} if ra else set()] *)
Definition or_0 (ra : Z) : gset Z := if truthy ra then {[ra]} else ∅.
(** [set(range(a, b))] *)
Definition regs_between (a b : Z) : gset Z := as_set (seqZ a (b - a)).
Definition member (x : Z) (l : list Z) : bool := existsb (Z.eqb x) l.

Definition rd_of (w : Z) : Z := Z.land (Z.shiftr w 21) 31.
Definition ra_of (w : Z) : Z := Z.land (Z.shiftr w 16) 31.
Definition rb_of (w : Z) : Z := Z.land (Z.shiftr w 11) 31.
Definition spr_of (w : Z) : Z := Z.lor (Z.land (Z.shiftr w 16) 31) (Z.shiftl (Z.land (Z.shiftr w 11) 31) 5).

(** Fewest bytes holding [v] as a signed value; the loop stops at four. *)
Fixpoint widen_bytes (fuel : nat) (v n : Z) : Z :=
  match fuel with
  | O => n
  | S fuel' => if truthy (Z.shiftr v (8 * n - 1)) && (n <? 4) then widen_bytes fuel' v (n + 1) else n
  end.
Definition significant_bytes (v : Z) : Z :=
  let v := Z.land v 0xFFFFFFFF in
  let v := if truthy (Z.land v 0x80000000) then Z.land (Z.lnot v) 0xFFFFFFFF else v in
  widen_bytes 4 v 1.

(** The LK, BO, BI fields and the registers a conditional branch uses. *)
Definition _branch (w : Z) (k : string) (i : Insn) : Insn :=
  let bo := Z.land (Z.shiftr w 21) 31 in
  let bi := Z.land (Z.shiftr w 16) 31 in
  let lk := truthy (Z.land w 1) in
  let i := with_unit BPU (with_kind k (with_bo bo (with_bi bi (with_lk lk (with_lr_w lk i))))) in
  let i := if truthy (Z.land bo 0x10) then i else with_crs {[Z.shiftr bi 2]} i in
  if truthy (Z.land bo 0x04) then i else with_ctr_r true (with_ctr_w true i).

Definition _sru (lat : Z) (crs crd : gset Z) (i : Insn) : Insn :=
  with_crd crd (with_crs crs (with_kind "sru" (with_serial true (with_lat lat (with_unit SRU i))))).

Definition loads_x31 : list (Z * Z) :=
  [(23, 0); (55, 1); (87, 0); (119, 1); (279, 0); (311, 1); (343, 0); (375, 1); (534, 0); (790, 0); (20, 0)].
Definition stores_x31 : list (Z * Z) :=
  [(151, 0); (183, 1); (215, 0); (247, 1); (407, 0); (439, 1); (662, 0); (918, 0)].
Definition table_get (t : list (Z * Z)) (k : Z) : option Z :=
  match find (fun p => fst p =? k) t with Some p => Some (snd p) | None => None end.
Definition table_mem (t : list (Z * Z)) (k : Z) : bool := existsb (fun p => fst p =? k) t.
(** [(loads.get(xo10) or stores.get(xo10)) == 1] *)
Definition updates_x31 (xo : Z) : bool :=
  let v := match table_get loads_x31 xo with
           | Some l => if truthy l then Some l else table_get stores_x31 xo
           | None => table_get stores_x31 xo
           end in
  match v with Some v => v =? 1 | None => false end.

(** [self.dst.add(x)] and [self.crd.add(0)] *)
Definition add_dst (x : Z) (i : Insn) : Insn := with_dst ({[x]} ∪ dst i) i.
Definition add_src (x : Z) (i : Insn) : Insn := with_src ({[x]} ∪ src i) i.
Definition add_crd (i : Insn) : Insn := with_crd ({[0]} ∪ crd i) i.
Definition if_ (b : bool) (f : Insn -> Insn) (i : Insn) : Insn := if b then f i else i.

(** A store or a load of [rd], as both the D and the X forms mark it. *)
Definition access (is_store : bool) (rd : Z) (i : Insn) : Insn :=
  if is_store then with_kind "store" (with_store true (add_src rd i))
  else with_kind "load" (with_load true (add_dst rd i)).

Definition XO_ARITH : list Z := [8; 10; 11; 40; 75; 104; 136; 138; 200; 202; 232; 234; 235; 266; 459; 491].
Definition CR_LOGICAL : list Z := [33; 129; 193; 225; 257; 289; 417; 449].
Definition SRU_X31 : list Z := [598; 854; 83; 146; 512; 86; 54; 278; 246; 1014; 982; 150].

(** The arithmetic rows of opcode 31. *)
Definition arith_x31 (mul_default div_cycles rd ra rb rc xo9 : Z) (i : Insn) : Insn :=
  let i := with_kind "int" (with_src ({[ra]} ∪ (if member xo9 [104; 200; 202; 232; 234] then ∅ else {[rb]}))
             (with_dst {[rd]} i)) in
  let i :=
    if (xo9 =? 266) && negb (truthy rc) then with_kind "add" (with_unit ADD i)
    else if member xo9 [11; 75; 235] then with_kind "mul" (with_lat mul_default i)
    else if member xo9 [459; 491] then with_kind "div" (with_lat div_cycles i)
    else i in
  if_ (truthy rc) add_crd i.

Definition _x31 (mul_default div_cycles w rd ra rb rc xo10 xo9 : Z) (i : Insn) : Insn :=
  if table_mem loads_x31 xo10 || table_mem stores_x31 xo10 then
    let update := updates_x31 xo10 in
    let i := with_src ((if update then {[ra]} else or_0 ra) ∪ {[rb]}) (with_lat 2 (with_unit LSU i)) in
    if_ update (add_dst ra) (access (table_mem stores_x31 xo10) rd i)
  else if member xo10 [0; 32] then
    with_cr_fast true (with_crd {[Z.shiftr rd 2]} (with_kind "cmp" (with_src {[ra; rb]} (with_unit ADD i))))
  else if (xo10 =? 339) || (xo10 =? 371) then
    with_ctr_r (spr_of w =? 9) (with_lr_r (spr_of w =? 8) (with_dst {[rd]} (_sru 1 ∅ ∅ i)))
  else if xo10 =? 467 then
    with_dserial (spr_of w =? 1)
      (with_ctr_w (spr_of w =? 9) (with_lr_w (spr_of w =? 8) (with_src {[rd]} (_sru 2 ∅ ∅ i))))
  else if xo10 =? 19 then with_dst {[rd]} (_sru 1 (regs_between 0 8) ∅ i)
  else if xo10 =? 144 then
    let fxm := Z.land (Z.shiftr w 12) 0xFF in
    with_src {[rd]} (_sru 1 ∅ (as_set (List.filter (fun k => truthy (Z.land fxm (Z.shiftr 0x80 k))) (seqZ 0 8))) i)
  else if member xo10 SRU_X31 then with_dserial (member xo10 [598; 146; 512]) (_sru 1 ∅ ∅ i)
  else if member xo9 XO_ARITH then arith_x31 mul_default div_cycles rd ra rb rc xo9 i
  else if_ (truthy rc) add_crd
         (with_kind "int" (with_src ({[rd]} ∪ (if member xo10 [26; 824; 922; 954] then ∅ else {[rb]}))
            (with_dst {[ra]} i))).

(** Opcode 19: branches to LR and CTR, CR operations, isync and rfi. *)
Definition decode_19 (w rd ra rb xo10 : Z) (i : Insn) : Insn :=
  if xo10 =? 16 then with_lr_r true (_branch w "bclr" i)
  else if xo10 =? 528 then with_ctr_r true (_branch w "bcctr" i)
  else if xo10 =? 0 then _sru 1 {[Z.shiftr ra 2]} {[Z.shiftr rd 2]} i
  else if member xo10 CR_LOGICAL then _sru 1 {[Z.shiftr ra 2; Z.shiftr rb 2]} {[Z.shiftr rd 2]} i
  else with_dserial true (_sru 1 ∅ ∅ i).

Definition decode_loadstore (op rd ra : Z) (i : Insn) : Insn :=
  let update := member op [33; 35; 37; 39; 41; 43; 45] in
  let i := with_src (if update then {[ra]} else or_0 ra) (with_lat 2 (with_unit LSU i)) in
  if_ update (add_dst ra) (access (member op [36; 37; 38; 39; 44; 45]) rd i).

(** lmw and stmw: the registers [rd..31]. *)
Definition decode_multiple (op rd ra : Z) (i : Insn) : Insn :=
  let n := 32 - rd in
  let lmw := op =? 46 in
  let all := regs_between rd 32 in
  with_kind "lsmw" (with_store (negb lmw) (with_load lmw (with_dst (if lmw then all else ∅)
    (with_src (or_0 ra ∪ (if lmw then ∅ else all)) (with_dserial lmw (with_serial true
      (with_lat (if lmw then 2 + n else 1 + n) (with_unit LSU i)))))))).

Definition _decode (mul_default div_cycles : Z) (i : Insn) : Insn :=
  let w := word i in
  let op := Z.shiftr w 26 in
  let rd := rd_of w in let ra := ra_of w in let rb := rb_of w in
  let rc := Z.land w 1 in
  let xo10 := Z.land (Z.shiftr w 1) 0x3FF in let xo9 := Z.land (Z.shiftr w 1) 0x1FF in
  if op =? 7 then
    with_kind "mul" (with_dst {[rd]} (with_src {[ra]}
      (with_lat (1 + significant_bytes (sext (Z.land w 0xFFFF) 16)) i)))
  else if member op [8; 12; 13] then
    if_ (op =? 13) add_crd (with_kind "int" (with_dst {[rd]} (with_src {[ra]} i)))
  else if member op [10; 11] then
    with_cr_fast true (with_crd {[Z.shiftr rd 2]} (with_kind "cmp" (with_src {[ra]} (with_unit ADD i))))
  else if member op [14; 15] then
    with_kind "add" (with_dst {[rd]} (with_src (or_0 ra) (with_unit ADD i)))
  else if op =? 16 then with_disp (sext (Z.land w 0xFFFC) 16) (_branch w "bc" i)
  else if op =? 18 then
    let lk := truthy (Z.land w 1) in
    with_disp (sext (Z.land w 0x3FFFFFC) 26) (with_lr_w lk (with_lk lk (with_kind "b" (with_unit BPU i))))
  else if op =? 19 then decode_19 w rd ra rb xo10 i
  else if member op [20; 21; 23] then
    if_ (truthy rc) add_crd
      (with_kind "int" (with_dst {[ra]}
        (with_src ({[rd]} ∪ (if op =? 23 then {[rb]} else ∅) ∪ (if op =? 20 then {[ra]} else ∅)) i)))
  else if member op [24; 25; 26; 27; 28; 29] then
    if_ (member op [28; 29]) add_crd (with_kind "int" (with_dst {[ra]} (with_src {[rd]} i)))
  else if (32 <=? op) && (op <=? 45) then decode_loadstore op rd ra i
  else if member op [46; 47] then decode_multiple op rd ra i
  else if (48 <=? op) && (op <=? 55) then
    with_kind "fpls" (with_load (negb (52 <=? op)) (with_store (52 <=? op)
      (with_src (or_0 ra) (with_lat 2 (with_unit LSU i)))))
  else if member op [59; 63] then with_kind "fp" (with_lat 3 (with_unit FPU i))
  else if op =? 31 then _x31 mul_default div_cycles w rd ra rb rc xo10 xo9 i
  else with_kind "other" i.

(** [Insn(pc, word, mul_default)] *)
Definition mk_Insn (mul_default div_cycles pc w : Z) : Insn := _decode mul_default div_cycles (blank pc w).

Definition access_sizes : list (Z * Z) :=
  [(32, 4); (33, 4); (34, 1); (35, 1); (36, 4); (37, 4); (38, 1); (39, 1); (40, 2); (41, 2); (42, 2); (43, 2);
   (44, 2); (45, 2); (48, 4); (49, 4); (50, 8); (51, 8); (52, 4); (53, 4); (54, 8); (55, 8)].
(** Bytes a D-form load or store accesses, or 0. *)
Definition access_bytes (word : Z) : Z :=
  let op := Z.shiftr word 26 in
  if (op =? 46) || (op =? 47) then 4 * (32 - Z.land (Z.shiftr word 21) 31)
  else default 0 (table_get access_sizes op).

(** Static prediction: backward taken, the y bit flips it. *)
Definition predict_taken (i : Insn) : bool :=
  if Z.land (bo i) 0x14 =? 0x14 then true
  else
    let y := Z.land (bo i) 1 in
    let backward := String.eqb (kind i) "bc" && (disp i <? 0) in
    negb (Bool.eqb backward (truthy y)).

(** Possible next PCs of a branch whose target is in the word. *)
Definition branch_targets (pc word : Z) : list Z :=
  let op := Z.shiftr word 26 in
  let base := if truthy (Z.land word 2) then 0 else pc in
  if op =? 18 then [Z.land (base + sext (Z.land word 0x3FFFFFC) 26) 0xFFFFFFFF]
  else if op =? 16 then [pc + 4; Z.land (base + sext (Z.land word 0xFFFC) 16) 0xFFFFFFFF]
  else [pc + 4].

End perf_insn.
