(* ===== verification/PerfModel.v ===== *)
(** * The 603e cycle model ([schedule] of [sim/tools/perf_model_603e.py])

    One pass over a retired-instruction stream gives each instruction the
    cycles of its stages: F fetch, D dispatch, S execute start, E finish,
    C completion; a branch has X execute and R resolve. The search loops of
    the source run on fuel here ([None] when it is spent); PerfTermination
    shows when enough fuel exists. *)
From S2P Require Import Prelude PerfInsn.

Module perf_model.
Import perf_insn.

Definition GPR_LIMIT : Z := 5.
Definition CQ_LIMIT : Z := 5.
Definition IQ_LIMIT : Z := 6.

(** [CORE_RULES], as a record of switches. *)
Record core_rules : Type := {
  branch_slot : bool; cr_token : bool; dq0_iu : bool; lsu_base : bool; late_retire : bool;
  miss_late : bool; cq_same : bool
}.
Definition no_rules : core_rules := Build_core_rules false false false false false false false.

(** The command-line options the model reads. *)
Record config : Type := {
  mul : Z; div_cycles : Z; sru_add : bool; fetch_any : bool; core : core_rules
}.
Definition default_config : config := Build_config 3 20 true false no_rules.

Definition insn (g : config) (pc w : Z) : Insn := mk_Insn (mul g) (div_cycles g) pc w.

(** A record of [nb_hist]: [prev["D"]], [prev["unit"]] and so on. *)
Record timing : Type := { t_ins : Insn; t_F : Z; t_D : Z; t_S : Z; t_E : Z; t_C : Z; t_unit : execution_unit }.

(** A record of [out]. A branch has no dispatch unless [branch_slot] gives it one. *)
Inductive row : Type :=
| Plain (t : timing)
| Branch (ins : Insn) (F X R C : Z) (mispredict : option bool) (slot : option timing).
Definition row_C (r : row) : Z := match r with Plain t => t_C t | Branch _ _ _ _ c _ _ => c end.

(** The local variables of [schedule]; [out], [fetch_hist] and [nb_hist] are
    kept newest first. *)
Record sched : Type := {
  out : list row; gpr_prod : gmap Z Z; cr_prod : gmap Z Z; lr_ready : Z; ctr_ready : Z;
  unit_start : execution_unit -> Z; unit_free : execution_unit -> Z; last_x : Z; pending_pred : Z; redirect : Z;
  fetch_hist : list (Z * Z); nb_hist : list timing; ser_until : Z; cr_free : Z; stop_f : Z; stop_until : Z;
  branch_x : Z; sym : gmap Z (Z * Z); fresh : Z; stores : list (Z * Z * Z * Z)
}.

Definition start : sched :=
  {| out := []; gpr_prod := ∅; cr_prod := ∅; lr_ready := 0; ctr_ready := 0;
     unit_start := fun _ => -1; unit_free := fun _ => 0; last_x := -1; pending_pred := -1; redirect := 0;
     fetch_hist := []; nb_hist := []; ser_until := 0; cr_free := 0; stop_f := -1; stop_until := 0;
     branch_x := 0; sym := ∅; fresh := 0; stores := [] |}.

Definition set_unit (f : execution_unit -> Z) (u : execution_unit) (v : Z) : execution_unit -> Z :=
  fun u' => if bool_decide (u' = u) then v else f u'.
Definition is_unit (i : Insn) (u : execution_unit) : bool := bool_decide (unit_ i = u).
Definition count {A} (p : A -> bool) (l : list A) : Z := Z.of_nat (length (List.filter p l)).
Definition sum_of {A} (f : A -> Z) (l : list A) : Z := fold_right (fun x s => f x + s) 0 l.
(** [max(l, default=0)] *)
Definition max_of (l : list Z) : Z := match l with [] => 0 | x :: l' => fold_left Z.max l' x end.
Definition n_dst (i : Insn) : Z := Z.of_nat (size (dst i)).
Definition n_crd (i : Insn) : Z := Z.of_nat (size (crd i)).
Definition has_crd (i : Insn) : bool := negb (n_crd i =? 0).
Definition has_crs (i : Insn) : bool := negb (Z.of_nat (size (crs i)) =? 0).

Definition prev_D (nb : list timing) : Z := match nb with q :: _ => t_D q | [] => 0 end.
Definition prev_C (nb : list timing) : Z := match nb with q :: _ => t_C q | [] => 0 end.

(** [max((prod.get(g, 0) for g in regs), default=0)] *)
Definition ready_of (prod : gmap Z Z) (regs : gset Z) : Z := max_of (map (fun g => default 0 (prod !! g)) (elements regs)).

(** ** Fetch *)
Section Schedule.
Variable g : config.
#[local] Abbreviation rules := (core g).

(** The two instructions of one aligned doubleword per cycle (A2). *)
Definition fetch_slot (fh : list (Z * Z)) (pc f : Z) : bool :=
  match fh with
  | (f1, pc1) :: rest =>
      if f1 =? f then
        let first := match rest with (f2, _) :: _ => negb (f2 =? f) | [] => true end in
        let seq := (pc1 + 4 =? pc) && (fetch_any g || (pc mod 8 =? 4)) in
        first && seq
      else true
  | [] => true
  end.

Definition iq_occupancy (nb : list timing) (f : Z) : Z :=
  count (fun q => (t_F q <? f) && (f <=? t_D q)) (take 8 nb) + count (fun q => t_F q =? f) (take 2 nb).

Definition fetch_ok (s : sched) (i : Insn) (f : Z) : bool :=
  fetch_slot (fetch_hist s) (pc i) f
  && (is_unit i BPU || negb (IQ_LIMIT <? iq_occupancy (nb_hist s) f + 1)).

(** A held branch stops fetch until [stop_until] (A14). *)
Definition restart (s : sched) (f : Z) : Z :=
  if negb (f =? stop_f s) && (f <? stop_until s) then stop_until s else f.

Fixpoint fetch_cycle (fuel : nat) (s : sched) (i : Insn) (f : Z) : option Z :=
  match fuel with
  | O => None
  | S fuel' =>
      let f := restart s f in
      if fetch_ok s i f then Some f else fetch_cycle fuel' s i (f + 1)
  end.

Definition fetch_from (s : sched) : Z :=
  Z.max (redirect s) (match fetch_hist s with (f, _) :: _ => f | [] => 0 end).

(** ** Dispatch *)
Definition pairs_with (nb : list timing) (d : Z) : bool := match nb with q :: _ => t_D q =? d | [] => false end.
Definition prev_unit_is (nb : list timing) (u : execution_unit) : bool :=
  match nb with q :: _ => bool_decide (t_unit q = u) | [] => false end.
Definition prev_dserial (nb : list timing) : bool := match nb with q :: _ => dserial (t_ins q) | [] => false end.

Definition cq_late : Z := if cq_same rules then 0 else 1.
Definition cq_busy (nb : list timing) (d : Z) : Z := count (fun q => d <? t_C q + cq_late) (take 7 nb).
Definition renames (nb : list timing) (d : Z) : Z :=
  sum_of (fun q => if d <=? t_C q then n_dst (t_ins q) else 0) (take 7 nb).

Definition allowed_units (nb : list timing) (i : Insn) (d : Z) (units : list execution_unit) : list execution_unit :=
  if dq0_iu rules && is_unit i ADD
  then if pairs_with nb d && prev_unit_is nb IU then [SRU] else [IU]
  else units.

Definition available (s : sched) (i : Insn) (d : Z) (units : list execution_unit) : list execution_unit :=
  let nb := nb_hist s in
  List.filter (fun u => (unit_start s u <=? d) && negb (pairs_with nb d && prev_unit_is nb u))
    (allowed_units nb i d units).

(** One turn of the [while True] of [dispatch_cycle]: the units, or try the next cycle. *)
Definition dispatch_at (s : sched) (i : Insn) (d : Z) (units : list execution_unit) : option (list execution_unit) :=
  let nb := nb_hist s in
  if pairs_with nb d
     && ((2 <=? count (fun q => t_D q =? d) (take 2 nb)) || prev_dserial nb || dserial i)
  then None
  else
    match available s i d units with
    | [] => None
    | avail =>
        if (CQ_LIMIT <? cq_busy nb d + 1) || (GPR_LIMIT <? renames nb d + n_dst i) then None else Some avail
    end.

Fixpoint dispatch_cycle (fuel : nat) (s : sched) (i : Insn) (d : Z) (units : list execution_unit)
  : option (Z * list execution_unit) :=
  match fuel with
  | O => None
  | S fuel' =>
      match dispatch_at s i d units with
      | Some avail => Some (d, avail)
      | None => dispatch_cycle fuel' s i (d + 1) units
      end
  end.

(** ** Symbolic addresses (A6) *)
Definition gpr_sym (s : sched) (r : Z) : gmap Z (Z * Z) * Z * (Z * Z) :=
  match sym s !! r with
  | Some v => (sym s, fresh s, v)
  | None => (<[r := (fresh s + 1, 0)]> (sym s), fresh s + 1, (fresh s + 1, 0))
  end.

Definition with_sym (s : sched) (m : gmap Z (Z * Z)) (n : Z) : sched :=
  {| out := out s; gpr_prod := gpr_prod s; cr_prod := cr_prod s; lr_ready := lr_ready s; ctr_ready := ctr_ready s;
     unit_start := unit_start s; unit_free := unit_free s; last_x := last_x s; pending_pred := pending_pred s;
     redirect := redirect s; fetch_hist := fetch_hist s; nb_hist := nb_hist s; ser_until := ser_until s;
     cr_free := cr_free s; stop_f := stop_f s; stop_until := stop_until s; branch_x := branch_x s;
     sym := m; fresh := n; stores := stores s |}.
Definition with_stores (s : sched) (l : list (Z * Z * Z * Z)) : sched :=
  {| out := out s; gpr_prod := gpr_prod s; cr_prod := cr_prod s; lr_ready := lr_ready s; ctr_ready := ctr_ready s;
     unit_start := unit_start s; unit_free := unit_free s; last_x := last_x s; pending_pred := pending_pred s;
     redirect := redirect s; fetch_hist := fetch_hist s; nb_hist := nb_hist s; ser_until := ser_until s;
     cr_free := cr_free s; stop_f := stop_f s; stop_until := stop_until s; branch_x := branch_x s;
     sym := sym s; fresh := fresh s; stores := l |}.

Definition displaced (off w : Z) : Z := Z.land (off + sext (Z.land w 0xFFFF) 16) 0xFFFFFFFF.

(** The access's symbolic EA and its wait on older stores. *)
Definition track (s : sched) (i : Insn) (w : Z) : sched * option (Z * Z) * Z :=
  let ra := Z.land (Z.shiftr w 16) 31 in
  let n := access_bytes w in
  if truthy n then
    let '(m, k, (root, off)) := if truthy ra then gpr_sym s ra else (sym s, fresh s, (0, 0)) in
    let lo := displaced off w in
    let hi := lo + n in
    let wait :=
      if load i
      then max_of (omap (fun '(r, slo, shi, sc) =>
                           if (r =? root) && (slo <? hi) && (lo <? shi) then Some (sc + 1) else None) (stores s))
      else 0 in
    (with_sym s m k, Some (root, lo), wait)
  else (s, None, 0).

(** The symbolic value of one written register. *)
Definition write_sym (w : Z) (ea : option (Z * Z)) (s : sched) (r : Z) : sched :=
  let op := Z.shiftr w 26 in
  let rd := rd_of w in let ra := ra_of w in let rb := rb_of w in
  if (op =? 14) && truthy ra && (r =? rd) then
    let '(m, k, (root, off)) := gpr_sym s ra in with_sym s (<[r := (root, displaced off w)]> m) k
  else if (op =? 31) && (Z.land (Z.shiftr w 1) 0x3FF =? 444) && (rd =? rb) && (r =? ra) then
    let '(m, k, v) := gpr_sym s rd in with_sym s (<[r := v]> m) k
  else
    match ea with
    | Some e => if (r =? ra) && negb (ra =? rd) then with_sym s (<[r := e]> (sym s)) (fresh s)
                else with_sym s (<[r := (fresh s + 1, 0)]> (sym s)) (fresh s + 1)
    | None => with_sym s (<[r := (fresh s + 1, 0)]> (sym s)) (fresh s + 1)
    end.

(** Record a store and the GPR values this instruction writes; the last eight
    stores are kept. *)
Definition written (s : sched) (i : Insn) (w : Z) (ea : option (Z * Z)) (c : Z) : sched :=
  let s := match ea with
           | Some (root, lo) => if store i then with_stores s (take 8 ((root, lo, lo + access_bytes w, c) :: stores s)) else s
           | None => s
           end in
  fold_left (write_sym w ea) (elements (dst i)) s.

(** ** Branches *)

(** The cycle the branch executes, before and after it waits for LR and CTR and
    for an outstanding prediction, and the cycle it resolves. *)
Definition branch_exec (s : sched) (i : Insn) (x : Z) : Z * Z :=
  let need := x in
  let need := if lr_r i then Z.max need (lr_ready s) else need in
  let need := if ctr_r i then Z.max need (ctr_ready s) else need in
  let x := Z.max x need in
  let cr_avail := ready_of (cr_prod s) (crs i) in
  let resolve := x in
  let x := if has_crs i && (x <? pending_pred s) then pending_pred s else x in
  let resolve := if has_crs i && (x <? cr_avail) then cr_avail else resolve in
  (x, resolve).

(** The misprediction flag, the outstanding prediction and the redirect. *)
Definition branch_predict (s : sched) (i : Insn) (x resolve : Z) (taken : bool) : option bool * Z * Z :=
  if x <? resolve then
    let pred := predict_taken i in
    let redirect :=
      if Bool.eqb pred taken then if taken then x + 1 else 0
      else resolve + 1 + (if miss_late rules then 2 else 0) in
    (Some (negb (Bool.eqb pred taken)), resolve, redirect)
  else (None, pending_pred s, if taken then x + 1 else 0).

(** The completion slot a branch takes under [branch_slot]. *)
Definition branch_complete (nb : list timing) (c : Z) : Z :=
  match nb with
  | q :: _ => if (t_C q =? c) && (2 <=? count (fun q => t_C q =? c) (take 2 nb)) then c + 1 else c
  | [] => c
  end.

Definition branch_step (fuel : nat) (s : sched) (i : Insn) (f : Z) (taken : bool) : option sched :=
  let x0 := Z.max (f + 1) (last_x s + 1) in
  let slot := if branch_slot rules
              then match dispatch_cycle fuel s i (Z.max (Z.max (f + 1) (prev_D (nb_hist s))) (ser_until s)) [BPU] with
                   | Some (d, _) => Some (Some d)
                   | None => None
                   end
              else Some None in
  match slot with
  | None => None
  | Some slot =>
      let '(x, resolve) := branch_exec s i (match slot with Some d => Z.max x0 d | None => x0 end) in
      let held := x0 <? x in
      let '(mispredict, pending, redirect) := branch_predict s i x resolve taken in
      let t := match slot with
               | Some d => let c := branch_complete (nb_hist s) (Z.max resolve (prev_C (nb_hist s))) in
                           Some {| t_ins := i; t_F := f; t_D := d; t_S := x; t_E := x; t_C := c; t_unit := BPU |}
               | None => None
               end in
      let c := match t with
               | Some t => t_C t
               | None => match out s with r :: _ => row_C r | [] => 0 end
               end in
      Some
        {| out := Branch i f x resolve c mispredict t :: out s;
           gpr_prod := gpr_prod s; cr_prod := cr_prod s;
           lr_ready := if lr_w i then x + 1 else lr_ready s;
           ctr_ready := if ctr_w i then resolve + 1 else ctr_ready s;
           unit_start := unit_start s; unit_free := unit_free s; last_x := x; pending_pred := pending;
           redirect := redirect; fetch_hist := (f, pc i) :: fetch_hist s;
           nb_hist := match t with Some t => t :: nb_hist s | None => nb_hist s end;
           ser_until := ser_until s; cr_free := cr_free s;
           stop_f := if held then f else stop_f s; stop_until := if held then x + 1 else stop_until s;
           branch_x := x; sym := sym s; fresh := fresh s; stores := stores s |}
  end.

(** ** Other instructions *)

(** The first cycle the rules let the instruction dispatch. *)
Definition dispatch_from (s : sched) (i : Insn) (f : Z) : Z :=
  let nb := nb_hist s in
  let d := Z.max (Z.max (Z.max (f + 1) (prev_D nb)) (ser_until s)) (branch_x s) in
  let d := if dserial i && negb (Nat.eqb (length nb) 0) then Z.max d (max_of (map t_C (take 5 nb)) + 1) else d in
  let d := if cr_token rules && has_crd i then Z.max d (cr_free s) else d in
  if lsu_base rules && is_unit i LSU then
    let base := if store i then src i ∖ {[rd_of (word i)]} else src i in
    fold_left Z.max (map (fun r => default 0 (gpr_prod s !! r)) (elements base)) d
  else d.

Definition units_of (i : Insn) : list execution_unit :=
  if is_unit i ADD then if sru_add g then [IU; SRU] else [IU] else [unit_ i].

(** When the operands, and the CR rename, allow execution to start. *)
Definition ready_at (s : sched) (i : Insn) (st_wait : Z) : Z :=
  let ready := ready_of (gpr_prod s) (src i) in
  let ready := Z.max ready st_wait in
  let ready := Z.max ready (ready_of (cr_prod s) (crs i)) in
  let ready := if lr_r i then Z.max ready (lr_ready s) else ready in
  let ready := if ctr_r i then Z.max ready (ctr_ready s) else ready in
  if has_crd i then Z.max ready (cr_free s - lat i + 1) else ready.

Definition start_on (s : sched) (i : Insn) (d ready : Z) (u : execution_unit) : Z :=
  let st := Z.max (Z.max (d + 1) ready) (unit_free s u) in
  if serial i && negb (Nat.eqb (length (nb_hist s)) 0) then Z.max st (prev_C (nb_hist s) + 1) else st.

(** The unit that starts first; the first of the list on a tie. *)
Definition best_unit (s : sched) (i : Insn) (d ready : Z) (avail : list execution_unit) : option (Z * execution_unit) :=
  fold_left (fun best u =>
      let st := start_on s i d ready u in
      match best with
      | Some (b, _) => if st <? b then Some (st, u) else best
      | None => Some (st, u)
      end) avail None.

(** Unit of the next non-branch instruction, among the following six. *)
Definition next_unit (following : list (Z * Z)) : option execution_unit :=
  match find (fun p => negb (is_unit (insn g (fst p) (snd p)) BPU)) (take 6 following) with
  | Some p => Some (unit_ (insn g (fst p) (snd p)))
  | None => None
  end.

(** A10: on a tie the SRU, when the next instruction needs the IU. *)
Definition choose_unit (s : sched) (i : Insn) (d ready : Z) (avail : list execution_unit) (following : list (Z * Z))
  : option (Z * execution_unit) :=
  match best_unit s i d ready avail with
  | Some (st, u) =>
      let sru_tie := existsb (fun v => bool_decide (v = SRU) && (start_on s i d ready SRU =? st)) avail in
      Some (st, if bool_decide (u = IU) && sru_tie && bool_decide (next_unit following = Some IU) then SRU else u)
  | None => None
  end.

(** The completion cycle: the one tried, or the next when the instruction may
    not complete beside the previous one. *)
Definition complete_at (nb : list timing) (i : Insn) (c : Z) : Z :=
  match nb with
  | q :: _ =>
      if t_C q =? c then
        let two := 2 <=? count (fun q => t_C q =? c) (take 2 nb) in
        let kind_ok := negb (store i || serial i || is_unit i FPU) in
        let gpr := n_dst i + n_dst (t_ins q) <=? 2 in
        let crw := n_crd i + n_crd (t_ins q) <=? 1 in
        if two || negb kind_ok || negb gpr || negb crw then c + 1 else c
      else c
  | [] => c
  end.

Definition put_all (prod : gmap Z Z) (regs : gset Z) (v : Z) : gmap Z Z :=
  fold_left (fun m r => <[r := v]> m) (elements regs) prod.

(** Everything after the unit is chosen: start [st] on [u]. *)
Definition finish_step (s : sched) (i : Insn) (f d st : Z) (u : execution_unit) (ea : option (Z * Z)) : sched :=
  let nb := nb_hist s in
  let fin := st + lat i - 1 in
  let late := if late_retire rules then 2 else 1 in
  let c := complete_at nb i (Z.max (Z.max (fin + late) (prev_C nb)) (pending_pred s)) in
  let t := {| t_ins := i; t_F := f; t_D := d; t_S := st; t_E := fin; t_C := c; t_unit := u |} in
  let s' := written s i (word i) ea c in
  {| out := Plain t :: out s;
     gpr_prod := put_all (gpr_prod s) (dst i) (if serial i then c + 1 else fin + 1);
     cr_prod := put_all (cr_prod s) (crd i) (if cr_fast i then fin + 1 else if serial i then c + 1 else c);
     lr_ready := if lr_w i then fin + 1 else lr_ready s;
     ctr_ready := if ctr_w i then fin + 1 else ctr_ready s;
     unit_start := set_unit (unit_start s) u st;
     unit_free := set_unit (unit_free s) u (if bool_decide (u = LSU) || bool_decide (u = FPU) then st + 1 else fin + 1);
     last_x := last_x s; pending_pred := pending_pred s; redirect := 0;
     fetch_hist := (f, pc i) :: fetch_hist s; nb_hist := t :: nb;
     ser_until := if dserial i then c + 1 else ser_until s;
     cr_free := if has_crd i then c + 1 else cr_free s;
     stop_f := stop_f s; stop_until := stop_until s; branch_x := branch_x s;
     sym := sym s'; fresh := fresh s'; stores := stores s' |}.

Definition plain_step (fuel : nat) (s : sched) (i : Insn) (f : Z) (following : list (Z * Z)) : option sched :=
  match dispatch_cycle fuel s i (dispatch_from s i f) (units_of i) with
  | None => None
  | Some (d, avail) =>
      let '(s, ea, st_wait) := track s i (word i) in
      match choose_unit s i d (ready_at s i st_wait) avail following with
      | Some (st, u) => Some (finish_step s i f d st u ea)
      | None => None
      end
  end.

(** ** The pass over the stream *)

(** One instruction: fetched, then scheduled as a branch or through dispatch. *)
Definition step (fuel : nat) (s : sched) (pc w npc : Z) (following : list (Z * Z)) : option sched :=
  let i := insn g pc w in
  match fetch_cycle fuel s i (fetch_from s) with
  | None => None
  | Some f =>
      if is_unit i BPU then branch_step fuel s i f (negb (npc =? pc + 4))
      else plain_step fuel s i f following
  end.

Fixpoint run (fuel : nat) (s : sched) (stream : list (Z * Z * Z)) : option sched :=
  match stream with
  | [] => Some s
  | (pc, w, npc) :: rest =>
      match step fuel s pc w npc (map fst rest) with
      | Some s' => run fuel s' rest
      | None => None
      end
  end.

(** [schedule(stream, fetch_any, core)]: the records in program order. *)
Definition schedule (fuel : nat) (stream : list (Z * Z * Z)) : option (list row) :=
  match run fuel start stream with
  | Some s => Some (rev (out s))
  | None => None
  end.

End Schedule.

End perf_model.
