(* ===== verification/PerfTermination.v ===== *)
(** * When the cycle model returns ([sim/tools/perf_model_603e.py])

    [fetch_cycle] always finds a cycle. [dispatch_cycle] finds one exactly when
    the instruction writes at most [GPR_LIMIT] registers: an lmw of more than
    five registers keeps the source's [while True] turning for ever. *)
From S2P Require Import Prelude PerfInsn PerfModel.
Import perf_insn perf_model.

(** ** Searches *)

(** A bound past every entry of a list, and past a unit's reservation. *)
Definition horizon (s : sched) : Z :=
  fold_right (fun t m => Z.max (Z.max (t_F t) (t_D t)) (Z.max (t_C t) m))
    (fold_right (fun u m => Z.max (unit_start s u) m) (fold_right (fun p m => Z.max (fst p) m) 0 (fetch_hist s))
       [IU; SRU; ADD; LSU; BPU; FPU]) (nb_hist s) + 2.

Lemma fold_max_le {A} (f : A -> Z) l b : b <= fold_right (fun x m => Z.max (f x) m) b l.
Proof. induction l; cbn [fold_right]; lia. Qed.

Lemma fold_max_in {A} (f : A -> Z) l b x : In x l -> f x <= fold_right (fun x m => Z.max (f x) m) b l.
Proof. induction l as [| a l IH]; cbn [fold_right In]; [tauto |]. intros [-> | H]; [lia | specialize (IH H); lia]. Qed.

Lemma horizon_nb s t : In t (nb_hist s) -> t_F t + 2 <= horizon s /\ t_D t + 2 <= horizon s /\ t_C t + 2 <= horizon s.
Proof.
  unfold horizon. set (b := fold_right _ _ [IU; SRU; ADD; LSU; BPU; FPU]).
  induction (nb_hist s) as [| q l IH]; cbn [fold_right In] in *; [tauto |]. intros [-> | H]; [lia | specialize (IH H); lia].
Qed.

Lemma horizon_base s :
  fold_right (fun u m => Z.max (unit_start s u) m) (fold_right (fun p m => Z.max (fst p) m) 0 (fetch_hist s))
    [IU; SRU; ADD; LSU; BPU; FPU] + 2 <= horizon s.
Proof. unfold horizon. induction (nb_hist s); cbn [fold_right] in *; lia. Qed.

Lemma horizon_unit s u : unit_start s u + 2 <= horizon s.
Proof.
  pose proof (horizon_base s). pose proof (fold_max_in (unit_start s) [IU; SRU; ADD; LSU; BPU; FPU]
    (fold_right (fun p m => Z.max (fst p) m) 0 (fetch_hist s)) u) as H1.
  specialize (H1 ltac:(destruct u; cbn; tauto)). lia.
Qed.

Lemma horizon_fetch s p : In p (fetch_hist s) -> fst p + 2 <= horizon s.
Proof.
  intros Hp. pose proof (horizon_base s). pose proof (fold_max_in fst (fetch_hist s) 0 p Hp) as H1.
  pose proof (fold_max_le (unit_start s) [IU; SRU; ADD; LSU; BPU; FPU]
    (fold_right (fun p m => Z.max (fst p) m) 0 (fetch_hist s))) as H2. lia.
Qed.

Lemma count_none {A} (p : A -> bool) l : (forall x, In x l -> p x = false) -> count p l = 0.
Proof.
  unfold count. induction l as [| x l IH]; intros H; [reflexivity |]. cbn.
  rewrite (H x) by (left; reflexivity). apply IH. intros; apply H; right; assumption.
Qed.

Lemma in_take {A} (x : A) k l : In x (take k l) -> In x l.
Proof. revert l. induction k; intros [| y l]; cbn; try tauto. intros [-> | H]; auto. Qed.

Lemma fetch_ok_late s g i f : horizon s <= f -> fetch_ok g s i f = true.
Proof.
  intros Hf. unfold fetch_ok, fetch_slot, iq_occupancy. rewrite !count_none.
  - change (IQ_LIMIT <? 0 + 0 + 1) with false. rewrite orb_true_r, andb_true_r.
    pose proof (horizon_fetch s) as H. destruct (fetch_hist s) as [| [f1 pc1] l]; [reflexivity |].
    specialize (H (f1, pc1) ltac:(left; reflexivity)). cbn in H. destruct (Z.eqb_spec f1 f); [lia | reflexivity].
  - intros t Ht. apply in_take, horizon_nb in Ht. apply Z.eqb_neq. lia.
  - intros t Ht. apply in_take, horizon_nb in Ht. apply andb_false_iff. right. apply Z.leb_gt. lia.
Qed.

Lemma restart_le s f : f <= restart s f.
Proof.
  unfold restart. destruct (_ && _) eqn:E; [| lia]. apply andb_true_iff in E. rewrite Z.ltb_lt in E. lia.
Qed.

Lemma fetch_cycle_returns g s i fuel f :
  Z.max (horizon s) f < f + Z.of_nat fuel -> exists f', fetch_cycle g fuel s i f = Some f'.
Proof.
  revert f. induction fuel as [| fuel IH]; intros f Hf; [lia |]. cbn [fetch_cycle]. cbv zeta.
  pose proof (restart_le s f) as Hr. set (f' := restart s f) in *.
  destruct (fetch_ok g s i f') eqn:E; [eauto |]. apply IH.
  destruct (Z.le_gt_cases (horizon s) f'); [rewrite fetch_ok_late in E by assumption; discriminate | lia].
Qed.

Lemma sum_none {A} (f : A -> Z) l : (forall x, In x l -> f x = 0) -> sum_of f l = 0.
Proof.
  unfold sum_of. induction l as [| x l IH]; intros H; [reflexivity |]. cbn.
  rewrite (H x), IH; [reflexivity | intros; apply H; right; assumption | left; reflexivity].
Qed.

Lemma sum_nonneg {A} (f : A -> Z) l : (forall x, 0 <= f x) -> 0 <= sum_of f l.
Proof. intros H. unfold sum_of. induction l as [| x l IH]; cbn; [lia |]. specialize (H x). lia. Qed.

Lemma filter_all {A} (p : A -> bool) l : (forall x, In x l -> p x = true) -> List.filter p l = l.
Proof.
  induction l as [| x l IH]; intros H; [reflexivity |]. cbn. rewrite (H x) by (left; reflexivity).
  f_equal. apply IH. intros; apply H; right; assumption.
Qed.

Lemma dispatch_at_late g s i d units :
  units <> [] -> n_dst i <= GPR_LIMIT -> horizon s <= d -> exists avail, dispatch_at g s i d units = Some avail.
Proof.
  intros Hu Hn Hd. unfold dispatch_at.
  assert (Hp : pairs_with (nb_hist s) d = false).
  { unfold pairs_with. pose proof (horizon_nb s) as H. destruct (nb_hist s) as [| t l]; [reflexivity |].
    specialize (H t ltac:(left; reflexivity)). apply Z.eqb_neq. lia. }
  rewrite Hp. cbn [andb]. unfold available, allowed_units. rewrite Hp. cbn [andb].
  set (us := if (dq0_iu (core g) && is_unit i ADD)%bool then [IU] else units).
  assert (us <> []) by (subst us; destruct (_ && _); [discriminate | exact Hu]).
  rewrite filter_all by (intros u _; pose proof (horizon_unit s u); apply andb_true_iff; split; [apply Z.leb_le; lia | reflexivity]).
  destruct us as [| u us]; [congruence |].
  assert (cq_busy g (nb_hist s) d = 0) as ->.
  { apply count_none. intros t Ht. apply in_take, horizon_nb in Ht. unfold cq_late. apply Z.ltb_ge.
    destruct (cq_same (core g)); lia. }
  assert (renames (nb_hist s) d = 0) as ->.
  { apply sum_none. intros t Ht. apply in_take, horizon_nb in Ht. destruct (Z.leb_spec d (t_C t)); [lia | reflexivity]. }
  change (CQ_LIMIT <? 0 + 1) with false. destruct (Z.ltb_spec GPR_LIMIT (0 + n_dst i)); [lia |]. eauto.
Qed.

Lemma dispatch_cycle_returns g s i units fuel d :
  units <> [] -> n_dst i <= GPR_LIMIT -> Z.max (horizon s) d < d + Z.of_nat fuel ->
  exists d' avail, dispatch_cycle g fuel s i d units = Some (d', avail).
Proof.
  intros Hu Hn. revert d. induction fuel as [| fuel IH]; intros d Hd; [lia |]. cbn [dispatch_cycle].
  destruct (dispatch_at g s i d units) as [avail |] eqn:E; [eauto |]. apply IH.
  destruct (Z.le_gt_cases (horizon s) d) as [H |]; [| lia].
  destruct (dispatch_at_late g s i d units Hu Hn H). congruence.
Qed.

(** The search invariant: no cycle takes an instruction of six destinations. *)
Lemma dispatch_at_inv g s i d units avail :
  dispatch_at g s i d units = Some avail ->
  avail = available g s i d units /\ avail <> [] /\
  pairs_with (nb_hist s) d && ((2 <=? count (fun q => t_D q =? d) (take 2 (nb_hist s))) || prev_dserial (nb_hist s) || dserial i) = false /\
  cq_busy g (nb_hist s) d + 1 <= CQ_LIMIT /\ renames (nb_hist s) d + n_dst i <= GPR_LIMIT.
Proof.
  unfold dispatch_at.
  destruct (pairs_with (nb_hist s) d && _) eqn:E1; [discriminate |].
  destruct (available g s i d units) as [| u us] eqn:E2; [discriminate |].
  destruct ((CQ_LIMIT <? _) || _) eqn:E3; [discriminate |]. apply orb_false_iff in E3. rewrite !Z.ltb_ge in E3.
  intros [= <-]. repeat split; try tauto; discriminate.
Qed.

Lemma dispatch_cycle_inv g s i fuel d units d' avail :
  dispatch_cycle g fuel s i d units = Some (d', avail) -> d <= d' /\ dispatch_at g s i d' units = Some avail.
Proof.
  revert d. induction fuel as [| fuel IH]; intros d; [discriminate |]. cbn [dispatch_cycle].
  destruct (dispatch_at g s i d units) eqn:E; [intros [= <- <-]; split; [lia | exact E] |].
  intros H. apply IH in H. destruct H. split; [lia | assumption].
Qed.

Lemma n_dst_nonneg i : 0 <= n_dst i.
Proof. unfold n_dst. lia. Qed.

Lemma dispatch_cycle_limit g s i fuel d units r : dispatch_cycle g fuel s i d units = Some r -> n_dst i <= GPR_LIMIT.
Proof.
  destruct r as [d' avail]. intros H. apply dispatch_cycle_inv in H. destruct H as [_ H].
  apply dispatch_at_inv in H. destruct H as (_ & _ & _ & _ & H).
  enough (0 <= renames (nb_hist s) d') by lia. apply sum_nonneg. intros t. pose proof (n_dst_nonneg (t_ins t)).
  destruct (d' <=? t_C t); lia.
Qed.

(** ** More fuel changes nothing *)
Lemma fetch_cycle_mono g s i fuel fuel' f r :
  (fuel <= fuel')%nat -> fetch_cycle g fuel s i f = Some r -> fetch_cycle g fuel' s i f = Some r.
Proof.
  revert fuel' f. induction fuel as [| fuel IH]; intros [| fuel'] f Hle; try discriminate; [lia |].
  cbn [fetch_cycle]. destruct (fetch_ok _ _ _ _); [auto |]. apply IH. lia.
Qed.

Lemma dispatch_cycle_mono g s i fuel fuel' d units r :
  (fuel <= fuel')%nat -> dispatch_cycle g fuel s i d units = Some r -> dispatch_cycle g fuel' s i d units = Some r.
Proof.
  revert fuel' d. induction fuel as [| fuel IH]; intros [| fuel'] d Hle; try discriminate; [lia |].
  cbn [dispatch_cycle]. destruct (dispatch_at _ _ _ _ _); [auto |]. apply IH. lia.
Qed.

Lemma step_mono g fuel fuel' s pc w npc following s' :
  (fuel <= fuel')%nat -> step g fuel s pc w npc following = Some s' -> step g fuel' s pc w npc following = Some s'.
Proof.
  intros Hle. unfold step. destruct (fetch_cycle g fuel s _ _) as [f |] eqn:Ef; [| discriminate].
  rewrite (fetch_cycle_mono _ _ _ _ _ _ _ Hle Ef). destruct (is_unit _ _).
  - unfold branch_step. destruct (branch_slot (core g)); [| auto].
    destruct (dispatch_cycle g fuel _ _ _ _) as [r |] eqn:Ed; [| discriminate].
    rewrite (dispatch_cycle_mono _ _ _ _ _ _ _ _ Hle Ed). auto.
  - unfold plain_step. destruct (dispatch_cycle g fuel _ _ _ _) as [r |] eqn:Ed; [| discriminate].
    rewrite (dispatch_cycle_mono _ _ _ _ _ _ _ _ Hle Ed). auto.
Qed.

Lemma run_mono g fuel fuel' s stream s' :
  (fuel <= fuel')%nat -> run g fuel s stream = Some s' -> run g fuel' s stream = Some s'.
Proof.
  intros Hle. revert s. induction stream as [| [[pc w] npc] rest IH]; intros s; [auto |]. cbn [run].
  destruct (step g fuel s pc w npc (map fst rest)) eqn:E; [| discriminate].
  rewrite (step_mono _ _ _ _ _ _ _ _ _ Hle E). apply IH.
Qed.

(** ** How many registers an instruction writes *)
Lemma size_add (x : Z) (X : gset Z) : (size ({[x]} ∪ X) <= 1 + size X)%nat.
Proof.
  rewrite size_union_alt, size_singleton.
  assert (Hs : (size (X ∖ {[x]}) <= size X)%nat) by (apply subseteq_size, subseteq_difference_l; reflexivity). lia.
Qed.

Lemma size_pair (x y : Z) : (size ({[x]} ∪ ({[y]} ∪ (∅ : gset Z)) : gset Z) <= 2)%nat.
Proof. pose proof (size_add x ({[y]} ∪ ∅)). pose proof (size_add y ∅). rewrite size_empty in *. lia. Qed.

Lemma size_one (x : Z) : (size ({[x]} ∪ (∅ : gset Z) : gset Z) <= 2)%nat.
Proof. pose proof (size_add x ∅). rewrite size_empty in *. lia. Qed.

Lemma regs_between_size a b : a <= b -> Z.of_nat (size (regs_between a b)) = b - a.
Proof.
  intros H. unfold regs_between, as_set.
  rewrite size_list_to_set by apply NoDup_seqZ. rewrite length_seqZ. lia.
Qed.

Lemma rd_range w : 0 <= rd_of w < 32.
Proof. unfold rd_of. change 31 with (Z.ones 5). rewrite Z.land_ones by lia. apply Z.mod_pos_bound. lia. Qed.

Lemma dst_branch w k i : dst (_branch w k i) = dst i.
Proof. unfold _branch. destruct (truthy (Z.land _ 16)), (truthy (Z.land _ 4)); reflexivity. Qed.

Lemma if_dst b f i : (forall j, dst (f j) = dst j) -> dst (if_ b f i) = dst i.
Proof. intros H. destruct b; [apply H | reflexivity]. Qed.

Lemma loadstore_dst (b st : bool) rd ra i :
  dst i = ∅ -> (size (dst (if_ b (add_dst ra) (access st rd i))) <= 2)%nat.
Proof.
  intros E. destruct b, st; cbn [if_ access add_dst add_src dst with_dst with_src with_kind with_store with_load]; rewrite E;
    [apply size_one | apply size_pair | rewrite size_empty; lia | apply size_one].
Qed.

Lemma small_set (X : gset Z) : (exists x, X = {[x]}) \/ X = ∅ -> (size X <= 2)%nat.
Proof. intros [[x ->] | ->]; rewrite ?size_singleton, ?size_empty; lia. Qed.

(** Case analysis on a decoder whose branches set [dst] to a singleton. *)
Ltac small_dst :=
  repeat match goal with
  | |- context [if ?b then _ else _] => destruct b
  end; cbn; apply small_set; eauto.

Lemma x31_small m dv w rd ra rb rc xo10 xo9 i :
  dst i = ∅ -> (size (dst (_x31 m dv w rd ra rb rc xo10 xo9 i)) <= 2)%nat.
Proof.
  intros E. unfold _x31. destruct (table_mem loads_x31 xo10 || table_mem stores_x31 xo10);
    [apply loadstore_dst; exact E |].
  unfold arith_x31, _sru, if_. small_dst.
Qed.

Lemma decode_19_small w rd ra rb xo10 i : dst i = ∅ -> (size (dst (decode_19 w rd ra rb xo10 i)) <= 2)%nat.
Proof.
  intros E. unfold decode_19, _sru.
  destruct (xo10 =? 16); [cbn; rewrite dst_branch; apply small_set; auto |].
  destruct (xo10 =? 528); [cbn; rewrite dst_branch; apply small_set; auto |]. small_dst.
Qed.

Lemma n_dst_decoded m dv pc w :
  n_dst (mk_Insn m dv pc w) <= GPR_LIMIT <-> ~ (Z.shiftr w 26 = 46 /\ rd_of w < 27).
Proof.
  unfold n_dst, mk_Insn. set (i := blank pc w). assert (E : dst i = ∅) by reflexivity.
  assert (Hs : Z.shiftr w 26 <> 46 -> (size (dst (_decode m dv i)) <= 2)%nat).
  { intros Hop. unfold _decode. change (word i) with w. set (op := Z.shiftr w 26) in *.
    destruct (op =? 7); [small_dst |]. destruct (member op [8; 12; 13]); [unfold if_; small_dst |].
    destruct (member op [10; 11]); [small_dst |]. destruct (member op [14; 15]); [small_dst |].
    destruct (op =? 16); [cbn; rewrite dst_branch; apply small_set; auto |].
    destruct (op =? 18); [small_dst |]. destruct (op =? 19); [apply decode_19_small; exact E |].
    destruct (member op [20; 21; 23]); [unfold if_; small_dst |].
    destruct (member op [24; 25; 26; 27; 28; 29]); [unfold if_; small_dst |].
    destruct ((32 <=? op) && (op <=? 45)); [apply loadstore_dst; exact E |].
    unfold decode_multiple. rewrite (proj2 (Z.eqb_neq op 46)) by exact Hop.
    destruct (member op [46; 47]); [small_dst |]. destruct ((48 <=? op) && (op <=? 55)); [small_dst |].
    destruct (member op [59; 63]); [small_dst |]. destruct (op =? 31); [apply x31_small; exact E | small_dst]. }
  destruct (Z.eq_dec (Z.shiftr w 26) 46) as [Hop | Hop].
  - unfold _decode. change (word i) with w. rewrite Hop. cbn -[regs_between rd_of].
    pose proof (rd_range w). rewrite regs_between_size by lia. unfold GPR_LIMIT. lia.
  - specialize (Hs Hop). unfold GPR_LIMIT. split; [tauto | lia].
Qed.

Lemma unit_lmw m dv pc w : Z.shiftr w 26 = 46 -> unit_ (mk_Insn m dv pc w) = LSU.
Proof.
  intros Hop. unfold mk_Insn, _decode. change (word (blank pc w)) with w. rewrite Hop.
  cbn -[regs_between rd_of ra_of or_0]. reflexivity.
Qed.

(** ** The pass over a stream *)
Lemma units_nonempty g i : units_of g i <> [].
Proof. unfold units_of. destruct (is_unit i ADD), (sru_add g); discriminate. Qed.

Lemma best_unit_some s i d ready avail b : fold_left (fun best u =>
      let st := start_on s i d ready u in
      match best with
      | Some (b, _) => if st <? b then Some (st, u) else best
      | None => Some (st, u)
      end) avail (Some b) <> None.
Proof. revert b. induction avail as [| u l IH]; intros [b v]; [discriminate |]. cbn. destruct (_ <? _); apply IH. Qed.

Lemma choose_unit_some g s i d ready avail following :
  avail <> [] -> exists r, choose_unit g s i d ready avail following = Some r.
Proof.
  intros Ha. unfold choose_unit. destruct (best_unit s i d ready avail) as [[st u] |] eqn:E; [eauto |].
  destruct avail as [| u l]; [congruence |]. unfold best_unit in E. cbn in E. apply best_unit_some in E. contradiction.
Qed.

Definition small_insn (w : Z) : Prop := ~ (Z.shiftr w 26 = 46 /\ rd_of w < 27).

Lemma plain_step_returns g s i f following :
  n_dst i <= GPR_LIMIT -> exists fuel s', plain_step g fuel s i f following = Some s'.
Proof.
  intros Hn. set (d := dispatch_from g s i f).
  destruct (dispatch_cycle_returns g s i (units_of g i) (Z.to_nat (Z.max (horizon s) d - d + 1)) d) as (d' & avail & E);
    [apply units_nonempty | exact Hn | lia |].
  eexists. unfold plain_step. fold d. rewrite E. destruct (track s i (word i)) as [[s' ea] st_wait].
  apply dispatch_cycle_inv in E. destruct E as [_ E]. apply dispatch_at_inv in E. destruct E as (_ & Ha & _).
  destruct (choose_unit_some g s' i d' (ready_at s' i st_wait) avail following Ha) as [[st u] ->]. eauto.
Qed.

Lemma branch_step_returns g s i f taken :
  n_dst i <= GPR_LIMIT -> exists fuel s', branch_step g fuel s i f taken = Some s'.
Proof.
  intros Hn. set (d := Z.max (Z.max (f + 1) (prev_D (nb_hist s))) (ser_until s)).
  destruct (dispatch_cycle_returns g s i [BPU] (Z.to_nat (Z.max (horizon s) d - d + 1)) d) as (d' & avail & E);
    [discriminate | exact Hn | lia |].
  eexists. unfold branch_step. fold d. rewrite E.
  destruct (branch_slot (core g)); cbv iota beta zeta; destruct (branch_exec s i _) as [x resolve];
    destruct (branch_predict g s i x resolve taken) as [[m pend] red]; eauto.
Qed.

Lemma step_returns g s pc w npc following :
  small_insn w -> exists fuel s', step g fuel s pc w npc following = Some s'.
Proof.
  intros Hw. apply (n_dst_decoded (mul g) (div_cycles g) pc w) in Hw. unfold step. fold (insn g pc w) in Hw.
  set (i := insn g pc w) in *.
  destruct (fetch_cycle_returns g s i (Z.to_nat (Z.max (horizon s) (fetch_from s) - fetch_from s + 1)) (fetch_from s))
    as [f Ef]; [lia |].
  set (n := Z.to_nat _) in Ef. destruct (is_unit i BPU).
  - destruct (branch_step_returns g s i f (negb (npc =? pc + 4)) Hw) as (m & s' & E).
    exists (Nat.max n m), s'. rewrite (fetch_cycle_mono g s i n (Nat.max n m) _ f) by (lia || exact Ef).
    revert E. unfold branch_step. destruct (branch_slot (core g)); [| auto].
    destruct (dispatch_cycle g m _ _ _ _) as [r |] eqn:Ed; [| discriminate].
    rewrite (dispatch_cycle_mono g s i m (Nat.max n m) _ _ r) by (lia || exact Ed). auto.
  - destruct (plain_step_returns g s i f following Hw) as (m & s' & E).
    exists (Nat.max n m), s'. rewrite (fetch_cycle_mono g s i n (Nat.max n m) _ f) by (lia || exact Ef).
    revert E. unfold plain_step.
    destruct (dispatch_cycle g m _ _ _ _) as [r |] eqn:Ed; [| discriminate].
    rewrite (dispatch_cycle_mono g s i m (Nat.max n m) _ _ r) by (lia || exact Ed). auto.
Qed.

Lemma run_returns g s stream :
  Forall (fun '(_, w, _) => small_insn w) stream -> exists fuel s', run g fuel s stream = Some s'.
Proof.
  revert s. induction stream as [| [[pc w] npc] rest IH]; intros s H; [exists 0%nat; eauto |].
  apply Forall_cons in H. destruct H as [Hw H].
  destruct (step_returns g s pc w npc (map fst rest) Hw) as (n & s1 & E).
  destruct (IH s1 H) as (m & s2 & E2). exists (Nat.max n m), s2. cbn [run].
  rewrite (step_mono g n (Nat.max n m) _ _ _ _ _ s1) by (lia || exact E).
  apply (run_mono g m); [lia | exact E2].
Qed.

(** A word whose decoded destinations exceed the renames is not a branch. *)
Lemma step_small g fuel s pc w npc following s' :
  step g fuel s pc w npc following = Some s' -> is_unit (insn g pc w) BPU = true \/ n_dst (insn g pc w) <= GPR_LIMIT.
Proof.
  unfold step. destruct (fetch_cycle _ _ _ _ _); [| discriminate].
  destruct (is_unit (insn g pc w) BPU); [auto |]. unfold plain_step.
  destruct (dispatch_cycle g fuel _ _ _ _) eqn:E; [| discriminate]. apply dispatch_cycle_limit in E. auto.
Qed.

Lemma track_same s i w s' ea st_wait :
  track s i w = (s', ea, st_wait) -> exists m k, s' = with_sym s m k.
Proof.
  unfold track. destruct (truthy (access_bytes w)).
  - destruct (if truthy _ then _ else _) as [[m k] [root off]]. intros H. apply pair_equal_spec in H.
    destruct H as [H _]. apply pair_equal_spec in H. destruct H as [<- _]. eauto.
  - intros H. apply pair_equal_spec in H. destruct H as [H _]. apply pair_equal_spec in H. destruct H as [<- _].
    exists (sym s), (fresh s). destruct s; reflexivity.
Qed.

Lemma branch_step_out g fuel s i f taken s' : branch_step g fuel s i f taken = Some s' -> exists r, out s' = r :: out s.
Proof.
  unfold branch_step. destruct (if branch_slot _ then _ else _); [| discriminate].
  destruct (branch_exec s _ _) as [x resolve]. destruct (branch_predict _ _ _ _ _ _) as [[m pend] red].
  intros H. apply (inj Some) in H. rewrite <- H. cbn [out]. eauto.
Qed.

Lemma plain_step_out g fuel s i f following s' :
  plain_step g fuel s i f following = Some s' -> exists r, out s' = r :: out s.
Proof.
  unfold plain_step. destruct (dispatch_cycle _ _ _ _ _ _) as [[d avail] |]; [| discriminate].
  destruct (track s i (word i)) as [[s1 ea] wt] eqn:Et. destruct (choose_unit _ _ _ _ _ _ _) as [[st u] |]; [| discriminate].
  intros H. apply (inj Some) in H. rewrite <- H. destruct (track_same _ _ _ _ _ _ Et) as (m & k & ->).
  unfold finish_step. cbn [out with_sym]. eauto.
Qed.

Lemma step_out g fuel s pc w npc following s' :
  step g fuel s pc w npc following = Some s' -> exists r, out s' = r :: out s.
Proof.
  unfold step. destruct (fetch_cycle _ _ _ _ _); [| discriminate].
  destruct (is_unit _ _); [apply branch_step_out | apply plain_step_out].
Qed.

Lemma run_inv_small g fuel s stream s' :
  run g fuel s stream = Some s' ->
  Forall (fun '(_, w, _) => small_insn w) stream /\ length (out s') = (length stream + length (out s))%nat.
Proof.
  revert s. induction stream as [| [[pc w] npc] rest IH]; intros s; [intros [= <-]; split; [constructor | reflexivity] |].
  cbn [run]. destruct (step g fuel s pc w npc (map fst rest)) as [s1 |] eqn:E; [| discriminate].
  intros H. apply IH in H. destruct H as [H1 H2]. destruct (step_out _ _ _ _ _ _ _ _ E) as [r Er].
  rewrite Er in H2. cbn in H2 |- *. split; [| lia]. constructor; [| exact H1].
  apply step_small in E. destruct E as [E | E]; [| apply n_dst_decoded in E; exact E].
  intros [Hop _]. apply bool_decide_eq_true in E. unfold insn in E. rewrite (unit_lmw _ _ _ _ Hop) in E. discriminate.
Qed.

(** C17. The cycle model returns exactly on the streams without an lmw of more
    than five registers. On any other stream the searches of every instruction
    succeed, and [schedule] gives one record per instruction; once a stream
    holds an lmw whose first register is below r27, which needs more GPR
    renames than the five there are, no amount of fuel is enough: the source's
    [dispatch_cycle] never leaves its [while True]. *)
Theorem schedule_returns_iff g stream :
  (exists fuel rows, schedule g fuel stream = Some rows /\ length rows = length stream) <->
  Forall (fun '(_, w, _) => ~ (Z.shiftr w 26 = 46 /\ rd_of w < 27)) stream.
Proof.
  unfold schedule. split.
  - intros (fuel & rows & H & _). destruct (run g fuel start stream) as [s' |] eqn:E; [| discriminate].
    apply (run_inv_small _ _ _ _ _ E).
  - intros H. destruct (run_returns g start stream H) as (fuel & s' & E). exists fuel, (rev (out s')).
    rewrite E. split; [reflexivity |]. rewrite length_rev. apply run_inv_small in E. destruct E as [_ E].
    rewrite E. cbn. lia.
Qed.
