(* ===== verification/PerfInvariant.v ===== *)
(** * What a schedule of the cycle model respects ([sim/tools/perf_model_603e.py])

    The searches of [schedule] look at the last few records only; here the
    limits they enforce hold over the whole schedule, at every cycle. *)
From Stdlib Require Import Sorting.Sorted.
From S2P Require Import Prelude PerfInsn PerfModel PerfTermination.
Import perf_insn perf_model.

(** ** Vocabulary *)
Definition row_timing (r : row) : option timing :=
  match r with Plain t => Some t | Branch _ _ _ _ _ _ slot => slot end.
(** The records of [nb_hist], in program order. *)
Definition timings (rows : list row) : list timing := omap row_timing rows.

Definition pipelined (u : execution_unit) : bool := bool_decide (u = LSU) || bool_decide (u = FPU).
(** The cycle from which a result may be read, and a unit may start again. *)
Definition avail_at (t : timing) : Z := if serial (t_ins t) then t_C t + 1 else t_E t + 1.
Definition free_at (t : timing) : Z := if pipelined (t_unit t) then t_S t + 1 else t_E t + 1.
Definition writes (r : Z) (t : timing) : bool := bool_decide (r ∈ dst (t_ins t)).
(** The youngest writer of [r] in a list kept newest first. *)
Definition last_writer (r : Z) (nb : list timing) : option timing := find (writes r) nb.

Record legal (g : config) (ts : list timing) : Prop := {
  dispatch_in_order : StronglySorted Z.le (map t_D ts);
  complete_in_order : StronglySorted Z.le (map t_C ts);
  dispatch_two : forall d, count (fun t => t_D t =? d) ts <= 2;
  complete_two : forall c, count (fun t => t_C t =? c) ts <= 2;
  queue_five : forall d, count (fun t => (t_D t <=? d) && (d <? t_C t + cq_late g)) ts <= CQ_LIMIT;
  renames_five : forall d,
    sum_of (fun t => if (t_D t <=? d) && (d <=? t_C t) then n_dst (t_ins t) else 0) ts <= GPR_LIMIT;
  stages : forall t, In t ts -> t_unit t <> BPU -> t_F t < t_D t < t_S t /\ t_S t <= t_E t < t_C t;
  operands : forall l1 t l2 r q, ts = l1 ++ t :: l2 -> t_unit t <> BPU -> r ∈ src (t_ins t) ->
    last_writer r (rev l1) = Some q -> avail_at q <= t_S t;
  units_exclusive : forall l1 t l2 q, ts = l1 ++ t :: l2 -> In q l1 -> t_unit q = t_unit t -> t_unit t <> BPU ->
    free_at q <= t_S t
}.

(** ** The step invariant, newest first *)
Record fits (g : config) (t : timing) (rest : list timing) : Prop := {
  fit_D : prev_D rest <= t_D t;
  fit_C : prev_C rest <= t_C t;
  fit_pair : match rest with q1 :: q2 :: _ => ~ (t_D q1 = t_D t /\ t_D q2 = t_D t) | _ => True end;
  fit_retire : match rest with q1 :: q2 :: _ => ~ (t_C q1 = t_C t /\ t_C q2 = t_C t) | _ => True end;
  fit_cq : cq_busy g rest (t_D t) + 1 <= CQ_LIMIT;
  fit_renames : renames rest (t_D t) + n_dst (t_ins t) <= GPR_LIMIT;
  fit_stages : t_unit t <> BPU -> t_F t < t_D t < t_S t /\ t_S t <= t_E t < t_C t;
  fit_operands : t_unit t <> BPU -> forall r q, r ∈ src (t_ins t) -> last_writer r rest = Some q -> avail_at q <= t_S t;
  fit_units : t_unit t <> BPU -> forall q, In q rest -> t_unit q = t_unit t -> free_at q <= t_S t
}.

Fixpoint limits (g : config) (nb : list timing) : Prop :=
  match nb with [] => True | t :: rest => fits g t rest /\ limits g rest end.

(** ** Windows over ordered lists *)
Section Windows.
Context {A : Type} (f : A -> Z).
#[local] Abbreviation newest_first := (StronglySorted (fun a b => f b <= f a)).

Lemma count_app (p : A -> bool) l1 l2 : count p (l1 ++ l2) = count p l1 + count p l2.
Proof. unfold count. rewrite List.filter_app, length_app. lia. Qed.

Lemma count_rev (p : A -> bool) l : count p (rev l) = count p l.
Proof. induction l as [| x l IH]; [reflexivity |]. cbn. rewrite count_app, IH. change (x :: l) with ([x] ++ l).
  rewrite count_app. lia. Qed.

Lemma count_nonneg (p : A -> bool) l : 0 <= count p l.
Proof. unfold count. lia. Qed.

Lemma count_cons (p : A -> bool) x l : count p (x :: l) = (if p x then 1 else 0) + count p l.
Proof. unfold count. cbn [List.filter]. destruct (p x); cbn [length]; lia. Qed.

Lemma count_le (p q : A -> bool) l : (forall x, In x l -> p x = true -> q x = true) -> count p l <= count q l.
Proof.
  induction l as [| x l IH]; intros H; [reflexivity |]. rewrite !count_cons.
  specialize (IH (fun y Hy => H y (or_intror Hy))). specialize (H x (or_introl eq_refl)).
  destruct (p x); [rewrite H by reflexivity |]; destruct (q x); lia.
Qed.

Lemma count_take (p : A -> bool) k l : count p (take k l) <= count p l.
Proof.
  revert l. induction k as [| k IH]; intros l; [apply count_nonneg |].
  destruct l as [| x l]; [reflexivity |]. cbn [take]. rewrite !count_cons. specialize (IH l). lia.
Qed.

Lemma newest_tail x l : newest_first (x :: l) -> newest_first l /\ forall y, In y l -> f y <= f x.
Proof. intros H. apply StronglySorted_inv in H. destruct H as [H1 H2]. rewrite List.Forall_forall in H2. auto. Qed.

(** A threshold on an ordered list selects a prefix: a window of [k] elements
    that are not all selected holds every selected element. *)
Lemma window_count (d : Z) k l :
  newest_first l -> count (fun x => d <=? f x) (take k l) < Z.of_nat k ->
  count (fun x => d <=? f x) l = count (fun x => d <=? f x) (take k l) /\
  forall x, In x (drop k l) -> f x < d.
Proof.
  revert l. induction k as [| k IH]; intros l Hl Hc; [pose proof (count_nonneg (fun x => d <=? f x) (take 0 l)); lia |].
  destruct l as [| x l]; [split; [reflexivity | cbn; tauto] |].
  apply newest_tail in Hl. destruct Hl as [Hl Hx]. cbn [take drop] in *. rewrite !count_cons in *.
  destruct (Z.leb_spec d (f x)) as [H | H].
  - destruct (IH l Hl ltac:(lia)) as [E1 E2]. split; [lia | exact E2].
  - assert (N : forall y, In y l -> f y < d) by (intros y Hy; specialize (Hx y Hy); lia).
    rewrite !count_none by (intros y Hy; apply Z.leb_gt, N; eauto using in_take). split; [reflexivity |].
    intros y Hy. apply N. rewrite <- (take_drop k l). apply in_or_app. auto.
Qed.

Lemma sum_app (h : A -> Z) l1 l2 : sum_of h (l1 ++ l2) = sum_of h l1 + sum_of h l2.
Proof. unfold sum_of. induction l1; cbn [app fold_right]; lia. Qed.

Lemma sum_rev (h : A -> Z) l : sum_of h (rev l) = sum_of h l.
Proof.
  induction l as [| x l IH]; [reflexivity |]. cbn [rev]. rewrite sum_app, IH. unfold sum_of. cbn [fold_right]. lia.
Qed.

Lemma sum_le (h k : A -> Z) l : (forall x, In x l -> h x <= k x) -> sum_of h l <= sum_of k l.
Proof.
  unfold sum_of. induction l as [| x l IH]; intros H; cbn [fold_right]; [lia |].
  pose proof (H x (or_introl eq_refl)). specialize (IH (fun y Hy => H y (or_intror Hy))). lia.
Qed.

(** At most two elements share a value of [f] when no three neighbours do. *)
Lemma two_per_value l :
  newest_first l ->
  (forall l1 x y z l2, l = l1 ++ x :: y :: z :: l2 -> ~ (f y = f x /\ f z = f x)) ->
  forall v, count (fun x => f x =? v) l <= 2.
Proof.
  intros Hl H v. induction l as [| x l IH]; [unfold count; cbn; lia |].
  apply newest_tail in Hl. destruct Hl as [Hl Hx].
  specialize (IH Hl ltac:(intros l1 a b c l2 ->; apply (H (x :: l1) a b c l2 eq_refl))). rewrite count_cons.
  destruct (Z.eqb_spec (f x) v) as [E |]; [| lia].
  destruct l as [| y l]; [unfold count; cbn; lia |]. apply newest_tail in Hl. destruct Hl as [Hl Hy]. rewrite count_cons.
  pose proof (Hx y (or_introl eq_refl)) as Hxy.
  destruct (Z.eqb_spec (f y) v) as [E2 | N2].
  - rewrite count_none; [lia |]. intros z Hz. destruct l as [| w l]; [destruct Hz |].
    apply newest_tail in Hl. destruct Hl as [_ Hw]. pose proof (Hy w (or_introl eq_refl)).
    assert (f w <> v) by (intros E3; apply (H [] x y w l eq_refl); lia).
    destruct Hz as [<- | Hz]; apply Z.eqb_neq; [assumption |]. specialize (Hw z Hz). lia.
  - rewrite count_none; [lia |]. intros z Hz. specialize (Hy z Hz). apply Z.eqb_neq. lia.
Qed.

Lemma rev_newest l : newest_first l -> StronglySorted Z.le (map f (rev l)).
Proof.
  induction l as [| x l IH]; intros H; [constructor |]. apply newest_tail in H. destruct H as [H Hx].
  cbn [rev]. rewrite map_app. specialize (IH H). cbn [map].
  assert (F : Forall (fun y => y <= f x) (map f (rev l))).
  { apply Forall_forall. intros y Hy. apply list_elem_of_In, in_map_iff in Hy. destruct Hy as (z & <- & Hz).
    apply Hx. apply in_rev. exact Hz. }
  revert IH F. induction (map f (rev l)) as [| y m IHm]; intros Hm F; [repeat constructor |].
  apply StronglySorted_inv in Hm. destruct Hm as [Hm1 Hm2]. apply Forall_cons in F. destruct F as [F1 F2].
  cbn. constructor; [auto |]. apply List.Forall_app. auto.
Qed.
End Windows.

(** ** From neighbours to every cycle *)
Section Limits.
Variable g : config.

Lemma limits_sorted (f : timing -> Z) nb :
  (forall t rest, fits g t rest -> match rest with q :: _ => f q <= f t | [] => True end) ->
  limits g nb -> StronglySorted (fun a b => f b <= f a) nb.
Proof.
  intros Hf. induction nb as [| t rest IH]; intros H; [constructor |]. destruct H as [H1 H2].
  specialize (IH H2). constructor; [exact IH |]. apply Hf in H1. destruct rest as [| q rest]; [constructor |].
  apply newest_tail in IH. destruct IH as [_ IH]. apply List.Forall_forall.
  intros y [<- | Hy]; [exact H1 |]. specialize (IH y Hy). lia.
Qed.

Lemma limits_D nb : limits g nb -> StronglySorted (fun a b => t_D b <= t_D a) nb.
Proof. apply limits_sorted. intros t [| q rest] H; [exact I | exact (fit_D _ _ _ H)]. Qed.
Lemma limits_C nb : limits g nb -> StronglySorted (fun a b => t_C b <= t_C a) nb.
Proof. apply limits_sorted. intros t [| q rest] H; [exact I | exact (fit_C _ _ _ H)]. Qed.

Lemma limits_at l1 t rest : limits g (l1 ++ t :: rest) -> fits g t rest /\ limits g rest.
Proof. induction l1 as [| x l1 IH]; intros H; [exact H |]. apply IH, H. Qed.

Lemma limits_two_D nb d : limits g nb -> count (fun t => t_D t =? d) nb <= 2.
Proof.
  intros H. apply (two_per_value t_D); [apply limits_D, H |]. intros l1 x y z l2 -> [E1 E2].
  apply limits_at in H. destruct H as [H _]. exact (fit_pair _ _ _ H (conj E1 E2)).
Qed.
Lemma limits_two_C nb c : limits g nb -> count (fun t => t_C t =? c) nb <= 2.
Proof.
  intros H. apply (two_per_value t_C); [apply limits_C, H |]. intros l1 x y z l2 -> [E1 E2].
  apply limits_at in H. destruct H as [H _]. exact (fit_retire _ _ _ H (conj E1 E2)).
Qed.

Lemma cq_late_range : 0 <= cq_late g <= 1.
Proof. unfold cq_late. destruct (cq_same (core g)); lia. Qed.

(** [cq_busy] in the shape of a threshold on C. *)
Lemma busy_threshold l d :
  count (fun q => d <? t_C q + cq_late g) l = count (fun q => d + 1 - cq_late g <=? t_C q) l.
Proof.
  unfold count. do 2 f_equal. apply List.filter_ext. intros q. pose proof cq_late_range.
  destruct (Z.ltb_spec d (t_C q + cq_late g)), (Z.leb_spec (d + 1 - cq_late g) (t_C q)); lia.
Qed.

(** The seven records the search reads hold every busy completion entry ... *)
Lemma busy_window t rest :
  fits g t rest -> limits g rest -> count (fun q => t_D t <? t_C q + cq_late g) rest <= 4.
Proof.
  intros Hf Hl. pose proof (fit_cq _ _ _ Hf) as Hc. unfold cq_busy, CQ_LIMIT in Hc. rewrite busy_threshold in *.
  destruct (window_count t_C (t_D t + 1 - cq_late g) 7 rest (limits_C _ Hl)); lia.
Qed.

(** ... and every rename in use. *)
Lemma rename_window t rest q :
  fits g t rest -> limits g rest -> In q (drop 7 rest) -> t_C q < t_D t.
Proof.
  intros Hf Hl. apply (window_count t_C (t_D t) 7 rest (limits_C _ Hl)).
  pose proof (fit_cq _ _ _ Hf) as Hc. unfold cq_busy, CQ_LIMIT in Hc.
  pose proof (limits_two_C rest (t_D t) Hl) as H2. pose proof (count_take (fun t0 => t_C t0 =? t_D t) 7 rest) as H3.
  assert (H4 : forall l, count (fun x => t_D t <=? t_C x) l <=
            count (fun x => t_D t <? t_C x + cq_late g) l + count (fun x => t_C x =? t_D t) l).
  { intros l. induction l as [| x l IH]; [reflexivity |]. rewrite !count_cons. pose proof cq_late_range.
    destruct (Z.leb_spec (t_D t) (t_C x)), (Z.ltb_spec (t_D t) (t_C x + cq_late g)), (Z.eqb_spec (t_C x) (t_D t)); lia. }
  specialize (H4 (take 7 rest)). lia.
Qed.

Lemma queue_bound nb d :
  limits g nb -> count (fun t => (t_D t <=? d) && (d <? t_C t + cq_late g)) nb <= CQ_LIMIT.
Proof.
  induction nb as [| t rest IH]; intros H; [unfold count, CQ_LIMIT; cbn; lia |]. destruct H as [Hf Hl].
  rewrite count_cons. destruct (Z.leb_spec (t_D t) d) as [Hd | Hd]; cbn [andb]; [| specialize (IH Hl); lia].
  pose proof (busy_window t rest Hf Hl) as Hb.
  pose proof (count_le (fun q => (t_D q <=? d) && (d <? t_C q + cq_late g)) (fun q => t_D t <? t_C q + cq_late g) rest) as Hle.
  unfold CQ_LIMIT in *. specialize (Hle ltac:(intros q _ E; apply andb_true_iff in E; rewrite Z.ltb_lt in *; lia)).
  destruct (d <? t_C t + cq_late g); lia.
Qed.

Lemma rename_bound nb d :
  limits g nb -> sum_of (fun t => if (t_D t <=? d) && (d <=? t_C t) then n_dst (t_ins t) else 0) nb <= GPR_LIMIT.
Proof.
  set (h := fun t => if (t_D t <=? d) && (d <=? t_C t) then n_dst (t_ins t) else 0).
  induction nb as [| t rest IH]; intros H; [discriminate |]. destruct H as [Hf Hl].
  change (sum_of h (t :: rest)) with (h t + sum_of h rest). specialize (IH Hl).
  destruct (Z.leb_spec (t_D t) d) as [Hd | Hd].
  2: { unfold h at 1. rewrite (proj2 (Z.leb_gt _ _) Hd). cbn [andb]. lia. }
  pose proof (fit_renames _ _ _ Hf) as Hr. unfold renames in Hr.
  assert (sum_of h rest <= sum_of (fun q => if t_D t <=? t_C q then n_dst (t_ins q) else 0) (take 7 rest)).
  { rewrite <- (take_drop 7 rest) at 1. rewrite sum_app. rewrite (sum_none h (drop 7 rest)).
    - rewrite Z.add_0_r. apply sum_le. intros q _. unfold h. pose proof (n_dst_nonneg (t_ins q)).
      destruct (Z.leb_spec (t_D q) d), (Z.leb_spec d (t_C q)), (Z.leb_spec (t_D t) (t_C q)); cbn [andb]; lia.
    - intros q Hq. apply (rename_window t rest q Hf Hl) in Hq. unfold h.
      rewrite (proj2 (Z.leb_gt d (t_C q))) by lia. rewrite andb_false_r. reflexivity. }
  assert (h t <= n_dst (t_ins t)).
  { unfold h. pose proof (n_dst_nonneg (t_ins t)). destruct (_ && _); lia. }
  lia.
Qed.

(** A list in program order is the reverse of the list kept newest first. *)
Lemma split_newest (nb : list timing) l1 t l2 : rev nb = l1 ++ t :: l2 -> nb = rev l2 ++ t :: rev l1.
Proof.
  intros H. rewrite <- (rev_involutive nb), H, rev_app_distr. cbn [rev]. rewrite <- app_assoc. reflexivity.
Qed.

Lemma limits_legal nb : limits g nb -> legal g (rev nb).
Proof.
  intros H. constructor.
  - apply rev_newest, limits_D, H.
  - apply rev_newest, limits_C, H.
  - intros d. rewrite count_rev. apply limits_two_D, H.
  - intros c. rewrite count_rev. apply limits_two_C, H.
  - intros d. rewrite count_rev. apply queue_bound, H.
  - intros d. rewrite sum_rev. apply rename_bound, H.
  - intros t Ht. apply in_rev in Ht. apply in_split in Ht. destruct Ht as (l1 & l2 & ->).
    apply limits_at in H. apply (fit_stages _ _ _ (proj1 H)).
  - intros l1 t l2 r q E Hu Hr Hw. apply split_newest in E. rewrite E in H. apply limits_at in H.
    exact (fit_operands _ _ _ (proj1 H) Hu r q Hr Hw).
  - intros l1 t l2 q E Hq Hu Hb. apply split_newest in E. rewrite E in H. apply limits_at in H.
    apply (fit_units _ _ _ (proj1 H) Hb q); [apply in_rev; rewrite rev_involutive; exact Hq | exact Hu].
Qed.
End Limits.

(** ** Decoded instructions *)
Lemma widen_bytes_ge fuel v n : n <= widen_bytes fuel v n.
Proof. revert n. induction fuel as [| k IH]; intros n; cbn [widen_bytes]; [lia |]. destruct (_ && _); [specialize (IH (n + 1)) |]; lia. Qed.

Lemma significant_pos v : 1 <= significant_bytes v.
Proof. unfold significant_bytes. apply widen_bytes_ge. Qed.

(** A decoder result is good when it takes a cycle and a branch writes no register. *)
Definition good (i : Insn) : Prop := 1 <= lat i /\ (unit_ i = BPU -> dst i = ∅).

Lemma good_branch w k i : good i -> dst i = ∅ -> good (_branch w k i).
Proof.
  intros [H _] E. unfold good. rewrite dst_branch, E. split; [| auto]. unfold _branch.
  destruct (truthy (Z.land _ 16)), (truthy (Z.land _ 4)); exact H.
Qed.

Ltac good_insn :=
  repeat match goal with
  | |- context [if ?b then _ else _] => destruct b
  end; split; cbn; try lia; discriminate.

Lemma good_sru n X Y i : 1 <= n -> good (_sru n X Y i).
Proof. intros H. split; [exact H | discriminate]. Qed.

Lemma good_dserial b i : good i -> good (with_dserial b i).
Proof. intros H. exact H. Qed.

Lemma good_loadstore b st rd ra s i : good (if_ b (add_dst ra) (access st rd (with_src s (with_lat 2 (with_unit LSU i))))).
Proof. unfold if_, access. destruct b, st; split; cbn; try lia; discriminate. Qed.

Lemma x31_good m dv w rd ra rb rc xo10 xo9 i :
  1 <= m -> 1 <= dv -> unit_ i = IU -> lat i = 1 -> good (_x31 m dv w rd ra rb rc xo10 xo9 i).
Proof.
  intros Hm Hd Hu Hl. unfold _x31.
  destruct (table_mem loads_x31 xo10 || table_mem stores_x31 xo10); [apply good_loadstore |].
  unfold arith_x31, if_. destruct (xo10 =? 144); unfold good;
    repeat match goal with |- context [if ?b then _ else _] => destruct b end;
    cbn; rewrite ?Hl, ?Hu; split; try lia; discriminate.
Qed.

Lemma mk_Insn_good m dv pc w : 1 <= m -> 1 <= dv -> good (mk_Insn m dv pc w).
Proof.
  intros Hm Hd. unfold mk_Insn. set (i := blank pc w).
  assert (Hu : unit_ i = IU) by reflexivity. assert (Hl : lat i = 1) by reflexivity. assert (He : dst i = ∅) by reflexivity.
  assert (Hg : good i) by (split; [rewrite Hl; lia | auto]).
  unfold _decode. change (word i) with w. set (op := Z.shiftr w 26). pose proof (significant_pos (sext (Z.land w 65535) 16)).
  pose proof (rd_range w).
  destruct (op =? 7); [split; cbn -[Z.add significant_bytes sext]; [lia | discriminate] |].
  destruct (member op [8; 12; 13]); [unfold if_; good_insn |].
  destruct (member op [10; 11]); [good_insn |]. destruct (member op [14; 15]); [good_insn |].
  destruct (op =? 16); [apply (good_branch w "bc" i Hg He) |]. destruct (op =? 18); [split; cbn; [lia | auto] |].
  destruct (op =? 19).
  { unfold decode_19. destruct (_ =? 16); [apply (good_branch w "bclr" i Hg He) |].
    destruct (_ =? 528); [apply (good_branch w "bcctr" i Hg He) |].
    destruct (_ =? 0); [apply good_sru; lia |]. destruct (member _ CR_LOGICAL); [apply good_sru; lia |].
    apply good_dserial, good_sru. lia. }
  destruct (member op [20; 21; 23]); [unfold if_; good_insn |].
  destruct (member op [24; 25; 26; 27; 28; 29]); [unfold if_; good_insn |].
  destruct ((32 <=? op) && (op <=? 45)); [apply good_loadstore |].
  destruct (member op [46; 47]); [unfold decode_multiple; destruct (op =? 46); split; cbn -[regs_between rd_of]; try lia; discriminate |].
  destruct ((48 <=? op) && (op <=? 55)); [good_insn |]. destruct (member op [59; 63]); [good_insn |].
  destruct (op =? 31); [apply x31_good; assumption | good_insn].
Qed.

(** ** A step keeps the invariant *)
Record sched_ok (g : config) (s : sched) : Prop := {
  so_timings : nb_hist s = omap row_timing (out s);
  so_limits : limits g (nb_hist s);
  so_units : forall t, In t (nb_hist s) -> t_unit t <> BPU -> free_at t <= unit_free s (t_unit t);
  so_prod : forall r q, last_writer r (nb_hist s) = Some q -> gpr_prod s !! r = Some (avail_at q)
}.

Lemma start_ok g : sched_ok g start.
Proof. constructor; [reflexivity | exact I | intros t [] | discriminate]. Qed.

Lemma put_all_lookup m X v r : put_all m X v !! r = if bool_decide (r ∈ X) then Some v else m !! r.
Proof.
  unfold put_all. rewrite <- (bool_decide_ext (r ∈ elements X) (r ∈ X)) by apply elem_of_elements.
  generalize (elements X). intros l. revert m. induction l as [| x l IH]; intros m; [reflexivity |].
  cbn [fold_left]. rewrite IH, (bool_decide_ext (r ∈ x :: l) (r = x \/ r ∈ l)) by apply elem_of_cons.
  destruct (decide (r = x)) as [-> | Hn].
  - rewrite lookup_insert_eq, (bool_decide_true (x = x \/ x ∈ l)) by auto. destruct (bool_decide _); reflexivity.
  - rewrite lookup_insert_ne by congruence. rewrite (bool_decide_ext (r = x \/ r ∈ l) (r ∈ l)) by tauto. reflexivity.
Qed.

Lemma max_of_in l x : In x l -> x <= max_of l.
Proof.
  assert (H : forall l a, a <= fold_left Z.max l a /\ forall x, In x l -> x <= fold_left Z.max l a).
  { induction l0 as [| y l0 IH]; intros a; cbn; [split; [lia | tauto] |]. destruct (IH (Z.max a y)) as [H1 H2].
    split; [lia |]. intros z [<- | Hz]; [lia | auto]. }
  destruct l as [| a l]; [intros [] |]. cbn [max_of]. destruct (H l a) as [H1 H2]. intros [<- | Hx]; auto.
Qed.

Lemma ready_of_le prod X r v : r ∈ X -> prod !! r = Some v -> v <= ready_of prod X.
Proof.
  intros Hr Hv. unfold ready_of. apply max_of_in, in_map_iff. exists r. rewrite Hv. split; [reflexivity |].
  apply list_elem_of_In, elem_of_elements. exact Hr.
Qed.

Lemma ready_at_ge s i w : ready_of (gpr_prod s) (src i) <= ready_at s i w.
Proof. unfold ready_at. destruct (lr_r i), (ctr_r i), (has_crd i); lia. Qed.

Lemma start_on_ge s i d ready u :
  d < start_on s i d ready u /\ ready <= start_on s i d ready u /\ unit_free s u <= start_on s i d ready u.
Proof. unfold start_on. destruct (serial i && _); lia. Qed.

Lemma best_unit_in s i d ready avail b st u :
  fold_left (fun best u =>
      let st := start_on s i d ready u in
      match best with
      | Some (b, _) => if st <? b then Some (st, u) else best
      | None => Some (st, u)
      end) avail b = Some (st, u) ->
  b = Some (st, u) \/ (In u avail /\ st = start_on s i d ready u).
Proof.
  revert b. induction avail as [| v l IH]; intros b H; [left; exact H |]. apply IH in H. cbv zeta in H. cbn [In].
  destruct H as [H | [H1 H2]]; [| right; tauto].
  destruct b as [[b' u'] |]; [destruct (_ <? _) |]; [| left; exact H |]; injection H as <- <-; right; auto.
Qed.

(** The chosen unit is one of those available, and is free at the start cycle. *)
Lemma choose_unit_in g s i d ready avail following st u :
  choose_unit g s i d ready avail following = Some (st, u) -> In u avail /\ st = start_on s i d ready u.
Proof.
  unfold choose_unit. destruct (best_unit s i d ready avail) as [[st0 u0] |] eqn:E; [| discriminate].
  apply best_unit_in in E. destruct E as [E | [Hu Hst]]; [discriminate |].
  destruct (existsb _ avail) eqn:Ex; [| rewrite andb_false_r, andb_false_l; intros [= <- <-]; auto].
  apply existsb_exists in Ex. destruct Ex as (v & Hv & E2). apply andb_true_iff in E2. destruct E2 as [E2 E3].
  apply bool_decide_eq_true in E2. apply Z.eqb_eq in E3. subst v.
  destruct (_ && _); intros [= <- <-]; auto.
Qed.

Lemma complete_at_spec nb i c :
  prev_C nb <= c ->
  c <= complete_at nb i c <= c + 1 /\
  match nb with q1 :: q2 :: _ => ~ (t_C q1 = complete_at nb i c /\ t_C q2 = complete_at nb i c) | _ => True end.
Proof.
  intros Hc. unfold complete_at. destruct nb as [| q1 nb]; [split; [lia | exact I] |]. cbn in Hc.
  destruct (Z.eqb_spec (t_C q1) c) as [E | N].
  2: { split; [lia |]. destruct nb; [exact I | tauto]. }
  destruct nb as [| q2 nb]; [split; [| exact I]; destruct (_ || _); lia |].
  cbn [take]. change (take 0 nb) with (@nil timing). rewrite !count_cons, (proj2 (Z.eqb_eq _ _) E).
  destruct (Z.eqb_spec (t_C q2) c) as [E2 | N2]; [change (2 <=? 1 + (1 + count _ [])) with true; cbn [orb]; cbv iota; split; lia |].
  destruct (_ || _); split; lia.
Qed.

Lemma branch_complete_spec nb c :
  prev_C nb <= c ->
  c <= branch_complete nb c /\
  match nb with q1 :: q2 :: _ => ~ (t_C q1 = branch_complete nb c /\ t_C q2 = branch_complete nb c) | _ => True end.
Proof.
  intros Hc. unfold branch_complete. destruct nb as [| q1 nb]; [split; [lia | exact I] |]. cbn in Hc.
  destruct (Z.eqb_spec (t_C q1) c) as [E | N]; cbn [andb].
  2: { split; [lia |]. destruct nb; [exact I | tauto]. }
  destruct nb as [| q2 nb]; [split; [| exact I]; destruct (_ <=? _); lia |].
  cbn [take]. change (take 0 nb) with (@nil timing). rewrite !count_cons, (proj2 (Z.eqb_eq _ _) E).
  destruct (Z.eqb_spec (t_C q2) c) as [E2 | N2]; [change (2 <=? 1 + (1 + count _ [])) with true | change (2 <=? 1 + (0 + count _ [])) with false];
    cbv iota; split; lia.
Qed.

Section Step.
Variable g : config.

Lemma push_ok s s' r t :
  sched_ok g s -> fits g t (nb_hist s) ->
  out s' = r :: out s -> row_timing r = Some t -> nb_hist s' = t :: nb_hist s ->
  (forall u, unit_free s u <= unit_free s' u) -> (t_unit t <> BPU -> free_at t <= unit_free s' (t_unit t)) ->
  (forall x, gpr_prod s' !! x = if writes x t then Some (avail_at t) else gpr_prod s !! x) ->
  sched_ok g s'.
Proof.
  intros Hs Hf Ho Hr Hn Hu Ht Hp. constructor.
  - rewrite Hn, Ho. cbn. rewrite Hr, (so_timings g s Hs). reflexivity.
  - rewrite Hn. split; [exact Hf | apply Hs].
  - intros q. rewrite Hn. intros [<- | Hq] Hb; [auto |]. specialize (Hu (t_unit q)).
    pose proof (so_units g s Hs q Hq Hb). lia.
  - intros x q. rewrite Hn, Hp. cbn [last_writer find]. unfold last_writer. cbn [find].
    destruct (writes x t); [intros [= <-]; reflexivity | apply (so_prod g s Hs)].
Qed.

(** A branch outside [nb_hist] leaves the records alone. *)
Lemma skip_ok s s' r :
  sched_ok g s -> out s' = r :: out s -> row_timing r = None -> nb_hist s' = nb_hist s ->
  unit_free s' = unit_free s -> gpr_prod s' = gpr_prod s -> sched_ok g s'.
Proof.
  intros [H1 H2 H3 H4] Ho Hr Hn Hu Hp. constructor; rewrite ?Hn, ?Hu, ?Hp; try assumption.
  rewrite Ho. cbn. rewrite Hr. exact H1.
Qed.

(** What a dispatch cycle found by the search guarantees of the record placed there. *)
Lemma dispatched_fits s i f d d0 units avail fuel t :
  dispatch_cycle g fuel s i d0 units = Some (d, avail) -> prev_D (nb_hist s) <= d0 ->
  t_ins t = i -> t_F t = f -> t_D t = d ->
  prev_C (nb_hist s) <= t_C t ->
  match nb_hist s with q1 :: q2 :: _ => ~ (t_C q1 = t_C t /\ t_C q2 = t_C t) | _ => True end ->
  (t_unit t <> BPU -> t_F t < t_D t < t_S t /\ t_S t <= t_E t < t_C t) ->
  (t_unit t <> BPU -> forall r q, r ∈ src (t_ins t) -> last_writer r (nb_hist s) = Some q -> avail_at q <= t_S t) ->
  (t_unit t <> BPU -> forall q, In q (nb_hist s) -> t_unit q = t_unit t -> free_at q <= t_S t) ->
  fits g t (nb_hist s).
Proof.
  intros E Hd Hi Hf Ht Hc Hr Hst Hop Hun. apply dispatch_cycle_inv in E. destruct E as [Hle E].
  apply dispatch_at_inv in E. destruct E as (_ & _ & Hp & Hq & Hn).
  constructor; try assumption; rewrite ?Ht, ?Hi; try lia; try assumption.
  destruct (nb_hist s) as [| q1 [| q2 nb]]; try exact I. intros [E1 E2]. unfold pairs_with in Hp.
  rewrite E1, Z.eqb_refl in Hp. cbn [andb take] in Hp. apply orb_false_iff in Hp. destruct Hp as [Hp _].
  apply orb_false_iff in Hp. destruct Hp as [Hp _]. apply Z.leb_gt in Hp. rewrite !count_cons, E1, E2, Z.eqb_refl in Hp.
  pose proof (count_nonneg (fun q => t_D q =? d) (take 0 nb)). lia.
Qed.

Lemma if_max_ge (b : bool) d x : d <= if b then Z.max d x else d.
Proof. destruct b; lia. Qed.

Lemma fold_max_ge l d : d <= fold_left Z.max l d.
Proof. revert d. induction l as [| x l IH]; intros d; cbn [fold_left]; [lia |]. specialize (IH (Z.max d x)). lia. Qed.

Lemma dispatch_from_ge s i f : f + 1 <= dispatch_from g s i f /\ prev_D (nb_hist s) <= dispatch_from g s i f.
Proof.
  enough (H : Z.max (Z.max (Z.max (f + 1) (prev_D (nb_hist s))) (ser_until s)) (branch_x s) <= dispatch_from g s i f) by lia.
  unfold dispatch_from. destruct (lsu_base (core g) && is_unit i LSU); [etransitivity; [| apply fold_max_ge] |];
    (etransitivity; [| apply if_max_ge]); apply if_max_ge.
Qed.

Lemma plain_step_ok fuel s i f following s' :
  sched_ok g s -> good i -> plain_step g fuel s i f following = Some s' -> sched_ok g s'.
Proof.
  intros Hs [Hlat _]. unfold plain_step.
  destruct (dispatch_cycle g fuel s i (dispatch_from g s i f) (units_of g i)) as [[d avail] |] eqn:Ed; [| discriminate].
  destruct (track s i (word i)) as [[s1 ea] wt] eqn:Et. destruct (track_same _ _ _ _ _ _ Et) as (m & k & ->).
  set (s1 := with_sym s m k). destruct (choose_unit g s1 i d (ready_at s1 i wt) avail following) as [[st u] |] eqn:Ec; [| discriminate].
  intros H. apply (inj Some) in H. subst s'. apply choose_unit_in in Ec. destruct Ec as [Hu Hst].
  destruct (start_on_ge s1 i d (ready_at s1 i wt) u) as (S1 & S2 & S3). rewrite <- Hst in S1, S2, S3.
  pose proof (ready_at_ge s1 i wt) as Hrdy. destruct (dispatch_from_ge s i f) as [D1 D2].
  pose proof (proj1 (dispatch_cycle_inv _ _ _ _ _ _ _ _ Ed)) as Hdd.
  set (fin := st + lat i - 1). set (late := if late_retire (core g) then 2 else 1).
  assert (Hl : 1 <= late) by (subst late; destruct (late_retire _); lia).
  set (c0 := Z.max (Z.max (fin + late) (prev_C (nb_hist s))) (pending_pred s)).
  destruct (complete_at_spec (nb_hist s) i c0 ltac:(lia)) as [Hc1 Hc2].
  set (t := {| t_ins := i; t_F := f; t_D := d; t_S := st; t_E := fin; t_C := complete_at (nb_hist s) i c0; t_unit := u |}).
  apply (push_ok s _ (Plain t) t Hs); try reflexivity.
  - apply (dispatched_fits s i f d (dispatch_from g s i f) (units_of g i) avail fuel t Ed); try reflexivity;
      try assumption; cbn [t t_C t_S t_D t_E t_F t_unit t_ins]; try lia.
    + intros _ r q Hr Hq. apply (so_prod g s Hs) in Hq. change (gpr_prod s) with (gpr_prod s1) in Hq.
      pose proof (ready_of_le (gpr_prod s1) (src i) r _ Hr Hq). lia.
    + intros Hb q Hq Eq. pose proof (so_units g s Hs q Hq) as Hfree. rewrite Eq in Hfree. specialize (Hfree Hb).
      change (unit_free s) with (unit_free s1) in Hfree. lia.
  - intros v. cbn [finish_step unit_free]. unfold set_unit. change (unit_free s) with (unit_free s1).
    destruct (decide (v = u)) as [-> | Hn]; [| rewrite bool_decide_false by exact Hn; lia].
    rewrite (bool_decide_true (u = u)) by reflexivity. destruct (_ || _); lia.
  - intros _. cbn [finish_step unit_free]. unfold set_unit, free_at, pipelined. cbn [t t_unit t_S t_E].
    rewrite (bool_decide_true (u = u)) by reflexivity. fold fin. lia.
  - intros x. cbn [finish_step gpr_prod]. rewrite put_all_lookup. unfold writes, avail_at. cbn [t t_ins t_C t_E].
    change (gpr_prod s1) with (gpr_prod s). destruct (bool_decide (x ∈ dst i)); [| reflexivity]. destruct (serial i); reflexivity.
Qed.

Lemma branch_step_ok fuel s i f taken s' :
  sched_ok g s -> dst i = ∅ -> branch_step g fuel s i f taken = Some s' -> sched_ok g s'.
Proof.
  intros Hs Hdst. unfold branch_step. destruct (branch_slot (core g)).
  2: { destruct (branch_exec s i _) as [x resolve]. destruct (branch_predict g s i x resolve taken) as [[mp pend] red].
       intros H. apply (inj Some) in H. subst s'. eapply skip_ok; try eassumption; reflexivity. }
  set (d0 := Z.max _ (ser_until s)).
  destruct (dispatch_cycle g fuel s i d0 [BPU]) as [[d avail] |] eqn:Ed; [| discriminate].
  destruct (branch_exec s i _) as [x resolve]. destruct (branch_predict g s i x resolve taken) as [[mp pend] red].
  intros H. apply (inj Some) in H. subst s'.
  set (c := branch_complete (nb_hist s) (Z.max resolve (prev_C (nb_hist s)))).
  destruct (branch_complete_spec (nb_hist s) (Z.max resolve (prev_C (nb_hist s))) ltac:(lia)) as [Hc1 Hc2].
  set (t := {| t_ins := i; t_F := f; t_D := d; t_S := x; t_E := x; t_C := c; t_unit := BPU |}).
  apply (push_ok s _ (Branch i f x resolve c mp (Some t)) t Hs); try reflexivity.
  - apply (dispatched_fits s i f d d0 [BPU] avail fuel t Ed); try reflexivity; cbn [t t_C t_unit];
      try assumption; try (fold c in Hc1; lia); try (intros []; reflexivity).
  - intros []. reflexivity.
  - intros y. unfold writes. cbn [t t_ins]. rewrite Hdst. rewrite bool_decide_false by apply not_elem_of_empty. reflexivity.
Qed.

Lemma run_sched_ok fuel s stream s' :
  1 <= mul g -> 1 <= div_cycles g -> sched_ok g s -> run g fuel s stream = Some s' -> sched_ok g s'.
Proof.
  intros Hm Hd. revert s. induction stream as [| [[pc w] npc] rest IH]; intros s Hs; [intros [= <-]; exact Hs |].
  cbn [run]. destruct (step g fuel s pc w npc (map fst rest)) as [s1 |] eqn:E; [| discriminate].
  apply IH. revert E. unfold step. destruct (fetch_cycle g fuel s _ _) as [f |]; [| discriminate].
  pose proof (mk_Insn_good (mul g) (div_cycles g) pc w Hm Hd) as Hg. fold (insn g pc w) in Hg.
  destruct (is_unit (insn g pc w) BPU) eqn:Eu; [| apply plain_step_ok; assumption].
  apply branch_step_ok; [exact Hs |]. apply Hg. apply bool_decide_eq_true in Eu. exact Eu.
Qed.

Lemma schedule_legal fuel stream rows :
  1 <= mul g -> 1 <= div_cycles g -> schedule g fuel stream = Some rows -> legal g (timings rows).
Proof.
  intros Hm Hd. unfold schedule. destruct (run g fuel start stream) as [s |] eqn:E; [| discriminate].
  intros H. apply (inj Some) in H. subst rows. pose proof (run_sched_ok fuel start stream s Hm Hd (start_ok g) E) as Hs.
  assert (timings (rev (out s)) = rev (nb_hist s)) as ->; [| apply limits_legal, Hs].
  rewrite (so_timings g s Hs). unfold timings. generalize (out s). induction l as [| r l IH]; [reflexivity |].
  cbn [rev]. rewrite omap_app, IH. cbn. destruct (row_timing r); cbn; [reflexivity | apply app_nil_r].
Qed.
End Step.

(** C18. Every schedule is one an in-order machine of the manual could run,
    whatever restrictions of the core are switched on. Taken over the whole
    schedule and at every cycle: instructions dispatch and complete in program
    order, at most two in a cycle; the completion queue never holds more than
    five and their GPR results never more than five renames, though the search
    reads only the last seven records; fetch, dispatch, execution and
    completion of an instruction follow one another; no source register is read
    before its youngest older writer produced it; and a unit starts no
    instruction before it is free of the previous one. *)
Theorem schedule_is_legal g fuel stream rows :
  1 <= mul g -> 1 <= div_cycles g -> schedule g fuel stream = Some rows -> legal g (timings rows).
Proof. apply schedule_legal. Qed.

(** addi, lwz, add, cmpi, a beq that misses, lmw r27 and addi. *)
Definition sample_stream : list (Z * Z * Z) :=
  [(0, 0x38630001, 4); (4, 0x80830000, 8); (8, 0x7ca41a14, 12); (12, 0x2c050000, 16); (16, 0x41820010, 32);
   (32, 0xbb630000, 36); (36, 0x38630001, 40)].

Lemma schedule_is_legal_witness :
  let rows := match schedule default_config 50 sample_stream with Some rows => rows | None => [] end in
  length rows = 7%nat /\ map t_C (timings rows) = [3; 5; 6; 7; 17; 20] /\ legal default_config (timings rows).
Proof.
  intros rows. split; [vm_compute; reflexivity |]. split; [vm_compute; reflexivity |].
  apply (schedule_is_legal default_config 50 sample_stream rows); [discriminate | discriminate | vm_compute; reflexivity].
Defined.

(** A branch on CR held behind an outstanding prediction executes when that
    prediction resolves, but the cycle it resolves is kept from before the hold:
    the second [beq] after [divw.] executes in 22 and resolves in 2. [R] is the
    cycle from which a counting branch makes CTR available. *)
Definition held_stream : list (Z * Z * Z) :=
  [(0, 0x7c6423d7, 4); (4, 0x41820008, 8); (8, 0x41820008, 12)].
Definition branch_times (r : row) : option (Z * Z) := match r with Plain _ => None | Branch _ _ x r _ _ _ => Some (x, r) end.

Example held_branch_resolves_early :
  option_map (omap branch_times) (schedule default_config 80 held_stream) = Some [(1, 22); (22, 2)].
Proof. vm_compute. reflexivity. Qed.
