(* ===== verification/DispatchClass.v ===== *)
(** * Dispatch and completion rules over a trace ([sim/tools/check_dispatch_trace.py])

    [classify] gives the dispatch and completion class of a word; [Rules]
    consumes the events of a trace, one per cycle, and raises at the first one
    that breaks a rule. An error carries the name of the rule, not the
    formatted message. Splitting the lines of a trace file is left out: an
    event is what [parse_line] returns. *)
From S2P Require Import Prelude.

Module dispatch_trace.

Inductive unit : Type := IU | SRU | LSU | FPU | BPU.
#[export] Instance unit_eq_dec : EqDecision unit.
Proof. solve_decision. Defined.

Inductive branch_kind : Type := b | bc | bclr | bcctr.
#[export] Instance branch_kind_eq_dec : EqDecision branch_kind.
Proof. solve_decision. Defined.

(** The moves [classify] tells apart. *)
Inductive spr : Type := LR | CTR.
#[export] Instance spr_eq_dec : EqDecision spr.
Proof. solve_decision. Defined.

(** What an older instruction makes a branch wait for. *)
Inductive stop_kind : Type := execute | retire | complete.
#[export] Instance stop_kind_eq_dec : EqDecision stop_kind.
Proof. solve_decision. Defined.

Definition member (x : Z) (l : list Z) : bool := existsb (Z.eqb x) l.
Definition UPDATE_LOADS : list Z := [33; 35; 41; 43].
Definition UPDATE_X_LOADS : list Z := [55; 119; 311; 375].
Definition bit (v k : Z) : Z := Z.land (Z.shiftr v k) 1.

(** The class of a word. [units] is a set, written in one order; [writes]
    counts the GPR, CR, FPR, LR and CTR updates. *)
Record klass : Type := {
  units : list unit; dser : bool; cser : bool; cq1 : bool; writes : list Z; isync : bool; multiple : bool;
  cond : bool; branch : option branch_kind; cr_test : bool; ctr_test : bool; mtspr : option spr; sru_lat :
  option Z
}.

Definition set_units (x : list unit) (c : klass) : klass :=
  {| units := x; dser := dser c; cser := cser c; cq1 := cq1 c; writes := writes c; isync := isync c; multiple
     := multiple c; cond := cond c; branch := branch c; cr_test := cr_test c; ctr_test := ctr_test c; mtspr :=
     mtspr c; sru_lat := sru_lat c |}.
Definition set_dser (x : bool) (c : klass) : klass :=
  {| units := units c; dser := x; cser := cser c; cq1 := cq1 c; writes := writes c; isync := isync c; multiple
     := multiple c; cond := cond c; branch := branch c; cr_test := cr_test c; ctr_test := ctr_test c; mtspr :=
     mtspr c; sru_lat := sru_lat c |}.
Definition set_cser (x : bool) (c : klass) : klass :=
  {| units := units c; dser := dser c; cser := x; cq1 := cq1 c; writes := writes c; isync := isync c; multiple
     := multiple c; cond := cond c; branch := branch c; cr_test := cr_test c; ctr_test := ctr_test c; mtspr :=
     mtspr c; sru_lat := sru_lat c |}.
Definition set_cq1 (x : bool) (c : klass) : klass :=
  {| units := units c; dser := dser c; cser := cser c; cq1 := x; writes := writes c; isync := isync c;
     multiple := multiple c; cond := cond c; branch := branch c; cr_test := cr_test c; ctr_test := ctr_test c;
     mtspr := mtspr c; sru_lat := sru_lat c |}.
Definition set_writes (x : list Z) (c : klass) : klass :=
  {| units := units c; dser := dser c; cser := cser c; cq1 := cq1 c; writes := x; isync := isync c; multiple
     := multiple c; cond := cond c; branch := branch c; cr_test := cr_test c; ctr_test := ctr_test c; mtspr :=
     mtspr c; sru_lat := sru_lat c |}.
Definition set_isync (x : bool) (c : klass) : klass :=
  {| units := units c; dser := dser c; cser := cser c; cq1 := cq1 c; writes := writes c; isync := x; multiple
     := multiple c; cond := cond c; branch := branch c; cr_test := cr_test c; ctr_test := ctr_test c; mtspr :=
     mtspr c; sru_lat := sru_lat c |}.
Definition set_multiple (x : bool) (c : klass) : klass :=
  {| units := units c; dser := dser c; cser := cser c; cq1 := cq1 c; writes := writes c; isync := isync c;
     multiple := x; cond := cond c; branch := branch c; cr_test := cr_test c; ctr_test := ctr_test c; mtspr :=
     mtspr c; sru_lat := sru_lat c |}.
Definition set_cond (x : bool) (c : klass) : klass :=
  {| units := units c; dser := dser c; cser := cser c; cq1 := cq1 c; writes := writes c; isync := isync c;
     multiple := multiple c; cond := x; branch := branch c; cr_test := cr_test c; ctr_test := ctr_test c;
     mtspr := mtspr c; sru_lat := sru_lat c |}.
Definition set_branch (x : option branch_kind) (c : klass) : klass :=
  {| units := units c; dser := dser c; cser := cser c; cq1 := cq1 c; writes := writes c; isync := isync c;
     multiple := multiple c; cond := cond c; branch := x; cr_test := cr_test c; ctr_test := ctr_test c; mtspr
     := mtspr c; sru_lat := sru_lat c |}.
Definition set_cr_test (x : bool) (c : klass) : klass :=
  {| units := units c; dser := dser c; cser := cser c; cq1 := cq1 c; writes := writes c; isync := isync c;
     multiple := multiple c; cond := cond c; branch := branch c; cr_test := x; ctr_test := ctr_test c; mtspr
     := mtspr c; sru_lat := sru_lat c |}.
Definition set_ctr_test (x : bool) (c : klass) : klass :=
  {| units := units c; dser := dser c; cser := cser c; cq1 := cq1 c; writes := writes c; isync := isync c;
     multiple := multiple c; cond := cond c; branch := branch c; cr_test := cr_test c; ctr_test := x; mtspr :=
     mtspr c; sru_lat := sru_lat c |}.
Definition set_mtspr (x : option spr) (c : klass) : klass :=
  {| units := units c; dser := dser c; cser := cser c; cq1 := cq1 c; writes := writes c; isync := isync c;
     multiple := multiple c; cond := cond c; branch := branch c; cr_test := cr_test c; ctr_test := ctr_test c;
     mtspr := x; sru_lat := sru_lat c |}.
Definition set_sru_lat (x : option Z) (c : klass) : klass :=
  {| units := units c; dser := dser c; cser := cser c; cq1 := cq1 c; writes := writes c; isync := isync c;
     multiple := multiple c; cond := cond c; branch := branch c; cr_test := cr_test c; ctr_test := ctr_test c;
     mtspr := mtspr c; sru_lat := x |}.

Definition klass0 (rc : Z) : klass :=
  {| units := [IU]; dser := false; cser := false; cq1 := true; writes := [1; rc; 0; 0; 0]; isync := false;
     multiple := false; cond := false; branch := None; cr_test := false; ctr_test := false; mtspr := None;
     sru_lat := None |}.

Definition none_written : list Z := [0; 0; 0; 0; 0].
Definition sru_unit (c : klass) : klass := set_units [SRU] (set_cser true (set_cq1 false (set_writes none_written c))).
(** [c.update(units={LSU}, cq1=..., writes=...)] *)
Definition lsu (q : bool) (w : list Z) (c : klass) : klass := set_units [LSU] (set_cq1 q (set_writes w c)).
Definition spr_field (word : Z) : Z := Z.lor (Z.land (Z.shiftr word 16) 31) (Z.shiftl (Z.land (Z.shiftr word 11) 31) 5).
Definition add_units (sru : bool) : list unit := if sru then [IU; SRU] else [IU].

Definition classify_branch (word op xo : Z) (c : klass) : klass :=
  let lk := Z.land word 1 in
  let counting := negb (truthy (bit word 23)) in
  let ctr := ((op =? 19) && (xo =? 16) && counting) || ((op =? 16) && counting) in
  let counts := ctr || ((op =? 19) && counting) in
  set_units [BPU] (set_writes [0; 0; 0; lk; Z.b2z counts]
    (set_cond (negb (op =? 18) && negb (Z.land (Z.shiftr word 21) 0x14 =? 0x14))
      (set_branch (Some (if op =? 18 then b else if op =? 16 then bc else if xo =? 16 then bclr else bcctr))
        (set_cr_test (negb (op =? 18) && negb (truthy (bit word 25))) (set_ctr_test ctr c))))).

Definition classify_19 (xo : Z) (c : klass) : klass :=
  let w := [0; Z.b2z (negb (xo =? 150) && negb (xo =? 50)); 0; 0; 0] in
  let c := set_writes w (sru_unit c) in
  let c := if member xo [150; 50] then set_dser true c else c in
  set_isync (xo =? 150) c.

Definition classify_fp (op xo rc : Z) (c : klass) : klass :=
  let c := set_units [FPU] (set_cq1 false (set_writes [0; rc; 1; 0; 0] c)) in
  let c := if (op =? 63) && member xo [0; 32; 64] then set_writes [0; 1; 0; 0; 0] c
           else if (op =? 63) && member xo [38; 70; 134; 711] then set_writes [0; rc; 0; 0; 0] c else c in
  if (op =? 63) && member xo [38; 64; 70; 134; 583; 711] then set_cser true c else c.

(** The moves to and from special registers. *)
Definition classify_mfspr (word xo : Z) (c : klass) : klass :=
  let c := set_writes [1; 0; 0; 0; 0] (sru_unit c) in
  if xo =? 339 then set_sru_lat (Some (if (528 <=? spr_field word) && (spr_field word <=? 543) then 3 else 1)) c else c.

Definition classify_mtspr (word xo : Z) (c : klass) : klass :=
  let n := spr_field word in
  let is_mtspr := xo =? 467 in
  set_sru_lat (if is_mtspr then Some 2 else None)
    (set_mtspr (if is_mtspr then if n =? 8 then Some LR else if n =? 9 then Some CTR else None else None)
      (set_writes [0; Z.b2z (member xo [144; 512]); 0; Z.b2z (is_mtspr && (n =? 8)); Z.b2z (is_mtspr && (n =? 9))]
        (set_dser (member xo [146; 512] || (is_mtspr && (n =? 1))) (sru_unit c)))).

Definition classify_31 (word xo rc : Z) (sru : bool) (c : klass) : klass :=
  if member xo [0; 32] then set_writes [0; 1; 0; 0; 0] (set_units (add_units sru) c)
  else if (Z.land xo 511 =? 266) && negb (truthy rc) then set_units (add_units sru) c
  else if xo =? 4 then set_writes none_written c
  else if member xo [23; 55; 87; 119; 279; 311; 343; 375; 534; 790; 20; 310] then
    set_units [LSU] (set_writes [1 + Z.b2z (member xo UPDATE_X_LOADS); 0; 0; 0; 0] c)
  else if member xo [533; 597] then set_cser true (set_dser true (set_multiple true (lsu false none_written c)))
  else if member xo [151; 183; 215; 247; 407; 439; 662; 918; 438] then
    lsu false [Z.b2z (member xo [183; 247; 439]); 0; 0; 0; 0] c
  else if xo =? 150 then lsu false [0; 1; 0; 0; 0] c
  else if member xo [661; 725] then set_cser true (set_multiple true (lsu false none_written c))
  else if member xo [535; 567; 599; 631] then
    set_units [LSU] (set_writes [Z.b2z (member xo [567; 631]); 0; 1; 0; 0] c)
  else if member xo [663; 695; 727; 759; 983] then lsu false [Z.b2z (member xo [695; 759]); 0; 0; 0; 0] c
  else if member xo [1014; 86; 54; 470; 982; 278; 246; 854] then set_cser (negb (xo =? 854)) (lsu false none_written c)
  else if member xo [306; 566; 978; 1010] then sru_unit c
  else if xo =? 598 then set_dser true (sru_unit c)
  else if member xo [339; 371; 83; 19; 595; 659] then classify_mfspr word xo c
  else if member xo [467; 146; 144; 210; 242; 512] then classify_mtspr word xo c
  else c.

Definition classify (word : Z) (sru : bool) : klass :=
  let op := Z.shiftr word 26 in
  let xo := Z.land (Z.shiftr word 1) 1023 in
  let rc := if member op [20; 21; 23; 31; 59; 63] then Z.land word 1 else 0 in
  let c := klass0 rc in
  if (op =? 16) || (op =? 18) || ((op =? 19) && member xo [16; 528]) then classify_branch word op xo c
  else if op =? 19 then classify_19 xo c
  else if op =? 17 then set_dser true (sru_unit c)
  else if member op [32; 33; 34; 35; 40; 41; 42; 43] then
    set_units [LSU] (set_writes [1 + Z.b2z (member op UPDATE_LOADS); 0; 0; 0; 0] c)
  else if member op [36; 37; 38; 39; 44; 45] then lsu false [Z.land op 1; 0; 0; 0; 0] c
  else if member op [46; 47] then
    set_cser true (set_dser (op =? 46) (set_multiple true (lsu false none_written c)))
  else if (48 <=? op) && (op <=? 51) then set_units [LSU] (set_writes [Z.land op 1; 0; 1; 0; 0] c)
  else if (52 <=? op) && (op <=? 55) then lsu false [Z.land op 1; 0; 0; 0; 0] c
  else if member op [59; 63] then classify_fp op xo rc c
  else if member op [14; 15; 11; 10] then
    set_writes (if member op [10; 11] then [0; 1; 0; 0; 0] else [1; 0; 0; 0; 0]) (set_units (add_units sru) c)
  else if member op [13; 28; 29] then set_writes [1; 1; 0; 0; 0] c
  else if member op [3; 2] then set_writes none_written c
  else if op =? 31 then classify_31 word xo rc sru c
  else c.

(** The CR field a compare or record-form integer instruction writes. *)
Definition cr_field (word : option Z) : option Z :=
  match word with
  | None => None
  | Some word =>
      let op := Z.shiftr word 26 in
      let xo := Z.land (Z.shiftr word 1) 1023 in
      if member op [10; 11] || ((op =? 31) && member xo [0; 32]) then Some (Z.land (Z.shiftr word 23) 7)
      else if member op [13; 28; 29] || (member op [20; 21; 23] && truthy (Z.land word 1)) then Some 0
      else if (op =? 31) && truthy (Z.land word 1) && negb (xo =? 150)
      then if bool_decide (units (classify word false) = [IU]) then Some 0 else None
      else None
  end.

Definition CQ_DEPTH : Z := 5.
Definition GPR_RENAMES : Z := 5.
Definition FPR_RENAMES : Z := 4.
Definition STORES_X : list Z := [151; 183; 215; 247; 407; 439; 662; 918].

(** The GPR a completion-serialized SRU move writes. *)
Definition serial_gpr (word : Z) : option Z :=
  if (Z.shiftr word 26 =? 31) && member (Z.land (Z.shiftr word 1) 1023) [339; 371; 83; 19; 595; 659]
  then Some (Z.land (Z.shiftr word 21) 31) else None.

(** GPRs certainly read, and the retire gap after their serialized writer. *)
Definition gpr_reads (word : Z) : gset Z * Z :=
  let op := Z.shiftr word 26 in
  let rs := Z.land (Z.shiftr word 21) 31 in
  let ra := Z.land (Z.shiftr word 16) 31 in
  let rb := Z.land (Z.shiftr word 11) 31 in
  let xo := Z.land (Z.shiftr word 1) 1023 in
  let base : gset Z := if truthy ra then {[ra]} else ∅ in
  if member op [36; 37; 38; 39; 44; 45] then ({[rs]} ∪ base, 3)
  else if (op =? 31) && member xo STORES_X then ({[rs; rb]} ∪ base, 3)
  else if member op [32; 33; 34; 35; 40; 41; 42; 43] then (base, 3)
  else if member op [7; 8; 10; 11; 12; 13] || (member op [14; 15] && truthy ra) then ({[ra]}, 2)
  else if member op [20; 21; 24; 25; 26; 27; 28; 29] then ({[rs]}, 2)
  else (∅, 0).

(** Both register fields, for a writer. *)
Definition gpr_writes (word : Z) : gset Z :=
  if truthy (default 0 (writes (classify word false) !! 0%nat))
  then {[Z.land (Z.shiftr word 21) 31; Z.land (Z.shiftr word 16) 31]} else ∅.

Definition wr (c : klass) (k : nat) : Z := default 0 (writes c !! k).
Definition is_branch (c : klass) (k : branch_kind) : bool := bool_decide (branch c = Some k).
Definition has_branch (c : klass) : bool := match branch c with Some _ => true | None => false end.

(** How branch [younger] waits on [older]. *)
Definition fetch_stop (older younger : klass) : option stop_kind :=
  if bool_decide (mtspr older = Some LR) && is_branch younger bclr then Some execute
  else if bool_decide (mtspr older = Some CTR) && (is_branch younger bcctr || ctr_test younger) then Some retire
  else if ctr_test older && (ctr_test younger || is_branch younger bcctr) then Some complete
  else if has_branch older && truthy (wr older 3) && truthy (wr younger 3) && negb (is_branch younger b)
  then Some complete
  else None.

End dispatch_trace.
