(* ===== verification/DispatchRules.v ===== *)
(** * The streaming rule checker ([Rules] of [sim/tools/check_dispatch_trace.py]) *)
From S2P Require Import Prelude DispatchClass.

Module rules.
Import dispatch_trace.

(** [e[3]]: [False], [True] or ['removed']. *)
Inductive flag : Type := Live | Flushed | Removed.
Definition dead (f : flag) : bool := match f with Live => false | _ => true end.

(** An entry of [inflight]. The source's references to one entry object are
    its sequence number here, which no two entries share. *)
Record entry : Type := {
  e_pc : Z; e_cycle : Z; e_seq : Z; e_flag : flag; e_class : option klass; e_order : Z
}.
Definition with_flag (f : flag) (e : entry) : entry :=
  {| e_pc := e_pc e; e_cycle := e_cycle e; e_seq := e_seq e; e_flag := f; e_class := e_class e; e_order := e_order e |}.

(** [(order, class, removed, cycle, pc)] of a recent dispatch. *)
Record streamed : Type := { s_order : Z; s_class : option klass; s_gone : bool; s_cycle : Z; s_pc : Z }.
(** A fetch stop: the older entry, the waiting branch's order and pc, the kind. *)
Record stop : Type := { st_older : Z; st_order : Z; st_pc : Z; st_kind : stop_kind }.
(** [bclr] behind an [mtspr(LR)]; [w_entry] is [w[5]], [w_retired] is [w[4]]. *)
Record lr_wait : Type := {
  w_mtspr : Z; w_order : Z; w_pc : Z; w_cycle : Z; w_retired : option Z; w_entry : option Z
}.

(** The constructor's arguments. *)
Record config : Type := { width : Z; words : gmap Z Z; sru : bool; flush : bool }.

Record Rules : Type := {
  inflight : list entry; removed_lk : list (Z * Z); removed_ctr : list (Z * Z); seq : Z; order : Z; stream :
  list streamed; redirect : option (Z * Z); stops : list stop; lr_waits : list lr_wait; lr_retired : option (Z
  * Z); block : option (Z * Z); last_dser : option (Z * Z); isync_retired : option Z; last_retired_pc : option
  Z; last_retire_cycle : option Z; serial_gprs : gmap Z (Z * Z); cond_retired : bool; stats : gmap string Z
}.

(** [Rules(...)]; [stats] counts from zero. *)
Definition init : Rules :=
  {| inflight := []; removed_lk := []; removed_ctr := []; seq := 0; order := 0; stream := []; redirect :=
     None; stops := []; lr_waits := []; lr_retired := None; block := None; last_dser := None; isync_retired :=
     None; last_retired_pc := None; last_retire_cycle := None; serial_gprs := ∅; cond_retired := false; stats
     := ∅ |}.

Definition put_inflight (x : list entry) (s : Rules) : Rules :=
  {| inflight := x; removed_lk := removed_lk s; removed_ctr := removed_ctr s; seq := seq s; order := order s;
     stream := stream s; redirect := redirect s; stops := stops s; lr_waits := lr_waits s; lr_retired :=
     lr_retired s; block := block s; last_dser := last_dser s; isync_retired := isync_retired s;
     last_retired_pc := last_retired_pc s; last_retire_cycle := last_retire_cycle s; serial_gprs :=
     serial_gprs s; cond_retired := cond_retired s; stats := stats s |}.
Definition put_removed_lk (x : list (Z * Z)) (s : Rules) : Rules :=
  {| inflight := inflight s; removed_lk := x; removed_ctr := removed_ctr s; seq := seq s; order := order s;
     stream := stream s; redirect := redirect s; stops := stops s; lr_waits := lr_waits s; lr_retired :=
     lr_retired s; block := block s; last_dser := last_dser s; isync_retired := isync_retired s;
     last_retired_pc := last_retired_pc s; last_retire_cycle := last_retire_cycle s; serial_gprs :=
     serial_gprs s; cond_retired := cond_retired s; stats := stats s |}.
Definition put_removed_ctr (x : list (Z * Z)) (s : Rules) : Rules :=
  {| inflight := inflight s; removed_lk := removed_lk s; removed_ctr := x; seq := seq s; order := order s;
     stream := stream s; redirect := redirect s; stops := stops s; lr_waits := lr_waits s; lr_retired :=
     lr_retired s; block := block s; last_dser := last_dser s; isync_retired := isync_retired s;
     last_retired_pc := last_retired_pc s; last_retire_cycle := last_retire_cycle s; serial_gprs :=
     serial_gprs s; cond_retired := cond_retired s; stats := stats s |}.
Definition put_seq (x : Z) (s : Rules) : Rules :=
  {| inflight := inflight s; removed_lk := removed_lk s; removed_ctr := removed_ctr s; seq := x; order :=
     order s; stream := stream s; redirect := redirect s; stops := stops s; lr_waits := lr_waits s; lr_retired
     := lr_retired s; block := block s; last_dser := last_dser s; isync_retired := isync_retired s;
     last_retired_pc := last_retired_pc s; last_retire_cycle := last_retire_cycle s; serial_gprs :=
     serial_gprs s; cond_retired := cond_retired s; stats := stats s |}.
Definition put_order (x : Z) (s : Rules) : Rules :=
  {| inflight := inflight s; removed_lk := removed_lk s; removed_ctr := removed_ctr s; seq := seq s; order :=
     x; stream := stream s; redirect := redirect s; stops := stops s; lr_waits := lr_waits s; lr_retired :=
     lr_retired s; block := block s; last_dser := last_dser s; isync_retired := isync_retired s;
     last_retired_pc := last_retired_pc s; last_retire_cycle := last_retire_cycle s; serial_gprs :=
     serial_gprs s; cond_retired := cond_retired s; stats := stats s |}.
Definition put_stream (x : list streamed) (s : Rules) : Rules :=
  {| inflight := inflight s; removed_lk := removed_lk s; removed_ctr := removed_ctr s; seq := seq s; order :=
     order s; stream := x; redirect := redirect s; stops := stops s; lr_waits := lr_waits s; lr_retired :=
     lr_retired s; block := block s; last_dser := last_dser s; isync_retired := isync_retired s;
     last_retired_pc := last_retired_pc s; last_retire_cycle := last_retire_cycle s; serial_gprs :=
     serial_gprs s; cond_retired := cond_retired s; stats := stats s |}.
Definition put_redirect (x : option (Z * Z)) (s : Rules) : Rules :=
  {| inflight := inflight s; removed_lk := removed_lk s; removed_ctr := removed_ctr s; seq := seq s; order :=
     order s; stream := stream s; redirect := x; stops := stops s; lr_waits := lr_waits s; lr_retired :=
     lr_retired s; block := block s; last_dser := last_dser s; isync_retired := isync_retired s;
     last_retired_pc := last_retired_pc s; last_retire_cycle := last_retire_cycle s; serial_gprs :=
     serial_gprs s; cond_retired := cond_retired s; stats := stats s |}.
Definition put_stops (x : list stop) (s : Rules) : Rules :=
  {| inflight := inflight s; removed_lk := removed_lk s; removed_ctr := removed_ctr s; seq := seq s; order :=
     order s; stream := stream s; redirect := redirect s; stops := x; lr_waits := lr_waits s; lr_retired :=
     lr_retired s; block := block s; last_dser := last_dser s; isync_retired := isync_retired s;
     last_retired_pc := last_retired_pc s; last_retire_cycle := last_retire_cycle s; serial_gprs :=
     serial_gprs s; cond_retired := cond_retired s; stats := stats s |}.
Definition put_lr_waits (x : list lr_wait) (s : Rules) : Rules :=
  {| inflight := inflight s; removed_lk := removed_lk s; removed_ctr := removed_ctr s; seq := seq s; order :=
     order s; stream := stream s; redirect := redirect s; stops := stops s; lr_waits := x; lr_retired :=
     lr_retired s; block := block s; last_dser := last_dser s; isync_retired := isync_retired s;
     last_retired_pc := last_retired_pc s; last_retire_cycle := last_retire_cycle s; serial_gprs :=
     serial_gprs s; cond_retired := cond_retired s; stats := stats s |}.
Definition put_lr_retired (x : option (Z * Z)) (s : Rules) : Rules :=
  {| inflight := inflight s; removed_lk := removed_lk s; removed_ctr := removed_ctr s; seq := seq s; order :=
     order s; stream := stream s; redirect := redirect s; stops := stops s; lr_waits := lr_waits s; lr_retired
     := x; block := block s; last_dser := last_dser s; isync_retired := isync_retired s; last_retired_pc :=
     last_retired_pc s; last_retire_cycle := last_retire_cycle s; serial_gprs := serial_gprs s; cond_retired
     := cond_retired s; stats := stats s |}.
Definition put_block (x : option (Z * Z)) (s : Rules) : Rules :=
  {| inflight := inflight s; removed_lk := removed_lk s; removed_ctr := removed_ctr s; seq := seq s; order :=
     order s; stream := stream s; redirect := redirect s; stops := stops s; lr_waits := lr_waits s; lr_retired
     := lr_retired s; block := x; last_dser := last_dser s; isync_retired := isync_retired s; last_retired_pc
     := last_retired_pc s; last_retire_cycle := last_retire_cycle s; serial_gprs := serial_gprs s;
     cond_retired := cond_retired s; stats := stats s |}.
Definition put_last_dser (x : option (Z * Z)) (s : Rules) : Rules :=
  {| inflight := inflight s; removed_lk := removed_lk s; removed_ctr := removed_ctr s; seq := seq s; order :=
     order s; stream := stream s; redirect := redirect s; stops := stops s; lr_waits := lr_waits s; lr_retired
     := lr_retired s; block := block s; last_dser := x; isync_retired := isync_retired s; last_retired_pc :=
     last_retired_pc s; last_retire_cycle := last_retire_cycle s; serial_gprs := serial_gprs s; cond_retired
     := cond_retired s; stats := stats s |}.
Definition put_isync_retired (x : option Z) (s : Rules) : Rules :=
  {| inflight := inflight s; removed_lk := removed_lk s; removed_ctr := removed_ctr s; seq := seq s; order :=
     order s; stream := stream s; redirect := redirect s; stops := stops s; lr_waits := lr_waits s; lr_retired
     := lr_retired s; block := block s; last_dser := last_dser s; isync_retired := x; last_retired_pc :=
     last_retired_pc s; last_retire_cycle := last_retire_cycle s; serial_gprs := serial_gprs s; cond_retired
     := cond_retired s; stats := stats s |}.
Definition put_last_retired_pc (x : option Z) (s : Rules) : Rules :=
  {| inflight := inflight s; removed_lk := removed_lk s; removed_ctr := removed_ctr s; seq := seq s; order :=
     order s; stream := stream s; redirect := redirect s; stops := stops s; lr_waits := lr_waits s; lr_retired
     := lr_retired s; block := block s; last_dser := last_dser s; isync_retired := isync_retired s;
     last_retired_pc := x; last_retire_cycle := last_retire_cycle s; serial_gprs := serial_gprs s;
     cond_retired := cond_retired s; stats := stats s |}.
Definition put_last_retire_cycle (x : option Z) (s : Rules) : Rules :=
  {| inflight := inflight s; removed_lk := removed_lk s; removed_ctr := removed_ctr s; seq := seq s; order :=
     order s; stream := stream s; redirect := redirect s; stops := stops s; lr_waits := lr_waits s; lr_retired
     := lr_retired s; block := block s; last_dser := last_dser s; isync_retired := isync_retired s;
     last_retired_pc := last_retired_pc s; last_retire_cycle := x; serial_gprs := serial_gprs s; cond_retired
     := cond_retired s; stats := stats s |}.
Definition put_serial_gprs (x : gmap Z (Z * Z)) (s : Rules) : Rules :=
  {| inflight := inflight s; removed_lk := removed_lk s; removed_ctr := removed_ctr s; seq := seq s; order :=
     order s; stream := stream s; redirect := redirect s; stops := stops s; lr_waits := lr_waits s; lr_retired
     := lr_retired s; block := block s; last_dser := last_dser s; isync_retired := isync_retired s;
     last_retired_pc := last_retired_pc s; last_retire_cycle := last_retire_cycle s; serial_gprs := x;
     cond_retired := cond_retired s; stats := stats s |}.
Definition put_cond_retired (x : bool) (s : Rules) : Rules :=
  {| inflight := inflight s; removed_lk := removed_lk s; removed_ctr := removed_ctr s; seq := seq s; order :=
     order s; stream := stream s; redirect := redirect s; stops := stops s; lr_waits := lr_waits s; lr_retired
     := lr_retired s; block := block s; last_dser := last_dser s; isync_retired := isync_retired s;
     last_retired_pc := last_retired_pc s; last_retire_cycle := last_retire_cycle s; serial_gprs :=
     serial_gprs s; cond_retired := x; stats := stats s |}.
Definition put_stats (x : gmap string Z) (s : Rules) : Rules :=
  {| inflight := inflight s; removed_lk := removed_lk s; removed_ctr := removed_ctr s; seq := seq s; order :=
     order s; stream := stream s; redirect := redirect s; stops := stops s; lr_waits := lr_waits s; lr_retired
     := lr_retired s; block := block s; last_dser := last_dser s; isync_retired := isync_retired s;
     last_retired_pc := last_retired_pc s; last_retire_cycle := last_retire_cycle s; serial_gprs :=
     serial_gprs s; cond_retired := cond_retired s; stats := x |}.

(** [st[name] += n] *)
Definition stat (name : string) (n : Z) (s : Rules) : Rules :=
  put_stats (<[name := default 0 (stats s !! name) + n]> (stats s)) s.
(** [st[name] = max(st[name], n)] *)
Definition stat_max (name : string) (n : Z) (s : Rules) : Rules :=
  put_stats (<[name := Z.max (default 0 (stats s !! name)) n]> (stats s)) s.
Definition stat_set (name : string) (n : Z) (s : Rules) : Rules := put_stats (<[name := n]> (stats s)) s.

Notation "'check!' c 'rule' n 'in' k" := (if c then k else Raise (ValueError n%string))
  (at level 10, c at level 100, n at level 0, k at level 200) : py_scope.

Section Rules.
Variable g : config.

Definition cls (pc : Z) (s : Rules) : Rules * option klass :=
  match words g !! pc with
  | None => (stat "unknown" 1 s, None)
  | Some word => (s, Some (classify word (sru g)))
  end.

Definition holds (o : option klass) (p : klass -> bool) : bool := match o with Some c => p c | None => false end.
Definition inflight_has (s : Rules) (pc : Z) : bool := existsb (fun e => e_pc e =? pc) (inflight s).
Definition all_classes (l : list (option klass)) : option (list klass) := mapM id l.

(** ** Retirement *)
Definition check_latency (cycle : Z) (c : option klass) (s : Rules) : bool :=
  match c, last_retire_cycle s with
  | Some c, Some r => match sru_lat c with
                      | Some n => if truthy n then n + 1 <=? cycle - r else true
                      | None => true
                      end
  | _, _ => true
  end.

(** TIM-SER-RESULT: a reader of a serialized result is behind its writer. *)
Definition check_reads (cycle word : Z) (s : Rules) : bool :=
  let '(regs, gap) := gpr_reads word in
  forallb (fun r => match serial_gprs s !! r with Some (when, _) => gap <=? cycle - when | None => true end) (elements regs).

Definition note_writes (cycle pc word : Z) (s : Rules) : Rules :=
  let m := fold_left (fun m r => delete r m) (elements (gpr_writes word)) (serial_gprs s) in
  put_serial_gprs (match serial_gpr word with Some r => <[r := (cycle, pc)]> m | None => m end) s.

(** How many removed entries lead the queue. *)
Fixpoint dead_prefix (l : list entry) : nat :=
  match l with e :: l' => if dead (e_flag e) then S (dead_prefix l') else O | [] => O end.
Definition first_removed (l : list entry) : bool :=
  match l with e :: _ => match e_flag e with Removed => true | _ => false end | [] => false end.
Definition wrong_path_length (s : Rules) : nat :=
  if cond_retired s || first_removed (inflight s) then dead_prefix (inflight s) else O.

(** The first entry at or past [k] with this pc. *)
Definition find_from (k : nat) (pc : Z) (l : list entry) : option nat :=
  match list_find (fun e => e_pc e = pc) (drop k l) with Some (i, _) => Some (k + i)%nat | None => None end.

(** The [bclr]s that wait for the retiring move. *)
Definition lr_wait_done (cycle sq : Z) (w : lr_wait) : lr_wait :=
  if bool_decide (w_entry w = Some sq)
  then {| w_mtspr := w_mtspr w; w_order := w_order w; w_pc := w_pc w; w_cycle := w_cycle w; w_retired := Some cycle;
          w_entry := w_entry w |}
  else w.
Definition lr_wait_early (cycle sq : Z) (w : lr_wait) : bool :=
  bool_decide (w_entry w = Some sq) && negb (cycle - 1 <=? w_cycle w).

(** The part of a retirement past the search: the entry found leaves the queue. *)
Definition retire_entry (cycle pc : Z) (slot : nat) (c : option klass) (index wrong : nat) (e : entry) (s : Rules)
  : result Rules :=
  check! flush g || Nat.eqb index wrong rule "TIM-CQ-ORDER" in
  check! negb (dead (e_flag e)) rule "retired after its recovery removed it" in
  let s := stat "flushed" (Z.of_nat index) s in
  let s := stat "mispredicts" (if Nat.ltb 0 wrong then 1 else 0) s in
  check! negb (existsb (lr_wait_early cycle (e_seq e)) (lr_waits s)) rule "TIM-BPU-LR-DEPENDENCY" in
  let s := put_lr_waits (map (lr_wait_done cycle (e_seq e)) (lr_waits s)) s in
  let s := if holds c (fun c => bool_decide (mtspr c = Some LR)) then put_lr_retired (Some (cycle, pc)) s else s in
  let s := put_inflight (drop (S index) (inflight s)) s in
  check! e_cycle e <? cycle rule "retired in its dispatch cycle" in
  let s := stat "retirements" 1 s in
  check! (match last_dser s with Some (n, at_) => negb (e_seq e <? n) || (cycle <=? at_) | None => true end)
  rule "TIM-DISP-DQ0" in
  let s := match block s with Some (n, _) => if n <=? e_seq e then put_block None s else s | None => s end in
  check! negb (Nat.eqb slot 1) || negb (holds c (fun c => negb (cq1 c))) rule "TIM-CQ-CQ1/ORDER" in
  check! negb (Nat.eqb slot 1) || negb (holds c cser) rule "TIM-SER-COMPLETE" in
  let s := if holds c isync then stat "isync" 1 (put_isync_retired (Some cycle) s) else s in
  Ok (put_cond_retired (holds c cond) (put_last_retired_pc (Some pc) s)).

Definition retire_one (cycle : Z) (slot : nat) (pc : Z) (s : Rules) : result (Rules * option klass) :=
  let '(s, c) := cls pc s in
  check! check_latency cycle c s rule "TIM-SER-SRU-LATENCY" in
  let s := put_last_retire_cycle (Some cycle) s in
  let word := words g !! pc in
  check! (match word with Some w => check_reads cycle w s | None => true end) rule "TIM-SER-RESULT" in
  let s := match word with Some w => note_writes cycle pc w s | None => s end in
  if holds c multiple && bool_decide (last_retired_pc s = Some pc) && negb (inflight_has s pc) then Ok (s, c)
  else
    let wrong := wrong_path_length s in
    match find_from wrong pc (inflight s) with
    | None => Raise (ValueError "not dispatched (in order)")
    | Some index =>
        match inflight s !! index with
        | None => Raise IndexError
        | Some e => let! s := retire_entry cycle pc slot c index wrong e s in Ok (s, c)
        end
    end.

Fixpoint retire_all (cycle : Z) (slot : nat) (retired : list Z) (s : Rules) : result (Rules * list (option klass)) :=
  match retired with
  | [] => Ok (s, [])
  | pc :: rest =>
      let! (s, c) := retire_one cycle slot pc s in
      let! (s, cs) := retire_all cycle (S slot) rest s in
      Ok (s, c :: cs)
  end.

(** TIM-WB-LIMITS *)
Definition writeback_ok (x y : klass) : bool :=
  match zip_with Z.add (writes x) (writes y) with
  | t :: ts => (t <=? 2) && forallb (fun t => t <=? 1) ts
  | [] => true
  end.

Definition retire_pair (retired : list Z) (classes : list (option klass)) (s : Rules) : result Rules :=
  if Nat.eqb (length retired) 2 then
    let s := stat "pairs_retired" 1 s in
    match all_classes classes with
    | Some [x; y] => check! writeback_ok x y rule "TIM-WB-LIMITS" in Ok s
    | _ => Ok s
    end
  else Ok s.

(** ** Dispatch *)

(** The redirect floor, the serialized instruction in flight and isync. *)
Definition before_dispatch (cycle : Z) (dispatched : list Z) (s : Rules) : result Rules :=
  match dispatched with
  | [] => Ok s
  | _ =>
      let! s :=
        (match redirect s with
         | Some (floor, _) =>
             check! floor <=? cycle rule "TIM-BPU-MISPREDICT" in
             Ok (put_redirect None (stat "redirects_at_floor" (if cycle =? floor then 1 else 0) (stat "redirects" 1 s)))
         | None => Ok s
         end) in
      check! (match block s with None => true | Some _ => false end) rule "TIM-SER-DISPATCH" in
      check! (match isync_retired s with None => true | Some r => r <? cycle end) rule "TIM-SER-REFETCH" in
      Ok (put_isync_retired None s)
  end.

Definition has_unit (u : unit) (l : list unit) : bool := existsb (fun v => bool_decide (u = v)) l.
(** [any(x != y for x in a for y in b)] *)
Definition differ (l m : list unit) : bool := existsb (fun x => existsb (fun y => negb (bool_decide (x = y))) m) l.
Definition is_units (c : klass) (l : list unit) : bool := bool_decide (units c = l).
Definition sru_pair (x y : klass) : bool :=
  (is_units x [IU] && is_units y [IU; SRU]) || (is_units y [IU] && is_units x [IU; SRU])
  || (is_units x [IU; SRU] && is_units y [IU; SRU]).

(** TIM-DISP-DQ1 *)
Definition dispatch_pair (dispatched : list Z) (classes : list (option klass)) (s : Rules) : result Rules :=
  if Nat.eqb (length dispatched) 2 then
    let s := stat "pairs_dispatched" 1 s in
    match all_classes classes with
    | Some [x; y] =>
        check! negb (dser x) && negb (dser y) rule "TIM-DISP-DQ1" in
        check! has_unit BPU (units x ++ units y) || differ (units x) (units y) rule "TIM-DISP-DQ1 same unit" in
        Ok (if sru_pair x y then stat "sru_pairs" 1 s else s)
    | _ => Ok s
    end
  else Ok s.

Definition live (l : list entry) : list entry := List.filter (fun e => negb (dead (e_flag e))) l.
Definition blocking (s : Rules) (older : Z) : bool := existsb (fun e => e_seq e =? older) (live (inflight s)).
(** A removed branch that older work still holds. *)
Definition held (s : Rules) (r : Z * Z) : bool := existsb (fun e => e_seq e <=? fst r) (live (inflight s)).

Definition lr_target_early (cycle pc : Z) (w : lr_wait) : bool :=
  match w_retired w with
  | Some r => negb (pc =? w_pc w + 4) && negb (r + 2 <=? cycle)
  | None => false
  end.

(** The youngest live entry whose class makes this branch wait. *)
Fixpoint waits_on (l : list entry) (c : klass) : option (entry * stop_kind) :=
  match l with
  | [] => None
  | e :: l' => match e_class e with
               | Some o => match fetch_stop o c with Some k => Some (e, k) | None => waits_on l' c end
               | None => waits_on l' c
               end
  end.

Definition fetch_stops (cycle pc : Z) (c : option klass) (gone : bool) (s : Rules) : result Rules :=
  let s := put_stops (List.filter (fun st => blocking s (st_older st)) (stops s)) s in
  let due := List.filter (fun w => w_order w =? order s) (lr_waits s) in
  check! negb (existsb (lr_target_early cycle pc) due) rule "TIM-BPU-LR-DEPENDENCY" in
  let s := put_lr_waits (List.filter (fun w => negb (w_order w =? order s)) (lr_waits s)) s in
  let s := if holds c (fun c => truthy (wr c 3)) then put_lr_retired None s else s in
  let s := put_removed_lk (List.filter (held s) (removed_lk s)) s in
  check! negb (holds c (fun c => has_branch c && truthy (wr c 3) && negb (is_branch c b))
               && negb (Nat.eqb (length (removed_lk s)) 0)) rule "TIM-BPU-FETCH-STOP" in
  let s := put_removed_ctr (List.filter (held s) (removed_ctr s)) s in
  check! negb (holds c (fun c => ctr_test c || is_branch c bcctr)
               && negb (Nat.eqb (length (removed_ctr s)) 0)) rule "TIM-BPU-FETCH-STOP" in
  check! Nat.eqb (length (stops s)) 0 rule "TIM-BPU-FETCH-STOP" in
  match c with
  | None => Ok s
  | Some c =>
      if negb (has_branch c) then Ok s
      else
        let s := match lr_retired s with
                 | Some (when, by_) =>
                     if is_branch c bclr
                     then put_lr_waits (lr_waits s ++ [{| w_mtspr := by_; w_order := order s + 1; w_pc := pc; w_cycle := cycle;
                                                          w_retired := Some when; w_entry := None |}]) s
                     else s
                 | None => s
                 end in
        match waits_on (rev (live (inflight s))) c with
        | None => Ok s
        | Some (older, k) =>
            let s := if bool_decide (k = execute)
                     then put_lr_waits (lr_waits s ++ [{| w_mtspr := e_pc older; w_order := order s + 1; w_pc := pc;
                                                          w_cycle := cycle; w_retired := None;
                                                          w_entry := Some (e_seq older) |}]) s
                     else s in
            check! negb gone || bool_decide (k = execute) rule "TIM-BPU-FETCH-STOP" in
            Ok (stat "fetch_stops" 1
                  (put_stops (stops s ++ [{| st_older := e_seq older; st_order := order s + 1; st_pc := pc; st_kind := k |}]) s))
        end
  end.

(** [self.stream[-31:] + [...]] *)
Definition last_n {A} (n : nat) (l : list A) : list A := drop (length l - n) l.

(** A branch the BPU removes writes CTR only as a bc, and LR only as a bl. *)
Definition foldable (c : klass) : bool :=
  is_units c [BPU] && (negb (truthy (wr c 4)) || (is_branch c bc && negb (truthy (wr c 3))))
  && (negb (truthy (wr c 3)) || is_branch c b).

Definition dispatch_one (cycle pc : Z) (c : option klass) (gone : bool) (s : Rules) : result Rules :=
  let! s := fetch_stops cycle pc c gone s in
  let s := put_order (order s + 1) s in
  let s := put_stream (last_n 31 (stream s) ++
             [{| s_order := order s; s_class := c; s_gone := gone; s_cycle := cycle; s_pc := pc |}]) s in
  if gone then
    check! negb (holds c (fun c => negb (foldable c))) rule "TIM-BPU-FOLD" in
    let s := if holds c (fun c => truthy (wr c 3)) then put_removed_lk (removed_lk s ++ [(seq s, pc)]) s else s in
    let s := if holds c (fun c => truthy (wr c 4)) then put_removed_ctr (removed_ctr s ++ [(seq s, pc)]) s else s in
    Ok (stat "removed" 1 (stat "dispatches" 1 s))
  else
    let s := put_seq (seq s + 1) s in
    let e := {| e_pc := pc; e_cycle := cycle; e_seq := seq s; e_flag := Live; e_class := c; e_order := order s |} in
    let s := stat "dispatches" 1 (put_inflight (inflight s ++ [e]) s) in
    let s := if holds c dser
             then put_last_dser (Some (seq s, cycle)) (put_block (Some (seq s, cycle)) (stat "dser" 1 s)) else s in
    Ok (if holds c cser then stat "cser" 1 s else s).

(** [zip(dispatched, classes)], with [removed[slot]] where there is one. *)
Fixpoint dispatch_all (cycle : Z) (slots : list (Z * option klass)) (removed : list bool) (s : Rules) : result Rules :=
  match slots with
  | [] => Ok s
  | (pc, c) :: rest =>
      let! s := dispatch_one cycle pc c (match removed with r :: _ => r | [] => false end) s in
      dispatch_all cycle rest (tl removed) s
  end.

Fixpoint classes_of (l : list Z) (s : Rules) : Rules * list (option klass) :=
  match l with
  | [] => (s, [])
  | pc :: l' => let '(s, c) := cls pc s in let '(s, cs) := classes_of l' s in (s, c :: cs)
  end.

(** ** Limits and recoveries *)
Definition gpr_count (e : entry) : Z := match e_class e with Some c => wr c 0 | None => 0 end.
Definition fpr_count (e : entry) : Z := match e_class e with Some c => wr c 2 | None => 0 end.
Definition total (f : entry -> Z) (l : list entry) : Z := fold_right (fun e n => f e + n) 0 l.

(** TIM-CQ-ALLOC and TIM-RENAME-LIMITS *)
Definition occupancy (s : Rules) : result Rules :=
  let l := live (inflight s) in
  let gpr := total gpr_count l in
  let fpr := total fpr_count l in
  let n := Z.of_nat (length l) in
  let s := stat_max "gpr_max" gpr (stat_max "cq_max" n s) in
  check! n <=? CQ_DEPTH rule "TIM-CQ-ALLOC" in
  check! (gpr <=? GPR_RENAMES) && (fpr <=? FPR_RENAMES) rule "TIM-RENAME-LIMITS" in
  Ok s.

(** TIM-BPU-MISPREDICT: the earliest dispatch after the recovery of [branch]. *)
Definition mispredict_floor (cycle branch : Z) (s : Rules) : result Rules :=
  let entry := find (fun e => s_order e =? branch) (stream s) in
  let pc := match entry with Some e => s_pc e | None => 0 end in
  match entry with
  | Some e =>
      if holds (s_class e) (fun c => has_branch c && cr_test c) then
        match words g !! s_pc e with
        | None => Raise KeyError
        | Some w =>
            let field := Z.land (Z.shiftr w 18) 7 in
            let older := List.filter (fun e => (s_order e <? branch) && negb (s_gone e)
                                               && bool_decide (cr_field (words g !! s_pc e) = Some field)) (stream s) in
            match last older with
            | Some o => Ok (put_redirect (Some (Z.max (cycle + 1) (s_cycle o + 4), pc)) s)
            | None => Ok s
            end
        end
      else Ok (put_redirect (Some (cycle + 1, pc)) s)
  | None => Ok (put_redirect (Some (cycle + 1, pc)) s)
  end.

(** The order of the youngest dispatch but [younger] that was not removed. *)
Fixpoint counted_back (l : list streamed) (younger : Z) : option Z :=
  match l with
  | [] => None
  | e :: l' => if s_gone e then counted_back l' younger
               else if younger =? 0 then Some (s_order e) else counted_back l' (younger - 1)
  end.

(** [self.stream[-1 - after][0]], or the count back over the dispatches. *)
Definition recovery_branch (mispredict : Z) (after : option Z) (s : Rules) : result (option Z) :=
  match after with
  | Some n =>
      let len := Z.of_nat (length (stream s)) in
      if len <=? n then Ok None
      else match stream s !! Z.to_nat (if n <? 0 then -1 - n else len - 1 - n) with
           | Some e => Ok (Some (s_order e))
           | None => Raise IndexError
           end
  | None => Ok (counted_back (rev (stream s)) mispredict)
  end.

(** TIM-BPU-ONE-PREDICTION: a branch on CR ends the predicted path. *)
Fixpoint check_path (path : list streamed) (s : Rules) : result Rules :=
  match path with
  | [] => Ok s
  | e :: rest =>
      if holds (s_class e) (fun c => has_branch c && cr_test c && negb (ctr_test c)) then
        check! negb (s_gone e) && Nat.eqb (length rest) 0 rule "TIM-BPU-ONE-PREDICTION" in
        check_path rest (stat "wrong_path_branches" 1 s)
      else check_path rest s
  end.

Definition wrong_path (cycle mispredict : Z) (after : option Z) (s : Rules) : result Rules :=
  let! found := recovery_branch mispredict after s in
  match found with
  | None => Ok s
  | Some branch =>
      let path := List.filter (fun e => branch <? s_order e) (stream s) in
      let! s := mispredict_floor cycle branch s in
      let s := put_stops (List.filter (fun st => st_order st <=? branch) (stops s)) s in
      check_path path s
  end.

(** [for entry in self.inflight[len - mispredict:]: entry[3] = ...] *)
Definition mark_removed (mispredict : Z) (after : option Z) (l : list entry) : list entry :=
  let k := (length l - Z.to_nat mispredict)%nat in
  take k l ++ map (with_flag (match after with None => Flushed | Some _ => Removed end)) (drop k l).

(** ** One event *)
Record event_line : Type := {
  cycle : Z; dispatched : list Z; retired : list Z; mispredict : option Z; removed : list bool; after : option Z
}.

Definition event (ev : event_line) (s : Rules) : result Rules :=
  let n := default 0 (mispredict ev) in
  let s := stat_set "cycles" (cycle ev) s in
  check! (Z.of_nat (length (dispatched ev)) <=? width g) && (Z.of_nat (length (retired ev)) <=? width g)
  rule "TIM-DISP-WIDTH" in
  let! (s, classes) := retire_all (cycle ev) 0 (retired ev) s in
  let! s := retire_pair (retired ev) classes s in
  let! s := before_dispatch (cycle ev) (dispatched ev) s in
  let '(s, classes) := classes_of (dispatched ev) s in
  let! s := dispatch_pair (dispatched ev) classes s in
  let! s := dispatch_all (cycle ev) (combine (dispatched ev) classes) (removed ev) s in
  let! s := occupancy s in
  check! n <=? Z.of_nat (length (inflight s)) rule "recovery removes too many" in
  let! s :=
    (match mispredict ev with
     | Some _ => let! s := wrong_path (cycle ev) n (after ev) s in Ok (put_lr_waits [] s)
     | None => Ok s
     end) in
  Ok (put_inflight (mark_removed n (after ev) (inflight s)) s).

(** [check_rules] on parsed lines: cycles increase from [-1]. *)
Fixpoint check_events (previous : Z) (evs : list event_line) (s : Rules) : result Rules :=
  match evs with
  | [] => Ok s
  | ev :: rest =>
      check! previous <? cycle ev rule "out of order" in
      let! s := event ev s in
      check_events (cycle ev) rest s
  end.

Definition check_rules (evs : list event_line) : result Rules := check_events (-1) evs init.

End Rules.

End rules.
