(* ===== verification/DispatchTheorems.v ===== *)
(** * What an accepted trace satisfies ([sim/tools/check_dispatch_trace.py]) *)
From Stdlib Require Import Sorting.Sorted.
From S2P Require Import Prelude DispatchClass DispatchRules.
Import dispatch_trace rules.

(** Splits a chain of [check!] that returned. *)
Ltac checks H :=
  repeat match type of H with
  | (if ?c then _ else Raise _) = Ok _ => let E := fresh "Hc" in destruct c eqn:E; [| discriminate H]
  end.

(** ** What each part of an event leaves alone *)

(** The fields the logs below speak of. *)
Definition core_eq (s s' : Rules) : Prop := inflight s' = inflight s /\ last_retired_pc s' = last_retired_pc s /\ seq s' = seq s.

#[export] Instance core_eq_refl : Reflexive core_eq.
Proof. intros s. repeat split. Qed.
#[export] Instance core_eq_trans : Transitive core_eq.
Proof. intros s t u (A1 & A2 & A3) (B1 & B2 & B3). repeat split; congruence. Qed.

Ltac core_triv := repeat (cbv beta iota zeta; match goal with |- context [match ?b with _ => _ end] => destruct b end); repeat split.

Lemma cls_core g pc s : core_eq s (fst (cls g pc s)) /\ snd (cls g pc s) = option_map (fun w => classify w (sru g)) (words g !! pc).
Proof. unfold cls. destruct (words g !! pc); (split; [repeat split | reflexivity]). Qed.

Lemma classes_of_core g l s : core_eq s (fst (classes_of g l s)) /\ length (snd (classes_of g l s)) = length l.
Proof.
  revert s. induction l as [| pc l IH]; intros s; [split; reflexivity |]. cbn [classes_of].
  pose proof (cls_core g pc s) as [H1 _]. destruct (cls g pc s) as [s1 c]. specialize (IH s1).
  destruct (classes_of g l s1) as [s2 cs]. cbn in *. destruct IH as [IH1 IH2]. split; [etransitivity; eassumption | lia].
Qed.

(** A class is absent, or that of a word of the image. *)
Definition known (c : option klass) : Prop := c = None \/ exists w u, c = Some (classify w u).

Lemma classes_of_known g l s : Forall known (snd (classes_of g l s)).
Proof.
  revert s. induction l as [| pc l IH]; intros s; [constructor |]. cbn [classes_of].
  pose proof (cls_core g pc s) as [_ H1]. destruct (cls g pc s) as [s1 c]. specialize (IH s1).
  destruct (classes_of g l s1) as [s2 cs]. cbn in *. constructor; [| exact IH]. subst c.
  destruct (words g !! pc) as [z |]; [right; exists z, (sru g); reflexivity | left; reflexivity].
Qed.

Lemma known_combine (l : list Z) cs : Forall known cs -> Forall (fun p => known (snd p)) (combine l cs).
Proof. intros H. revert l. induction H as [| c cs Hc _ IH]; intros [| pc l]; cbn; constructor; auto. Qed.

Lemma note_writes_core cycle pc w s : core_eq s (note_writes cycle pc w s).
Proof. repeat split. Qed.

Lemma retire_pair_core l cs s s' : retire_pair l cs s = Ok s' -> core_eq s s'.
Proof.
  unfold retire_pair. destruct (Nat.eqb _ 2); [| intros [= <-]; reflexivity].
  destruct (all_classes cs) as [[| x [| y [| z l']]] |]; intros H; checks H; injection H as <-; repeat split.
Qed.

Lemma before_dispatch_core cycle l s s' : before_dispatch cycle l s = Ok s' -> core_eq s s'.
Proof.
  unfold before_dispatch. destruct l; [intros [= <-]; reflexivity |]. destruct (redirect s) as [[fl pc] |].
  - destruct (fl <=? cycle); [| discriminate]. intros H. checks H. injection H as <-. repeat split.
  - intros H. checks H. injection H as <-. repeat split.
Qed.

Lemma dispatch_pair_core l cs s s' : dispatch_pair l cs s = Ok s' -> core_eq s s'.
Proof.
  unfold dispatch_pair. destruct (Nat.eqb _ 2); [| intros [= <-]; reflexivity].
  destruct (all_classes cs) as [[| x [| y [| z l']]] |]; intros H; checks H; injection H as <-; try destruct (sru_pair _ _);
    repeat split.
Qed.

Lemma fetch_stops_core cycle pc c gone s s' : fetch_stops cycle pc c gone s = Ok s' -> core_eq s s'.
Proof.
  unfold fetch_stops. cbv zeta. intros H. checks H. clear Hc Hc0 Hc1 Hc2. revert H.
  set (s1 := put_removed_ctr _ _). assert (E : core_eq s s1) by (subst s1; destruct (holds c _); repeat split).
  clearbody s1. intros H. transitivity s1; [exact E |]. clear E. destruct c as [c |]; [| injection H as <-; reflexivity].
  destruct (negb (has_branch c)); [injection H as <-; reflexivity |]. revert H.
  set (s2 := match lr_retired s1 with Some _ => _ | None => _ end).
  assert (E : core_eq s1 s2) by (subst s2; destruct (lr_retired s1) as [[when by_] |]; [destruct (is_branch c bclr) |]; repeat split).
  clearbody s2. intros H. transitivity s2; [exact E |]. destruct (waits_on _ c) as [[older k] |]; [| injection H as <-; reflexivity].
  checks H. injection H as <-. destruct (bool_decide (k = execute)); repeat split.
Qed.

Lemma occupancy_inv s s' :
  occupancy s = Ok s' -> core_eq s s' /\
  Z.of_nat (length (live (inflight s'))) <= CQ_DEPTH /\ total gpr_count (live (inflight s')) <= GPR_RENAMES /\
  total fpr_count (live (inflight s')) <= FPR_RENAMES.
Proof.
  unfold occupancy. intros H. checks H. injection H as <-. apply andb_true_iff in Hc0. rewrite !Z.leb_le in *.
  cbn [inflight stat_max put_stats]. repeat split; try reflexivity; tauto.
Qed.

Lemma check_path_core path s s' : check_path path s = Ok s' -> core_eq s s'.
Proof.
  revert s. induction path as [| e l IH]; intros s; cbn [check_path]; [intros [= <-]; reflexivity |].
  destruct (holds _ _); [| apply IH]. intros H. checks H. apply IH in H. etransitivity; [| exact H]. repeat split.
Qed.

Lemma mispredict_floor_core g cycle br s s' : mispredict_floor g cycle br s = Ok s' -> core_eq s s'.
Proof.
  unfold mispredict_floor. cbv zeta. destruct (find _ _) as [e |]; [| intros [= <-]; repeat split].
  destruct (holds _ _); [| intros [= <-]; repeat split]. destruct (words g !! s_pc e); [| discriminate].
  destruct (last _); intros [= <-]; repeat split.
Qed.

Lemma wrong_path_core g cycle n aft s s' : wrong_path g cycle n aft s = Ok s' -> core_eq s s'.
Proof.
  unfold wrong_path. destruct (recovery_branch n aft s) as [[br |] |]; [| intros [= <-]; reflexivity | discriminate].
  destruct (mispredict_floor g cycle br s) as [s1 |] eqn:E; [| discriminate]. apply mispredict_floor_core in E.
  intros H. apply check_path_core in H. etransitivity; [exact E |]. etransitivity; [| exact H]. repeat split.
Qed.

(** ** One retirement *)
Definition klass_at (g : config) (pc : Z) : option klass := option_map (fun w => classify w (sru g)) (words g !! pc).

Lemma retire_entry_inv g cycle pc slot c index wrong e s s' :
  retire_entry g cycle pc slot c index wrong e s = Ok s' ->
  inflight s' = drop (S index) (inflight s) /\ last_retired_pc s' = Some pc /\ seq s' = seq s /\
  e_cycle e < cycle /\ e_flag e = Live /\ (flush g = false -> index = wrong).
Proof.
  unfold retire_entry. cbv zeta. intros H. checks H. injection H as <-.
  destruct (holds c isync); cbn [inflight last_retired_pc seq put_cond_retired put_last_retired_pc stat put_stats put_isync_retired];
    match goal with |- context [match ?b with Some _ => _ | None => _ end] => destruct b as [[n u] |] end;
    try destruct (n <=? e_seq e); destruct (holds c _);
    cbn [inflight last_retired_pc seq put_block stat put_stats put_inflight put_lr_retired put_lr_waits];
    (split; [reflexivity |]); (split; [reflexivity |]); (split; [reflexivity |]);
    (split; [lia |]);
    (split; [destruct (e_flag e); [reflexivity | discriminate | discriminate] |]);
    (intros Hf; rewrite Hf in Hc; apply Nat.eqb_eq in Hc; exact Hc).
Qed.

Lemma find_from_inv k pc l n :
  find_from k pc l = Some n -> exists e, l !! n = Some e /\ e_pc e = pc /\ (k <= n)%nat.
Proof.
  unfold find_from. destruct (list_find _ _) as [[i e] |] eqn:E; [| discriminate]. intros [= <-].
  apply list_find_Some in E. destruct E as (E1 & E2 & _). rewrite lookup_drop in E1. exists e. split; [exact E1 |]. split; [exact E2 | lia].
Qed.

Lemma dead_prefix_live l : Forall (fun e => e_flag e = Live) l -> dead_prefix l = 0%nat.
Proof. intros H. destruct l as [| e l]; [reflexivity |]. apply Forall_cons in H. destruct H as [H _]. cbn. rewrite H. reflexivity. Qed.

(** A retirement either repeats a multiple or string instruction that has left
    the queue, or takes an entry with its pc out of the queue, dropping those
    in front of it. *)
Lemma retire_one_inv g cycle slot pc s s' c :
  retire_one g cycle slot pc s = Ok (s', c) ->
  c = klass_at g pc /\
  ((core_eq s s' /\ last_retired_pc s = Some pc /\ holds (klass_at g pc) multiple = true) \/
   (exists front e rest, inflight s = front ++ e :: rest /\ e_pc e = pc /\ e_cycle e < cycle /\ e_flag e = Live /\
      inflight s' = rest /\ last_retired_pc s' = Some pc /\ seq s' = seq s /\
      (flush g = false -> Forall (fun e => e_flag e = Live) (inflight s) -> front = []))).
Proof.
  unfold retire_one. pose proof (cls_core g pc s) as [Hs1 Hc]. destruct (cls g pc s) as [s1 c1]. cbn [fst snd] in Hs1, Hc.
  fold (klass_at g pc) in Hc. subst c1. intros H. checks H. revert H.
  set (s2 := put_last_retire_cycle (Some cycle) s1).
  assert (E2 : core_eq s s2) by (etransitivity; [exact Hs1 | repeat split]). clearbody s2.
  set (s3 := match words g !! pc with Some w => note_writes cycle pc w s2 | None => s2 end).
  assert (E3 : core_eq s s3) by (subst s3; destruct (words g !! pc); [etransitivity; [exact E2 |]; apply note_writes_core | exact E2]).
  clearbody s3. destruct (holds (klass_at g pc) multiple && _ && _) eqn:Em.
  { intros [= <- <-]. split; [reflexivity |]. left. apply andb_true_iff in Em. destruct Em as [Em _].
    apply andb_true_iff in Em. destruct Em as [Em1 Em2]. apply bool_decide_eq_true in Em2.
    split; [exact E3 |]. split; [| exact Em1]. destruct E3 as (_ & E3 & _). congruence. }
  destruct (find_from _ pc (inflight s3)) as [n |] eqn:Ef; [| discriminate].
  apply find_from_inv in Ef. destruct Ef as (e & El & Epc & _). rewrite El.
  destruct (retire_entry _ _ _ _ _ _ _ _ _) as [s4 |] eqn:Er; [| discriminate]. intros [= <- <-]. split; [reflexivity |]. right.
  apply retire_entry_inv in Er. destruct Er as (R1 & R2 & R3 & R4 & R5 & R6). destruct E3 as (A1 & A2 & A3).
  rewrite A1 in El, R1. exists (take n (inflight s)), e, (drop (S n) (inflight s)).
  split; [symmetry; apply take_drop_middle; exact El |]. repeat (split; [assumption || congruence |]).
  intros Hf Hl. rewrite (R6 Hf). unfold wrong_path_length. rewrite A1, dead_prefix_live by exact Hl.
  destruct (_ || _); reflexivity.
Qed.

(** ** Logs *)

(** The dispatches of an event that enter the queue, and its retirements. *)
Fixpoint queued (at_ : Z) (l : list Z) (rm : list bool) : list (Z * Z) :=
  match l with
  | [] => []
  | pc :: l' => (if match rm with r :: _ => r | [] => false end then [] else [(pc, at_)]) ++ queued at_ l' (tl rm)
  end.
Definition dispatch_log (evs : list event_line) : list (Z * Z) :=
  concat (map (fun ev => queued (cycle ev) (dispatched ev) (removed ev)) evs).
Definition retire_log (evs : list event_line) : list (Z * Z) :=
  concat (map (fun ev => map (fun pc => (pc, cycle ev)) (retired ev)) evs).

(** An instruction that left the queue: its pc, dispatch and retire cycle. *)
Record completion : Type := { k_pc : Z; k_dispatched : Z; k_retired : Z }.
Definition k_in (k : completion) : Z * Z := (k_pc k, k_dispatched k).
Definition k_out (k : completion) : Z * Z := (k_pc k, k_retired k).
Definition waiting (s : Rules) : list (Z * Z) := map (fun e => (e_pc e, e_cycle e)) (inflight s).

(** [l] is [k], but for further micro-ops of the multiple or string
    instruction that retired last. *)
Inductive stutters (g : config) : option Z -> list (Z * Z) -> list (Z * Z) -> Prop :=
| stutters_nil o : stutters g o [] []
| stutters_keep o pc at_ l k : stutters g (Some pc) l k -> stutters g o ((pc, at_) :: l) ((pc, at_) :: k)
| stutters_again pc at_ l k :
    holds (klass_at g pc) multiple = true -> stutters g (Some pc) l k -> stutters g (Some pc) ((pc, at_) :: l) k.

Definition last_pc (o : option Z) (l : list (Z * Z)) : option Z := match last l with Some p => Some (fst p) | None => o end.

Lemma last_pc_cons o p l : last_pc o (p :: l) = last_pc (Some (fst p)) l.
Proof. unfold last_pc. destruct l as [| q l]; [reflexivity |]. rewrite last_cons_cons. destruct (last (q :: l)) eqn:E; [reflexivity |].
  apply last_None in E. discriminate. Qed.

Lemma last_pc_snoc o l p : last_pc o (l ++ [p]) = Some (fst p).
Proof. unfold last_pc. rewrite last_snoc. reflexivity. Qed.

Lemma stutters_snoc g o l k pc at_ : stutters g o l k -> stutters g o (l ++ [(pc, at_)]) (k ++ [(pc, at_)]).
Proof. induction 1; cbn; [repeat constructor | constructor; assumption | constructor; assumption]. Qed.

Lemma stutters_snoc_again g o l k pc at_ :
  stutters g o l k -> last_pc o l = Some pc -> holds (klass_at g pc) multiple = true -> stutters g o (l ++ [(pc, at_)]) k.
Proof.
  intros H. induction H as [o | o pc' a l k H IH | pc' a l k Hm H IH]; cbn; intros Hl Hp.
  - unfold last_pc in Hl. cbn in Hl. subst o. repeat constructor. exact Hp.
  - rewrite last_pc_cons in Hl. constructor. apply IH; assumption.
  - rewrite last_pc_cons in Hl. constructor; [exact Hm |]. apply IH; assumption.
Qed.

(** What the queue and the logs agree on, and the first-in first-out version
    for a trace without recoveries. *)
Record tracks (g : config) (dl rl : list (Z * Z)) (ks : list completion) (s : Rules) : Prop := {
  tr_stutter : stutters g None rl (map k_out ks);
  tr_last : last_retired_pc s = last_pc None rl;
  tr_order : sublist (map k_in ks ++ waiting s) dl;
  tr_strict : Forall (fun k => k_dispatched k < k_retired k) ks
}.
Definition fifo (dl : list (Z * Z)) (ks : list completion) (s : Rules) : Prop :=
  map k_in ks ++ waiting s = dl /\ Forall (fun e => e_flag e = Live) (inflight s).

Lemma tracks_core g dl rl ks s s' : core_eq s s' -> tracks g dl rl ks s -> tracks g dl rl ks s'.
Proof.
  intros (E1 & E2 & _) [H1 H2 H3 H4]. unfold waiting in H3.
  constructor; [exact H1 | congruence | unfold waiting; rewrite E1; exact H3 | exact H4].
Qed.
Lemma fifo_core dl ks s s' : core_eq s s' -> fifo dl ks s -> fifo dl ks s'.
Proof. intros (E1 & _). unfold fifo, waiting. rewrite E1. auto. Qed.

Lemma retire_one_tracks g cyc slot pc s s' c dl rl ks :
  retire_one g cyc slot pc s = Ok (s', c) -> tracks g dl rl ks s ->
  exists ks', tracks g dl (rl ++ [(pc, cyc)]) ks' s' /\ (flush g = false -> fifo dl ks s -> fifo dl ks' s').
Proof.
  intros H Ht. apply retire_one_inv in H. destruct H as [_ [(Hc & Hl & Hm) | H]].
  - exists ks. split; [| intros _; apply fifo_core, Hc]. apply (tracks_core _ _ _ _ _ _ Hc) in Ht.
    destruct Hc as (_ & Hc & _). destruct Ht as [H1 H2 H3 H4]. constructor; try assumption.
    + apply stutters_snoc_again; [exact H1 | congruence | exact Hm].
    + rewrite last_pc_snoc. cbn. congruence.
  - destruct H as (front & e & rest & Ei & Epc & Hcy & Hlive & Er & El & _ & Hf). destruct Ht as [H1 H2 H3 H4].
    set (k := {| k_pc := pc; k_dispatched := e_cycle e; k_retired := cyc |}). exists (ks ++ [k]). split.
    + constructor.
      * rewrite map_app. apply stutters_snoc, H1.
      * rewrite last_pc_snoc. exact El.
      * etransitivity; [| exact H3]. unfold waiting. rewrite Er, Ei, map_app, <- app_assoc. apply sublist_app; [reflexivity |].
        rewrite map_app. cbn. unfold k_in. cbn [k k_pc k_dispatched]. rewrite <- Epc. apply sublist_inserts_l. reflexivity.
      * apply Forall_app. split; [exact H4 |]. repeat constructor. exact Hcy.
    + intros Hg [F1 F2]. specialize (Hf Hg F2). subst front. split.
      * rewrite <- F1. unfold waiting. rewrite Er, Ei, map_app, <- app_assoc. cbn. unfold k_in. cbn [k k_pc k_dispatched].
        rewrite <- Epc. reflexivity.
      * rewrite Er. rewrite Ei in F2. apply Forall_cons in F2. tauto.
Qed.

Lemma retire_all_tracks g cyc slot l s s' cs dl rl ks :
  retire_all g cyc slot l s = Ok (s', cs) -> tracks g dl rl ks s ->
  exists ks', tracks g dl (rl ++ map (fun pc => (pc, cyc)) l) ks' s' /\ (flush g = false -> fifo dl ks s -> fifo dl ks' s').
Proof.
  revert slot s cs rl ks. induction l as [| pc l IH]; intros slot s cs rl ks; cbn [retire_all map].
  - intros [= <- <-] H. exists ks. rewrite app_nil_r. auto.
  - destruct (retire_one g cyc slot pc s) as [[s1 c] |] eqn:E1; [| discriminate].
    destruct (retire_all g cyc (S slot) l s1) as [[s2 cs'] |] eqn:E2; [| discriminate]. intros [= <- <-] H.
    destruct (retire_one_tracks _ _ _ _ _ _ _ _ _ _ E1 H) as (ks1 & H1 & F1).
    destruct (IH _ _ _ _ _ E2 H1) as (ks2 & H2 & F2). exists ks2. rewrite <- app_assoc in H2. split; [exact H2 | auto].
Qed.

Lemma dispatch_one_inv cyc pc c gone s s' :
  dispatch_one cyc pc c gone s = Ok s' ->
  last_retired_pc s' = last_retired_pc s /\
  (if gone then inflight s' = inflight s
   else exists e, inflight s' = inflight s ++ [e] /\ e_pc e = pc /\ e_cycle e = cyc /\ e_flag e = Live /\ e_class e = c).
Proof.
  unfold dispatch_one. destruct (fetch_stops cyc pc c gone s) as [s1 |] eqn:E; [| discriminate].
  apply fetch_stops_core in E. destruct E as (E1 & E2 & _). cbv zeta. destruct gone; intros H; checks H; injection H as <-.
  - rewrite <- E1, <- E2. destruct (holds c (fun c => truthy (wr c 3))), (holds c (fun c => truthy (wr c 4))); split; reflexivity.
  - rewrite <- E1, <- E2. split; [destruct (holds c cser), (holds c dser); reflexivity |].
    eexists. split; [destruct (holds c cser), (holds c dser); reflexivity |]. repeat split.
Qed.

Lemma dispatch_all_tracks g cyc l cs rm s s' dl rl ks :
  length cs = length l -> dispatch_all cyc (combine l cs) rm s = Ok s' -> tracks g dl rl ks s ->
  tracks g (dl ++ queued cyc l rm) rl ks s' /\ (fifo dl ks s -> fifo (dl ++ queued cyc l rm) ks s').
Proof.
  revert cs rm s dl. induction l as [| pc l IH]; intros cs rm s dl Hlen; cbn [combine dispatch_all queued].
  - intros [= <-] H. rewrite app_nil_r. auto.
  - destruct cs as [| c cs]; [discriminate |]. cbn [combine dispatch_all].
    set (r := match rm with r :: _ => r | [] => false end).
    destruct (dispatch_one cyc pc c r s) as [s1 |] eqn:E; [| discriminate]. intros Hd [H1 H2 H3 H4].
    apply dispatch_one_inv in E. destruct E as [El E]. rewrite app_assoc. injection Hlen as Hlen.
    set (dl1 := dl ++ if r then [] else [(pc, cyc)]).
    assert (Hw : waiting s1 = waiting s ++ if r then [] else [(pc, cyc)]).
    { unfold waiting. destruct r; [rewrite E, app_nil_r; reflexivity |]. destruct E as (e & -> & <- & <- & _).
      rewrite map_app. reflexivity. }
    assert (T : tracks g dl1 rl ks s1).
    { constructor; [exact H1 | congruence | | exact H4]. rewrite Hw, app_assoc. apply sublist_app; [exact H3 | reflexivity]. }
    destruct (IH cs (tl rm) s1 dl1 Hlen Hd T) as [T2 F2]. split; [exact T2 |]. intros [F3 F4]. apply F2. split.
    + rewrite Hw, app_assoc, F3. reflexivity.
    + destruct r; [rewrite E; exact F4 |]. destruct E as (e & -> & _ & _ & Hl & _). apply Forall_app. auto.
Qed.

Lemma mark_removed_waiting n aft l : map (fun e => (e_pc e, e_cycle e)) (mark_removed n aft l) = map (fun e => (e_pc e, e_cycle e)) l.
Proof.
  unfold mark_removed. rewrite map_app, map_map. cbn.
  rewrite <- map_app, take_drop. reflexivity.
Qed.

Lemma mark_removed_none aft l : mark_removed 0 aft l = l.
Proof. unfold mark_removed. change (Z.to_nat 0) with 0%nat. rewrite Nat.sub_0_r, take_ge, drop_ge by lia. apply app_nil_r. Qed.

(** ** One event *)
Lemma event_stages g ev s s' :
  event g ev s = Ok s' ->
  exists s1 cs s2 s3 s4,
    Z.of_nat (length (dispatched ev)) <= width g /\ Z.of_nat (length (retired ev)) <= width g /\
    retire_all g (cycle ev) 0 (retired ev) (stat_set "cycles" (cycle ev) s) = Ok (s1, cs) /\
    core_eq s1 s2 /\
    (exists cs', length cs' = length (dispatched ev) /\ Forall known cs' /\ dispatch_all (cycle ev) (combine (dispatched ev) cs') (removed ev) s2 = Ok s3) /\
    occupancy s3 = Ok s4 /\
    last_retired_pc s' = last_retired_pc s4 /\
    inflight s' = mark_removed (default 0 (mispredict ev)) (after ev) (inflight s4).
Proof.
  unfold event. cbv zeta. destruct (_ && _) eqn:Ew; [| discriminate].
  apply andb_true_iff in Ew. rewrite !Z.leb_le in Ew. destruct Ew as [W1 W2].
  destruct (retire_all _ _ _ _ _) as [[s1 cs] |] eqn:E1; [| discriminate].
  destruct (retire_pair _ _ s1) as [s2 |] eqn:E2; [| discriminate].
  destruct (before_dispatch _ _ s2) as [s3 |] eqn:E3; [| discriminate].
  pose proof (classes_of_core g (dispatched ev) s3) as [E4 Hlen]. pose proof (classes_of_known g (dispatched ev) s3) as Hk.
  destruct (classes_of g (dispatched ev) s3) as [s4 cs']. cbn [fst snd] in E4, Hlen, Hk.
  destruct (dispatch_pair _ _ s4) as [s5 |] eqn:E5; [| discriminate].
  destruct (dispatch_all _ _ _ s5) as [s6 |] eqn:E6; [| discriminate].
  destruct (occupancy s6) as [s7 |] eqn:E7; [| discriminate]. intros H. checks H. revert H.
  apply retire_pair_core in E2. apply before_dispatch_core in E3. apply dispatch_pair_core in E5.
  assert (E : core_eq s1 s5).
  { etransitivity; [exact E2 |]. etransitivity; [exact E3 |]. etransitivity; [exact E4 | exact E5]. }
  intros H. exists s1, cs, s5, s6, s7. repeat (split; [assumption || reflexivity |]).
  split; [exists cs'; auto |]. split; [exact E7 |]. destruct (mispredict ev) as [n |].
  - destruct (wrong_path g (cycle ev) (default 0 (Some n)) (after ev) s7) as [s8 |] eqn:E8; [| discriminate].
    apply wrong_path_core in E8. injection H as <-. destruct E8 as (A1 & A2 & _).
    cbn [last_retired_pc inflight put_inflight put_lr_waits]. rewrite A1. auto.
  - injection H as <-. auto.
Qed.

Lemma event_tracks g ev s s' dl rl ks :
  event g ev s = Ok s' -> tracks g dl rl ks s ->
  exists ks', tracks g (dl ++ queued (cycle ev) (dispatched ev) (removed ev))
                       (rl ++ map (fun pc => (pc, cycle ev)) (retired ev)) ks' s' /\
    (flush g = false -> mispredict ev = None -> fifo dl ks s ->
     fifo (dl ++ queued (cycle ev) (dispatched ev) (removed ev)) ks' s').
Proof.
  intros H Ht. apply event_stages in H.
  destruct H as (s1 & cs & s2 & s3 & s4 & _ & _ & E1 & E2 & (cs' & Hlen & _ & E3) & E4 & Hl & Hi).
  assert (E0 : core_eq s (stat_set "cycles" (cycle ev) s)) by (repeat split).
  destruct (retire_all_tracks _ _ _ _ _ _ _ _ _ _ E1 (tracks_core _ _ _ _ _ _ E0 Ht)) as (ks1 & T1 & F1).
  destruct (dispatch_all_tracks _ _ _ _ _ _ _ _ _ _ Hlen E3 (tracks_core _ _ _ _ _ _ E2 T1)) as [T2 F2].
  apply occupancy_inv in E4. destruct E4 as [E4 _]. destruct (tracks_core _ _ _ _ _ _ E4 T2) as [T3 T4 T5 T6].
  exists ks1. split.
  - constructor; try assumption; [congruence |]. unfold waiting. rewrite Hi, mark_removed_waiting. exact T5.
  - intros Hf Hm F. apply (fifo_core _ _ _ _ E0) in F. apply (F1 Hf) in F.
    apply (fifo_core _ _ _ _ E2) in F. apply F2 in F. apply (fifo_core _ _ _ _ E4) in F. destruct F as [F3 F4].
    unfold fifo, waiting. rewrite Hi, Hm. cbn [default]. rewrite mark_removed_none. split; assumption.
Qed.

(** ** Destination counts are never negative *)
Definition counted (c : klass) : Prop := Forall (fun n => 0 <= n) (writes c).

Lemma land_one_nonneg x : 0 <= Z.land x 1.
Proof. apply Z.land_nonneg. right. lia. Qed.

Lemma b2z_nonneg x : 0 <= Z.b2z x.
Proof. destruct x; cbn; lia. Qed.

Ltac counts :=
  repeat match goal with
  | |- context [match ?b with true => _ | false => _ end] => destruct b
  end;
  unfold counted, none_written; cbn -[Z.add Z.land Z.b2z];
  repeat match goal with
  | |- Forall _ (_ :: _) => apply List.Forall_cons
  | |- Forall _ [] => apply List.Forall_nil
  | |- 0 <= Z.land _ 1 => apply land_one_nonneg
  | |- 0 <= Z.b2z _ => apply b2z_nonneg
  | |- 0 <= 1 + Z.b2z _ => apply Z.add_nonneg_nonneg; [discriminate | apply b2z_nonneg]
  end; try assumption; try lia.

Lemma klass0_counted rc : 0 <= rc -> counted (klass0 rc).
Proof. intros H. counts. Qed.

Lemma classify_31_counted word xo rc sru c : counted c -> counted (classify_31 word xo rc sru c).
Proof.
  intros H. unfold classify_31, classify_mfspr, classify_mtspr, lsu, sru_unit.
  repeat match goal with
  | |- counted (if ?b then _ else _) => destruct b
  end; first [exact H | counts].
Qed.

Lemma classify_counted word sru : counted (classify word sru).
Proof.
  unfold classify. cbv zeta. set (rc := if member _ [20; 21; 23; 31; 59; 63] then Z.land word 1 else 0).
  assert (Hr : 0 <= rc) by (subst rc; destruct (member _ _); [apply land_one_nonneg | lia]). clearbody rc.
  pose proof (klass0_counted rc Hr) as H. set (c := klass0 rc) in *. clearbody c.
  unfold classify_branch, classify_19, classify_fp, lsu, sru_unit.
  repeat match goal with
  | |- counted (if ?b then _ else _) => destruct b
  end; first [exact H | apply classify_31_counted; exact H | counts].
Qed.

Definition entry_ok (e : entry) : Prop := 0 <= gpr_count e /\ 0 <= fpr_count e.

Lemma counted_at c k : counted c -> 0 <= wr c k.
Proof.
  unfold counted, wr. intros H. destruct (writes c !! k) as [n |] eqn:E; [| cbn; lia].
  exact (Forall_lookup_1 _ _ _ _ H E).
Qed.

Lemma klass_entry_ok e : known (e_class e) -> entry_ok e.
Proof.
  unfold entry_ok, gpr_count, fpr_count. intros [-> | (w & u & ->)]; [lia |].
  split; apply counted_at, classify_counted.
Qed.

(** ** The limits *)
Definition within_limits (s : Rules) : Prop :=
  Z.of_nat (length (live (inflight s))) <= CQ_DEPTH /\ total gpr_count (live (inflight s)) <= GPR_RENAMES /\
  total fpr_count (live (inflight s)) <= FPR_RENAMES.

Lemma total_app f l m : total f (l ++ m) = total f l + total f m.
Proof. unfold total. induction l; cbn [app fold_right]; lia. Qed.

Lemma live_app l m : live (l ++ m) = live l ++ live m.
Proof. apply List.filter_app. Qed.

Lemma live_marked f l : dead f = true -> live (map (with_flag f) l) = [].
Proof. intros H. induction l as [| e l IH]; [reflexivity |]. unfold live. cbn. rewrite H. exact IH. Qed.

Lemma live_mark_removed n aft l : exists k, live (mark_removed n aft l) = live (take k l).
Proof.
  unfold mark_removed. eexists. rewrite live_app, live_marked by (destruct aft; reflexivity). apply app_nil_r.
Qed.

Lemma total_nonneg f l : Forall (fun e => 0 <= f e) l -> 0 <= total f l.
Proof. intros H. induction H as [| e l He _ IH]; [reflexivity |]. cbn. unfold total in IH. lia. Qed.

Lemma live_forall (P : entry -> Prop) l : Forall P l -> Forall P (live l).
Proof.
  intros H. unfold live. induction H as [| e l He _ IH]; cbn; [constructor |].
  destruct (negb _); [constructor; assumption | exact IH].
Qed.

Lemma live_take_total f k l : Forall (fun e => 0 <= f e) l -> total f (live (take k l)) <= total f (live l).
Proof.
  intros H. rewrite <- (take_drop k l) in H at 1. apply Forall_app in H. destruct H as [_ H].
  rewrite <- (take_drop k l) at 2. rewrite live_app, total_app. pose proof (total_nonneg f _ (live_forall _ _ H)). lia.
Qed.

Lemma retire_all_entries g cyc slot l s s' cs :
  retire_all g cyc slot l s = Ok (s', cs) -> Forall entry_ok (inflight s) -> Forall entry_ok (inflight s').
Proof.
  revert slot s cs. induction l as [| pc l IH]; intros slot s cs; cbn [retire_all]; [intros [= <- <-]; auto |].
  destruct (retire_one g cyc slot pc s) as [[s1 c] |] eqn:E1; [| discriminate].
  destruct (retire_all g cyc (S slot) l s1) as [[s2 cs'] |] eqn:E2; [| discriminate]. intros [= <- <-] H.
  apply (IH _ _ _ E2). apply retire_one_inv in E1. destruct E1 as [_ [((-> & _) & _) | (front & e & rest & Ei & _ & _ & _ & Er & _)]];
    [exact H |]. rewrite Er. rewrite Ei in H. apply Forall_app in H. destruct H as [_ H]. apply Forall_cons in H. tauto.
Qed.

Lemma dispatch_all_entries cyc l rm s s' :
  Forall (fun p => known (snd p)) l ->
  dispatch_all cyc l rm s = Ok s' -> Forall entry_ok (inflight s) -> Forall entry_ok (inflight s').
Proof.
  revert rm s. induction l as [| [pc c] l IH]; intros rm s Hl; cbn [dispatch_all]; [intros [= <-]; auto |].
  apply Forall_cons in Hl. destruct Hl as [Hc Hl].
  set (r := match rm with r :: _ => r | [] => false end).
  destruct (dispatch_one cyc pc c r s) as [s1 |] eqn:E; [| discriminate]. intros Hd H. apply (IH (tl rm) s1 Hl Hd).
  apply dispatch_one_inv in E. destruct E as [_ E]. destruct r; [rewrite E; exact H |].
  destruct E as (e & -> & _ & _ & _ & Ec). apply Forall_app. split; [exact H |]. repeat constructor;
    apply klass_entry_ok; rewrite Ec; exact Hc.
Qed.

Lemma event_limits g ev s s' :
  event g ev s = Ok s' -> Forall entry_ok (inflight s) ->
  Forall entry_ok (inflight s') /\ within_limits s' /\
  Z.of_nat (length (dispatched ev)) <= width g /\ Z.of_nat (length (retired ev)) <= width g.
Proof.
  intros H He. apply event_stages in H.
  destruct H as (s1 & cs & s2 & s3 & s4 & W1 & W2 & E1 & (E2 & _) & (cs' & _ & Hk & E3) & E4 & _ & Hi).
  apply (retire_all_entries _ _ _ _ _ _ _ E1) in He. rewrite <- E2 in He.
  apply (dispatch_all_entries _ _ _ _ _ (known_combine _ _ Hk) E3) in He.
  apply occupancy_inv in E4. destruct E4 as ((E4 & _) & L1 & L2 & L3). rewrite <- E4 in He.
  assert (Hm : Forall entry_ok (inflight s')).
  { rewrite Hi. unfold mark_removed. apply Forall_app. split; [apply Forall_take, He |].
    apply Forall_fmap. apply Forall_drop. exact He. }
  split; [exact Hm |]. split; [| auto]. unfold within_limits. rewrite Hi.
  destruct (live_mark_removed (default 0 (mispredict ev)) (after ev) (inflight s4)) as [k ->].
  pose proof (live_take_total (fun _ => 1) k (inflight s4) ltac:(apply Forall_true; lia)) as T1.
  pose proof (live_take_total gpr_count k (inflight s4) (Forall_impl _ _ _ He (fun e H => proj1 H))) as T2.
  pose proof (live_take_total fpr_count k (inflight s4) (Forall_impl _ _ _ He (fun e H => proj2 H))) as T3.
  assert (Hlen : forall l, total (fun _ => 1) l = Z.of_nat (length l)).
  { clear. intros l. unfold total. induction l as [| e l IH]; [reflexivity |]. cbn [fold_right length]. lia. }
  rewrite !Hlen in T1. lia.
Qed.

(** ** Whole traces *)
Lemma check_events_app g prev evs1 evs2 s s' :
  check_events g prev (evs1 ++ evs2) s = Ok s' -> exists s1, check_events g prev evs1 s = Ok s1.
Proof.
  revert prev s. induction evs1 as [| ev evs1 IH]; intros prev s; cbn [app check_events]; [eauto |].
  destruct (prev <? cycle ev); [| discriminate]. destruct (event g ev s) as [s1 |]; [| discriminate]. apply IH.
Qed.

Lemma check_events_snoc g prev evs ev s s' :
  check_events g prev (evs ++ [ev]) s = Ok s' ->
  exists s1, check_events g prev evs s = Ok s1 /\ event g ev s1 = Ok s'.
Proof.
  revert prev s. induction evs as [| e evs IH]; intros prev s; cbn [app check_events].
  - destruct (prev <? cycle ev); [| discriminate]. destruct (event g ev s) as [s1 |] eqn:E; [| discriminate].
    intros [= <-]. eauto.
  - destruct (prev <? cycle e); [| discriminate]. destruct (event g e s) as [s1 |]; [| discriminate]. apply IH.
Qed.

Lemma check_events_increasing g prev evs s s' :
  check_events g prev evs s = Ok s' -> StronglySorted Z.lt (prev :: map cycle evs).
Proof.
  revert prev s. induction evs as [| ev evs IH]; intros prev s; cbn [check_events map]; [repeat constructor |].
  destruct (prev <? cycle ev) eqn:E; [| discriminate]. destruct (event g ev s) as [s1 |]; [| discriminate]. intros H.
  apply IH in H. constructor; [exact H |]. apply Z.ltb_lt in E. apply StronglySorted_inv in H. destruct H as [_ H].
  constructor; [exact E |]. eapply List.Forall_impl; [| exact H]. cbn. lia.
Qed.

Lemma dispatch_log_snoc evs ev : dispatch_log (evs ++ [ev]) = dispatch_log evs ++ queued (cycle ev) (dispatched ev) (removed ev).
Proof. unfold dispatch_log. rewrite map_app, concat_app. cbn. rewrite app_nil_r. reflexivity. Qed.
Lemma retire_log_snoc evs ev : retire_log (evs ++ [ev]) = retire_log evs ++ map (fun pc => (pc, cycle ev)) (retired ev).
Proof. unfold retire_log. rewrite map_app, concat_app. cbn. rewrite app_nil_r. reflexivity. Qed.

Lemma check_events_inv g evs s :
  check_rules g evs = Ok s ->
  Forall entry_ok (inflight s) /\ within_limits s /\
  exists ks, tracks g (dispatch_log evs) (retire_log evs) ks s /\
    (flush g = false -> Forall (fun ev => mispredict ev = None) evs -> fifo (dispatch_log evs) ks s).
Proof.
  unfold check_rules. revert s. induction evs as [| ev evs IH] using rev_ind; intros s H.
  - injection H as <-. split; [constructor |]. split; [unfold within_limits; cbn; repeat split; discriminate |].
    exists []. split; [constructor; try constructor | split; constructor].
  - apply check_events_snoc in H. destruct H as (s1 & H1 & H2). destruct (IH s1 H1) as (I1 & _ & ks & I2 & I3).
    destruct (event_limits _ _ _ _ H2 I1) as (L1 & L2 & _). split; [exact L1 |]. split; [exact L2 |].
    destruct (event_tracks _ _ _ _ _ _ _ H2 I2) as (ks' & T & F). exists ks'.
    rewrite dispatch_log_snoc, retire_log_snoc. split; [exact T |]. intros Hf Hm. apply Forall_app in Hm. destruct Hm as [Hm1 Hm2].
    apply Forall_cons in Hm2. apply (F Hf); [tauto | auto].
Qed.

(** C19. An accepted trace completes in order. The retirements, but for the
    further micro-ops of a multiple or string instruction, are completions of
    dispatched instructions in dispatch order, each at a later cycle than its
    dispatch, and with what still waits in the queue they form a subsequence
    of the dispatches; when nothing may be flushed and no recovery is recorded,
    completions followed by the queue are exactly the dispatches, so nothing is
    lost, repeated or reordered. *)
Theorem accepted_trace_in_order g evs s :
  check_rules g evs = Ok s ->
  exists ks,
    stutters g None (retire_log evs) (map k_out ks) /\
    Forall (fun k => k_dispatched k < k_retired k) ks /\
    sublist (map k_in ks ++ waiting s) (dispatch_log evs) /\
    (flush g = false -> Forall (fun ev => mispredict ev = None) evs ->
     map k_in ks ++ waiting s = dispatch_log evs).
Proof.
  intros H. apply check_events_inv in H. destruct H as (_ & _ & ks & [H1 _ H3 H4] & F). exists ks.
  repeat (split; [assumption |]). intros Hf Hm. apply F; assumption.
Qed.

(** Every event of an accepted trace respects the machine's limits: cycles
    strictly increase; at most [width] instructions dispatch and retire; and
    after each event at most five live instructions are in flight, with at most
    five GPR and four FPR destinations, for any image of words, whether or not
    flushes are allowed. *)
Theorem accepted_trace_within_limits g evs s :
  check_rules g evs = Ok s ->
  StronglySorted Z.lt (-1 :: map cycle evs) /\
  forall evs1 ev evs2, evs = evs1 ++ ev :: evs2 ->
    Z.of_nat (length (dispatched ev)) <= width g /\ Z.of_nat (length (retired ev)) <= width g /\
    exists s1, check_rules g (evs1 ++ [ev]) = Ok s1 /\ within_limits s1.
Proof.
  intros H. split; [exact (check_events_increasing _ _ _ _ _ H) |]. intros evs1 ev evs2 ->.
  change (ev :: evs2) with ([ev] ++ evs2) in H. rewrite app_assoc in H. unfold check_rules in H.
  apply check_events_app in H. destruct H as [s1 H]. pose proof (check_events_inv g (evs1 ++ [ev]) s1 H) as (_ & L & _).
  apply check_events_snoc in H as H'. destruct H' as (s0 & H0 & H1).
  destruct (check_events_inv g evs1 s0 H0) as (I & _). destruct (event_limits _ _ _ _ H1 I) as (_ & _ & W1 & W2).
  split; [exact W1 |]. split; [exact W2 |]. exists s1. auto.
Qed.

(** Two adds, paired at dispatch and at retirement, and a cmpi that waits. *)
Definition sample_config : config :=
  {| width := 2; words := <[0 := 0x38630001]> (<[4 := 0x7ca41a14]> (<[8 := 0x2c050000]> ∅)); sru := true; flush := false |}.
Definition sample_event (at_ : Z) (d r : list Z) : event_line :=
  {| cycle := at_; dispatched := d; retired := r; mispredict := None; removed := map (fun _ => false) d; after := None |}.
Definition sample_trace : list event_line :=
  [sample_event 1 [0; 4] []; sample_event 3 [8] [0; 4]].
Definition sample_final : Rules := match check_rules sample_config sample_trace with Ok s => s | Raise _ => init end.

Lemma accepted_trace_in_order_witness :
  is_ok (check_rules sample_config sample_trace) = true /\
  exists ks,
    stutters sample_config None (retire_log sample_trace) (map k_out ks) /\
    Forall (fun k => k_dispatched k < k_retired k) ks /\
    sublist (map k_in ks ++ waiting sample_final) (dispatch_log sample_trace) /\
    (flush sample_config = false -> Forall (fun ev => mispredict ev = None) sample_trace ->
     map k_in ks ++ waiting sample_final = dispatch_log sample_trace).
Proof.
  split; [vm_compute; reflexivity |].
  apply (accepted_trace_in_order sample_config sample_trace sample_final). vm_compute. reflexivity.
Defined.

Lemma accepted_trace_within_limits_witness :
  StronglySorted Z.lt (-1 :: map cycle sample_trace) /\
  forall evs1 ev evs2, sample_trace = evs1 ++ ev :: evs2 ->
    Z.of_nat (length (dispatched ev)) <= width sample_config /\ Z.of_nat (length (retired ev)) <= width sample_config /\
    exists s1, check_rules sample_config (evs1 ++ [ev]) = Ok s1 /\ within_limits s1.
Proof.
  apply (accepted_trace_within_limits sample_config sample_trace sample_final). vm_compute. reflexivity.
Defined.
