(* ===== verification/Lha.v ===== *)
(** * LHA extraction ([toolchain/demo/lha.py])

    The bit reader, the canonical Huffman decoder, the -lh5- decoder and the
    checks a member passes before it is written. Bytes are integers; walking
    the archive's headers and writing files are left out. *)
From S2P Require Import Prelude.

Module lha.

Definition NT : Z := 19.
Definition NP : Z := 14.
Definition NC : Z := 510.

Definition crc_bit (crc : Z) : Z := Z.lxor (Z.shiftr crc 1) (if truthy (Z.land crc 1) then 0xA001 else 0).
Definition crc16 (data : list Z) : Z := fold_left (fun crc b => Nat.iter 8 crc_bit (Z.lxor crc b)) data 0.

(** [Bits]: the data stays, the position moves. Past the end bits are zero. *)
Record Bits : Type := { data : list Z; pos : Z }.
Definition seek (b : Bits) (p : Z) : Bits := {| data := data b; pos := p |}.

Definition bit_at (b : Bits) : Z :=
  match data b !! Z.to_nat (Z.shiftr (pos b) 3) with
  | Some byte => Z.land (Z.shiftr byte (7 - Z.land (pos b) 7)) 1
  | None => 0
  end.

Fixpoint get_bits (n : nat) (v : Z) (b : Bits) : Z * Bits :=
  match n with
  | O => (v, b)
  | S n' => get_bits n' (Z.lor (Z.shiftl v 1) (bit_at b)) (seek b (pos b + 1))
  end.
Definition get (b : Bits) (n : Z) : Z * Bits := get_bits (Z.to_nat n) 0 b.
Definition peek (b : Bits) (n : Z) : Z := fst (get b n).

(** [Huffman]: how many codes each length has, and the symbols by length. *)
Record Huffman : Type := { single : option Z; counts : list Z; symbols : list Z }.

(** [self.count[n] += 1] *)
Definition count_one (count : result (list Z)) (n : Z) : result (list Z) :=
  let! count := count in
  let! k := py_get count n in
  py_set count n (k + 1).

Definition symbols_of (lengths : list Z) (n : Z) : list Z :=
  omap (fun p => if snd p =? n then Some (fst p) else None) (combine (seqZ 0 (Z.of_nat (length lengths))) lengths).

Definition mk_Huffman (lengths : list Z) (single : option Z) : result Huffman :=
  let! count := fold_left count_one lengths (Ok (repeat 0 17)) in
  let! count := py_set count 0 0 in
  Ok {| single := single; counts := count; symbols := concat (map (symbols_of lengths) (seqZ 1 16)) |}.

(** The walk over code lengths [n..16]. *)
Fixpoint decode_from (steps : nat) (h : Huffman) (n code first index : Z) (b : Bits) : result (Z * Bits) :=
  match steps with
  | O => Raise (ValueError "bad Huffman code")
  | S steps' =>
      let '(v, b) := get b 1 in
      let code := Z.lor code v in
      let! count := py_get (counts h) n in
      if code - first <? count
      then let! s := py_get (symbols h) (index + code - first) in Ok (s, b)
      else decode_from steps' h (n + 1) (Z.shiftl code 1) (Z.shiftl (first + count) 1) (index + count) b
  end.

Definition decode (h : Huffman) (b : Bits) : result (Z * Bits) :=
  match single h with
  | Some s => Ok (s, b)
  | None => decode_from 16 h 1 0 0 0 b
  end.

(** [while bits.get(1): c += 1] *)
Fixpoint unary (fuel : nat) (c : Z) (b : Bits) : result (Z * Bits) :=
  match fuel with
  | O => Raise OutOfFuel
  | S fuel' => let '(v, b) := get b 1 in if truthy v then unary fuel' (c + 1) b else Ok (c, b)
  end.
(** The number of one bits left is at most the number of bits. *)
Definition bit_fuel (b : Bits) : nat := S (8 * length (data b)).

Definition zeros (n : Z) : list Z := repeat 0 (Z.to_nat n).

(** One length of [read_pt]: three bits, extended in unary. *)
Definition read_length (b : Bits) : result (Z * Bits) :=
  let c := peek b 3 in
  let '(_, b) := get b 3 in
  if c =? 7 then unary (bit_fuel b) c b else Ok (c, b).

Fixpoint pt_lengths (fuel : nat) (n special : Z) (lengths : list Z) (b : Bits) : result (list Z * Bits) :=
  if Z.of_nat (length lengths) <? n then
    match fuel with
    | O => Raise OutOfFuel
    | S fuel' =>
        let! (c, b) := read_length b in
        let lengths := lengths ++ [c] in
        if Z.of_nat (length lengths) =? special
        then let '(k, b) := get b 2 in pt_lengths fuel' n special (lengths ++ zeros k) b
        else pt_lengths fuel' n special lengths b
    end
  else Ok (lengths, b).

Definition read_pt (b : Bits) (nn nbit special : Z) : result (Huffman * Bits) :=
  let '(n, b) := get b nbit in
  if n =? 0 then
    let '(s, b) := get b nbit in let! h := mk_Huffman [] (Some s) in Ok (h, b)
  else
    let! (lengths, b) := pt_lengths (Z.to_nat n) n special [] b in
    let! h := mk_Huffman (lengths ++ zeros (nn - Z.of_nat (length lengths))) None in
    Ok (h, b).

(** What one decoded symbol adds to the lengths of [read_c]. *)
Definition c_run (c : Z) (b : Bits) : list Z * Bits :=
  if c =? 0 then ([0], b)
  else if c =? 1 then let '(k, b) := get b 4 in (zeros (k + 3), b)
  else if c =? 2 then let '(k, b) := get b 9 in (zeros (k + 20), b)
  else ([c - 2], b).

Fixpoint c_lengths (fuel : nat) (n : Z) (pt : Huffman) (lengths : list Z) (b : Bits) : result (list Z * Bits) :=
  if Z.of_nat (length lengths) <? n then
    match fuel with
    | O => Raise OutOfFuel
    | S fuel' =>
        let! (c, b) := decode pt b in
        let '(run, b) := c_run c b in
        c_lengths fuel' n pt (lengths ++ run) b
    end
  else Ok (lengths, b).

Definition read_c (b : Bits) (pt : Huffman) : result (Huffman * Bits) :=
  let '(n, b) := get b 9 in
  if n =? 0 then
    let '(s, b) := get b 9 in let! h := mk_Huffman [] (Some s) in Ok (h, b)
  else
    let! (lengths, b) := c_lengths (Z.to_nat n) n pt [] b in
    let! h := mk_Huffman (lengths ++ zeros (NC - Z.of_nat (length lengths))) None in
    Ok (h, b).

(** [for k in range(c - 253): out.append(out[src + k])]: a copy may read what it
    wrote, and a source before the start counts from the end. *)
Fixpoint copy (n : nat) (src : Z) (out : list Z) : result (list Z) :=
  match n with
  | O => Ok out
  | S n' => let! v := py_get out src in copy n' (src + 1) (out ++ [v])
  end.

(** The two codes of the current block. *)
Definition block_codes (b : Bits) : result (Huffman * Huffman * Bits) :=
  let! (pt, b) := read_pt b NT 5 3 in
  let! (c_code, b) := read_c b pt in
  let! (p_code, b) := read_pt b NP 4 (-1) in
  Ok (c_code, p_code, b).

(** The symbol [c] past the literals: a match of [c - 253] bytes. *)
Definition match_step (p_code : Huffman) (c : Z) (out : list Z) (b : Bits) : result (list Z * Bits) :=
  let! (j, b) := decode p_code b in
  let '(j, b) := if truthy j then let '(v, b) := get b (j - 1) in (Z.shiftl 1 (j - 1) + v, b) else (j, b) in
  let src := Z.of_nat (length out) - j - 1 in
  let! out := copy (Z.to_nat (c - 253)) src out in
  Ok (out, b).

(** [remain] is the source's [left]; [codes] is absent until the first block has
    been read. *)
Fixpoint lh5_loop (fuel : nat) (size : Z) (codes : option (Huffman * Huffman)) (remain : Z) (out : list Z) (b : Bits)
  : result (list Z) :=
  if Z.of_nat (length out) <? size then
    match fuel with
    | O => Raise OutOfFuel
    | S fuel' =>
        let! (remain, codes, b) :=
          (if remain =? 0 then
             let '(remain, b) := get b 16 in
             let! (c_code, p_code, b) := block_codes b in Ok (remain, Some (c_code, p_code), b)
           else Ok (remain, codes, b)) in
        match codes with
        | None => Raise (ValueError "unbound local")
        | Some (c_code, p_code) =>
            let remain := remain - 1 in
            let! (c, b) := decode c_code b in
            if c <? 256 then lh5_loop fuel' size codes remain (out ++ [c]) b
            else let! (out, b) := match_step p_code c out b in lh5_loop fuel' size codes remain out b
        end
    end
  else Ok out.

(** [out[:size]] *)
Definition lh5 (d : list Z) (size : Z) : result (list Z) :=
  let! out := lh5_loop (Z.to_nat size) size None 0 [] {| data := d; pos := 0 |} in
  Ok (take (Z.to_nat size) out).

(** What [main] does with one wanted member before writing it. *)
Definition extract (method : string) (packed : list Z) (size crc : Z) : result (list Z) :=
  let! d := (if String.eqb method "-lh0-" then Ok packed
             else if String.eqb method "-lh5-" then lh5 packed size
             else Raise (SystemExit "method not supported")) in
  require! (Z.of_nat (length d) =? size) && (crc16 d =? crc) else SystemExit "CRC mismatch" in
  Ok d.

End lha.
