(* ===== verification/LhaTheorems.v ===== *)
(** * The LHA decoder on any input ([toolchain/demo/lha.py]) *)
From S2P Require Import Prelude Lha.
Import lha.

(** ** Results that are a value of [Q], or an error of the decoder *)
Definition decoder_error (e : exn) : Prop := e = IndexError \/ e = ValueError "bad Huffman code".
Definition fine {A} (Q : A -> Prop) (r : result A) : Prop := match r with Ok a => Q a | Raise e => decoder_error e end.

Lemma fine_bind {A B} (P : A -> Prop) (Q : B -> Prop) (r : result A) (k : A -> result B) :
  fine P r -> (forall a, P a -> fine Q (k a)) -> fine Q (match r with Ok x => k x | Raise e => Raise e end).
Proof. destruct r; cbn; auto. Qed.

Lemma fine_weaken {A} (P Q : A -> Prop) r : (forall a, P a -> Q a) -> fine P r -> fine Q r.
Proof. destruct r; cbn; auto. Qed.

Lemma py_get_fine {A} (P : A -> Prop) (l : list A) i : Forall P l -> fine P (py_get l i).
Proof.
  intros H. unfold py_get. destruct (py_index _ i) as [k |]; [| left; reflexivity].
  destruct (l !! k) as [v |] eqn:E; [| left; reflexivity]. exact (Forall_lookup_1 _ _ _ _ H E).
Qed.

Lemma py_set_fine {A} (l : list A) i v : fine (fun _ => True) (py_set l i v).
Proof. unfold py_set. destruct (py_index _ i); [exact I | left; reflexivity]. Qed.

(** ** The bit reader *)

(** A reader over [d], at a position that is not negative. *)
Definition reads (d : list Z) (b : Bits) : Prop := data b = d /\ 0 <= pos b.

Lemma bit_at_flag b : bit_at b = 0 \/ bit_at b = 1.
Proof.
  unfold bit_at. destruct (data b !! _) as [byte |]; [| auto]. set (y := Z.shiftr byte _). clearbody y.
  assert (Z.land y 1 = y mod 2) as -> by (change 1 with (Z.ones 1); apply Z.land_ones; lia).
  pose proof (Z.mod_pos_bound y 2 ltac:(lia)). lia.
Qed.

(** A one bit lies inside the data. *)
Lemma bit_at_inside b : 0 <= pos b -> bit_at b <> 0 -> pos b < 8 * Z.of_nat (length (data b)).
Proof.
  intros Hp. unfold bit_at. destruct (data b !! Z.to_nat (Z.shiftr (pos b) 3)) eqn:E; [| congruence]. intros _.
  apply lookup_lt_Some in E. rewrite Z.shiftr_div_pow2 in E by lia. change (2 ^ 3) with 8 in E.
  pose proof (Z.div_mod (pos b) 8 ltac:(lia)). pose proof (Z.mod_pos_bound (pos b) 8 ltac:(lia)). lia.
Qed.

Lemma get_bits_reads n v b d :
  reads d b -> 0 <= v -> 0 <= fst (get_bits n v b) /\ reads d (snd (get_bits n v b)).
Proof.
  revert v b. induction n as [| n IH]; intros v b Hb Hv; [split; assumption |]. cbn [get_bits]. apply IH.
  - destruct Hb. split; cbn; [assumption | lia].
  - apply Z.lor_nonneg. split; [apply Z.shiftl_nonneg, Hv | destruct (bit_at_flag b) as [-> | ->]; lia].
Qed.

Lemma get_reads n b d : reads d b -> 0 <= fst (get b n) /\ reads d (snd (get b n)).
Proof. intros H. apply get_bits_reads; [exact H | lia]. Qed.

(** Splits a read into its value and the reader after it. *)
Ltac read_one d :=
  match goal with
  | Hb : reads d ?b |- context [get ?b ?n] =>
      let H1 := fresh "Hv" in let H2 := fresh "Hb" in
      pose proof (get_reads n b d Hb) as [H1 H2]; destruct (get b n) as [? ?]; cbn [fst snd] in H1, H2
  end.

Lemma get_one b : get b 1 = (bit_at b, seek b (pos b + 1)).
Proof. unfold get. change (Z.to_nat 1) with 1%nat. cbn [get_bits]. destruct (bit_at_flag b) as [E | E]; rewrite E; reflexivity. Qed.

Lemma unary_returns fuel c b d :
  reads d b -> 0 <= c -> (1 <= fuel)%nat -> 8 * Z.of_nat (length d) < pos b + Z.of_nat fuel ->
  fine (fun p => 0 <= fst p /\ reads d (snd p)) (unary fuel c b).
Proof.
  revert c b. induction fuel as [| fuel IH]; intros c b Hb Hc H1 Hf; [lia |]. cbn [unary]. rewrite get_one.
  destruct Hb as [Hd Hp]. assert (Hb : reads d (seek b (pos b + 1))) by (split; cbn; [exact Hd | lia]).
  destruct (bit_at_flag b) as [E | E]; rewrite E; cbn [truthy Z.eqb negb]; [split; assumption |].
  pose proof (bit_at_inside b Hp ltac:(lia)) as Hin. rewrite Hd in Hin.
  apply IH; [exact Hb | lia | lia | cbn [pos seek]; lia].
Qed.

Lemma read_length_fine b d : reads d b -> fine (fun p => 0 <= fst p /\ reads d (snd p)) (read_length b).
Proof.
  intros Hb. unfold read_length, peek. read_one d. cbn [fst]. destruct (z =? 7); [| split; assumption].
  apply unary_returns; [assumption | assumption | unfold bit_fuel; lia |].
  unfold bit_fuel. destruct Hb0 as [E0 Hp0]. rewrite E0. lia.
Qed.

(** ** Huffman codes *)
Definition usable (h : Huffman) : Prop := (forall s, single h = Some s -> 0 <= s) /\ Forall (fun s => 0 <= s) (symbols h).

Lemma count_fold_fine l r : fine (fun _ : list Z => True) r -> fine (fun _ => True) (fold_left count_one l r).
Proof.
  revert r. induction l as [| n l IH]; intros r H; [exact H |]. cbn [fold_left]. apply IH. unfold count_one.
  apply (fine_bind (fun _ => True)); [exact H |]. intros count _. apply (fine_bind (fun _ => True)).
  - apply py_get_fine, Forall_true. auto.
  - intros k _. apply py_set_fine.
Qed.

Lemma symbols_nonneg lengths : Forall (fun s => 0 <= s) (concat (map (symbols_of lengths) (seqZ 1 16))).
Proof.
  apply Forall_concat, Forall_fmap, Forall_true. intros n. unfold compose, symbols_of.
  apply Forall_forall. intros s Hs. apply list_elem_of_omap in Hs. destruct Hs as ([i ln] & Hin & E). cbn in E.
  destruct (ln =? n); [| discriminate]. injection E as <-. apply list_elem_of_In, in_combine_l, list_elem_of_In in Hin.
  apply elem_of_seqZ in Hin. lia.
Qed.

Lemma mk_Huffman_fine lengths s : (forall x, s = Some x -> 0 <= x) -> fine usable (mk_Huffman lengths s).
Proof.
  intros Hs. unfold mk_Huffman. apply (fine_bind (fun _ => True)); [apply count_fold_fine; exact I |].
  intros count _. apply (fine_bind (fun _ => True)); [apply py_set_fine |]. intros count' _. split; [exact Hs | apply symbols_nonneg].
Qed.

Lemma decode_from_fine steps h n code first index b d :
  usable h -> reads d b -> fine (fun p => 0 <= fst p /\ reads d (snd p)) (decode_from steps h n code first index b).
Proof.
  intros [_ Hs]. revert n code first index b. induction steps as [| steps IH]; intros n code first index b Hb; [right; reflexivity |].
  cbn [decode_from]. read_one d. apply (fine_bind (fun _ => True)); [apply py_get_fine, Forall_true; auto |].
  intros count _. cbv zeta. destruct (_ <? count); [| apply IH; assumption].
  apply (fine_bind (fun s => 0 <= s)); [apply py_get_fine, Hs |]. intros s H. split; assumption.
Qed.

Lemma decode_fine h b d : usable h -> reads d b -> fine (fun p => 0 <= fst p /\ reads d (snd p)) (decode h b).
Proof.
  intros Hh Hb. unfold decode. destruct (single h) as [s |] eqn:E; [split; [apply Hh, E | exact Hb] |].
  apply decode_from_fine; assumption.
Qed.

(** ** Code lengths *)
Lemma pt_lengths_fine fuel n special l b d :
  reads d b -> n <= Z.of_nat (length l) + Z.of_nat fuel -> fine (fun p => reads d (snd p)) (pt_lengths fuel n special l b).
Proof.
  revert l b. induction fuel as [| fuel IH]; intros l b Hb Hf; cbn [pt_lengths];
    (destruct (Z.ltb_spec (Z.of_nat (length l)) n); [| exact Hb]); [lia |].
  apply (fine_bind _ _ _ _ (read_length_fine b d Hb)). intros [c b1] [_ Hb1]. cbn [fst snd] in Hb1. cbv zeta.
  destruct (_ =? special).
  - read_one d. apply IH; [assumption |]. rewrite !length_app. cbn [length]. lia.
  - apply IH; [assumption |]. rewrite length_app. cbn [length]. lia.
Qed.

Lemma read_pt_fine b nn nbit special d :
  reads d b -> fine (fun p => usable (fst p) /\ reads d (snd p)) (read_pt b nn nbit special).
Proof.
  intros Hb. unfold read_pt. read_one d. destruct (z =? 0).
  - read_one d. apply (fine_bind usable); [apply mk_Huffman_fine; intros x [= <-]; assumption |]. intros h Hh. split; assumption.
  - apply (fine_bind (fun p => reads d (snd p))); [apply pt_lengths_fine; [assumption | cbn; lia] |].
    intros [l b2] Hb2. apply (fine_bind usable); [apply mk_Huffman_fine; discriminate |]. intros h Hh. split; assumption.
Qed.

Lemma c_run_spec c b d : reads d b -> (1 <= length (fst (c_run c b)))%nat /\ reads d (snd (c_run c b)).
Proof.
  intros Hb. unfold c_run, zeros. destruct (c =? 0); [split; [cbn; lia | exact Hb] |].
  destruct (c =? 1); [read_one d; cbn [fst snd]; rewrite repeat_length; split; [lia | assumption] |].
  destruct (c =? 2); [read_one d; cbn [fst snd]; rewrite repeat_length; split; [lia | assumption] |].
  split; [cbn; lia | exact Hb].
Qed.

Lemma c_lengths_fine fuel n pt l b d :
  usable pt -> reads d b -> n <= Z.of_nat (length l) + Z.of_nat fuel -> fine (fun p => reads d (snd p)) (c_lengths fuel n pt l b).
Proof.
  intros Hpt. revert l b. induction fuel as [| fuel IH]; intros l b Hb Hf; cbn [c_lengths];
    (destruct (Z.ltb_spec (Z.of_nat (length l)) n); [| exact Hb]); [lia |].
  apply (fine_bind _ _ _ _ (decode_fine pt b d Hpt Hb)). intros [c b1] [_ Hb1]. cbn [fst snd] in Hb1.
  pose proof (c_run_spec c b1 d Hb1) as [Hl Hb2]. destruct (c_run c b1) as [run b2]. cbn [fst snd] in Hl, Hb2.
  apply IH; [assumption |]. rewrite length_app. lia.
Qed.

Lemma read_c_fine b pt d : usable pt -> reads d b -> fine (fun p => usable (fst p) /\ reads d (snd p)) (read_c b pt).
Proof.
  intros Hpt Hb. unfold read_c. read_one d. destruct (z =? 0).
  - read_one d. apply (fine_bind usable); [apply mk_Huffman_fine; intros x [= <-]; assumption |]. intros h Hh. split; assumption.
  - apply (fine_bind (fun p => reads d (snd p))); [apply c_lengths_fine; [assumption | assumption | cbn; lia] |].
    intros [l b2] Hb2. apply (fine_bind usable); [apply mk_Huffman_fine; discriminate |]. intros h Hh. split; assumption.
Qed.

Lemma block_codes_fine b d :
  reads d b -> fine (fun p => usable (fst (fst p)) /\ usable (snd (fst p)) /\ reads d (snd p)) (block_codes b).
Proof.
  intros Hb. unfold block_codes. apply (fine_bind _ _ _ _ (read_pt_fine b NT 5 3 d Hb)). intros [pt b1] [H1 Hb1].
  apply (fine_bind _ _ _ _ (read_c_fine b1 pt d H1 Hb1)). intros [c_code b2] [H2 Hb2].
  apply (fine_bind _ _ _ _ (read_pt_fine b2 NP 4 (-1) d Hb2)). intros [p_code b3] [H3 Hb3]. split; [exact H2 |]. split; [exact H3 | exact Hb3].
Qed.

(** ** The output *)
Definition byte (v : Z) : Prop := 0 <= v < 256.

Lemma copy_fine n src out :
  Forall byte out -> fine (fun o => Forall byte o /\ length o = (length out + n)%nat) (copy n src out).
Proof.
  revert src out. induction n as [| n IH]; intros src out H; [split; [exact H | lia] |]. cbn [copy].
  apply (fine_bind byte); [apply py_get_fine, H |]. intros v Hv.
  apply (fine_weaken (fun o => Forall byte o /\ length o = (length (out ++ [v]) + n)%nat)).
  - intros o [Ho Hl]. split; [exact Ho |]. rewrite Hl, length_app. cbn [length]. lia.
  - apply IH, Forall_app. auto.
Qed.

Lemma match_step_fine p_code c out b d :
  usable p_code -> reads d b -> 256 <= c -> Forall byte out ->
  fine (fun p => Forall byte (fst p) /\ (length out < length (fst p))%nat /\ reads d (snd p)) (match_step p_code c out b).
Proof.
  intros Hp Hb Hc Ho. unfold match_step. apply (fine_bind _ _ _ _ (decode_fine p_code b d Hp Hb)). intros [j b1] [_ Hb1].
  cbn [fst snd] in Hb1. destruct (truthy j); [read_one d |];
    (apply (fine_bind _ _ _ _ (copy_fine _ _ _ Ho)); intros o [H1 H2]; split; [exact H1 |]; split; [cbn [fst]; lia | assumption]).
Qed.

Lemma lh5_loop_fine fuel size codes remain out b d :
  (forall c p, codes = Some (c, p) -> usable c /\ usable p) -> (codes = None -> remain = 0) ->
  reads d b -> Forall byte out -> size <= Z.of_nat (length out) + Z.of_nat fuel ->
  fine (fun o => Forall byte o /\ size <= Z.of_nat (length o)) (lh5_loop fuel size codes remain out b).
Proof.
  revert codes remain out b. induction fuel as [| fuel IH]; intros codes remain out b Hc Hr Hb Ho Hf; cbn [lh5_loop];
    (destruct (Z.ltb_spec (Z.of_nat (length out)) size); [| split; [exact Ho | lia]]); [lia |].
  apply (fine_bind (fun p => (exists c q, snd (fst p) = Some (c, q) /\ usable c /\ usable q) /\ reads d (snd p))).
  { destruct (Z.eqb_spec remain 0) as [E | E].
    - read_one d. apply (fine_bind _ _ _ _ (block_codes_fine _ d ltac:(eassumption))).
      intros [[c q] b2] (H1 & H2 & H3). split; [exists c, q; auto | exact H3].
    - split; [| exact Hb]. destruct codes as [[c q] |]; [exists c, q; auto | specialize (Hr eq_refl); lia]. }
  intros [[remain1 codes1] b1] [(c & q & E & H1 & H2) Hb1]. cbn [fst snd] in E, Hb1. subst codes1. cbv zeta.
  apply (fine_bind _ _ _ _ (decode_fine c b1 d H1 Hb1)). intros [x b2] [Hx Hb2]. cbn [fst snd] in Hx, Hb2.
  destruct (Z.ltb_spec x 256) as [Hx2 | Hx2].
  - apply IH; [intros c' q' [= <- <-]; auto | discriminate | exact Hb2 | | rewrite length_app; cbn [length]; lia].
    apply Forall_app. split; [exact Ho |]. repeat constructor; assumption.
  - apply (fine_bind _ _ _ _ (match_step_fine q x out b2 d H2 Hb2 Hx2 Ho)). intros [o b3] (G1 & G2 & G3). cbn [fst snd] in *.
    apply IH; [intros c' q' [= <- <-]; auto | discriminate | exact G3 | exact G1 | lia].
Qed.

(** C20. Extraction ends on every input, however corrupt. A run of the -lh5-
    decoder never loops: it either gives exactly [size] bytes or raises
    IndexError or the bad-code error. What [extract] accepts, for any method,
    has the size and the CRC-16 the header recorded; everything else is one of
    those errors or an exit. *)
Theorem extract_total method packed size crc :
  match extract method packed size crc with
  | Ok d => Z.of_nat (length d) = size /\ crc16 d = crc /\ (method = "-lh0-"%string /\ d = packed \/ Forall byte d)
  | Raise e => decoder_error e \/ exists m, e = SystemExit m
  end /\
  match lh5 packed size with
  | Ok d => Z.of_nat (length d) = Z.max 0 size /\ Forall byte d
  | Raise e => decoder_error e
  end.
Proof.
  assert (H5 : fine (fun d => Z.of_nat (length d) = Z.max 0 size /\ Forall byte d) (lh5 packed size)).
  { unfold lh5. eapply fine_bind.
    - apply (lh5_loop_fine (Z.to_nat size) size None 0 [] {| data := packed; pos := 0 |} packed); try discriminate;
        [reflexivity | split; [reflexivity | cbn; lia] | constructor | cbn; lia].
    - intros o [H1 H2]. split; [rewrite length_take; lia | apply Forall_take, H1]. }
  split; [| exact H5]. unfold extract.
  assert (Hd : match (if String.eqb method "-lh0-" then Ok packed else if String.eqb method "-lh5-" then lh5 packed size
                      else Raise (SystemExit "method not supported")) with
               | Ok d => method = "-lh0-"%string /\ d = packed \/ Forall byte d
               | Raise e => decoder_error e \/ exists m, e = SystemExit m
               end).
  { destruct (String.eqb_spec method "-lh0-"); [left; auto |]. destruct (String.eqb method "-lh5-"); [| right; eauto].
    destruct (lh5 packed size); [right; apply H5 | left; exact H5]. }
  destruct (if String.eqb method "-lh0-" then _ else _) as [d | e]; [| exact Hd].
  destruct (_ && _) eqn:E; [| right; eauto]. apply andb_true_iff in E. rewrite !Z.eqb_eq in E. tauto.
Qed.
