(* ===== verification/Words.v ===== *)
(** * Words of a given width

    [fits n x]: the integer [x] is an [n]-bit word. The bit operations the source
    uses keep the width, and [fits] closes the goals that follow from them. *)
From S2P Require Import Prelude.

Definition fits (n x : Z) : Prop := 0 <= x < 2 ^ n.

Lemma fits_iff n x : 0 <= n -> fits n x <-> Z.shiftr x n = 0.
Proof.
  intros Hn. unfold fits. rewrite Z.shiftr_div_pow2 by exact Hn.
  assert (0 < 2 ^ n) by (apply Z.pow_pos_nonneg; lia). rewrite Z.div_small_iff by lia. lia.
Qed.

(** Monotone in the width. *)
Lemma fits_le m n x : fits m x -> m <= n -> fits n x.
Proof. unfold fits. intros H Hmn. pose proof (Z.pow_le_mono_r 2 m n). lia. Qed.

Lemma fits_lor n a b : 0 <= n -> fits n a -> fits n b -> fits n (Z.lor a b).
Proof. intros Hn. rewrite !fits_iff, Z.shiftr_lor by exact Hn. intros -> ->. reflexivity. Qed.
Lemma fits_lxor n a b : 0 <= n -> fits n a -> fits n b -> fits n (Z.lxor a b).
Proof. intros Hn. rewrite !fits_iff, Z.shiftr_lxor by exact Hn. intros -> ->. reflexivity. Qed.
Lemma fits_land_l n a b : 0 <= n -> fits n a -> fits n (Z.land a b).
Proof. intros Hn. rewrite !fits_iff, Z.shiftr_land by exact Hn. intros ->. apply Z.land_0_l. Qed.
Lemma fits_land_r n a b : 0 <= n -> fits n b -> fits n (Z.land a b).
Proof. rewrite Z.land_comm. apply fits_land_l. Qed.
Lemma fits_shiftr n a k : 0 <= n -> 0 <= k -> fits n a -> fits n (Z.shiftr a k).
Proof.
  intros Hn Hk. rewrite !fits_iff, Z.shiftr_shiftr, Z.add_comm, <- Z.shiftr_shiftr by lia. intros ->. apply Z.shiftr_0_l.
Qed.
Lemma fits_shiftl n a k : 0 <= k -> k <= n -> fits (n - k) a -> fits n (Z.shiftl a k).
Proof.
  unfold fits. intros Hk Hn Ha. rewrite Z.shiftl_mul_pow2 by exact Hk.
  replace (2 ^ n) with (2 ^ (n - k) * 2 ^ k) by (rewrite <- Z.pow_add_r by lia; f_equal; lia).
  pose proof (Z.pow_pos_nonneg 2 k ltac:(lia) Hk). nia.
Qed.
Lemma fits_drop n a k : 0 <= n -> 0 <= k -> fits (n + k) a -> fits n (Z.shiftr a k).
Proof. intros Hn Hk. rewrite !fits_iff, Z.shiftr_shiftr, Z.add_comm by lia. auto. Qed.
Lemma fits_b2z n b : 1 <= n -> fits n (Z.b2z b).
Proof. intros Hn. apply (fits_le 1); [destruct b; split; reflexivity || discriminate | exact Hn]. Qed.
Lemma fits_div n a b : fits n a -> 0 <= b -> fits n (a / b).
Proof.
  unfold fits. intros Ha Hb. destruct (Z.eq_dec b 0) as [-> | Hne]; [rewrite Z.div_0_r; lia |].
  split; [apply Z.div_pos; lia |]. apply Z.le_lt_trans with a; [apply Z.div_le_upper_bound; nia | lia].
Qed.
(** The two values of a bit. *)
Lemma fits_1 x : fits 1 x -> x = 0 \/ x = 1.
Proof. unfold fits. lia. Qed.
Lemma fits_flip x : fits 1 x -> fits 1 (1 - x).
Proof. unfold fits. lia. Qed.

Create HintDb fits.

(** Closed widths and values are computed. *)
Ltac closed x := tryif (match x with context [?v] => is_var v end) then fail else idtac.
Ltac const_fits := lazymatch goal with |- fits ?n ?x => closed n; closed x; vm_compute; split; [discriminate | reflexivity] end.
Ltac norm_width := try match goal with |- fits ?n ?x => closed n; let w := eval vm_compute in n in change (fits w x) end.
Ltac fits :=
  lazymatch goal with
  | |- fits _ (Z.lor _ _) => apply fits_lor; [lia | fits | fits]
  | |- fits _ (Z.lxor _ _) => apply fits_lxor; [lia | fits | fits]
  | |- fits _ (Z.land _ _) => first [apply fits_land_r; [lia | solve [fits]] | apply fits_land_l; [lia | solve [fits]]]
  | |- fits _ (if ?b then _ else _) => destruct b; fits
  | |- fits _ (_ / _) => apply fits_div; [fits | unfold fits in *; lia]
  | |- fits _ (Z.b2z _) => apply fits_b2z; lia
  | |- fits _ (Z.shiftr _ _) => first [solve [auto 2 with fits] | apply fits_shiftr; [lia | first [lia | apply Z.land_nonneg; lia] | fits]]
  | |- fits _ (Z.shiftl _ _) => first [assumption | solve [const_fits] | apply fits_shiftl; [lia | lia | norm_width; fits]]
  | |- _ => first [assumption | solve [const_fits] | solve [auto 2 with fits]
                  | match goal with H : fits ?m ?x |- fits _ ?x => apply (fits_le m); [exact H | lia] end
                  | unfold fits in *; solve [const_pow; lia] ]
  end.

(** A list of words, and the values of an update. *)
Lemma Forall_py_get {A} (P : A -> Prop) l i a : Forall P l -> py_get l i = Ok a -> P a.
Proof.
  unfold py_get. intros Hl H. destruct (py_index _ i) as [k |]; [| discriminate].
  destruct (l !! k) as [b |] eqn:E; [| discriminate]. injection H as <-. exact (Forall_lookup_1 _ _ _ _ Hl E).
Qed.
Lemma py_set_length {A} (l : list A) i a l' : py_set l i a = Ok l' -> length l' = length l.
Proof. unfold py_set. destruct (py_index _ i); intros [= <-]. apply length_insert. Qed.
Lemma Forall_py_set {A} (P : A -> Prop) l i a l' : Forall P l -> P a -> py_set l i a = Ok l' -> Forall P l'.
Proof. unfold py_set. destruct (py_index _ i); intros Hl Ha [= <-]. apply Forall_insert; assumption. Qed.
