(* ===== verification/FpRange.v ===== *)
(** * The results of the floating-point oracles are words

    Whatever the operands, [arithmetic] returns a 64-bit result with a five-bit
    class, and the FPSCR it leaves is a 32-bit word. *)
From S2P Require Import Prelude Words FpReference FpPpc FpStatus.
Import reference ppc_reference.

(** The two formats and their widths. *)
Definition ieee (fmt : Format) : Prop := fmt = B32 \/ fmt = B64.
Definition width (fmt : Format) : Z := signbit fmt + 1.

Ltac ieee_cases H := destruct H as [-> | ->]; cbn [width signbit fraction exponent bias B32 B64] in *; unfold width, signbit in *; cbn in *.

Lemma ieee_width fmt : ieee fmt -> 1 <= signbit fmt /\ width fmt = signbit fmt + 1.
Proof. intros [-> | ->]; vm_compute; split; congruence. Qed.

Section Format.
Context (fmt : Format) (Hf : ieee fmt).

Lemma decode_sign b : fits (width fmt) b -> fits 1 (d_sign (decode b fmt)).
Proof using Hf.
  intros Hb. assert (fits 1 (Z.shiftr b (signbit fmt))).
  { destruct (ieee_width _ Hf). apply fits_drop; [lia | lia |]. rewrite Z.add_comm. exact Hb. }
  unfold decode. case_if; assumption.
Qed.

Lemma sign_fits s : fits 1 s -> fits (width fmt) (Z.shiftl s (signbit fmt)).
Proof using Hf.
  intros Hs. destruct (ieee_width _ Hf) as [H1 H2]. rewrite H2. apply fits_shiftl; [lia | lia |].
  replace (signbit fmt + 1 - signbit fmt) with 1 by lia. exact Hs.
Qed.

Lemma infinity_fits : fits (width fmt) (infinity fmt).
Proof using Hf. destruct Hf as [-> | ->]; const_fits. Qed.
Lemma max_fits : fits (width fmt) (infinity fmt - 1).
Proof using Hf. destruct Hf as [-> | ->]; const_fits. Qed.
Lemma width_nonneg : 0 <= width fmt.
Proof using Hf. destruct (ieee_width _ Hf). lia. Qed.

(** An encoding no lower than the smallest quantum. *)
Lemma encode_fits m q s rn nx inc :
  fits 1 s -> 1 - bias fmt - fraction fmt <= q -> fits (width fmt) (p_bits (encode m q s rn nx inc fmt)).
Proof using Hf.
  intros Hs Hq. pose proof width_nonneg. unfold encode. rewrite (surjective_pairing (if _ <? _ then _ else _)).
  set (q' := snd _). set (m' := fst _). assert (q <= q') by (subst q'; case_if; cbn; lia).
  case_if; cbn [p_bits].
  - apply fits_lor; [assumption | apply sign_fits; exact Hs |].
    destruct (truthy _); [apply infinity_fits | apply max_fits].
  - apply fits_lor; [assumption | apply fits_lor; [assumption | apply sign_fits; exact Hs |] |].
    + bool_prop. clearbody q' m'. destruct (ieee_width _ Hf) as [H1 H2].
      assert (0 <= fraction fmt /\ width fmt - fraction fmt = exponent fmt + 1 /\ 0 <= exponent fmt) as (H3 & H4 & H5)
        by (destruct Hf as [-> | ->]; vm_compute; repeat split; congruence).
      apply fits_shiftl; [lia | lia |]. rewrite H4. apply (fits_le (exponent fmt)); [| lia].
      rewrite Z.shiftl_1_l in E. unfold fits. pose proof (Z.pow_pos_nonneg 2 (exponent fmt) ltac:(lia) H5). case_if; lia.
    + destruct Hf as [-> | ->]; (apply fits_land_r; [vm_compute; discriminate | const_fits]).
Qed.

Lemma zero_fits s : fits 1 s -> fits (width fmt) (p_bits (zero_result s fmt)).
Proof using Hf. apply sign_fits. Qed.

Lemma pack_ratio_fits n d e s rn : fits 1 s -> fits (width fmt) (p_bits (pack_ratio n d e s rn fmt)).
Proof using Hf.
  intros Hs. unfold pack_ratio. case_if; [apply zero_fits; exact Hs |].
  destruct (scaled_ratio _ _ _) as [sn sd]. apply encode_fits; [exact Hs | lia].
Qed.
Lemma pack_fits n e s rn : fits 1 s -> fits (width fmt) (p_bits (pack n e s rn fmt)).
Proof using Hf.
  intros Hs. unfold pack. case_if; [apply zero_fits; exact Hs |].
  destruct (rounded_integer _ _ _ _) as [[m nx] inc]. apply encode_fits; [exact Hs | lia].
Qed.

Lemma quiet_fits b : fits (width fmt) b -> fits (width fmt) (quiet b fmt).
Proof using Hf. intros Hb. apply fits_lor; [apply width_nonneg | exact Hb |]. destruct Hf as [-> | ->]; const_fits. Qed.
Lemma default_nan_fits : fits (width fmt) (default_nan fmt).
Proof using Hf. apply quiet_fits, infinity_fits. Qed.

Lemma sum_sign_fits v s t rn : fits 1 s -> fits 1 (sum_sign v s t rn).
Proof using. intros Hs. unfold sum_sign. fits. Qed.

(** The signed infinity, or the same with no exponent. *)
Lemma signed_fits s x : fits 1 s -> fits (width fmt) x -> fits (width fmt) (Z.lor (Z.shiftl s (signbit fmt)) x).
Proof using Hf. intros Hs Hx. apply fits_lor; [apply width_nonneg | apply sign_fits; exact Hs | exact Hx]. Qed.
End Format.

Create HintDb fpfits.
#[export] Hint Resolve sign_fits infinity_fits max_fits pack_ratio_fits pack_fits quiet_fits default_nan_fits
  sum_sign_fits signed_fits decode_sign : fpfits.

Lemma b64_ieee : ieee B64.
Proof. right. reflexivity. Qed.
Lemma b32_ieee : ieee B32.
Proof. left. reflexivity. Qed.
#[export] Hint Resolve b64_ieee b32_ieee : fpfits.

(** The sign of a result is a bit. *)
Ltac sign :=
  lazymatch goal with
  | |- fits 1 (Z.lxor _ _) => apply fits_lxor; [lia | sign | sign]
  | |- fits 1 (sum_sign _ _ _ _) => apply sum_sign_fits; sign
  | |- fits 1 (Z.b2z _) => apply fits_b2z; lia
  | |- fits 1 (if ?b then _ else _) => destruct b; sign
  | |- _ => first [assumption | const_fits]
  end.
(** A result of the exact oracle, by its form. *)
Ltac outcome_fits :=
  cbn [bits with_invalid plain of_packed];
  lazymatch goal with
  | |- fits _ (default_nan _) => apply default_nan_fits; auto with fpfits
  | |- fits _ (p_bits (pack _ _ _ _ _)) => apply pack_fits; [auto with fpfits | sign]
  | |- fits _ (p_bits (pack_ratio _ _ _ _ _ _)) => apply pack_ratio_fits; [auto with fpfits | sign]
  | |- fits _ (Z.lor (Z.shiftl _ _) (infinity _)) => apply signed_fits; [auto with fpfits | sign | apply infinity_fits; auto with fpfits]
  | |- fits _ (Z.lor (Z.shiftl _ _) _) => apply signed_fits; [auto with fpfits | sign | case_if; const_fits]
  end.

Section Calculate.
Context (a b rn : Z) (Ha : fits 64 a) (Hb : fits 64 b).
Let x := decode a B64.
Let y := decode b B64.

Lemma calc_add_fits sb : fits 1 sb -> fits 64 (bits (calc_add x y sb rn B64)).
Proof using Ha.
  intros Hs. change 64 with (width B64). assert (fits 1 (d_sign x)) by (apply decode_sign; [auto with fpfits | exact Ha]).
  unfold calc_add. case_if; [outcome_fits |]. case_if; outcome_fits.
Qed.
Lemma calc_div_fits : fits 64 (bits (calc_div x y rn B64)).
Proof using Ha Hb.
  change 64 with (width B64). assert (fits 1 (d_sign x)) by (apply decode_sign; [auto with fpfits | exact Ha]).
  assert (fits 1 (d_sign y)) by (apply decode_sign; [auto with fpfits | exact Hb]).
  unfold calc_div. repeat (case_if; [outcome_fits |]). outcome_fits.
Qed.
Lemma calc_mul_fits : fits 64 (bits (calc_mul x y rn B64)).
Proof using Ha Hb.
  change 64 with (width B64). assert (fits 1 (d_sign x)) by (apply decode_sign; [auto with fpfits | exact Ha]).
  assert (fits 1 (d_sign y)) by (apply decode_sign; [auto with fpfits | exact Hb]).
  unfold calc_mul. repeat (case_if; [outcome_fits |]). outcome_fits.
Qed.
End Calculate.

(** The operations of a list, one goal each. *)
Ltac op_cases H :=
  unfold str_in in H; cbn [existsb] in H;
  repeat match type of H with
         | (String.eqb ?op _ || _)%bool = true =>
             apply orb_true_iff in H; destruct H as [H | H]; [apply String.eqb_eq in H; subst op |]
         end; [.. | discriminate H].

Lemma calculate_fits op a b rn r :
  str_in op ["add"; "sub"; "div"; "mul"]%string = true -> fits 64 a -> fits 64 b ->
  calculate op a b rn B64 = Ok r -> fits 64 (bits r).
Proof.
  intros Hop Ha Hb. assert (fits 1 (d_sign (decode b B64))) by (apply decode_sign; [auto with fpfits | exact Hb]).
  unfold calculate. op_cases Hop; str_tests;
    (case_if; intros Hr; apply ok_inj in Hr; subst r; [cbn [bits with_invalid]; apply quiet_fits; [auto with fpfits | case_if; assumption] |]);
    first [apply calc_div_fits; assumption | apply calc_mul_fits; assumption | apply calc_add_fits; [assumption | sign]].
Qed.

Lemma calculate_fma_fits a b c rn np na :
  fits 64 a -> fits 64 b -> fits 64 c -> fits 64 (bits (calculate_fma a b c rn B64 np na)).
Proof.
  intros Ha Hb Hc. assert (Hd : forall v, fits 64 v -> fits 1 (d_sign (decode v B64))) by (intros; apply decode_sign; auto with fpfits).
  pose proof (Hd a Ha). pose proof (Hd b Hb). pose proof (Hd c Hc). change 64 with (width B64). unfold calculate_fma. cbn [first_nan].
  assert (forall v i, fits 64 v -> fits (width B64) (bits (with_invalid (quiet v B64) i))) by (intros; apply quiet_fits; auto with fpfits).
  do 3 (case_if; [auto |]). repeat (case_if; [outcome_fits |]). repeat case_if; outcome_fits.
Qed.

(** Widening a single. *)
Lemma widen_fits b rn : fits 32 b -> fits 64 (bits (calc_convert (decode b B32) rn B32 B64)).
Proof.
  intros Hb. assert (fits 1 (d_sign (decode b B32))) by (apply decode_sign; [auto with fpfits | exact Hb]).
  change 64 with (width B64). unfold calc_convert.
  case_if; [| case_if; outcome_fits]. cbn [bits with_invalid].
  rewrite <- !Z.lor_assoc. apply signed_fits; [auto with fpfits | assumption |].
  apply fits_lor; [vm_compute; discriminate | auto with fpfits |]. apply fits_lor; [vm_compute; discriminate | | const_fits].
  change (fraction B64 <=? fraction B32) with false. cbv iota.
  assert (fits 23 (d_sig (decode b B32))).
  { unfold decode in E |- *. case_if; cbn [d_kind d_sig] in *; [apply fits_land_r; [lia | const_fits] | discriminate]. }
  change (width B64) with 64. cbn [fraction B64 B32]. fits.
Qed.

Lemma finite_sign op a b c rn :
  fits 64 a -> fits 64 b -> fits 64 c -> fits 1 (snd (finite op a b c rn)).
Proof.
  intros Ha Hb Hc. assert (Hd : forall v, fits 64 v -> fits 1 (d_sign (decode v B64))) by (intros; apply decode_sign; auto with fpfits).
  pose proof (Hd a Ha). pose proof (Hd b Hb). pose proof (Hd c Hc). unfold finite.
  repeat match goal with |- context [if ?t then (_, _) else _] => destruct t end; cbn [snd]; sign.
Qed.

(** ** The PowerPC model *)
Lemma classify_fits b fmt : fits 5 (classify b fmt).
Proof. unfold classify, by_sign. fits. Qed.
#[export] Hint Resolve classify_fits : fits.

(** What [arithmetic] returns. *)
Record out_fits (o : out) : Prop :=
  { out_result : fits 64 (o_result o); out_class : fits 5 (fprf o); out_fpcc : fits 4 (fpcc o) }.

Lemma settled_fits inv zx r w : fits 64 r -> out_fits (settled inv zx r w).
Proof. intros Hr. constructor; cbn [o_result fprf fpcc settled]; [exact Hr | apply classify_fits | const_fits]. Qed.

Lemma rounded_out_fits op inv n d e s rn fmt ni oe ue :
  ieee fmt -> fits 1 s -> out_fits (rounded_out op inv n d e s rn fmt ni oe ue).
Proof.
  intros Hf Hs. unfold rounded_out. destruct (unbounded_round _ _ _ _ _ _) as [[[m q] ix] inc]. case_if.
  - set (p := p_bits _). assert (fits 64 p) by (apply (pack_ratio_fits B64); auto with fpfits). clearbody p.
    constructor; cbn [o_result fprf fpcc]; [fits | apply classify_fits | const_fits].
  - constructor; cbn [o_result fprf fpcc]; [| apply classify_fits | const_fits].
    set (p := p_bits _). assert (Hp : fits (width fmt) p) by (apply pack_ratio_fits; assumption). clearbody p.
    assert (Hw : 0 <= width fmt) by (apply width_nonneg; exact Hf).
    assert (Ho : fits (width fmt) (Z.shiftl 1 (signbit fmt))) by (apply sign_fits; [exact Hf | const_fits]).
    set (q1 := if ni && (Z.land p (infinity fmt) =? 0) && truthy (Z.land p (Z.shiftl 1 (fraction fmt) - 1))
                then Z.land p (Z.shiftl 1 (signbit fmt)) else p). assert (fits (width fmt) q1) by (subst q1; case_if; [apply fits_land_l; assumption | exact Hp]).
    set (q2 := if negated op then Z.lxor q1 (Z.shiftl 1 (signbit fmt)) else q1). assert (fits (width fmt) q2) by (subst q2; case_if; [apply fits_lxor; assumption | assumption]).
    clearbody q1 q2. destruct Hf as [-> | ->]; cbn [is_b32 fraction B32 B64 Z.eqb Pos.eqb]; [apply widen_fits |]; assumption.
Qed.

Lemma infinite_out_fits op inv a b c rn o :
  str_in op rounding_ops = true -> fits 64 a -> fits 64 b -> fits 64 c -> infinite_out op inv a b c rn = Ok o -> out_fits o.
Proof.
  intros Hop Ha Hb Hc. unfold infinite_out.
  assert (Hset : forall v, fits 64 v -> out_fits (settled inv false
            (if negated op && negb (is_nan (d_kind (decode v B64))) then Z.lxor v (Z.shiftl 1 63) else v) true)).
  { intros v Hv. apply settled_fits. fits. }
  destruct (is_fused op) eqn:Ef; [intros Ho; apply ok_inj in Ho; subst o; apply Hset, calculate_fma_fits; assumption |].
  destruct (calculate _ _ _ _ _) as [r |] eqn:Er; [| discriminate]. intros Ho. apply ok_inj in Ho. subst o. apply Hset.
  apply calculate_fits in Er; [exact Er | | exact Ha | case_if; assumption].
  unfold rounding_ops in Hop. op_cases Hop; first [reflexivity | discriminate Ef].
Qed.

Lemma compare_out_fits op a b vx : out_fits (compare_out op a b vx).
Proof.
  unfold compare_out. rewrite (surjective_pairing (if _ || _ then _ else _)).
  constructor; cbn [o_result fprf fpcc]; [const_fits | const_fits |]. destruct (_ || _); cbn [fst]; fits.
Qed.
Lemma first_nan_of_In l v : first_nan_of l = Some v -> In v l.
Proof. intros H. apply find_some in H. apply H. Qed.

Ltac outer_if := match goal with |- (if ?b then _ else _) = _ -> _ => destruct b end.
Lemma arithmetic_fits op a b c rn k o :
  fits 64 a -> fits 64 b -> fits 64 c -> arithmetic op a b c rn k = Ok o -> out_fits o.
Proof.
  intros Ha Hb Hc. unfold arithmetic.
  case_if; [intros Ho; apply ok_inj in Ho; subst o; apply compare_out_fits |].
  case_if; [intros Ho; apply ok_inj in Ho; subst o; unfold integer_out; split; cbn [o_result fprf fpcc]; [| const_fits ..] |].
  { destruct (invalid _); [fits |]. unfold calc_ftoi32. destruct (negb _); [const_fits |].
    destruct (rounded_integer _ _ _ _) as [[v nx0] inc]. destruct (negb _); [const_fits |]. cbn [bits]. apply (fits_le 32); [fits | lia]. }
  destruct (first_nan_of _) as [nan |] eqn:En.
  { intros Ho; apply ok_inj in Ho; subst o. apply first_nan_of_In in En. unfold relevant in En. assert (fits 64 nan).
    { revert En. repeat case_if; cbn [In]; intuition (subst; assumption). }
    unfold nan_out. apply settled_fits. fits. }
  case_if; [intros Ho; apply ok_inj in Ho; subst o; apply settled_fits; assumption |].
  case_if.
  { pose proof (finite_sign "mul" b 0 0x3ff0000000000000 rn Hb ltac:(const_fits) ltac:(const_fits)) as Hs.
    destruct (finite _ _ _ _ _) as [[[n d] e] s]. intros Ho; apply ok_inj in Ho; subst o. apply rounded_out_fits; [auto with fpfits | exact Hs]. }
  case_if; [| discriminate].
  assert (Hd : forall v, fits 64 v -> fits 1 (d_sign (decode v B64))) by (intros; apply decode_sign; auto with fpfits).
  case_if; [intros Ho; apply ok_inj in Ho; subst o; apply settled_fits; apply (signed_fits B64); [auto with fpfits | apply fits_lxor; auto; lia | auto with fpfits] |].
  cbv zeta. outer_if; [intros Ho; apply ok_inj in Ho; subst o; apply settled_fits; const_fits |].
  outer_if; [apply infinite_out_fits; assumption |].
  pose proof (finite_sign op a b c rn Ha Hb Hc) as Hs. destruct (finite _ _ _ _ _) as [[[n d] e] s].
  intros Ho; apply ok_inj in Ho; subst o. apply rounded_out_fits; [case_if; auto with fpfits | exact Hs].
Qed.

(** ** The FPSCR *)
Lemma set_bit_fits b k v : 0 <= k < 32 -> fits 32 v -> fits 32 (enabled_vectors.set_bit b k v).
Proof. intros Hk Hv. unfold enabled_vectors.set_bit. destruct b; [| exact Hv].
  apply fits_lor; [lia | exact Hv | apply fits_shiftl; [lia | lia | apply (fits_le 1); [const_fits | lia]]].
Qed.
Lemma put_field_fits v m lo x n : 0 <= lo -> 0 <= n -> lo + n <= 32 -> fits n x -> fits 32 v -> fits 32 (enabled_vectors.put_field v m lo x).
Proof.
  intros Hlo Hn Hw Hx Hv. unfold enabled_vectors.put_field. apply fits_lor; [lia | apply fits_land_l; [lia | exact Hv] |].
  apply fits_shiftl; [lia | lia | apply (fits_le n); [exact Hx | lia]].
Qed.
Lemma set_invalid_fits inv v : fits 32 v -> fits 32 (enabled_vectors.set_invalid inv v).
Proof.
  intros Hv. unfold enabled_vectors.set_invalid, enabled_vectors.INVALID_BITS. cbn [enumerate fold_left].
  repeat (apply set_bit_fits; [cbn; lia |]). exact Hv.
Qed.
Lemma fpscr_after_fits old o : fits 32 old -> fits 5 (fprf o) -> fits 32 (enabled_vectors.fpscr_after old o).
Proof.
  intros Ho Hc. unfold enabled_vectors.fpscr_after. cbv zeta.
  apply (put_field_fits _ _ _ _ 1); [lia | lia | lia | fits |]. apply (put_field_fits _ _ _ _ 1); [lia | lia | lia | fits |].
  set (v1 := enabled_vectors.set_bit (xx o) 25 _).
  assert (fits 32 v1) by (subst v1; repeat (apply set_bit_fits; [lia |]); apply set_invalid_fits; exact Ho). clearbody v1.
  set (v2 := if frfi_valid o then _ else v1).
  assert (fits 32 v2).
  { subst v2. case_if; [| assumption]. apply fits_lor; [lia | apply (put_field_fits _ _ _ _ 1); [lia | lia | lia | const_fits | assumption] | fits]. }
  clearbody v2. set (v3 := if fprf_valid o then _ else v2).
  assert (fits 32 v3) by (subst v3; case_if; [apply (put_field_fits _ _ _ _ 5); [lia | lia | lia | exact Hc | assumption] | assumption]).
  clearbody v3. destruct (truthy _); [fits | assumption].
Qed.
Lemma fpscr_mask_fits o oe : fits 32 (enabled_vectors.fpscr_mask o oe).
Proof. unfold enabled_vectors.fpscr_mask. case_if; const_fits. Qed.
