(* ===== verification/FpCaseTheorems.v ===== *)
(** * What the random cases promise

    [yields P m]: a program over lawful draws ends with a value in [P], or its
    rejection loop ran out of fuel; it never raises. The operand generators yield
    words of their format, and a case of [case_603] is the model's answer for the
    status word and the operands it carries. *)
From S2P Require Import Prelude PyRandom FpReference FpPpc FpStatus Words FpRange FpCases.
Import reference ppc_reference.

Section Yields.
Context {S : Type} `{!Rng S} `{!RngLaws S}.

Definition yields {A} (P : A -> Prop) (m : method S A) : Prop :=
  forall s, match snd (m s) with Ok a => P a | Raise e => e = OutOfFuel end.

Lemma yields_ret {A} (P : A -> Prop) a : P a -> yields P (m_ret a).
Proof. intros H s. exact H. Qed.
Lemma yields_lift {A} (P : A -> Prop) (r : result A) a : r = Ok a -> P a -> yields P (m_lift r).
Proof. intros -> H s. exact H. Qed.
Lemma yields_bind {A B} (P : A -> Prop) (Q : B -> Prop) (m : method S A) f :
  yields P m -> (forall a, P a -> yields Q (f a)) -> yields Q (m_bind m f).
Proof.
  intros Hm Hf s. unfold m_bind. specialize (Hm s). destruct (m s) as [s' [a | e]]; cbn in Hm.
  - apply Hf. exact Hm.
  - exact Hm.
Qed.
Lemma yields_imp {A} (P Q : A -> Prop) (m : method S A) : yields P m -> (forall a, P a -> Q a) -> yields Q m.
Proof. intros Hm H s. specialize (Hm s). destruct (snd (m s)); auto. Qed.
Lemma yields_if {A} (P : A -> Prop) (b : bool) (m1 m2 : method S A) :
  (b = true -> yields P m1) -> (b = false -> yields P m2) -> yields P (if b then m1 else m2).
Proof. destruct b; auto. Qed.

Lemma yields_bits k : 0 <= k -> yields (fits k) (getrandbits k).
Proof. intros Hk s. destruct (getrandbits_range k s Hk) as (s' & v & -> & Hv). exact Hv. Qed.
Lemma yields_below n : 0 < n -> yields (fun v => 0 <= v < n) (randbelow n).
Proof.
  intros Hn s. destruct (randbelow n s) as [s' [v | e]] eqn:E; cbn [snd].
  - exact (randbelow_range n s s' v Hn E).
  - exact (randbelow_refuses n s s' e Hn E).
Qed.
Lemma yields_range lo hi : lo < hi -> yields (fun v => lo <= v < hi) (randrange lo hi).
Proof.
  intros H. unfold randrange. rewrite (proj2 (Z.ltb_lt lo hi)) by exact H.
  eapply yields_bind; [apply yields_below; lia |]. intros v Hv. apply yields_ret. cbn beta in *. lia.
Qed.
Lemma yields_choice {A} (l : list A) : l <> [] -> yields (fun a => In a l) (choice l).
Proof.
  intros Hl. assert (Hn : 0 < Z.of_nat (length l)) by (destruct l; [congruence | cbn [length]; lia]).
  assert (choice l = m_bind (randbelow (Z.of_nat (length l))) (fun i => m_lift (py_get l i))) as ->
    by (destruct l; [congruence | reflexivity]).
  eapply yields_bind; [apply yields_below, Hn |]. cbn beta. intros i Hi.
  assert (exists a, py_get l i = Ok a) as [a Ha].
  { unfold py_get, py_index. rewrite (proj2 (in_range_iff _ _ _) Hi).
    destruct (lookup_lt_is_Some_2 l (Z.to_nat i)) as [a ->]; [lia | eauto]. }
  apply (yields_lift _ _ a Ha). unfold py_get in Ha. destruct (py_index _ i); [| discriminate].
  destruct (l !! n) eqn:E; [| discriminate]. injection Ha as <-. apply list_elem_of_In. eapply list_elem_of_lookup_2, E.
Qed.
Lemma yields_repeat {A} (P : A -> Prop) (m : method S A) n :
  yields P m -> yields (fun l => length l = n /\ Forall P l) (enabled_cases.repeat_case n m).
Proof.
  intros Hm. induction n as [| n IH]; cbn [enabled_cases.repeat_case]; [apply yields_ret; auto |].
  eapply yields_bind; [exact Hm |]. intros a Ha. eapply yields_bind; [exact IH |]. intros l [Hl HF].
  apply yields_ret. cbn. auto.
Qed.
End Yields.

(** A draw, a binding, a branch. *)
Create HintDb draws discriminated.
#[export] Hint Constants Opaque : draws.
#[export] Hint Variables Opaque : draws.
#[export] Hint Extern 1 (_ <= _) => lia : draws.
#[export] Hint Extern 1 (_ < _) => lia : draws.
#[export] Hint Resolve yields_bits yields_range yields_choice : draws.
Ltac draw :=
  lazymatch goal with
  | |- yields _ (m_bind (if _ then _ else _) _) => fail
  | |- yields _ (m_bind _ _) => eapply yields_bind; [solve [eauto with draws] | cbn beta; intros ? ?]
  | |- yields _ (if _ then _ else _) => apply yields_if; intros ?
  | |- yields _ (m_ret _) => apply yields_ret
  | |- yields _ (let '(_, _) := ?p in _) => destruct p
  end.

(** Draw to the end, leaving the facts about the values; [bounds] proves the ranges
    that need the format. *)
Ltac draws_with bounds :=
  repeat draw;
  try lazymatch goal with
  | |- yields _ (getrandbits _) => eapply yields_imp; [apply yields_bits; lia | cbn beta]
  | |- yields _ (choice _) => eapply yields_imp; [apply yields_choice; discriminate | cbn beta]
  | |- yields _ (randrange _ _) => eapply yields_imp; [apply yields_range; first [lia | bounds ()] | cbn beta]
  | |- yields _ _ => solve [eauto with draws]
  end.
Ltac draws := draws_with ltac:(fun _ => fail).

Section Operands.
Context {S : Type} `{!Rng S} `{!RngLaws S}.
Import cluster_vectors.

Lemma value_fits (single : bool) s e x : fits 1 s -> fits (width (Fmt_ single)) (value (Fmt_ single) s e x).
Proof.
  intros Hs. unfold value.
  assert (He : fits (if single then 8 else 11) (Z.min (Z.max e 0) (emax (Fmt_ single)))) by (destruct single; unfold fits; cbn; lia).
  set (e' := Z.min _ _) in *. clearbody e'. destruct single; cbn [width frac Fmt_] in *; fits.
Qed.

Definition any {A} (_ : A) : Prop := True.
Definition triple_fits (n : Z) (t : Z * Z * Z) : Prop := let '(a, b, c) := t in fits n a /\ fits n b /\ fits n c.

Context (single : bool).
Let f := Fmt_ single.

Lemma frac_pos : 0 < frac f. Proof. subst f. destruct single; reflexivity. Qed.
Lemma width_pos : 0 <= width f. Proof. subst f. destruct single; discriminate. Qed.
#[local] Hint Resolve frac_pos width_pos : draws.
Lemma frac_nonneg : 0 <= frac f. Proof. pose proof frac_pos. lia. Qed.
#[local] Hint Resolve frac_nonneg : draws.

Ltac bounds := subst f; destruct single; cbn [frac bias emax width Fmt_] in *; lia.
Ltac draws_f := draws_with ltac:(fun _ => bounds).
Lemma fraction_any : yields any (fraction (S:=S) f).
Proof. unfold fraction. pose proof frac_pos. draws_f; unfold any; auto. Qed.
Lemma denormal_fits : yields (fits (width f)) (denormal (S:=S) f).
Proof. unfold denormal. pose proof frac_pos. draws_f. apply value_fits. assumption. Qed.
#[local] Hint Resolve fraction_any denormal_fits : draws.
Lemma signed_value_fits e : yields (fits (width f)) (signed_value (S:=S) f e).
Proof. unfold signed_value. draws_f. apply value_fits. assumption. Qed.
Lemma near_any e : yields any (near (S:=S) e).
Proof. unfold near. draws_f. exact I. Qed.
Lemma coin_any : yields any (coin (S:=S)).
Proof. unfold coin. draws_f. exact I. Qed.
#[local] Hint Resolve signed_value_fits near_any coin_any : draws.

Lemma fits_zero n : 0 <= n -> fits n 0.
Proof. intros. split; [lia |]. apply Z.pow_pos_nonneg; lia. Qed.

(** A conditional draw whose value any [P] holds of. *)
Ltac draw_if P := eapply (yields_bind P); [solve [draws_f; unfold any in *; cbn beta in *; auto] | cbn beta; intros ? ?].
Ltac a_word := first [assumption | apply fits_zero; apply width_pos | apply value_fits; assumption].
Ltac words := split; [| split]; a_word.

Lemma unary_operands_fits op cluster : yields (triple_fits (width f)) (unary_operands (S:=S) op cluster f).
Proof.
  unfold unary_operands. cbv zeta. repeat (apply yields_if; intros ?).
  - draw_if (@any Z). draws_f. words.
  - draw_if (@any Z). draws_f. words.
  - draws_f. words.
  - draw_if (@any Z). draws_f. words.
Qed.

Lemma sum_operands_fits cluster : yields (triple_fits (width f)) (sum_operands (S:=S) cluster f).
Proof.
  unfold sum_operands. draw_if (@any Z). draw. draw_if (fits (width f)). draw_if (@any bool).
  eapply (yields_bind (fits (width f))).
  - draws_f.
    + draw_if (@any Z). draws_f. a_word.
    + a_word.
  - cbn beta. intros b Hb. draws_f. case_if; words.
Qed.

Lemma product_operands_fits op cluster : yields (triple_fits (width f)) (product_operands (S:=S) op cluster f).
Proof.
  unfold product_operands.
  eapply (yields_bind (fun t => - frac f - 4 <= t <= emax f + 1)); [draws_f; bounds |]. cbn beta. intros target Ht.
  eapply yields_bind; [apply yields_range; bounds |]. cbn beta zeta. intros ea _. draw. draw.
  eapply (yields_bind (fun ac => fits (width f) (fst ac) /\ fits (width f) (snd ac))).
  - draws_f; cbn [fst snd]; [case_if |]; cbn [fst snd]; auto.
  - cbn beta. intros [a' c'] [Ha Hc]. cbn [fst snd] in *. repeat (apply yields_if; intros ?); [apply yields_ret; words .. |].
    draw_if (@any bool). draws_f; words.
Qed.

Lemma operands_fits op cluster : yields (triple_fits (width f)) (operands (S:=S) op cluster f).
Proof.
  unfold operands. apply yields_if; intros _; [apply unary_operands_fits |].
  apply yields_if; intros _; [apply sum_operands_fits | apply product_operands_fits].
Qed.
End Operands.

(** ** The cases *)
Section Cases.
Context {S : Type} `{!Rng S} `{!RngLaws S}.
Import cluster_vectors enabled_vectors enabled_cases production_vectors.

Definition wide (single : bool) : Z := width (Fmt_ single).

Lemma special_fits (single : bool) : Forall (fits (wide single)) (if single then SPECIAL32 else SPECIAL64).
Proof. destruct single; repeat (apply List.Forall_cons; [const_fits |]); apply List.Forall_nil. Qed.
Lemma special_in (single : bool) v : In v (if single then SPECIAL32 else SPECIAL64) -> fits (wide single) v.
Proof. apply List.Forall_forall, special_fits. Qed.

Lemma put3_fits n t i v : triple_fits n t -> fits n v -> triple_fits n (put3 t i v).
Proof. destruct t as [[a b] c]. unfold put3. intros (Ha & Hb & Hc) Hv. repeat case_if; split; auto. Qed.

Lemma yields_special (single : bool) :
  yields (S:=S) (fits (wide single)) (choice (if single then SPECIAL32 else SPECIAL64)).
Proof. eapply yields_imp; [apply yields_choice; destruct single; discriminate |]. apply special_in. Qed.

Lemma cluster_drawn (i : Z) : 0 <= i < 5 -> exists c, py_get CLUSTERS i = Ok c.
Proof.
  intros Hi. assert (i = 0 \/ i = 1 \/ i = 2 \/ i = 3 \/ i = 4) as [-> | [-> | [-> | [-> | ->]]]] by lia; eexists; reflexivity.
Qed.

(** The rewriting of the operands of a one-operand operation. *)
Lemma middle_fits n (u : bool) x y t :
  fits n x -> fits n y -> triple_fits n t -> triple_fits n (if u then let '(_, b, _) := t in (x, b, y) else t).
Proof. destruct t as [[a b] c]. intros ? ? (? & ? & ?). destruct u; split; auto. Qed.
Lemma same_fits n (u : bool) t : triple_fits n t -> triple_fits n (if u then let '(_, b, _) := t in (b, b, b) else t).
Proof. destruct t as [[a b] c]. intros (? & ? & ?). destruct u; split; auto. Qed.

Lemma sources_fit op single : yields (S:=S) (triple_fits (wide single)) (sources op single).
Proof.
  unfold sources. cbv zeta. set (f := Fmt_ single). pose proof (yields_special single) as Hsp.
  assert (Hone : fits (wide single) (value f 0 (bias f) 0)) by (apply value_fits; const_fits).
  draw. eapply (yields_bind (triple_fits (wide single))).
  - apply yields_if; intros _.
    + do 3 (eapply yields_bind; [exact Hsp | cbn beta; intros ? ?]). apply yields_ret. split; auto.
    + draw. match goal with Hi : 0 <= ?i < 5 |- _ => destruct (cluster_drawn i Hi) as [c Ec] end.
      eapply yields_bind; [apply (yields_lift any _ c Ec I) |]. intros cl _.
      eapply yields_bind; [apply operands_fits |]. cbn beta. intros raw Hraw.
      apply (same_fits _ (unary op)) in Hraw. set (raw' := if unary op then _ else raw) in *.
      clearbody raw'. draw. apply yields_if; intros _.
      * eapply yields_bind; [exact Hsp |]. cbn beta. intros v Hv. draw. apply yields_ret. apply put3_fits; assumption.
      * apply yields_ret. assumption.
  - cbn beta. intros raw Hraw. apply (middle_fits _ (unary op) _ _ _ Hone Hone) in Hraw. set (raw' := if unary op then _ else raw) in *.
    clearbody raw'. apply yields_if; intros _; [| apply yields_ret; assumption].
    draw. apply yields_if; intros _; [| apply yields_ret; assumption].
    draw. apply yields_ret. apply put3_fits; [assumption | apply value_fits; assumption].
Qed.
End Cases.

(** ** A case is the model's answer *)
Import cluster_vectors enabled_vectors enabled_cases production_vectors.

(** [arithmetic] answers for every operation it names. *)
Lemma arithmetic_total op a b c rn k :
  str_in op (rounding_ops ++ ["frsp"; "fctiw"; "fctiwz"; "cmpu"; "cmpo"]%string) = true ->
  exists o, arithmetic op a b c rn k = Ok o.
Proof.
  intros Hop. unfold rounding_ops in Hop. cbn [app] in Hop.
  op_cases Hop; unfold arithmetic; str_tests; cbv zeta; eauto;
    destruct (first_nan_of _) as [nan |]; eauto; cbn [andb];
    repeat (outer_if; eauto); try (destruct (finite _ _ _ _ _) as [[[? ?] ?] ?]; eauto);
    unfold infinite_out, calculate; str_tests; repeat case_if; eauto; discriminate.
Qed.

(** The controls a status word holds: VE, OE, UE, ZE are its bits 7 to 4, NI bit 2,
    RN bits 1 and 0. *)
Definition fpscr_controls (single : bool) (old : Z) : enables :=
  {| single := single; ni := Z.testbit old 2; ve := Z.testbit old 7; oe := Z.testbit old 6; ue := Z.testbit old 5;
     ze := Z.testbit old 4 |}.

Definition modes_agree (e n r : Z) : bool :=
  let w := old_word e n r in
  (w =? 8 * e + 4 * n + r) && (field w 0 2 =? r) && eqb (Z.testbit w 2) (truthy n)
  && forallb (fun '(i, j) => eqb (enable e i) (Z.testbit w j)) [(0, 7); (1, 6); (2, 5); (3, 4); (4, 3)].
Lemma modes_all : forallb (fun e => forallb (fun n => forallb (modes_agree e n) (seqZ 0 4)) (seqZ 0 2)) (seqZ 0 32) = true.
Proof. vm_compute. reflexivity. Qed.
Lemma modes_agreed e n r : fits 5 e -> fits 1 n -> 0 <= r < 4 -> modes_agree e n r = true.
Proof.
  intros He Hn Hr. pose proof modes_all as H.
  rewrite forallb_forall in H. specialize (H e). rewrite <- list_elem_of_In, elem_of_seqZ in H. specialize (H He).
  rewrite forallb_forall in H. specialize (H n). rewrite <- list_elem_of_In, elem_of_seqZ in H. specialize (H Hn).
  rewrite forallb_forall in H. apply H. rewrite <- list_elem_of_In, elem_of_seqZ. exact Hr.
Qed.

Lemma old_word_spec s e n r :
  fits 5 e -> fits 1 n -> 0 <= r < 4 ->
  fits 8 (old_word e n r) /\ field (old_word e n r) 0 2 = r /\ controls s n e = fpscr_controls s (old_word e n r).
Proof.
  intros He Hn Hr. pose proof (modes_agreed e n r He Hn Hr) as H. unfold modes_agree in H. cbn [forallb] in H. bool_prop.
  repeat match goal with H : eqb _ _ = true |- _ => apply eqb_prop in H end.
  split; [unfold fits in *; lia |]. split; [assumption |].
  unfold controls, fpscr_controls. f_equal; congruence.
Qed.

(** A double that is exactly a single. *)
Definition exact32 (v : Z) : Prop := exists w, fits 32 w /\ v = widen w.

(** The row [k] is the answer of the PowerPC model: its word is the instruction, its
    expectations follow from its operands and from the status word [old] alone. *)
Record answers (k : case) (name op : string) (single : bool) (exp : out) : Prop := {
  a_op : oracle_of name = Ok op;
  a_insn : encode name single (rc k) = Ok (insn k);
  a_exp : arithmetic op (ra k) (rb k) (rc_ k) (field (old k) 0 2) (fpscr_controls single (old k)) = Ok exp;
  a_exact : single = true -> Forall exact32 [ra k; rb k; rc_ k];
  a_words : Forall (fits 64) [ra k; rb k; rc_ k];
  a_old : fits 8 (old k);
  a_fe : fits 2 (fe k);
  a_rc : fits 1 (rc k);
  a_new : new k = fpscr_after (old k) exp;
  a_write : write k = write_result exp;
  a_mask : mask k = if str_in op ["fctiw"; "fctiwz"]%string then Z.ones 32 else Z.ones 64;
  a_result : result k = Z.land (o_result exp) (mask k);
  a_fmask : fmask k = fpscr_mask exp (Z.testbit (old k) 6);
  a_cr1 : cr1 k = Z.shiftr (new k) 28;
  a_exc : exc k = if negb (fe k =? 0) && Z.testbit (new k) 30 then FP_ENABLED else NO_EXCEPTION
}.

Definition sound_603 (k : case) : Prop := exists name op single exp, answers k name op single exp.

Section Case603.
Context {S : Type} `{!Rng S} `{!RngLaws S}.

Lemma map3_widen t : triple_fits 32 t ->
  let '(a, b, c) := map3 widen t in Forall exact32 [a; b; c] /\ Forall (fits 64) [a; b; c].
Proof.
  destruct t as [[a b] c]. intros (Ha & Hb & Hc). cbn [map3].
  split; repeat apply List.Forall_cons; try apply List.Forall_nil; try (apply widen_fits; assumption); eexists; split; try reflexivity; assumption.
Qed.

(** What the operands of a case satisfy before anything else is drawn. *)
Definition operands_ok (single : bool) (t : triple) : Prop :=
  let '(a, b, c) := t in Forall (fits 64) [a; b; c] /\ (single = true -> Forall exact32 [a; b; c]).

Lemma edge_source_ok : yields (S:=S) (operands_ok false) edge_source.
Proof.
  unfold edge_source. eapply yields_bind; [apply yields_choice; discriminate |]. cbn beta. intros b Hb. draw.
  apply yields_ret. split; [| discriminate].
  assert (Hf : fits 64 b) by (unfold EDGES in Hb; cbn [In] in Hb; intuition (subst b; const_fits)).
  repeat apply List.Forall_cons; try apply List.Forall_nil; [const_fits | | const_fits].
  apply fits_lor; [lia | exact Hf |]. apply fits_shiftl; [lia | lia | assumption].
Qed.

Lemma drawn_sources_ok op single :
  yields (S:=S) (operands_ok single) (do! raw := sources op single in m_ret (if single then map3 widen raw else raw)).
Proof.
  eapply yields_bind; [apply sources_fit |]. cbn beta. intros raw Hraw. apply yields_ret. destruct single.
  - pose proof (map3_widen raw Hraw) as H. unfold operands_ok. destruct (map3 widen raw) as [[a b] c]. destruct H. auto.
  - destruct raw as [[a b] c]. destruct Hraw as (? & ? & ?). split; [| discriminate]. repeat apply List.Forall_cons; assumption || apply List.Forall_nil.
Qed.

Lemma draw_modes_ok : yields (S:=S) (fun '(e, n, r) => fits 5 e /\ fits 1 n /\ 0 <= r < 4) draw_modes.
Proof. unfold draw_modes. draws. auto. Qed.
Lemma draw_control_ok : yields (S:=S) (fun '(fe, rc) => fits 2 fe /\ fits 1 rc) draw_control.
Proof. unfold draw_control. draws. auto. Qed.

Lemma named name : In name names_603 -> exists op, oracle_of name = Ok op
  /\ str_in op (rounding_ops ++ ["frsp"; "fctiw"; "fctiwz"; "cmpu"; "cmpo"]%string) = true
  /\ str_in name ["fctiw"; "fctiwz"]%string = str_in op ["fctiw"; "fctiwz"]%string
  /\ forall s rc, exists w, encode name s rc = Ok w.
Proof.
  unfold names_603. intros H. apply (in_map (fun n => n)) in H. cbn in H.
  repeat destruct H as [<- | H]; [eexists; split; [reflexivity |]; split; [reflexivity |]; split; [reflexivity |]; intros; eexists; reflexivity .. | destruct H].
Qed.

Lemma case_603_yields : yields (S:=S) sound_603 case_603.
Proof.
  unfold case_603. eapply yields_bind; [apply yields_choice; discriminate |]. cbn beta. intros name Hname.
  destruct (named name Hname) as (op & Eop & Htotal & Hmask & Henc).
  eapply yields_bind; [apply (yields_lift (eq op) _ op Eop eq_refl) |]. intros ? <-.
  eapply (yields_bind (fun s => s = true -> dict_mem AFORM name = true));
    [apply yields_if; intros Hd; [eapply yields_imp; [apply coin_any | auto] | apply yields_ret; discriminate] |].
  cbn beta. intros single Hsingle.
  eapply (yields_bind (fun e => e = true -> name = "frsp"%string));
    [apply yields_if; intros Hd; [eapply yields_imp; [apply coin_any | intros ? _ _; apply String.eqb_eq, Hd]
                                 | apply yields_ret; discriminate] |].
  cbn beta. intros edge Hedge.
  eapply (yields_bind (operands_ok single)).
  { apply yields_if; intros He; [| apply drawn_sources_ok].
    apply Hedge in He. subst name. destruct single; [discriminate (Hsingle eq_refl) | apply edge_source_ok]. }
  intros [[a b] c] [Hw He]. eapply yields_bind; [apply draw_modes_ok |]. intros [[e n] rn] (Hem & Hn & Hrn).
  destruct (old_word_spec single e n rn Hem Hn Hrn) as (Hold & Hfield & Hk). rewrite Hk.
  destruct (arithmetic_total op a b c rn (fpscr_controls single (old_word e n rn)) Htotal) as [exp Eexp].
  eapply yields_bind; [apply (yields_lift (eq exp) _ exp Eexp eq_refl) |]. intros ? <-.
  eapply yields_bind; [apply draw_control_ok |]. intros [fe' rc'] [Hfe Hrc].
  destruct (Henc single rc') as [w Ew]. unfold case_603_of. rewrite Ew, Hmask.
  eapply yields_lift; [reflexivity |]. exists name, op, single, exp.
  destruct (old_word_spec true e n rn Hem Hn Hrn) as (_ & _ & Hk1). apply (f_equal oe) in Hk1. cbn in Hk1.
  constructor; cbn [insn ra rb rc_ old fe exc write result mask new fmask rc cr1];
    [exact Eop | exact Ew | rewrite Hfield; exact Eexp | exact He | exact Hw | exact Hold | exact Hfe | exact Hrc
    | reflexivity | reflexivity | destruct (str_in op _); reflexivity | reflexivity | rewrite Hk1; reflexivity
    | reflexivity |].
  change (truthy (Z.land (Z.shiftr ?v 30) 1)) with (bit_at v 30). rewrite bit_at_testbit by lia. reflexivity.
Qed.

(** C34. A random case is the model's answer, whatever the draws. For every source of
    draws within their ranges, [case_603] returns (or its rejection loop is out of
    fuel; it never raises), and the case it returns carries an instruction, operands
    that are 64-bit words, exact singles for a single instruction, a status word, and
    expectations that are the PowerPC model's for that status word: the enables, NI
    and RN it passes to the model are the bits of the word it writes to the FPSCR, and
    the exception is expected exactly when MSR[FE] is not zero and FEX is set. *)
Theorem case_603_sound s s' r :
  case_603 (S:=S) s = (s', r) -> match r with Ok k => sound_603 k | Raise e => e = OutOfFuel end.
Proof. intros E. pose proof (case_603_yields s) as H. rewrite E in H. exact H. Qed.
End Case603.

(** The first case of the default seed of the core program. *)
Lemma case_603_sound_witness :
  exists s' k, case_603 (mersenne.Random_ 0x603e) = (s', Ok k) /\ insn k = 4236316922 /\ sound_603 k.
Proof.
  assert (Hok : match snd (case_603 (mersenne.Random_ 0x603e)) with Ok k => insn k =? 4236316922 | Raise _ => false end = true)
    by (vm_compute; reflexivity).
  destruct (case_603 (mersenne.Random_ 0x603e)) as [s' r] eqn:E. cbn [snd] in Hok.
  pose proof (case_603_sound _ _ _ E) as H. destruct r as [k | e]; [| discriminate].
  exists s', k. repeat split; [apply Z.eqb_eq, Hok | exact H].
Defined.
