(* ===== verification/SelftestInsn.v ===== *)
(** * The self-test instructions ([toolchain/demo/selftest/gen.py])

    The memory map, the architectural state of the opcode self-test, and the
    instruction constructors: each gives the word and the fields the model
    reads. The assembler text of an instruction is left out. *)
From S2P Require Import Prelude FpReference FpPpc FpStatus.

Module selftest_insn.
#[local] Open Scope string_scope.
#[local] Open Scope Z_scope.

Definition M32 : Z := 0xFFFFFFFF.

(** ** Memory map *)
Definition SCRATCH : Z := 0xFFF3C000.
Definition BUF : Z := SCRATCH.
Definition BUF_WORDS : Z := 64.
Definition STUB : Z := SCRATCH + 0x800.
Definition RO_EA : Z := 0x10020000.
Definition RO_PA : Z := 0xFFF20000.
Definition BAT_BYTES : Z := 0x20000.
Definition NX_EA : Z := 0x20020000.
Definition DIRECT_EA : Z := 0x30000000.
Definition MISS_EA : Z := 0x40000000.
Definition IO_EA : Z := 0xF0100FE0.

Definition MSR_EE : Z := 0x8000.
Definition MSR_PR : Z := 0x4000.
Definition MSR_FP : Z := 0x2000.
Definition MSR_ME : Z := 0x1000.
Definition MSR_IP : Z := 0x40.
Definition MSR_IR : Z := 0x20.
Definition MSR_DR : Z := 0x10.
Definition MSR_TGPR : Z := 0x20000.
Definition MSR_FE0 : Z := 0x800.
Definition MSR_FE1 : Z := 0x100.
Definition MSR_SUP : Z := Z.lor (Z.lor (Z.lor MSR_ME MSR_IP) MSR_IR) MSR_DR.
Definition MSR_USER : Z := Z.lor MSR_SUP MSR_PR.
Definition MSR_FPU : Z := Z.lor MSR_SUP MSR_FP.

Definition P_ILLEGAL : Z := 0x00080000.
Definition P_PRIV : Z := 0x00040000.
Definition P_TRAP : Z := 0x00020000.
Definition P_FPE : Z := 0x00100000.

(** [VARIANTS]: the ISA name, the PVR version, EAR, and the EA + 4 rule. *)
Record variant : Type := { isa : string; pvr : Z; has_ear : bool; multiple_dar_plus4 : bool }.
Definition v603e : variant := {| isa := "PID7v-603e"; pvr := 0x00070000; has_ear := true; multiple_dar_plus4 := true |}.
Definition v602 : variant := {| isa := "602"; pvr := 0x00050000; has_ear := false; multiple_dar_plus4 := false |}.

(** ** Words *)
Definition s32 (x : Z) : Z :=
  let x := Z.land x M32 in if truthy (Z.land x 0x80000000) then x - Z.shiftl 1 32 else x.

Definition rotl (x n : Z) : Z :=
  let n := Z.land n 31 in
  let x := Z.land x M32 in
  if truthy n then Z.land (Z.lor (Z.shiftl x n) (Z.shiftr x (32 - n))) M32 else x.

Fixpoint mask_from (fuel : nat) (i me m : Z) : result Z :=
  match fuel with
  | O => Raise OutOfFuel
  | S fuel' =>
      let m := Z.lor m (Z.shiftl 1 (31 - i)) in
      if i =? me then Ok m else mask_from fuel' (Z.land (i + 1) 31) me m
  end.
Definition mask (mb me : Z) : result Z := mask_from 32 mb me 0.

(** [s32(imm << 16) >> 16] *)
Definition simm (imm : Z) : Z := Z.shiftr (s32 (Z.shiftl imm 16)) 16.

(** ** State *)

(** A register holds an integer, [None] (not predicted), an address relative to
    the case, a value with a mask, or an absolute address. *)
Inductive val : Type := Int (z : Z) | Undef | Rel (z : Z) | Masked (v m : Z) | Abs (z : Z).

#[export] Instance val_eq_dec : EqDecision val.
Proof. solve_decision. Defined.

Record State : Type := {
  gpr : list val; cr : Z; xer : Z; lr : val; ctr : val; msr : Z; srr0 : val; srr1 : val; dar : val; dsisr : val;
  sprg : list val; sr : list val; ear : Z; mem : list Z; fpr : list Z; fpscr : Z;
  resv : option Z; dontcare : gmap string Z; backing : gmap Z (list Z); icbi : option Z; vec : Z
}.

(** Where control goes next: an offset in the case, an absolute address, or the
    routine [st_abs]. *)
Inductive target : Type := Off (z : Z) | Where (z : Z) | StAbs.

(** ** Instructions *)

(** [f] holds the integer fields; the flags and the tags of [Insn.f] are fields
    of their own. [status] is the ISA matrix entry by ISA name. *)
Record Insn : Type := {
  word : Z; m : string; f : dict Z; kind : option string; xform : bool; status : option (dict string);
  priv : bool; fp : bool; fpop : bool; branch_to : option target; sem : option (State -> result State)
}.

(** [Insn(word, text, m, **f)] *)
Definition mk (w : Z) (m0 : string) (fields : dict Z) : Insn :=
  {| word := Z.land w M32; m := m0; f := fields; kind := None; xform := false; status := None; priv := false;
     fp := false; fpop := false; branch_to := None; sem := None |}.
Definition with_kind (k : string) (x : bool) (fields : dict Z) (i : Insn) : Insn :=
  {| word := word i; m := m i; f := (fields ++ f i)%list; kind := Some k; xform := x; status := status i; priv := priv i;
     fp := fp i; fpop := fpop i; branch_to := branch_to i; sem := sem i |}.
Definition with_m (m0 : string) (i : Insn) : Insn :=
  {| word := word i; m := m0; f := f i; kind := kind i; xform := xform i; status := status i; priv := priv i;
     fp := fp i; fpop := fpop i; branch_to := branch_to i; sem := sem i |}.
Definition with_xform (x : bool) (i : Insn) : Insn :=
  {| word := word i; m := m i; f := f i; kind := kind i; xform := x; status := status i; priv := priv i;
     fp := fp i; fpop := fpop i; branch_to := branch_to i; sem := sem i |}.
Definition with_status (st : option (dict string)) (p : bool) (i : Insn) : Insn :=
  {| word := word i; m := m i; f := f i; kind := kind i; xform := xform i; status := st; priv := p;
     fp := fp i; fpop := fpop i; branch_to := branch_to i; sem := sem i |}.
Definition with_target (t : target) (i : Insn) : Insn :=
  {| word := word i; m := m i; f := f i; kind := kind i; xform := xform i; status := status i; priv := priv i;
     fp := fp i; fpop := fpop i; branch_to := Some t; sem := sem i |}.

Definition UNARY : list string := ["addme"; "addze"; "subfme"; "subfze"; "neg"].
Definition XO_OPS : dict Z :=
  [("add", 266); ("addc", 10); ("adde", 138); ("addme", 234); ("addze", 202); ("subf", 40); ("subfc", 8);
   ("subfe", 136); ("subfme", 232); ("subfze", 200); ("neg", 104); ("mullw", 235); ("mulhw", 75); ("mulhwu", 11);
   ("divw", 491); ("divwu", 459)].
Definition LOG_OPS : dict Z :=
  [("and", 28); ("andc", 60); ("or", 444); ("orc", 412); ("xor", 316); ("nand", 476); ("nor", 124); ("eqv", 284);
   ("slw", 24); ("srw", 536); ("sraw", 792)].
Definition UN_OPS : dict Z := [("extsb", 954); ("extsh", 922); ("cntlzw", 26)].
Definition CR_OPS : dict Z :=
  [("crand", 257); ("crandc", 129); ("creqv", 289); ("crnand", 225); ("crnor", 33); ("cror", 449); ("crorc", 417);
   ("crxor", 193)].

(** [D[k]] *)
Definition item {V} (d : dict V) (k : string) : result V :=
  match dict_get d k with Some v => Ok v | None => Raise KeyError end.

Definition d_form (m0 : string) (op rt ra imm : Z) : Insn :=
  mk (ors [Z.shiftl op 26; Z.shiftl rt 21; Z.shiftl ra 16; Z.land imm 0xFFFF]) m0
     [("rt", rt); ("ra", ra); ("imm", Z.land imm 0xFFFF); ("op", op)].

Definition d_mem (m0 : string) (op rt d ra : Z) : Insn :=
  mk (ors [Z.shiftl op 26; Z.shiftl rt 21; Z.shiftl ra 16; Z.land d 0xFFFF]) m0
     [("rt", rt); ("ra", ra); ("imm", Z.land d 0xFFFF); ("op", op)].

Definition x_form (m0 : string) (xo rt ra rb rc : Z) : Insn :=
  mk (ors [Z.shiftl 31 26; Z.shiftl rt 21; Z.shiftl ra 16; Z.shiftl rb 11; Z.shiftl xo 1; rc]) m0
     [("rt", rt); ("ra", ra); ("rb", rb); ("rc", rc); ("xo", xo); ("oe", 0)].

Definition xo_form (m0 : string) (xo rt ra rb oe rc : Z) : Insn :=
  mk (ors [Z.shiftl 31 26; Z.shiftl rt 21; Z.shiftl ra 16; Z.shiftl rb 11; Z.shiftl oe 10; Z.shiftl xo 1; rc]) m0
     [("rt", rt); ("ra", ra); ("rb", rb); ("oe", oe); ("rc", rc); ("xo", xo)].

Definition xo (m0 : string) (rt ra rb oe rc : Z) : result Insn :=
  let! x := item XO_OPS m0 in Ok (xo_form m0 x rt ra rb oe rc).

Definition logx (m0 : string) (ra rs rb rc : Z) : result Insn :=
  let! x := item LOG_OPS m0 in
  Ok (mk (ors [Z.shiftl 31 26; Z.shiftl rs 21; Z.shiftl ra 16; Z.shiftl rb 11; Z.shiftl x 1; rc]) m0
        [("rs", rs); ("ra", ra); ("rb", rb); ("rc", rc); ("oe", 0)]).

Definition unx (m0 : string) (ra rs rc : Z) : result Insn :=
  let! x := item UN_OPS m0 in
  Ok (mk (ors [Z.shiftl 31 26; Z.shiftl rs 21; Z.shiftl ra 16; Z.shiftl x 1; rc]) m0
        [("rs", rs); ("ra", ra); ("rc", rc); ("oe", 0)]).

Definition srawi (ra rs sh rc : Z) : Insn :=
  mk (ors [Z.shiftl 31 26; Z.shiftl rs 21; Z.shiftl ra 16; Z.shiftl sh 11; Z.shiftl 824 1; rc]) "srawi"
     [("rs", rs); ("ra", ra); ("sh", sh); ("rc", rc); ("oe", 0)].

Definition dimm (m0 : string) (op rt ra imm : Z) : Insn := d_form m0 op rt ra imm.

Definition dlog (m0 : string) (op ra rs uimm : Z) : Insn :=
  mk (ors [Z.shiftl op 26; Z.shiftl rs 21; Z.shiftl ra 16; Z.land uimm 0xFFFF]) m0
     [("rs", rs); ("ra", ra); ("imm", Z.land uimm 0xFFFF); ("rc", 0)].

Definition mform (m0 : string) (op rs ra sh_rb mb me rc : Z) : Insn :=
  mk (ors [Z.shiftl op 26; Z.shiftl rs 21; Z.shiftl ra 16; Z.shiftl sh_rb 11; Z.shiftl mb 6; Z.shiftl me 1; rc]) m0
     [("rs", rs); ("ra", ra); ("sh", sh_rb); ("mb", mb); ("me", me); ("rc", rc)].

Definition cmp_ (m0 : string) (bf ra rb_imm : Z) : Insn :=
  if str_in m0 ["cmp"; "cmpl"] then
    mk (ors [Z.shiftl 31 26; Z.shiftl bf 23; Z.shiftl ra 16; Z.shiftl rb_imm 11;
             Z.shiftl (if String.eqb m0 "cmp" then 0 else 32) 1]) m0
       [("bf", bf); ("ra", ra); ("rb", rb_imm)]
  else
    let op := if String.eqb m0 "cmpi" then 11 else 10 in
    mk (ors [Z.shiftl op 26; Z.shiftl bf 23; Z.shiftl ra 16; Z.land rb_imm 0xFFFF]) m0
       [("bf", bf); ("ra", ra); ("imm", Z.land rb_imm 0xFFFF)].

Definition xl (m0 : string) (xo_ a b c lk : Z) : Insn :=
  mk (ors [Z.shiftl 19 26; Z.shiftl a 21; Z.shiftl b 16; Z.shiftl c 11; Z.shiftl xo_ 1; lk]) m0
     [("a", a); ("b", b); ("c", c); ("lk", lk)].

Definition spr_field (spr : Z) : Z := Z.lor (Z.shiftl (Z.land spr 0x1F) 5) (Z.shiftr spr 5).
Definition mfspr (rt spr : Z) : Insn :=
  mk (ors [Z.shiftl 31 26; Z.shiftl rt 21; Z.shiftl (spr_field spr) 11; Z.shiftl 339 1]) "mfspr" [("rt", rt); ("spr", spr)].
Definition mtspr (spr rs : Z) : Insn :=
  mk (ors [Z.shiftl 31 26; Z.shiftl rs 21; Z.shiftl (spr_field spr) 11; Z.shiftl 467 1]) "mtspr" [("rs", rs); ("spr", spr)].
Definition mftb (rt tbr : Z) : Insn :=
  mk (ors [Z.shiftl 31 26; Z.shiftl rt 21; Z.shiftl (spr_field tbr) 11; Z.shiftl 371 1]) "mftb" [("rt", rt); ("spr", tbr)].

Definition raw (m0 : string) (w : Z) (fields : dict Z) : Insn := mk w m0 fields.

(** Load and store opcodes: opcode or extended opcode, bytes, kind. *)
Definition LS_D : dict (Z * Z * string) :=
  [("lwz", (32, 4, "l")); ("lwzu", (33, 4, "lu")); ("lbz", (34, 1, "l")); ("lbzu", (35, 1, "lu"));
   ("stw", (36, 4, "s")); ("stwu", (37, 4, "su")); ("stb", (38, 1, "s")); ("stbu", (39, 1, "su"));
   ("lhz", (40, 2, "l")); ("lhzu", (41, 2, "lu")); ("lha", (42, 2, "la")); ("lhau", (43, 2, "lau"));
   ("sth", (44, 2, "s")); ("sthu", (45, 2, "su")); ("lmw", (46, 4, "lm")); ("stmw", (47, 4, "sm"))].
Definition LS_X : dict (Z * Z * string) :=
  [("lwzx", (23, 4, "l")); ("lwzux", (55, 4, "lu")); ("lbzx", (87, 1, "l")); ("lbzux", (119, 1, "lu"));
   ("stwx", (151, 4, "s")); ("stwux", (183, 4, "su")); ("stbx", (215, 1, "s")); ("stbux", (247, 1, "su"));
   ("lhzx", (279, 2, "l")); ("lhzux", (311, 2, "lu")); ("lhax", (343, 2, "la")); ("lhaux", (375, 2, "lau"));
   ("sthx", (407, 2, "s")); ("sthux", (439, 2, "su")); ("lhbrx", (790, 2, "lbr")); ("lwbrx", (534, 4, "lbr"));
   ("sthbrx", (918, 2, "sbr")); ("stwbrx", (662, 4, "sbr")); ("lwarx", (20, 4, "larx")); ("stwcx.", (150, 4, "stcx"));
   ("lswx", (533, 0, "lsx")); ("stswx", (661, 0, "ssx")); ("eciwx", (310, 4, "eci")); ("ecowx", (438, 4, "eco"))].

Definition ldst (m0 : string) (rt d ra : Z) : result Insn :=
  let! (op, n, k) := item LS_D m0 in
  Ok (with_kind k false [("n", n)] (d_mem m0 op rt d ra)).

(** [m.rstrip(".")] *)
Fixpoint rstrip_dot (s : string) : string :=
  match s with
  | EmptyString => EmptyString
  | String c s' =>
      let t := rstrip_dot s' in
      if String.eqb t "" && String.eqb (String c EmptyString) "." then "" else String c t
  end.

Definition ldstx (m0 : string) (rt ra rb : Z) : result Insn :=
  let! (xo_, n, k) := item LS_X m0 in
  let rc := if String.eqb m0 "stwcx." then 1 else 0 in
  Ok (with_kind k true [("n", n)] (with_m m0 (x_form (rstrip_dot m0) xo_ rt ra rb rc))).

(** [nb or 32] *)
Definition or_32 (nb : Z) : Z := if truthy nb then nb else 32.
Definition lswi (rt ra nb : Z) : Insn :=
  with_kind "lsi" true [("nb", or_32 nb)] (x_form "lswi" 597 rt ra (Z.land nb 31) 0).
Definition stswi (rs ra nb : Z) : Insn :=
  with_kind "ssi" true [("nb", or_32 nb)] (x_form "stswi" 725 rs ra (Z.land nb 31) 0).

Definition CACHE_OPS : dict Z :=
  [("dcbf", 86); ("dcbi", 470); ("dcbst", 54); ("dcbt", 278); ("dcbtst", 246); ("dcbz", 1014); ("icbi", 982)].
Definition cache (m0 : string) (ra rb : Z) : result Insn :=
  let! x := item CACHE_OPS m0 in Ok (with_xform true (x_form m0 x 0 ra rb 0)).

Definition b_ (off lk : Z) : Insn := with_target (Off off) (mk 0 "b" [("lk", lk); ("aa", 0)]).
Definition bc (bo bi off lk : Z) : Insn :=
  with_target (Off off) (mk 0 "bc" [("bo", bo); ("bi", bi); ("lk", lk); ("aa", 0)]).
(** [i.f.update(bo=bo, bi=bi)] *)
Definition with_fields (fields : dict Z) (i : Insn) : Insn :=
  {| word := word i; m := m i; f := (fields ++ f i)%list; kind := kind i; xform := xform i; status := status i;
     priv := priv i; fp := fp i; fpop := fpop i; branch_to := branch_to i; sem := sem i |}.
Definition bclr (bo bi lk : Z) : Insn := with_fields [("bo", bo); ("bi", bi)] (xl "bclr" 16 bo bi 0 lk).
Definition bcctr (bo bi lk : Z) : Insn := with_fields [("bo", bo); ("bi", bi)] (xl "bcctr" 528 bo bi 0 lk).

Definition tw (to ra rb : Z) : Insn := x_form "tw" 4 to ra rb 0.
Definition twi (to ra simm0 : Z) : Insn :=
  mk (ors [Z.shiftl 3 26; Z.shiftl to 21; Z.shiftl ra 16; Z.land simm0 0xFFFF]) "twi"
     [("rt", to); ("ra", ra); ("imm", Z.land simm0 0xFFFF)].

Definition SC : Insn := raw "sc" 0x44000002 [].
Definition RFI : Insn := raw "rfi" 0x4C000064 [].
Definition ISYNC : Insn := raw "isync" 0x4C00012C [].
Definition SYNC : Insn := raw "sync" 0x7C0004AC [].
Definition EIEIO : Insn := raw "eieio" 0x7C0006AC [].
Definition TLBSYNC : Insn := raw "tlbsync" 0x7C00046C [].

Definition mfmsr (rt : Z) : Insn := raw "mfmsr" (ors [Z.shiftl 31 26; Z.shiftl rt 21; Z.shiftl 83 1]) [("rt", rt)].
Definition mtmsr (rs : Z) : Insn := raw "mtmsr" (ors [Z.shiftl 31 26; Z.shiftl rs 21; Z.shiftl 146 1]) [("rs", rs)].
Definition mfcr (rt : Z) : Insn := raw "mfcr" (ors [Z.shiftl 31 26; Z.shiftl rt 21; Z.shiftl 19 1]) [("rt", rt)].
Definition mtcrf (fxm rs : Z) : Insn :=
  raw "mtcrf" (ors [Z.shiftl 31 26; Z.shiftl rs 21; Z.shiftl fxm 12; Z.shiftl 144 1]) [("rs", rs); ("fxm", fxm)].
Definition mcrxr (bf : Z) : Insn := raw "mcrxr" (ors [Z.shiftl 31 26; Z.shiftl bf 23; Z.shiftl 512 1]) [("bf", bf)].
Definition mcrf (bf bfa : Z) : Insn :=
  raw "mcrf" (ors [Z.shiftl 19 26; Z.shiftl bf 23; Z.shiftl bfa 18]) [("bf", bf); ("bfa", bfa)].
Definition mfsr (rt sr0 : Z) : Insn :=
  raw "mfsr" (ors [Z.shiftl 31 26; Z.shiftl rt 21; Z.shiftl sr0 16; Z.shiftl 595 1]) [("rt", rt); ("sr", sr0)].
Definition mtsr (sr0 rs : Z) : Insn :=
  raw "mtsr" (ors [Z.shiftl 31 26; Z.shiftl rs 21; Z.shiftl sr0 16; Z.shiftl 210 1]) [("rs", rs); ("sr", sr0)].
Definition mfsrin (rt rb : Z) : Insn :=
  raw "mfsrin" (ors [Z.shiftl 31 26; Z.shiftl rt 21; Z.shiftl rb 11; Z.shiftl 659 1]) [("rt", rt); ("rb", rb)].
Definition mtsrin (rs rb : Z) : Insn :=
  raw "mtsrin" (ors [Z.shiftl 31 26; Z.shiftl rs 21; Z.shiftl rb 11; Z.shiftl 242 1]) [("rs", rs); ("rb", rb)].
Definition tlbie (rb : Z) : Insn := raw "tlbie" (ors [Z.shiftl 31 26; Z.shiftl rb 11; Z.shiftl 306 1]) [("rb", rb)].
Definition tlbld (rb : Z) : Insn := raw "tlbld" (ors [Z.shiftl 31 26; Z.shiftl rb 11; Z.shiftl 978 1]) [("rb", rb)].
Definition tlbli (rb : Z) : Insn := raw "tlbli" (ors [Z.shiftl 31 26; Z.shiftl rb 11; Z.shiftl 1010 1]) [("rb", rb)].

(** SPRs by number. *)
Definition SPRS : list (Z * string) :=
  [(1, "xer"); (8, "lr"); (9, "ctr"); (18, "dsisr"); (19, "dar"); (26, "srr0"); (27, "srr1"); (272, "sprg0");
   (273, "sprg1"); (274, "sprg2"); (275, "sprg3"); (282, "ear"); (287, "pvr")].

(** ** Floating-point instructions and conversions *)

(** [lfs]: the normalising loop moves the leading bit to bit 23. *)
Fixpoint normalise (fuel : nat) (frac x : Z) : result (Z * Z) :=
  match fuel with
  | O => Raise OutOfFuel
  | S fuel' =>
      if truthy (Z.land frac 0x800000) then Ok (frac, x) else normalise fuel' (Z.shiftl frac 1) (x - 1)
  end.
Definition single_to_double (w : Z) : result Z :=
  let s := Z.shiftr w 31 in
  let e := Z.land (Z.shiftr w 23) 0xFF in
  let frac := Z.land w 0x7FFFFF in
  if e =? 0xFF then Ok (ors [Z.shiftl s 63; Z.shiftl 0x7FF 52; Z.shiftl frac 29])
  else if e =? 0 then
    if negb (truthy frac) then Ok (Z.shiftl s 63)
    else
      let! (frac, x) := normalise 24 frac (-126) in
      Ok (ors [Z.shiftl s 63; Z.shiftl (x + 1023) 52; Z.shiftl (Z.land frac 0x7FFFFF) 29])
  else Ok (ors [Z.shiftl s 63; Z.shiftl (e - 127 + 1023) 52; Z.shiftl frac 29]).

(** [stfs]: the denormalising loop, at most 23 turns. *)
Fixpoint denormalise (fuel : nat) (frac x : Z) : result Z :=
  if x <? -126 then
    match fuel with
    | O => Raise OutOfFuel
    | S fuel' => denormalise fuel' (Z.shiftr frac 1) (x + 1)
    end
  else Ok frac.
Definition double_to_single (v : Z) : result Z :=
  let e := Z.land (Z.shiftr v 52) 0x7FF in
  if (874 <=? e) && (e <=? 896) then
    let! frac := denormalise 23 (Z.lor (Z.shiftl 1 52) (Z.land v (Z.shiftl 1 52 - 1))) (e - 1023) in
    Ok (Z.lor (Z.shiftl (Z.shiftr v 63) 31) (Z.land (Z.shiftr frac 29) 0x7FFFFF))
  else Ok (Z.lor (Z.shiftl (Z.shiftr v 62) 30) (Z.land (Z.shiftr v 29) 0x3FFFFFFF)).

Definition FP_EXC_BITS : Z :=
  Z.lor (Z.lor (Z.shiftl 1 31) (Z.shiftl 0xF 25))
        (fold_left (fun s b => s + Z.shiftl 1 b) enabled_vectors.INVALID_BITS 0).

(** FPSCR with VX and FEX recomputed. *)
Definition fp_summary (v : Z) : Z :=
  let vx := existsb (fun b => enabled_vectors.bit_at v b) enabled_vectors.INVALID_BITS in
  let v := Z.lor (Z.land v (Z.lnot (Z.shiftl 1 29))) (Z.shiftl (Z.b2z vx) 29) in
  let fex := existsb (fun p => enabled_vectors.enabled_cause v (fst p) (snd p))
               [(29, 7); (28, 6); (27, 5); (26, 4); (25, 3)] in
  Z.lor (Z.land v (Z.lnot (Z.shiftl 1 30))) (Z.shiftl (Z.b2z fex) 30).

Definition FP_ORACLE : dict (string * bool) :=
  [("fadd", ("add", false)); ("fsub", ("sub", false)); ("fmul", ("mul", false)); ("fdiv", ("div", false));
   ("fmadd", ("madd", false)); ("fmsub", ("msub", false)); ("fnmadd", ("nmadd", false)); ("fnmsub", ("nmsub", false));
   ("frsp", ("frsp", false)); ("fctiw", ("fctiw", false)); ("fctiwz", ("fctiwz", false));
   ("fadds", ("add", true)); ("fsubs", ("sub", true)); ("fmuls", ("mul", true)); ("fdivs", ("div", true));
   ("fmadds", ("madd", true)); ("fmsubs", ("msub", true)); ("fnmadds", ("nmadd", true)); ("fnmsubs", ("nmsub", true))].
Definition FP_A_XO : dict Z :=
  [("fdiv", 18); ("fsub", 20); ("fadd", 21); ("fsel", 23); ("fres", 24); ("fmul", 25); ("frsqrte", 26); ("fmsub", 28);
   ("fmadd", 29); ("fnmsub", 30); ("fnmadd", 31)].
Definition FP_X_XO : dict Z :=
  [("fcmpu", 0); ("frsp", 12); ("fctiw", 14); ("fctiwz", 15); ("fcmpo", 32); ("mtfsb1", 38); ("fneg", 40);
   ("mcrfs", 64); ("mtfsb0", 70); ("fmr", 72); ("mtfsfi", 134); ("fnabs", 136); ("fabs", 264); ("mffs", 583);
   ("mtfsf", 711)].
Definition FP_MEM_D : dict Z :=
  [("lfs", 48); ("lfsu", 49); ("lfd", 50); ("lfdu", 51); ("stfs", 52); ("stfsu", 53); ("stfd", 54); ("stfdu", 55)].
Definition FP_MEM_X : dict Z :=
  [("lfsx", 535); ("lfsux", 567); ("lfdx", 599); ("lfdux", 631); ("stfsx", 663); ("stfsux", 695); ("stfdx", 727);
   ("stfdux", 759); ("stfiwx", 983)].

(** [base[:-1]] *)
Definition drop_last (s : string) : string := String.substring 0 (String.length s - 1) s.
(** [m.endswith(suffix)] *)
Definition endswith (s suffix : string) : bool :=
  (String.length suffix <=? String.length s)%nat &&
  String.eqb (String.substring (String.length s - String.length suffix) (String.length suffix) s) suffix.
Definition startswith (s p : string) : bool := String.prefix p s.

Definition fpi_word (base : string) (rc t a b c d : Z) : result Z :=
  match dict_get FP_MEM_D base with
  | Some op => Ok (ors [Z.shiftl op 26; Z.shiftl t 21; Z.shiftl a 16; Z.land d 0xFFFF])
  | None =>
  match dict_get FP_MEM_X base with
  | Some x => Ok (ors [Z.shiftl 31 26; Z.shiftl t 21; Z.shiftl a 16; Z.shiftl b 11; Z.shiftl x 1])
  | None =>
  match dict_get FP_X_XO base with
  | Some x => Ok (ors [Z.shiftl 63 26; Z.shiftl t 21; Z.shiftl a 16; Z.shiftl b 11; Z.shiftl x 1; rc])
  | None =>
      let single := match dict_get FP_ORACLE base with Some (_, s) => s | None => false end || String.eqb base "fres" in
      let! x := item FP_A_XO (if single && negb (String.eqb base "fres") then drop_last base else base) in
      Ok (ors [Z.shiftl (if single then 59 else 63) 26; Z.shiftl t 21; Z.shiftl a 16; Z.shiftl b 11; Z.shiftl c 6;
               Z.shiftl x 1; rc])
  end end end.

Definition fpi (m0 : string) (t a b c d w : Z) : result Insn :=
  let base := rstrip_dot m0 in
  let rc := Z.b2z (endswith m0 ".") in
  let! w0 := fpi_word base rc t a b c d in
  Ok {| word := Z.land (Z.lor w0 w) M32; m := m0; f := []; kind := None; xform := dict_mem FP_MEM_X base;
        status := None; priv := false; fp := true; fpop := true; branch_to := None; sem := None |}.

End selftest_insn.
