(* ===== verification/SelftestFloat.v ===== *)
(** * The self-test's floating-point conversions ([toolchain/demo/selftest/gen.py])

    [single_to_double] and [double_to_single] move bits between the two formats;
    here they are inverse on every word, NaNs included, and the first keeps the
    value the exact oracle reads. *)
From S2P Require Import Prelude FpReference SelftestInsn.
Import reference selftest_insn.

Section Conversions.

(** The fields of an encoded number, as a sum. *)
Lemma join3 s e f a b c :
  0 <= e < 2 ^ (a - b) -> 0 <= f < 2 ^ (b - c) -> 0 <= c -> c <= b -> b <= a ->
  ors [Z.shiftl s a; Z.shiftl e b; Z.shiftl f c] = s * 2 ^ a + e * 2 ^ b + f * 2 ^ c.
Proof.
  intros He Hf Hc Hb Ha. unfold ors. cbn [fold_left]. rewrite Z.lor_0_l, !Z.shiftl_mul_pow2 by lia.
  assert (Pa : 2 ^ a = 2 ^ (a - b) * 2 ^ b) by (rewrite <- Z.pow_add_r by lia; f_equal; lia).
  assert (Pb : 2 ^ b = 2 ^ (b - c) * 2 ^ c) by (rewrite <- Z.pow_add_r by lia; f_equal; lia).
  assert (0 < 2 ^ b) by (apply Z.pow_pos_nonneg; lia). assert (0 < 2 ^ c) by (apply Z.pow_pos_nonneg; lia).
  rewrite (lor_disjoint (s * 2 ^ a) (e * 2 ^ b) a); [| lia | apply Z.mod_mul; lia | nia].
  rewrite (lor_disjoint _ (f * 2 ^ c) b); [reflexivity | lia | | nia].
  replace (s * 2 ^ a + e * 2 ^ b) with ((s * 2 ^ (a - b) + e) * 2 ^ b) by (rewrite Pa; ring). apply Z.mod_mul. lia.
Qed.

Definition double (s e f : Z) : Z := s * 2 ^ 63 + e * 2 ^ 52 + f * 2 ^ 29.

Lemma join_double s e f :
  0 <= e < 2 ^ 11 -> 0 <= f < 2 ^ 23 -> ors [Z.shiftl s 63; Z.shiftl e 52; Z.shiftl f 29] = double s e f.
Proof. intros. apply (join3 s e f 63 52 29); lia. Qed.

(** The fields [double_to_single] reads. *)
Lemma double_fields s e f :
  0 <= s < 2 -> 0 <= e < 2 ^ 11 -> 0 <= f < 2 ^ 23 ->
  Z.land (Z.shiftr (double s e f) 52) 0x7FF = e /\ Z.shiftr (double s e f) 63 = s /\
  Z.land (double s e f) (Z.shiftl 1 52 - 1) = f * 2 ^ 29 /\
  Z.shiftr (double s e f) 62 = 2 * s + e / 2 ^ 10 /\
  Z.land (Z.shiftr (double s e f) 29) 0x3FFFFFFF = (e mod 2 ^ 7) * 2 ^ 23 + f.
Proof.
  intros Hs He Hf. unfold double. rewrite !Z.shiftr_div_pow2 by lia.
  change 0x7FF with (2 ^ 11 - 1). change (Z.shiftl 1 52 - 1) with (2 ^ 52 - 1). change 0x3FFFFFFF with (2 ^ 30 - 1).
  rewrite !land_ones_mod by lia. repeat split; word_lia.
Qed.

Lemma single_parts w :
  0 <= w < 2 ^ 32 ->
  exists s e f, 0 <= s < 2 /\ 0 <= e < 256 /\ 0 <= f < 2 ^ 23 /\ w = s * 2 ^ 31 + e * 2 ^ 23 + f /\
    Z.shiftr w 31 = s /\ Z.land (Z.shiftr w 23) 0xFF = e /\ Z.land w 0x7FFFFF = f.
Proof.
  intros Hw. exists (w / 2 ^ 31), ((w / 2 ^ 23) mod 2 ^ 8), (w mod 2 ^ 23). rewrite !Z.shiftr_div_pow2 by lia.
  change 0xFF with (2 ^ 8 - 1). change 0x7FFFFF with (2 ^ 23 - 1). rewrite !land_ones_mod by lia.
  repeat split; try reflexivity; word_lia.
Qed.

(** The two loops. *)
Lemma normalise_spec fuel k f x :
  0 <= k < Z.of_nat fuel -> 2 ^ 23 <= f * 2 ^ k < 2 ^ 24 -> normalise fuel f x = Ok (f * 2 ^ k, x - k).
Proof.
  revert k f x. induction fuel as [| fuel IH]; intros k f x Hk Hf; [lia |]. cbn [normalise].
  change 0x800000 with (Z.shiftl 1 23). rewrite truthy_land_bit by lia.
  destruct (Z.eq_dec k 0) as [-> | Hk0].
  - rewrite testbit_top by (rewrite Z.pow_0_r in Hf; change (2 ^ (23 + 1)) with (2 ^ 24); lia).
    rewrite Z.pow_0_r in *. destruct (Z.leb_spec (2 ^ 23) f); [| lia]. rewrite Z.mul_1_r, Z.sub_0_r. reflexivity.
  - assert (Hp : 2 ^ k = 2 * 2 ^ (k - 1)) by (rewrite <- Z.pow_succ_r by lia; f_equal; lia).
    assert (0 < 2 ^ (k - 1)) by (apply Z.pow_pos_nonneg; lia).
    rewrite testbit_top by (change (2 ^ (23 + 1)) with (2 ^ 24); nia).
    destruct (Z.leb_spec (2 ^ 23) f); [change (2 ^ 24) with (2 * 2 ^ 23) in Hf; nia |].
    rewrite Z.shiftl_mul_pow2, (IH (k - 1)) by (rewrite ?Z.pow_1_r; try nia; lia).
    rewrite Z.pow_1_r. assert (f * 2 * 2 ^ (k - 1) = f * 2 ^ k) as -> by (rewrite Hp; ring).
    assert (x - 1 - (k - 1) = x - k) as -> by lia. reflexivity.
Qed.

Lemma denormalise_spec fuel k f x :
  0 <= k <= Z.of_nat fuel -> x = -126 - k -> denormalise fuel f x = Ok (f / 2 ^ k).
Proof.
  revert k f x. induction fuel as [| fuel IH]; intros k f x Hk ->; cbn [denormalise];
    (destruct (Z.ltb_spec (-126 - k) (-126)); [| assert (k = 0) as -> by lia; rewrite Z.pow_0_r, Z.div_1_r; reflexivity]); [lia |].
  rewrite (IH (k - 1)) by lia. rewrite Z.shiftr_div_pow2, Z.pow_1_r, Z.div_div by (try apply Z.pow_pos_nonneg; lia).
  do 2 f_equal. rewrite <- Z.pow_succ_r by lia. f_equal. lia.
Qed.

(** [2 ^ 23 <= f * 2 ^ k < 2 ^ 24] for some [k] between 1 and 23. *)
Lemma leading_shift f : 0 < f < 2 ^ 23 -> exists k, 1 <= k <= 23 /\ 2 ^ 23 <= f * 2 ^ k < 2 ^ 24.
Proof.
  intros Hf. exists (23 - Z.log2 f). pose proof (Z.log2_spec f ltac:(lia)) as Hl.
  assert (Hlt : Z.log2 f < 23) by (apply Z.log2_lt_pow2; lia). pose proof (Z.log2_nonneg f).
  split; [lia |].
  assert (E : 2 ^ 23 = 2 ^ Z.log2 f * 2 ^ (23 - Z.log2 f)) by (rewrite <- Z.pow_add_r by lia; f_equal; lia).
  rewrite Z.pow_succ_r in Hl by lia. change (2 ^ 24) with (2 * 2 ^ 23). rewrite E.
  assert (0 < 2 ^ (23 - Z.log2 f)) by (apply Z.pow_pos_nonneg; lia). nia.
Qed.

(** What [single_to_double] returns: a field triple, with the exponent rebiased
    and a subnormal significand shifted up. *)
Lemma single_to_double_spec w :
  0 <= w < 2 ^ 32 ->
  exists s e f, w = s * 2 ^ 31 + e * 2 ^ 23 + f /\ 0 <= s < 2 /\ 0 <= e < 256 /\ 0 <= f < 2 ^ 23 /\
    ((e = 255 /\ single_to_double w = Ok (double s 0x7FF f)) \/
     (e = 0 /\ f = 0 /\ single_to_double w = Ok (double s 0 0)) \/
     (0 < e < 255 /\ single_to_double w = Ok (double s (e + 896) f)) \/
     exists k, e = 0 /\ 1 <= k <= 23 /\ 2 ^ 23 <= f * 2 ^ k < 2 ^ 24 /\
       single_to_double w = Ok (double s (897 - k) (f * 2 ^ k - 2 ^ 23))).
Proof.
  intros Hw. destruct (single_parts w Hw) as (s & e & f & Hs & He & Hf & E & E1 & E2 & E3).
  exists s, e, f. repeat (split; [assumption || lia |]). unfold single_to_double. rewrite E1, E2, E3.
  destruct (Z.eqb_spec e 0xFF) as [-> | H255].
  { left. split; [reflexivity |]. rewrite join_double by lia. reflexivity. }
  right. destruct (Z.eqb_spec e 0) as [-> | H0].
  2: { right. left. split; [lia |]. rewrite join_double by lia. do 2 f_equal. lia. }
  unfold truthy. destruct (Z.eqb_spec f 0) as [-> | Hf0]; cbn [negb].
  { left. repeat split; try lia. rewrite Z.shiftl_mul_pow2 by lia. unfold double. f_equal. lia. }
  right. right. destruct (leading_shift f ltac:(lia)) as (k & Hk & Hfk). exists k. repeat (split; [lia |]).
  rewrite (normalise_spec 24 k) by lia. cbn [fst snd].
  change 0x7FFFFF with (2 ^ 23 - 1). rewrite land_ones_mod by lia.
  assert ((f * 2 ^ k) mod 2 ^ 23 = f * 2 ^ k - 2 ^ 23) as ->.
  { symmetry. apply Z.mod_unique with 1; change (2 ^ 24) with (2 * 2 ^ 23) in Hfk; lia. }
  change (2 ^ 24) with (2 * 2 ^ 23) in Hfk. rewrite join_double by lia. do 2 f_equal. lia.
Qed.

(** A number of the single range packs back to its word. *)
Lemma double_to_single_normal s e f :
  0 <= s < 2 -> 0 <= e < 2 ^ 11 -> ~ (874 <= e <= 896) -> 0 <= f < 2 ^ 23 ->
  double_to_single (double s e f) = Ok (s * 2 ^ 31 + (e / 2 ^ 10) * 2 ^ 30 + (e mod 2 ^ 7) * 2 ^ 23 + f).
Proof.
  intros Hs He Hn Hf. destruct (double_fields s e f Hs He Hf) as (E1 & _ & _ & E2 & E3).
  unfold double_to_single. rewrite E1, E2, E3.
  destruct (Z.leb_spec 874 e), (Z.leb_spec e 896); cbn [andb]; try lia;
    (rewrite lor_shiftl_add by word_lia; f_equal; lia).
Qed.

Lemma double_to_single_subnormal s k f :
  0 <= s < 2 -> 1 <= k <= 23 -> 2 ^ 23 <= f * 2 ^ k < 2 ^ 24 -> 0 <= f < 2 ^ 23 ->
  double_to_single (double s (897 - k) (f * 2 ^ k - 2 ^ 23)) = Ok (s * 2 ^ 31 + f).
Proof.
  intros Hs Hk Hfk Hf. change (2 ^ 24) with (2 * 2 ^ 23) in Hfk.
  destruct (double_fields s (897 - k) (f * 2 ^ k - 2 ^ 23) Hs ltac:(lia) ltac:(lia)) as (E1 & E2 & E3 & _).
  unfold double_to_single. rewrite E1, E2, E3.
  destruct (Z.leb_spec 874 (897 - k)), (Z.leb_spec (897 - k) 896); try lia. cbn [andb].
  rewrite (denormalise_spec 23 k) by lia.
  assert (Hlow : 0 <= (f * 2 ^ k - 2 ^ 23) * 2 ^ 29 < 2 ^ 52) by (generalize dependent (f * 2 ^ k); intros; lia).
  change (Z.shiftl 1 52) with (1 * 2 ^ 52). rewrite (lor_disjoint (1 * 2 ^ 52) _ 52); [| lia | reflexivity | exact Hlow].
  replace (1 * 2 ^ 52 + (f * 2 ^ k - 2 ^ 23) * 2 ^ 29) with (f * 2 ^ 29 * 2 ^ k) by (change (2 ^ 52) with (2 ^ 23 * 2 ^ 29); ring).
  rewrite Z.div_mul by (apply Z.pow_nonzero; lia). rewrite Z.shiftr_div_pow2, Z.div_mul by lia.
  change 0x7FFFFF with (2 ^ 23 - 1). rewrite land_ones_mod, Z.mod_small, lor_shiftl_add by lia. reflexivity.
Qed.

Lemma double_range s e f : 0 <= s < 2 -> 0 <= e < 2 ^ 11 -> 0 <= f < 2 ^ 23 -> 0 <= double s e f < 2 ^ 64.
Proof. unfold double. lia. Qed.

(** ** Agreement with the exact oracle *)
Lemma double_assemble s e f :
  0 <= s <= 1 -> 0 <= e < 2 ^ 11 -> 0 <= f < 2 ^ 23 -> double s e f = assemble B64 s e (f * 2 ^ 29).
Proof.
  intros Hs He Hf. destruct b64_ok as [G1 G2]. rewrite assemble_sum; try assumption; try (cbn; lia).
  unfold double. change (signbit B64) with 63. change (fraction B64) with 52. ring.
Qed.

Lemma decode_double s e f :
  0 <= s <= 1 -> 0 < e < 2 ^ 11 - 1 -> 0 <= f < 2 ^ 23 ->
  decode (double s e f) B64 =
  {| d_kind := Finite; d_sign := s; d_sig := f * 2 ^ 29 + 2 ^ 52; d_exp := e - 1075 |}.
Proof.
  intros Hs He Hf. destruct b64_ok as [G1 G2]. rewrite double_assemble by lia.
  rewrite decode_assemble; try assumption; try (cbn; lia).
  change (2 ^ exponent B64) with (2 ^ 11). change (bias B64) with 1023. change (fraction B64) with 52.
  destruct (Z.eqb_spec e (2 ^ 11 - 1)); [lia |]. unfold truthy. destruct (Z.eqb_spec e 0); [lia |]. cbn [negb].
  f_equal; lia.
Qed.

Lemma single_assemble s e f :
  0 <= s <= 1 -> 0 <= e < 256 -> 0 <= f < 2 ^ 23 -> s * 2 ^ 31 + e * 2 ^ 23 + f = assemble B32 s e f.
Proof.
  intros Hs He Hf. destruct b32_ok as [G1 G2]. rewrite assemble_sum; try assumption; try (cbn; lia).
  change (signbit B32) with 31. change (fraction B32) with 23. ring.
Qed.

Lemma decode_single s e f :
  0 <= s <= 1 -> 0 <= e < 255 -> 0 <= f < 2 ^ 23 ->
  decode (assemble B32 s e f) B32 =
  {| d_kind := Finite; d_sign := s; d_sig := if truthy e then 2 ^ 23 + f else f;
     d_exp := (if truthy e then e else 1) - 150 |}.
Proof.
  intros Hs He Hf. destruct b32_ok as [G1 G2]. rewrite decode_assemble; try assumption; try (cbn; lia).
  change (2 ^ exponent B32) with 256. change (bias B32) with 127. change (fraction B32) with 23.
  destruct (Z.eqb_spec e (256 - 1)); [lia |]. f_equal. lia.
Qed.

(** A finite word of the same value is what the oracle packs. *)
Lemma convert_finite s n e d k rn :
  0 <= d < 2 ^ 64 -> 0 < n -> 0 <= k ->
  decode d B64 = {| d_kind := Finite; d_sign := s; d_sig := n * 2 ^ k; d_exp := e - k |} ->
  calc_convert {| d_kind := Finite; d_sign := s; d_sig := n; d_exp := e |} rn B32 B64 = plain d.
Proof.
  intros Hd Hn Hk E. destruct b64_ok as [G1 G2].
  pose proof (pack_decode B64 G1 G2 d rn Hd ltac:(rewrite E; reflexivity)) as P. rewrite E in P. cbn [d_sig d_exp d_sign] in P.
  rewrite pack_scale in P by lia. unfold calc_convert. cbn [d_kind d_sign d_sig d_exp is_nan is_inf].
  replace (e - k + k) with e in P by lia. rewrite P. reflexivity.
Qed.

Lemma convert_special s f rn :
  0 <= s <= 1 -> 0 <= f < 2 ^ 23 ->
  calc_convert (decode (assemble B32 s 255 f) B32) rn B32 B64 =
  with_invalid (if snan32 (assemble B32 s 255 f) then quiet (double s 2047 f) B64 else double s 2047 f)
               (snan32 (assemble B32 s 255 f)).
Proof.
  intros Hs Hf. unfold snan32. rewrite b32_special by assumption. cbn [d_kind].
  rewrite double_assemble by lia. unfold calc_convert. cbn [d_kind d_sign d_sig].
  destruct (Z.eqb_spec f 0) as [-> | Hf0].
  { cbn [truthy Z.eqb negb andb is_nan is_snan is_inf].
    assert (s = 0 \/ s = 1) as [-> | ->] by lia; reflexivity. }
  assert (truthy f = true) as -> by (unfold truthy; apply negb_true_iff, Z.eqb_neq; exact Hf0). cbn [andb].
  change (Z.shiftr f 22) with (Z.shiftr f (23 - 1)).
  assert (Hq : truthy (Z.shiftr f (23 - 1)) = true -> Z.lor f (Z.shiftl 1 22) = f) by (apply (quiet_idempotent f 22); [lia | exact Hf]).
  change (fraction B64 <=? fraction B32) with false. cbv iota.
  change (infinity B64) with (Z.shiftl 2047 52). change (fraction B64 - fraction B32) with 29. change (fraction B64 - 1) with 51.
  unfold assemble, quiet. change (signbit B64) with 63. change (fraction B64 - 1) with 51. change (fraction B64) with 52.
  destruct (truthy (Z.shiftr f (23 - 1))) eqn:Et; cbn [negb is_nan is_snan].
  - f_equal. rewrite Z.shiftl_mul_pow2 by lia. rewrite <- !Z.lor_assoc. do 2 f_equal.
    rewrite <- (Hq eq_refl) at 2. rewrite <- !Z.shiftl_mul_pow2, Z.shiftl_lor, Z.shiftl_shiftl by lia. reflexivity.
  - f_equal. rewrite <- Z.shiftl_mul_pow2 by lia. rewrite <- !Z.lor_assoc. reflexivity.
Qed.

(** [single_to_double] is the exact oracle's widening, for every word and in
    every rounding mode: the oracle raises no flag but the invalid one of a
    signalling NaN, which it makes quiet while [lfs] keeps it signalling. *)
Theorem single_to_double_agrees w rn :
  0 <= w < 2 ^ 32 ->
  exists d, single_to_double w = Ok d /\
    calculate "to64" w 0 rn B32 = Ok (with_invalid (if snan32 w then quiet d B64 else d) (snan32 w)).
Proof.
  intros Hw. destruct (single_to_double_spec w Hw) as (s & e & f & E & Hs & He & Hf & C).
  rewrite to64_unfold. rewrite single_assemble in E by lia.
  assert (Hfin : 0 <= e < 255 -> snan32 w = false).
  { intros. subst w. unfold snan32. rewrite decode_single by lia. reflexivity. }
  destruct C as [[-> R] | [(-> & -> & R) | [[H R] | (k & -> & Hk & Hfk & R)]]]; rewrite R; eexists; (split; [reflexivity |]);
    f_equal; subst w; [apply convert_special; lia | | |]; rewrite (Hfin ltac:(lia)), decode_single by lia; unfold truthy.
  - assert (s = 0 \/ s = 1) as [-> | ->] by lia; reflexivity.
  - destruct (Z.eqb_spec e 0); [lia |]. cbn [negb]. apply convert_finite with 29; [apply double_range; lia | lia | lia |].
    rewrite decode_double by lia. f_equal; lia.
  - cbn [Z.eqb negb]. change (2 ^ 24) with (2 * 2 ^ 23) in Hfk.
    apply convert_finite with (k + 29); [apply double_range; lia | | lia |].
    + destruct (Z.eq_dec f 0) as [-> |]; [lia | lia].
    + rewrite decode_double by lia. rewrite Z.pow_add_r by lia. f_equal; [| lia]. generalize dependent (2 ^ k). intros. lia.
Qed.

(** [double_to_single] inverts [single_to_double] on every 32-bit word: zeros,
    subnormals, normals, infinities and NaN payloads come back unchanged, and
    the conversion always returns a 64-bit word. *)
Theorem single_double_roundtrip w :
  0 <= w < 2 ^ 32 ->
  exists d, single_to_double w = Ok d /\ 0 <= d < 2 ^ 64 /\ double_to_single d = Ok w.
Proof.
  intros Hw. destruct (single_to_double_spec w Hw) as (s & e & f & E & Hs & He & Hf & C).
  destruct C as [[-> R] | [(-> & -> & R) | [[H R] | (k & -> & Hk & Hfk & R)]]]; rewrite R; eexists; (split; [reflexivity |]).
  4: { change (2 ^ 24) with (2 * 2 ^ 23) in Hfk. split; [apply double_range; lia |].
       rewrite double_to_single_subnormal by lia. f_equal. lia. }
  all: split; [apply double_range; lia |]; rewrite double_to_single_normal by lia; f_equal; subst w; word_lia.
Qed.

Lemma single_double_roundtrip_witness :
  exists d, single_to_double 0x00000003 = Ok d /\ 0 <= d < 2 ^ 64 /\ double_to_single d = Ok 3.
Proof. apply (single_double_roundtrip 3). lia. Defined.

Lemma single_to_double_agrees_witness :
  exists d, single_to_double 0x7f800001 = Ok d /\
    calculate "to64" 0x7f800001 0 2 B32 =
    Ok (with_invalid (if snan32 0x7f800001 then quiet d B64 else d) (snan32 0x7f800001)).
Proof. apply (single_to_double_agrees 0x7f800001 2). lia. Defined.

End Conversions.
