(* ===== verification/SelftestMachine.v ===== *)
(** * The self-test model ([Machine] of [toolchain/demo/selftest/gen.py])

    One instruction at a time over the architectural state: integer and
    floating-point execution, branches, loads, stores and cache operations, and
    the exceptions they take. A Python exception leaves the state as it was at
    the raise, so the state is threaded beside the outcome. *)
From stdpp Require Import pretty.
From S2P Require Import Prelude FpReference FpPpc FpStatus SelftestInsn.

Module selftest.
Import selftest_insn.
#[local] Open Scope string_scope.
#[local] Open Scope Z_scope.

(** [Trap]: an exception taken by the modelled instruction. *)
Record Trap : Type := {
  tvec : Z; flags : Z; t_dar : option Z; t_dsisr : option Z; dsisr_mask : Z; next_pc : bool; t_target : option val;
  srr1_mask : Z
}.
Definition trap (v fl : Z) : Trap :=
  {| tvec := v; flags := fl; t_dar := None; t_dsisr := None; dsisr_mask := M32; next_pc := false; t_target := None;
     srr1_mask := M32 |}.
Definition trap_data (v a ds mk : Z) : Trap :=
  {| tvec := v; flags := 0; t_dar := Some a; t_dsisr := Some ds; dsisr_mask := mk; next_pc := false; t_target := None;
     srr1_mask := M32 |}.

(** What a method call ends in: a value, a [Trap], or another exception. *)
Inductive outcome (A : Type) : Type := Done (a : A) | Trapped (t : Trap) | Failed (e : exn).
Arguments Done {A} a.
Arguments Trapped {A} t.
Arguments Failed {A} e.

Definition M (A : Type) : Type := State -> State * outcome A.
Definition ret {A} (a : A) : M A := fun s => (s, Done a).
Definition bind {A B} (x : M A) (k : A -> M B) : M B :=
  fun s => match x s with
           | (s', Done a) => k a s'
           | (s', Trapped t) => (s', Trapped t)
           | (s', Failed e) => (s', Failed e)
           end.
Definition raise_trap {A} (t : Trap) : M A := fun s => (s, Trapped t).
Definition fail {A} (e : exn) : M A := fun s => (s, Failed e).
Definition lift {A} (r : result A) : M A := match r with Ok a => ret a | Raise e => fail e end.
Definition get : M State := fun s => (s, Done s).
Definition modify (g : State -> State) : M unit := fun s => (g s, Done tt).

Notation "'let*' x ':=' m 'in' k" := (bind m (fun x => k))
  (at level 10, x pattern, m at level 100, k at level 200,
   format "'[v' 'let*'  x  ':='  m  'in' '/' k ']'") : py_scope.
Notation "m ;;; k" := (bind m (fun _ => k)) (at level 100, right associativity) : py_scope.

(** ** State updates *)
Definition set_gpr (x : list val) (s : State) : State :=
  {| gpr := x; cr := cr s; xer := xer s; lr := lr s; ctr := ctr s; msr := msr s; srr0 := srr0 s; srr1 := srr1 s;
     dar := dar s; dsisr := dsisr s; sprg := sprg s; sr := sr s; ear := ear s; mem := mem s; fpr := fpr s;
     fpscr := fpscr s; resv := resv s; dontcare := dontcare s; backing := backing s; icbi := icbi s; vec := vec s |}.
Definition set_cr (x : Z) (s : State) : State :=
  {| gpr := gpr s; cr := x; xer := xer s; lr := lr s; ctr := ctr s; msr := msr s; srr0 := srr0 s; srr1 := srr1
     s; dar := dar s; dsisr := dsisr s; sprg := sprg s; sr := sr s; ear := ear s; mem := mem s; fpr := fpr s;
     fpscr := fpscr s; resv := resv s; dontcare := dontcare s; backing := backing s; icbi := icbi s; vec := vec
     s |}.
Definition set_xer (x : Z) (s : State) : State :=
  {| gpr := gpr s; cr := cr s; xer := x; lr := lr s; ctr := ctr s; msr := msr s; srr0 := srr0 s; srr1 := srr1 s;
     dar := dar s; dsisr := dsisr s; sprg := sprg s; sr := sr s; ear := ear s; mem := mem s; fpr := fpr s; fpscr
     := fpscr s; resv := resv s; dontcare := dontcare s; backing := backing s; icbi := icbi s; vec := vec s |}.
Definition set_lr (x : val) (s : State) : State :=
  {| gpr := gpr s; cr := cr s; xer := xer s; lr := x; ctr := ctr s; msr := msr s; srr0 := srr0 s; srr1 := srr1
     s; dar := dar s; dsisr := dsisr s; sprg := sprg s; sr := sr s; ear := ear s; mem := mem s; fpr := fpr s;
     fpscr := fpscr s; resv := resv s; dontcare := dontcare s; backing := backing s; icbi := icbi s; vec := vec
     s |}.
Definition set_ctr (x : val) (s : State) : State :=
  {| gpr := gpr s; cr := cr s; xer := xer s; lr := lr s; ctr := x; msr := msr s; srr0 := srr0 s; srr1 := srr1 s;
     dar := dar s; dsisr := dsisr s; sprg := sprg s; sr := sr s; ear := ear s; mem := mem s; fpr := fpr s; fpscr
     := fpscr s; resv := resv s; dontcare := dontcare s; backing := backing s; icbi := icbi s; vec := vec s |}.
Definition set_msr (x : Z) (s : State) : State :=
  {| gpr := gpr s; cr := cr s; xer := xer s; lr := lr s; ctr := ctr s; msr := x; srr0 := srr0 s; srr1 := srr1 s;
     dar := dar s; dsisr := dsisr s; sprg := sprg s; sr := sr s; ear := ear s; mem := mem s; fpr := fpr s; fpscr
     := fpscr s; resv := resv s; dontcare := dontcare s; backing := backing s; icbi := icbi s; vec := vec s |}.
Definition set_srr0 (x : val) (s : State) : State :=
  {| gpr := gpr s; cr := cr s; xer := xer s; lr := lr s; ctr := ctr s; msr := msr s; srr0 := x; srr1 := srr1 s;
     dar := dar s; dsisr := dsisr s; sprg := sprg s; sr := sr s; ear := ear s; mem := mem s; fpr := fpr s; fpscr
     := fpscr s; resv := resv s; dontcare := dontcare s; backing := backing s; icbi := icbi s; vec := vec s |}.
Definition set_srr1 (x : val) (s : State) : State :=
  {| gpr := gpr s; cr := cr s; xer := xer s; lr := lr s; ctr := ctr s; msr := msr s; srr0 := srr0 s; srr1 := x;
     dar := dar s; dsisr := dsisr s; sprg := sprg s; sr := sr s; ear := ear s; mem := mem s; fpr := fpr s; fpscr
     := fpscr s; resv := resv s; dontcare := dontcare s; backing := backing s; icbi := icbi s; vec := vec s |}.
Definition set_dar (x : val) (s : State) : State :=
  {| gpr := gpr s; cr := cr s; xer := xer s; lr := lr s; ctr := ctr s; msr := msr s; srr0 := srr0 s; srr1 :=
     srr1 s; dar := x; dsisr := dsisr s; sprg := sprg s; sr := sr s; ear := ear s; mem := mem s; fpr := fpr s;
     fpscr := fpscr s; resv := resv s; dontcare := dontcare s; backing := backing s; icbi := icbi s; vec := vec
     s |}.
Definition set_dsisr (x : val) (s : State) : State :=
  {| gpr := gpr s; cr := cr s; xer := xer s; lr := lr s; ctr := ctr s; msr := msr s; srr0 := srr0 s; srr1 :=
     srr1 s; dar := dar s; dsisr := x; sprg := sprg s; sr := sr s; ear := ear s; mem := mem s; fpr := fpr s;
     fpscr := fpscr s; resv := resv s; dontcare := dontcare s; backing := backing s; icbi := icbi s; vec := vec
     s |}.
Definition set_sprg (x : list val) (s : State) : State :=
  {| gpr := gpr s; cr := cr s; xer := xer s; lr := lr s; ctr := ctr s; msr := msr s; srr0 := srr0 s; srr1 :=
     srr1 s; dar := dar s; dsisr := dsisr s; sprg := x; sr := sr s; ear := ear s; mem := mem s; fpr := fpr s;
     fpscr := fpscr s; resv := resv s; dontcare := dontcare s; backing := backing s; icbi := icbi s; vec := vec
     s |}.
Definition set_sr (x : list val) (s : State) : State :=
  {| gpr := gpr s; cr := cr s; xer := xer s; lr := lr s; ctr := ctr s; msr := msr s; srr0 := srr0 s; srr1 :=
     srr1 s; dar := dar s; dsisr := dsisr s; sprg := sprg s; sr := x; ear := ear s; mem := mem s; fpr := fpr s;
     fpscr := fpscr s; resv := resv s; dontcare := dontcare s; backing := backing s; icbi := icbi s; vec := vec
     s |}.
Definition set_ear (x : Z) (s : State) : State :=
  {| gpr := gpr s; cr := cr s; xer := xer s; lr := lr s; ctr := ctr s; msr := msr s; srr0 := srr0 s; srr1 :=
     srr1 s; dar := dar s; dsisr := dsisr s; sprg := sprg s; sr := sr s; ear := x; mem := mem s; fpr := fpr s;
     fpscr := fpscr s; resv := resv s; dontcare := dontcare s; backing := backing s; icbi := icbi s; vec := vec
     s |}.
Definition set_mem (x : list Z) (s : State) : State :=
  {| gpr := gpr s; cr := cr s; xer := xer s; lr := lr s; ctr := ctr s; msr := msr s; srr0 := srr0 s; srr1 :=
     srr1 s; dar := dar s; dsisr := dsisr s; sprg := sprg s; sr := sr s; ear := ear s; mem := x; fpr := fpr s;
     fpscr := fpscr s; resv := resv s; dontcare := dontcare s; backing := backing s; icbi := icbi s; vec := vec
     s |}.
Definition set_fpr (x : list Z) (s : State) : State :=
  {| gpr := gpr s; cr := cr s; xer := xer s; lr := lr s; ctr := ctr s; msr := msr s; srr0 := srr0 s; srr1 :=
     srr1 s; dar := dar s; dsisr := dsisr s; sprg := sprg s; sr := sr s; ear := ear s; mem := mem s; fpr := x;
     fpscr := fpscr s; resv := resv s; dontcare := dontcare s; backing := backing s; icbi := icbi s; vec := vec
     s |}.
Definition set_fpscr (x : Z) (s : State) : State :=
  {| gpr := gpr s; cr := cr s; xer := xer s; lr := lr s; ctr := ctr s; msr := msr s; srr0 := srr0 s; srr1 :=
     srr1 s; dar := dar s; dsisr := dsisr s; sprg := sprg s; sr := sr s; ear := ear s; mem := mem s; fpr := fpr
     s; fpscr := x; resv := resv s; dontcare := dontcare s; backing := backing s; icbi := icbi s; vec := vec s
     |}.
Definition set_resv (x : option Z) (s : State) : State :=
  {| gpr := gpr s; cr := cr s; xer := xer s; lr := lr s; ctr := ctr s; msr := msr s; srr0 := srr0 s; srr1 :=
     srr1 s; dar := dar s; dsisr := dsisr s; sprg := sprg s; sr := sr s; ear := ear s; mem := mem s; fpr := fpr
     s; fpscr := fpscr s; resv := x; dontcare := dontcare s; backing := backing s; icbi := icbi s; vec := vec s
     |}.
Definition set_dontcare (x : gmap string Z) (s : State) : State :=
  {| gpr := gpr s; cr := cr s; xer := xer s; lr := lr s; ctr := ctr s; msr := msr s; srr0 := srr0 s; srr1 :=
     srr1 s; dar := dar s; dsisr := dsisr s; sprg := sprg s; sr := sr s; ear := ear s; mem := mem s; fpr := fpr
     s; fpscr := fpscr s; resv := resv s; dontcare := x; backing := backing s; icbi := icbi s; vec := vec s |}.
Definition set_backing (x : gmap Z (list Z)) (s : State) : State :=
  {| gpr := gpr s; cr := cr s; xer := xer s; lr := lr s; ctr := ctr s; msr := msr s; srr0 := srr0 s; srr1 :=
     srr1 s; dar := dar s; dsisr := dsisr s; sprg := sprg s; sr := sr s; ear := ear s; mem := mem s; fpr := fpr
     s; fpscr := fpscr s; resv := resv s; dontcare := dontcare s; backing := x; icbi := icbi s; vec := vec s |}.
Definition set_icbi (x : option Z) (s : State) : State :=
  {| gpr := gpr s; cr := cr s; xer := xer s; lr := lr s; ctr := ctr s; msr := msr s; srr0 := srr0 s; srr1 :=
     srr1 s; dar := dar s; dsisr := dsisr s; sprg := sprg s; sr := sr s; ear := ear s; mem := mem s; fpr := fpr
     s; fpscr := fpscr s; resv := resv s; dontcare := dontcare s; backing := backing s; icbi := x; vec := vec s
     |}.
Definition set_vec (x : Z) (s : State) : State :=
  {| gpr := gpr s; cr := cr s; xer := xer s; lr := lr s; ctr := ctr s; msr := msr s; srr0 := srr0 s; srr1 :=
     srr1 s; dar := dar s; dsisr := dsisr s; sprg := sprg s; sr := sr s; ear := ear s; mem := mem s; fpr := fpr
     s; fpscr := fpscr s; resv := resv s; dontcare := dontcare s; backing := backing s; icbi := icbi s; vec := x
     |}.

(** ** Values *)
Definition as_int (v : val) : result Z := match v with Int z => Ok z | _ => Raise TypeError end.
Definition int_of (v : val) : M Z := lift (as_int v).

(** [a < b]: integers by size, tuples lexicographically from their tag. *)
Definition tag_rank (v : val) : option Z :=
  match v with Abs _ => Some 0 | Masked _ _ => Some 1 | Rel _ => Some 2 | _ => None end.
Definition payload (v : val) : Z * Z :=
  match v with Abs z => (z, 0) | Masked v m0 => (v, m0) | Rel z => (z, 0) | _ => (0, 0) end.
Definition py_lt (a b : val) : result bool :=
  match a, b with
  | Int x, Int y => Ok (x <? y)
  | _, _ =>
      match tag_rank a, tag_rank b with
      | Some i, Some j =>
          let '(x, x') := payload a in let '(y, y') := payload b in
          Ok ((i <? j) || ((i =? j) && ((x <? y) || ((x =? y) && (x' <? y')))))
      | _, _ => Raise TypeError
      end
  end.

(** [ins.name] of an integer field *)
Definition fld (i : Insn) (k : string) : M Z :=
  match dict_get (f i) k with Some v => ret v | None => fail AttributeError end.
(** [g[n]] and [g[n] = v] *)
Definition g_get (n : Z) : M val := let* s := get in lift (py_get (gpr s) n).
Definition g_set (n : Z) (v : val) : M unit :=
  let* s := get in let* l := lift (py_set (gpr s) n v) in modify (set_gpr l).
Definition f_get (n : Z) : M Z := let* s := get in lift (py_get (fpr s) n).
Definition f_set (n v : Z) : M unit := let* s := get in let* l := lift (py_set (fpr s) n v) in modify (set_fpr l).
(** [g[ins.name]] *)
Definition g_fld (i : Insn) (k : string) : M val := let* n := fld i k in g_get n.
Definition g_int (i : Insn) (k : string) : M Z := let* v := g_fld i k in int_of v.
Definition g_put (i : Insn) (k : string) (z : Z) : M unit := let* n := fld i k in g_set n (Int z).
Definition not32 (x : Z) : Z := Z.land (Z.lnot x) M32.
Definition when (b : bool) (x : M unit) : M unit := if b then x else ret tt.
Definition done : M (option target) := ret None.

(** ** Helpers *)
Definition so (s : State) : Z := Z.land (Z.shiftr (xer s) 31) 1.
Definition carry (s : State) : Z := Z.land (Z.shiftr (xer s) 29) 1.
(** [st["cr"] & ~(0xF << sh) & M32 | (v4 & 0xF) << sh] *)
Definition setcrf (bf v4 : Z) : M unit :=
  modify (fun s =>
    let sh := 28 - 4 * bf in
    set_cr (Z.lor (Z.land (Z.land (cr s) (Z.lnot (Z.shiftl 0xF sh))) M32) (Z.shiftl (Z.land v4 0xF) sh)) s).
Definition relation (a b : Z) : Z := if a <? b then 8 else if b <? a then 4 else 2.
Definition cr0 (v : Z) : M unit :=
  let* s := get in setcrf 0 (Z.lor (relation (s32 v) 0) (so s)).
Definition crbit (s : State) (i : Z) : Z := Z.land (Z.shiftr (cr s) (31 - i)) 1.
Definition setcrbit (i b : Z) : M unit :=
  modify (fun s =>
    set_cr (Z.lor (Z.land (Z.land (cr s) (Z.lnot (Z.shiftl 1 (31 - i)))) M32) (Z.shiftl b (31 - i))) s).
Definition ov (o : bool) : M unit :=
  modify (fun s =>
    let x := Z.land (Z.land (xer s) (Z.lnot 0x40000000)) M32 in
    set_xer (if o then Z.lor x 0xC0000000 else x) s).
Definition ca (c : bool) : M unit :=
  modify (fun s => set_xer (Z.lor (Z.land (Z.land (xer s) (Z.lnot 0x20000000)) M32) (if c then 0x20000000 else 0)) s).
Definition ra0 (ra : Z) : M val := if ra =? 0 then ret (Int 0) else g_get ra.
Definition if_rc (i : Insn) (r : Z) : M unit := let* rc := fld i "rc" in when (truthy rc) (cr0 r).

(** ** Translation and memory *)
Definition msr_on (s : State) (bits : Z) : bool := truthy (Z.land (msr s) bits).

Definition xlate_data (ea : Z) (is_store : bool) : M Z :=
  let* s := get in
  let ea := Z.land ea M32 in
  if (ea - RO_EA <? BAT_BYTES) && msr_on s MSR_DR then
    if is_store then raise_trap (trap_data 0x300 ea 0x0A000000 M32) else ret (RO_PA + (ea - RO_EA))
  else if (Z.shiftr ea 28 =? Z.shiftr DIRECT_EA 28) && msr_on s MSR_DR then
    raise_trap (trap_data 0x300 ea (Z.lor 0x04000000 (if is_store then 0x02000000 else 0)) M32)
  else if (Z.shiftr ea 28 =? Z.shiftr MISS_EA 28) && msr_on s MSR_DR then
    raise_trap (trap (if is_store then 0x1200 else 0x1100) 0)
  else ret ea.

Definition mem_ok (pa n : Z) : M unit :=
  if (BUF <=? pa) && (pa + n <=? BUF + BUF_WORDS * 4) then ret tt
  else fail (RuntimeError "model access outside the buffer").

Definition mem_get (k : Z) : M Z := let* s := get in lift (py_get (mem s) k).
Definition mem_set (k v : Z) : M unit := let* s := get in let* l := lift (py_set (mem s) k v) in modify (set_mem l).

(** [for k in ks: body] *)
Fixpoint each (ks : list Z) (body : Z -> M unit) : M unit :=
  match ks with [] => ret tt | k :: ks' => body k ;;; each ks' body end.
Definition range (n : Z) : list Z := seqZ 0 n.

Fixpoint load_bytes (pa : Z) (ks : list Z) (v : Z) : M Z :=
  match ks with
  | [] => ret v
  | k :: ks' => let* b := mem_get (pa - BUF + k) in load_bytes pa ks' (Z.lor (Z.shiftl v 8) b)
  end.
Definition load (ea n : Z) : M Z :=
  let* pa := xlate_data ea false in mem_ok pa n ;;; load_bytes pa (range n) 0.

Definition store (ea n : Z) (v : val) : M unit :=
  let* pa := xlate_data ea true in
  if (0 <=? pa - STUB) && (pa - STUB <? 8) then ret tt
  else
    mem_ok pa n ;;;
    each (range n) (fun k => let* z := int_of v in mem_set (pa - BUF + k) (Z.land (Z.shiftr z (8 * (n - 1 - k))) 0xFF)).

Section Machine.
Variable v : variant.

Definition ends_u (m0 : string) : bool := endswith m0 "u" || endswith m0 "ux".

(** The alignment exception's DAR and DSISR. *)
Definition align_trap (ea : Z) (i : Insn) : Trap :=
  let w := word i in
  let ds := if xform i
            then Z.lor (Z.lor (Z.shiftl (Z.land (Z.shiftr w 1) 3) 15) (Z.shiftl (Z.land (Z.shiftr w 6) 1) 14))
                       (Z.shiftl (Z.land (Z.shiftr w 7) 0xF) 10)
            else Z.lor (Z.shiftl (Z.land (Z.shiftr w 26) 1) 14) (Z.shiftl (Z.land (Z.shiftr w 27) 0xF) 10) in
  let ds := Z.lor ds (Z.shiftl (Z.land (Z.shiftr w 21) 0x1F) 5) in
  let ds := Z.lor ds (Z.land (Z.shiftr w 16) 0x1F) in
  let mk := if ends_u (m i) then M32 else Z.land M32 (Z.lnot 0x1F) in
  let mk := if String.eqb (m i) "dcbz" then Z.land mk (Z.lnot 0x3E0) else mk in
  let ea := if str_in (m i) ["lmw"; "stmw"] && multiple_dar_plus4 v then ea + 4 else ea in
  trap_data 0x600 (Z.land ea M32) ds mk.

Definition cross_page (s : State) (ea n : Z) : bool := msr_on s MSR_DR && (0x1000 <? Z.land ea 0xFFF + n).

(** ** Execution *)
Definition spr_of (i : Insn) : M Z := if str_in (m i) ["mfspr"; "mtspr"] then fld i "spr" else ret 0.

Definition status_of (i : Insn) (spr : Z) : string :=
  let st := match status i with Some d => default "legal" (dict_get d (isa v)) | None => "legal" end in
  let st := if str_in (m i) ["eciwx"; "ecowx"] && negb (has_ear v) then "illegal" else st in
  if str_in (m i) ["mfspr"; "mtspr"] && (spr =? 282) && negb (has_ear v) then "illegal" else st.

(** Illegal, privileged and FP-unavailable checks, in that order. *)
Definition legal (i : Insn) : M unit :=
  let* spr := spr_of i in let* s := get in
  if String.eqb (status_of i spr) "illegal" then raise_trap (trap 0x700 P_ILLEGAL)
  else if (priv i || (str_in (m i) ["mfspr"; "mtspr"] && truthy (Z.land spr 0x10))) && msr_on s MSR_PR
  then raise_trap (trap 0x700 P_PRIV)
  else if fp i && negb (msr_on s MSR_FP) then raise_trap (trap 0x800 0)
  else if String.eqb (status_of i spr) "emulation_trap" then raise_trap (trap 0x1600 0) else ret tt.

(** *** Shifts, logic and immediates *)
Definition log_shift (m0 : string) (av : val) (b : Z) : M Z :=
  let n := Z.land b 0x3F in
  if String.eqb m0 "slw" then
    if 31 <? n then ret 0 else let* a := int_of av in ret (Z.land (Z.shiftl a n) M32)
  else if String.eqb m0 "srw" then
    if 31 <? n then ret 0 else let* a := int_of av in ret (Z.shiftr a n)
  else
    let* a := int_of av in
    let out := Z.land a (Z.shiftl 1 (Z.min n 32) - 1) in
    ca ((s32 a <? 0) && truthy out) ;;; ret (Z.land (Z.shiftr (s32 a) (Z.min n 32)) M32).

Definition logic (m0 : string) (a b : Z) : Z :=
  Z.land
    (if String.eqb m0 "and" then Z.land a b
     else if String.eqb m0 "andc" then Z.land a (Z.lnot b)
     else if String.eqb m0 "or" then Z.lor a b
     else if String.eqb m0 "orc" then Z.lor a (Z.lnot b)
     else if String.eqb m0 "xor" then Z.lxor a b
     else if String.eqb m0 "nand" then Z.lnot (Z.land a b)
     else if String.eqb m0 "nor" then Z.lnot (Z.lor a b)
     else Z.lnot (Z.lxor a b)) M32.

Definition log_op (i : Insn) : M (option target) :=
  let* av := g_fld i "rs" in let* bv := g_fld i "rb" in
  let* r := (if str_in (m i) ["slw"; "srw"; "sraw"] then let* b := int_of bv in log_shift (m i) av b
         else let* a := int_of av in let* b := int_of bv in ret (logic (m i) a b)) in
  g_put i "ra" r ;;; if_rc i r ;;; done.

Definition un_op (i : Insn) : M (option target) :=
  let* av := g_fld i "rs" in
  let* r := (if String.eqb (m i) "extsb"
         then let* a := int_of av in ret (Z.land (Z.shiftr (s32 (Z.shiftl a 24)) 24) M32)
         else if String.eqb (m i) "extsh"
         then let* a := int_of av in ret (Z.land (Z.shiftr (s32 (Z.shiftl a 16)) 16) M32)
         else match av with Int a => ret (32 - bit_length a) | _ => fail AttributeError end) in
  g_put i "ra" r ;;; if_rc i r ;;; done.

Definition srawi_op (i : Insn) : M (option target) :=
  let* av := g_fld i "rs" in let* n := fld i "sh" in let* a := int_of av in
  let r := Z.land (Z.shiftr (s32 a) n) M32 in
  ca ((s32 a <? 0) && truthy (Z.land a (Z.shiftl 1 n - 1))) ;;;
  g_put i "ra" r ;;; if_rc i r ;;; done.

Definition addi_op (i : Insn) : M (option target) :=
  let* im := fld i "imm" in let* ra := fld i "ra" in let* bv := ra0 ra in let* b := int_of bv in
  let im := simm im in
  g_put i "rt" (Z.land (b + (if String.eqb (m i) "addis" then Z.shiftl im 16 else im)) M32) ;;; done.

Definition addic_op (i : Insn) : M (option target) :=
  let* im := fld i "imm" in let* a := g_int i "ra" in
  let im := Z.land (simm im) M32 in
  let t := if String.eqb (m i) "subfic" then not32 a + im + 1 else a + im in
  g_put i "rt" (Z.land t M32) ;;; ca (truthy (Z.shiftr t 32)) ;;;
  when (String.eqb (m i) "addic.") (cr0 t) ;;; done.

Definition mulli_op (i : Insn) : M (option target) :=
  let* a := g_int i "ra" in let* im := fld i "imm" in
  g_put i "rt" (Z.land (s32 a * simm im) M32) ;;; done.

Definition imm_logic (i : Insn) : M (option target) :=
  let* im := fld i "imm" in
  let u := if endswith (m i) "is" || endswith (m i) "is." then Z.shiftl im 16 else im in
  let* a := g_int i "rs" in
  let r := if startswith (m i) "and" then Z.land a u
           else if startswith (m i) "or" then Z.lor a u else Z.lxor a u in
  g_put i "ra" (Z.land r M32) ;;; when (startswith (m i) "and") (cr0 r) ;;; done.

Definition rotate_op (i : Insn) : M (option target) :=
  let* sh := fld i "sh" in
  let* n := (if String.eqb (m i) "rlwnm" then let* bv := g_get sh in let* b := int_of bv in ret (Z.land b 31) else ret sh) in
  let* a := g_int i "rs" in let* mb := fld i "mb" in let* me := fld i "me" in let* mk := lift (mask mb me) in
  let r := rotl a n in
  let* r := (if String.eqb (m i) "rlwimi"
         then let* old := g_int i "ra" in ret (Z.lor (Z.land r mk) (Z.land (Z.land old (Z.lnot mk)) M32))
         else ret (Z.land r mk)) in
  g_put i "ra" r ;;; if_rc i r ;;; done.

(** *** Compares and the condition register *)
Definition cmp_operands (i : Insn) (av : val) : M (val * val) :=
  if String.eqb (m i) "cmp" then
    let* a := int_of av in let* b := g_int i "rb" in ret (Int (s32 a), Int (s32 b))
  else if String.eqb (m i) "cmpl" then let* bv := g_fld i "rb" in ret (av, bv)
  else if String.eqb (m i) "cmpi" then let* a := int_of av in let* im := fld i "imm" in ret (Int (s32 a), Int (simm im))
  else let* im := fld i "imm" in ret (av, Int im).

Definition cmp_op (i : Insn) : M (option target) :=
  let* av := g_fld i "ra" in let* (x, y) := cmp_operands i av in
  let* below := lift (py_lt x y) in let* above := lift (py_lt y x) in
  let* bf := fld i "bf" in let* s := get in
  setcrf bf (Z.lor (if below : bool then 8 else if above : bool then 4 else 2) (so s)) ;;; done.

Definition cr_function (m0 : string) (a b : Z) : Z :=
  if String.eqb m0 "crand" then Z.land a b
  else if String.eqb m0 "crandc" then Z.land a (1 - b)
  else if String.eqb m0 "creqv" then 1 - Z.lxor a b
  else if String.eqb m0 "crnand" then 1 - Z.land a b
  else if String.eqb m0 "crnor" then 1 - Z.lor a b
  else if String.eqb m0 "cror" then Z.lor a b
  else if String.eqb m0 "crorc" then Z.lor a (1 - b)
  else Z.lxor a b.

Definition cr_op (i : Insn) : M (option target) :=
  let* b := fld i "b" in let* c := fld i "c" in let* a := fld i "a" in let* s := get in
  setcrbit a (cr_function (m i) (crbit s b) (crbit s c)) ;;; done.

(** The CR bits of a field mask. *)
Definition field_mask (fm : Z) : Z :=
  fold_left (fun mk k => if truthy (Z.land fm (Z.shiftr 0x80 k)) then Z.lor mk (Z.shiftl 0xF (28 - 4 * k)) else mk)
            (range 8) 0.

Definition mtcrf_op (i : Insn) : M (option target) :=
  let* fxm := fld i "fxm" in let* a := g_int i "rs" in let* s := get in
  let mk := field_mask fxm in
  modify (set_cr (Z.lor (Z.land a mk) (Z.land (Z.land (cr s) (Z.lnot mk)) M32))) ;;; done.

Definition mcrf_op (i : Insn) : M (option target) :=
  let* bf := fld i "bf" in let* bfa := fld i "bfa" in let* s := get in
  setcrf bf (Z.land (Z.shiftr (cr s) (28 - 4 * bfa)) 0xF) ;;; done.

Definition mcrxr_op (i : Insn) : M (option target) :=
  let* bf := fld i "bf" in let* s := get in
  setcrf bf (Z.shiftr (xer s) 28) ;;; modify (fun s => set_xer (Z.land (xer s) 0x0FFFFFFF) s) ;;; done.

(** *** Integer arithmetic *)

(** What an XO-form leaves: the result ([None] when undefined), OV where it is
    defined, and the carry where the form sets it. *)
Definition add_like (signed : Z -> Z -> Z -> Z) (a y cin : Z) : Z * bool * bool :=
  let t := a + y + cin in
  let r := Z.land t M32 in
  (r, negb (signed a y cin =? s32 r), truthy (Z.shiftr t 32)).
Definition signed_sum (a y cin : Z) : Z := s32 a + s32 y + cin.

(** The second operand and the carry-in of the add and subtract forms. *)
Definition second (m0 : string) (bv : val) : M Z :=
  if str_in m0 ["add"; "addc"; "adde"; "subf"; "subfc"; "subfe"] then int_of bv
  else ret (if str_in m0 ["addme"; "subfme"] then M32 else 0).
Definition carry_in (m0 : string) (c : Z) : Z :=
  if str_in m0 ["add"; "addc"] then 0 else if str_in m0 ["subf"; "subfc"; "neg"] then 1 else c.

Definition xo_adds : list string := ["add"; "addc"; "adde"; "addme"; "addze"].
Definition xo_subs : list string := ["subf"; "subfc"; "subfe"; "subfme"; "subfze"; "neg"].

(** The value and OV of one form; the carry is set on the way. *)
Definition xo_value (m0 : string) (av bv : val) (c : Z) : M (option Z * option bool) :=
  if str_in m0 xo_adds || str_in m0 xo_subs then
    let* a := int_of av in
    let a := if str_in m0 xo_subs then not32 a else a in
    let* y := second m0 bv in
    let '(r, o, co) := add_like signed_sum a y (carry_in m0 c) in
    when (negb (str_in m0 ["add"; "subf"; "neg"])) (ca co) ;;; ret (Some r, Some o)
  else if String.eqb m0 "divw" then
    if bool_decide (bv = Int 0) || (bool_decide (av = Int 0x80000000) && bool_decide (bv = Int M32))
    then ret (None, Some true)
    else
      let* a := int_of av in
      let* b := int_of bv in
      let q := Z.abs (s32 a) / Z.abs (s32 b) in
      ret (Some (Z.land (if Bool.eqb (s32 a <? 0) (s32 b <? 0) then q else - q) M32), Some false)
  else if String.eqb m0 "divwu" then
    if bool_decide (bv = Int 0) then ret (None, Some true)
    else let* a := int_of av in let* b := int_of bv in ret (Some (a / b), Some false)
  else
    let* a := int_of av in
    let* b := int_of bv in
    if String.eqb m0 "mullw" then
      let p := s32 a * s32 b in let r := Z.land p M32 in ret (Some r, Some (negb (p =? s32 r)))
    else if String.eqb m0 "mulhw" then ret (Some (Z.land (Z.shiftr (s32 a * s32 b) 32) M32), None)
    else ret (Some (Z.land (Z.shiftr (a * b) 32) M32), None).

Definition set_dontcare_key (k : string) (mk : Z) : M unit := modify (fun s => set_dontcare (<[k := mk]> (dontcare s)) s).

Definition xo_op (i : Insn) : M (option target) :=
  let* av := g_fld i "ra" in
  let* bv := g_fld i "rb" in
  let* s := get in
  let* (r, o) := xo_value (m i) av bv (carry s) in
  let* oe := fld i "oe" in
  when (truthy oe) (ov (default false o)) ;;;
  let* rt := fld i "rt" in
  g_set rt (match r with Some r => Int r | None => Undef end) ;;;
  let* rc := fld i "rc" in
  when (truthy rc)
    (match r with
     | Some r => cr0 r
     | None =>
         let* s := get in
         setcrf 0 (so s) ;;; set_dontcare_key "cr" (Z.lor 0x0FFFFFFF 0x10000000)
     end) ;;;
  done.

(** *** Branches *)

(** The target held in LR or CTR. *)
Definition held_target (t : val) : M (option target) :=
  match t with
  | Rel z => ret (Some (Off (Z.land z (Z.lnot 3))))
  | Abs z | Masked z _ => ret (Some (Where z))
  | Int z => ret (Some (Where (Z.land z (Z.lnot 3))))
  | Undef => fail TypeError
  end.

(** [relval] *)
Definition relval (x : val) : M val :=
  match x with
  | Rel _ | Masked _ _ | Abs _ => fail (RuntimeError "CTR compare with a relative value")
  | _ => ret x
  end.

Definition link (i : Insn) (pc : Z) : M unit :=
  let* lk := fld i "lk" in when (truthy lk) (modify (set_lr (Rel (pc + 4)))).
Definition target_of (i : Insn) : M target :=
  match branch_to i with Some t => ret t | None => fail AttributeError end.

Definition cond_branch (i : Insn) (pc : Z) : M (option target) :=
  let* bo := fld i "bo" in
  let* bi := fld i "bi" in
  when (negb (truthy (Z.land bo 4)))
    (if String.eqb (m i) "bcctr" then fail (RuntimeError "bcctr with decrement is an invalid form")
     else let* s := get in let* c := int_of (ctr s) in modify (set_ctr (Int (Z.land (c - 1) M32)))) ;;;
  let* s := get in
  let* ctr_ok := (if truthy (Z.land bo 4) then ret true
                  else let* c := relval (ctr s) in
                       ret (xorb (negb (bool_decide (c = Int 0))) (truthy (Z.land bo 2)))) in
  let take := ctr_ok && (truthy (Z.land bo 16) || (crbit s bi =? Z.land (Z.shiftr bo 3) 1)) in
  if String.eqb (m i) "bc" then
    let* t := target_of i in
    link i pc ;;; ret (if take then Some t else None)
  else
    let t := if String.eqb (m i) "bclr" then lr s else ctr s in
    link i pc ;;; if take then held_target t else ret None.

Definition branch (i : Insn) (pc : Z) : M (option target) :=
  if String.eqb (m i) "b" then let* t := target_of i in link i pc ;;; ret (Some t)
  else cond_branch i pc.

(** *** Special-purpose registers *)
Definition spr_name (n : Z) : option string :=
  match find (fun p => fst p =? n) SPRS with Some p => Some (snd p) | None => None end.
(** [name.startswith("sprg")] and [int(name[4])] *)
Definition sprg_index (name : string) : option Z :=
  if startswith name "sprg"
  then match find (fun p => String.eqb (fst p) name) [("sprg0", 0); ("sprg1", 1); ("sprg2", 2); ("sprg3", 3)] with
       | Some p => Some (snd p)
       | None => None
       end
  else None.

(** [st[name]] and [st[name] = v] of the plain registers. *)
Definition named_get (s : State) (name : string) : result val :=
  if String.eqb name "xer" then Ok (Int (xer s))
  else if String.eqb name "lr" then Ok (lr s)
  else if String.eqb name "ctr" then Ok (ctr s)
  else if String.eqb name "dsisr" then Ok (dsisr s)
  else if String.eqb name "dar" then Ok (dar s)
  else if String.eqb name "srr0" then Ok (srr0 s)
  else if String.eqb name "srr1" then Ok (srr1 s)
  else Raise KeyError.
Definition named_set (name : string) (x : val) : M unit :=
  if String.eqb name "lr" then modify (set_lr x)
  else if String.eqb name "ctr" then modify (set_ctr x)
  else if String.eqb name "dsisr" then modify (set_dsisr x)
  else if String.eqb name "dar" then modify (set_dar x)
  else if String.eqb name "srr0" then modify (set_srr0 x)
  else if String.eqb name "srr1" then modify (set_srr1 x)
  else fail KeyError.

Definition mfspr_op (i : Insn) (name : string) : M (option target) :=
  let* rt := fld i "rt" in
  let* s := get in
  let* x := (if String.eqb name "pvr" then ret (Masked (pvr v) 0xFFFF0000)
             else match sprg_index name with
                  | Some k => lift (py_get (sprg s) k)
                  | None => if String.eqb name "ear" then ret (Int (ear s)) else lift (named_get s name)
                  end) in
  g_set rt x ;;; done.

Definition mtspr_op (i : Insn) (name : string) : M (option target) :=
  let* x := g_fld i "rs" in
  (if String.eqb name "pvr" then raise_trap (trap 0x700 P_ILLEGAL)
   else match sprg_index name with
        | Some k => let* s := get in let* l := lift (py_set (sprg s) k x) in modify (set_sprg l)
        | None =>
            if String.eqb name "ear" then let* z := int_of x in modify (set_ear (Z.land z 0x8000003F))
            else if String.eqb name "xer" then let* z := int_of x in modify (set_xer (Z.land z 0xE000007F))
            else named_set name x
        end) ;;; done.

Definition spr_op (i : Insn) : M (option target) :=
  let* n := fld i "spr" in
  match spr_name n with
  | None => raise_trap (trap 0x700 P_ILLEGAL)
  | Some name => if String.eqb (m i) "mfspr" then mfspr_op i name else mtspr_op i name
  end.

(** *** Loads and stores *)

(** [int.from_bytes(v.to_bytes(n, "big"), "little")] *)
Definition byte_reverse (n x : Z) : Z :=
  fold_left (fun r k => Z.lor r (Z.shiftl (Z.land (Z.shiftr x (8 * k)) 0xFF) (8 * (n - 1 - k)))) (range n) 0.

Definition ea_of (i : Insn) (k : string) : M Z :=
  let* ra := fld i "ra" in
  let* bv := ra0 ra in
  if xform i then
    let* x := (if str_in k ["lsi"; "ssi"] then ret (Int 0) else g_fld i "rb") in
    let* b := int_of bv in
    let* x := int_of x in
    ret (Z.land (b + x) M32)
  else
    let* im := fld i "imm" in
    let* b := int_of bv in
    ret (Z.land (b + simm im) M32).

Definition load_kinds : list string := ["l"; "lu"; "la"; "lau"; "lbr"; "larx"].
Definition store_kinds : list string := ["s"; "su"; "sbr"].
Definition paged_kinds : list string := ["l"; "lu"; "la"; "lau"; "s"; "su"; "lbr"; "sbr"].
Definition aligned_kinds : list string := ["lm"; "sm"; "larx"; "stcx"; "eci"; "eco"].

Definition load_op (i : Insn) (k : string) (ea n : Z) : M unit :=
  let* x := load ea n in
  let x := if String.eqb k "lbr" then byte_reverse n x else x in
  let x := if str_in k ["la"; "lau"] then Z.land (simm x) M32 else x in
  when (String.eqb k "larx") (modify (set_resv (Some ea))) ;;;
  g_put i "rt" x ;;; when (str_in k ["lu"; "lau"]) (g_put i "ra" ea).

Definition store_op (i : Insn) (k : string) (ea n : Z) : M unit :=
  let* x := g_int i "rt" in
  let x := Z.land x (Z.shiftl 1 (8 * n) - 1) in
  let x := if String.eqb k "sbr" then byte_reverse n x else x in
  store ea n (Int x) ;;; when (String.eqb k "su") (g_put i "ra" ea).

Definition stcx_op (i : Insn) (ea : Z) : M unit :=
  let* s := get in
  let ok := match resv s with Some _ => true | None => false end in
  when ok (let* x := g_fld i "rt" in store ea 4 x) ;;;
  modify (set_resv None) ;;; let* s := get in setcrf 0 (Z.lor (if ok then 2 else 0) (so s)).

(** lmw and stmw *)
Definition load_multiple (rt ea : Z) : M unit :=
  each (seqZ rt (32 - rt)) (fun r => let* x := load (ea + 4 * (r - rt)) 4 in g_set r (Int x)).
Definition store_multiple (rt ea : Z) : M unit :=
  each (seqZ rt (32 - rt)) (fun r => let* x := g_get r in store (ea + 4 * (r - rt)) 4 x).

(** The string forms: four bytes to a register, wrapping after r31. *)
Fixpoint load_string (ks : list Z) (r ea : Z) : M unit :=
  match ks with
  | [] => ret tt
  | k :: ks' =>
      let first := k mod 4 =? 0 in
      let r := if first then Z.land (r + 1) 31 else r in
      when first (g_set r (Int 0)) ;;;
      let* old := g_get r in
      let* b := load (ea + k) 1 in
      let* old := int_of old in
      g_set r (Int (Z.lor old (Z.shiftl b (24 - 8 * (k mod 4))))) ;;; load_string ks' r ea
  end.
Fixpoint store_string (ks : list Z) (r ea : Z) : M unit :=
  match ks with
  | [] => ret tt
  | k :: ks' =>
      let r := if k mod 4 =? 0 then Z.land (r + 1) 31 else r in
      let* x := g_get r in
      let* x := int_of x in
      store (ea + k) 1 (Int (Z.land (Z.shiftr x (24 - 8 * (k mod 4))) 0xFF)) ;;; store_string ks' r ea
  end.
(** The byte count: the instruction's, or XER's. *)
Definition string_count (i : Insn) (immediate : bool) : M Z :=
  if immediate then fld i "nb" else let* s := get in ret (Z.land (xer s) 0x7F).

Definition external_op (k : string) (ea : Z) : M unit :=
  let* s := get in
  if truthy (Z.land (ear s) 0x80000000) then fail (RuntimeError "enabled external control transfer is not modelled")
  else raise_trap (trap_data 0x300 ea (Z.lor 0x00100000 (if String.eqb k "eco" then 0x02000000 else 0)) M32).

Definition access (i : Insn) (k : string) (ea n : Z) : M unit :=
  if str_in k load_kinds then load_op i k ea n
  else if str_in k store_kinds then store_op i k ea n
  else if String.eqb k "stcx" then stcx_op i ea
  else if String.eqb k "lm" then let* rt := fld i "rt" in load_multiple rt ea
  else if String.eqb k "sm" then let* rt := fld i "rt" in store_multiple rt ea
  else if str_in k ["lsi"; "lsx"] then
    let* nb := string_count i (String.eqb k "lsi") in
    let* rt := fld i "rt" in load_string (range nb) (rt - 1) ea
  else if str_in k ["ssi"; "ssx"] then
    let* nb := string_count i (String.eqb k "ssi") in
    let* rt := fld i "rt" in store_string (range nb) (rt - 1) ea
  else if str_in k ["eci"; "eco"] then external_op k ea
  else fail (RuntimeError k).

Definition mem_op (i : Insn) (k : string) : M (option target) :=
  let* ea := ea_of i k in
  let n := default 0 (dict_get (f i) "n") in
  let* s := get in
  if str_in k aligned_kinds && truthy (Z.land ea 3) then raise_trap (align_trap ea i)
  else if str_in k paged_kinds && (1 <? n) && cross_page s ea n then raise_trap (align_trap ea i)
  else access i k ea n ;;; done.

(** *** Cache operations *)
Definition block (a : Z) : Z := Z.land a (Z.lnot 31).
(** [st["mem"][p:p+32]] *)
Definition mem_slice (s : State) (p : Z) : list Z := take 32 (drop (Z.to_nat p) (mem s)).

Definition dcbz_op (i : Insn) (ea : Z) : M unit :=
  let* s := get in
  if (Z.shiftr ea 28 =? 0xF) && (ea - 0xF0000000 <? 0x400000) && msr_on s MSR_DR then raise_trap (align_trap ea i)
  else
    let* pa := xlate_data ea true in
    mem_ok (block pa) 32 ;;; each (range 32) (fun k => mem_set (block pa - BUF + k) 0).

Definition clean_op (ea : Z) : M unit :=
  let* pa := xlate_data ea false in
  let* s := get in
  if (BUF <=? pa) && (pa <? BUF + BUF_WORDS * 4)
  then modify (set_backing (<[block pa := mem_slice s (block pa - BUF)]> (backing s)))
  else ret tt.

Definition dcbi_op (ea : Z) : M unit :=
  let* pa := xlate_data ea true in
  let* s := get in
  match backing s !! block pa with
  | None => fail (RuntimeError "dcbi of a block with unknown memory contents")
  | Some back =>
      let p := Z.to_nat (block pa - BUF) in
      modify (set_mem (take p (mem s) ++ back ++ drop (p + 32) (mem s))%list)
  end.

Definition cache_op (i : Insn) : M (option target) :=
  let* ra := fld i "ra" in
  let* av := ra0 ra in
  let* bv := g_fld i "rb" in
  let* a := int_of av in
  let* b := int_of bv in
  let ea := Z.land (a + b) M32 in
  (if String.eqb (m i) "dcbz" then dcbz_op i ea
   else if str_in (m i) ["dcbf"; "dcbst"] then clean_op ea
   else if String.eqb (m i) "dcbi" then dcbi_op ea
   else when (String.eqb (m i) "icbi") (modify (set_icbi (Some (Z.land (block ea) M32))))) ;;; done.

(** *** Floating point *)
Definition bit_of (w k : Z) : Z := Z.land (Z.shiftr w k) 1.
Definition bits5 (w k : Z) : Z := Z.land (Z.shiftr w k) 31.
(** The [dontcare] key of the high word of an FPR. *)
Definition fpr_high (t : Z) : string := "f" +:+ pretty t +:+ "h".

(** The FPSCR left, and the mask of its predicted bits. *)
Definition fp_result : Type := Z * Z.

Definition fp_move (base : string) (t b : Z) : M unit :=
  let* x := f_get b in
  let s := Z.shiftl 1 63 in
  f_set t (if String.eqb base "fmr" then x
           else if String.eqb base "fneg" then Z.lxor x s
           else if String.eqb base "fabs" then Z.land x (Z.lnot s) else Z.lor x s).

Definition fp_select (t a b c : Z) : M unit :=
  let* x := f_get a in
  let d := reference.decode x reference.B64 in
  let ge := negb (reference.is_nan (reference.d_kind d))
            && (negb (truthy (reference.d_sign d)) || reference.is_zero d) in
  let* y := f_get (if ge then c else b) in f_set t y.

Definition enables_of (old : Z) (single : bool) : ppc_reference.enables :=
  {| ppc_reference.single := single; ppc_reference.ni := truthy (bit_of old 2); ppc_reference.ve := truthy (bit_of old 7);
     ppc_reference.oe := truthy (bit_of old 6); ppc_reference.ue := truthy (bit_of old 5);
     ppc_reference.ze := truthy (bit_of old 4) |}.

Definition fp_arith (base name : string) (single : bool) (t a b c old : Z) : M fp_result :=
  let* x := f_get a in
  let* y := f_get b in
  let* z := f_get c in
  let* exp := lift (ppc_reference.arithmetic name x y z (Z.land old 3) (enables_of old single)) in
  let converts := str_in base ["fctiw"; "fctiwz"] in
  when (ppc_reference.write_result exp)
    (f_set t (ppc_reference.o_result exp) ;;; when converts (set_dontcare_key (fpr_high t) 0)) ;;;
  let mk := enabled_vectors.fpscr_mask exp (truthy (bit_of old 6)) in
  ret (enabled_vectors.fpscr_after old exp, if converts then Z.land mk (Z.lnot 0x1F000) else mk).

Definition fp_compare (base : string) (t a b old : Z) : M fp_result :=
  let* x := f_get a in
  let* y := f_get b in
  let* exp := lift (ppc_reference.arithmetic (String.substring 1 4 base) x y 0 0
                      {| ppc_reference.single := false; ppc_reference.ni := false; ppc_reference.ve := truthy (bit_of old 7);
                         ppc_reference.oe := false; ppc_reference.ue := false; ppc_reference.ze := false |}) in
  let cc := ppc_reference.fpcc exp in
  setcrf (Z.shiftr t 2) cc ;;;
  ret (Z.lor (Z.land (enabled_vectors.fpscr_after old exp) (Z.lnot 0xF000)) (Z.shiftl cc 12), M32).

(** The special operands of [fres] and [frsqrte]: causes, zero divide, the
    result, and whether FR and FI are set. *)
Definition estimate_special (base : string) (x : Z) : result (Z * bool * Z * bool) :=
  let d := reference.decode x reference.B64 in
  if reference.is_snan (reference.d_kind d) then Ok (ppc_reference.SNAN, false, Z.lor x (Z.shiftl 1 51), true)
  else if reference.is_nan (reference.d_kind d) then Ok (0, false, x, false)
  else if String.eqb base "frsqrte" && truthy (reference.d_sign d) && negb (reference.is_zero d)
  then Ok (ppc_reference.SQRT, false, ppc_reference.DEFAULT_NAN, true)
  else if reference.is_zero d then Ok (0, true, Z.lor (Z.shiftl (reference.d_sign d) 63) 0x7FF0000000000000, true)
  else if reference.is_inf (reference.d_kind d) then Ok (0, false, Z.shiftl (reference.d_sign d) 63, false)
  else Raise (RuntimeError "estimate of a finite nonzero value").

Definition fp_estimate (base : string) (t b old : Z) (ve ze : bool) : M fp_result :=
  let* x := f_get b in
  let* (inv, zx, res, frfi) := lift (estimate_special base x) in
  let write := negb ((ve && truthy inv) || (ze && zx)) in
  let exp := {| ppc_reference.o_result := 0; ppc_reference.write_result := write; ppc_reference.o_invalid := inv;
                ppc_reference.ox := false; ppc_reference.ux := false; ppc_reference.zx := zx; ppc_reference.xx := false;
                ppc_reference.fr := false; ppc_reference.fi := false; ppc_reference.frfi_valid := frfi;
                ppc_reference.fprf := ppc_reference.classify res reference.B64; ppc_reference.fprf_valid := write;
                ppc_reference.fpcc := 0; ppc_reference.compare_valid := false;
                ppc_reference.tiny_before_round := false |} in
  when write (f_set t res) ;;;
  ret (enabled_vectors.fpscr_after old exp, if frfi then M32 else Z.land M32 (Z.lnot 0x60000)).

(** mtfsf and mtfsfi *)
Definition fp_fields (base : string) (w t b old : Z) : M fp_result :=
  let* (fm, src) :=
    (if String.eqb base "mtfsf" then
       let* x := f_get b in ret (Z.land (Z.shiftr w 17) 0xFF, Z.land x M32)
     else ret (Z.shiftr 0x80 (Z.shiftr t 2), Z.shiftl (Z.land (Z.shiftr w 12) 15) (28 - 4 * Z.shiftr t 2))) in
  let mk := field_mask fm in
  ret (fp_summary (Z.lor (Z.land old (Z.lnot mk)) (Z.land src mk)), M32).

(** mtfsb0 and mtfsb1: VX and FEX cannot be set directly. *)
Definition fp_set_bit (base : string) (t old : Z) : Z :=
  let bit := Z.shiftl 1 (31 - t) in
  let new :=
    if (t =? 1) || (t =? 2) then old
    else if String.eqb base "mtfsb0" then Z.land old (Z.lnot bit)
    else let new := Z.lor old bit in
         if truthy (Z.land bit FP_EXC_BITS) && negb (truthy (Z.land old bit)) then Z.lor new (Z.shiftl 1 31) else new in
  fp_summary new.

Definition fp_status (i : Insn) (base : string) (w t a b c old : Z) : M fp_result :=
  if str_in base ["fmr"; "fneg"; "fabs"; "fnabs"] then fp_move base t b ;;; ret (old, M32)
  else if String.eqb base "fsel" then fp_select t a b c ;;; ret (old, M32)
  else match dict_get FP_ORACLE base with
  | Some (name, single) => fp_arith base name single t a b c old
  | None =>
      if str_in base ["fcmpu"; "fcmpo"] then fp_compare base t a b old
      else if str_in base ["fres"; "frsqrte"]
      then fp_estimate base t b old (truthy (bit_of old 7)) (truthy (bit_of old 4))
      else if String.eqb base "mffs" then
        f_set t old ;;; set_dontcare_key (fpr_high t) 0 ;;; ret (old, M32)
      else if str_in base ["mtfsf"; "mtfsfi"] then fp_fields base w t b old
      else if str_in base ["mtfsb0"; "mtfsb1"] then ret (fp_set_bit base t old, M32)
      else if String.eqb base "mcrfs" then
        let sh := 28 - 4 * Z.shiftr a 2 in
        setcrf (Z.shiftr t 2) (Z.shiftr old sh) ;;;
        ret (fp_summary (Z.land old (Z.lnot (Z.land FP_EXC_BITS (Z.shiftl 0xF sh)))), M32)
      else fail (RuntimeError "no FP model")
  end.

Definition fp_mem (i : Insn) (base : string) (t a b : Z) : M (option target) :=
  let* av := ra0 a in
  let* x := (if Z.shiftr (word i) 26 =? 31 then g_get b else ret (Int (simm (word i)))) in
  let* av := int_of av in
  let* x := int_of x in
  let ea := Z.land (av + x) M32 in
  if truthy (Z.land ea 3) then raise_trap (align_trap ea i)
  else
    (if startswith base "lfs" then let* w := load ea 4 in let* d := lift (single_to_double w) in f_set t d
     else if startswith base "lfd" then let* d := load ea 8 in f_set t d
     else if startswith base "stfs" then
       let* d := f_get t in let* w := lift (double_to_single d) in store ea 4 (Int w)
     else if startswith base "stfd" then let* d := f_get t in store ea 8 (Int d)
     else when (String.eqb base "stfiwx") (let* d := f_get t in store ea 4 (Int (Z.land d M32)))) ;;;
    when (ends_u base) (g_set a (Int ea)) ;;; done.

Definition fp_op (i : Insn) : M (option target) :=
  let w := word i in
  let t := bits5 w 21 in let a := bits5 w 16 in let b := bits5 w 11 in let c := bits5 w 6 in
  let base := rstrip_dot (m i) in
  let op := Z.shiftr w 26 in
  if negb ((op =? 59) || (op =? 63)) then fp_mem i base t a b
  else
    let* s := get in
    let* (new, fmask) := fp_status i base w t a b c (fpscr s) in
    modify (set_fpscr new) ;;;
    when (negb (fmask =? M32)) (set_dontcare_key "fpscr" fmask) ;;;
    when (truthy (Z.land w 1)) (setcrf 1 (Z.shiftr new 28)) ;;;
    let* s := get in
    if msr_on s (Z.lor MSR_FE0 MSR_FE1) && truthy (bit_of new 30) then raise_trap (trap 0x700 P_FPE) else done.

(** *** One instruction *)
Definition trap_holds (to : Z) (a b : val) : M bool :=
  let test (k : Z) (c : M bool) (rest : M bool) : M bool :=
    if truthy (Z.land to k) then let* t := c in if t : bool then ret true else rest else rest in
  let signed (lt : Z -> Z -> bool) : M bool := let* x := int_of a in let* y := int_of b in ret (lt (s32 x) (s32 y)) in
  test 16 (signed Z.ltb)
    (test 8 (signed (fun x y => y <? x))
       (test 4 (ret (bool_decide (a = b)))
          (test 2 (lift (py_lt a b))
             (test 1 (lift (py_lt b a)) (ret false))))).

Definition tw_op (i : Insn) : M (option target) :=
  let* a := g_fld i "ra" in
  let* b := (if String.eqb (m i) "tw" then g_fld i "rb"
             else let* im := fld i "imm" in ret (Int (Z.land (simm im) M32))) in
  let* to := fld i "rt" in
  let* t := trap_holds to a b in
  if t : bool then raise_trap (trap 0x700 P_TRAP) else done.

(** The segment register an instruction names. *)
Definition segment (i : Insn) : M Z :=
  if str_in (m i) ["mfsr"; "mtsr"] then fld i "sr" else let* b := g_int i "rb" in ret (Z.shiftr b 28).

Definition MSR_MASK : Z := 0x0007FF73.

Definition rfi_op : M (option target) :=
  let* s := get in
  let* x := int_of (srr1 s) in
  modify (set_msr (Z.land x MSR_MASK)) ;;;
  match srr0 s with
  | Rel z | Abs z | Masked z _ => ret (Some (Off (Z.land z (Z.lnot 3))))
  | Int z => ret (Some (Where (Z.land (Z.land z (Z.lnot 3)) M32)))
  | Undef => fail TypeError
  end.

Definition system_op (i : Insn) : M (option target) :=
  let m0 := m i in
  if String.eqb m0 "mftb" then let* rt := fld i "rt" in g_set rt Undef ;;; done
  else if String.eqb m0 "mfmsr" then let* s := get in g_put i "rt" (msr s) ;;; done
  else if String.eqb m0 "mtmsr" then let* x := g_int i "rs" in modify (set_msr (Z.land x MSR_MASK)) ;;; done
  else if str_in m0 ["mfsr"; "mfsrin"] then
    let* n := segment i in let* s := get in let* x := lift (py_get (sr s) n) in
    let* rt := fld i "rt" in g_set rt x ;;; done
  else if str_in m0 ["mtsr"; "mtsrin"] then
    let* x := g_fld i "rs" in let* n := segment i in let* s := get in let* l := lift (py_set (sr s) n x) in
    modify (set_sr l) ;;; done
  else if str_in m0 ["sync"; "isync"; "eieio"; "tlbsync"; "tlbie"; "dcbt"; "dcbtst"] then done
  else if String.eqb m0 "sc" then
    raise_trap {| tvec := 0xC00; flags := 0; t_dar := None; t_dsisr := None; dsisr_mask := M32; next_pc := true;
                  t_target := None; srr1_mask := M32 |}
  else if String.eqb m0 "rfi" then rfi_op
  else if str_in m0 ["tw"; "twi"] then tw_op i
  else if dict_mem CACHE_OPS m0 then cache_op i
  else match kind i with
       | Some k => mem_op i k
       | None => fail (RuntimeError "no model")
       end.

Definition integer_op (i : Insn) (pc : Z) : M (option target) :=
  let m0 := m i in
  if dict_mem XO_OPS m0 then xo_op i
  else if dict_mem LOG_OPS m0 then log_op i
  else if dict_mem UN_OPS m0 then un_op i
  else if String.eqb m0 "srawi" then srawi_op i
  else if str_in m0 ["addi"; "addis"] then addi_op i
  else if str_in m0 ["addic"; "addic."; "subfic"] then addic_op i
  else if String.eqb m0 "mulli" then mulli_op i
  else if str_in m0 ["andi."; "andis."; "ori"; "oris"; "xori"; "xoris"] then imm_logic i
  else if str_in m0 ["rlwinm"; "rlwnm"; "rlwimi"] then rotate_op i
  else if str_in m0 ["cmp"; "cmpi"; "cmpl"; "cmpli"] then cmp_op i
  else if dict_mem CR_OPS m0 then cr_op i
  else if String.eqb m0 "mcrf" then mcrf_op i
  else if String.eqb m0 "mcrxr" then mcrxr_op i
  else if String.eqb m0 "mfcr" then let* s := get in g_put i "rt" (cr s) ;;; done
  else if String.eqb m0 "mtcrf" then mtcrf_op i
  else if str_in m0 ["b"; "bc"; "bclr"; "bcctr"] then branch i pc
  else if str_in m0 ["mfspr"; "mtspr"] then spr_op i
  else system_op i.

Definition step (i : Insn) (pc : Z) : M (option target) :=
  if String.eqb (m i) "external" then
    match sem i with
    | Some f => let* s := get in let* s' := lift (f s) in modify (fun _ => s') ;;; done
    | None => fail KeyError
    end
  else legal i ;;; if fpop i then fp_op i else integer_op i pc.

End Machine.

End selftest.
