(* ===== verification/SelftestRun.v ===== *)
(** * Running a self-test case ([toolchain/demo/selftest/gen.py])

    The default state, the flattened expected results, and [evaluate]: a case's
    instructions run to the end of its code or to an exception, whose SRR0,
    SRR1, DAR, DSISR and MSR are then filled in. The inputs of a case are typed
    here; in the source they are a dictionary keyed by register name. *)
From stdpp Require Import pretty.
From S2P Require Import Prelude FpReference FpPpc FpStatus SelftestInsn SelftestMachine.

Module selftest_run.
Import selftest_insn selftest.
#[local] Open Scope string_scope.
#[local] Open Scope Z_scope.

Definition F_MSR : nat := 39.
Definition FP_COUNT : Z := 32.

(** [dbits(n / 8)]: these values are exact in binary64. *)
Definition dbits_eighths (n : Z) : Z := reference.p_bits (reference.pack n (-3) 0 0 reference.B64).

Definition default_gpr (i : Z) : Z :=
  Z.land (Z.lor (Z.lor (Z.shiftl (0x11 * i) 24) (Z.shiftl i 16)) (Z.lxor 0xC0DE (i * 0x0101))) M32.
Definition default_state : State :=
  {| gpr := <[0%nat := Int 0x0BADF00D]> (map (fun i => Int (default_gpr i)) (range 32)); cr := 0; xer := 0; lr := Int 0;
     ctr := Int 0; msr := MSR_SUP; srr0 := Int 0; srr1 := Int 0; dar := Int 0; dsisr := Int 0;
     sprg := repeat (Int 0) 4; sr := map (fun i => Int (if i =? 3 then 0x80000000 else 0)) (range 16); ear := 0;
     mem := map (fun i => Z.land (Z.lxor (i * 29 + 0x5B) (Z.shiftr i 3)) 0xFF) (range (BUF_WORDS * 4));
     fpr := map (fun i => dbits_eighths (12 * i + 1)) (range 32); fpscr := 0; resv := None; dontcare := ∅;
     backing := ∅; icbi := None; vec := 0 |}.

(** A field of the result table: value, mask, relative. *)
Definition put (x : val) (mk : Z) : Z * Z * Z :=
  match x with
  | Undef => (0, 0, 0)
  | Rel z => (Z.land z M32, mk, 1)
  | Masked z m0 => (Z.land z m0, m0, 0)
  | Abs z | Int z => (Z.land z M32, mk, 0)
  end.

(** [int.from_bytes(mem[4 * i:4 * i + 4], "big")] *)
Definition word_at (l : list Z) (i : Z) : Z :=
  fold_left (fun x b => Z.lor (Z.shiftl x 8) b) (take 4 (drop (Z.to_nat (4 * i)) l)) 0.

Definition flatten (s : State) : list (Z * Z * Z) :=
  let dc k := default M32 (dontcare s !! k) in
  map (fun x => put x M32) (gpr s)
  ++ [put (Int (cr s)) (dc "cr"); put (Int (xer s)) (dc "xer"); put (lr s) (dc "lr"); put (ctr s) (dc "ctr");
      put (Int (vec s)) (dc "vec"); put (srr0 s) (dc "srr0"); put (srr1 s) (dc "srr1"); put (Int (msr s)) (dc "msr");
      put (dar s) (dc "dar"); put (dsisr s) (dc "dsisr")]
  ++ map (fun i => put (Int (word_at (mem s) i)) M32) (range BUF_WORDS)
  ++ concat (map (fun p => [put (Int (Z.shiftr (snd p) 32)) (dc (fpr_high (fst p)));
                            put (Int (Z.land (snd p) M32)) (dc ("f" +:+ pretty (fst p) +:+ "l"))])
                 (enumerate 0 (fpr s)))
  ++ [put (Int (fpscr s)) (dc "fpscr")].

(** ** Cases *)
Inductive input : Type :=
| InR (n : Z) (x : val) | InF (n x : Z) | InCr (x : Z) | InXer (x : Z) | InLr (x : val) | InCtr (x : val)
| InFpscr (x : Z).

Record Case : Type := {
  group : string; name : string; code : list Insn; inp : list input; case_msr : Z; need : option (string * Insn); fpu : bool
}.

(** An entry of the ISA matrix. *)
Record entry : Type := {
  e_mask : Z; e_value : Z; variants : dict string; privilege : string; mnemonic : string; unit_ : string
}.

Definition lookup_status (isa0 : list entry) (i : Insn) : option entry :=
  find (fun e => Z.land (word i) (e_mask e) =? e_value e) isa0.

Definition apply_input (r : result State) (x : input) : result State :=
  let! s := r in
  match x with
  | InR n w => let! l := py_set (gpr s) n w in Ok (set_gpr l s)
  | InF n w => let! l := py_set (fpr s) n w in Ok (set_fpr l s)
  | InCr w => Ok (set_cr w s)
  | InXer w => Ok (set_xer w s)
  | InLr w => Ok (set_lr w s)
  | InCtr w => Ok (set_ctr w s)
  | InFpscr w => Ok (set_fpscr w s)
  end.

(** The status and privilege an instruction takes from the ISA matrix. *)
Definition classified (isa0 : list entry) (i : Insn) : Insn :=
  if str_in (m i) ["b"; "bc"; "babs"; "external"] then i
  else
    match lookup_status isa0 i with
    | None => i
    | Some e =>
        with_status (match status i with Some d => Some d | None => Some (variants e) end)
                    (if String.eqb (privilege e) "supervisor" then true else priv i) i
    end.

(** The first absolute branch goes to the routine [st_abs]. *)
Fixpoint place_babs (l : list Insn) : list Insn :=
  match l with
  | [] => []
  | i :: l' => if String.eqb (m i) "babs" then with_target StAbs (with_m "b" i) :: l' else i :: place_babs l'
  end.

(** ** Running *)
Section Run.
Variable v : variant.

(** What [run_case] returns: the trap and the pc, if any. *)
Definition ending : Type := option Trap * option target.

(** An absolute target: the routine, the stub, or a fetch that fails. *)
Definition fetch_fault (where_ : Z) : option Trap :=
  if (0 <=? where_ - NX_EA) && (where_ - NX_EA <? BAT_BYTES) then
    Some {| tvec := 0x400; flags := 0; t_dar := None; t_dsisr := None; dsisr_mask := M32; next_pc := false;
            t_target := Some (Abs where_); srr1_mask := M32 |}
  else if Z.shiftr where_ 28 =? Z.shiftr MISS_EA 28 then
    Some {| tvec := 0x1000; flags := 0; t_dar := None; t_dsisr := None; dsisr_mask := M32; next_pc := false;
            t_target := Some (Abs where_); srr1_mask := M32 |}
  else None.

Definition run_stub (c : Case) (s : State) : result (State * Z) :=
  match need c with
  | None => Raise TypeError
  | Some (_, stub) =>
      match sem stub with
      | None => Raise KeyError
      | Some f =>
          let! s := f s in
          match lr s with
          | Rel z | Abs z | Masked z _ => Ok (s, Z.land z (Z.lnot 3))
          | _ => Raise (RuntimeError "stub return")
          end
      end
  end.

Definition next_pc_of (pc : Z) (nxt : option target) : target :=
  match nxt with
  | None => Off (pc + 4)
  | Some (Where z) => Where (Z.land z M32)
  | Some t => t
  end.

(** The body of the loop, from a pc: the state and pc of the next turn, or the end. *)
Definition turn (c : Case) (l : list Insn) (s : State) (pc : target) : result (State * (ending + target)) :=
  match pc with
  | StAbs =>
      let! x := py_get (gpr s) 3 in
      let! x := as_int x in
      let! g := py_set (gpr s) 3 (Int (Z.land (x + 1) M32)) in
      Ok (set_gpr g s, inl (None, None))
  | Where z =>
      if z =? STUB then let! (s, z) := run_stub c s in Ok (s, inr (Off z))
      else match fetch_fault z with
           | Some t => Ok (s, inl (Some t, Some pc))
           | None => Raise (RuntimeError "branch out of the case")
           end
  | Off z =>
      if z =? Z.of_nat (length l) * 4 then Ok (s, inl (None, None))
      else
        let! i := py_get l (z / 4) in
        match step v i z s with
        | (s, Trapped t) => Ok (s, inl (Some t, Some pc))
        | (_, Failed e) => Raise e
        | (s, Done nxt) => Ok (s, inr (next_pc_of z nxt))
        end
  end.

Fixpoint run_loop (fuel : nat) (c : Case) (l : list Insn) (s : State) (pc : target) : result (State * ending) :=
  match fuel with
  | O => Raise (RuntimeError "case does not end")
  | S fuel' =>
      let! (s, r) := turn c l s pc in
      match r with inl e => Ok (s, e) | inr pc => run_loop fuel' c l s pc end
  end.

(** [run_case]: 400 turns. *)
Definition run_case (c : Case) (l : list Insn) (s : State) : result (State * ending) :=
  run_loop 400 c l (set_msr (case_msr c) s) (Off 0).

Definition tlb_vec (x : Z) : bool := (x =? 0x1000) || (x =? 0x1100) || (x =? 0x1200).

(** SRR1 of a taken exception, and its predicted bits. *)
Definition trap_srr1 (t : Trap) (s : State) : Z * Z :=
  let base := Z.land (msr s) 0xFFFF in
  if tlb_vec (tvec t) then
    (Z.lor (Z.lor (Z.lor (Z.land (cr s) 0xF0000000) base) (if tvec t =? 0x1000 then 0x40000 else 0))
           (if tvec t =? 0x1200 then 0x10000 else 0), Z.land M32 (Z.lnot 0x20000))
  else (let x := Z.lor base (flags t) in if tvec t =? 0x400 then Z.lor x 0x08000000 else x, srr1_mask t).

Definition trap_srr0 (t : Trap) (pc : option target) : result val :=
  match t_target t with
  | Some x => Ok x
  | None =>
      match pc with
      | Some (Off z) => Ok (Rel (z + (if next_pc t then 4 else 0)))
      | Some (Where z) => Ok (Abs z)
      | _ => Raise TypeError
      end
  end.

(** The state after the exception is taken. *)
Definition take_trap (t : Trap) (pc : option target) (s : State) : result State :=
  let '(x, mk) := trap_srr1 t s in
  let! r := trap_srr0 t pc in
  let s' := set_srr0 r (set_dontcare (<["srr1" := mk]> (dontcare s)) (set_srr1 (Int x) (set_vec (tvec t) s))) in
  let s' := match t_dar t, t_dsisr t with
            | Some a, Some d => set_dontcare (<["dsisr" := dsisr_mask t]> (dontcare s')) (set_dsisr (Int d) (set_dar (Int a) s'))
            | _, _ => s'
            end in
  Ok (set_msr (Z.lor (Z.land (msr s) (Z.lor MSR_ME MSR_IP)) (if tlb_vec (tvec t) then MSR_TGPR else 0)) s').

(** [out[F_MSR] = (msr & M32, M32, 0)] *)
Definition with_msr_field (x : Z) (l : list (Z * Z * Z)) : list (Z * Z * Z) := <[F_MSR := (x, M32, 0)]> l.

Definition final_state (c : Case) (isa0 : list entry) : result State :=
  let! s := fold_left apply_input (inp c) (Ok default_state) in
  let l := place_babs (map (classified isa0) (code c)) in
  let! (s, e) := run_case c l s in
  match e with
  | (Some t, pc) => take_trap t pc s
  | (None, _) => Ok (set_srr1 (Int 0) (set_srr0 (Int 0) (set_vec 0 s)))
  end.

Definition evaluate (c : Case) (isa0 : list entry) : result (list (Z * Z * Z) * list (Z * Z * Z)) :=
  let! s0 := fold_left apply_input (inp c) (Ok default_state) in
  let! s := final_state c isa0 in
  Ok (with_msr_field (case_msr c) (flatten s0), with_msr_field (Z.land (msr s) M32) (flatten s)).

End Run.

(** [resolve]: the words of the case, its relative branches filled in. *)
Definition resolve_word (here : Z) (i : Insn) : result (option Z) :=
  match branch_to i with
  | Some (Off t) =>
      let d := t - here in
      let! lk := item (f i) "lk" in
      if String.eqb (m i) "b" then Ok (Some (Z.lor (Z.lor (Z.shiftl 18 26) (Z.land d 0x03FFFFFC)) lk))
      else if String.eqb (m i) "bc" then
        let! bo := item (f i) "bo" in
        let! bi := item (f i) "bi" in
        Ok (Some (ors [Z.shiftl 16 26; Z.shiftl bo 21; Z.shiftl bi 16; Z.land d 0xFFFC; lk]))
      else Ok (Some (word i))
  | Some _ => Ok None
  | None => Ok (Some (word i))
  end.
Fixpoint resolve_from (here : Z) (l : list Insn) : result (list (option Z)) :=
  match l with
  | [] => Ok []
  | i :: l' =>
      let! w := resolve_word here i in
      let! ws := resolve_from (here + 4) l' in
      Ok (w :: ws)
  end.
Definition resolve (c : Case) : result (list (option Z)) := resolve_from 0 (place_babs (code c)).

End selftest_run.
