(* ===== verification/SelftestPrecise.v ===== *)
(** * The exceptions the self-test model takes

    Rules for the state monad of [SelftestMachine]: a computation [keeps] a
    relation between its states, and [traps] in a stated way. With them, every
    instruction of the model is shown to take its exceptions before it changes
    anything, the multiple and string forms and the enabled floating-point
    exception apart. *)
From S2P Require Import Prelude FpReference FpPpc FpStatus SelftestInsn SelftestMachine.
Import selftest_insn selftest.

(** ** Rules *)

(** [x] relates the state it starts in to the state it ends in, whatever the
    outcome. *)
Definition keeps (R : State -> State -> Prop) {A} (x : M A) : Prop := forall s, R s (fst (x s)).

(** Every exception [x] raises is one of [Q], from a state related by [R]. *)
Definition traps (R : State -> State -> Prop) (Q : Trap -> Prop) {A} (x : M A) : Prop :=
  forall s s' t, x s = (s', Trapped t) -> R s s' /\ Q t.

Section Rules.
Context (R : State -> State -> Prop) `{!PreOrder R} (Q : Trap -> Prop).

Lemma keeps_ret {A} (a : A) : keeps R (ret a).
Proof. intros s. reflexivity. Qed.
Lemma keeps_fail {A} e : keeps R (@fail A e).
Proof. intros s. reflexivity. Qed.
Lemma keeps_raise {A} t : keeps R (@raise_trap A t).
Proof. intros s. reflexivity. Qed.
Lemma keeps_get : keeps R get.
Proof. intros s. reflexivity. Qed.
Lemma keeps_lift {A} (r : result A) : keeps R (lift r).
Proof. destruct r; intros s; reflexivity. Qed.
Lemma keeps_modify g : (forall s, R s (g s)) -> keeps R (modify g).
Proof. intros H s. apply H. Qed.
Lemma keeps_bind {A B} (x : M A) (k : A -> M B) : keeps R x -> (forall a, keeps R (k a)) -> keeps R (bind x k).
Proof.
  intros Hx Hk s. specialize (Hx s). unfold bind. destruct (x s) as [s1 [a | t | e]]; cbn [fst] in *; [| exact Hx | exact Hx].
  transitivity s1; [exact Hx | apply Hk].
Qed.
Lemma keeps_each ks body : (forall k, keeps R (body k)) -> keeps R (each ks body).
Proof. intros H. induction ks as [| k ks IH]; [apply keeps_ret | apply keeps_bind; [apply H | intros []; exact IH]]. Qed.

Lemma traps_ret {A} (a : A) : traps R Q (ret a).
Proof. intros s s' t [=]. Qed.
Lemma traps_fail {A} e : traps R Q (@fail A e).
Proof. intros s s' t [=]. Qed.
Lemma traps_raise {A} t : Q t -> traps R Q (@raise_trap A t).
Proof. intros H s s' u [= <- <-]. split; [reflexivity | exact H]. Qed.
Lemma traps_get : traps R Q get.
Proof. intros s s' t [=]. Qed.
Lemma traps_lift {A} (r : result A) : traps R Q (lift r).
Proof. destruct r; intros s s' t [=]. Qed.
Lemma traps_modify g : traps R Q (modify g).
Proof. intros s s' t [=]. Qed.

(** The first part keeps [R] when it ends normally. *)
Lemma traps_bind {A B} (x : M A) (k : A -> M B) :
  traps R Q x -> keeps R x -> (forall a, traps R Q (k a)) -> traps R Q (bind x k).
Proof.
  intros Hx Hr Hk s s' t. unfold bind. specialize (Hr s). specialize (Hx s).
  destruct (x s) as [s1 [a | u | e]]; cbn [fst] in Hr; [| intros [= <- <-]; auto | intros [=]].
  intros E. destruct (Hk a _ _ _ E) as [H1 H2]. split; [transitivity s1; assumption | exact H2].
Qed.
Lemma traps_each ks body :
  (forall k, traps R Q (body k)) -> (forall k, keeps R (body k)) -> traps R Q (each ks body).
Proof.
  intros H H'. induction ks as [| k ks IH]; [apply traps_ret | apply traps_bind; [apply H | apply H' | intros []; exact IH]].
Qed.
End Rules.

(** [x] changes nothing; [x] raises nothing. *)
Definition pure {A} (x : M A) : Prop := keeps eq x.
Definition silent {A} (x : M A) : Prop := traps (fun _ _ => True) (fun _ => False) x.

Lemma keeps_weaken (R R' : State -> State -> Prop) {A} (x : M A) :
  (forall s s', R' s s' -> R s s') -> keeps R' x -> keeps R x.
Proof. intros H Hx s. apply H, Hx. Qed.

(** Nothing after the first part raises. *)
Lemma traps_last R Q {A B} (x : M A) (k : A -> M B) :
  traps R Q x -> (forall a, silent (k a)) -> traps R Q (bind x k).
Proof.
  intros Hx Hk s s' t. unfold bind. specialize (Hx s). destruct (x s) as [s1 [a | u | e]]; [| intros [= <- <-]; auto | intros [=]].
  intros E. destruct (Hk a _ _ _ E) as [_ []].
Qed.
Lemma traps_silent R Q {A} (x : M A) : silent x -> traps R Q x.
Proof. intros H s s' t E. destruct (H _ _ _ E) as [_ []]. Qed.
Lemma traps_weaken (R R' : State -> State -> Prop) (Q Q' : Trap -> Prop) {A} (x : M A) :
  (forall s s', R' s s' -> R s s') -> (forall t, Q' t -> Q t) -> traps R' Q' x -> traps R Q x.
Proof. intros HR HQ H s s' t E. destruct (H _ _ _ E). auto. Qed.
Lemma silent_bind {A B} (x : M A) (k : A -> M B) : silent x -> (forall a, silent (k a)) -> silent (bind x k).
Proof. apply traps_last. Qed.
Lemma silent_each ks body : (forall k, silent (body k)) -> silent (each ks body).
Proof. intros H. induction ks as [| k ks IH]; [apply traps_ret | apply silent_bind; [apply H | intros []; exact IH]]. Qed.

(** ** Automation *)

(** The case analysis a computation starts with. *)
Ltac monad_case :=
  match goal with
  | |- context [match ?x with _ => _ end] =>
      lazymatch x with
      | context [match _ with _ => _ end] => fail
      | _ => destruct x
      end
  end.
Ltac head_case :=
  match goal with
  | |- traps _ _ (if ?b then _ else _) => destruct b
  | |- traps _ _ (match ?x with _ => _ end) => destruct x
  end.
Ltac unfold_head x :=
  lazymatch x with
  | ?f _ => unfold_head f
  | ?f => unfold f
  end.
Create HintDb machine.
Ltac nothing := fail.
Ltac known := solve [auto 1 with machine nocore].
(** What changes nothing keeps any reflexive relation. *)
Lemma pure_keeps R `{!PreOrder R} {A} (x : M A) : pure x -> keeps R x.
Proof. intros H s. rewrite <- (H s). reflexivity. Qed.
(** The relation kept by a modification is closed by [side]. *)
Ltac keep side :=
  intros; cbv beta iota zeta;
  first
    [ known
    | apply pure_keeps; [exact _ | known]
    | apply keeps_ret; exact _ | apply keeps_fail; exact _ | apply keeps_raise; exact _ | apply keeps_get; exact _
    | apply keeps_lift; exact _
    | apply keeps_modify; intros; side
    | apply keeps_bind; [exact _ | keep side | keep side]
    | apply keeps_each; [exact _ | keep side]
    | monad_case; keep side
    | lazymatch goal with |- keeps _ ?x => unfold_head x; keep side | |- pure ?x => unfold pure; keep side end ].
Ltac quiet :=
  intros; cbv beta iota zeta;
  first
    [ known
    | apply traps_ret | apply traps_fail | apply traps_get | apply traps_lift | apply traps_modify
    | apply silent_bind; quiet
    | apply silent_each; quiet
    | monad_case; quiet
    | lazymatch goal with
      | |- silent ?x => unfold_head x; quiet
      end ].

(** ** What changes nothing and raises nothing *)
Lemma pure_get : pure get.
Proof. apply keeps_get. exact _. Qed.
Lemma pure_lift {A} (r : result A) : pure (lift r).
Proof. apply keeps_lift. exact _. Qed.
Lemma pure_ret {A} (a : A) : pure (ret a).
Proof. apply keeps_ret. exact _. Qed.
Lemma silent_get : silent get.
Proof. apply traps_get. Qed.
Lemma silent_lift {A} (r : result A) : silent (lift r).
Proof. apply traps_lift. Qed.
Lemma silent_ret {A} (a : A) : silent (ret a).
Proof. apply traps_ret. Qed.
Lemma silent_done : silent done.
Proof. apply traps_ret. Qed.
#[export] Hint Resolve pure_get pure_lift pure_ret silent_get silent_lift silent_ret silent_done : machine.
Lemma pure_fld i k : pure (fld i k).
Proof. keep nothing. Qed.
Lemma pure_g_get n : pure (g_get n).
Proof. keep nothing. Qed.
Lemma pure_int_of x : pure (int_of x).
Proof. keep nothing. Qed.
#[export] Hint Resolve pure_fld pure_g_get pure_int_of : machine.
Lemma pure_g_fld i k : pure (g_fld i k).
Proof. keep nothing. Qed.
Lemma pure_g_int i k : pure (g_int i k).
Proof. keep nothing. Qed.
Lemma pure_f_get n : pure (f_get n).
Proof. keep nothing. Qed.
Lemma pure_ra0 n : pure (ra0 n).
Proof. keep nothing. Qed.
#[export] Hint Resolve pure_g_fld pure_g_int pure_f_get pure_ra0 : machine.
Lemma pure_xlate ea st : pure (xlate_data ea st).
Proof. keep nothing. Qed.
Lemma pure_mem_ok pa n : pure (mem_ok pa n).
Proof. keep nothing. Qed.
Lemma pure_load_bytes pa ks x : pure (load_bytes pa ks x).
Proof.
  revert x. induction ks as [| k ks IH]; intros x; cbn [load_bytes]; [apply keeps_ret; exact _ |].
  apply keeps_bind; [exact _ | keep nothing | intros b; apply IH].
Qed.
#[export] Hint Resolve pure_xlate pure_mem_ok pure_load_bytes : machine.
Lemma pure_load ea n : pure (load ea n).
Proof. keep nothing. Qed.
Lemma pure_ea_of i k : pure (ea_of i k).
Proof. keep nothing. Qed.
Lemma pure_legal v i : pure (legal v i).
Proof. keep nothing. Qed.
#[export] Hint Resolve pure_load pure_ea_of pure_legal : machine.

Lemma silent_fld i k : silent (fld i k).
Proof. quiet. Qed.
Lemma silent_int_of x : silent (int_of x).
Proof. quiet. Qed.
Lemma silent_g_get n : silent (g_get n).
Proof. quiet. Qed.
Lemma silent_g_set n x : silent (g_set n x).
Proof. quiet. Qed.
#[export] Hint Resolve silent_fld silent_int_of silent_g_get silent_g_set : machine.
Lemma silent_g_fld i k : silent (g_fld i k).
Proof. quiet. Qed.
Lemma silent_g_int i k : silent (g_int i k).
Proof. quiet. Qed.
Lemma silent_g_put i k z : silent (g_put i k z).
Proof. quiet. Qed.
Lemma silent_f_get n : silent (f_get n).
Proof. quiet. Qed.
Lemma silent_f_set n x : silent (f_set n x).
Proof. quiet. Qed.
Lemma silent_ra0 n : silent (ra0 n).
Proof. quiet. Qed.
Lemma silent_mem_ok pa n : silent (mem_ok pa n).
Proof. quiet. Qed.
Lemma silent_mem_set k x : silent (mem_set k x).
Proof. quiet. Qed.
#[export] Hint Resolve silent_g_fld silent_g_int silent_g_put silent_f_get silent_f_set silent_ra0 silent_mem_ok silent_mem_set : machine.
Lemma silent_load_bytes pa ks x : silent (load_bytes pa ks x).
Proof.
  revert x. induction ks as [| k ks IH]; intros x; cbn [load_bytes]; [apply traps_ret |].
  apply silent_bind; [quiet | intros b; apply IH].
Qed.
Lemma silent_setcrf bf x : silent (setcrf bf x).
Proof. quiet. Qed.
Lemma silent_if_rc i r : silent (if_rc i r).
Proof. quiet. Qed.
Lemma silent_ea_of i k : silent (ea_of i k).
Proof. quiet. Qed.
#[export] Hint Resolve silent_load_bytes silent_setcrf silent_if_rc silent_ea_of : machine.

(** The integer instructions that take no exception. *)
Lemma silent_xo_op i : silent (xo_op i).
Proof. quiet. Qed.
Lemma silent_log_op i : silent (log_op i).
Proof. quiet. Qed.
Lemma silent_rotate_op i : silent (rotate_op i).
Proof. quiet. Qed.
Lemma silent_branch i pc : silent (branch i pc).
Proof. quiet. Qed.
Lemma silent_fp_status i base w t a b c old : silent (fp_status i base w t a b c old).
Proof. quiet. Qed.
#[export] Hint Resolve silent_xo_op silent_log_op silent_rotate_op silent_branch silent_fp_status : machine.

(** ** The exceptions *)

(** The architected exceptions of an instruction: the vector, SRR1 flags only
    with a program exception, DAR and DSISR only with a DSI or an alignment
    exception, and SRR0 past the instruction only for [sc]. *)
Definition is_some {A} (o : option A) : bool := match o with Some _ => true | None => false end.
Definition architected (t : Trap) : Prop :=
  existsb (Z.eqb (tvec t)) [0x300; 0x600; 0x700; 0x800; 0xC00; 0x1100; 0x1200; 0x1600] = true /\
  (if tvec t =? 0x700 then existsb (Z.eqb (flags t)) [P_ILLEGAL; P_PRIV; P_TRAP; P_FPE] else flags t =? 0) = true /\
  is_some (t_dar t) = existsb (Z.eqb (tvec t)) [0x300; 0x600] /\ is_some (t_dsisr t) = is_some (t_dar t) /\
  next_pc t = (tvec t =? 0xC00) /\ t_target t = None /\ srr1_mask t = M32.

Lemma architected_align v ea i : architected (align_trap v ea i).
Proof. repeat split. Qed.
#[export] Hint Resolve architected_align : machine.

(** Exceptions of [Q] that leave the state as it was. *)
Ltac precise :=
  intros; cbv beta iota zeta;
  first
    [ known
    | apply traps_raise; [exact _ | first [known | solve [repeat monad_case; repeat split]]]
    | apply traps_silent; known
    | apply traps_bind; [exact _ | apply traps_silent; known | apply pure_keeps; [exact _ | known] | precise]
    | lazymatch goal with
      | |- traps _ _ (bind _ _) => fail
      | |- traps _ _ (match _ with _ => _ end) => head_case; precise
      end
    | apply traps_last; [precise | solve [quiet]]
    | apply traps_bind; [exact _ | precise | solve [keep nothing] | precise]
    | apply traps_silent; solve [quiet]
    | lazymatch goal with |- traps _ _ ?x => unfold_head x; precise end ].

Lemma precise_xlate ea st : traps eq architected (xlate_data ea st).
Proof. unfold xlate_data. precise. Qed.
Lemma precise_legal v i : traps eq architected (legal v i).
Proof. unfold legal. precise. Qed.
#[export] Hint Resolve precise_xlate precise_legal : machine.
Lemma precise_load ea n : traps eq architected (load ea n).
Proof. unfold load. precise. Qed.
Lemma precise_store ea n x : traps eq architected (store ea n x).
Proof. unfold store. precise. Qed.
#[export] Hint Resolve precise_load precise_store : machine.
Lemma precise_spr_op v i : traps eq architected (spr_op v i).
Proof. unfold spr_op. precise. Qed.
Lemma precise_cache_op v i : traps eq architected (cache_op v i).
Proof. unfold cache_op. precise. Qed.
Lemma precise_fp_mem v i base t a b : traps eq architected (fp_mem v i base t a b).
Proof. unfold fp_mem. precise. Qed.
Lemma precise_tw_op i : traps eq architected (tw_op i).
Proof. unfold tw_op. precise. Qed.
#[export] Hint Resolve precise_spr_op precise_cache_op precise_fp_mem precise_tw_op : machine.

(** ** Multiple and string accesses *)
Definition multiple_kinds : list string := ["lm"; "sm"; "lsi"; "lsx"; "ssi"; "ssx"]%string.

(** [s'] is [s] but for registers and memory. *)
Definition registers_and_memory (s s' : State) : Prop := set_gpr (gpr s) (set_mem (mem s) s') = s.

#[export] Instance registers_and_memory_preorder : PreOrder registers_and_memory.
Proof.
  split; [intros [] | intros [] [] []]; unfold registers_and_memory, set_gpr, set_mem; cbn; [reflexivity |].
  intros [=] [=]. subst. reflexivity.
Qed.

Ltac same_rest := idtac; match goal with |- registers_and_memory ?s _ => destruct s; reflexivity end.
Lemma partial_g_set n x : keeps registers_and_memory (g_set n x).
Proof. keep same_rest. Qed.
Lemma partial_mem_set k x : keeps registers_and_memory (mem_set k x).
Proof. keep same_rest. Qed.
#[export] Hint Resolve partial_g_set partial_mem_set : machine.
Lemma partial_store ea n x : keeps registers_and_memory (store ea n x).
Proof. keep nothing. Qed.
#[export] Hint Resolve partial_store : machine.

Lemma eq_registers_and_memory s s' : s = s' -> registers_and_memory s s'.
Proof. intros <-. reflexivity. Qed.
Lemma partial_of_precise {A} (x : M A) : traps eq architected x -> traps registers_and_memory architected x.
Proof. apply traps_weaken; [exact eq_registers_and_memory | auto]. Qed.

(** A computation that touches registers and memory only, one access at a time. *)
Ltac piecewise :=
  intros; cbv beta iota zeta;
  first
    [ known
    | apply partial_of_precise; known
    | apply traps_bind; [exact _ | apply traps_silent; known | apply pure_keeps; [exact _ | known] | piecewise]
    | apply traps_bind; [exact _ | apply traps_silent; known | known | piecewise]
    | apply traps_silent; solve [quiet]
    | apply traps_bind; [exact _ | piecewise | solve [keep nothing] | piecewise]
    | apply traps_each; [exact _ | piecewise | solve [keep nothing]]
    | monad_case; piecewise ].

Lemma partial_load_multiple rt ea : traps registers_and_memory architected (load_multiple rt ea).
Proof. unfold load_multiple. piecewise. Qed.
Lemma partial_store_multiple rt ea : traps registers_and_memory architected (store_multiple rt ea).
Proof. unfold store_multiple. piecewise. Qed.
Lemma partial_load_string ks r ea : traps registers_and_memory architected (load_string ks r ea).
Proof. revert r. induction ks as [| k ks IH]; intros r; cbn [load_string]; piecewise. Qed.
Lemma partial_store_string ks r ea : traps registers_and_memory architected (store_string ks r ea).
Proof. revert r. induction ks as [| k ks IH]; intros r; cbn [store_string]; piecewise. Qed.
#[export] Hint Resolve partial_load_multiple partial_store_multiple partial_load_string partial_store_string : machine.

Lemma precise_load_op i k ea n : traps eq architected (load_op i k ea n).
Proof. unfold load_op. precise. Qed.
Lemma precise_store_op i k ea n : traps eq architected (store_op i k ea n).
Proof. unfold store_op. precise. Qed.
Lemma precise_stcx_op i ea : traps eq architected (stcx_op i ea).
Proof. unfold stcx_op. precise. Qed.
Lemma precise_external_op k ea : traps eq architected (external_op k ea).
Proof. unfold external_op. precise. Qed.
#[export] Hint Resolve precise_load_op precise_store_op precise_stcx_op precise_external_op : machine.

(** What an access of the given kind may have changed when it takes an exception. *)
Definition changed_by (k : string) (s s' : State) : Prop :=
  if str_in k multiple_kinds then registers_and_memory s s' else s = s'.
#[export] Instance changed_by_preorder k : PreOrder (changed_by k).
Proof. unfold changed_by. destruct (str_in k multiple_kinds); exact _. Qed.

Lemma changed_of_precise k {A} (x : M A) : traps eq architected x -> traps (changed_by k) architected x.
Proof. apply traps_weaken; [| auto]. intros s s' <-. reflexivity. Qed.

Lemma access_traps i k ea n : traps (changed_by k) architected (access i k ea n).
Proof.
  unfold changed_by. destruct (str_in k multiple_kinds) eqn:Ek.
  - unfold access. repeat (monad_case; [piecewise |]). piecewise.
  - unfold multiple_kinds, str_in in Ek. cbn [existsb] in Ek. repeat (apply orb_false_iff in Ek as [? Ek]).
    unfold access, str_in. cbn [existsb].
    repeat match goal with H : String.eqb k _ = false |- _ => rewrite H; clear H end. cbn [orb]. precise.
Qed.
#[export] Hint Resolve access_traps : machine.

Lemma mem_op_traps v i k : traps (changed_by k) architected (mem_op v i k).
Proof.
  unfold mem_op. apply traps_bind; [exact _ | apply traps_silent; known | apply pure_keeps; [exact _ | known] |]. intros ea.
  apply traps_bind; [exact _ | apply traps_silent; known | apply pure_keeps; [exact _ | known] |]. intros s.
  case_if; [apply traps_raise; [exact _ | known] |]. case_if; [apply traps_raise; [exact _ | known] |].
  apply traps_last; [known | solve [quiet]].
Qed.

(** The case of a chain of instruction names. *)
Ltac name_case :=
  match goal with
  | |- traps _ _ (if ?b then _ else _) => lazymatch type of b with bool => destruct b end
  end.

(** The kind of a memory access, when the instruction is one of them. *)
Definition kind_of (i : Insn) : string := default "" (kind i).

Lemma system_op_traps v i : traps (changed_by (kind_of i)) architected (system_op v i).
Proof.
  unfold system_op.
  repeat (name_case; [apply changed_of_precise; solve [known | apply traps_silent; solve [quiet] | precise] |]).
  unfold kind_of. destruct (kind i); [apply mem_op_traps | apply traps_fail].
Qed.

Lemma integer_op_traps v i pc : traps (changed_by (kind_of i)) architected (integer_op v i pc).
Proof.
  unfold integer_op.
  repeat (name_case; [apply changed_of_precise; solve [known | apply traps_silent; solve [quiet]] |]).
  apply system_op_traps.
Qed.

(** ** Floating point *)

(** [s'] is [s] but for the floating-point registers, FPSCR, CR and the mask of
    predicted bits. *)
Definition fp_state (s s' : State) : Prop :=
  set_fpr (fpr s) (set_fpscr (fpscr s) (set_cr (cr s) (set_dontcare (dontcare s) s'))) = s.

#[export] Instance fp_state_preorder : PreOrder fp_state.
Proof.
  split; [intros [] | intros [] [] []]; unfold fp_state, set_fpr, set_fpscr, set_cr, set_dontcare; cbn; [reflexivity |].
  intros [=] [=]. subst. reflexivity.
Qed.
Ltac fp_rest := idtac; match goal with |- fp_state ?s _ => destruct s; reflexivity end.

Lemma fp_f_set n x : keeps fp_state (f_set n x).
Proof. keep fp_rest. Qed.
Lemma fp_setcrf bf x : keeps fp_state (setcrf bf x).
Proof. keep fp_rest. Qed.
Lemma fp_set_dontcare k x : keeps fp_state (set_dontcare_key k x).
Proof. keep fp_rest. Qed.
#[export] Hint Resolve fp_f_set fp_setcrf fp_set_dontcare : machine.
Lemma fp_status_keeps i base w t a b c old : keeps fp_state (fp_status i base w t a b c old).
Proof. keep nothing. Qed.

(** What a floating-point exception leaves: the instruction has been executed,
    MSR[FE0] or MSR[FE1] is set and the FPSCR shows an enabled exception. *)
Definition fp_enabled (t : Trap) (s s' : State) : Prop :=
  t = trap 0x700 P_FPE /\ fp_state s s' /\ msr_on s' (Z.lor MSR_FE0 MSR_FE1) = true /\
  truthy (bit_of (fpscr s') 30) = true.

Lemma fp_op_traps v i s s' t :
  fp_op v i s = (s', Trapped t) -> s = s' /\ architected t \/ fp_enabled t s s'.
Proof.
  unfold fp_op. case_if; [intros H; left; exact (precise_fp_mem _ _ _ _ _ _ _ _ _ H) |].
  set (st := fp_status _ _ _ _ _ _ _). unfold bind at 1. cbn [get fst snd].
  pose proof (fp_status_keeps i (rstrip_dot (m i)) (word i) (bits5 (word i) 21) (bits5 (word i) 16) (bits5 (word i) 11)
                (bits5 (word i) 6) (fpscr s) s) as Hk.
  pose proof (silent_fp_status i (rstrip_dot (m i)) (word i) (bits5 (word i) 21) (bits5 (word i) 16) (bits5 (word i) 11)
                (bits5 (word i) 6) (fpscr s) s) as Hs.
  fold st in Hk, Hs. unfold bind at 1. destruct (st (fpscr s) s) as [s1 [[new mk] | u | e]]; cbn [fst] in Hk;
    [| intros [= <- <-]; destruct (Hs _ _ eq_refl) as [_ []] | discriminate].
  clear Hs st. intros H. right.
  destruct (negb (mk =? M32)), (truthy (Z.land (word i) 1)); cbv [when bind modify get set_dontcare_key setcrf ret] in H;
    match type of H with
    | (if msr_on _ _ && _ then _ else _) ?s2 = _ =>
        assert (fp_state s s2) by (transitivity s1; [exact Hk | destruct s1; reflexivity]);
        destruct (msr_on s2 _) eqn:E1, (truthy (bit_of new 30)) eqn:E2; cbn [andb] in H; try discriminate H;
        injection H as <- <-
    end; (split; [reflexivity | split; [assumption | split; assumption]]).
Qed.

(** C21. Exceptions are precise. Whatever the instruction, if a step raises an
    exception it is one of the architected ones, with DAR and DSISR exactly for
    DSI and alignment, SRR1 flags exactly for a program exception and the next
    pc exactly for [sc]; and the state is the one before the instruction, except
    that lmw, stmw and the string forms may have done part of their registers
    and memory, and an enabled floating-point exception is reported with the
    instruction executed, FPSCR[FEX] and MSR[FE0] or [FE1] set. *)
Theorem step_precise v i pc s s' t :
  step v i pc s = (s', Trapped t) ->
  architected t /\ (s = s' \/ (str_in (kind_of i) multiple_kinds = true /\ registers_and_memory s s')) \/
  fp_enabled t s s'.
Proof.
  unfold step. case_if.
  { intros H. assert (Hs : silent (match sem i with
       | Some f => bind get (fun s0 => bind (lift (f s0)) (fun s'0 => modify (fun _ => s'0) ;;; done))
       | None => fail KeyError end)) by quiet.
    destruct (Hs _ _ _ H) as [_ []]. }
  unfold bind at 1. pose proof (precise_legal v i s) as Hl. pose proof (pure_legal v i s) as Hp.
  destruct (legal v i s) as [s1 [[] | u | e]]; cbn [fst] in Hp; subst s1; [| intros [= <- <-]; destruct (Hl _ _ eq_refl); auto | discriminate].
  destruct (fpop i).
  - intros H. destruct (fp_op_traps _ _ _ _ _ H) as [[-> Ha] | Hf]; auto.
  - intros H. destruct (integer_op_traps _ _ _ _ _ _ H) as [Hc Ha]. left. split; [exact Ha |].
    unfold changed_by in Hc. destruct (str_in (kind_of i) multiple_kinds); auto.
Qed.

(** A store to the read-only alias, from a state with MSR[DR] set. *)
Definition alias_state : State :=
  {| gpr := <[3%nat := Int RO_EA]> (repeat (Int 0) 32); cr := 0; xer := 0; lr := Int 0; ctr := Int 0; msr := MSR_SUP;
     srr0 := Int 0; srr1 := Int 0; dar := Int 0; dsisr := Int 0; sprg := repeat (Int 0) 4; sr := repeat (Int 0) 16;
     ear := 0; mem := repeat 0 256; fpr := repeat 0 32; fpscr := 0; resv := None; dontcare := ∅; backing := ∅;
     icbi := None; vec := 0 |}.
Definition alias_store : Insn := with_kind "s" false [("n"%string, 4)] (d_mem "stw" 36 5 0 3).

Lemma step_precise_witness :
  exists t, step v603e alias_store 0 alias_state = (alias_state, Trapped t) /\ t_dar t = Some RO_EA /\
    (architected t /\ (alias_state = alias_state \/
       (str_in (kind_of alias_store) multiple_kinds = true /\ registers_and_memory alias_state alias_state)) \/
     fp_enabled t alias_state alias_state).
Proof.
  exists (trap_data 0x300 RO_EA 0x0A000000 M32). split; [vm_compute; reflexivity | split; [reflexivity |]].
  apply (step_precise v603e alias_store 0 alias_state alias_state). vm_compute. reflexivity.
Defined.
