(* ===== verification/SelftestMemory.v ===== *)
(** * The self-test model's memory

    Translation of a data address, the buffer behind it, and loads that read
    what stores wrote, byte-reversed forms included. *)
From S2P Require Import Prelude FpReference FpPpc FpStatus SelftestInsn SelftestMachine SelftestPrecise.
Import selftest_insn selftest.

(** ** Translation *)

(** What an access to [ea] with MSR[DR] set meets. *)
Inductive region : Type := Alias | Direct | Miss | Plain.
Definition region_of (ea : Z) : region :=
  if ea <? RO_EA + BAT_BYTES then Alias
  else if (DIRECT_EA <=? ea) && (ea <? DIRECT_EA + 2 ^ 28) then Direct
  else if (MISS_EA <=? ea) && (ea <? MISS_EA + 2 ^ 28) then Miss
  else Plain.

Definition translated (on : bool) (ea : Z) (is_store : bool) : outcome Z :=
  if on then
    match region_of ea with
    | Alias => if is_store then Trapped (trap_data 0x300 ea 0x0A000000 M32) else Done (ea + (RO_PA - RO_EA))
    | Direct => Trapped (trap_data 0x300 ea (if is_store then 0x06000000 else 0x04000000) M32)
    | Miss => Trapped (trap (if is_store then 0x1200 else 0x1100) 0)
    | Plain => Done ea
    end
  else Done ea.

Lemma segment_bounds ea k : 0 <= ea -> (Z.shiftr ea 28 =? Z.shiftr (k * 2 ^ 28) 28) = (k * 2 ^ 28 <=? ea) && (ea <? k * 2 ^ 28 + 2 ^ 28).
Proof.
  intros Hea. rewrite !Z.shiftr_div_pow2, Z.div_mul by lia.
  apply Bool.eq_iff_eq_true. rewrite andb_true_iff, Z.eqb_eq, Z.leb_le, Z.ltb_lt. word_lia.
Qed.

(** C22. [xlate_data] in full. With MSR[DR] clear an address is itself. With it
    set, every address below the end of the read-only alias, those below its
    start included, is the alias: a store takes the protection DSI and a load
    is displaced to the alias's block; segment 3 takes the direct-store DSI and
    segment 4 the data TLB miss of the access; anything else is itself. The
    state never changes. *)
Theorem xlate_data_correct ea st s :
  0 <= ea < 2 ^ 32 -> xlate_data ea st s = (s, translated (msr_on s MSR_DR) ea st).
Proof.
  intros Hea. unfold xlate_data. cbn [bind get]. change M32 with MASK32. rewrite mask32_id by lia.
  change DIRECT_EA with (3 * 2 ^ 28). change MISS_EA with (4 * 2 ^ 28). rewrite !segment_bounds by lia.
  unfold translated, region_of. change DIRECT_EA with (3 * 2 ^ 28). change MISS_EA with (4 * 2 ^ 28).
  replace (ea - RO_EA <? BAT_BYTES) with (ea <? RO_EA + BAT_BYTES)
    by (apply Bool.eq_iff_eq_true; rewrite !Z.ltb_lt; lia).
  destruct (msr_on s MSR_DR); rewrite ?andb_false_r, ?andb_true_r; [| reflexivity].
  repeat (case_if; [destruct st; try reflexivity |]); [| reflexivity].
  unfold ret. do 2 f_equal. lia.
Qed.

(** Address 0 with MSR[DR] set takes the alias's DSI. *)
Lemma xlate_data_correct_witness :
  0 <= 0 < 2 ^ 32 /\ xlate_data 0 true alias_state = (alias_state, translated (msr_on alias_state MSR_DR) 0 true) /\
  translated (msr_on alias_state MSR_DR) 0 true = Trapped (trap_data 0x300 0 0x0A000000 M32).
Proof. split; [lia | split; [apply (xlate_data_correct 0 true alias_state); lia | reflexivity]]. Defined.

(** An address a store reaches, a load reaches too. *)
Lemma xlate_load_of_store ea s s' pa :
  xlate_data ea true s = (s', Done pa) -> xlate_data ea false s = (s, Done pa).
Proof.
  unfold xlate_data. cbn [bind get]. case_if; [intros [=] |]. case_if; [intros [=] |]. case_if; [intros [=] |]. intros [= <- <-]. reflexivity.
Qed.

Lemma xlate_set_mem ea st l s pa : xlate_data ea st s = (s, Done pa) -> xlate_data ea st (set_mem l s) = (set_mem l s, Done pa).
Proof.
  unfold xlate_data. cbn [bind get msr_on]. change (msr_on (set_mem l s) MSR_DR) with (msr_on s MSR_DR).
  repeat case_if; intros [= ]; subst; try reflexivity.
Qed.

(** ** The buffer *)

(** Byte [k] of an [n]-byte big-endian value. *)
Definition byte_of (n x k : Z) : Z := Z.land (Z.shiftr x (8 * (n - 1 - k))) 0xFF.

Lemma byte_of_spec n x k : k < n -> byte_of n x k = (x / 2 ^ (8 * (n - 1 - k))) mod 2 ^ 8.
Proof. intros Hk. unfold byte_of. change 0xFF with (Z.ones 8). rewrite Z.land_ones, Z.shiftr_div_pow2 by lia. reflexivity. Qed.

(** One more byte of a value read from its top. *)
Lemma next_byte x j m :
  0 <= j -> 0 <= m ->
  Z.lor (Z.shiftl ((x / 2 ^ (8 * (m + 1))) mod 2 ^ (8 * j)) 8) ((x / 2 ^ (8 * m)) mod 2 ^ 8) =
  (x / 2 ^ (8 * m)) mod 2 ^ (8 * (j + 1)).
Proof.
  intros Hj Hm. rewrite lor_shiftl_add by (try apply Z.mod_pos_bound; lia).
  replace (8 * (m + 1)) with (8 * m + 8) by ring. rewrite Z.pow_add_r, <- Z.div_div by lia.
  replace (8 * (j + 1)) with (8 + 8 * j) by ring. rewrite (Z.pow_add_r 2 8) by lia.
  rewrite Z.rem_mul_r by lia. ring.
Qed.

Lemma mem_get_eq s k b : 0 <= k < Z.of_nat (length (mem s)) -> mem s !! Z.to_nat k = Some b -> mem_get k s = (s, Done b).
Proof.
  intros Hk E. unfold mem_get. cbn [bind get lift]. unfold py_get, py_index. rewrite (proj2 (in_range_iff 0 _ k)) by lia.
  rewrite E. reflexivity.
Qed.
Lemma mem_set_eq s k b :
  0 <= k < Z.of_nat (length (mem s)) -> mem_set k b s = (set_mem (<[Z.to_nat k := b]> (mem s)) s, Done tt).
Proof.
  intros Hk. unfold mem_set. cbn [bind get lift]. unfold py_set, py_index. rewrite (proj2 (in_range_iff 0 _ k)) by lia. reflexivity.
Qed.

Lemma set_mem_twice a b s : set_mem a (set_mem b s) = set_mem a s.
Proof. reflexivity. Qed.
Lemma set_mem_same s : set_mem (mem s) s = s.
Proof. destruct s. reflexivity. Qed.

(** Reading the bytes of [x] from [p] on. *)
Lemma load_bytes_eq s n x p j :
  0 <= j <= n -> 0 <= p -> p + n <= Z.of_nat (length (mem s)) ->
  (forall k, 0 <= k < n -> mem s !! Z.to_nat (p + k) = Some (byte_of n x k)) ->
  load_bytes (BUF + p) (seqZ j (n - j)) ((x / 2 ^ (8 * (n - j))) mod 2 ^ (8 * j)) s = (s, Done (x mod 2 ^ (8 * n))).
Proof.
  intros Hj Hp Hlen Hm. remember (Z.to_nat (n - j)) as c eqn:Ec. revert j Hj Ec. induction c as [| c IH]; intros j Hj Ec.
  - assert (j = n) as -> by lia. rewrite Z.sub_diag, seqZ_nil by lia. cbn [load_bytes ret]. rewrite Z.mul_0_r, Z.div_1_r. reflexivity.
  - rewrite seqZ_cons by lia. cbn [load_bytes]. unfold bind.
    replace (BUF + p - BUF + j) with (p + j) by ring. rewrite (mem_get_eq s (p + j) (byte_of n x j)) by (try apply Hm; lia).
    rewrite byte_of_spec by lia. replace (n - j) with (n - 1 - j + 1) by ring. rewrite next_byte by lia.
    replace (n - 1 - j) with (n - (j + 1)) by ring. replace (Z.pred (n - (j + 1) + 1)) with (n - (j + 1)) by lia.
    change (Z.succ j) with (j + 1). apply IH; lia.
Qed.

(** Writing them. *)
Lemma store_bytes_eq s n x p j :
  0 <= j <= n -> 0 <= p -> p + n <= Z.of_nat (length (mem s)) ->
  (forall k, 0 <= k < j -> mem s !! Z.to_nat (p + k) = Some (byte_of n x k)) ->
  exists l, each (seqZ j (n - j)) (fun k => bind (int_of (Int x)) (fun z => mem_set (BUF + p - BUF + k)
              (Z.land (Z.shiftr z (8 * (n - 1 - k))) 0xFF))) s = (set_mem l s, Done tt) /\
    length l = length (mem s) /\
    (forall k, 0 <= k < n -> l !! Z.to_nat (p + k) = Some (byte_of n x k)) /\
    (forall k, 0 <= k -> ~ (p + j <= k < p + n) -> l !! Z.to_nat k = mem s !! Z.to_nat k).
Proof.
  intros Hj Hp. remember (Z.to_nat (n - j)) as c eqn:Ec. revert s j Hj Ec. induction c as [| c IH]; intros s j Hj Ec Hlen Hm.
  - assert (j = n) as -> by lia. rewrite Z.sub_diag, seqZ_nil by lia. exists (mem s). cbn [each ret].
    rewrite set_mem_same. auto.
  - rewrite seqZ_cons by lia. cbn [each]. unfold bind at 1. cbn [int_of as_int lift bind ret].
    replace (BUF + p - BUF + j) with (p + j) by ring. rewrite mem_set_eq by lia. fold (byte_of n x j).
    set (s1 := set_mem _ s). assert (Hl1 : length (mem s1) = length (mem s)) by apply length_insert.
    destruct (IH s1 (j + 1) ltac:(lia) ltac:(lia) ltac:(lia)) as (l & E & Hl & Hin & Hout).
    { intros k Hk. destruct (Z.eq_dec k j) as [-> |]; cbn [s1 mem set_mem].
      - apply list_lookup_insert_eq. lia.
      - rewrite list_lookup_insert_ne by lia. apply Hm. lia. }
    exists l. change (Z.succ j) with (j + 1). replace (Z.pred (n - j)) with (n - (j + 1)) by lia.
    split; [exact E | split; [lia | split; [exact Hin |]]]. intros k Hk Hk'. rewrite Hout by lia.
    cbn [s1 mem set_mem]. apply list_lookup_insert_ne. lia.
Qed.

Definition stub (pa : Z) : bool := (0 <=? pa - STUB) && (pa - STUB <? 8).

(** A load reads what a store wrote. A store of [n] bytes that returns
    either went to the stub of the self-modifying cases, which is not part of
    the state, and changed nothing; or lies in the 256-byte buffer, changed its
    [n] bytes only, and a load of the same address and size then gives the low
    [n] bytes of the value, with no state change. *)
Theorem store_then_load ea n x s s' :
  length (mem s) = 256%nat -> 0 < n -> store ea n (Int x) s = (s', Done tt) ->
  exists pa, xlate_data ea true s = (s, Done pa) /\
    if stub pa then s' = s
    else BUF <= pa /\ pa + n <= BUF + BUF_WORDS * 4 /\ s' = set_mem (mem s') s /\ length (mem s') = 256%nat /\
         (forall k, 0 <= k -> ~ (pa - BUF <= k < pa - BUF + n) -> mem s' !! Z.to_nat k = mem s !! Z.to_nat k) /\
         load ea n s' = (s', Done (x mod 2 ^ (8 * n))).
Proof.
  intros Hlen Hn. unfold store. unfold bind at 1. pose proof (pure_xlate ea true s) as Hp.
  destruct (xlate_data ea true s) as [s1 [pa | t | e]] eqn:Ex; cbn [fst] in Hp; subst s1; [| intros [=] | intros [=]].
  intros H. exists pa. split; [reflexivity |]. fold (stub pa) in H.
  destruct (stub pa); [injection H as <-; reflexivity |].
  unfold mem_ok, bind at 1 in H. destruct (Z.leb_spec BUF pa), (Z.leb_spec (pa + n) (BUF + BUF_WORDS * 4));
    cbn [andb fail] in H; try discriminate H. cbn [ret] in H.
  destruct (store_bytes_eq s n x (pa - BUF) 0) as (l & E & Hl & Hin & Hout); try lia.
  { rewrite Hlen. change (Z.of_nat 256) with (BUF_WORDS * 4). lia. }
  unfold range in H. replace (BUF + (pa - BUF)) with pa in E by ring. rewrite Z.sub_0_r in E. rewrite E in H.
  injection H as <-. cbn [mem set_mem]. repeat (split; [first [assumption | reflexivity | lia] |]).
  split; [intros k Hk Hk'; apply Hout; lia |].
  unfold load. unfold bind at 1. rewrite (xlate_set_mem _ _ _ _ _ (xlate_load_of_store _ _ _ _ Ex)).
  unfold mem_ok, bind at 1. destruct (Z.leb_spec BUF pa), (Z.leb_spec (pa + n) (BUF + BUF_WORDS * 4)); cbn [andb]; try lia.
  cbn [ret]. pose proof (load_bytes_eq (set_mem l s) n x (pa - BUF) 0) as L.
  replace (BUF + (pa - BUF)) with pa in L by ring. rewrite Z.sub_0_r, Z.mul_0_r, Z.pow_0_r, Z.mod_1_r in L.
  apply L; cbn [mem set_mem]; [lia | lia | | exact Hin]. rewrite Hl, Hlen. change (Z.of_nat 256) with (BUF_WORDS * 4). lia.
Qed.

Lemma store_then_load_witness :
  exists s', store (BUF + 5) 4 (Int 0x89abcdef) alias_state = (s', Done tt) /\
  exists pa, xlate_data (BUF + 5) true alias_state = (alias_state, Done pa) /\
    if stub pa then s' = alias_state
    else BUF <= pa /\ pa + 4 <= BUF + BUF_WORDS * 4 /\ s' = set_mem (mem s') alias_state /\ length (mem s') = 256%nat /\
         (forall k, 0 <= k -> ~ (pa - BUF <= k < pa - BUF + 4) -> mem s' !! Z.to_nat k = mem alias_state !! Z.to_nat k) /\
         load (BUF + 5) 4 s' = (s', Done (0x89abcdef mod 2 ^ (8 * 4))).
Proof.
  eexists. split; [vm_compute; reflexivity |].
  apply (store_then_load (BUF + 5) 4 0x89abcdef alias_state); [reflexivity | lia | vm_compute; reflexivity].
Defined.

(** ** Byte-reversed accesses *)
Lemma reverse_fold_testbit n x l r i :
  0 <= i -> (forall k, In k l -> 0 <= k < n) ->
  Z.testbit (fold_left (fun r k => Z.lor r (Z.shiftl (Z.land (Z.shiftr x (8 * k)) 0xFF) (8 * (n - 1 - k)))) l r) i =
  Z.testbit r i || existsb (fun k => (k =? n - 1 - i / 8) && Z.testbit x (8 * k + i mod 8)) l.
Proof.
  intros Hi. revert r. induction l as [| k l IH]; intros r Hl; cbn [fold_left existsb]; [rewrite orb_false_r; reflexivity |].
  assert (Hk : 0 <= k < n) by (apply Hl; left; reflexivity).
  rewrite IH by (intros; apply Hl; right; assumption). rewrite Z.lor_spec, orb_assoc. do 2 f_equal.
  rewrite Z.shiftl_spec by lia. change 0xFF with (Z.ones 8).
  pose proof (Z.div_mod i 8 ltac:(lia)). pose proof (Z.mod_pos_bound i 8 ltac:(lia)).
  destruct (Z.ltb_spec (i - 8 * (n - 1 - k)) 0).
  - rewrite Z.testbit_neg_r by lia. rewrite (proj2 (Z.eqb_neq k _)) by lia. reflexivity.
  - rewrite Z.land_spec, testbit_ones, Z.shiftr_spec by lia.
    destruct (Z.eqb_spec k (n - 1 - i / 8)) as [E | E].
    + rewrite (proj2 (Z.ltb_lt _ 8)), andb_true_r by lia. cbn [andb]. f_equal. lia.
    + rewrite (proj2 (Z.ltb_ge _ 8)) by lia. rewrite andb_false_r. reflexivity.
Qed.

Lemma byte_reverse_testbit n x i :
  0 <= i -> Z.testbit (byte_reverse n x) i = (i <? 8 * n) && Z.testbit x (8 * (n - 1 - i / 8) + i mod 8).
Proof.
  intros Hi. unfold byte_reverse, range. rewrite reverse_fold_testbit, Z.bits_0 by (try assumption; intros k Hk; apply in_seqZ in Hk; lia).
  cbn [orb]. pose proof (Z.div_mod i 8 ltac:(lia)). pose proof (Z.mod_pos_bound i 8 ltac:(lia)).
  apply Bool.eq_iff_eq_true. rewrite existsb_exists, andb_true_iff, Z.ltb_lt. split.
  - intros (k & Hk & Ht). apply in_seqZ in Hk. apply andb_true_iff in Ht as [E Ht]. apply Z.eqb_eq in E. subst k.
    split; [lia | exact Ht].
  - intros [Hlt Ht]. exists (n - 1 - i / 8). rewrite Z.eqb_refl. split; [| exact Ht].
    apply list_elem_of_In, elem_of_seqZ. lia.
Qed.

Lemma byte_reverse_involutive n x : 0 <= n -> 0 <= x < 2 ^ (8 * n) -> byte_reverse n (byte_reverse n x) = x.
Proof.
  intros Hn Hx. apply Z.bits_inj'. intros i Hi. rewrite byte_reverse_testbit by lia.
  pose proof (Z.div_mod i 8 ltac:(lia)). pose proof (Z.mod_pos_bound i 8 ltac:(lia)).
  destruct (Z.ltb_spec i (8 * n)) as [Hlt | Hge]; cbn [andb]; [| symmetry; apply (testbit_high x (8 * n)); lia].
  set (q := n - 1 - i / 8). assert (Hq : 0 <= q < n) by lia. set (r := i mod 8) in *.
  rewrite byte_reverse_testbit by lia. assert (E1 : (8 * q + r) / 8 = q) by (rewrite Z.mul_comm, Z.div_add_l, (Z.div_small r) by lia; lia).
  assert (E2 : (8 * q + r) mod 8 = r) by (rewrite Z.add_comm, Z.mul_comm, Z.mod_add, Z.mod_small by lia; lia).
  rewrite E1, E2, (proj2 (Z.ltb_lt _ (8 * n))) by lia. cbn [andb]. f_equal. lia.
Qed.

Lemma byte_reverse_range n x : 0 <= n -> 0 <= byte_reverse n x < 2 ^ (8 * n).
Proof.
  intros Hn. assert (0 <= byte_reverse n x).
  { unfold byte_reverse. assert (H : forall l r, 0 <= r -> 0 <= fold_left (fun r k => Z.lor r (Z.shiftl (Z.land (Z.shiftr x (8 * k)) 0xFF) (8 * (n - 1 - k)))) l r).
    { induction l as [| k l IH]; intros r Hr; [exact Hr |]. cbn [fold_left]. apply IH, Z.lor_nonneg. split; [exact Hr |].
      apply Z.shiftl_nonneg, Z.land_nonneg. right. lia. }
    apply H. lia. }
  split; [assumption |]. apply bound_of_bits; [lia | assumption |]. intros i Hi.
  rewrite byte_reverse_testbit, (proj2 (Z.ltb_ge _ _)) by lia. reflexivity.
Qed.

(** A store form and the load form of the same byte order. *)
Definition paired (ks kl : string) : bool :=
  (String.eqb ks "s" && str_in kl ["l"; "larx"] || String.eqb ks "sbr" && String.eqb kl "lbr")%string.

Lemma paired_cases ks kl :
  paired ks kl = true -> (ks = "s" /\ (kl = "l" \/ kl = "larx") \/ ks = "sbr" /\ kl = "lbr")%string.
Proof.
  unfold paired, str_in. cbn [existsb]. rewrite !orb_true_iff, !andb_true_iff, !orb_true_iff, !String.eqb_eq. intuition discriminate.
Qed.

Lemma g_put_eq i k rt z s :
  dict_get (f i) k = Some rt -> 0 <= rt < Z.of_nat (length (gpr s)) ->
  g_put i k z s = (set_gpr (<[Z.to_nat rt := Int z]> (gpr s)) s, Done tt).
Proof.
  intros E Hr. unfold g_put, fld. rewrite E. cbn [bind ret]. unfold g_set. cbn [bind get lift].
  unfold py_set, py_index. rewrite (proj2 (in_range_iff 0 _ rt)) by lia. reflexivity.
Qed.

(** C23. A register stored and loaded back in the same byte order, plain or
    byte-reversed, when the access is to the buffer: [stwbrx] then [lwbrx], for
    instance. The store lies in the buffer and changes its [n] bytes and nothing else
    of the machine: every other byte and all other state are as before. The load
    leaves the low [n] bytes of the register that was stored in the register it names,
    lwarx sets the reservation, and nothing else changes. *)
Theorem stored_register_comes_back i j ks kl ea n s s1 rt a pa :
  length (mem s) = 256%nat -> 0 < n -> paired ks kl = true ->
  g_int i "rt" s = (s, Done a) -> store_op i ks ea n s = (s1, Done tt) ->
  xlate_data ea true s = (s, Done pa) -> stub pa = false ->
  dict_get (f j) "rt" = Some rt -> 0 <= rt < Z.of_nat (length (gpr s1)) ->
  BUF <= pa /\ pa + n <= BUF + BUF_WORDS * 4 /\
  s1 = set_mem (mem s1) s /\ length (mem s1) = length (mem s) /\
  (forall k, 0 <= k -> ~ (pa - BUF <= k < pa - BUF + n) -> mem s1 !! Z.to_nat k = mem s !! Z.to_nat k) /\
  load_op j kl ea n s1 = (set_gpr (<[Z.to_nat rt := Int (a mod 2 ^ (8 * n))]> (gpr s1))
                             (if String.eqb kl "larx" then set_resv (Some ea) s1 else s1), Done tt).
Proof.
  intros Hlen Hn Hp Ha Hst Hx Hstub Hrt Hr. pose proof (Z.mod_pos_bound a (2 ^ (8 * n)) ltac:(lia)) as Hb.
  unfold store_op in Hst. unfold bind at 1 in Hst. rewrite Ha, Z.shiftl_1_l, land_ones_mod in Hst by lia. cbv zeta in Hst.
  set (y := if String.eqb ks "sbr" then _ else _) in Hst.
  assert (Hst' : store ea n (Int y) s = (s1, Done tt)).
  { unfold bind at 1 in Hst. destruct (store ea n (Int y) s) as [s0 [[] | u | e]]; try discriminate Hst.
    destruct (paired_cases _ _ Hp) as [[-> _] | [-> _]]; exact Hst. }
  destruct (store_then_load _ _ _ _ _ Hlen Hn Hst') as (pa' & Hx' & R). rewrite Hx in Hx'. injection Hx' as <-.
  rewrite Hstub in R. destruct R as (Hlo & Hhi & Hs1 & Hl1 & Hout & Hl). rewrite Hlen.
  repeat (split; [assumption |]).
  unfold load_op. unfold bind at 1. rewrite Hl. cbv zeta.
  destruct (paired_cases _ _ Hp) as [[-> [-> | ->]] | [-> ->]]; subst y; str_tests; cbv [when bind ret modify];
    rewrite (g_put_eq j "rt" rt) by (exact Hrt || exact Hr); f_equal; f_equal; f_equal; f_equal.
  - rewrite Z.mod_mod by lia. reflexivity.
  - rewrite Z.mod_mod by lia. reflexivity.
  - rewrite (Z.mod_small (byte_reverse n _)) by (apply byte_reverse_range; lia). f_equal.
    apply byte_reverse_involutive; lia.
Qed.

(** [stwbrx r5] then [lwbrx r6] at the start of the buffer. *)
Definition reverse_state : State := set_gpr (<[5%nat := Int 0x89abcdef]> (gpr alias_state)) alias_state.
Definition reversed (m0 : string) (xo_ rt : Z) : Insn := x_form m0 xo_ rt 3 4 0.

Lemma stored_register_comes_back_witness :
  exists s1, store_op (reversed "stwbrx" 662 5) "sbr" BUF 4 reverse_state = (s1, Done tt) /\
    take 4 (mem s1) = [0xef; 0xcd; 0xab; 0x89] /\
    (forall k, 0 <= k -> ~ (0 <= k < 4) -> mem s1 !! Z.to_nat k = mem reverse_state !! Z.to_nat k) /\
    load_op (reversed "lwbrx" 534 6) "lbr" BUF 4 s1 =
      (set_gpr (<[Z.to_nat 6 := Int (0x89abcdef mod 2 ^ (8 * 4))]> (gpr s1)) s1, Done tt).
Proof.
  eexists. split; [vm_compute; reflexivity |]. split; [reflexivity |].
  apply (stored_register_comes_back (reversed "stwbrx" 662 5) (reversed "lwbrx" 534 6) "sbr" "lbr" BUF 4 reverse_state
           _ 6 0x89abcdef BUF); try (vm_compute; reflexivity). vm_compute. split; [discriminate | reflexivity].
Defined.
