(* ===== verification/SelftestFamilies.v ===== *)
(** * The self-test model and the family oracles

    [Machine.step] and the family modules compute the same results and flags:
    the step of an instruction built by its constructor leaves the registers,
    XER and CR that the family's [evaluate] gives for the same operands. *)
From S2P Require Import Prelude ExecResult AddFamily LogicalFamily ShiftFamily RotateFamily CompareFamily ProgramFamilies.
From S2P Require Import FpReference FpPpc FpStatus SelftestInsn SelftestMachine SelftestPrecise.
Import selftest_insn selftest.

Abbreviation is_word := ExecResult.word.
Definition overflow (s : State) : Z := Z.land (Z.shiftr (xer s) 30) 1.

(** [s'] is [s] with [v] in register [d], the given CA, OV, SO and CR0, and
    nothing else changed. *)
Record executed (s : State) (d v ca ov so0 cr0 : Z) (s' : State) : Prop := {
  ex_gpr : gpr s' = <[Z.to_nat d := Int v]> (gpr s);
  ex_ca : carry s' = ca;
  ex_ov : overflow s' = ov;
  ex_so : so s' = so0;
  ex_cr0 : cr0_of (cr s') = cr0;
  ex_xer : Z.land (xer s') (Z.ones 29) = Z.land (xer s) (Z.ones 29);
  ex_cr : Z.land (cr s') (Z.ones 28) = Z.land (cr s) (Z.ones 28);
  ex_rest : set_gpr (gpr s) (set_cr (cr s) (set_xer (xer s) s')) = s
}.

(** The states the theorem is about: 32 registers, and words in XER and CR. *)
Record ready (s : State) : Prop := { rd_gpr : length (gpr s) = 32%nat; rd_xer : is_word (xer s); rd_cr : is_word (cr s) }.
Definition holds (s : State) (r x : Z) : Prop := 0 <= r < 32 /\ gpr s !! Z.to_nat r = Some (Int x) /\ is_word x.

(** ** Words, bit by bit *)
Lemma word_testbit_high x i : is_word x -> 32 <= i -> Z.testbit x i = false.
Proof. intros Hx Hi. apply (testbit_high x 32); assumption. Qed.

Lemma testbit_clear x b i : 0 <= b -> 0 <= i -> Z.testbit (Z.land (Z.land x (Z.lnot (Z.shiftl 1 b))) M32) i = (i <? 32) && negb (b =? i) && Z.testbit x i.
Proof.
  intros Hb Hi. change M32 with MASK32. rewrite !Z.land_spec, Z.lnot_spec, testbit_shiftl_one, testbit_mask32 by lia.
  destruct (Z.testbit x i), (b =? i), (i <? 32); reflexivity.
Qed.

Lemma is_word_bits x : (forall i, 32 <= i -> Z.testbit x i = false) -> 0 <= x -> is_word x.
Proof. intros H Hx. split; [exact Hx | apply bound_of_bits; [lia | exact Hx | exact H]]. Qed.

(** XER after [ca] and after [ov]. *)
Definition ca_word (c : bool) (x : Z) : Z := Z.lor (Z.land (Z.land x (Z.lnot 0x20000000)) M32) (if c then 0x20000000 else 0).
Definition ov_word (o : bool) (x : Z) : Z :=
  let y := Z.land (Z.land x (Z.lnot 0x40000000)) M32 in if o then Z.lor y 0xC0000000 else y.

Lemma ca_word_testbit c x i : 0 <= i -> is_word x -> Z.testbit (ca_word c x) i = if i =? 29 then c else Z.testbit x i.
Proof.
  intros Hi Hx. unfold ca_word. change 0x20000000 with (Z.shiftl 1 29) at 1. rewrite Z.lor_spec, testbit_clear by lia.
  change (if c then 0x20000000 else 0) with (if c then Z.shiftl 1 29 else 0). rewrite (Z.eqb_sym 29 i).
  destruct (Z.eqb_spec i 29) as [-> | Hne]; cbn [negb].
  - rewrite andb_false_r. destruct c; reflexivity.
  - rewrite andb_true_r. assert (Z.testbit (if c then Z.shiftl 1 29 else 0) i = false) as ->.
    { destruct c; [rewrite testbit_shiftl_one by lia; apply Z.eqb_neq; lia | apply Z.bits_0]. }
    rewrite orb_false_r. destruct (Z.ltb_spec i 32); [reflexivity |]. rewrite word_testbit_high by assumption. reflexivity.
Qed.

Lemma ov_word_testbit o x i :
  0 <= i -> is_word x ->
  Z.testbit (ov_word o x) i = if i =? 30 then o else if i =? 31 then o || Z.testbit x i else Z.testbit x i.
Proof.
  intros Hi Hx. unfold ov_word. cbv zeta. change 0x40000000 with (Z.shiftl 1 30).
  assert (Hy : Z.testbit (Z.land (Z.land x (Z.lnot (Z.shiftl 1 30))) M32) i = negb (30 =? i) && Z.testbit x i).
  { rewrite testbit_clear by lia. destruct (Z.ltb_spec i 32); [reflexivity |]. rewrite word_testbit_high by assumption.
    rewrite !andb_false_r. reflexivity. }
  rewrite (Z.eqb_sym 30 i) in Hy. destruct o.
  - change 0xC0000000 with (Z.lor (Z.shiftl 1 31) (Z.shiftl 1 30)).
    rewrite !Z.lor_spec, Hy, !testbit_shiftl_one, (Z.eqb_sym 31 i), (Z.eqb_sym 30 i) by lia.
    destruct (Z.eqb_spec i 30) as [-> |]; [reflexivity |]. destruct (i =? 31); cbn [negb andb orb]; [apply orb_true_r |]. rewrite !orb_false_r. reflexivity.
  - rewrite Hy. destruct (i =? 30); cbn [negb andb orb]; [reflexivity |]. destruct (i =? 31); reflexivity.
Qed.

Lemma ca_word_word c x : is_word x -> is_word (ca_word c x).
Proof.
  intros Hx. apply is_word_bits.
  - intros i Hi. rewrite ca_word_testbit by (assumption || lia). destruct (Z.eqb_spec i 29); [lia | apply word_testbit_high; assumption].
  - apply Z.lor_nonneg. split; [apply Z.land_nonneg; right; discriminate | destruct c; discriminate].
Qed.
Lemma ov_word_word o x : is_word x -> is_word (ov_word o x).
Proof.
  intros Hx. apply is_word_bits.
  - intros i Hi. rewrite ov_word_testbit by (assumption || lia). destruct (Z.eqb_spec i 30), (Z.eqb_spec i 31); try lia. apply word_testbit_high; assumption.
  - unfold ov_word. assert (0 <= Z.land (Z.land x (Z.lnot 0x40000000)) M32) by (apply Z.land_nonneg; right; discriminate).
    destruct o; [apply Z.lor_nonneg; split; [assumption | discriminate] | assumption].
Qed.

(** CR after [setcrf]. *)
Definition crf_word (bf v4 c : Z) : Z :=
  Z.lor (Z.land (Z.land c (Z.lnot (Z.shiftl 0xF (28 - 4 * bf)))) M32) (Z.shiftl (Z.land v4 0xF) (28 - 4 * bf)).

Lemma crf_word_0 v4 c :
  is_word c -> 0 <= v4 < 16 -> cr0_of (crf_word 0 v4 c) = v4 /\ Z.land (crf_word 0 v4 c) (Z.ones 28) = Z.land c (Z.ones 28).
Proof.
  intros Hc Hv. unfold crf_word, cr0_of. change (28 - 4 * 0) with 28.
  assert (Z.land v4 15 = v4) as -> by (change 15 with (Z.ones 4); rewrite Z.land_ones, Z.mod_small by lia; reflexivity).
  assert (E : Z.land (Z.land c (Z.lnot (Z.shiftl 15 28))) M32 = Z.land c (Z.ones 28)).
  { apply Z.bits_inj'. intros i Hi. change M32 with MASK32. change 15 with (Z.ones 4).
    rewrite !Z.land_spec, Z.lnot_spec, testbit_mask32, testbit_ones, Z.shiftl_spec by lia.
    destruct (Z.testbit c i); [| reflexivity]. cbn [andb].
    destruct (Z.ltb_spec i 28); [rewrite Z.testbit_neg_r, (proj2 (Z.ltb_lt i 32)) by lia; reflexivity |].
    rewrite testbit_ones by lia. destruct (Z.ltb_spec (i - 28) 4), (Z.ltb_spec i 32); try lia; reflexivity. }
  rewrite E. split.
  - rewrite Z.shiftr_lor, Z.shiftr_shiftl_l, Z.shiftr_land, Z.shiftl_0_r by lia. change (Z.shiftr (Z.ones 28) 28) with 0.
    rewrite Z.land_0_r. reflexivity.
  - apply land_low_eq; [lia |]. intros i Hi. rewrite Z.lor_spec, Z.land_spec, testbit_ones, Z.shiftl_spec by lia.
    rewrite (proj2 (Z.ltb_lt i 28)), (Z.testbit_neg_r v4) by lia. rewrite andb_true_r, orb_false_r. reflexivity.
Qed.

(** ** Running an instruction *)
Lemma bind_done {A B} (x : M A) (k : A -> M B) s s1 a : x s = (s1, Done a) -> bind x k s = k a s1.
Proof. unfold bind. intros ->. reflexivity. Qed.
Lemma fld_eq i k n s : dict_get (f i) k = Some n -> fld i k s = (s, Done n).
Proof. unfold fld. intros ->. reflexivity. Qed.
Lemma g_get_eq r x s : length (gpr s) = 32%nat -> 0 <= r < 32 -> gpr s !! Z.to_nat r = Some (Int x) -> g_get r s = (s, Done (Int x)).
Proof.
  intros Hl Hr E. unfold g_get. cbn [bind get lift]. unfold py_get, py_index. rewrite Hl.
  change (Z.of_nat 32) with 32. rewrite (proj2 (in_range_iff 0 32 r)), E by lia. reflexivity.
Qed.
Lemma g_set_eq r x s : length (gpr s) = 32%nat -> 0 <= r < 32 -> g_set r x s = (set_gpr (<[Z.to_nat r := x]> (gpr s)) s, Done tt).
Proof.
  intros Hl Hr. unfold g_set. cbn [bind get lift]. unfold py_set, py_index. rewrite Hl.
  change (Z.of_nat 32) with 32. rewrite (proj2 (in_range_iff 0 32 r)) by lia. reflexivity.
Qed.
Lemma g_fld_eq i k r x s : ready s -> holds s r x -> dict_get (f i) k = Some r -> g_fld i k s = (s, Done (Int x)).
Proof. intros [Hl _ _] (Hr & Hx & _) E. unfold g_fld. rewrite (bind_done _ _ _ _ _ (fld_eq _ _ _ s E)). apply g_get_eq; assumption. Qed.
Lemma g_int_eq i k r x s : ready s -> holds s r x -> dict_get (f i) k = Some r -> g_int i k s = (s, Done x).
Proof. intros Hs Hx E. unfold g_int. rewrite (bind_done _ _ _ _ _ (g_fld_eq _ _ _ _ s Hs Hx E)). reflexivity. Qed.

(** The flags of an XER word. *)
Definition flag (x k : Z) : Z := Z.b2z (Z.testbit x k).
Lemma carry_flag s : carry s = flag (xer s) 29.
Proof. unfold carry. apply land_one. lia. Qed.
Lemma overflow_flag s : overflow s = flag (xer s) 30.
Proof. unfold overflow. apply land_one. lia. Qed.
Lemma so_flag s : so s = flag (xer s) 31.
Proof. unfold so. apply land_one. lia. Qed.

Lemma relation_cr0 r : is_word r -> relation (s32 r) 0 = cr0_relation r.
Proof.
  intros Hr. rewrite cr0_relation_signed by exact Hr. change (s32 r) with (to_signed32 r). unfold relation.
  destruct (Z.ltb_spec (to_signed32 r) 0), (Z.ltb_spec 0 (to_signed32 r)), (Z.eqb_spec (to_signed32 r) 0); try lia; reflexivity.
Qed.
Lemma cr0_field_range r x : 0 <= Z.lor (cr0_relation r) (flag x 31) < 16.
Proof. apply (lor_bound _ _ 4); [lia | unfold cr0_relation; repeat case_if; lia | unfold flag; destruct (Z.testbit x 31); cbn; lia]. Qed.

(** The state after the result [r] goes to register [d], XER becomes [x1], and
    CR0 is recorded when [rc] says so. *)
Definition finished (s : State) (d r x1 rc : Z) : State :=
  let s1 := set_gpr (<[Z.to_nat d := Int r]> (gpr s)) (set_xer x1 s) in
  if truthy rc then set_cr (crf_word 0 (Z.lor (relation (s32 r) 0) (so s1)) (cr s)) s1 else s1.

Lemma finished_executed s d r x1 rc :
  ready s -> is_word x1 -> is_word r -> Z.land x1 (Z.ones 29) = Z.land (xer s) (Z.ones 29) ->
  executed s d r (flag x1 29) (flag x1 30) (flag x1 31)
    (if truthy rc then Z.lor (cr0_relation r) (flag x1 31) else cr0_of (cr s)) (finished s d r x1 rc).
Proof.
  intros Hs Hx Hr Hlow. unfold finished. cbv zeta. rewrite relation_cr0, so_flag by exact Hr. cbn [xer set_gpr set_xer].
  destruct (crf_word_0 (Z.lor (cr0_relation r) (flag x1 31)) (cr s) (rd_cr s Hs) (cr0_field_range r x1)) as [E1 E2].
  destruct (truthy rc); (constructor; [reflexivity | apply carry_flag | apply overflow_flag | apply so_flag | | exact Hlow | | destruct s; reflexivity]);
    cbn [cr set_gpr set_xer set_cr]; first [assumption | reflexivity].
Qed.

(** The end of the one-result instructions. *)
Lemma tail_eq i k d r rc s x1 :
  ready s -> 0 <= d < 32 -> dict_get (f i) k = Some d -> dict_get (f i) "rc" = Some rc ->
  bind (g_put i k r) (fun _ => bind (if_rc i r) (fun _ => done)) (set_xer x1 s) = (finished s d r x1 rc, Done None).
Proof.
  intros Hs Hd Ed Erc. unfold g_put. unfold bind at 1. rewrite (bind_done _ _ _ _ _ (fld_eq _ _ _ _ Ed)).
  rewrite g_set_eq by (exact Hd || apply Hs). unfold if_rc. unfold bind at 1. rewrite (bind_done _ _ _ _ _ (fld_eq _ _ _ _ Erc)).
  unfold finished. destruct (truthy rc); reflexivity.
Qed.

Lemma set_xer_same s : set_xer (xer s) s = s.
Proof. destruct s. reflexivity. Qed.

(** An instruction the model knows as legal everywhere goes to [integer_op]. *)
Lemma flags_of s : ready s ->
  is_flag (carry s) = true /\ is_flag (overflow s) = true /\ is_flag (so s) = true /\ 0 <= cr0_of (cr s) < 16.
Proof.
  intros Hs. rewrite carry_flag, overflow_flag, so_flag. unfold flag. rewrite !is_flag_b2z. repeat split;
    unfold cr0_of; rewrite Z.shiftr_div_pow2 by lia; pose proof (rd_cr s Hs) as Hc; unfold ExecResult.word in Hc;
    [apply Z.div_pos; lia | apply Z.div_lt_upper_bound; lia].
Qed.

(** ** Addition *)
Section Adds.
Lemma mod_word x : is_word x -> x mod 2 ^ 32 = x.
Proof. intros Hx. apply Z.mod_small. exact Hx. Qed.

(** The overflow test of the model is the family's range test. *)
Lemma overflow_test t r : is_word r -> r = t mod 2 ^ 32 -> - 2 ^ 33 < t < 2 ^ 33 ->
  negb (t =? s32 r) = (t <? add_family.MIN_SIGNED) || (add_family.MAX_SIGNED <? t).
Proof.
  intros Hr Er Ht. change (s32 r) with (to_signed32 r). rewrite Er. rewrite to_signed32_spec, Z.mod_mod by lia.
  unfold add_family.MIN_SIGNED, add_family.MAX_SIGNED. change (Z.shiftl 1 31) with (2 ^ 31).
  apply Bool.eq_iff_eq_true. rewrite negb_true_iff, orb_true_iff, Z.eqb_neq, !Z.ltb_lt.
  destruct (Z.leb_spec (2 ^ 31) (t mod 2 ^ 32)); word_lia.
Qed.

Lemma carry_test t : 0 <= t < 2 ^ 34 -> truthy (Z.shiftr t 32) = (MASK32 <? t).
Proof.
  intros Ht. rewrite Z.shiftr_div_pow2 by lia. unfold truthy, MASK32. apply Bool.eq_iff_eq_true.
  rewrite negb_true_iff, Z.eqb_neq, Z.ltb_lt. word_lia.
Qed.

Lemma xer_after (o c : bool) (setc sets : bool) x :
  is_word x ->
  let x1 := if setc then ca_word c x else x in
  let x2 := if sets then ov_word o x1 else x1 in
  is_word x2 /\ Z.land x2 (Z.ones 29) = Z.land x (Z.ones 29) /\
  flag x2 29 = (if setc then Z.b2z c else flag x 29) /\
  flag x2 30 = (if sets then Z.b2z o else flag x 30) /\
  flag x2 31 = (if sets then Z.lor (flag x 31) (Z.b2z o) else flag x 31).
Proof.
  intros Hx. cbv zeta. assert (H1 : is_word (if setc then ca_word c x else x)) by (destruct setc; [apply ca_word_word |]; assumption).
  assert (T1 : forall i, 0 <= i -> Z.testbit (if setc then ca_word c x else x) i = if setc && (i =? 29) then c else Z.testbit x i).
  { intros i Hi. destruct setc; [apply ca_word_testbit; assumption | reflexivity]. }
  set (x1 := if setc then _ else _) in *.
  assert (T2 : forall i, 0 <= i -> Z.testbit (if sets then ov_word o x1 else x1) i =
     if sets && (i =? 30) then o else if sets && (i =? 31) then o || Z.testbit x1 i else Z.testbit x1 i).
  { intros i Hi. destruct sets; [apply ov_word_testbit; assumption | reflexivity]. }
  split; [destruct sets; [apply ov_word_word |]; assumption |].
  unfold flag. rewrite !T2, !T1 by lia.
  split.
  { apply land_low_eq; [lia |]. intros i Hi. rewrite T2, T1 by lia.
    rewrite !(proj2 (Z.eqb_neq i _)) by lia. rewrite !andb_false_r. reflexivity. }
  destruct setc, sets; cbn [andb Z.eqb Pos.eqb]; repeat split; try reflexivity; destruct (Z.testbit x 31), o; reflexivity.
Qed.

(** A step of an add_family.XO-form addition is [xo_op], with its carry and overflow. *)
Lemma xo_op_adds v m0 x pc s rt ra rb oe rc a b :
  ready s -> holds s ra a -> holds s rb b -> 0 <= rt < 32 -> dict_mem add_family.XO m0 = true ->
  let y := AddFamily.second_operand m0 b in
  let t := a + y + AddFamily.carry_in m0 (carry s) in
  let o := negb (s32 a + s32 y + AddFamily.carry_in m0 (carry s) =? s32 (Z.land t M32)) in
  let x1 := if negb (String.eqb m0 "add") then ca_word (truthy (Z.shiftr t 32)) (xer s) else xer s in
  step v (xo_form m0 x rt ra rb oe rc) pc s =
  (finished s rt (Z.land t M32) (if truthy oe then ov_word o x1 else x1) rc, Done None).
Proof.
  intros Hs Ha Hb Hd Hm. set (i := xo_form m0 x rt ra rb oe rc).
  assert (E : step v i pc s = xo_op i s) by (dict_cases Hm; reflexivity). rewrite E. unfold xo_op.
  rewrite (bind_done _ _ _ _ _ (g_fld_eq i "ra" ra a s Hs Ha eq_refl)).
  rewrite (bind_done _ _ _ _ _ (g_fld_eq i "rb" rb b s Hs Hb eq_refl)).
  rewrite (bind_done get _ s s s eq_refl). cbv zeta. unfold AddFamily.second_operand.
  rewrite (mod_word b) by apply Hb. set (y := if str_in m0 _ then b else _). set (t := a + y + AddFamily.carry_in m0 (carry s)).
  set (o := negb _). set (x1 := if negb (String.eqb m0 "add") then _ else _).
  assert (Ev : xo_value (m i) (Int a) (Int b) (carry s) s = (set_xer x1 s, Done (Some (Z.land t M32), Some o))).
  { subst x1. dict_cases Hm; subst y t o; first [rewrite <- (set_xer_same s) at 2; reflexivity | reflexivity]. }
  rewrite (bind_done _ _ _ _ _ Ev). rewrite (bind_done _ _ _ _ _ (fld_eq i "oe" oe _ eq_refl)).
  assert (Eo : when (truthy oe) (ov (default false (Some o))) (set_xer x1 s) =
               (set_xer (if truthy oe then ov_word o x1 else x1) s, Done tt)) by (destruct (truthy oe); reflexivity).
  rewrite (bind_done _ _ _ _ _ Eo). set (x2 := if truthy oe then _ else _).
  rewrite (bind_done _ _ _ _ _ (fld_eq i "rt" rt _ eq_refl)).
  rewrite (bind_done _ _ _ _ _ (g_set_eq rt _ (set_xer x2 s) (rd_gpr s Hs) Hd)).
  rewrite (bind_done _ _ _ _ _ (fld_eq i "rc" rc _ eq_refl)). unfold finished. destruct (truthy rc); reflexivity.
Qed.

Lemma step_adds v m0 x pc s rt ra rb oe rc a b :
  ready s -> holds s ra a -> holds s rb b -> 0 <= rt < 32 -> dict_mem add_family.XO m0 = true -> is_flag oe = true -> is_flag rc = true ->
  exists s' res,
    step v (xo_form m0 x rt ra rb oe rc) pc s = (s', Done None) /\
    add_family.evaluate m0 a b (carry s) oe rc (overflow s) (so s) (cr0_of (cr s)) = Ok res /\
    executed s rt (add_family.value res) (add_family.ca res) (add_family.ov res) (add_family.so res) (add_family.cr0 res) s'.
Proof.
  intros Hs Ha Hb Hd Hm Hoe Hrc. destruct (flags_of s Hs) as (F1 & F2 & F3 & F4).
  rewrite (xo_op_adds v m0 x pc s rt ra rb oe rc a b) by assumption. eexists _, _. split; [reflexivity |].
  assert (Hargs : add_args_ok m0 (carry s) oe rc (overflow s) (so s) (cr0_of (cr s)) = true).
  { apply add_args_ok_iff. repeat split; try assumption; apply F4. }
  rewrite (add_evaluate_eq _ a b _ _ _ _ _ _ Hargs). cbv zeta. split; [reflexivity |].
  set (y := AddFamily.second_operand m0 b). set (c := AddFamily.carry_in m0 (carry s)).
  pose proof (second_operand_range m0 b Hm) as Hy. assert (Hc : 0 <= c <= 1).
  { unfold c, AddFamily.carry_in. apply is_flag_iff in F1. case_if; lia. }
  destruct Ha as (_ & _ & Ha). rewrite (mod_word a) by exact Ha. unfold ExecResult.word in Ha. fold y in Hy.
  change M32 with MASK32. rewrite mask32_mod, carry_test by lia.
  change (s32 a) with (to_signed32 a). change (s32 y) with (to_signed32 y).
  pose proof (to_signed32_range a). pose proof (to_signed32_range y).
  rewrite (overflow_test (to_signed32 a + to_signed32 y + c) ((a + y + c) mod 2 ^ 32)).
  - set (o := _ || _). set (k := MASK32 <? _).
    destruct (xer_after o k (negb (String.eqb m0 "add")) (truthy oe) (xer s) (rd_xer s Hs)) as (W & L & C & O & S).
    pose proof (finished_executed s rt ((a + y + c) mod 2 ^ 32) _ rc Hs W (Z.mod_pos_bound _ (2 ^ 32) eq_refl) L) as P.
    rewrite C, O, S in P. rewrite <- so_flag, <- overflow_flag, <- carry_flag in P.
    cbn [add_family.value add_family.ca add_family.ov add_family.so add_family.cr0]. destruct (String.eqb m0 "add"); exact P.
  - apply Z.mod_pos_bound. lia.
  - pose proof (to_signed32_mod a). pose proof (to_signed32_mod y). word_lia.
  - lia.
Qed.
End Adds.

(** ** Logic *)
Lemma land_word x : is_word (Z.land x M32).
Proof. change M32 with MASK32. rewrite mask32_mod. apply Z.mod_pos_bound. lia. Qed.

(** An instruction that leaves XER alone, or changes CA only. *)
Lemma executed_keeping s d r rc :
  ready s -> is_word r ->
  executed s d r (carry s) (overflow s) (so s) (if truthy rc then Z.lor (cr0_relation r) (so s) else cr0_of (cr s))
    (finished s d r (xer s) rc).
Proof.
  intros Hs Hr. pose proof (finished_executed s d r (xer s) rc Hs (rd_xer s Hs) Hr eq_refl) as P.
  rewrite <- carry_flag, <- overflow_flag, <- so_flag in P. exact P.
Qed.
Lemma executed_carrying s d r rc c :
  ready s -> is_word r ->
  executed s d r (Z.b2z c) (overflow s) (so s) (if truthy rc then Z.lor (cr0_relation r) (so s) else cr0_of (cr s))
    (finished s d r (ca_word c (xer s)) rc).
Proof.
  intros Hs Hr. destruct (xer_after false c true false (xer s) (rd_xer s Hs)) as (W & L & C & O & S).
  pose proof (finished_executed s d r _ rc Hs W Hr L) as P. rewrite C, O, S, <- overflow_flag, <- so_flag in P. exact P.
Qed.

Lemma step_logical v m0 pc s ra rs rb rc a b i :
  ready s -> holds s rs a -> holds s rb b -> 0 <= ra < 32 -> is_flag rc = true ->
  dict_mem logical_family.XO m0 = true -> logx m0 ra rs rb rc = Ok i ->
  exists s' res,
    step v i pc s = (s', Done None) /\
    logical_family.evaluate m0 a b rc (carry s) (overflow s) (so s) (cr0_of (cr s)) = Ok res /\
    executed s ra (logical_family.value res) (logical_family.ca res) (logical_family.ov res) (logical_family.so res)
      (logical_family.cr0 res) s'.
Proof.
  intros Hs Ha Hb Hd Hrc Hm Hi. destruct (flags_of s Hs) as (F1 & F2 & F3 & F4).
  assert (Hargs : logical_args_ok m0 rc (carry s) (overflow s) (so s) (cr0_of (cr s)) = true).
  { unfold logical_args_ok. rewrite Hm, Hrc, F1, F2, F3. apply in_range_iff, F4. }
  rewrite (logical_evaluate_eq _ a b _ _ _ _ _ Hargs). cbv zeta.
  rewrite (mask32_id a), (mask32_id b) by (apply Ha || apply Hb).
  exists (finished s ra (logic m0 a b) (xer s) rc). eexists.
  assert (Hop : logic m0 a b = Z.land (logical_family.operation m0 a b) MASK32) by reflexivity.
  rewrite <- Hop. split; [| split; [reflexivity | exact (executed_keeping s ra _ rc Hs (land_word _))]].
  assert (E : step v i pc s = log_op i s /\ m i = m0 /\ f i = [("rs", rs); ("ra", ra); ("rb", rb); ("rc", rc); ("oe", 0)]%string).
  { clear -Hm Hi. dict_cases Hm; apply ok_inj in Hi; subst i; repeat split. }
  destruct E as (-> & Em & Ef). unfold log_op.
  rewrite (bind_done _ _ _ _ _ (g_fld_eq i "rs" rs a s Hs Ha ltac:(rewrite Ef; reflexivity))).
  rewrite (bind_done _ _ _ _ _ (g_fld_eq i "rb" rb b s Hs Hb ltac:(rewrite Ef; reflexivity))). rewrite Em.
  assert (str_in m0 ["slw"; "srw"; "sraw"]%string = false) as -> by (clear -Hm; dict_cases Hm; reflexivity).
  unfold bind at 1. cbn [bind int_of as_int lift ret].
  rewrite <- (set_xer_same s) at 1. apply tail_eq; try assumption; rewrite Ef; reflexivity.
Qed.

(** ** Shifts *)

(** The arithmetic shift and its carry, for any count up to 63. *)
Lemma arithmetic_value a n : is_word a -> 0 <= n < 64 ->
  Z.land (Z.shiftr (s32 a) (Z.min n 32)) M32 = (to_signed32 a / 2 ^ n) mod 2 ^ 32.
Proof.
  intros Ha Hn. change M32 with MASK32. rewrite mask32_mod, Z.shiftr_div_pow2 by lia. change (s32 a) with (to_signed32 a).
  destruct (Z.leb_spec n 32); [rewrite Z.min_l by lia; reflexivity |]. rewrite Z.min_r by lia.
  pose proof (to_signed32_range a). assert (2 ^ 32 < 2 ^ n) by (apply Z.pow_lt_mono_r; lia). f_equal.
  destruct (Z.ltb_spec (to_signed32 a) 0).
  - assert (Hm : forall k, 2 ^ 32 <= 2 ^ k -> to_signed32 a / 2 ^ k = -1).
    { intros k Hk. symmetry. apply Z.div_unique with (to_signed32 a + 2 ^ k); lia. }
    rewrite !Hm by lia. reflexivity.
  - rewrite !Z.div_small by lia. reflexivity.
Qed.

Lemma arithmetic_carry a n : is_word a -> 0 <= n < 64 ->
  (s32 a <? 0) && truthy (Z.land a (Z.shiftl 1 (Z.min n 32) - 1)) =
  (to_signed32 a <? 0) && negb (to_signed32 a mod 2 ^ n =? 0).
Proof.
  intros Ha Hn. change (s32 a) with (to_signed32 a). rewrite Z.shiftl_1_l, land_ones_mod by lia.
  destruct (Z.ltb_spec (to_signed32 a) 0) as [Hneg |]; [| reflexivity]. cbn [andb]. unfold truthy. f_equal.
  destruct (Z.leb_spec n 32).
  - rewrite Z.min_l, signed_mod_low by lia. reflexivity.
  - rewrite Z.min_r by lia. pose proof (to_signed32_range a). unfold ExecResult.word in Ha.
    assert (2 ^ 32 < 2 ^ n) by (apply Z.pow_lt_mono_r; lia).
    rewrite Z.mod_small by lia. rewrite <- (Z.mod_unique (to_signed32 a) (2 ^ n) (-1) (to_signed32 a + 2 ^ n)) by lia.
    rewrite to_signed32_spec, Z.mod_small in Hneg by lia. destruct (Z.leb_spec (2 ^ 31) a); [| lia].
    rewrite !(proj2 (Z.eqb_neq _ 0)) by lia. reflexivity.
Qed.

Definition shift_insn (m0 : string) (ra rs x rc : Z) : result Insn :=
  if String.eqb m0 "srawi" then Ok (srawi ra rs x rc) else logx m0 ra rs x rc.

Lemma low_six b : Z.land b 0x3F = b mod 64.
Proof. apply (land_ones_mod b 6). lia. Qed.

(** The count and the two results of [log_shift]. *)
Lemma log_shift_eq m0 a b s :
  is_word a -> dict_mem shift_family.XO m0 = true -> m0 <> "srawi"%string ->
  let p := shift_spec m0 a (b mod 64) (carry s) in
  log_shift m0 (Int a) b s =
  (set_xer (if String.eqb m0 "sraw" then ca_word (truthy (snd p)) (xer s) else xer s) s, Done (fst p)) /\
  is_word (fst p) /\ snd p = (if String.eqb m0 "sraw" then Z.b2z (truthy (snd p)) else carry s).
Proof.
  intros Ha Hm Hne. cbv zeta. unfold log_shift. rewrite low_six. pose proof (Z.mod_pos_bound b 64 ltac:(lia)) as Hn.
  set (n := b mod 64) in *. assert (Hp : 0 < 2 ^ n) by (apply Z.pow_pos_nonneg; lia).
  assert (Hbig : 31 < n -> 2 ^ 32 <= 2 ^ n) by (intros; apply Z.pow_le_mono_r; lia).
  dict_cases Hm; try congruence; unfold shift_spec; str_tests; cbn [fst snd]; unfold ExecResult.word in Ha.
  - rewrite set_xer_same. split; [| split; [apply Z.mod_pos_bound; lia | reflexivity]].
    destruct (Z.ltb_spec 31 n).
    + unfold ret. do 2 f_equal. replace (2 ^ n) with (2 ^ (n - 32) * 2 ^ 32) by (rewrite <- Z.pow_add_r by lia; f_equal; lia).
      rewrite Z.mul_assoc, Z.mod_mul by lia. reflexivity.
    + cbn [bind int_of as_int lift ret]. change M32 with MASK32. rewrite mask32_mod, Z.shiftl_mul_pow2 by lia. reflexivity.
  - rewrite set_xer_same, (Z.mod_small a) by lia. split; [| split; [split; [apply Z.div_pos | apply Z.div_lt_upper_bound]; nia | reflexivity]].
    destruct (Z.ltb_spec 31 n).
    + unfold ret. do 2 f_equal. symmetry. apply Z.div_small. lia.
    + cbn [bind int_of as_int lift ret]. rewrite Z.shiftr_div_pow2 by lia. reflexivity.
  - split; [| split; [apply Z.mod_pos_bound; lia | rewrite truthy_b2z; reflexivity]].
    cbn [bind int_of as_int lift ret]. rewrite truthy_b2z, <- arithmetic_value, <- arithmetic_carry by (exact Ha || lia). reflexivity.
Qed.

Lemma step_log_shift v m0 pc s ra rs rb rc a b i :
  ready s -> holds s rs a -> holds s rb b -> 0 <= ra < 32 ->
  dict_mem shift_family.XO m0 = true -> m0 <> "srawi"%string -> logx m0 ra rs rb rc = Ok i ->
  let p := shift_spec m0 a (b mod 64) (carry s) in
  step v i pc s =
  (finished s ra (fst p) (if String.eqb m0 "sraw" then ca_word (truthy (snd p)) (xer s) else xer s) rc, Done None).
Proof.
  intros Hs Ha Hb Hd Hm Hne Hi. cbv zeta.
  assert (E : step v i pc s = log_op i s /\ m i = m0 /\ str_in m0 ["slw"; "srw"; "sraw"]%string = true /\
    f i = [("rs", rs); ("ra", ra); ("rb", rb); ("rc", rc); ("oe", 0)]%string).
  { clear -Hm Hi Hne. dict_cases Hm; try congruence; apply ok_inj in Hi; subst i; repeat split. }
  destruct E as (-> & Em & Ein & Ef). unfold log_op.
  rewrite (bind_done _ _ _ _ _ (g_fld_eq i "rs" rs a s Hs Ha ltac:(rewrite Ef; reflexivity))).
  rewrite (bind_done _ _ _ _ _ (g_fld_eq i "rb" rb b s Hs Hb ltac:(rewrite Ef; reflexivity))). rewrite Em, Ein.
  destruct (log_shift_eq m0 a b s (proj2 (proj2 Ha)) Hm Hne) as (E & _ & _).
  set (p := shift_spec _ _ _ _) in *. unfold bind at 1. cbn [bind int_of as_int lift ret]. rewrite E.
  apply tail_eq; try assumption; rewrite Ef; reflexivity.
Qed.

Lemma step_srawi v pc s ra rs sh rc a :
  ready s -> holds s rs a -> 0 <= ra < 32 -> 0 <= sh < 32 ->
  let p := shift_spec "srawi" a sh (carry s) in
  step v (srawi ra rs sh rc) pc s = (finished s ra (fst p) (ca_word (truthy (snd p)) (xer s)) rc, Done None).
Proof.
  intros Hs Ha Hd Hsh. cbv zeta. change (step v (srawi ra rs sh rc) pc s) with (srawi_op (srawi ra rs sh rc) s).
  set (i := srawi ra rs sh rc). unfold srawi_op.
  rewrite (bind_done _ _ _ _ _ (g_fld_eq i "rs" rs a s Hs Ha eq_refl)).
  rewrite (bind_done _ _ _ _ _ (fld_eq i "sh" sh s eq_refl)). unfold bind at 1. cbn [int_of as_int lift ret]. cbv zeta.
  pose proof (arithmetic_value a sh (proj2 (proj2 Ha)) ltac:(lia)) as Ev.
  pose proof (arithmetic_carry a sh (proj2 (proj2 Ha)) ltac:(lia)) as Ec. rewrite Z.min_l in Ev, Ec by lia.
  unfold shift_spec. cbn [String.eqb Ascii.eqb Bool.eqb fst snd]. rewrite truthy_b2z, <- Ev, <- Ec.
  unfold bind at 1. change (selftest.ca ?c s) with (set_xer (ca_word c (xer s)) s, @Done unit tt).
  apply tail_eq; (assumption || reflexivity).
Qed.

Lemma step_shift v m0 pc s ra rs x rc a b i :
  ready s -> holds s rs a -> (if String.eqb m0 "srawi" then b = x /\ 0 <= x < 32 else holds s x b) -> 0 <= ra < 32 ->
  is_flag rc = true -> dict_mem shift_family.XO m0 = true -> shift_insn m0 ra rs x rc = Ok i ->
  exists s' res,
    step v i pc s = (s', Done None) /\
    shift_family.evaluate m0 a b rc (carry s) (overflow s) (so s) (cr0_of (cr s)) = Ok res /\
    executed s ra (shift_family.value res) (shift_family.ca res) (shift_family.ov res) (shift_family.so res)
      (shift_family.cr0 res) s'.
Proof.
  intros Hs Ha Hx Hd Hrc Hm Hi. destruct (flags_of s Hs) as (F1 & F2 & F3 & F4). unfold shift_insn in Hi.
  assert (Hargs : shift_args_ok m0 b rc (carry s) (overflow s) (so s) (cr0_of (cr s)) = true).
  { unfold shift_args_ok. rewrite Hm, Hrc, F1, F2, F3, (proj2 (in_range_iff 0 16 _) F4). destruct (String.eqb m0 "srawi"); [| reflexivity].
    destruct Hx as [-> Hx]. apply in_range_iff, Hx. }
  rewrite (shift_evaluate_eq _ a b _ _ _ _ _ Hargs). cbv zeta. unfold shift_count.
  destruct (String.eqb_spec m0 "srawi") as [-> | Hne].
  - apply ok_inj in Hi. subst i. destruct Hx as [-> Hx]. rewrite step_srawi with (a := a) by assumption.
    eexists _, _. split; [reflexivity |]. split; [reflexivity |]. cbn [shift_family.value shift_family.ca shift_family.ov shift_family.so shift_family.cr0].
    replace (snd (shift_spec "srawi" a x (carry s))) with (Z.b2z (truthy (snd (shift_spec "srawi" a x (carry s))))) at 1
      by (unfold shift_spec; cbn [String.eqb Ascii.eqb Bool.eqb fst snd]; rewrite truthy_b2z; reflexivity).
    apply executed_carrying; [exact Hs |]. apply Z.mod_pos_bound. lia.
  - rewrite (step_log_shift v m0 pc s ra rs x rc a b i) by assumption.
    destruct (log_shift_eq m0 a b s (proj2 (proj2 Ha)) Hm Hne) as (_ & W & C). set (p := shift_spec m0 a (b mod 64) (carry s)) in *.
    eexists _, _. split; [reflexivity |]. split; [reflexivity |]. cbn [shift_family.value shift_family.ca shift_family.ov shift_family.so shift_family.cr0].
    destruct (String.eqb m0 "sraw"); rewrite C; [rewrite truthy_b2z; apply executed_carrying | apply executed_keeping]; assumption.
Qed.

(** ** Rotates *)
Lemma mask_from_loop fuel i me r :
  mask_from fuel i me r = match rotate_family.mask_loop fuel i me r with Some x => Ok x | None => Raise OutOfFuel end.
Proof.
  revert i r. induction fuel as [| fuel IH]; intros i r; [reflexivity |]. cbn [mask_from rotate_family.mask_loop].
  destruct (i =? me); [reflexivity | apply IH].
Qed.
Lemma mask_ppc mb me x : rotate_family.ppc_mask mb me = Ok x -> mask mb me = Ok x.
Proof.
  assert (Hf : forall u n y, rotate_family._five_bits u n = Ok y -> y = u).
  { intros u n y. unfold rotate_family._five_bits, check_five. case_if; congruence. }
  unfold rotate_family.ppc_mask. destruct (rotate_family._five_bits mb "mb") as [b |] eqn:Eb; [| discriminate].
  destruct (rotate_family._five_bits me "me") as [e |] eqn:Ee; [| discriminate].
  apply Hf in Eb. apply Hf in Ee. subst b e. unfold mask. rewrite mask_from_loop.
  destruct (rotate_family.mask_loop 32 mb me 0); congruence.
Qed.
Lemma rotl_left a n : rotl a n = rotate_family.rotate_left a n.
Proof. unfold rotl, rotate_family.rotate_left, truthy. destruct (Z.land n 31 =? 0); reflexivity. Qed.
Lemma rotl_word a n : is_word (rotl a n).
Proof. unfold rotl. case_if; apply land_word. Qed.

(** The value of a rotate form, masked once or twice. *)
Lemma merge_value m0 a n mk old :
  Z.land (rotate_family.merge m0 (rotl a n) mk old) MASK32 =
  if String.eqb m0 "rlwimi" then Z.lor (Z.land (rotl a n) mk) (Z.land (Z.land old (Z.lnot mk)) M32) else Z.land (rotl a n) mk.
Proof.
  pose proof (rotl_word a n) as Hr. unfold rotate_family.merge. set (r := rotl a n) in *. apply Z.bits_inj'. intros i Hi.
  destruct (String.eqb m0 "rlwimi"); rewrite ?Z.land_spec, ?Z.lor_spec, ?Z.land_spec, ?Z.lnot_spec, testbit_mask32 by lia.
  - change M32 with MASK32. rewrite testbit_mask32 by lia. destruct (Z.ltb_spec i 32).
    + rewrite !andb_true_r. reflexivity.
    + rewrite (word_testbit_high r) by assumption. rewrite !andb_false_r. reflexivity.
  - destruct (Z.ltb_spec i 32); [apply andb_true_r |]. rewrite (word_testbit_high r) by assumption. reflexivity.
Qed.

Lemma step_rotate v m0 op pc s rs ra sh mb me rc a old n :
  ready s -> holds s rs a -> holds s ra old -> dict_mem rotate_family.PRIMARY_OPCODE m0 = true -> is_flag rc = true ->
  0 <= mb < 32 -> 0 <= me < 32 -> (if String.eqb m0 "rlwnm" then holds s sh n else n = sh /\ 0 <= sh < 32) ->
  exists s' res,
    step v (mform m0 op rs ra sh mb me rc) pc s = (s', Done None) /\
    rotate_family.evaluate m0 a n mb me old rc (carry s) (overflow s) (so s) (cr0_of (cr s)) = Ok res /\
    executed s ra (rotate_family.value res) (rotate_family.ca res) (rotate_family.ov res) (rotate_family.so res)
      (rotate_family.cr0 res) s'.
Proof.
  intros Hs Ha Ho Hm Hrc Hmb Hme Hn. destruct (flags_of s Hs) as (F1 & F2 & F3 & F4).
  assert (Hargs : rotate_args_ok m0 n mb me rc (carry s) (overflow s) (so s) (cr0_of (cr s)) = true).
  { unfold rotate_args_ok. rewrite Hm, Hrc, F1, F2, F3.
    rewrite (proj2 (in_range_iff 0 16 _) F4), (proj2 (in_range_iff 0 32 mb) Hmb), (proj2 (in_range_iff 0 32 me) Hme).
    destruct (String.eqb m0 "rlwnm"); [reflexivity |]. destruct Hn as [-> Hn]. rewrite (proj2 (in_range_iff 0 32 sh) Hn). reflexivity. }
  destruct (rotate_evaluate_eq m0 a n mb me old rc _ _ _ _ Hargs) as (mk & Emk & ->). cbv zeta. apply mask_ppc in Emk.
  set (i := mform m0 op rs ra sh mb me rc). rewrite <- rotl_left.
  set (r := Z.land (rotate_family.merge m0 (rotl a n) mk old) MASK32).
  exists (finished s ra r (xer s) rc). eexists. split; [| split; [reflexivity | apply executed_keeping; [exact Hs | apply land_word]]].
  assert (E : step v i pc s = rotate_op i s) by (clear -Hm; dict_cases Hm; reflexivity). rewrite E. unfold rotate_op.
  rewrite (bind_done _ _ _ _ _ (fld_eq i "sh" sh s eq_refl)). change (m i) with m0.
  assert (En : exists n', (if String.eqb m0 "rlwnm" then bind (g_get sh) (fun bv => bind (int_of bv) (fun b => ret (Z.land b 31))) else ret sh) s
               = (s, Done n') /\ rotl a n' = rotl a n).
  { destruct (String.eqb m0 "rlwnm").
    - destruct Hn as (H1 & H2 & H3). rewrite (bind_done _ _ _ _ _ (g_get_eq sh n s (rd_gpr s Hs) H1 H2)).
      exists (Z.land n 31). split; [reflexivity |]. unfold rotl. rewrite <- Z.land_assoc. reflexivity.
    - exists sh. destruct Hn as [-> _]. split; reflexivity. }
  destruct En as (n' & En & Er). rewrite (bind_done _ _ _ _ _ En), (bind_done _ _ _ _ _ (g_int_eq i "rs" rs a s Hs Ha eq_refl)).
  rewrite (bind_done _ _ _ _ _ (fld_eq i "mb" mb s eq_refl)), (bind_done _ _ _ _ _ (fld_eq i "me" me s eq_refl)).
  rewrite Emk. rewrite (bind_done (lift (Ok mk)) _ s s mk eq_refl). cbv zeta. rewrite Er.
  match goal with |- context [bind ?x _ s] =>
    assert (Em : x s = (s, Done r)) by
      (subst r; rewrite merge_value; destruct (String.eqb m0 "rlwimi");
       [rewrite (bind_done _ _ _ _ _ (g_int_eq i "ra" ra old s Hs Ho eq_refl)) |]; reflexivity) end.
  rewrite (bind_done _ _ _ _ _ Em). rewrite <- (set_xer_same s) at 1.
  apply tail_eq; try assumption; try reflexivity. apply Ho.
Qed.

(** ** Compares *)
Lemma simm_signed im : 0 <= im < 2 ^ 16 -> simm im = if im <? 2 ^ 15 then im else im - 2 ^ 16.
Proof.
  intros Hi. unfold simm. change (s32 (Z.shiftl im 16)) with (to_signed32 (Z.shiftl im 16)).
  rewrite Z.shiftl_mul_pow2, Z.shiftr_div_pow2, to_signed32_spec by lia.
  rewrite Z.mod_small by lia. destruct (Z.leb_spec (2 ^ 31) (im * 2 ^ 16)), (Z.ltb_spec im (2 ^ 15)); word_lia.
Qed.

Lemma crf_word_clear bf v4 c :
  is_word c -> 0 <= v4 < 16 -> 0 <= bf < 8 ->
  crf_word bf v4 c = Z.lor (Z.land c (Z.lnot (Z.shiftl 0xF (28 - 4 * bf)))) (Z.shiftl v4 (28 - 4 * bf)).
Proof.
  intros Hc Hv Hb. unfold crf_word. change M32 with MASK32. rewrite mask32_id.
  - do 2 f_equal. change 15 with (Z.ones 4). rewrite Z.land_ones, Z.mod_small by lia. reflexivity.
  - apply land_bound_l; [lia | exact Hc].
Qed.

(** The right operand of a compare: an immediate field, or a register's word. *)
Definition compare_operand (s : State) (m0 : string) (x y : Z) : Prop :=
  if str_in m0 ["cmpi"; "cmpli"]%string then y = x /\ 0 <= x < 2 ^ 16 else holds s x y.

Lemma compare_names m0 :
  str_in m0 ["cmp"; "cmpi"; "cmpl"; "cmpli"]%string = true ->
  (m0 = "cmp" \/ m0 = "cmpi" \/ m0 = "cmpl" \/ m0 = "cmpli")%string.
Proof. unfold str_in. cbn [existsb]. rewrite !orb_true_iff, !String.eqb_eq. intuition discriminate. Qed.

Lemma cmp_operands_eq m0 bf ra x s a y :
  ready s -> is_word a -> str_in m0 ["cmp"; "cmpi"; "cmpl"; "cmpli"]%string = true -> compare_operand s m0 x y ->
  cmp_operands (cmp_ m0 bf ra x) (Int a) s =
  (s, Done (Int (fst (compare_operands m0 a y)), Int (snd (compare_operands m0 a y)))).
Proof.
  intros Hs Ha Hm Hy. destruct (compare_names m0 Hm) as [-> | [-> | [-> | ->]]];
    unfold compare_operand in Hy; cbn [str_in existsb String.eqb Ascii.eqb Bool.eqb orb] in Hy;
    unfold cmp_operands; cbn [m cmp_ mk]; str_tests; unfold compare_operands; str_tests; cbn [fst snd].
  - rewrite (bind_done (int_of (Int a)) _ s s a eq_refl), (bind_done _ _ _ _ _ (g_int_eq (cmp_ "cmp" bf ra x) "rb" x y s Hs Hy eq_refl)). reflexivity.
  - destruct Hy as [-> Hy]. unfold bind, fld, int_of. cbn [as_int lift ret].
    change (dict_get (f (cmp_ "cmpi" bf ra x)) "imm") with (Some (Z.land x 0xFFFF)). cbn [ret].
    assert (Z.land x 0xFFFF = x) as -> by (change 0xFFFF with (2 ^ 16 - 1); rewrite land_ones_mod, Z.mod_small by lia; reflexivity).
    rewrite simm_signed by exact Hy. reflexivity.
  - rewrite (bind_done _ _ _ _ _ (g_fld_eq (cmp_ "cmpl" bf ra x) "rb" x y s Hs Hy eq_refl)).
    rewrite (mod_word a), (mod_word y) by (assumption || apply Hy). reflexivity.
  - destruct Hy as [-> Hy]. unfold bind, fld. change (dict_get (f (cmp_ "cmpli" bf ra x)) "imm") with (Some (Z.land x 0xFFFF)). cbn [ret].
    assert (Z.land x 0xFFFF = x) as -> by (change 0xFFFF with (2 ^ 16 - 1); rewrite land_ones_mod, Z.mod_small by lia; reflexivity).
    rewrite (mod_word a) by assumption. reflexivity.
Qed.

Lemma step_compare v m0 pc s bf ra x a y :
  ready s -> holds s ra a -> 0 <= bf < 8 -> str_in m0 ["cmp"; "cmpi"; "cmpl"; "cmpli"]%string = true -> compare_operand s m0 x y ->
  exists res,
    step v (cmp_ m0 bf ra x) pc s = (set_cr (compare_family.cr res) s, Done None) /\
    compare_family.evaluate m0 a y bf 0 (carry s) (overflow s) (so s) (cr s) = Ok res.
Proof.
  intros Hs Ha Hbf Hm Hy. destruct (flags_of s Hs) as (F1 & F2 & F3 & _).
  assert (Hargs : compare_args_ok m0 y bf 0 (carry s) (overflow s) (so s) (cr s) = true).
  { unfold compare_args_ok. rewrite F1, F2, F3, (proj2 (in_range_iff 0 8 bf) Hbf), (proj2 (in_range_iff 0 (2 ^ 32) (cr s)) (rd_cr s Hs)).
    unfold compare_operand in Hy. destruct (str_in m0 ["cmpi"; "cmpli"]%string).
    - destruct Hy as [-> Hy]. rewrite (proj2 (in_range_iff 0 (2 ^ 16) x) Hy). destruct (compare_names m0 Hm) as [-> | [-> | [-> | ->]]]; reflexivity.
    - destruct (compare_names m0 Hm) as [-> | [-> | [-> | ->]]]; reflexivity. }
  rewrite (compare_evaluate_eq m0 a y bf 0 _ _ _ _ Hargs).
  pose proof (cmp_operands_eq m0 bf ra x s a y Hs (proj2 (proj2 Ha)) Hm Hy) as Eo.
  destruct (compare_operands m0 a y) as [p q]. cbn [fst snd] in Eo. eexists. split; [| reflexivity].
  set (i := cmp_ m0 bf ra x) in *.
  assert (E : step v i pc s = cmp_op i s /\ dict_get (f i) "ra" = Some ra /\ dict_get (f i) "bf" = Some bf).
  { subst i. destruct (compare_names m0 Hm) as [-> | [-> | [-> | ->]]]; repeat split. }
  destruct E as (-> & Era & Ebf). unfold cmp_op.
  rewrite (bind_done _ _ _ _ _ (g_fld_eq i "ra" ra a s Hs Ha Era)), (bind_done _ _ _ _ _ Eo).
  cbn [py_lt]. rewrite (bind_done (lift (Ok (p <? q))) _ s s _ eq_refl), (bind_done (lift (Ok (q <? p))) _ s s _ eq_refl).
  rewrite (bind_done _ _ _ _ _ (fld_eq i "bf" bf s Ebf)), (bind_done get _ s s s eq_refl).
  rewrite relation_bits_eq. unfold bind. cbn [setcrf modify].
  cbn [compare_family.cr]. rewrite <- crf_word_clear; [reflexivity | exact (rd_cr s Hs) | | exact Hbf].
  rewrite <- relation_bits_eq, so_flag. apply (lor_bound _ _ 4); [lia | repeat case_if; lia | unfold flag; destruct (Z.testbit (xer s) 31); cbn; lia].
Qed.

(** C24. The self-test model and the family oracles are one semantics. From any
    state with 32 registers and words in XER and CR, and operands that are
    words, the step of every addition, register logical, shift, rotate and
    compare instruction built by its constructor returns without an exception;
    it changes the destination register, CA, OV, SO and CR0 exactly as the
    family's [evaluate] says on the same operands and flags, and nothing else; a
    compare changes CR alone, to [compare_family.evaluate]'s. *)
Theorem machine_agrees_with_families v pc s :
  ready s ->
  (forall m0 rt ra rb oe rc a b i,
     holds s ra a -> holds s rb b -> 0 <= rt < 32 -> is_flag oe = true -> is_flag rc = true ->
     dict_mem add_family.XO m0 = true -> xo m0 rt ra rb oe rc = Ok i ->
     exists s' res, step v i pc s = (s', Done None) /\
       add_family.evaluate m0 a b (carry s) oe rc (overflow s) (so s) (cr0_of (cr s)) = Ok res /\
       executed s rt (er_value res) (er_ca res) (er_ov res) (er_so res) (er_cr0 res) s') /\
  (forall m0 ra rs rb rc a b i,
     holds s rs a -> holds s rb b -> 0 <= ra < 32 -> is_flag rc = true ->
     dict_mem logical_family.XO m0 = true -> logx m0 ra rs rb rc = Ok i ->
     exists s' res, step v i pc s = (s', Done None) /\
       logical_family.evaluate m0 a b rc (carry s) (overflow s) (so s) (cr0_of (cr s)) = Ok res /\
       executed s ra (er_value res) (er_ca res) (er_ov res) (er_so res) (er_cr0 res) s') /\
  (forall m0 ra rs x rc a b i,
     holds s rs a -> (if String.eqb m0 "srawi" then b = x /\ 0 <= x < 32 else holds s x b) -> 0 <= ra < 32 -> is_flag rc = true ->
     dict_mem shift_family.XO m0 = true -> shift_insn m0 ra rs x rc = Ok i ->
     exists s' res, step v i pc s = (s', Done None) /\
       shift_family.evaluate m0 a b rc (carry s) (overflow s) (so s) (cr0_of (cr s)) = Ok res /\
       executed s ra (er_value res) (er_ca res) (er_ov res) (er_so res) (er_cr0 res) s') /\
  (forall m0 op rs ra sh mb me rc a old n,
     holds s rs a -> holds s ra old -> (if String.eqb m0 "rlwnm" then holds s sh n else n = sh /\ 0 <= sh < 32) ->
     0 <= mb < 32 -> 0 <= me < 32 -> is_flag rc = true -> dict_mem rotate_family.PRIMARY_OPCODE m0 = true ->
     exists s' res, step v (mform m0 op rs ra sh mb me rc) pc s = (s', Done None) /\
       rotate_family.evaluate m0 a n mb me old rc (carry s) (overflow s) (so s) (cr0_of (cr s)) = Ok res /\
       executed s ra (er_value res) (er_ca res) (er_ov res) (er_so res) (er_cr0 res) s') /\
  (forall m0 bf ra x a y,
     holds s ra a -> compare_operand s m0 x y -> 0 <= bf < 8 -> str_in m0 ["cmp"; "cmpi"; "cmpl"; "cmpli"]%string = true ->
     exists res, step v (cmp_ m0 bf ra x) pc s = (set_cr (compare_family.cr res) s, Done None) /\
       compare_family.evaluate m0 a y bf 0 (carry s) (overflow s) (so s) (cr s) = Ok res).
Proof.
  intros Hs. split; [| split; [| split; [| split]]]; intros.
  - match goal with H : xo _ _ _ _ _ _ = Ok _ |- _ => unfold xo in H; destruct (item XO_OPS m0); [apply ok_inj in H; subst i | discriminate] end.
    apply step_adds; assumption.
  - eapply step_logical; eassumption.
  - eapply step_shift; eassumption.
  - eapply step_rotate; eassumption.
  - eapply step_compare; eassumption.
Qed.

(** addeo. of the two largest words with the carry set. *)
Definition carry_state : State :=
  set_xer 0x20000000 (set_gpr (<[3%nat := Int 0xffffffff]> (<[4%nat := Int 0xffffffff]> (gpr alias_state))) alias_state).

Lemma machine_agrees_with_families_witness :
  ready carry_state /\ holds carry_state 3 0xffffffff /\
  exists i s' res, xo "adde" 5 3 4 1 1 = Ok i /\ step v603e i 0 carry_state = (s', Done None) /\
    add_family.evaluate "adde" 0xffffffff 0xffffffff (carry carry_state) 1 1 (overflow carry_state) (so carry_state)
      (cr0_of (cr carry_state)) = Ok res /\
    executed carry_state 5 (er_value res) (er_ca res) (er_ov res) (er_so res) (er_cr0 res) s'.
Proof.
  assert (Hr : ready carry_state) by (split; [reflexivity | split; reflexivity || discriminate | split; reflexivity || discriminate]).
  assert (H3 : holds carry_state 3 0xffffffff) by (split; [lia | split; [reflexivity | split; reflexivity || discriminate]]).
  assert (H4 : holds carry_state 4 0xffffffff) by (split; [lia | split; [reflexivity | split; reflexivity || discriminate]]).
  split; [exact Hr | split; [exact H3 |]].
  destruct (proj1 (machine_agrees_with_families v603e 0 carry_state Hr) "adde" 5 3 4 1 1 0xffffffff 0xffffffff
              _ H3 H4 ltac:(lia) eq_refl eq_refl eq_refl eq_refl) as (s' & res & H).
  eexists _, s', res. split; [reflexivity | exact H].
Defined.
