(* ===== verification/SelftestResolve.v ===== *)
(** * Branch words of the self-test

    [resolve] fills the displacement of a relative branch from the offset its
    constructor was given; the cycle model's decoder reads it back. *)
From S2P Require Import Prelude PerfInsn FpReference FpPpc FpStatus SelftestInsn SelftestMachine SelftestRun.
Import selftest_insn selftest_run.

Lemma land_field x k n : 0 <= k -> 0 <= n -> Z.land x (Z.shiftl (Z.ones n) k) = (x / 2 ^ k) mod 2 ^ n * 2 ^ k.
Proof.
  intros Hk Hn. rewrite <- Z.land_ones, <- Z.shiftr_div_pow2, <- Z.shiftl_mul_pow2 by lia. apply Z.bits_inj'. intros i Hi.
  rewrite Z.land_spec, !Z.shiftl_spec by lia. destruct (Z.ltb_spec (i - k) 0).
  - rewrite !(Z.testbit_neg_r _ (i - k)) by lia. apply andb_false_r.
  - rewrite Z.land_spec, Z.shiftr_spec by lia. f_equal. f_equal. lia.
Qed.

Lemma sext_back d n : 0 < n -> - 2 ^ (n - 1) <= d < 2 ^ (n - 1) -> perf_insn.sext (d mod 2 ^ n) n = d.
Proof.
  intros Hn Hd. unfold perf_insn.sext. assert (Hp : 2 ^ n = 2 * 2 ^ (n - 1)) by (rewrite <- Z.pow_succ_r by lia; f_equal; lia).
  rewrite truthy_land_bit, testbit_top, Z.shiftl_1_l by (lia || (replace (n - 1 + 1) with n by lia; apply Z.mod_pos_bound; lia)).
  destruct (Z.ltb_spec d 0).
  - rewrite <- (Z.mod_unique d (2 ^ n) (-1) (d + 2 ^ n)) by lia. rewrite (proj2 (Z.leb_le _ _)) by lia. lia.
  - rewrite Z.mod_small by lia. destruct (Z.leb_spec (2 ^ (n - 1)) d); lia.
Qed.

(** The words [resolve] makes, as sums. *)
Lemma b_word_sum e lk :
  0 <= lk < 2 ->
  Z.lor (Z.lor (Z.shiftl 18 26) (Z.land (4 * e) 0x03FFFFFC)) lk = 18 * 2 ^ 26 + e mod 2 ^ 24 * 4 + lk.
Proof.
  intros Hlk. change 0x03FFFFFC with (Z.shiftl (Z.ones 24) 2). rewrite land_field by lia.
  change (2 ^ 2) with 4. rewrite (Z.mul_comm 4 e), Z.div_mul by lia.
  pose proof (Z.mod_pos_bound e (2 ^ 24) ltac:(lia)) as He. rewrite lor_shiftl_add by lia.
  apply (lor_disjoint _ lk 2); [lia | word_lia | lia].
Qed.

Lemma bc_word_sum e bo bi lk :
  0 <= lk < 2 -> 0 <= bo < 32 -> 0 <= bi < 32 ->
  ors [Z.shiftl 16 26; Z.shiftl bo 21; Z.shiftl bi 16; Z.land (4 * e) 0xFFFC; lk] =
  16 * 2 ^ 26 + bo * 2 ^ 21 + bi * 2 ^ 16 + e mod 2 ^ 14 * 4 + lk.
Proof.
  intros Hlk Hbo Hbi. unfold ors. cbn [fold_left]. rewrite Z.lor_0_l.
  change 0xFFFC with (Z.shiftl (Z.ones 14) 2). rewrite land_field by lia.
  change (2 ^ 2) with 4. rewrite (Z.mul_comm 4 e), Z.div_mul by lia. pose proof (Z.mod_pos_bound e (2 ^ 14) ltac:(lia)) as He.
  rewrite (Z.shiftl_mul_pow2 bo), (Z.shiftl_mul_pow2 bi) by lia.
  rewrite (lor_shiftl_add 16 (bo * 2 ^ 21) 26) by lia.
  rewrite (lor_disjoint _ (bi * 2 ^ 16) 21); [| lia | word_lia | lia].
  rewrite (lor_disjoint _ (e mod 2 ^ 14 * 4) 16); [| lia | word_lia | lia].
  apply (lor_disjoint _ lk 2); [lia | word_lia | lia].
Qed.

(** A relative branch reaches its label. The word [resolve] writes for [b]
    or [bc] at offset [here] of a case loaded at [base] is decoded by the cycle
    model back to the same BO, BI and LK and to the label's address, for every
    label in reach: 32 MB for [b], 32 KB for [bc]. *)
Theorem resolved_branch_reaches base here e lk bo bi :
  0 <= lk < 2 -> 0 <= bo < 32 -> 0 <= bi < 32 ->
  let label := here + 4 * e in
  (- 2 ^ 23 <= e < 2 ^ 23 ->
   exists w, resolve_word here (b_ label lk) = Ok (Some w) /\ 0 <= w < 2 ^ 32 /\ Z.shiftr w 26 = 18 /\ Z.land w 1 = lk /\
     perf_insn.branch_targets (base + here) w = [(base + label) mod 2 ^ 32]) /\
  (- 2 ^ 13 <= e < 2 ^ 13 ->
   exists w, resolve_word here (bc bo bi label lk) = Ok (Some w) /\ 0 <= w < 2 ^ 32 /\ Z.shiftr w 26 = 16 /\ Z.land w 1 = lk /\
     Z.land (Z.shiftr w 21) 31 = bo /\ Z.land (Z.shiftr w 16) 31 = bi /\
     perf_insn.branch_targets (base + here) w = [base + here + 4; (base + label) mod 2 ^ 32]).
Proof.
  intros Hlk Hbo Hbi label. split; intros He; unfold resolve_word, b_, bc; cbn [branch_to with_target m mk f item dict_get];
    replace (label - here) with (4 * e) by (unfold label; lia); eexists; (split; [reflexivity |]).
  - rewrite b_word_sum by assumption. set (q := e mod 2 ^ 24). assert (0 <= q < 2 ^ 24) by (apply Z.mod_pos_bound; lia).
    set (w := 18 * 2 ^ 26 + q * 4 + lk).
    assert (E1 : Z.shiftr w 26 = 18) by (rewrite Z.shiftr_div_pow2 by lia; subst w; word_lia).
    assert (E2 : truthy (Z.land w 2) = false).
    { change 2 with (Z.shiftl (Z.ones 1) 1). rewrite land_field by lia. unfold truthy. replace (w / 2 ^ 1) with (18 * 2 ^ 25 + q * 2) by (subst w; word_lia).
      rewrite (proj2 (Z.eqb_eq _ 0)); [reflexivity | word_lia]. }
    split; [subst w; lia |]. split; [exact E1 |]. split.
    { change 1 with (Z.ones 1) at 1. rewrite Z.land_ones by lia. subst w. word_lia. }
    unfold perf_insn.branch_targets. rewrite E1, E2. cbn [Z.eqb Pos.eqb]. f_equal. change 0xFFFFFFFF with MASK32. rewrite mask32_mod.
    change 0x3FFFFFC with (Z.shiftl (Z.ones 24) 2). rewrite land_field by lia.
    assert ((w / 2 ^ 2) mod 2 ^ 24 = q) as -> by (subst w; word_lia).
    assert (q * 2 ^ 2 = (4 * e) mod 2 ^ 26) as -> by (subst q; clear; word_lia).
    rewrite sext_back by lia. f_equal. unfold label. lia.
  - rewrite bc_word_sum by assumption. set (q := e mod 2 ^ 14). assert (0 <= q < 2 ^ 14) by (apply Z.mod_pos_bound; lia).
    set (w := 16 * 2 ^ 26 + bo * 2 ^ 21 + bi * 2 ^ 16 + q * 4 + lk).
    assert (E1 : Z.shiftr w 26 = 16) by (rewrite Z.shiftr_div_pow2 by lia; subst w; word_lia).
    assert (E2 : truthy (Z.land w 2) = false).
    { change 2 with (Z.shiftl (Z.ones 1) 1). rewrite land_field by lia. unfold truthy.
      replace (w / 2 ^ 1) with (16 * 2 ^ 25 + bo * 2 ^ 20 + bi * 2 ^ 15 + q * 2) by (subst w; word_lia).
      rewrite (proj2 (Z.eqb_eq _ 0)); [reflexivity | word_lia]. }
    split; [subst w; lia |]. split; [exact E1 |].
    change 1 with (Z.ones 1) at 1. change 31 with (Z.ones 5). rewrite !Z.land_ones, !Z.shiftr_div_pow2 by lia.
    split; [subst w; word_lia |]. split; [subst w; word_lia |]. split; [subst w; word_lia |].
    unfold perf_insn.branch_targets. rewrite E1, E2. cbn [Z.eqb Pos.eqb]. do 2 f_equal. change 0xFFFFFFFF with MASK32. rewrite mask32_mod.
    change 0xFFFC with (Z.shiftl (Z.ones 14) 2). rewrite land_field by lia.
    assert ((w / 2 ^ 2) mod 2 ^ 14 = q) as -> by (subst w; word_lia).
    assert (q * 2 ^ 2 = (4 * e) mod 2 ^ 16) as -> by (subst q; clear; word_lia).
    rewrite sext_back by lia. f_equal. unfold label. lia.
Qed.

(** A backward bdnz over two instructions. *)
Lemma resolved_branch_reaches_witness :
  exists w, resolve_word 8 (bc 16 0 0 0) = Ok (Some w) /\ 0 <= w < 2 ^ 32 /\ Z.shiftr w 26 = 16 /\ Z.land w 1 = 0 /\
    Z.land (Z.shiftr w 21) 31 = 16 /\ Z.land (Z.shiftr w 16) 31 = 0 /\
    perf_insn.branch_targets (0xfff10000 + 8) w = [0xfff10000 + 8 + 4; (0xfff10000 + 0) mod 2 ^ 32].
Proof. apply (proj2 (resolved_branch_reaches 0xfff10000 8 (-2) 0 16 0 ltac:(lia) ltac:(lia) ltac:(lia))). lia. Defined.
