(* ===== verification/SelftestTyped.v ===== *)
(** * The self-test model keeps its state well typed

    Every register of the model is a word of its width, memory is 256 bytes, and
    the saved blocks are blocks of the buffer. A rule for each construct of the
    state monad reduces the invariant to the widths of the values written. *)
From S2P Require Import Prelude Words FpReference FpPpc FpStatus FpRange SelftestInsn SelftestFloat SelftestMachine.
Import selftest_insn selftest.
#[local] Open Scope Z_scope.
Create HintDb typing.

(** ** The invariant *)
Definition sized {A} (n : nat) (P : A -> Prop) (l : list A) : Prop := length l = n /\ Forall P l.

Definition val_ok (x : val) : Prop := match x with Int z => fits 32 z | Masked _ mk => fits 32 mk | _ => True end.
Definition some_word (o : option Z) : Prop := match o with Some z => fits 32 z | None => True end.

(** What an XO form returns: its result, where it is predicted. *)
Definition opt_word (p : option Z * option bool) : Prop := some_word (fst p).
(** The FPSCR a floating-point instruction leaves, and its mask. *)
Definition both_words (p : Z * Z) : Prop := fits 32 (fst p) /\ fits 32 (snd p).

(** A saved cache block: 32 bytes, at the offset of a block of the buffer. *)
Definition block_ok (a : Z) (l : list Z) : Prop := sized 32 (fits 8) l /\ BUF <= a <= BUF + 224.

Record typed (s : State) : Prop := {
  ty_gpr : sized 32 val_ok (gpr s);
  ty_cr : fits 32 (cr s);
  ty_xer : fits 32 (xer s);
  ty_lr : val_ok (lr s);
  ty_ctr : val_ok (ctr s);
  ty_msr : fits 32 (msr s);
  ty_srr0 : val_ok (srr0 s);
  ty_srr1 : val_ok (srr1 s);
  ty_dar : val_ok (dar s);
  ty_dsisr : val_ok (dsisr s);
  ty_sprg : sized 4 val_ok (sprg s);
  ty_sr : sized 16 val_ok (sr s);
  ty_ear : fits 32 (ear s);
  ty_mem : sized 256 (fits 8) (mem s);
  ty_fpr : sized 32 (fits 64) (fpr s);
  ty_fpscr : fits 32 (fpscr s);
  ty_resv : some_word (resv s);
  ty_dontcare : map_Forall (fun _ => fits 32) (dontcare s);
  ty_backing : map_Forall block_ok (backing s);
  ty_icbi : some_word (icbi s);
  ty_vec : fits 32 (vec s)
}.

(** The predicted exception: words in its fields. *)
Definition trap_ok (t : Trap) : Prop :=
  fits 32 (tvec t) /\ fits 32 (flags t) /\ some_word (t_dar t) /\ some_word (t_dsisr t) /\ fits 32 (dsisr_mask t) /\
  fits 32 (srr1_mask t) /\ match t_target t with Some x => val_ok x | None => True end.

Ltac typed_update := intros [] ?; constructor; assumption.
Lemma typed_gpr x s : typed s -> sized 32 val_ok x -> typed (set_gpr x s).
Proof. typed_update. Qed.
Lemma typed_cr x s : typed s -> fits 32 x -> typed (set_cr x s).
Proof. typed_update. Qed.
Lemma typed_xer x s : typed s -> fits 32 x -> typed (set_xer x s).
Proof. typed_update. Qed.
Lemma typed_lr x s : typed s -> val_ok x -> typed (set_lr x s).
Proof. typed_update. Qed.
Lemma typed_ctr x s : typed s -> val_ok x -> typed (set_ctr x s).
Proof. typed_update. Qed.
Lemma typed_msr x s : typed s -> fits 32 x -> typed (set_msr x s).
Proof. typed_update. Qed.
Lemma typed_srr0 x s : typed s -> val_ok x -> typed (set_srr0 x s).
Proof. typed_update. Qed.
Lemma typed_srr1 x s : typed s -> val_ok x -> typed (set_srr1 x s).
Proof. typed_update. Qed.
Lemma typed_dar x s : typed s -> val_ok x -> typed (set_dar x s).
Proof. typed_update. Qed.
Lemma typed_dsisr x s : typed s -> val_ok x -> typed (set_dsisr x s).
Proof. typed_update. Qed.
Lemma typed_sprg x s : typed s -> sized 4 val_ok x -> typed (set_sprg x s).
Proof. typed_update. Qed.
Lemma typed_sr x s : typed s -> sized 16 val_ok x -> typed (set_sr x s).
Proof. typed_update. Qed.
Lemma typed_ear x s : typed s -> fits 32 x -> typed (set_ear x s).
Proof. typed_update. Qed.
Lemma typed_mem x s : typed s -> sized 256 (fits 8) x -> typed (set_mem x s).
Proof. typed_update. Qed.
Lemma typed_fpr x s : typed s -> sized 32 (fits 64) x -> typed (set_fpr x s).
Proof. typed_update. Qed.
Lemma typed_fpscr x s : typed s -> fits 32 x -> typed (set_fpscr x s).
Proof. typed_update. Qed.
Lemma typed_resv x s : typed s -> some_word x -> typed (set_resv x s).
Proof. typed_update. Qed.
Lemma typed_dontcare x s : typed s -> map_Forall (fun _ => fits 32) x -> typed (set_dontcare x s).
Proof. typed_update. Qed.
Lemma typed_backing x s : typed s -> map_Forall block_ok x -> typed (set_backing x s).
Proof. typed_update. Qed.
Lemma typed_icbi x s : typed s -> some_word x -> typed (set_icbi x s).
Proof. typed_update. Qed.
Lemma typed_vec x s : typed s -> fits 32 x -> typed (set_vec x s).
Proof. typed_update. Qed.
#[export] Hint Resolve typed_gpr typed_cr typed_xer typed_lr typed_ctr typed_msr typed_srr0 typed_srr1 typed_dar typed_dsisr typed_sprg typed_sr typed_ear typed_mem typed_fpr typed_fpscr typed_resv typed_dontcare typed_backing typed_icbi typed_vec : typing.
#[export] Hint Resolve ty_gpr ty_cr ty_xer ty_lr ty_ctr ty_msr ty_srr0 ty_srr1 ty_dar ty_dsisr ty_sprg ty_sr ty_ear ty_mem ty_fpr ty_fpscr ty_resv ty_dontcare ty_backing ty_icbi ty_vec : typing fits.

Lemma sized_get {A} n (P : A -> Prop) l i a : sized n P l -> py_get l i = Ok a -> P a.
Proof. intros [_ H]. apply Forall_py_get. exact H. Qed.
Lemma sized_set {A} n (P : A -> Prop) l i a l' : sized n P l -> P a -> py_set l i a = Ok l' -> sized n P l'.
Proof.
  intros [Hl H] Ha E. split; [rewrite (py_set_length _ _ _ _ E); exact Hl | exact (Forall_py_set _ _ _ _ _ H Ha E)].
Qed.

Lemma trap_ok_intro t :
  fits 32 (tvec t) -> fits 32 (flags t) -> some_word (t_dar t) -> some_word (t_dsisr t) -> fits 32 (dsisr_mask t) ->
  fits 32 (srr1_mask t) -> match t_target t with Some x => val_ok x | None => True end -> trap_ok t.
Proof. unfold trap_ok. auto 10. Qed.

(** ** Rules *)

(** From a typed state, [x] leaves a typed state and a value in [P], whatever
    exception it takes. *)
Definition typ {A} (x : M A) (P : A -> Prop) : Prop :=
  forall s, typed s ->
    typed (fst (x s)) /\ match snd (x s) with Done a => P a | Trapped t => trap_ok t | Failed _ => True end.

Section Rules.
Context {A B : Type} (P : A -> Prop) (Q : B -> Prop).

Lemma typ_ret a : P a -> typ (ret a) P.
Proof using. intros H s Hs. split; assumption. Qed.
Lemma typ_fail e : typ (fail e) P.
Proof using. intros s Hs. split; [assumption | exact I]. Qed.
Lemma typ_raise t : trap_ok t -> typ (raise_trap t) P.
Proof using. intros H s Hs. split; assumption. Qed.
Lemma typ_lift r : (forall a, r = Ok a -> P a) -> typ (lift r) P.
Proof using. intros H. destruct r as [a | e]; [apply typ_ret; auto | apply typ_fail]. Qed.
Lemma typ_bind x (k : A -> M B) : typ x P -> (forall a, P a -> typ (k a) Q) -> typ (bind x k) Q.
Proof using.
  intros Hx Hk s Hs. destruct (Hx s Hs) as [H1 H2]. unfold bind. destruct (x s) as [s1 [a | t | e]]; cbn [fst snd] in *.
  - exact (Hk a H2 s1 H1).
  - split; assumption.
  - split; [assumption | exact I].
Qed.
Lemma typ_weaken (P' : A -> Prop) x : typ x P' -> (forall a, P' a -> P a) -> typ x P.
Proof using.
  intros Hx H s Hs. destruct (Hx s Hs) as [H1 H2]. split; [exact H1 |]. destruct (snd (x s)); auto.
Qed.
End Rules.

Lemma typ_get : typ get typed.
Proof. intros s Hs. split; exact Hs. Qed.
Lemma typ_modify g : (forall s, typed s -> typed (g s)) -> typ (modify g) (fun _ => True).
Proof. intros H s Hs. split; [apply H; exact Hs | exact I]. Qed.
Lemma typ_done : typ done (fun _ => True).
Proof. apply typ_ret. exact I. Qed.
Lemma typ_when b x : typ x (fun _ => True) -> typ (when b x) (fun _ => True).
Proof. intros H. destruct b; [exact H | apply typ_ret; exact I]. Qed.
Lemma typ_each ks body : (forall k, In k ks -> typ (body k) (fun _ => True)) -> typ (each ks body) (fun _ => True).
Proof.
  induction ks as [| k ks IH]; intros H; [apply typ_ret; exact I |].
  apply typ_bind with (fun _ => True); [apply H; left; reflexivity | intros _ _; apply IH; intros; apply H; right; assumption].
Qed.
#[export] Hint Resolve typ_get typ_done : typing.

(** ** Automation *)

(** A value written to the state, or an exception's fields. *)
Ltac side :=
  cbn [val_ok some_word];
  lazymatch goal with
  | |- True => exact I
  | |- fits _ _ => fits
  | |- opt_word _ => unfold opt_word; cbn [fst some_word]; side
  | |- both_words _ => split; cbn [fst snd]; fits
  | |- _ = true => assumption
  | |- val_ok (if ?b then _ else _) => destruct b; side
  | |- trap_ok (if ?b then _ else _) => destruct b; side
  | |- trap_ok _ =>
      first [ solve [eauto 2 with typing]
            | apply trap_ok_intro; cbn [tvec flags t_dar t_dsisr dsisr_mask srr1_mask t_target some_word trap trap_data]; first [exact I | fits] ]
  | |- typed _ => first [assumption | solve [eauto 3 with typing]
                        | lazymatch goal with
                          | |- typed (set_cr _ _) => apply typed_cr; [assumption | side]
                          | |- typed (set_xer _ _) => apply typed_xer; [assumption | side]
                          | |- typed (set_fpscr _ _) => apply typed_fpscr; [assumption | side]
                          | |- typed (set_msr _ _) => apply typed_msr; [assumption | side]
                          | |- typed (set_ear _ _) => apply typed_ear; [assumption | side]
                          | |- typed (set_lr _ _) => apply typed_lr; [assumption | side]
                          | |- typed (set_ctr _ _) => apply typed_ctr; [assumption | side]
                          | |- typed (set_resv _ _) => apply typed_resv; [assumption | side]
                          | |- typed (set_icbi _ _) => apply typed_icbi; [assumption | side]
                          end]
  | |- _ => first [assumption | solve [eauto 3 with typing] | lia]
  end.

(** ** The primitives *)
Definition field_limits : dict Z :=
  [("imm", 65536); ("fxm", 256); ("spr", 1024); ("xo", 1024); ("op", 64); ("bf", 8); ("bfa", 8); ("sr", 16); ("nb", 33);
   ("n", 5); ("oe", 2); ("rc", 2); ("lk", 2); ("aa", 2)]%string.
Definition field_limit (k : string) : Z := default 32 (dict_get field_limits k).
(** The fields an instruction word can hold; a transfer has at most four bytes. *)
Definition encodable (i : Insn) : bool := forallb (fun p => (0 <=? snd p) && (snd p <? field_limit (fst p))) (f i).

Lemma encodable_field i k z : encodable i = true -> dict_get (f i) k = Some z -> 0 <= z < field_limit k.
Proof.
  unfold encodable. intros H E. apply dict_get_In in E. rewrite forallb_forall in H. specialize (H _ E).
  cbn [fst snd] in H. bool_prop. lia.
Qed.
Lemma typ_fld i k : encodable i = true -> typ (fld i k) (fun z => 0 <= z < field_limit k).
Proof.
  intros Hi. unfold fld. destruct (dict_get (f i) k) as [z |] eqn:E; [| apply typ_fail].
  apply typ_ret. exact (encodable_field _ _ _ Hi E).
Qed.
Lemma typ_any_fld i k : typ (fld i k) (fun _ => True).
Proof. unfold fld. destruct (dict_get (f i) k); [apply typ_ret; exact I | apply typ_fail]. Qed.

Lemma typ_g_get n : typ (g_get n) val_ok.
Proof. apply typ_bind with typed; [exact typ_get |]. intros s Hs. apply typ_lift. intros x. apply sized_get with 32%nat, Hs. Qed.
Lemma typ_f_get n : typ (f_get n) (fits 64).
Proof. apply typ_bind with typed; [exact typ_get |]. intros s Hs. apply typ_lift. intros x. apply sized_get with 32%nat, Hs. Qed.
Lemma typ_mem_get n : typ (mem_get n) (fits 8).
Proof. apply typ_bind with typed; [exact typ_get |]. intros s Hs. apply typ_lift. intros x. apply sized_get with 256%nat, Hs. Qed.

(** An element of a list of the state replaced. *)
Lemma typ_update {A} (get_list : State -> list A) (put : list A -> State -> State) n (P : A -> Prop) k x :
  (forall s, typed s -> sized n P (get_list s)) -> (forall l s, typed s -> sized n P l -> typed (put l s)) -> P x ->
  typ (bind get (fun s => bind (lift (py_set (get_list s) k x)) (fun l => modify (put l)))) (fun _ => True).
Proof.
  intros Hg Hp Hx. apply typ_bind with typed; [exact typ_get |]. intros s Hs.
  apply typ_bind with (sized n P); [apply typ_lift; intros l; apply sized_set; [apply Hg; exact Hs | exact Hx] |].
  intros l Hl. apply typ_modify. intros s' Hs'. apply Hp; assumption.
Qed.
Lemma typ_g_set n x : val_ok x -> typ (g_set n x) (fun _ => True).
Proof. apply (typ_update gpr set_gpr 32 val_ok); eauto with typing. Qed.
Lemma typ_f_set n x : fits 64 x -> typ (f_set n x) (fun _ => True).
Proof. apply (typ_update fpr set_fpr 32 (fits 64)); eauto with typing. Qed.
Lemma typ_mem_set n x : fits 8 x -> typ (mem_set n x) (fun _ => True).
Proof. apply (typ_update mem set_mem 256 (fits 8)); eauto with typing. Qed.

Lemma typ_int_of x : val_ok x -> typ (int_of x) (fits 32).
Proof. destruct x; cbn; intros H; [apply typ_ret; exact H | apply typ_fail ..]. Qed.
Lemma typ_any_int x : typ (int_of x) (fun _ => True).
Proof. destruct x; [apply typ_ret; exact I | apply typ_fail ..]. Qed.
Lemma typ_g_fld i k : typ (g_fld i k) val_ok.
Proof. apply typ_bind with (fun _ => True); [apply typ_any_fld | intros n _; apply typ_g_get]. Qed.
Lemma typ_g_int i k : typ (g_int i k) (fits 32).
Proof. apply typ_bind with val_ok; [apply typ_g_fld | apply typ_int_of]. Qed.
Lemma typ_g_put i k z : fits 32 z -> typ (g_put i k z) (fun _ => True).
Proof. intros H. apply typ_bind with (fun _ => True); [apply typ_any_fld | intros n _; apply typ_g_set; exact H]. Qed.
Lemma typ_ra0 n : typ (ra0 n) val_ok.
Proof. unfold ra0. case_if; [apply typ_ret; side | apply typ_g_get]. Qed.

Lemma typ_setcrf bf x : 0 <= bf < 8 -> typ (setcrf bf x) (fun _ => True).
Proof.
  intros Hb. apply typ_modify. intros s Hs. cbv zeta. apply typed_cr; [exact Hs |].
  apply fits_lor; [lia | fits |]. apply fits_shiftl; [lia | lia |]. apply (fits_le 4); [fits | lia].
Qed.
Lemma typ_setcrbit k b : 0 <= k < 32 -> fits 1 b -> typ (setcrbit k b) (fun _ => True).
Proof.
  intros Hk Hb. apply typ_modify. intros s Hs. apply typed_cr; [exact Hs |].
  apply fits_lor; [lia | fits |]. apply fits_shiftl; [lia | lia |]. apply (fits_le 1); [exact Hb | lia].
Qed.
Lemma typ_cr0 x : typ (cr0 x) (fun _ => True).
Proof. apply typ_bind with typed; [exact typ_get | intros s _; apply typ_setcrf; lia]. Qed.
Lemma typ_if_rc i r : encodable i = true -> typ (if_rc i r) (fun _ => True).
Proof. intros Hi. eapply typ_bind; [apply typ_fld; exact Hi | intros; apply typ_when, typ_cr0]. Qed.
Lemma typ_ov b : typ (ov b) (fun _ => True).
Proof. apply typ_modify. intros s Hs. cbv zeta. apply typed_xer; [exact Hs | fits]. Qed.
Lemma typ_ca b : typ (ca b) (fun _ => True).
Proof. apply typ_modify. intros s Hs. cbv zeta. apply typed_xer; [exact Hs | fits]. Qed.
Lemma typ_set_dontcare k x : fits 32 x -> typ (set_dontcare_key k x) (fun _ => True).
Proof.
  intros Hx. apply typ_modify. intros s Hs. apply typed_dontcare; [exact Hs |].
  apply map_Forall_insert_2; [exact Hx | apply Hs].
Qed.

(** ** Memory *)
Lemma fits_M32 x : fits 32 (Z.land x M32).
Proof. apply fits_land_r; [lia | const_fits]. Qed.
#[export] Hint Resolve fits_M32 : fits.

Lemma typ_xlate ea st : typ (xlate_data ea st) (fun _ => True).
Proof.
  apply typ_bind with typed; [exact typ_get |]. intros s Hs. cbv zeta.
  repeat case_if; first [apply typ_ret; exact I | apply typ_raise; side].
Qed.
Lemma typ_mem_ok pa n : typ (mem_ok pa n) (fun _ => True).
Proof. unfold mem_ok. case_if; [apply typ_ret; exact I | apply typ_fail]. Qed.
Lemma typ_load_bytes pa ks x j : 0 <= j -> fits j x -> typ (load_bytes pa ks x) (fits (j + 8 * Z.of_nat (length ks))).
Proof.
  revert x j. induction ks as [| k ks IH]; intros x j Hj Hx; cbn [load_bytes length].
  - apply typ_ret. replace (j + 8 * Z.of_nat 0) with j by lia. exact Hx.
  - apply typ_bind with (fits 8); [apply typ_mem_get |]. intros b Hb.
    replace (j + 8 * Z.of_nat (S (length ks))) with ((j + 8) + 8 * Z.of_nat (length ks)) by lia.
    apply IH; [lia |]. apply fits_lor; [lia | apply fits_shiftl; [lia | lia |] | apply (fits_le 8); [exact Hb | lia]].
    replace (j + 8 - 8) with j by lia. exact Hx.
Qed.
Lemma typ_load ea n : 0 <= n -> typ (load ea n) (fits (8 * n)).
Proof.
  intros Hn. apply typ_bind with (fun _ => True); [apply typ_xlate | intros pa _].
  apply typ_bind with (fun _ => True); [apply typ_mem_ok | intros _ _]. eapply typ_weaken; [apply (typ_load_bytes _ _ 0 0); [lia | const_fits] |].
  intros z. unfold range. rewrite length_seqZ. replace (0 + 8 * Z.of_nat (Z.to_nat n)) with (8 * n) by lia. auto.
Qed.
Lemma typ_store ea n x : typ (store ea n x) (fun _ => True).
Proof.
  apply typ_bind with (fun _ => True); [apply typ_xlate | intros pa _]. case_if; [apply typ_ret; exact I |].
  apply typ_bind with (fun _ => True); [apply typ_mem_ok | intros _ _]. apply typ_each. intros k _.
  apply typ_bind with (fun _ => True); [apply typ_any_int | intros z _]. apply typ_mem_set. fits.
Qed.

(** ** Rules for instructions *)

(** The field limits, computed. *)
Ltac limits :=
  cbv beta in *;
  repeat match goal with
         | H : context [field_limit ?k] |- _ => let n := eval vm_compute in (field_limit k) in change (field_limit k) with n in H
         | H : fits (8 * ?n) _ |- _ => closed n; let w := eval vm_compute in (8 * n) in change (8 * n) with w in H
         end.
(** Every lemma of the database, its premises by [side]. *)
Ltac known := solve [eauto 4 with typing | (eapply typ_weaken; [eauto 4 with typing | intros; exact I])].

(** A goal [typing] cannot close is left. *)
Ltac typing :=
  intros; limits; cbv beta iota zeta;
  lazymatch goal with
  | |- typ (ret _) _ => apply typ_ret; try side
  | |- typ (fail _) _ => apply typ_fail
  | |- typ (raise_trap _) _ => apply typ_raise; try side
  | |- typ (modify _) _ => apply typ_modify; intros; try side
  | |- typ (when _ _) _ => apply typ_when; typing
  | |- typ (each _ _) _ => apply typ_each; typing
  | |- typ (bind ?x _) _ => first [ eapply typ_bind; [solve [prim] |] | eapply typ_bind; [solve [eauto 4 with typing] |] | bind_by x ]; typing
  | |- typ (if ?b then _ else _) _ => destruct b; typing
  | |- typ (match ?p with (_, _) => _ end) _ => destruct p; unfold both_words in *; cbn [fst snd] in *; destruct_and?; typing
  | |- typ (match ?o with Some _ => _ | None => _ end) _ => destruct o; typing
  | |- typ (match ?o with Int _ => _ | _ => _ end) _ => destruct o; typing
  | |- typ _ _ => first [solve [prim] | solve [eapply typ_weaken; [prim | intros; limits; side]] | known | solve [apply typ_lift; intros; exact I] | idtac]
  | |- _ => idtac
  end
(** The primitives, with the values they return. *)
with prim :=
  lazymatch goal with
  | |- typ get _ => exact typ_get
  | |- typ done _ => exact typ_done
  | |- typ (fld _ _) _ => apply typ_fld; assumption
  | |- typ (g_get _) _ => apply typ_g_get
  | |- typ (g_set _ _) _ => apply typ_g_set; side
  | |- typ (g_put _ _ _) _ => apply typ_g_put; side
  | |- typ (g_fld _ _) _ => apply typ_g_fld
  | |- typ (g_int _ _) _ => apply typ_g_int
  | |- typ (int_of _) _ => first [apply typ_int_of; side | apply typ_any_int]
  | |- typ (f_get _) _ => apply typ_f_get
  | |- typ (f_set _ _) _ => apply typ_f_set; side
  | |- typ (ra0 _) _ => apply typ_ra0
  | |- typ (setcrf _ _) _ => apply typ_setcrf; side
  | |- typ (setcrbit _ _) _ => apply typ_setcrbit; side
  | |- typ (cr0 _) _ => apply typ_cr0
  | |- typ (if_rc _ _) _ => apply typ_if_rc; assumption
  | |- typ (ov _) _ => apply typ_ov
  | |- typ (ca _) _ => apply typ_ca
  | |- typ (mem_set _ _) _ => apply typ_mem_set; side
  | |- typ (mem_get _) _ => apply typ_mem_get
  | |- typ (mem_ok _ _) _ => apply typ_mem_ok
  | |- typ (xlate_data _ _) _ => apply typ_xlate
  | |- typ (load _ _) _ => apply typ_load; side
  | |- typ (store _ _ _) _ => apply typ_store
  | |- typ (set_dontcare_key _ _) _ => apply typ_set_dontcare; side
  end
(** A computation without a lemma: what its type promises. *)
with bind_by x :=
  lazymatch type of x with
  | M unit => apply typ_bind with (fun _ => True); [try known |]
  | M Z => apply typ_bind with (fits 32); [try known |]
  | M val => apply typ_bind with val_ok; [try known |]
  | M (Z * Z) => apply typ_bind with both_words; [try known |]
  | M _ => apply typ_bind with (fun _ => True); [try known |]
  end.


Section Operations.
Context (v : variant) (i : Insn) (Hi : encodable i = true).

(** ** Integer operations *)
Lemma typ_legal : typ (legal v i) (fun _ => True).
Proof using Hi. unfold legal, spr_of. typing. Qed.
Lemma typ_log_shift m0 av b : val_ok av -> typ (log_shift m0 av b) (fits 32).
Proof using. intros Ha. unfold log_shift. typing. Qed.
#[local] Hint Resolve typ_log_shift : typing.
Lemma typ_log_op : typ (log_op i) (fun _ => True).
Proof using Hi. unfold log_op, logic. typing. Qed.
Lemma cntlzw_fits a : fits 32 a -> fits 32 (32 - bit_length a).
Proof using.
  unfold fits, bit_length. intros Ha. case_if; [const_pow; lia |]. bool_prop.
  pose proof (Z.log2_nonneg (Z.abs a)). assert (Z.log2 (Z.abs a) < 32) by (apply Z.log2_lt_pow2; lia). const_pow. lia.
Qed.
#[local] Hint Resolve cntlzw_fits : fits.
Lemma typ_un_op : typ (un_op i) (fun _ => True).
Proof using Hi. unfold un_op. typing. Qed.
Lemma typ_srawi_op : typ (srawi_op i) (fun _ => True).
Proof using Hi. unfold srawi_op. typing. Qed.
Lemma typ_addi_op : typ (addi_op i) (fun _ => True).
Proof using Hi. unfold addi_op. typing. Qed.
Lemma typ_addic_op : typ (addic_op i) (fun _ => True).
Proof using Hi. unfold addic_op. typing. Qed.
Lemma typ_mulli_op : typ (mulli_op i) (fun _ => True).
Proof using Hi. unfold mulli_op. typing. Qed.
Lemma typ_imm_logic : typ (imm_logic i) (fun _ => True).
Proof using Hi. unfold imm_logic. typing. Qed.
Lemma rotl_fits x n : fits 32 (rotl x n).
Proof using. unfold rotl. cbv zeta. fits. Qed.
#[local] Hint Resolve rotl_fits : fits.
Lemma mask_from_fits fuel k me x mk : 0 <= k < 32 -> fits 32 x -> mask_from fuel k me x = Ok mk -> fits 32 mk.
Proof using.
  revert k x. induction fuel as [| fuel IH]; intros k x Hk Hx; cbn [mask_from]; [discriminate |]. cbv zeta.
  assert (fits 32 (Z.lor x (Z.shiftl 1 (31 - k)))).
  { apply fits_lor; [lia | exact Hx | apply fits_shiftl; [lia | lia | apply (fits_le 1); [const_fits | lia]]]. }
  case_if; [intros [= <-]; assumption |]. apply IH; [| assumption].
  change (fits 5 (Z.land (k + 1) 31)). fits.
Qed.
Lemma typ_mask mb me : 0 <= mb < 32 -> typ (lift (mask mb me)) (fits 32).
Proof using. intros Hb. apply typ_lift. intros mk. apply mask_from_fits; [exact Hb | const_fits]. Qed.
#[local] Hint Resolve typ_mask : typing.
Lemma typ_rotate_op : typ (rotate_op i) (fun _ => True).
Proof using Hi. unfold rotate_op. typing. Qed.

(** ** Compares and the condition register *)
Lemma typ_cmp_operands av : typ (cmp_operands i av) (fun _ => True).
Proof using Hi. unfold cmp_operands. typing. Qed.
#[local] Hint Resolve typ_cmp_operands : typing.
Lemma typ_cmp_op : typ (cmp_op i) (fun _ => True).
Proof using Hi. unfold cmp_op. typing. Qed.
Lemma crbit_fits s k : fits 1 (crbit s k).
Proof using. unfold crbit. fits. Qed.
Lemma cr_function_fits m0 a b : fits 1 a -> fits 1 b -> fits 1 (cr_function m0 a b).
Proof using.
  intros Ha Hb. pose proof (fits_flip _ Hb). unfold cr_function. repeat case_if; try apply fits_flip; fits.
Qed.
#[local] Hint Resolve crbit_fits cr_function_fits : fits.
Lemma typ_cr_op : typ (cr_op i) (fun _ => True).
Proof using Hi. unfold cr_op. typing. Qed.
Lemma typ_mcrf_op : typ (mcrf_op i) (fun _ => True).
Proof using Hi. unfold mcrf_op. typing. Qed.
Lemma typ_mcrxr_op : typ (mcrxr_op i) (fun _ => True).
Proof using Hi. unfold mcrxr_op. typing. Qed.
Lemma field_mask_fits fm : fits 32 (field_mask fm).
Proof using.
  unfold field_mask. change (range 8) with [0; 1; 2; 3; 4; 5; 6; 7]. cbn [fold_left]. fits.
Qed.
#[local] Hint Resolve field_mask_fits : fits.
Lemma typ_mtcrf_op : typ (mtcrf_op i) (fun _ => True).
Proof using Hi. unfold mtcrf_op. typing. Qed.

(** ** Integer arithmetic *)
Lemma typ_second m0 bv : val_ok bv -> typ (second m0 bv) (fits 32).
Proof using. intros Hb. unfold second. typing. Qed.
#[local] Hint Resolve typ_second : typing.
Lemma typ_xo_value m0 av bv c : val_ok av -> val_ok bv -> typ (xo_value m0 av bv c) opt_word.
Proof using. intros Ha Hb. unfold xo_value, add_like. typing. Qed.
Lemma typ_xo_op : typ (xo_op i) (fun _ => True).
Proof using Hi.
  unfold xo_op. do 3 (eapply typ_bind; [prim | intros]). eapply typ_bind; [apply typ_xo_value; assumption |].
  intros [r o] Hr. unfold opt_word in Hr. cbn [fst] in Hr. destruct r as [r |]; cbn [some_word] in Hr; typing.
Qed.

(** ** Branches *)
Lemma typ_held_target t : typ (held_target t) (fun _ => True).
Proof using. unfold held_target. destruct t; typing. Qed.
Lemma typ_relval x : val_ok x -> typ (relval x) val_ok.
Proof using. intros Hx. unfold relval. destruct x; typing. Qed.
Lemma typ_link pc : typ (link i pc) (fun _ => True).
Proof using Hi. unfold link. typing. Qed.
Lemma typ_target_of : typ (target_of i) (fun _ => True).
Proof using. unfold target_of. typing. Qed.
#[local] Hint Resolve typ_held_target typ_relval typ_link typ_target_of : typing.
Lemma typ_branch pc : typ (branch i pc) (fun _ => True).
Proof using Hi. unfold branch, cond_branch. typing. Qed.
(** ** Special-purpose registers *)
Lemma typ_named_get s name : typed s -> typ (lift (named_get s name)) val_ok.
Proof using.
  intros Hs. apply typ_lift. intros x. unfold named_get.
  repeat (case_if; [intros Hx; apply ok_inj in Hx; subst x; first [apply Hs | exact (ty_xer _ Hs)] |]). discriminate.
Qed.
Lemma typ_named_set name x : val_ok x -> typ (named_set name x) (fun _ => True).
Proof using. intros Hx. unfold named_set. typing. Qed.
Lemma typ_sprg s k : typed s -> typ (lift (py_get (sprg s) k)) val_ok.
Proof using. intros Hs. apply typ_lift. intros x. apply sized_get with 4%nat, Hs. Qed.
Lemma typ_segment_register s k : typed s -> typ (lift (py_get (sr s) k)) val_ok.
Proof using. intros Hs. apply typ_lift. intros x. apply sized_get with 16%nat, Hs. Qed.
Lemma typ_set_sprg s k x : typed s -> val_ok x -> typ (lift (py_set (sprg s) k x)) (sized 4 val_ok).
Proof using. intros Hs Hx. apply typ_lift. intros l. apply sized_set; [apply Hs | exact Hx]. Qed.
Lemma typ_set_segment s k x : typed s -> val_ok x -> typ (lift (py_set (sr s) k x)) (sized 16 val_ok).
Proof using. intros Hs Hx. apply typ_lift. intros l. apply sized_set; [apply Hs | exact Hx]. Qed.
#[local] Hint Resolve typ_named_get typ_named_set typ_sprg typ_segment_register typ_set_sprg typ_set_segment : typing.
Lemma typ_mfspr_op name : typ (mfspr_op v i name) (fun _ => True).
Proof using Hi. unfold mfspr_op. typing. Qed.
Lemma typ_mtspr_op name : typ (mtspr_op i name) (fun _ => True).
Proof using Hi. unfold mtspr_op. typing. Qed.
#[local] Hint Resolve typ_mfspr_op typ_mtspr_op : typing.
Lemma typ_spr_op : typ (spr_op v i) (fun _ => True).
Proof using Hi. unfold spr_op. typing. Qed.

(** ** Loads and stores *)
Lemma align_trap_ok ea : trap_ok (align_trap v ea i).
Proof using. unfold align_trap. cbv zeta. side. Qed.
#[local] Hint Resolve align_trap_ok : typing.
Lemma typ_ea_of k : typ (ea_of i k) (fits 32).
Proof using Hi. unfold ea_of. typing. Qed.
(** A transfer of at most four bytes, reversed. *)
Lemma byte_reverse_fits n x : 0 <= n <= 4 -> fits 32 (byte_reverse n x).
Proof using.
  intros Hn. unfold byte_reverse, range.
  assert (H : n = 0 \/ n = 1 \/ n = 2 \/ n = 3 \/ n = 4) by lia.
  repeat destruct H as [-> | H]; try subst n;
    match goal with |- context [seqZ 0 ?n] => let l := eval vm_compute in (seqZ 0 n) in change (seqZ 0 n) with l end;
    cbn [fold_left]; fits.
Qed.
#[local] Hint Resolve byte_reverse_fits : fits.
Lemma typ_load_op k ea n : fits 32 ea -> 0 <= n <= 4 -> typ (load_op i k ea n) (fun _ => True).
Proof using Hi.
  intros Ha Hn. unfold load_op. eapply typ_bind; [apply typ_load; lia |]. intros x Hx. assert (fits 32 x) by (apply (fits_le (8 * n)); [exact Hx | lia]).
  clear Hx. typing.
Qed.
Lemma typ_store_op k ea n : fits 32 ea -> typ (store_op i k ea n) (fun _ => True).
Proof using Hi. intros Ha. unfold store_op. typing. Qed.
Lemma typ_stcx_op ea : typ (stcx_op i ea) (fun _ => True).
Proof using. unfold stcx_op. typing. Qed.
Lemma typ_load_multiple rt ea : typ (load_multiple rt ea) (fun _ => True).
Proof using. unfold load_multiple. typing. Qed.
Lemma typ_store_multiple rt ea : typ (store_multiple rt ea) (fun _ => True).
Proof using. unfold store_multiple. typing. Qed.
Lemma typ_load_string ks r ea : typ (load_string ks r ea) (fun _ => True).
Proof using.
  revert r. induction ks as [| k ks IH]; intros r; cbn [load_string]; [apply typ_ret; exact I |].
  pose proof (Z.mod_pos_bound k 4 ltac:(lia)). typing.
Qed.
Lemma typ_store_string ks r ea : typ (store_string ks r ea) (fun _ => True).
Proof using.
  revert r. induction ks as [| k ks IH]; intros r; cbn [store_string]; [apply typ_ret; exact I |]. typing.
Qed.
Lemma typ_external_op k ea : fits 32 ea -> typ (external_op k ea) (fun _ => True).
Proof using. intros Ha. unfold external_op. typing. Qed.
#[local] Hint Resolve typ_load_op typ_store_op typ_stcx_op typ_load_multiple typ_store_multiple typ_load_string
  typ_store_string typ_external_op typ_ea_of : typing.
Lemma typ_access k ea n : fits 32 ea -> 0 <= n <= 4 -> typ (access i k ea n) (fun _ => True).
Proof using Hi. intros Ha Hn. unfold access, string_count. typing. Qed.
#[local] Hint Resolve typ_access : typing.
Lemma size_range : 0 <= default 0 (dict_get (f i) "n"%string) <= 4.
Proof using Hi.
  destruct (dict_get (f i) "n"%string) as [n |] eqn:E; cbn; [| lia].
  apply (encodable_field _ _ _ Hi) in E. change (field_limit _) with 5 in E. lia.
Qed.
Lemma typ_mem_op k : typ (mem_op v i k) (fun _ => True).
Proof using Hi. pose proof size_range. unfold mem_op. typing. Qed.
(** ** Cache operations *)
Lemma block_range pa : BUF <= pa < BUF + BUF_WORDS * 4 -> BUF <= block pa <= BUF + 224 /\ (block pa - BUF) mod 32 = 0.
Proof using.
  intros Hp. unfold block. change (Z.lnot 31) with (-32).
  assert (E : Z.land pa (-32) = pa - pa mod 32).
  { change (-32) with (Z.lnot (Z.ones 5)). rewrite <- Z.ldiff_land, Z.ldiff_ones_r, Z.shiftl_mul_pow2, Z.shiftr_div_pow2 by lia.
    change (2 ^ 5) with 32. pose proof (Z.div_mod pa 32). lia. }
  rewrite E. unfold BUF, BUF_WORDS, SCRATCH in *. Z.div_mod_to_equations. lia.
Qed.
Lemma typ_dcbz_op ea : typ (dcbz_op v i ea) (fun _ => True).
Proof using. unfold dcbz_op. typing. Qed.
Lemma mem_slice_sized s p : typed s -> 0 <= p <= 224 -> sized 32 (fits 8) (mem_slice s p).
Proof using.
  intros Hs Hp. destruct (ty_mem _ Hs) as [Hl Hf]. unfold mem_slice. split.
  - rewrite length_take, length_drop, Hl. lia.
  - apply Forall_take, Forall_drop, Hf.
Qed.
Lemma typ_clean_op ea : typ (clean_op ea) (fun _ => True).
Proof using.
  unfold clean_op. eapply typ_bind; [prim |]. intros pa _. eapply typ_bind; [prim |]. intros s Hs.
  case_if; [| apply typ_ret; exact I]. bool_prop. destruct (block_range pa) as [Hb _]; [lia |].
  apply typ_modify. intros s' Hs'. apply typed_backing; [exact Hs' |]. apply map_Forall_insert_2; [| apply Hs].
  split; [apply mem_slice_sized; [exact Hs | lia] | exact Hb].
Qed.
Lemma typ_dcbi_op ea : typ (dcbi_op ea) (fun _ => True).
Proof using.
  unfold dcbi_op. eapply typ_bind; [prim |]. intros pa _. eapply typ_bind; [prim |]. intros s Hs.
  destruct (backing s !! block pa) as [back |] eqn:E; [| apply typ_fail].
  destruct (ty_backing _ Hs _ _ E) as [[Hl Hf] Hb]. apply typ_modify. intros s' Hs'. cbv zeta.
  apply typed_mem; [exact Hs' |]. destruct (ty_mem _ Hs) as [Hm Hg]. split.
  - rewrite !length_app, length_take, length_drop, Hm, Hl. lia.
  - apply Forall_app; split; [apply Forall_take, Hg | apply Forall_app; split; [exact Hf | apply Forall_drop, Hg]].
Qed.
#[local] Hint Resolve typ_dcbz_op typ_clean_op typ_dcbi_op : typing.
Lemma typ_cache_op : typ (cache_op v i) (fun _ => True).
Proof using Hi. unfold cache_op. typing. Qed.

(** ** Floating point *)
Lemma bits5_fits w k : fits 5 (bits5 w k).
Proof using. unfold bits5. fits. Qed.
#[local] Hint Resolve bits5_fits : fits.
Lemma typ_fp_move base t b : typ (fp_move base t b) (fun _ => True).
Proof using. unfold fp_move. typing. Qed.
Lemma typ_fp_select t a b c : typ (fp_select t a b c) (fun _ => True).
Proof using. unfold fp_select. typing. Qed.
Lemma typ_arithmetic op a b c rn k :
  fits 64 a -> fits 64 b -> fits 64 c -> typ (lift (ppc_reference.arithmetic op a b c rn k)) out_fits.
Proof using. intros Ha Hb Hc. apply typ_lift. intros o. apply arithmetic_fits; assumption. Qed.
Lemma fpscr_of_fits old o : fits 32 old -> out_fits o -> fits 32 (enabled_vectors.fpscr_after old o).
Proof using. intros Ho [_ Hc _]. apply fpscr_after_fits; assumption. Qed.
Lemma fits64_0 : fits 64 0.
Proof using. const_fits. Qed.
#[local] Hint Resolve fits64_0 : typing.
Lemma fpcc_fits o : out_fits o -> fits 20 (ppc_reference.fpcc o).
Proof using. intros Ho. apply (fits_le 4); [apply Ho | lia]. Qed.
#[local] Hint Resolve typ_arithmetic typ_fp_move typ_fp_select : typing.
#[local] Hint Resolve fpscr_of_fits fpscr_mask_fits fpcc_fits out_result : fits.
Lemma typ_fp_arith base name single t a b c old : fits 32 old -> typ (fp_arith base name single t a b c old) both_words.
Proof using. intros Ho. unfold fp_arith. typing. Qed.
Lemma typ_fp_compare base t a b old : 0 <= t < 32 -> fits 32 old -> typ (fp_compare base t a b old) both_words.
Proof using.
  intros Ht Ho. assert (0 <= Z.shiftr t 2 < 8) by (apply (fits_drop 3); [lia | lia | exact Ht]). unfold fp_compare. typing.
Qed.
(** The result of a special estimate. *)
Lemma estimate_special_fits base x inv zx res frfi :
  fits 64 x -> estimate_special base x = Ok (inv, zx, res, frfi) -> fits 64 res.
Proof using.
  intros Hx. assert (fits 1 (reference.d_sign (reference.decode x reference.B64))) by (apply decode_sign; [auto with fpfits | exact Hx]).
  unfold estimate_special.
  repeat (case_if; [intros Hr; apply ok_inj, (f_equal (fun p => snd (fst p))) in Hr; cbn [fst snd] in Hr; subst res; fits |]).
  discriminate.
Qed.
Definition special_fits (r : Z * bool * Z * bool) : Prop := fits 64 (snd (fst r)).
Lemma typ_fp_estimate base t b old vx zx : fits 32 old -> typ (fp_estimate base t b old vx zx) both_words.
Proof using.
  intros Ho. unfold fp_estimate. eapply typ_bind; [prim |]. intros x Hx. apply typ_bind with special_fits.
  - apply typ_lift. intros [[[inv z] res] frfi]. unfold special_fits. cbn [fst snd]. apply estimate_special_fits. exact Hx.
  - intros [[[inv z] res] frfi] Hr. unfold special_fits in Hr. cbn [fst snd] in Hr. cbv zeta.
    apply typ_bind with (fun _ => True); [apply typ_when, typ_f_set; exact Hr | intros _ _]. apply typ_ret. split; cbn [fst snd]; [| fits].
    apply fpscr_after_fits; [exact Ho | apply classify_fits].
Qed.
Lemma typ_fp_fields base w t b old : fits 32 old -> typ (fp_fields base w t b old) both_words.
Proof using.
  intros Ho. unfold fp_fields. apply typ_bind with (fun _ => True); [typing | intros [fm src] _]. cbv zeta.
  apply typ_ret. split; cbn [fst snd]; [unfold fp_summary; fits | const_fits].
Qed.
Lemma fp_set_bit_fits base t old : 0 <= t < 32 -> fits 32 old -> fits 32 (fp_set_bit base t old).
Proof using.
  intros Ht Ho. assert (fits 32 (Z.shiftl 1 (31 - t))) by (apply fits_shiftl; [lia | lia | apply (fits_le 1); [const_fits | lia]]).
  unfold fp_set_bit, fp_summary. cbv zeta. fits.
Qed.
#[local] Hint Resolve typ_fp_arith typ_fp_compare typ_fp_estimate typ_fp_fields : typing.
#[local] Hint Resolve fp_set_bit_fits : fits.
Lemma typ_fp_status base w t a b c old :
  0 <= t < 32 -> fits 32 old -> typ (fp_status i base w t a b c old) both_words.
Proof using.
  intros Ht Ho. assert (0 <= Z.shiftr t 2 < 8) by (apply (fits_drop 3); [lia | lia | exact Ht]).
  assert (fits 64 old) by (apply (fits_le 32); [exact Ho | lia]). unfold fp_status. destruct (dict_get FP_ORACLE base) as [[name single] |]; typing.
  split; cbn [fst snd]; [unfold fp_summary; fits | const_fits].
Qed.
Lemma typ_single_to_double w : fits 32 w -> typ (lift (single_to_double w)) (fits 64).
Proof using.
  intros Hw. apply typ_lift. intros d Hd. destruct (single_to_double_spec w Hw) as (s & e & f & _ & Hs & He & Hf & H).
  assert (Hr : forall e' f', Ok (double s e' f') = Ok d -> 0 <= e' < 2 ^ 11 -> 0 <= f' < 2 ^ 23 -> fits 64 d)
    by (intros e' f' H1; apply ok_inj in H1; subst d; intros; apply double_range; lia).
  destruct H as [[-> H] | [(-> & -> & H) | [[He' H] | (k & -> & Hk & Hf' & H)]]]; rewrite H in Hd; apply Hr in Hd; lia || exact Hd.
Qed.
Lemma typ_double_to_single d : typ (lift (double_to_single d)) (fun _ => True).
Proof using. apply typ_lift. intros. exact I. Qed.
#[local] Hint Resolve typ_single_to_double typ_double_to_single : typing.
Lemma typ_fp_mem base t a b : typ (fp_mem v i base t a b) (fun _ => True).
Proof using.
  unfold fp_mem. eapply typ_bind; [apply typ_ra0 | intros av Hav]. apply typ_bind with (fun _ => True); [typing |]. typing.
Qed.
Lemma typ_fp_op : typ (fp_op v i) (fun _ => True).
Proof using.
  unfold fp_op. cbv zeta. case_if; [apply typ_fp_mem |]. eapply typ_bind; [prim | intros s Hs].
  eapply typ_bind; [apply typ_fp_status; [exact (bits5_fits _ _) | apply Hs] | intros [new mk] [Hn Hm]]. cbn [fst snd] in *. typing.
Qed.

(** ** System instructions *)
Lemma typ_trap_holds to a b : typ (trap_holds to a b) (fun _ => True).
Proof using.
  assert (Ht : forall k c rest, typ c (fun _ => True) -> typ rest (fun _ => True) ->
    typ (if truthy (Z.land to k) then bind c (fun t : bool => if t then ret true else rest) else rest) (fun _ => True)) by (intros; typing).
  unfold trap_holds. cbv zeta. repeat (apply Ht; [typing |]). typing.
Qed.
#[local] Hint Resolve typ_trap_holds : typing.
Lemma typ_tw_op : typ (tw_op i) (fun _ => True).
Proof using Hi. unfold tw_op. typing. Qed.
Lemma typ_segment : typ (segment i) (fun _ => True).
Proof using Hi. unfold segment. typing. Qed.
Lemma typ_rfi_op : typ rfi_op (fun _ => True).
Proof using. unfold rfi_op. typing. Qed.
#[local] Hint Resolve typ_tw_op typ_segment typ_rfi_op typ_cache_op typ_mem_op : typing.
Lemma typ_system_op : typ (system_op v i) (fun _ => True).
Proof using Hi. unfold system_op. typing. Qed.
#[local] Hint Resolve typ_xo_op typ_log_op typ_un_op typ_srawi_op typ_addi_op typ_addic_op typ_mulli_op typ_imm_logic
  typ_rotate_op typ_cmp_op typ_cr_op typ_mcrf_op typ_mcrxr_op typ_mtcrf_op typ_branch typ_spr_op typ_system_op
  typ_fp_op typ_legal : typing.
Lemma typ_integer_op pc : typ (integer_op v i pc) (fun _ => True).
Proof using Hi. unfold integer_op. typing. Qed.

(** An external instruction keeps the state typed. *)
Definition external_typed : Prop := forall g s s', sem i = Some g -> typed s -> g s = Ok s' -> typed s'.
Lemma typ_step pc : external_typed -> typ (step v i pc) (fun _ => True).
Proof using Hi.
  intros He. unfold step. case_if; [| typing; apply typ_integer_op].
  destruct (sem i) as [g |] eqn:Eg; [| apply typ_fail]. eapply typ_bind; [prim | intros s Hs].
  apply typ_bind with typed; [apply typ_lift; intros s'; exact (He g s s' Eg Hs) | intros s' Hs'].
  apply typ_bind with (fun _ => True); [apply typ_modify; intros; exact Hs' | intros _ _; apply typ_done].
Qed.
End Operations.

(** C25. The state stays well typed. From a state whose registers are words of
    their width, whose buffer has 256 bytes and whose saved blocks are blocks of
    it, a step of any instruction with encodable fields leaves such a state,
    whether it ends, takes an exception or fails; and the exception it takes
    carries words: DAR, DSISR and its mask, the SRR1 flags and mask. *)
Theorem step_keeps_types v i pc s :
  encodable i = true -> external_typed i -> typed s ->
  typed (fst (step v i pc s)) /\ forall t, snd (step v i pc s) = Trapped t -> trap_ok t.
Proof.
  intros Hi He Hs. destruct (typ_step v i Hi pc He s Hs) as [H1 H2]. split; [exact H1 |].
  intros t E. rewrite E in H2. exact H2.
Qed.



Definition in_word (n x : Z) : bool := (0 <=? x) && (x <? 2 ^ n).
Lemma in_word_fits n x : in_word n x = true -> fits n x.
Proof. unfold in_word. intros H. bool_prop. split; assumption. Qed.
Definition val_okb (x : val) : bool := match x with Int z => in_word 32 z | Masked _ mk => in_word 32 mk | _ => true end.
Lemma val_okb_ok x : val_okb x = true -> val_ok x.
Proof. destruct x; cbn; auto using in_word_fits. Qed.
Lemma forallb_sized {A} n (p : A -> bool) (P : A -> Prop) l :
  (forall x, p x = true -> P x) -> length l = n -> forallb p l = true -> sized n P l.
Proof.
  intros Hp Hl H. split; [exact Hl |]. apply Forall_forall. intros x Hx. apply Hp.
  rewrite forallb_forall in H. apply H. apply list_elem_of_In. exact Hx.
Qed.

Ltac sized_by p := apply (forallb_sized _ p); [solve [auto using val_okb_ok, in_word_fits] | vm_compute; reflexivity | vm_compute; reflexivity].
(** A closed state, computed. *)
Ltac typed_by_computation :=
  constructor;
  first [ sized_by val_okb | sized_by (in_word 8) | sized_by (in_word 64) | apply in_word_fits; vm_compute; reflexivity
        | apply val_okb_ok; vm_compute; reflexivity | exact I | apply map_Forall_empty ].

(** A store that takes a DSI. *)
Definition dsi_store : Insn := with_kind "s" false [("n"%string, 4)] (d_mem "stw" 36 5 0 3).
Definition dsi_state : State :=
  {| gpr := <[3%nat := Int DIRECT_EA]> (repeat (Int 0) 32); cr := 0; xer := 0; lr := Int 0; ctr := Int 0; msr := MSR_SUP;
     srr0 := Int 0; srr1 := Int 0; dar := Int 0; dsisr := Int 0; sprg := repeat (Int 0) 4; sr := repeat (Int 0) 16;
     ear := 0; mem := repeat 0 256; fpr := repeat 0 32; fpscr := 0; resv := None; dontcare := ∅; backing := ∅;
     icbi := None; vec := 0 |}.
Lemma step_keeps_types_witness :
  exists t, snd (step v603e dsi_store 0 dsi_state) = Trapped t /\ t_dar t = Some DIRECT_EA /\ typed dsi_state /\
    typed (fst (step v603e dsi_store 0 dsi_state)) /\
    (forall t, snd (step v603e dsi_store 0 dsi_state) = Trapped t -> trap_ok t).
Proof.
  assert (Hs : typed dsi_state).
  { typed_by_computation. }
  exists (trap_data 0x300 DIRECT_EA 0x06000000 M32). split; [vm_compute; reflexivity |]. split; [reflexivity |].
  split; [exact Hs |]. apply (step_keeps_types v603e dsi_store 0 dsi_state); [reflexivity | intros g s s' [=] | exact Hs].
Defined.
