(* ===== verification/SelftestTable.v ===== *)
(** * The result table of a self-test case

    A case built from encodable instructions evaluates, when it does, to two rows
    of 171 fields, each a word with a word mask: the shape the firmware's table
    has. *)
From S2P Require Import Prelude Words FpReference FpPpc FpStatus FpRange SelftestInsn SelftestMachine SelftestRun SelftestTyped.
Import selftest_insn selftest selftest_run.
#[local] Open Scope Z_scope.

(** ** The default state *)
Lemma default_state_typed : typed default_state.
Proof. typed_by_computation. Qed.

(** ** Inputs *)
Definition input_ok (x : input) : Prop :=
  match x with
  | InR _ w | InLr w | InCtr w => val_ok w
  | InF _ w => fits 64 w
  | InCr w | InXer w | InFpscr w => fits 32 w
  end.

Lemma apply_input_typed r x s : (forall s0, r = Ok s0 -> typed s0) -> input_ok x -> apply_input r x = Ok s -> typed s.
Proof.
  intros Hr Hx. unfold apply_input. destruct r as [s0 |]; [| discriminate]. specialize (Hr s0 eq_refl).
  destruct x; cbn [input_ok] in Hx.
  - destruct (py_set _ _ _) as [l |] eqn:E; [| discriminate]. intros [= <-]. apply typed_gpr; [exact Hr |].
    exact (sized_set _ _ _ _ _ _ (ty_gpr _ Hr) Hx E).
  - destruct (py_set _ _ _) as [l |] eqn:E; [| discriminate]. intros [= <-]. apply typed_fpr; [exact Hr |].
    exact (sized_set _ _ _ _ _ _ (ty_fpr _ Hr) Hx E).
  - intros [= <-]. auto with typing.
  - intros [= <-]. auto with typing.
  - intros [= <-]. auto with typing.
  - intros [= <-]. auto with typing.
  - intros [= <-]. auto with typing.
Qed.
Lemma inputs_typed l r s :
  (forall s0, r = Ok s0 -> typed s0) -> Forall input_ok l -> fold_left apply_input l r = Ok s -> typed s.
Proof.
  intros Hr Hl. revert r Hr. induction Hl as [| x l Hx Hl IH]; intros r Hr; cbn [fold_left]; [apply Hr |].
  apply IH. intros s0. apply apply_input_typed; assumption.
Qed.

(** ** Running *)
Definition insn_ok (i : Insn) : Prop := encodable i = true /\ external_typed i.

(** The routine a case calls at the stub keeps the state typed. *)
Definition case_ok (c : Case) : Prop :=
  Forall insn_ok (code c) /\ Forall input_ok (inp c) /\ fits 32 (case_msr c) /\
  match need c with Some (_, stub) => external_typed stub | None => True end.

Lemma classified_ok isa0 i : insn_ok i -> insn_ok (classified isa0 i).
Proof. intros H. unfold classified. case_if; [exact H |]. destruct (lookup_status isa0 i); exact H. Qed.
Lemma place_babs_ok l : Forall insn_ok l -> Forall insn_ok (place_babs l).
Proof. induction 1 as [| i l Hi Hl IH]; cbn [place_babs]; [constructor |]. case_if; constructor; assumption. Qed.

Section Run.
Context (v : variant) (c : Case) (Hc : case_ok c).

Lemma fetch_fault_ok z t : fetch_fault z = Some t -> trap_ok t.
Proof using. unfold fetch_fault. case_if; [intros [= <-]; side |]. case_if; [intros [= <-]; side | discriminate]. Qed.

Lemma run_stub_typed s s' z : typed s -> run_stub c s = Ok (s', z) -> typed s'.
Proof using Hc.
  intros Hs. destruct Hc as (_ & _ & _ & Hn). unfold run_stub. destruct (need c) as [[n stub] |]; [| discriminate].
  destruct (sem stub) as [g |] eqn:Eg; [| discriminate]. destruct (g s) as [s1 |] eqn:E1; [| discriminate].
  intros H. assert (Ht : typed s1) by exact (Hn g s s1 Eg Hs E1). destruct (lr s1); inversion H; subst; exact Ht.
Qed.

(** A turn of the loop, and the trap it may end with. *)
Definition ending_ok (r : ending + target) : Prop := match r with inl (Some t, _) => trap_ok t | _ => True end.
Lemma turn_typed l s pc s' r : Forall insn_ok l -> typed s -> turn v c l s pc = Ok (s', r) -> typed s' /\ ending_ok r.
Proof using Hc.
  intros Hl Hs. destruct pc as [z | z |]; cbn [turn].
  - case_if; [intros [= <- <-]; split; [exact Hs | exact I] |].
    destruct (py_get l (z / 4)) as [i |] eqn:Ei; [| discriminate].
    destruct (Forall_py_get _ _ _ _ Hl Ei) as [Hi He]. destruct (typ_step v i Hi z He s Hs) as [H1 H2].
    destruct (step v i z s) as [s1 [nxt | t | e]]; cbn [fst snd] in *; [| | discriminate];
      intros [= <- <-]; split; first [exact H1 | exact H2 | exact I].
  - case_if.
    + destruct (run_stub c s) as [[s1 z1] |] eqn:E1; [| discriminate]. intros [= <- <-].
      split; [exact (run_stub_typed _ _ _ Hs E1) | exact I].
    + destruct (fetch_fault z) as [t |] eqn:Et; [| discriminate]. intros [= <- <-].
      split; [exact Hs | exact (fetch_fault_ok _ _ Et)].
  - destruct (py_get _ _) as [x |]; [| discriminate]. destruct (as_int x) as [w |]; [| discriminate].
    destruct (py_set _ _ _) as [g |] eqn:E; [| discriminate]. intros [= <- <-]. split; [| exact I].
    apply typed_gpr; [exact Hs |]. apply (sized_set _ _ _ _ _ _ (ty_gpr _ Hs)) in E; [exact E | side].
Qed.
Lemma run_loop_typed fuel l s pc s' e :
  Forall insn_ok l -> typed s -> run_loop v fuel c l s pc = Ok (s', e) -> typed s' /\ ending_ok (inl e).
Proof using Hc.
  intros Hl. revert s pc. induction fuel as [| fuel IH]; intros s pc Hs; cbn [run_loop]; [discriminate |].
  destruct (turn v c l s pc) as [[s1 [e1 | pc1]] |] eqn:E; [| | discriminate];
    destruct (turn_typed _ _ _ _ _ Hl Hs E) as [H1 H2].
  - intros [= <- <-]. split; assumption.
  - apply IH. exact H1.
Qed.

Lemma trap_srr1_fits t s : typed s -> trap_ok t -> both_words (trap_srr1 t s).
Proof using.
  intros Hs (H1 & H2 & H3 & H4 & H5 & H6 & H7). unfold trap_srr1. cbv zeta. case_if; split; cbn [fst snd]; fits.
Qed.
Lemma take_trap_typed t pc s s' : typed s -> trap_ok t -> take_trap t pc s = Ok s' -> typed s'.
Proof using.
  intros Hs Ht. pose proof (trap_srr1_fits t s Hs Ht) as Hx. unfold take_trap. destruct (trap_srr1 t s) as [x mk]. destruct Hx as [Hx Hm].
  cbn [fst snd] in *. destruct Ht as (H1 & H2 & H3 & H4 & H5 & H6 & H7).
  destruct (trap_srr0 t pc) as [r |] eqn:Er; [| discriminate]. intros E. apply ok_inj in E. subst s'.
  assert (val_ok r).
  { unfold trap_srr0 in Er. destruct (t_target t); [injection Er as <-; exact H7 |].
    destruct pc as [[| |] |]; try discriminate; injection Er as <-; exact I. }
  apply typed_msr; [| fits]. set (s1 := set_srr0 r _). assert (typed s1).
  { apply typed_srr0; [| assumption]. apply typed_dontcare; [| apply map_Forall_insert_2; [exact Hm | apply Hs]].
    apply typed_srr1; [| exact Hx]. apply typed_vec; assumption. }
  clearbody s1. destruct (t_dar t) as [a |], (t_dsisr t) as [d |]; try assumption.
  apply typed_dontcare; [| apply map_Forall_insert_2; [exact H5 | apply ty_dontcare; assumption]].
  apply typed_dsisr; [| exact H4]. apply typed_dar; assumption.
Qed.

Lemma final_state_typed isa0 s : final_state v c isa0 = Ok s -> typed s.
Proof using Hc.
  destruct Hc as (Hi & Hx & Hm & _). unfold final_state.
  destruct (fold_left apply_input _ _) as [s0 |] eqn:E0; [| discriminate].
  assert (Hs0 : typed s0).
  { apply inputs_typed in E0; [exact E0 | | exact Hx]. intros s1 [= <-]. exact default_state_typed. }
  destruct (run_case v c _ s0) as [[s1 [t pc]] |] eqn:E1; [| discriminate].
  unfold run_case in E1. apply run_loop_typed in E1 as [H1 H2];
    [| apply place_babs_ok, Forall_map; eapply Forall_impl; [exact Hi | intros i; apply classified_ok] | apply typed_msr; assumption].
  destruct t as [t |]; [apply take_trap_typed; assumption |]. intros [= <-].
  apply typed_srr1; [| side]. apply typed_srr0; [| side]. apply typed_vec; [exact H1 | side].
Qed.
End Run.

(** ** Rows *)
Definition field_ok (x : Z * Z * Z) : Prop := fits 32 (fst (fst x)) /\ fits 32 (snd (fst x)) /\ fits 1 (snd x).
Definition row_ok (l : list (Z * Z * Z)) : Prop := sized 171 field_ok l.

Lemma put_ok x mk : val_ok x -> fits 32 mk -> field_ok (put x mk).
Proof. intros Hx Hm. destruct x; cbn [put val_ok] in *; (split; [| split]); cbn [fst snd]; fits. Qed.

Lemma enumerate_length {A} k (l : list A) : length (enumerate k l) = length l.
Proof. revert k. induction l as [| a l IH]; intros k; cbn; [reflexivity | rewrite IH; reflexivity]. Qed.
Lemma length_concat_pairs {A B} (g : A -> list B) l : (forall a, length (g a) = 2%nat) -> length (concat (map g l)) = (2 * length l)%nat.
Proof. intros Hg. induction l as [| a l IH]; cbn; [reflexivity |]. rewrite length_app, Hg, IH. lia. Qed.

Lemma word_fits_put z mk : fits 32 mk -> field_ok (put (Int z) mk).
Proof. intros Hm. (split; [| split]); cbn [put fst snd]; fits. Qed.

Lemma flatten_row s : typed s -> row_ok (flatten s).
Proof.
  intros Hs. assert (Hd : forall k, fits 32 (default M32 (dontcare s !! k))).
  { intros k. destruct (dontcare s !! k) as [x |] eqn:E; cbn; [exact (ty_dontcare _ Hs _ _ E) | const_fits]. }
  assert (HM : fits 32 M32) by const_fits. destruct (ty_gpr _ Hs) as [Hg Fg]. destruct (ty_fpr _ Hs) as [Hf Ff].
  unfold flatten. split.
  - rewrite !length_app, !length_map, length_concat_pairs, enumerate_length, Hg, Hf by reflexivity. reflexivity.
  - repeat (apply Forall_app; split).
    + apply Forall_map. eapply Forall_impl; [exact Fg |]. intros x Hx. apply put_ok; assumption.
    + repeat constructor; apply put_ok || apply word_fits_put; auto; apply Hs.
    + apply Forall_map, Forall_forall. intros k _. apply word_fits_put. exact HM.
    + apply Forall_concat, Forall_map, Forall_forall. intros p _. repeat constructor; apply word_fits_put; auto.
    + repeat constructor; apply word_fits_put; auto.
Qed.
Lemma with_msr_row x l : fits 32 x -> row_ok l -> row_ok (with_msr_field x l).
Proof.
  intros Hx [Hl Hf]. split; [unfold with_msr_field; rewrite length_insert; exact Hl |].
  apply Forall_insert; [exact Hf |]. (split; [| split]); cbn [fst snd]; fits.
Qed.

(** The rows of a case. For a case of encodable instructions, with words as
    inputs and a stub that keeps the state well typed, an evaluation that returns
    gives two rows of exactly 171 fields, each a 32-bit value, a 32-bit mask of
    predicted bits and a relative flag: what the firmware's table holds. *)
Theorem evaluate_row_typed v c isa0 before after :
  case_ok c -> evaluate v c isa0 = Ok (before, after) -> row_ok before /\ row_ok after.
Proof.
  intros Hc. unfold evaluate. destruct (fold_left apply_input _ _) as [s0 |] eqn:E0; [| discriminate].
  destruct (final_state v c isa0) as [s |] eqn:E1; [| discriminate].
  intros E. apply ok_inj in E. apply pair_equal_spec in E as [<- <-]. pose proof (final_state_typed v c Hc isa0 s E1) as Hs.
  destruct Hc as (_ & Hx & Hm & _).
  assert (typed s0) by (apply inputs_typed in E0; [exact E0 | intros s1 [= <-]; exact default_state_typed | exact Hx]).
  split; apply with_msr_row; try apply flatten_row; try assumption. fits.
Qed.

(** add r5,r3,r4 on two inputs. *)
Definition add_case : Case :=
  {| group := "int"; name := "add"; code := [xo_form "add" 266 5 3 4 0 0]; inp := [InR 3 (Int 7); InR 4 (Int 0xFFFFFFFE)];
     case_msr := MSR_SUP; need := None; fpu := false |}.
Lemma evaluate_row_typed_witness :
  exists before after, evaluate v603e add_case [] = Ok (before, after) /\ nth 5 after (0, 0, 0) = (5, M32, 0) /\
    row_ok before /\ row_ok after.
Proof.
  assert (H : is_ok (evaluate v603e add_case []) = true) by (vm_compute; reflexivity).
  destruct (evaluate v603e add_case []) as [[before after] |] eqn:E; [| discriminate H]. exists before, after. split; [reflexivity |].
  split.
  - assert (Ev : (let! r := evaluate v603e add_case [] in Ok (nth 5 (snd r) (0, 0, 0))) = Ok (5, M32, 0)) by (vm_compute; reflexivity).
    rewrite E in Ev. cbn [snd] in Ev. congruence.
  - apply (evaluate_row_typed v603e add_case [] before after); [| exact E]. unfold case_ok. cbn [code inp need case_msr add_case].
    split; [| split; [| split; [| exact I]]].
    + constructor; [split; [reflexivity | intros g s s' [=]] | constructor].
    + repeat constructor; cbn; lia.
    + const_fits.
Defined.
