(* ===== verification/Json.v ===== *)
(** * Python values read from JSON

    What [json.load] returns, with the operations the bus tools use on it:
    [x.get(k)], [x[k]], iteration, equality and set membership, each with the
    exception it raises on a value of another type. A number is an integer: the
    specifications hold no floating-point ones. *)
From Stdlib Require Import Ascii.
From S2P Require Import Prelude.

Module json.
#[local] Open Scope string_scope.
#[local] Open Scope Z_scope.

Unset Elimination Schemes.
Inductive json : Type :=
| JNull | JBool (b : bool) | JInt (z : Z) | JStr (s : string) | JList (l : list json) | JObj (d : list (string * json)).
Set Elimination Schemes.

(** [True] and [False] are the integers 1 and 0. *)
Definition number (x : json) : option Z := match x with JBool b => Some (Z.b2z b) | JInt z => Some z | _ => None end.

(** [x == y]: lists by position, dictionaries by key. The last test of two
    dictionaries follows from the others when keys are distinct, as they are. *)
Fixpoint py_eq (x y : json) {struct x} : bool :=
  match x, y with
  | JNull, JNull => true
  | JStr a, JStr b => String.eqb a b
  | JList a, JList b =>
      (fix items l l' := match l, l' with
                         | [], [] => true
                         | u :: l, w :: l' => py_eq u w && items l l'
                         | _, _ => false
                         end) a b
  | JObj a, JObj b =>
      (length a =? length b)%nat &&
      (fix keys l := match l with
                     | [] => true
                     | (k, u) :: l => match dict_get b k with Some w => py_eq u w | None => false end && keys l
                     end) a && forallb (fun p => dict_mem a (fst p)) b
  | _, _ => match number x, number y with Some m, Some n => m =? n | _, _ => false end
  end.

(** [x.get(k, dflt)] *)
Definition get_or (x : json) (k : string) (dflt : json) : result json :=
  match x with JObj d => Ok (default dflt (dict_get d k)) | _ => Raise AttributeError end.
Definition get (x : json) (k : string) : result json := get_or x k JNull.
(** [x[k]] *)
Definition item (x : json) (k : string) : result json :=
  match x with JObj d => match dict_get d k with Some v => Ok v | None => Raise KeyError end | _ => Raise TypeError end.
(** [k in x] of a dictionary *)
Definition has (x : json) (k : string) : bool := match x with JObj d => dict_mem d k | _ => false end.

(** [for y in x] *)
Definition char (c : ascii) : json := JStr (String c "").
Definition items (x : json) : result (list json) :=
  match x with
  | JList l => Ok l
  | JObj d => Ok (map (fun p => JStr (fst p)) d)
  | JStr s => Ok (map char (String.list_ascii_of_string s))
  | _ => Raise TypeError
  end.

(** [x in {"a", "b"}]: a list or a dictionary has no hash. *)
Definition hashable (x : json) : bool := match x with JList _ | JObj _ => false | _ => true end.
Definition in_set (x : json) (l : list string) : result bool :=
  if hashable x then Ok (existsb (fun s => py_eq x (JStr s)) l) else Raise TypeError.

(** An operand of an arithmetic operation. *)
Definition int (x : json) : result Z := match number x with Some z => Ok z | None => Raise TypeError end.

(** [d[k] = v]: a new key goes last. *)
Fixpoint set_key (d : list (string * json)) (k : string) (v : json) : list (string * json) :=
  match d with
  | [] => [(k, v)]
  | (k', w) :: d' => if String.eqb k k' then (k', v) :: d' else (k', w) :: set_key d' k v
  end.
(** [d.update(e)], of dictionaries with distinct keys: [d]'s order, new keys last. *)
Definition update (d e : list (string * json)) : list (string * json) :=
  (map (fun p => (fst p, default (snd p) (dict_get e (fst p)))) d ++ List.filter (fun p => negb (dict_mem d (fst p))) e)%list.

(** [for x in l: a = f(a, x)] and [[f(x) for x in l]], which stop at an exception. *)
Fixpoint fold_res {A B} (f : A -> B -> result A) (a : A) (l : list B) : result A :=
  match l with [] => Ok a | x :: l' => let! a' := f a x in fold_res f a' l' end.
Fixpoint map_res {A B} (f : A -> result B) (l : list A) : result (list B) :=
  match l with [] => Ok [] | x :: l' => let! y := f x in let! ys := map_res f l' in Ok (y :: ys) end.
(** [sum(f(x) for x in l)] of truth values *)
Definition count_true (l : list bool) : Z := Z.of_nat (length (List.filter id l)).

(** [f"{value:0nb}"] of a value below [2^n] *)
Definition bin (n : nat) (value : Z) : string :=
  String.string_of_list_ascii (map (fun k => if Z.testbit value (Z.of_nat k) then "1"%char else "0"%char) (rev (seq 0 n))).

End json.
