(* ===== verification/BusData.v ===== *)
(** * The shipped bus specifications

    [sim/spec/bus_encodings.json] and [sim/spec/bus_addressing.json] as the values
    [json.load] returns. *)
From S2P Require Import Prelude Json.
Import json.
#[local] Open Scope string_scope.
#[local] Open Scope Z_scope.

Definition bus_encodings : json :=
  JObj [("schema_version", JInt 1);
    ("contract", JStr "MPC603e Chapter 7 transfer encodings");
    ("source", JObj [("id", JStr "UM");
     ("path", JStr "1997_MPC603EUM_MPC603e_EC603e_Users_Manual.pdf");
     ("chapter", JStr "7");
     ("section", JStr "7.2.4");
     ("pdf_pages", JList [JInt 285; JInt 289]);
     ("printed_pages", JList [JStr "7-9"; JStr "7-13"]);
     ("visually_checked", JBool true)]);
    ("conventions", JObj [("bit_numbering", JStr "Patterns are written TT0,TT1,TT2,TT3,TT4 or TSIZ0,TSIZ1,TSIZ2 from left to right, preserving the manual's MSB-first bit numbering.");
     ("pattern_x", JStr "X is a don't-care bit in the printed table. Pattern records retain X; the decoder expands them only for matching.");
     ("tbst", JStr "TBST is active low at the pin. This file uses logical asserted/negated state so a low pin is asserted.");
     ("status", JStr "defined is a valid 60x command, reserved is a reserved TT code, and unlisted is used only for TBST/TSIZ combinations absent from Table 7-5.");
     ("generation", JStr "A defined bus command can still be not_generated by the selected 603e profile. That is distinct from a reserved encoding.");
     ("snoop", JStr "Snoop action is the Table 7-2 action on an address hit. not_applicable preserves the printed N/A and does not invent a cache action.")]);
    ("tables_completed", JList [JObj [("table", JStr "7-1");
      ("title", JStr "Transfer Encoding for the Bus Master");
      ("pdf_pages", JList [JInt 285; JInt 286]);
      ("printed_pages", JList [JStr "7-9"; JStr "7-10"]);
      ("coverage", JStr "all rows and all 32 expanded TT codes")];
     JObj [("table", JStr "7-2");
      ("title", JStr "Snoop Hit Response");
      ("pdf_page", JInt 287);
      ("printed_page", JStr "7-11");
      ("coverage", JStr "all rows and action-on-hit values")];
     JObj [("table", JStr "7-3");
      ("title", JStr "Implementation-Specific Transfer Encoding");
      ("pdf_page", JInt 288);
      ("printed_page", JStr "7-12");
      ("coverage", JStr "all three PID7v HID0[ABE] generation overrides")];
     JObj [("table", JStr "7-5");
      ("title", JStr "Data Transfer Size");
      ("pdf_page", JInt 289);
      ("printed_page", JStr "7-13");
      ("coverage", JStr "all nine listed TBST/TSIZ combinations")]]);
    ("expected_counts", JObj [("tt_pattern_rows", JInt 26);
     ("tt_expanded_codes", JInt 32);
     ("tt_defined_expanded_codes", JInt 19);
     ("tt_reserved_expanded_codes", JInt 13);
     ("generic_master_generated_commands", JInt 10);
     ("pid7v_abe_overrides", JInt 3);
     ("listed_size_combinations", JInt 9)]);
    ("tt_commands", JList [JObj [("pattern", JStr "00000");
      ("dont_care_bits", JList []);
      ("status", JStr "defined");
      ("command", JStr "clean_block");
      ("manual_command", JStr "Clean block");
      ("bus_transaction", JStr "address_only");
      ("master", JObj [("generation", JStr "not_generated");
       ("transaction", JStr "not_applicable");
       ("sources", JList [])]);
      ("snoop_action", JStr "not_applicable")];
     JObj [("pattern", JStr "00100");
      ("dont_care_bits", JList []);
      ("status", JStr "defined");
      ("command", JStr "flush_block");
      ("manual_command", JStr "Flush block");
      ("bus_transaction", JStr "address_only");
      ("master", JObj [("generation", JStr "not_generated");
       ("transaction", JStr "not_applicable");
       ("sources", JList [])]);
      ("snoop_action", JStr "not_applicable")];
     JObj [("pattern", JStr "01000");
      ("dont_care_bits", JList []);
      ("status", JStr "defined");
      ("command", JStr "sync");
      ("manual_command", JStr "sync");
      ("bus_transaction", JStr "address_only");
      ("master", JObj [("generation", JStr "not_generated");
       ("transaction", JStr "not_applicable");
       ("sources", JList [])]);
      ("snoop_action", JStr "not_applicable")];
     JObj [("pattern", JStr "01100");
      ("dont_care_bits", JList []);
      ("status", JStr "defined");
      ("command", JStr "kill_block");
      ("manual_command", JStr "Kill block");
      ("bus_transaction", JStr "address_only");
      ("master", JObj [("generation", JStr "generated");
       ("transaction", JStr "address_only");
       ("sources", JList [JStr "dcbz"])]);
      ("snoop_action", JStr "kill_cancel_reservation")];
     JObj [("pattern", JStr "10000");
      ("dont_care_bits", JList []);
      ("status", JStr "defined");
      ("command", JStr "eieio");
      ("manual_command", JStr "eieio");
      ("bus_transaction", JStr "address_only");
      ("master", JObj [("generation", JStr "not_generated");
       ("transaction", JStr "not_applicable");
       ("sources", JList [])]);
      ("snoop_action", JStr "not_applicable")];
     JObj [("pattern", JStr "10100");
      ("dont_care_bits", JList []);
      ("status", JStr "defined");
      ("command", JStr "external_control_word_write");
      ("manual_command", JStr "External control word write");
      ("bus_transaction", JStr "single_beat_write");
      ("master", JObj [("generation", JStr "generated");
       ("transaction", JStr "single_beat_write");
       ("non_global", JBool true);
       ("sources", JList [JStr "ecowx"])]);
      ("snoop_action", JStr "not_applicable")];
     JObj [("pattern", JStr "11000");
      ("dont_care_bits", JList []);
      ("status", JStr "defined");
      ("command", JStr "tlb_invalidate");
      ("manual_command", JStr "TLB invalidate");
      ("bus_transaction", JStr "address_only");
      ("master", JObj [("generation", JStr "not_generated");
       ("transaction", JStr "not_applicable");
       ("sources", JList [])]);
      ("snoop_action", JStr "not_applicable")];
     JObj [("pattern", JStr "11100");
      ("dont_care_bits", JList []);
      ("status", JStr "defined");
      ("command", JStr "external_control_word_read");
      ("manual_command", JStr "External control word read");
      ("bus_transaction", JStr "single_beat_read");
      ("master", JObj [("generation", JStr "generated");
       ("transaction", JStr "single_beat_read");
       ("non_global", JBool true);
       ("sources", JList [JStr "eciwx"])]);
      ("snoop_action", JStr "not_applicable")];
     JObj [("pattern", JStr "00001");
      ("dont_care_bits", JList []);
      ("status", JStr "defined");
      ("command", JStr "lwarx_reservation_set");
      ("manual_command", JStr "lwarx Reservation set");
      ("bus_transaction", JStr "address_only");
      ("master", JObj [("generation", JStr "not_generated");
       ("transaction", JStr "not_applicable");
       ("sources", JList [])]);
      ("snoop_action", JStr "not_applicable")];
     JObj [("pattern", JStr "00101");
      ("dont_care_bits", JList []);
      ("status", JStr "reserved");
      ("command", JStr "reserved");
      ("manual_command", JStr "Reserved");
      ("bus_transaction", JStr "reserved");
      ("master", JObj [("generation", JStr "reserved"); ("transaction", JStr "reserved"); ("sources", JList [])]);
      ("snoop_action", JStr "not_applicable")];
     JObj [("pattern", JStr "01001");
      ("dont_care_bits", JList []);
      ("status", JStr "defined");
      ("command", JStr "tlbsync");
      ("manual_command", JStr "tlbsync");
      ("bus_transaction", JStr "address_only");
      ("master", JObj [("generation", JStr "not_generated");
       ("transaction", JStr "not_applicable");
       ("sources", JList [])]);
      ("snoop_action", JStr "not_applicable")];
     JObj [("pattern", JStr "01101");
      ("dont_care_bits", JList []);
      ("status", JStr "defined");
      ("command", JStr "icbi");
      ("manual_command", JStr "icbi");
      ("bus_transaction", JStr "address_only");
      ("master", JObj [("generation", JStr "not_generated");
       ("transaction", JStr "not_applicable");
       ("sources", JList [])]);
      ("snoop_action", JStr "not_applicable")];
     JObj [("pattern", JStr "1XX01");
      ("dont_care_bits", JList [JInt 1; JInt 2]);
      ("status", JStr "reserved");
      ("command", JStr "reserved");
      ("manual_command", JStr "Reserved");
      ("bus_transaction", JStr "reserved");
      ("master", JObj [("generation", JStr "reserved"); ("transaction", JStr "reserved"); ("sources", JList [])]);
      ("snoop_action", JStr "not_applicable")];
     JObj [("pattern", JStr "00010");
      ("dont_care_bits", JList []);
      ("status", JStr "defined");
      ("command", JStr "write_with_flush");
      ("manual_command", JStr "Write-with-flush");
      ("bus_transaction", JStr "single_beat_write_or_burst");
      ("master", JObj [("generation", JStr "generated");
       ("transaction", JStr "single_beat_write");
       ("sources", JList [JStr "caching-inhibited store"; JStr "write-through store"])]);
      ("snoop_action", JStr "flush_cancel_reservation")];
     JObj [("pattern", JStr "00110");
      ("dont_care_bits", JList []);
      ("status", JStr "defined");
      ("command", JStr "write_with_kill");
      ("manual_command", JStr "Write-with-kill");
      ("bus_transaction", JStr "single_beat_write_or_burst");
      ("master", JObj [("generation", JStr "generated");
       ("transaction", JStr "burst");
       ("non_global", JBool true);
       ("sources", JList [JStr "cast-out"; JStr "snoop copyback"])]);
      ("snoop_action", JStr "kill_cancel_reservation")];
     JObj [("pattern", JStr "01010");
      ("dont_care_bits", JList []);
      ("status", JStr "defined");
      ("command", JStr "read");
      ("manual_command", JStr "Read");
      ("bus_transaction", JStr "single_beat_read_or_burst");
      ("master", JObj [("generation", JStr "generated");
       ("transaction", JStr "single_beat_read");
       ("sources", JList [JStr "caching-inhibited load"; JStr "caching-inhibited instruction fetch"])]);
      ("snoop_action", JStr "clean_or_flush")];
     JObj [("pattern", JStr "01110");
      ("dont_care_bits", JList []);
      ("status", JStr "defined");
      ("command", JStr "read_with_intent_to_modify");
      ("manual_command", JStr "Read-with-intent-to-modify");
      ("bus_transaction", JStr "burst");
      ("master", JObj [("generation", JStr "generated");
       ("transaction", JStr "burst");
       ("sources", JList [JStr "load miss"; JStr "store miss"; JStr "instruction fetch"])]);
      ("snoop_action", JStr "flush")];
     JObj [("pattern", JStr "10010");
      ("dont_care_bits", JList []);
      ("status", JStr "defined");
      ("command", JStr "write_with_flush_atomic");
      ("manual_command", JStr "Write-with-flush-atomic");
      ("bus_transaction", JStr "single_beat_write");
      ("master", JObj [("generation", JStr "generated");
       ("transaction", JStr "single_beat_write");
       ("sources", JList [JStr "stwcx."])]);
      ("snoop_action", JStr "flush_cancel_reservation")];
     JObj [("pattern", JStr "10110");
      ("dont_care_bits", JList []);
      ("status", JStr "reserved");
      ("command", JStr "reserved");
      ("manual_command", JStr "Reserved");
      ("bus_transaction", JStr "reserved");
      ("master", JObj [("generation", JStr "reserved"); ("transaction", JStr "reserved"); ("sources", JList [])]);
      ("snoop_action", JStr "not_applicable")];
     JObj [("pattern", JStr "11010");
      ("dont_care_bits", JList []);
      ("status", JStr "defined");
      ("command", JStr "read_atomic");
      ("manual_command", JStr "Read-atomic");
      ("bus_transaction", JStr "single_beat_read_or_burst");
      ("master", JObj [("generation", JStr "generated");
       ("transaction", JStr "single_beat_read");
       ("sources", JList [JStr "lwarx caching-inhibited load"])]);
      ("snoop_action", JStr "clean_or_flush")];
     JObj [("pattern", JStr "11110");
      ("dont_care_bits", JList []);
      ("status", JStr "defined");
      ("command", JStr "read_with_intent_to_modify_atomic");
      ("manual_command", JStr "Read-with-intent-to-modify-atomic");
      ("bus_transaction", JStr "burst");
      ("master", JObj [("generation", JStr "generated");
       ("transaction", JStr "burst");
       ("sources", JList [JStr "lwarx load miss"])]);
      ("snoop_action", JStr "flush")];
     JObj [("pattern", JStr "00011");
      ("dont_care_bits", JList []);
      ("status", JStr "reserved");
      ("command", JStr "reserved");
      ("manual_command", JStr "Reserved");
      ("bus_transaction", JStr "reserved");
      ("master", JObj [("generation", JStr "reserved"); ("transaction", JStr "reserved"); ("sources", JList [])]);
      ("snoop_action", JStr "not_applicable")];
     JObj [("pattern", JStr "00111");
      ("dont_care_bits", JList []);
      ("status", JStr "reserved");
      ("command", JStr "reserved");
      ("manual_command", JStr "Reserved");
      ("bus_transaction", JStr "reserved");
      ("master", JObj [("generation", JStr "reserved"); ("transaction", JStr "reserved"); ("sources", JList [])]);
      ("snoop_action", JStr "not_applicable")];
     JObj [("pattern", JStr "01011");
      ("dont_care_bits", JList []);
      ("status", JStr "defined");
      ("command", JStr "read_with_no_intent_to_cache");
      ("manual_command", JStr "Read-with-no-intent-to-cache");
      ("bus_transaction", JStr "single_beat_read_or_burst");
      ("master", JObj [("generation", JStr "not_generated");
       ("transaction", JStr "not_applicable");
       ("sources", JList [])]);
      ("snoop_action", JStr "clean")];
     JObj [("pattern", JStr "01111");
      ("dont_care_bits", JList []);
      ("status", JStr "reserved");
      ("command", JStr "reserved");
      ("manual_command", JStr "Reserved");
      ("bus_transaction", JStr "reserved");
      ("master", JObj [("generation", JStr "reserved"); ("transaction", JStr "reserved"); ("sources", JList [])]);
      ("snoop_action", JStr "not_applicable")];
     JObj [("pattern", JStr "1XX11");
      ("dont_care_bits", JList [JInt 1; JInt 2]);
      ("status", JStr "reserved");
      ("command", JStr "reserved");
      ("manual_command", JStr "Reserved");
      ("bus_transaction", JStr "reserved");
      ("master", JObj [("generation", JStr "reserved"); ("transaction", JStr "reserved"); ("sources", JList [])]);
      ("snoop_action", JStr "not_applicable")]]);
    ("pid7v_abe_overrides", JList [JObj [("pattern", JStr "00000");
      ("command", JStr "clean_block");
      ("master", JObj [("generation", JStr "generated");
       ("transaction", JStr "address_only");
       ("sources", JList [JStr "dcbst"])])];
     JObj [("pattern", JStr "00100");
      ("command", JStr "flush_block");
      ("master", JObj [("generation", JStr "generated");
       ("transaction", JStr "address_only");
       ("sources", JList [JStr "dcbf"])])];
     JObj [("pattern", JStr "01100");
      ("command", JStr "kill_block");
      ("master", JObj [("generation", JStr "generated");
       ("transaction", JStr "address_only");
       ("sources", JList [JStr "dcbz"; JStr "dcbi"])])]]);
    ("transfer_sizes", JObj [("context_overrides", JObj [("address_only", JStr "TBST/TSIZ do not describe a data-transfer size.");
      ("external_control", JStr "For eciwx/ecowx, TBST supplies EAR bit 28 and TSIZ[0:2] supply EAR bits 29:31; the four pins form a resource ID rather than Table 7-5 size.")]);
     ("listed_combinations", JList [JObj [("tbst", JStr "asserted");
       ("tsiz", JStr "010");
       ("status", JStr "defined");
       ("kind", JStr "cache_line_burst");
       ("transfer_size_bytes", JInt 32)];
      JObj [("tbst", JStr "negated");
       ("tsiz", JStr "000");
       ("status", JStr "defined");
       ("kind", JStr "nonburst");
       ("transfer_size_bytes", JInt 8)];
      JObj [("tbst", JStr "negated");
       ("tsiz", JStr "001");
       ("status", JStr "defined");
       ("kind", JStr "nonburst");
       ("transfer_size_bytes", JInt 1)];
      JObj [("tbst", JStr "negated");
       ("tsiz", JStr "010");
       ("status", JStr "defined");
       ("kind", JStr "nonburst");
       ("transfer_size_bytes", JInt 2)];
      JObj [("tbst", JStr "negated");
       ("tsiz", JStr "011");
       ("status", JStr "defined");
       ("kind", JStr "nonburst");
       ("transfer_size_bytes", JInt 3)];
      JObj [("tbst", JStr "negated");
       ("tsiz", JStr "100");
       ("status", JStr "defined");
       ("kind", JStr "nonburst");
       ("transfer_size_bytes", JInt 4)];
      JObj [("tbst", JStr "negated");
       ("tsiz", JStr "101");
       ("status", JStr "defined");
       ("kind", JStr "nonburst");
       ("transfer_size_bytes", JInt 5)];
      JObj [("tbst", JStr "negated");
       ("tsiz", JStr "110");
       ("status", JStr "defined");
       ("kind", JStr "nonburst");
       ("transfer_size_bytes", JInt 6)];
      JObj [("tbst", JStr "negated");
       ("tsiz", JStr "111");
       ("status", JStr "defined");
       ("kind", JStr "nonburst");
       ("transfer_size_bytes", JInt 7)]]);
     ("mode_rules", JObj [("64", JObj [("cache_line_burst_beats", JInt 4);
       ("bytes_per_burst_beat", JInt 8);
       ("nonburst_beat_note", JStr "A listed normal aligned bus transfer of 1-8 bytes uses one 64-bit beat. This does not say that an instruction/program access requires only one bus transaction; address alignment and access decomposition are outside this manifest.")]);
      ("32", JObj [("cache_line_burst_beats", JInt 8);
       ("bytes_per_burst_beat", JInt 4);
       ("nonburst_beats_by_size", JObj [("1", JInt 1); ("2", JInt 1); ("3", JInt 1); ("4", JInt 1); ("8", JInt 2)]);
       ("sizes_1_to_4_note", JStr "Each listed Table 7-5 bus transfer uses one 32-bit beat. Instruction/program access decomposition is not checked because no address is supplied.");
       ("sizes_5_to_7", JStr "unresolved_without_alignment_tables");
       ("two_beat_8byte_tbst", JStr "negated");
       ("source", JObj [("section", JStr "8.6.1");
        ("pdf_pages", JList [JInt 346; JInt 347]);
        ("printed_pages", JList [JStr "8-38"; JStr "8-39"])])])])]);
    ("out_of_scope", JList [JStr "Tables 8-4 and 8-5 aligned/misaligned address and transfer-size combinations.";
     JStr "Big/little-endian byte-lane steering and MCM bridge transformations.";
     JStr "TA/DRTRY/ARTRY/TEA collision timing and per-beat waveform tables.";
     JStr "TC, parity, cache-state, and electrical/package encodings outside Tables 7-1, 7-2, 7-3, and 7-5."])].

Definition bus_addressing : json :=
  JObj [("schema_version", JInt 1);
    ("contract", JStr "MPC603e Tables 8-4 through 8-7 address, size, and physical data-lane decomposition");
    ("source", JObj [("id", JStr "UM");
     ("path", JStr "1997_MPC603EUM_MPC603e_EC603e_Users_Manual.pdf");
     ("sections", JList [JStr "8.3.2.4"; JStr "8.3.2.5"]);
     ("pdf_pages", JList [JInt 323; JInt 324; JInt 325; JInt 326; JInt 327]);
     ("printed_pages", JList [JStr "8-15"; JStr "8-16"; JStr "8-17"; JStr "8-18"; JStr "8-19"]);
     ("visually_checked", JBool true)]);
    ("conventions", JObj [("bit_numbering", JStr "A[29:31], TSIZ[0:2], DH, and DL strings preserve the manual's MSB-first numbering.");
     ("address", JStr "Queries use an already bus-side 32-bit byte address. A[29:31] is address & 7; no CPU effective-address translation, MMU translation, or cache-to-bus prediction is performed.");
     ("table_lane_marks", JStr "source_table_lane_marks records only the A marks printed in the selected table. source_table_lane_cells preserves every rendered A, em dash, x, and anomalous blank in Tables 8-6/8-7.");
     ("physical_lanes", JStr "Table 7-7 maps lanes 0,1,2,3 to DH[0:7], DH[8:15], DH[16:23], DH[24:31] and lanes 4,5,6,7 to the corresponding DL slices. Section 8.6.1 limits 32-bit mode to lanes 0 through 3.");
     ("endian_scope", JStr "Active lane numbers and physical DH/DL signal slices do not assign operand-byte significance, select an endian mode, or define memory-controller steering.");
     ("decomposition", JStr "Tables 8-5 and 8-7 each give every four-byte start. A word-boundary crossing uses a first transfer through the current four-byte word and a second transfer at the next word.");
     ("doubleword_32", JStr "The Table 8-6 doubleword is one data transaction/data tenure with two data beats. Both printed beat rows retain A[29:31]=000, TSIZ=000, and lanes 0 through 3; no second bus address is inferred.");
     ("scope_rejection", JStr "A valid processor access outside the selected rows is reported as outside_selected_tables, not architecturally invalid.")]);
    ("source_conflicts", JList [JObj [("id", JStr "T8-5-OFFSET010-SECOND-TSIZ");
      ("location", JStr "Table 8-5, start A[29:31]=010, second access");
      ("printed_tsiz", JStr "011");
      ("lane_implied_transfer_size_bytes", JInt 2);
      ("printed_lane_marks", JList [JInt 4; JInt 5]);
      ("provisional_normalized_tsiz", JStr "010");
      ("basis", JStr "Table 8-1 maps two bytes to TSIZ=010; the row marks two lanes; the mirrored start A[29:31]=110 second access prints TSIZ=010; and the corresponding Table 8-7 row prints TSIZ=010.");
      ("status", JStr "probable_manual_editorial_error_preserved_and_normalization_explicit")];
     JObj [("id", JStr "T8-6-BYTE001-LANE2-SYMBOL");
      ("location", JStr "Table 8-6, byte A[29:31]=001, lane 2");
      ("printed_symbol", JStr "x");
      ("provisional_normalized_symbol", JStr "—");
      ("basis", JStr "The note defines x as a lane not used in 32-bit mode, but lane 2 is part of DH[0:31] and is marked A for byte A[29:31]=010; the remaining unused cells in lanes 0 through 3 print an em dash.");
      ("query_effect", JStr "none; active lanes are taken only from printed A marks");
      ("status", JStr "probable_manual_editorial_error_preserved_and_normalization_explicit")];
     JObj [("id", JStr "T8-7-OFFSET001-FIRST-LANE0-SYMBOL");
      ("location", JStr "Table 8-7, start A[29:31]=001, first access, lane 0");
      ("printed_symbol", JStr "blank");
      ("provisional_normalized_symbol", JStr "—");
      ("basis", JStr "The note defines A, em dash, and x but no blank; lane 0 is outside this three-byte access and corresponding unused cells in lanes 0 through 3 print an em dash.");
      ("query_effect", JStr "none; active lanes are taken only from printed A marks");
      ("status", JStr "probable_manual_editorial_omission_preserved_and_normalization_explicit")];
     JObj [("id", JStr "T8-7-OFFSET010-SECOND-LANE3-SYMBOL");
      ("location", JStr "Table 8-7, start A[29:31]=010, second access, lane 3");
      ("printed_symbol", JStr "x");
      ("provisional_normalized_symbol", JStr "—");
      ("basis", JStr "The note defines x as a lane not used in 32-bit mode, but lane 3 is part of DH[0:31] and other unused cells in lanes 0 through 3 print an em dash.");
      ("query_effect", JStr "none; active lanes are taken only from printed A marks");
      ("status", JStr "probable_manual_editorial_error_preserved_and_normalization_explicit")]]);
    ("tables_completed", JList [JObj [("table", JStr "8-4");
      ("title", JStr "Aligned Data Transfers (64-Bit Bus)");
      ("pdf_pages", JList [JInt 323; JInt 324]);
      ("printed_pages", JList [JStr "8-15"; JStr "8-16"]);
      ("coverage", JStr "all 15 aligned size/address rows and their printed 64-bit byte-lane marks")];
     JObj [("table", JStr "8-5");
      ("title", JStr "Misaligned Data Transfers (Four-Byte Examples)");
      ("pdf_page", JInt 325);
      ("printed_page", JStr "8-17");
      ("coverage", JStr "all eight starting A[29:31] values and all 14 resulting access rows")];
     JObj [("table", JStr "8-6");
      ("title", JStr "Aligned Data Transfers (32-Bit Bus Mode)");
      ("pdf_page", JInt 326);
      ("printed_page", JStr "8-18");
      ("coverage", JStr "all 15 aligned request rows, all 16 data-beat rows, and all rendered lane cells")];
     JObj [("table", JStr "8-7");
      ("title", JStr "Misaligned 32-Bit Data Bus Transfer (Four-Byte Examples)");
      ("pdf_page", JInt 327);
      ("printed_page", JStr "8-19");
      ("coverage", JStr "all eight starting A[29:31] values, all 14 resulting access rows, and all rendered lane cells")]]);
    ("expected_counts", JObj [("table_8_4_rows", JInt 15);
     ("table_8_4_byte_rows", JInt 8);
     ("table_8_4_halfword_rows", JInt 4);
     ("table_8_4_word_rows", JInt 2);
     ("table_8_4_doubleword_rows", JInt 1);
     ("table_8_5_start_cases", JInt 8);
     ("table_8_5_access_rows", JInt 14);
     ("table_8_5_aligned_cases", JInt 2);
     ("table_8_5_misaligned_cases", JInt 6);
     ("table_8_6_request_rows", JInt 15);
     ("table_8_6_data_beat_rows", JInt 16);
     ("table_8_6_byte_rows", JInt 8);
     ("table_8_6_halfword_rows", JInt 4);
     ("table_8_6_word_rows", JInt 2);
     ("table_8_6_doubleword_request_rows", JInt 1);
     ("table_8_7_start_cases", JInt 8);
     ("table_8_7_access_rows", JInt 14);
     ("table_8_7_aligned_cases", JInt 2);
     ("table_8_7_misaligned_cases", JInt 6)]);
    ("tsiz_by_bytes", JObj [("1", JStr "001"); ("2", JStr "010"); ("3", JStr "011"); ("4", JStr "100"); ("8", JStr "000")]);
    ("table_8_4_aligned_64", JList [JObj [("transfer_size_bytes", JInt 1);
      ("tsiz", JStr "001");
      ("a29_31", JStr "000");
      ("source_table_lane_marks", JList [JInt 0])];
     JObj [("transfer_size_bytes", JInt 1);
      ("tsiz", JStr "001");
      ("a29_31", JStr "001");
      ("source_table_lane_marks", JList [JInt 1])];
     JObj [("transfer_size_bytes", JInt 1);
      ("tsiz", JStr "001");
      ("a29_31", JStr "010");
      ("source_table_lane_marks", JList [JInt 2])];
     JObj [("transfer_size_bytes", JInt 1);
      ("tsiz", JStr "001");
      ("a29_31", JStr "011");
      ("source_table_lane_marks", JList [JInt 3])];
     JObj [("transfer_size_bytes", JInt 1);
      ("tsiz", JStr "001");
      ("a29_31", JStr "100");
      ("source_table_lane_marks", JList [JInt 4])];
     JObj [("transfer_size_bytes", JInt 1);
      ("tsiz", JStr "001");
      ("a29_31", JStr "101");
      ("source_table_lane_marks", JList [JInt 5])];
     JObj [("transfer_size_bytes", JInt 1);
      ("tsiz", JStr "001");
      ("a29_31", JStr "110");
      ("source_table_lane_marks", JList [JInt 6])];
     JObj [("transfer_size_bytes", JInt 1);
      ("tsiz", JStr "001");
      ("a29_31", JStr "111");
      ("source_table_lane_marks", JList [JInt 7])];
     JObj [("transfer_size_bytes", JInt 2);
      ("tsiz", JStr "010");
      ("a29_31", JStr "000");
      ("source_table_lane_marks", JList [JInt 0; JInt 1])];
     JObj [("transfer_size_bytes", JInt 2);
      ("tsiz", JStr "010");
      ("a29_31", JStr "010");
      ("source_table_lane_marks", JList [JInt 2; JInt 3])];
     JObj [("transfer_size_bytes", JInt 2);
      ("tsiz", JStr "010");
      ("a29_31", JStr "100");
      ("source_table_lane_marks", JList [JInt 4; JInt 5])];
     JObj [("transfer_size_bytes", JInt 2);
      ("tsiz", JStr "010");
      ("a29_31", JStr "110");
      ("source_table_lane_marks", JList [JInt 6; JInt 7])];
     JObj [("transfer_size_bytes", JInt 4);
      ("tsiz", JStr "100");
      ("a29_31", JStr "000");
      ("source_table_lane_marks", JList [JInt 0; JInt 1; JInt 2; JInt 3])];
     JObj [("transfer_size_bytes", JInt 4);
      ("tsiz", JStr "100");
      ("a29_31", JStr "100");
      ("source_table_lane_marks", JList [JInt 4; JInt 5; JInt 6; JInt 7])];
     JObj [("transfer_size_bytes", JInt 8);
      ("tsiz", JStr "000");
      ("a29_31", JStr "000");
      ("source_table_lane_marks", JList [JInt 0; JInt 1; JInt 2; JInt 3; JInt 4; JInt 5; JInt 6; JInt 7])]]);
    ("table_8_5_four_byte_cases", JList [JObj [("start_a29_31", JStr "000");
      ("alignment", JStr "aligned");
      ("accesses", JList [JObj [("sequence", JStr "only");
        ("address_delta_bytes", JInt 0);
        ("transfer_size_bytes", JInt 4);
        ("tsiz", JStr "100");
        ("a29_31", JStr "000");
        ("source_table_lane_marks", JList [JInt 0; JInt 1; JInt 2; JInt 3])]])];
     JObj [("start_a29_31", JStr "001");
      ("alignment", JStr "misaligned");
      ("accesses", JList [JObj [("sequence", JStr "first");
        ("address_delta_bytes", JInt 0);
        ("transfer_size_bytes", JInt 3);
        ("tsiz", JStr "011");
        ("a29_31", JStr "001");
        ("source_table_lane_marks", JList [JInt 1; JInt 2; JInt 3])];
       JObj [("sequence", JStr "second");
        ("address_delta_bytes", JInt 3);
        ("transfer_size_bytes", JInt 1);
        ("tsiz", JStr "001");
        ("a29_31", JStr "100");
        ("source_table_lane_marks", JList [JInt 4])]])];
     JObj [("start_a29_31", JStr "010");
      ("alignment", JStr "misaligned");
      ("accesses", JList [JObj [("sequence", JStr "first");
        ("address_delta_bytes", JInt 0);
        ("transfer_size_bytes", JInt 2);
        ("tsiz", JStr "010");
        ("a29_31", JStr "010");
        ("source_table_lane_marks", JList [JInt 2; JInt 3])];
       JObj [("sequence", JStr "second");
        ("address_delta_bytes", JInt 2);
        ("transfer_size_bytes", JInt 2);
        ("source_table_tsiz", JStr "011");
        ("tsiz", JStr "010");
        ("tsiz_status", JStr "provisional_normalization_of_probable_manual_editorial_error");
        ("source_conflict", JStr "T8-5-OFFSET010-SECOND-TSIZ");
        ("a29_31", JStr "100");
        ("source_table_lane_marks", JList [JInt 4; JInt 5])]])];
     JObj [("start_a29_31", JStr "011");
      ("alignment", JStr "misaligned");
      ("accesses", JList [JObj [("sequence", JStr "first");
        ("address_delta_bytes", JInt 0);
        ("transfer_size_bytes", JInt 1);
        ("tsiz", JStr "001");
        ("a29_31", JStr "011");
        ("source_table_lane_marks", JList [JInt 3])];
       JObj [("sequence", JStr "second");
        ("address_delta_bytes", JInt 1);
        ("transfer_size_bytes", JInt 3);
        ("tsiz", JStr "011");
        ("a29_31", JStr "100");
        ("source_table_lane_marks", JList [JInt 4; JInt 5; JInt 6])]])];
     JObj [("start_a29_31", JStr "100");
      ("alignment", JStr "aligned");
      ("accesses", JList [JObj [("sequence", JStr "only");
        ("address_delta_bytes", JInt 0);
        ("transfer_size_bytes", JInt 4);
        ("tsiz", JStr "100");
        ("a29_31", JStr "100");
        ("source_table_lane_marks", JList [JInt 4; JInt 5; JInt 6; JInt 7])]])];
     JObj [("start_a29_31", JStr "101");
      ("alignment", JStr "misaligned");
      ("accesses", JList [JObj [("sequence", JStr "first");
        ("address_delta_bytes", JInt 0);
        ("transfer_size_bytes", JInt 3);
        ("tsiz", JStr "011");
        ("a29_31", JStr "101");
        ("source_table_lane_marks", JList [JInt 5; JInt 6; JInt 7])];
       JObj [("sequence", JStr "second");
        ("address_delta_bytes", JInt 3);
        ("transfer_size_bytes", JInt 1);
        ("tsiz", JStr "001");
        ("a29_31", JStr "000");
        ("source_table_lane_marks", JList [JInt 0])]])];
     JObj [("start_a29_31", JStr "110");
      ("alignment", JStr "misaligned");
      ("accesses", JList [JObj [("sequence", JStr "first");
        ("address_delta_bytes", JInt 0);
        ("transfer_size_bytes", JInt 2);
        ("tsiz", JStr "010");
        ("a29_31", JStr "110");
        ("source_table_lane_marks", JList [JInt 6; JInt 7])];
       JObj [("sequence", JStr "second");
        ("address_delta_bytes", JInt 2);
        ("transfer_size_bytes", JInt 2);
        ("tsiz", JStr "010");
        ("a29_31", JStr "000");
        ("source_table_lane_marks", JList [JInt 0; JInt 1])]])];
     JObj [("start_a29_31", JStr "111");
      ("alignment", JStr "misaligned");
      ("accesses", JList [JObj [("sequence", JStr "first");
        ("address_delta_bytes", JInt 0);
        ("transfer_size_bytes", JInt 1);
        ("tsiz", JStr "001");
        ("a29_31", JStr "111");
        ("source_table_lane_marks", JList [JInt 7])];
       JObj [("sequence", JStr "second");
        ("address_delta_bytes", JInt 1);
        ("transfer_size_bytes", JInt 3);
        ("tsiz", JStr "011");
        ("a29_31", JStr "000");
        ("source_table_lane_marks", JList [JInt 0; JInt 1; JInt 2])]])]]);
    ("width_applicability", JObj [("64", JObj [("aligned_rows", JStr "direct_table_8_4");
      ("four_byte_rows", JStr "direct_table_8_5");
      ("lane_marks", JStr "physical lanes and Table 7-7 signal slices returned without operand-byte/endian mapping")]);
     ("32", JObj [("aligned_rows", JStr "direct_table_8_6");
      ("four_byte_rows", JStr "direct_table_8_7");
      ("lane_marks", JStr "physical lanes 0 through 3 and DH signal slices returned without operand-byte/endian mapping");
      ("doubleword", JStr "one data transaction with two Table 8-6 beats; source A/TSIZ/lane fields retained per beat without inferred second address")])]);
    ("coherency_boundary_rule", JObj [("bytes", JInt 32);
     ("source", JObj [("section", JStr "8.3.2.2 (continuation)");
      ("pdf_page", JInt 322);
      ("printed_page", JStr "8-14")]);
     ("rule", JStr "A data transfer crossing an aligned 32-byte boundary must present a new address at that boundary or operate as noncoherent data with respect to the 603e.")]);
    ("out_of_scope", JList [JStr "Endian byte-value ordering, operand-byte significance, and memory-controller byte-lane steering.";
     JStr "CPU effective-address translation and prediction of whether an access becomes these nonburst bus transfers; cacheability and the memory hierarchy determine whether a bus operation occurs.";
     JStr "Misaligned sizes other than the four-byte examples in Tables 8-5 and 8-7.";
     JStr "A derived address for the second beat of a 32-bit-mode doubleword; Table 8-6 prints A[29:31]=000 for both beats.";
     JStr "Floating-point alignment exceptions and instruction-specific legality.";
     JStr "External-control transaction atomicity and scheduling.";
     JStr "Burst ordering, termination timing, RTL, and BFM behavior."]);
    ("lane_signal_source", JObj [("section", JStr "7.2.7.1, Table 7-7; 8.6.1");
     ("pdf_pages", JList [JInt 295; JInt 346]);
     ("printed_pages", JList [JStr "7-19"; JStr "8-38"]);
     ("lane_to_data_signals", JObj [("0", JStr "DH[0:7]");
      ("1", JStr "DH[8:15]");
      ("2", JStr "DH[16:23]");
      ("3", JStr "DH[24:31]");
      ("4", JStr "DL[0:7]");
      ("5", JStr "DL[8:15]");
      ("6", JStr "DL[16:23]");
      ("7", JStr "DL[24:31]")]);
     ("scope", JStr "physical signal groups only; operand byte order and endian steering are not specified by this mapping")]);
    ("table_8_6_aligned_32", JList [JObj [("transfer_size_bytes", JInt 1);
      ("tsiz", JStr "001");
      ("a29_31", JStr "000");
      ("data_beat_count", JInt 1);
      ("source_table_lane_marks", JList [JInt 0]);
      ("source_table_lane_cells", JList [JStr "A"; JStr "—"; JStr "—"; JStr "—"; JStr "x"; JStr "x"; JStr "x"; JStr "x"])];
     JObj [("transfer_size_bytes", JInt 1);
      ("tsiz", JStr "001");
      ("a29_31", JStr "001");
      ("data_beat_count", JInt 1);
      ("source_table_lane_marks", JList [JInt 1]);
      ("source_table_lane_cells", JList [JStr "—"; JStr "A"; JStr "x"; JStr "—"; JStr "x"; JStr "x"; JStr "x"; JStr "x"]);
      ("lane_cell_normalizations", JList [JObj [("lane", JInt 2);
        ("source_symbol", JStr "x");
        ("provisional_normalized_symbol", JStr "—");
        ("source_conflict", JStr "T8-6-BYTE001-LANE2-SYMBOL")]])];
     JObj [("transfer_size_bytes", JInt 1);
      ("tsiz", JStr "001");
      ("a29_31", JStr "010");
      ("data_beat_count", JInt 1);
      ("source_table_lane_marks", JList [JInt 2]);
      ("source_table_lane_cells", JList [JStr "—"; JStr "—"; JStr "A"; JStr "—"; JStr "x"; JStr "x"; JStr "x"; JStr "x"])];
     JObj [("transfer_size_bytes", JInt 1);
      ("tsiz", JStr "001");
      ("a29_31", JStr "011");
      ("data_beat_count", JInt 1);
      ("source_table_lane_marks", JList [JInt 3]);
      ("source_table_lane_cells", JList [JStr "—"; JStr "—"; JStr "—"; JStr "A"; JStr "x"; JStr "x"; JStr "x"; JStr "x"])];
     JObj [("transfer_size_bytes", JInt 1);
      ("tsiz", JStr "001");
      ("a29_31", JStr "100");
      ("data_beat_count", JInt 1);
      ("source_table_lane_marks", JList [JInt 0]);
      ("source_table_lane_cells", JList [JStr "A"; JStr "—"; JStr "—"; JStr "—"; JStr "x"; JStr "x"; JStr "x"; JStr "x"])];
     JObj [("transfer_size_bytes", JInt 1);
      ("tsiz", JStr "001");
      ("a29_31", JStr "101");
      ("data_beat_count", JInt 1);
      ("source_table_lane_marks", JList [JInt 1]);
      ("source_table_lane_cells", JList [JStr "—"; JStr "A"; JStr "—"; JStr "—"; JStr "x"; JStr "x"; JStr "x"; JStr "x"])];
     JObj [("transfer_size_bytes", JInt 1);
      ("tsiz", JStr "001");
      ("a29_31", JStr "110");
      ("data_beat_count", JInt 1);
      ("source_table_lane_marks", JList [JInt 2]);
      ("source_table_lane_cells", JList [JStr "—"; JStr "—"; JStr "A"; JStr "—"; JStr "x"; JStr "x"; JStr "x"; JStr "x"])];
     JObj [("transfer_size_bytes", JInt 1);
      ("tsiz", JStr "001");
      ("a29_31", JStr "111");
      ("data_beat_count", JInt 1);
      ("source_table_lane_marks", JList [JInt 3]);
      ("source_table_lane_cells", JList [JStr "—"; JStr "—"; JStr "—"; JStr "A"; JStr "x"; JStr "x"; JStr "x"; JStr "x"])];
     JObj [("transfer_size_bytes", JInt 2);
      ("tsiz", JStr "010");
      ("a29_31", JStr "000");
      ("data_beat_count", JInt 1);
      ("source_table_lane_marks", JList [JInt 0; JInt 1]);
      ("source_table_lane_cells", JList [JStr "A"; JStr "A"; JStr "—"; JStr "—"; JStr "x"; JStr "x"; JStr "x"; JStr "x"])];
     JObj [("transfer_size_bytes", JInt 2);
      ("tsiz", JStr "010");
      ("a29_31", JStr "010");
      ("data_beat_count", JInt 1);
      ("source_table_lane_marks", JList [JInt 2; JInt 3]);
      ("source_table_lane_cells", JList [JStr "—"; JStr "—"; JStr "A"; JStr "A"; JStr "x"; JStr "x"; JStr "x"; JStr "x"])];
     JObj [("transfer_size_bytes", JInt 2);
      ("tsiz", JStr "010");
      ("a29_31", JStr "100");
      ("data_beat_count", JInt 1);
      ("source_table_lane_marks", JList [JInt 0; JInt 1]);
      ("source_table_lane_cells", JList [JStr "A"; JStr "A"; JStr "—"; JStr "—"; JStr "x"; JStr "x"; JStr "x"; JStr "x"])];
     JObj [("transfer_size_bytes", JInt 2);
      ("tsiz", JStr "010");
      ("a29_31", JStr "110");
      ("data_beat_count", JInt 1);
      ("source_table_lane_marks", JList [JInt 2; JInt 3]);
      ("source_table_lane_cells", JList [JStr "—"; JStr "—"; JStr "A"; JStr "A"; JStr "x"; JStr "x"; JStr "x"; JStr "x"])];
     JObj [("transfer_size_bytes", JInt 4);
      ("tsiz", JStr "100");
      ("a29_31", JStr "000");
      ("data_beat_count", JInt 1);
      ("source_table_lane_marks", JList [JInt 0; JInt 1; JInt 2; JInt 3]);
      ("source_table_lane_cells", JList [JStr "A"; JStr "A"; JStr "A"; JStr "A"; JStr "x"; JStr "x"; JStr "x"; JStr "x"])];
     JObj [("transfer_size_bytes", JInt 4);
      ("tsiz", JStr "100");
      ("a29_31", JStr "100");
      ("data_beat_count", JInt 1);
      ("source_table_lane_marks", JList [JInt 0; JInt 1; JInt 2; JInt 3]);
      ("source_table_lane_cells", JList [JStr "A"; JStr "A"; JStr "A"; JStr "A"; JStr "x"; JStr "x"; JStr "x"; JStr "x"])];
     JObj [("transfer_size_bytes", JInt 8);
      ("tsiz", JStr "000");
      ("a29_31", JStr "000");
      ("data_beat_count", JInt 2);
      ("source_table_lane_marks", JList [JInt 0; JInt 1; JInt 2; JInt 3]);
      ("source_table_lane_cells", JList [JStr "A"; JStr "A"; JStr "A"; JStr "A"; JStr "x"; JStr "x"; JStr "x"; JStr "x"]);
      ("source_table_data_beats", JList [JObj [("sequence", JStr "first");
        ("source_table_row_label", JStr "Double word");
        ("tsiz", JStr "000");
        ("a29_31", JStr "000");
        ("transfer_bytes", JInt 4);
        ("source_table_data_bits", JStr "DH[0:31]");
        ("source_table_lane_marks", JList [JInt 0; JInt 1; JInt 2; JInt 3]);
        ("source_table_lane_cells", JList [JStr "A"; JStr "A"; JStr "A"; JStr "A"; JStr "x"; JStr "x"; JStr "x"; JStr "x"])];
       JObj [("sequence", JStr "second");
        ("source_table_row_label", JStr "Second beat");
        ("tsiz", JStr "000");
        ("a29_31", JStr "000");
        ("transfer_bytes", JInt 4);
        ("source_table_data_bits", JStr "DH[0:31]");
        ("source_table_lane_marks", JList [JInt 0; JInt 1; JInt 2; JInt 3]);
        ("source_table_lane_cells", JList [JStr "A"; JStr "A"; JStr "A"; JStr "A"; JStr "x"; JStr "x"; JStr "x"; JStr "x"])]])]]);
    ("table_8_7_four_byte_cases", JList [JObj [("start_a29_31", JStr "000");
      ("alignment", JStr "aligned");
      ("accesses", JList [JObj [("sequence", JStr "only");
        ("address_delta_bytes", JInt 0);
        ("transfer_size_bytes", JInt 4);
        ("tsiz", JStr "100");
        ("a29_31", JStr "000");
        ("data_beat_count", JInt 1);
        ("source_table_lane_marks", JList [JInt 0; JInt 1; JInt 2; JInt 3]);
        ("source_table_lane_cells", JList [JStr "A"; JStr "A"; JStr "A"; JStr "A"; JStr "x"; JStr "x"; JStr "x"; JStr "x"])]])];
     JObj [("start_a29_31", JStr "001");
      ("alignment", JStr "misaligned");
      ("accesses", JList [JObj [("sequence", JStr "first");
        ("address_delta_bytes", JInt 0);
        ("transfer_size_bytes", JInt 3);
        ("tsiz", JStr "011");
        ("a29_31", JStr "001");
        ("data_beat_count", JInt 1);
        ("source_table_lane_marks", JList [JInt 1; JInt 2; JInt 3]);
        ("source_table_lane_cells", JList [JStr ""; JStr "A"; JStr "A"; JStr "A"; JStr "x"; JStr "x"; JStr "x"; JStr "x"]);
        ("lane_cell_normalizations", JList [JObj [("lane", JInt 0);
          ("source_symbol", JStr "blank");
          ("provisional_normalized_symbol", JStr "—");
          ("source_conflict", JStr "T8-7-OFFSET001-FIRST-LANE0-SYMBOL")]])];
       JObj [("sequence", JStr "second");
        ("address_delta_bytes", JInt 3);
        ("transfer_size_bytes", JInt 1);
        ("tsiz", JStr "001");
        ("a29_31", JStr "100");
        ("data_beat_count", JInt 1);
        ("source_table_lane_marks", JList [JInt 0]);
        ("source_table_lane_cells", JList [JStr "A"; JStr "—"; JStr "—"; JStr "—"; JStr "x"; JStr "x"; JStr "x"; JStr "x"])]])];
     JObj [("start_a29_31", JStr "010");
      ("alignment", JStr "misaligned");
      ("accesses", JList [JObj [("sequence", JStr "first");
        ("address_delta_bytes", JInt 0);
        ("transfer_size_bytes", JInt 2);
        ("tsiz", JStr "010");
        ("a29_31", JStr "010");
        ("data_beat_count", JInt 1);
        ("source_table_lane_marks", JList [JInt 2; JInt 3]);
        ("source_table_lane_cells", JList [JStr "—"; JStr "—"; JStr "A"; JStr "A"; JStr "x"; JStr "x"; JStr "x"; JStr "x"])];
       JObj [("sequence", JStr "second");
        ("address_delta_bytes", JInt 2);
        ("transfer_size_bytes", JInt 2);
        ("tsiz", JStr "010");
        ("a29_31", JStr "100");
        ("data_beat_count", JInt 1);
        ("source_table_lane_marks", JList [JInt 0; JInt 1]);
        ("source_table_lane_cells", JList [JStr "A"; JStr "A"; JStr "—"; JStr "x"; JStr "x"; JStr "x"; JStr "x"; JStr "x"]);
        ("lane_cell_normalizations", JList [JObj [("lane", JInt 3);
          ("source_symbol", JStr "x");
          ("provisional_normalized_symbol", JStr "—");
          ("source_conflict", JStr "T8-7-OFFSET010-SECOND-LANE3-SYMBOL")]])]])];
     JObj [("start_a29_31", JStr "011");
      ("alignment", JStr "misaligned");
      ("accesses", JList [JObj [("sequence", JStr "first");
        ("address_delta_bytes", JInt 0);
        ("transfer_size_bytes", JInt 1);
        ("tsiz", JStr "001");
        ("a29_31", JStr "011");
        ("data_beat_count", JInt 1);
        ("source_table_lane_marks", JList [JInt 3]);
        ("source_table_lane_cells", JList [JStr "—"; JStr "—"; JStr "—"; JStr "A"; JStr "x"; JStr "x"; JStr "x"; JStr "x"])];
       JObj [("sequence", JStr "second");
        ("address_delta_bytes", JInt 1);
        ("transfer_size_bytes", JInt 3);
        ("tsiz", JStr "011");
        ("a29_31", JStr "100");
        ("data_beat_count", JInt 1);
        ("source_table_lane_marks", JList [JInt 0; JInt 1; JInt 2]);
        ("source_table_lane_cells", JList [JStr "A"; JStr "A"; JStr "A"; JStr "—"; JStr "x"; JStr "x"; JStr "x"; JStr "x"])]])];
     JObj [("start_a29_31", JStr "100");
      ("alignment", JStr "aligned");
      ("accesses", JList [JObj [("sequence", JStr "only");
        ("address_delta_bytes", JInt 0);
        ("transfer_size_bytes", JInt 4);
        ("tsiz", JStr "100");
        ("a29_31", JStr "100");
        ("data_beat_count", JInt 1);
        ("source_table_lane_marks", JList [JInt 0; JInt 1; JInt 2; JInt 3]);
        ("source_table_lane_cells", JList [JStr "A"; JStr "A"; JStr "A"; JStr "A"; JStr "x"; JStr "x"; JStr "x"; JStr "x"])]])];
     JObj [("start_a29_31", JStr "101");
      ("alignment", JStr "misaligned");
      ("accesses", JList [JObj [("sequence", JStr "first");
        ("address_delta_bytes", JInt 0);
        ("transfer_size_bytes", JInt 3);
        ("tsiz", JStr "011");
        ("a29_31", JStr "101");
        ("data_beat_count", JInt 1);
        ("source_table_lane_marks", JList [JInt 1; JInt 2; JInt 3]);
        ("source_table_lane_cells", JList [JStr "—"; JStr "A"; JStr "A"; JStr "A"; JStr "x"; JStr "x"; JStr "x"; JStr "x"])];
       JObj [("sequence", JStr "second");
        ("address_delta_bytes", JInt 3);
        ("transfer_size_bytes", JInt 1);
        ("tsiz", JStr "001");
        ("a29_31", JStr "000");
        ("data_beat_count", JInt 1);
        ("source_table_lane_marks", JList [JInt 0]);
        ("source_table_lane_cells", JList [JStr "A"; JStr "—"; JStr "—"; JStr "—"; JStr "x"; JStr "x"; JStr "x"; JStr "x"])]])];
     JObj [("start_a29_31", JStr "110");
      ("alignment", JStr "misaligned");
      ("accesses", JList [JObj [("sequence", JStr "first");
        ("address_delta_bytes", JInt 0);
        ("transfer_size_bytes", JInt 2);
        ("tsiz", JStr "010");
        ("a29_31", JStr "110");
        ("data_beat_count", JInt 1);
        ("source_table_lane_marks", JList [JInt 2; JInt 3]);
        ("source_table_lane_cells", JList [JStr "—"; JStr "—"; JStr "A"; JStr "A"; JStr "x"; JStr "x"; JStr "x"; JStr "x"])];
       JObj [("sequence", JStr "second");
        ("address_delta_bytes", JInt 2);
        ("transfer_size_bytes", JInt 2);
        ("tsiz", JStr "010");
        ("a29_31", JStr "000");
        ("data_beat_count", JInt 1);
        ("source_table_lane_marks", JList [JInt 0; JInt 1]);
        ("source_table_lane_cells", JList [JStr "A"; JStr "A"; JStr "—"; JStr "—"; JStr "x"; JStr "x"; JStr "x"; JStr "x"])]])];
     JObj [("start_a29_31", JStr "111");
      ("alignment", JStr "misaligned");
      ("accesses", JList [JObj [("sequence", JStr "first");
        ("address_delta_bytes", JInt 0);
        ("transfer_size_bytes", JInt 1);
        ("tsiz", JStr "001");
        ("a29_31", JStr "111");
        ("data_beat_count", JInt 1);
        ("source_table_lane_marks", JList [JInt 3]);
        ("source_table_lane_cells", JList [JStr "—"; JStr "—"; JStr "—"; JStr "A"; JStr "x"; JStr "x"; JStr "x"; JStr "x"])];
       JObj [("sequence", JStr "second");
        ("address_delta_bytes", JInt 1);
        ("transfer_size_bytes", JInt 3);
        ("tsiz", JStr "011");
        ("a29_31", JStr "000");
        ("data_beat_count", JInt 1);
        ("source_table_lane_marks", JList [JInt 0; JInt 1; JInt 2]);
        ("source_table_lane_cells", JList [JStr "A"; JStr "A"; JStr "A"; JStr "—"; JStr "x"; JStr "x"; JStr "x"; JStr "x"])]])]])].
