(* ===== verification/BusDecode.v ===== *)
(** * Bus encodings ([sim/tools/bus_decode.py])

    Validation of the encoding manifest, and the queries over it: a TT code and a
    TBST/TSIZ combination. The manifest is an argument; reading it is left out. *)
From stdpp Require Import pretty.
From Stdlib Require Import Ascii.
From S2P Require Import Prelude Json.

Module bus_decode.
Import json.
#[local] Open Scope string_scope.
#[local] Open Scope Z_scope.

(** [set(value) - chars] *)
Definition only (chars : list ascii) (s : string) : bool :=
  forallb (fun c => existsb (Ascii.eqb c) chars) (String.list_ascii_of_string s).

Definition _bits (value : json) (width : nat) (field : string) : result string :=
  match value with
  | JStr s => require! (String.length s =? width)%nat && only ["0"; "1"]%char s else DecodeError field in Ok s
  | _ => Raise (DecodeError field)
  end.
Definition _pattern (value : json) (width : nat) (field : string) : result string :=
  match value with
  | JStr s => require! (String.length s =? width)%nat && only ["0"; "1"; "X"]%char s else DecodeError field in Ok s
  | _ => Raise (DecodeError field)
  end.

(** [all(... for expected, actual in zip(pattern, bits))] *)
Fixpoint pattern_matches (pattern bits : string) : bool :=
  match pattern, bits with
  | String expected p, String actual b => (Ascii.eqb expected "X" || Ascii.eqb expected actual) && pattern_matches p b
  | _, _ => true
  end.

Definition choices (c : ascii) : list ascii := if Ascii.eqb c "X" then ["0"; "1"]%char else [c].
Definition expand_pattern (pattern : string) : list string :=
  fold_left (fun expanded c => concat (map (fun prefix => map (fun d => prefix +:+ String d "") (choices c)) expanded))
            (String.list_ascii_of_string pattern) [""].

Definition allowed_actions : list string :=
  ["not_applicable"; "kill_cancel_reservation"; "flush_cancel_reservation"; "clean_or_flush"; "flush"; "clean"].

(** ** Validation *)

(** The positions of the don't-care bits. *)
Definition expected_dc (pattern : string) : json :=
  JList (map (fun p => JInt (fst p)) (List.filter (fun p => Ascii.eqb (snd p) "X") (enumerate 0 (String.list_ascii_of_string pattern)))).

(** [expanded[code] = row] unless the code is taken. *)
Definition code_step (row : json) (expanded : dict json) (code : string) : result (dict json) :=
  if dict_mem expanded code then Raise (DecodeError "overlapping TT patterns") else Ok (expanded ++ [(code, row)])%list.

Definition row_step (expanded : dict json) (row : json) : result (dict json) :=
  let! value := get row "pattern" in
  let! pattern := _pattern value 5 "TT pattern" in
  let! dc := get row "dont_care_bits" in
  require! py_eq dc (expected_dc pattern) else DecodeError "dont_care_bits disagrees with X positions" in
  let! status := get row "status" in
  let! known := in_set status ["defined"; "reserved"] in
  require! known else DecodeError "invalid TT status" in
  let! action := get row "snoop_action" in
  let! allowed := in_set action allowed_actions in
  require! allowed else DecodeError "invalid snoop action" in
  let! status := item row "status" in
  let! command := (if py_eq status (JStr "reserved") then get row "command" else Ok (JStr "reserved")) in
  require! py_eq command (JStr "reserved") else DecodeError "reserved encoding has a defined command" in
  fold_res (code_step row) expanded (expand_pattern pattern).

(** [{f"{value:05b}" for value in range(32)}] *)
Definition codes : list string := map (bin 5) (seqZ 0 32).

Definition covers (expanded : dict json) : bool :=
  forallb (dict_mem expanded) codes && forallb (fun p => str_in (fst p) codes) expanded.

Definition override_step (expanded : dict json) (u : unit) (override : json) : result unit :=
  let! value := get override "pattern" in
  let! pattern := _bits value 5 "ABE override pattern" in
  let! base := (match dict_get expanded pattern with Some row => Ok row | None => Raise KeyError end) in
  let! status := item base "status" in
  let! agrees := (if py_eq status (JStr "defined") then
                    let! command := item base "command" in
                    let! command' := get override "command" in Ok (py_eq command command')
                  else Ok false) in
  require! agrees else DecodeError "ABE override disagrees with base command" in
  let! master := get_or override "master" (JObj []) in
  let! generation := get master "generation" in
  require! py_eq generation (JStr "generated") else DecodeError "ABE override must generate a transaction" in
  Ok tt.

(** The members of a set of strings. *)
Definition distinct (l : list string) : list string := nodup String.string_dec l.

Definition size_step (seen_sizes : list (string * string)) (entry : json) : result (list (string * string)) :=
  let! tbst := get entry "tbst" in
  let! known := in_set tbst ["asserted"; "negated"] in
  require! known else DecodeError "TBST must use logical asserted/negated state" in
  let! value := get entry "tsiz" in
  let! tsiz := _bits value 3 "TSIZ" in
  let! tbst := item entry "tbst" in
  let key := (match tbst with JStr s => s | _ => "" end, tsiz) in
  require! negb (bool_decide (key ∈ seen_sizes)) else DecodeError "duplicate size combination" in
  let! status := get entry "status" in
  let! bad := (if py_eq status (JStr "defined") then
                 let! size := get_or entry "transfer_size_bytes" (JInt 0) in
                 let! n := int size in Ok (negb ((1 <=? n) && (n <=? 32)))
               else Ok true) in
  require! negb bad else DecodeError "bad size entry" in
  Ok (seen_sizes ++ [key])%list.

Definition expected_sizes : list (string * string) :=
  ("asserted", "010") :: map (fun value => ("negated", bin 3 value)) (seqZ 0 8).
(** [seen_sizes == expected_sizes], as sets *)
Definition same_sizes (seen : list (string * string)) : bool :=
  forallb (fun k => bool_decide (k ∈ expected_sizes)) seen && forallb (fun k => bool_decide (k ∈ seen)) expected_sizes.

(** The tables a manifest completes, as a set. *)
Definition check_tables (spec : json) : result unit :=
  let! tables := get_or spec "tables_completed" (JList []) in
  let! l := items tables in
  let! completed := map_res (fun entry => let! t := item entry "table" in if hashable t then Ok t else Raise TypeError) l in
  let expected := ["7-1"; "7-2"; "7-3"; "7-5"] in
  require! forallb (fun t => existsb (fun s => py_eq t (JStr s)) expected) completed
           && forallb (fun s => existsb (fun t => py_eq t (JStr s)) completed) expected
  else DecodeError "tables_completed must be exactly 7-1, 7-2, 7-3, and 7-5" in
  Ok tt.

(** [sum(row["status"] == status for row in rows)] *)
Definition status_count (status : string) (rows : list json) : result Z :=
  let! l := map_res (fun row => let! s := item row "status" in Ok (py_eq s (JStr status))) rows in Ok (count_true l).
Definition generated_count (rows : list json) : result Z :=
  let! l := map_res (fun row => let! master := item row "master" in let! g := item master "generation" in
                                Ok (py_eq g (JStr "generated"))) rows in Ok (count_true l).

Definition validate (spec : json) : result json :=
  let! version := get spec "schema_version" in
  require! py_eq version (JInt 1) else DecodeError "unsupported schema_version" in
  let! _ := check_tables spec in
  let! commands := get_or spec "tt_commands" (JList []) in
  let! rows := items commands in
  let! expanded := fold_res row_step [] rows in
  require! covers expanded else DecodeError "TT patterns do not cover all 32 codes" in
  let! value := get_or spec "pid7v_abe_overrides" (JList []) in
  let! overrides := items value in
  let! _ := fold_res (override_step expanded) tt overrides in
  let! patterns := map_res (fun override => item override "pattern") overrides in
  let names := map (fun x => match x with JStr s => s | _ => "" end) patterns in
  require! (length (distinct names) =? length overrides)%nat else DecodeError "duplicate PID7v ABE override" in
  let! sizes := get_or spec "transfer_sizes" (JObj []) in
  let! value := get_or sizes "listed_combinations" (JList []) in
  let! combinations := items value in
  let! seen_sizes := fold_res size_step [] combinations in
  require! same_sizes seen_sizes else DecodeError "Table 7-5 combinations are incomplete or contain unlisted values" in
  let! defined := status_count "defined" (map snd expanded) in
  let! reserved := status_count "reserved" (map snd expanded) in
  let! generated := generated_count rows in
  let n {A} (l : list A) := JInt (Z.of_nat (length l)) in
  let counts :=
    JObj [("tt_pattern_rows", n rows); ("tt_expanded_codes", n expanded); ("tt_defined_expanded_codes", JInt defined);
          ("tt_reserved_expanded_codes", JInt reserved); ("generic_master_generated_commands", JInt generated);
          ("pid7v_abe_overrides", n overrides); ("listed_size_combinations", n combinations)] in
  let! expected := get spec "expected_counts" in
  require! py_eq counts expected else DecodeError "count mismatch" in
  Ok counts.

(** ** Queries *)

(** The rows a code matches. *)
Definition matching_rows (rows : list json) (bits : string) : result (list json) :=
  let! l := map_res (fun row => let! p := item row "pattern" in
                                match p with JStr s => Ok (pattern_matches s bits, row) | _ => Raise TypeError end) rows in
  Ok (map snd (List.filter fst l)).

(** [next((x for x in l if p(x)), None)] *)
Fixpoint first_res (p : json -> result bool) (l : list json) : result (option json) :=
  match l with
  | [] => Ok None
  | x :: l' => let! b := p x in if b : bool then Ok (Some x) else first_res p l'
  end.

(** [{"generated": ..., ...}[generation]] *)
Definition generation_status (generation : json) : result json :=
  if hashable generation then
    match find (fun p => py_eq generation (JStr (fst p)))
               [("generated", "supported"); ("not_generated", "unsupported_by_profile"); ("reserved", "reserved_encoding")] with
    | Some p => Ok (JStr (snd p))
    | None => Raise KeyError
    end
  else Raise TypeError.

(** What the master generates: the row's entry, or its ABE override. *)
Definition master_of (spec row : json) (bits : string) (pid7v_abe : bool) : result json :=
  let! master := item row "master" in
  if pid7v_abe then
    let! value := item spec "pid7v_abe_overrides" in
    let! overrides := items value in
    let! override := first_res (fun x => let! p := item x "pattern" in Ok (py_eq p (JStr bits))) overrides in
    match override with Some x => item x "master" | None => Ok master end
  else Ok master.

(** What is said of the row a code matched, to the bus, the master or a snooper. *)
Definition describe_row (spec row : json) (bits role : string) (pid7v_abe : bool) : result json :=
  let! pattern := item row "pattern" in
  let! dc := item row "dont_care_bits" in
  let! status := item row "status" in
  let! command := item row "command" in
  let! manual := item row "manual_command" in
  let! transaction := item row "bus_transaction" in
  let base :=
    [("input_bits", JStr bits); ("matched_pattern", pattern); ("dont_care_bits", dc); ("encoding_status", status);
     ("command", command); ("manual_command", manual); ("bus_transaction", transaction); ("role", JStr role)] in
  if String.eqb role "master" then
    let! master := master_of spec row bits pid7v_abe in
    let! generation := item master "generation" in
    let! supported := generation_status generation in
    Ok (JObj (update base [("profile", JStr (if pid7v_abe then "pid7v_abe" else "generic_603e")); ("master", master);
                           ("generation_status", supported)]))
  else if String.eqb role "snoop" then
    let! action := item row "snoop_action" in Ok (JObj (set_key base "action_on_hit" action))
  else Ok (JObj base).

Definition decode_tt (bits role : string) (pid7v_abe : bool) (spec : json) : result json :=
  let! _ := validate spec in
  let! bits := _bits (JStr bits) 5 "TT" in
  require! str_in role ["bus"; "master"; "snoop"] else DecodeError "role must be bus, master, or snoop" in
  require! negb (pid7v_abe && negb (String.eqb role "master")) else DecodeError "pid7v_abe affects master generation only" in
  let! commands := item spec "tt_commands" in
  let! rows := items commands in
  let! matches := matching_rows rows bits in
  match matches with
  | [row] => describe_row spec row bits role pid7v_abe
  | _ => Raise (DecodeError "TT matched several patterns")
  end.

(** [str(x)] of the sizes *)
Definition py_str (x : json) : string :=
  match x with JInt z => pretty z | JBool true => "True" | JBool false => "False" | JStr s => s | _ => "" end.

(** [int(bits, 2)] *)
Definition of_bits (bits : string) : Z :=
  fold_left (fun n c => 2 * n + (if Ascii.eqb c "1" then 1 else 0)) (String.list_ascii_of_string bits) 0.

(** The mode fields of a listed combination. *)
Definition defined_mode (beats : json) : list (string * json) :=
  [("mode_status", JStr "defined_for_table_7_5_bus_transfer"); ("data_beats", beats)].
Definition mode_fields (sizes entry : json) (bus_width : Z) : result (list (string * json)) :=
  let! rules := item sizes "mode_rules" in
  let! mode := item rules (pretty bus_width) in
  let! kind := item entry "kind" in
  if py_eq kind (JStr "cache_line_burst") then
    let! beats := item mode "cache_line_burst_beats" in Ok (defined_mode beats)
  else if bus_width =? 64 then Ok (defined_mode (JInt 1))
  else
    let! by_size := item mode "nonburst_beats_by_size" in
    let! size := item entry "transfer_size_bytes" in
    let! beats := get by_size (py_str size) in
    Ok (match beats with
        | JNull => [("mode_status", JStr "unresolved_without_alignment_tables"); ("data_beats", JNull)]
        | _ => defined_mode beats
        end).

Definition decode_size (tbst tsiz : string) (bus_width : Z) (context : string) (spec : json) : result json :=
  let! _ := validate spec in
  require! str_in tbst ["asserted"; "negated"] else DecodeError "TBST must be asserted or negated" in
  let! tsiz := _bits (JStr tsiz) 3 "TSIZ" in
  require! (bus_width =? 32) || (bus_width =? 64) else DecodeError "bus_width must be 32 or 64" in
  require! str_in context ["memory"; "address_only"; "external_control"]
  else DecodeError "context must be memory, address_only, or external_control" in
  let base := [("tbst", JStr tbst); ("tsiz", JStr tsiz); ("bus_width", JInt bus_width); ("context", JStr context)] in
  let! sizes := item spec "transfer_sizes" in
  let! overrides := item sizes "context_overrides" in
  if String.eqb context "address_only" then
    let! meaning := item overrides "address_only" in
    Ok (JObj (update base [("status", JStr "not_applicable"); ("meaning", meaning)]))
  else if String.eqb context "external_control" then
    let resource_bits := (if String.eqb tbst "asserted" then "0" else "1") +:+ tsiz in
    let! meaning := item overrides "external_control" in
    Ok (JObj (update base [("status", JStr "defined_resource_id"); ("meaning", meaning);
                           ("resource_id_bits", JStr resource_bits); ("resource_id", JInt (of_bits resource_bits))]))
  else
    let! value := item sizes "listed_combinations" in
    let! combinations := items value in
    let! entry := first_res (fun entry => let! t := item entry "tbst" in
                                          if py_eq t (JStr tbst) then let! z := item entry "tsiz" in Ok (py_eq z (JStr tsiz)) else Ok false)
                            combinations in
    match entry with
    | None =>
        Ok (JObj (update base [("status", JStr "unlisted");
                               ("meaning", JStr "This TBST/TSIZ combination is absent from Table 7-5; do not infer a transfer size.");
                               ("transfer_size_bytes", JNull); ("data_beats", JNull)]))
    | Some entry =>
        let fields := match entry with JObj d => d | _ => [] end in
        let! mode := mode_fields sizes entry bus_width in
        Ok (JObj (update (update (update base fields) [("address_alignment_status", JStr "not_checked");
                                                      ("program_access_decomposition_status", JStr "not_checked")]) mode))
    end.

End bus_decode.

Import json bus_decode.

(** ** Expansion of a pattern *)
Lemma fold_res_invariant {A B} (P : list B -> A -> Prop) (f : A -> B -> result A) l a a' :
  P [] a -> (forall pre x u w, P pre u -> f u x = Ok w -> P (pre ++ [x])%list w) -> fold_res f a l = Ok a' -> P l a'.
Proof.
  intros H0 Hf. change l with ([] ++ l)%list at 2. revert a H0. generalize (@nil B) as pre.
  induction l as [| x l IH]; intros pre a H; cbn [fold_res]; [intros [= <-]; rewrite app_nil_r; exact H |].
  destruct (f a x) as [u |] eqn:E; [| discriminate]. intros Hr.
  specialize (IH (pre ++ [x])%list u (Hf _ _ _ _ H E) Hr). rewrite <- app_assoc in IH. exact IH.
Qed.

Definition chars : string -> list ascii := String.list_ascii_of_string.
(** [code] spells [pattern], one of the choices at each position. *)
Definition spells (pattern code : string) : Prop := Forall2 (fun c d => In d (choices c)) (chars pattern) (chars code).

Lemma chars_app a b : chars (a +:+ b) = (chars a ++ chars b)%list.
Proof. induction a as [| c a IH]; [reflexivity |]. change (chars (String c a +:+ b)) with (c :: chars (a +:+ b)). rewrite IH. reflexivity. Qed.
Lemma chars_inj a b : chars a = chars b -> a = b.
Proof. intros H. rewrite <- (String.string_of_list_ascii_of_string a), <- (String.string_of_list_ascii_of_string b). unfold chars in H. congruence. Qed.
Lemma chars_length a : length (chars a) = String.length a.
Proof. unfold chars. induction a as [| c a IH]; [reflexivity |]. cbn. f_equal. exact IH. Qed.

Lemma in_expand pattern code : In code (expand_pattern pattern) <-> spells pattern code.
Proof.
  unfold expand_pattern, spells. fold (chars pattern).
  assert (H : forall l acc, In code (fold_left (fun expanded c => concat (map (fun prefix => map (fun d => prefix +:+ String d "") (choices c)) expanded)) l acc) <->
                 exists prefix, In prefix acc /\ exists ds, chars code = (chars prefix ++ ds)%list /\ Forall2 (fun c d => In d (choices c)) l ds).
  { induction l as [| c l IH]; intros acc; cbn [fold_left].
    - split.
      + intros Hi. exists code. split; [exact Hi |]. exists []. rewrite app_nil_r. auto.
      + intros (prefix & Hi & ds & E & Hd). inversion Hd; subst. rewrite app_nil_r in E. apply chars_inj in E. subst. exact Hi.
    - rewrite IH. split.
      + intros (prefix & Hi & ds & E & Hd). apply in_concat in Hi as (l0 & Hl0 & Hi). apply in_map_iff in Hl0 as (p0 & <- & Hp0).
        apply in_map_iff in Hi as (d & <- & Hd0). exists p0. split; [exact Hp0 |]. exists (d :: ds).
        rewrite chars_app, <- app_assoc in E. split; [exact E | constructor; assumption].
      + intros (p0 & Hp0 & ds & E & Hd). inversion Hd as [| ? d ? ds' Hd0 Hds]; subst. exists (p0 +:+ String d "").
        split; [apply in_concat; eexists; split; [apply in_map_iff; exists p0; split; [reflexivity | exact Hp0] | apply in_map_iff; exists d; auto] |].
        exists ds'. rewrite chars_app, <- app_assoc. auto. }
  rewrite H. split.
  - intros (prefix & [<- | []] & ds & E & Hd). cbn in E. rewrite E. exact Hd.
  - intros Hd. exists "". split; [left; reflexivity |]. exists (chars code). auto.
Qed.

(** A valid code matches a pattern of its length exactly when it is one of its expansions. *)
Lemma matches_spells pattern bits :
  only ["0"; "1"; "X"]%char pattern = true -> only ["0"; "1"]%char bits = true -> String.length pattern = String.length bits ->
  pattern_matches pattern bits = true <-> spells pattern bits.
Proof.
  unfold spells. revert bits. induction pattern as [| c p IH]; intros [| d b] Hp Hb Hl; cbn in Hl |- *; try discriminate;
    [split; auto; constructor |].
  cbn in Hp, Hb. apply andb_true_iff in Hp as [Hc Hp], Hb as [Hd Hb]. injection Hl as Hl. specialize (IH b Hp Hb Hl).
  rewrite andb_true_iff, IH. unfold chars. rewrite Forall2_cons. apply and_iff_compat_r. unfold choices.
  destruct (Ascii.eqb_spec c "X") as [-> | Hx]; cbn [orb].
  - destruct (Ascii.eqb_spec d "0") as [-> |]; cbn in Hd |- *; [tauto |].
    destruct (Ascii.eqb_spec d "1") as [-> |]; [tauto | discriminate].
  - rewrite Ascii.eqb_eq. cbn. split; [intros ->; auto | intros [-> | []]; reflexivity].
Qed.

(** ** What validation establishes *)
Lemma dict_get_None_notin {V} (d : dict V) k v : dict_get d k = None -> ~ In (k, v) d.
Proof.
  induction d as [| [k' w] d IH]; cbn; [auto |]. destruct (String.eqb_spec k k') as [-> | Hne]; [discriminate |].
  intros H [[= -> ->] | Hi]; [exact (Hne eq_refl) | exact (IH H Hi)].
Qed.

(** The pattern of a row, a valid one. *)
Definition has_pattern (row : json) (p : string) : Prop :=
  item row "pattern" = Ok (JStr p) /\ String.length p = 5%nat /\ only ["0"; "1"; "X"]%char p = true.
Definition row_pattern (row : json) : string := match item row "pattern" with Ok (JStr p) => p | _ => "" end.

Lemma item_of_get x k v : get x k = Ok v -> v <> JNull -> item x k = Ok v.
Proof.
  unfold get, get_or, item. destruct x; try discriminate. destruct (dict_get d k) as [w |]; cbn; [auto |]. intros [= <-] []. reflexivity.
Qed.
Lemma _pattern_ok v n field p : _pattern v n field = Ok p -> v = JStr p /\ String.length p = n /\ only ["0"; "1"; "X"]%char p = true.
Proof.
  unfold _pattern. destruct v as [| | | s | |]; try discriminate. case_if; [| discriminate]. intros [= <-].
  apply andb_true_iff in E as [H1 H2]. apply Nat.eqb_eq in H1. auto.
Qed.
Lemma _bits_ok v n field p : _bits v n field = Ok p -> v = JStr p /\ String.length p = n /\ only ["0"; "1"]%char p = true.
Proof.
  unfold _bits. destruct v as [| | | s | |]; try discriminate. case_if; [| discriminate]. intros [= <-].
  apply andb_true_iff in E as [H1 H2]. apply Nat.eqb_eq in H1. auto.
Qed.

(** The codes of a pattern enter the table in order, each once. *)
Lemma codes_entered row l e e' :
  NoDup (map fst e) -> fold_res (code_step row) e l = Ok e' ->
  e' = (e ++ map (fun c => (c, row)) l)%list /\ NoDup (map fst e').
Proof.
  intros Hd. apply (fold_res_invariant (fun pre u => u = (e ++ map (fun c => (c, row)) pre)%list /\ NoDup (map fst u))).
  - cbn. rewrite app_nil_r. auto.
  - intros pre c u w [-> Hu]. unfold code_step. destruct (dict_mem _ c) eqn:E; [discriminate |]. intros [= <-].
    split; [rewrite map_app, <- app_assoc; reflexivity |]. rewrite map_app. cbn. apply NoDup_app. split; [exact Hu |].
    split; [| apply NoDup_singleton]. intros x Hx Hc. apply list_elem_of_singleton in Hc as ->.
    apply list_elem_of_In, in_map_iff in Hx as ([c' r] & Ec & Hi). cbn in Ec. subst c'.
    unfold dict_mem in E. destruct (dict_get _ c) eqn:Eg; [discriminate |].
    apply dict_get_None_notin with (v := r) in Eg. exact (Eg Hi).
Qed.

Definition row_codes (row : json) : list string := expand_pattern (row_pattern row).
Lemma row_step_ok e row e' :
  NoDup (map fst e) -> row_step e row = Ok e' ->
  (exists p, has_pattern row p) /\ map fst e' = (map fst e ++ row_codes row)%list /\ NoDup (map fst e').
Proof.
  intros Hd H. unfold row_step in H. py_inv H.
  match goal with H : _pattern _ 5 _ = Ok ?p |- _ => apply _pattern_ok in H as (-> & Hl & Ho); rename p into pattern end.
  assert (Hp : has_pattern row pattern) by (split; [apply item_of_get; [assumption | discriminate] | auto]).
  destruct (codes_entered _ _ _ _ Hd H) as [-> Hn].
  split; [exists pattern; exact Hp |]. split; [| exact Hn].
  rewrite map_app, map_map. cbn [fst]. rewrite map_id. unfold row_codes, row_pattern. destruct Hp as [-> _]. reflexivity.
Qed.

Lemma rows_entered rows e :
  fold_res row_step [] rows = Ok e ->
  Forall (fun row => exists p, has_pattern row p) rows /\ map fst e = concat (map row_codes rows) /\ NoDup (map fst e).
Proof.
  apply (fold_res_invariant (fun pre u => Forall (fun row => exists p, has_pattern row p) pre /\ map fst u = concat (map row_codes pre) /\
           NoDup (map fst u))).
  - repeat constructor.
  - intros pre row u w (H1 & H2 & H3) Hs. destruct (row_step_ok _ _ _ H3 Hs) as (Hp & E & Hn).
    split; [apply Forall_app; auto |]. split; [| exact Hn].
    rewrite map_app, concat_app. cbn. rewrite app_nil_r, E, H2. reflexivity.
Qed.

Definition row_matches (bits : string) (row : json) : bool := pattern_matches (row_pattern row) bits.
Definition tt_code (bits : string) : bool := (String.length bits =? 5)%nat && only ["0"; "1"]%char bits.

Lemma row_matches_codes bits row :
  tt_code bits = true -> (exists p, has_pattern row p) -> row_matches bits row = true <-> In bits (row_codes row).
Proof.
  intros Hb (p & Hp & Hl & Ho). apply andb_true_iff in Hb as [Hn Hb]. apply Nat.eqb_eq in Hn.
  unfold row_matches, row_codes, row_pattern. rewrite Hp, in_expand. apply matches_spells; congruence.
Qed.

Lemma no_match bits rows :
  tt_code bits = true -> Forall (fun row => exists p, has_pattern row p) rows -> ~ In bits (concat (map row_codes rows)) ->
  List.filter (row_matches bits) rows = [].
Proof.
  intros Hb Hr. induction Hr as [| row rows Hp Hr IH]; cbn; [reflexivity |]. intros Hn. rewrite in_app_iff in Hn.
  destruct (row_matches bits row) eqn:E; [apply row_matches_codes in E; tauto |]. apply IH. tauto.
Qed.
Lemma unique_match bits rows :
  tt_code bits = true -> Forall (fun row => exists p, has_pattern row p) rows -> NoDup (concat (map row_codes rows)) ->
  In bits (concat (map row_codes rows)) -> exists row, List.filter (row_matches bits) rows = [row].
Proof.
  intros Hb Hr. induction Hr as [| row rows Hp Hr IH]; cbn; [tauto |]. intros Hd Hi.
  apply NoDup_app in Hd as (Hd1 & Hdis & Hd2). apply in_app_iff in Hi.
  destruct (row_matches bits row) eqn:E.
  - exists row. rewrite (no_match bits rows Hb Hr); [reflexivity |].
    apply row_matches_codes in E; [| assumption ..]. intros Hi'. apply (Hdis bits); apply list_elem_of_In; assumption.
  - apply IH; [exact Hd2 |]. destruct Hi as [Hi | Hi]; [| exact Hi].
    apply row_matches_codes in Hi; [congruence | assumption ..].
Qed.

Lemma matching_rows_filter rows bits :
  Forall (fun row => exists p, has_pattern row p) rows -> matching_rows rows bits = Ok (List.filter (row_matches bits) rows).
Proof.
  intros Hr. unfold matching_rows.
  assert (H : map_res (fun row => let! p := item row "pattern" in match p with JStr s => Ok (pattern_matches s bits, row) | _ => Raise TypeError end) rows
              = Ok (map (fun row => (row_matches bits row, row)) rows)).
  { induction Hr as [| row rows (p & Hp & _) Hr IH]; cbn; [reflexivity |]. unfold row_matches, row_pattern at 1. rewrite Hp, IH. reflexivity. }
  rewrite H. f_equal. clear H Hr. induction rows as [| row rows IH]; cbn; [reflexivity |]. destruct (row_matches bits row); cbn; congruence.
Qed.

(** The rows of a manifest. *)
Definition tt_rows (spec : json) : result (list json) := let! commands := item spec "tt_commands" in items commands.

Lemma in_codes bits : tt_code bits = true -> In bits codes.
Proof.
  unfold tt_code. intros H. apply andb_true_iff in H as [Hl Ho]. apply Nat.eqb_eq in Hl. rewrite <- chars_length in Hl. unfold only in Ho. fold (chars bits) in Ho.
  assert (E : bits = String.string_of_list_ascii (chars bits)) by (symmetry; apply String.string_of_list_ascii_of_string).
  rewrite E. clear E. generalize dependent (chars bits). clear bits. intros l Hl Ho.
  do 5 (destruct l as [| ? l]; [discriminate Hl |]). destruct l; [| discriminate Hl].
  cbn [forallb existsb] in Ho. repeat (apply andb_true_iff in Ho as [? Ho]).
  repeat match goal with
         | H : (Ascii.eqb ?c _ || (Ascii.eqb ?c _ || false))%bool = true |- _ =>
             apply orb_true_iff in H; destruct H as [H | H]; [| rewrite orb_false_r in H]; apply Ascii.eqb_eq in H; subst c
         end; vm_compute; tauto.
Qed.

(** What a validated manifest has. *)
Record validated (spec : json) (rows : list json) (expanded : dict json) (overrides combinations : list json) (seen : list (string * string)) : Prop := {
  val_rows : tt_rows spec = Ok rows;
  val_table : fold_res row_step [] rows = Ok expanded;
  val_covers : covers expanded = true;
  val_overrides : fold_res (override_step expanded) tt overrides = Ok tt;
  val_override_list : forall x, item spec "pid7v_abe_overrides" = Ok x -> items x = Ok overrides;
  val_sizes : fold_res size_step [] combinations = Ok seen;
  val_same_sizes : same_sizes seen = true;
  val_combinations : exists sizes x, item spec "transfer_sizes" = Ok sizes /\ item sizes "listed_combinations" = Ok x /\ items x = Ok combinations
}.
Lemma get_or_item x k d v : get_or x k d = Ok v -> item x k = Ok v \/ v = d.
Proof.
  unfold get_or, item. destruct x; try discriminate. destruct (dict_get _ k); cbn; intros [= <-]; auto.
Qed.
Lemma item_get_or x k d v w : get_or x k d = Ok v -> item x k = Ok w -> w = v.
Proof.
  unfold get_or, item. destruct x; try discriminate. destruct (dict_get _ k); cbn; [congruence | discriminate].
Qed.

Lemma validate_ok spec counts :
  validate spec = Ok counts -> exists rows expanded overrides combinations seen, validated spec rows expanded overrides combinations seen.
Proof.
  unfold validate. intros H.
  destruct (get spec "schema_version") as [version |]; [| discriminate].
  destruct (py_eq version (JInt 1)); [| discriminate]. destruct (check_tables spec); [| discriminate].
  destruct (get_or spec "tt_commands" (JList [])) as [commands |] eqn:Ec; [| discriminate].
  destruct (items commands) as [rows |] eqn:Er; [| discriminate].
  destruct (fold_res row_step [] rows) as [expanded |] eqn:Ee; [| discriminate].
  destruct (covers expanded) eqn:Ek; [| discriminate].
  destruct (get_or spec "pid7v_abe_overrides" (JList [])) as [ov |] eqn:Eo; [| discriminate].
  destruct (items ov) as [overrides |] eqn:Eov; [| discriminate].
  destruct (fold_res (override_step expanded) tt overrides) as [[] |] eqn:Ef; [| discriminate].
  destruct (map_res _ overrides) as [patterns |]; [| discriminate].
  match type of H with (if ?b then _ else _) = _ => destruct b; [| discriminate] end.
  destruct (get_or spec "transfer_sizes" (JObj [])) as [sizes |] eqn:Es; [| discriminate].
  destruct (get_or sizes "listed_combinations" (JList [])) as [comb |] eqn:Em; [| discriminate].
  destruct (items comb) as [combinations |] eqn:Ei; [| discriminate].
  destruct (fold_res size_step [] combinations) as [seen |] eqn:En; [| discriminate].
  destruct (same_sizes seen) eqn:Eq; [| discriminate]. clear H.
  exists rows, expanded, overrides, combinations, seen. constructor; try assumption.
  - unfold tt_rows. apply get_or_item in Ec as [-> | ->]; [exact Er |]. cbn in Er. injection Er as <-. cbn in Ee. injection Ee as <-. discriminate Ek.
  - intros x Hx. rewrite <- (item_get_or _ _ _ _ _ Eo Hx) in Eov. exact Eov.
  - assert (Hne : comb <> JList []). { intros ->. cbn in Ei. injection Ei as <-. cbn in En. injection En as <-. discriminate Eq. }
    apply get_or_item in Em as [Em | ->]; [| destruct (Hne eq_refl)]. exists sizes, comb. split; [| auto].
    apply get_or_item in Es as [Es | ->]; [exact Es | discriminate Em].
Qed.

Definition tt_role (role : string) (pid7v_abe : bool) : bool :=
  str_in role ["bus"; "master"; "snoop"] && negb (pid7v_abe && negb (String.eqb role "master")).

(** C26. Every TT code has one answer. On a manifest that validates, exactly one
    row matches a five-bit code, and the query is the description of that row,
    for every role; a code, role or override outside the domain is a
    [DecodeError]. So the query never reports an ambiguous or missing pattern. *)
Theorem decode_tt_correct spec counts bits role pid7v_abe :
  validate spec = Ok counts ->
  if tt_code bits && tt_role role pid7v_abe then
    exists rows row, tt_rows spec = Ok rows /\ List.filter (row_matches bits) rows = [row] /\
      decode_tt bits role pid7v_abe spec = describe_row spec row bits role pid7v_abe
  else exists msg, decode_tt bits role pid7v_abe spec = Raise (DecodeError msg).
Proof.
  intros Hv. destruct (validate_ok _ _ Hv) as (rows & expanded & overrides & combinations & seen & V).
  unfold decode_tt. rewrite Hv. cbn [_bits]. fold (tt_code bits). destruct (tt_code bits) eqn:Hb; cbn [andb]; [| eauto].
  unfold tt_role. destruct (str_in role _); cbn [andb]; [| eauto]. destruct (negb (pid7v_abe && _)); [| eauto].
  destruct (rows_entered _ _ (val_table _ _ _ _ _ _ V)) as (Hr & Ek & Hd).
  pose proof (val_rows _ _ _ _ _ _ V) as Ht. pose proof (val_covers _ _ _ _ _ _ V) as Hc.
  assert (Hi : In bits (concat (map row_codes rows))).
  { rewrite <- Ek. apply andb_true_iff in Hc as [Hc _]. rewrite forallb_forall in Hc. apply dict_mem_In, Hc, in_codes, Hb. }
  rewrite Ek in Hd. destruct (unique_match bits rows Hb Hr Hd Hi) as (row & E). exists rows, row.
  split; [exact Ht |]. split; [exact E |]. unfold tt_rows in Ht. destruct (item spec "tt_commands") as [commands |]; [| discriminate].
  rewrite Ht, matching_rows_filter, E by exact Hr. reflexivity.
Qed.
