(* ===== verification/BusAddress.v ===== *)
(** * Bus addressing ([sim/tools/bus_address.py])

    Validation of the addressing manifest against the tables it transcribes, and
    the decomposition of a data access into bus transfers with their byte lanes.
    The manifest is an argument; reading it is left out. *)
From Stdlib Require Import Ascii.
From S2P Require Import Prelude Json.

Module bus_address.
Import json.
#[local] Open Scope string_scope.
#[local] Open Scope Z_scope.

Definition MAX_ADDRESS : Z := 0xFFFFFFFF.

Definition binary (s : string) : bool := forallb (fun c => Ascii.eqb c "0" || Ascii.eqb c "1") (String.list_ascii_of_string s).
Definition _bits (value : json) (width : nat) (field : string) : result string :=
  match value with
  | JStr s => require! (String.length s =? width)%nat && binary s else AddressError field in Ok s
  | _ => Raise (AddressError field)
  end.

(** [list(range(lo, hi))] *)
Definition lanes (lo hi : Z) : json := JList (map JInt (seqZ lo (hi - lo))).

(** The TSIZ code of a size; the sizes here are 1, 2, 3, 4 and 8. *)
Definition tsiz (size : Z) : string :=
  if size =? 1 then "001" else if size =? 2 then "010" else if size =? 3 then "011" else if size =? 4 then "100" else "000".

(** [range(0, 8, size)] *)
Definition offsets (size : Z) : list Z := map (fun k => k * size) (seqZ 0 (8 / size)).

(** ** The tables, reconstructed *)
Definition _expected_aligned_rows : list json :=
  concat (map (fun size => map (fun offset =>
    JObj [("transfer_size_bytes", JInt size); ("tsiz", JStr (tsiz size)); ("a29_31", JStr (bin 3 offset));
          ("source_table_lane_marks", lanes offset (offset + size))]) (offsets size)) [1; 2; 4; 8]).

Definition access_row (sequence : string) (delta size offset : Z) : list (string * json) :=
  [("sequence", JStr sequence); ("address_delta_bytes", JInt delta); ("transfer_size_bytes", JInt size);
   ("tsiz", JStr (tsiz size)); ("a29_31", JStr (bin 3 offset)); ("source_table_lane_marks", lanes offset (offset + size))].
Definition four_byte_case (offset : Z) (alignment : string) (accesses : list json) : json :=
  JObj [("start_a29_31", JStr (bin 3 offset)); ("alignment", JStr alignment); ("accesses", JList accesses)].

Definition _expected_four_byte_case (offset : Z) : json :=
  if offset mod 4 =? 0 then four_byte_case offset "aligned" [JObj (access_row "only" 0 4 offset)]
  else
    let first_size := 4 - offset mod 4 in
    let second_size := offset mod 4 in
    let second_offset := (offset / 4 * 4 + 4) mod 8 in
    let conflict :=
      if offset =? 2 then
        [("source_table_tsiz", JStr "011");
         ("tsiz_status", JStr "provisional_normalization_of_probable_manual_editorial_error");
         ("source_conflict", JStr "T8-5-OFFSET010-SECOND-TSIZ")]
      else [] in
    four_byte_case offset "misaligned"
      [JObj (access_row "first" 0 first_size offset);
       JObj (access_row "second" first_size second_size second_offset ++ conflict)%list].

Definition _lane_cells (marks : list Z) (width : Z) : list string :=
  map (fun lane => if existsb (Z.eqb lane) marks then "A" else if lane <? width / 8 then "—" else "x") (seqZ 0 8).

Definition normalization (lane : Z) (symbol conflict : string) : json :=
  JObj [("lane", JInt lane); ("source_symbol", JStr symbol); ("provisional_normalized_symbol", JStr "—");
        ("source_conflict", JStr conflict)].
(** [**({"lane_cell_normalizations": normalizations} if normalizations else {})] *)
Definition with_normalizations (l : list json) : list (string * json) :=
  match l with [] => [] | _ => [("lane_cell_normalizations", JList l)] end.

Definition aligned_32_row (size offset : Z) : json :=
  let marks := seqZ (offset mod 4) size in
  let cells := _lane_cells marks 32 in
  let anomaly := (size =? 1) && (offset =? 1) in
  JObj ([("transfer_size_bytes", JInt size); ("tsiz", JStr (tsiz size)); ("a29_31", JStr (bin 3 offset));
         ("data_beat_count", JInt 1); ("source_table_lane_marks", JList (map JInt marks));
         ("source_table_lane_cells", JList (map JStr (if anomaly then <[2%nat := "x"]> cells else cells)))]
        ++ with_normalizations (if anomaly then [normalization 2 "x" "T8-6-BYTE001-LANE2-SYMBOL"] else []))%list.

Definition beat : list (string * json) :=
  [("tsiz", JStr "000"); ("a29_31", JStr "000"); ("transfer_bytes", JInt 4); ("source_table_data_bits", JStr "DH[0:31]");
   ("source_table_lane_marks", JList (map JInt [0; 1; 2; 3]));
   ("source_table_lane_cells", JList (map JStr ["A"; "A"; "A"; "A"; "x"; "x"; "x"; "x"]))].
Definition doubleword_row : json :=
  JObj [("transfer_size_bytes", JInt 8); ("tsiz", JStr "000"); ("a29_31", JStr "000"); ("data_beat_count", JInt 2);
        ("source_table_lane_marks", JList (map JInt [0; 1; 2; 3]));
        ("source_table_lane_cells", JList (map JStr ["A"; "A"; "A"; "A"; "x"; "x"; "x"; "x"]));
        ("source_table_data_beats",
         JList [JObj (("sequence", JStr "first") :: ("source_table_row_label", JStr "Double word") :: beat);
                JObj (("sequence", JStr "second") :: ("source_table_row_label", JStr "Second beat") :: beat)])].
Definition _expected_aligned_32_rows : list json :=
  (concat (map (fun size => map (aligned_32_row size) (offsets size)) [1; 2; 4]) ++ [doubleword_row])%list.

(** One access of Table 8-7, with its anomalies. *)
Definition access_32 (offset : Z) (chunk : string * Z * Z * Z) : json :=
  let '(sequence, delta, size, a_offset) := chunk in
  let marks := seqZ (a_offset mod 4) size in
  let cells := _lane_cells marks 32 in
  let blank := (offset =? 1) && String.eqb sequence "first" in
  let x := (offset =? 2) && String.eqb sequence "second" in
  let cells := if blank then <[0%nat := ""]> cells else cells in
  let cells := if x then <[3%nat := "x"]> cells else cells in
  JObj ([("sequence", JStr sequence); ("address_delta_bytes", JInt delta); ("transfer_size_bytes", JInt size);
         ("tsiz", JStr (tsiz size)); ("a29_31", JStr (bin 3 a_offset)); ("data_beat_count", JInt 1);
         ("source_table_lane_marks", JList (map JInt marks)); ("source_table_lane_cells", JList (map JStr cells))]
        ++ with_normalizations
             ((if blank then [normalization 0 "blank" "T8-7-OFFSET001-FIRST-LANE0-SYMBOL"] else [])
              ++ (if x then [normalization 3 "x" "T8-7-OFFSET010-SECOND-LANE3-SYMBOL"] else [])))%list.
Definition _expected_four_byte_32_case (offset : Z) : json :=
  if offset mod 4 =? 0 then four_byte_case offset "aligned" [access_32 offset ("only", 0, 4, offset)]
  else
    let first_size := 4 - offset mod 4 in
    four_byte_case offset "misaligned"
      [access_32 offset ("first", 0, first_size, offset);
       access_32 offset ("second", first_size, 4 - first_size, (offset / 4 * 4 + 4) mod 8)].

Definition signals : list string :=
  ["DH[0:7]"; "DH[8:15]"; "DH[16:23]"; "DH[24:31]"; "DL[0:7]"; "DL[8:15]"; "DL[16:23]"; "DL[24:31]"].
Definition _active_data_signals (l : json) : result json :=
  let! l := items l in
  let! s := map_res (fun lane => let! n := int lane in let! s := py_get signals n in Ok (JStr s)) l in Ok (JList s).

(** ** Validation *)

(** What the manifest must say of its sources. *)
Definition expected_source : json :=
  JObj [("id", JStr "UM");
    ("path", JStr "1997_MPC603EUM_MPC603e_EC603e_Users_Manual.pdf");
    ("sections", JList [JStr "8.3.2.4"; JStr "8.3.2.5"]);
    ("pdf_pages", JList [JInt 323; JInt 324; JInt 325; JInt 326; JInt 327]);
    ("printed_pages", JList [JStr "8-15"; JStr "8-16"; JStr "8-17"; JStr "8-18"; JStr "8-19"]);
    ("visually_checked", JBool true)].
Definition expected_lane_signals : json :=
  JObj [("section", JStr "7.2.7.1, Table 7-7; 8.6.1");
    ("pdf_pages", JList [JInt 295; JInt 346]);
    ("printed_pages", JList [JStr "7-19"; JStr "8-38"]);
    ("lane_to_data_signals", JObj [("0", JStr "DH[0:7]");
     ("1", JStr "DH[8:15]");
     ("2", JStr "DH[16:23]");
     ("3", JStr "DH[24:31]");
     ("4", JStr "DL[0:7]");
     ("5", JStr "DL[8:15]");
     ("6", JStr "DL[16:23]");
     ("7", JStr "DL[24:31]")]);
    ("scope", JStr "physical signal groups only; operand byte order and endian steering are not specified by this mapping")].
Definition expected_completed : json :=
  JList [JObj [("table", JStr "8-6");
     ("title", JStr "Aligned Data Transfers (32-Bit Bus Mode)");
     ("pdf_page", JInt 326);
     ("printed_page", JStr "8-18");
     ("coverage", JStr "all 15 aligned request rows, all 16 data-beat rows, and all rendered lane cells")];
    JObj [("table", JStr "8-7");
     ("title", JStr "Misaligned 32-Bit Data Bus Transfer (Four-Byte Examples)");
     ("pdf_page", JInt 327);
     ("printed_page", JStr "8-19");
     ("coverage", JStr "all eight starting A[29:31] values, all 14 resulting access rows, and all rendered lane cells")]].
Definition expected_conflicts : json :=
  JList [JObj [("id", JStr "T8-5-OFFSET010-SECOND-TSIZ");
     ("location", JStr "Table 8-5, start A[29:31]=010, second access");
     ("printed_tsiz", JStr "011");
     ("lane_implied_transfer_size_bytes", JInt 2);
     ("printed_lane_marks", JList [JInt 4; JInt 5]);
     ("provisional_normalized_tsiz", JStr "010");
     ("basis", JStr "Table 8-1 maps two bytes to TSIZ=010; the row marks two lanes; the mirrored start A[29:31]=110 second access prints TSIZ=010; and the corresponding Table 8-7 row prints TSIZ=010.");
     ("status", JStr "probable_manual_editorial_error_preserved_and_normalization_explicit")];
    JObj [("id", JStr "T8-6-BYTE001-LANE2-SYMBOL");
     ("location", JStr "Table 8-6, byte A[29:31]=001, lane 2");
     ("printed_symbol", JStr "x");
     ("provisional_normalized_symbol", JStr "—");
     ("basis", JStr "The note defines x as a lane not used in 32-bit mode, but lane 2 is part of DH[0:31] and is marked A for byte A[29:31]=010; the remaining unused cells in lanes 0 through 3 print an em dash.");
     ("query_effect", JStr "none; active lanes are taken only from printed A marks");
     ("status", JStr "probable_manual_editorial_error_preserved_and_normalization_explicit")];
    JObj [("id", JStr "T8-7-OFFSET001-FIRST-LANE0-SYMBOL");
     ("location", JStr "Table 8-7, start A[29:31]=001, first access, lane 0");
     ("printed_symbol", JStr "blank");
     ("provisional_normalized_symbol", JStr "—");
     ("basis", JStr "The note defines A, em dash, and x but no blank; lane 0 is outside this three-byte access and corresponding unused cells in lanes 0 through 3 print an em dash.");
     ("query_effect", JStr "none; active lanes are taken only from printed A marks");
     ("status", JStr "probable_manual_editorial_omission_preserved_and_normalization_explicit")];
    JObj [("id", JStr "T8-7-OFFSET010-SECOND-LANE3-SYMBOL");
     ("location", JStr "Table 8-7, start A[29:31]=010, second access, lane 3");
     ("printed_symbol", JStr "x");
     ("provisional_normalized_symbol", JStr "—");
     ("basis", JStr "The note defines x as a lane not used in 32-bit mode, but lane 3 is part of DH[0:31] and other unused cells in lanes 0 through 3 print an em dash.");
     ("query_effect", JStr "none; active lanes are taken only from printed A marks");
     ("status", JStr "probable_manual_editorial_error_preserved_and_normalization_explicit")]].
Definition expected_width_32 : json :=
  JObj [("aligned_rows", JStr "direct_table_8_6");
    ("four_byte_rows", JStr "direct_table_8_7");
    ("lane_marks", JStr "physical lanes 0 through 3 and DH signal slices returned without operand-byte/endian mapping");
    ("doubleword", JStr "one data transaction with two Table 8-6 beats; source A/TSIZ/lane fields retained per beat without inferred second address")].

(** [needle in text] *)
Definition contains (needle text : string) : bool := match String.index 0 needle text with Some _ => true | None => false end.

Definition convention_fields : list string :=
  ["bit_numbering"; "address"; "table_lane_marks"; "physical_lanes"; "endian_scope"; "decomposition"; "doubleword_32";
   "scope_rejection"].
Definition check_conventions (spec : json) : result unit :=
  let! conventions := get_or spec "conventions" (JObj []) in
  let! _ := fold_res (fun _ field =>
              let! value := get conventions field in
              match value with
              | JStr (String _ _) => Ok tt
              | _ => Raise (AddressError "conventions must be a nonempty scope statement")
              end) tt convention_fields in
  let text k := let! value := item conventions k in match value with JStr s => Ok s | _ => Raise TypeError end in
  let! address := text "address" in
  require! contains "already bus-side" address
  else AddressError "address convention must retain the already bus-side input boundary" in
  let! endian := text "endian_scope" in
  require! contains "do not assign operand-byte significance" endian
  else AddressError "endian scope must reject an inferred operand-byte mapping" in
  Ok tt.

Definition check_completed (spec : json) : result unit :=
  let! completed := get_or spec "tables_completed" (JList []) in
  let! l := items completed in
  let! tables := map_res (fun entry => get entry "table") l in
  require! py_eq (JList tables) (JList [JStr "8-4"; JStr "8-5"; JStr "8-6"; JStr "8-7"])
  else AddressError "tables_completed must list exactly 8-4 through 8-7 in order" in
  require! py_eq (JList (drop 2 l)) expected_completed
  else AddressError "Table 8-6/8-7 completion provenance or coverage differs" in
  Ok tt.

(** [sum(access["transfer_size_bytes"] for access in case["accesses"])] *)
Definition sum_of (key : string) (l : list json) : result Z :=
  fold_res (fun n x => let! v := item x key in let! z := int v in Ok (n + z)) 0 l.
Definition accesses_of (case : json) : result (list json) := let! a := item case "accesses" in items a.

Definition check_row_bits (row : json) : result unit :=
  let! t := item row "tsiz" in
  let! _ := _bits t 3 "TSIZ" in
  let! a := item row "a29_31" in
  let! _ := _bits a 3 "A[29:31]" in
  Ok tt.

(** The rows of an aligned table, compared with the expansion. *)
Definition check_aligned (spec : json) (key : string) (expected : list json) (check : json -> result unit) : result (list json) :=
  let! aligned := get_or spec key (JList []) in
  require! py_eq aligned (JList expected) else AddressError "rows differ from the exact aligned expansion" in
  let! rows := items aligned in
  let! _ := fold_res (fun _ row => check row) tt rows in
  Ok rows.

(** The rows of a four-byte table: in order, equal to the expansion, four bytes each. *)
Definition check_cases (spec : json) (key : string) (expected : Z -> json) : result (list json) :=
  let! value := get_or spec key (JList []) in
  let! cases := items value in
  let! starts := map_res (fun case => get case "start_a29_31") cases in
  require! py_eq (JList starts) (JList (map (fun offset => JStr (bin 3 offset)) (seqZ 0 8)))
  else AddressError "cases must cover A[29:31]=000 through 111 in order" in
  let! _ := fold_res (fun _ p =>
              require! py_eq (snd p) (expected (fst p)) else AddressError "case differs from the rendered row" in
              let! accesses := accesses_of (snd p) in
              let! total := sum_of "transfer_size_bytes" accesses in
              require! total =? 4 else AddressError "case does not total four bytes" in
              Ok tt) tt (enumerate 0 cases) in
  Ok cases.

Definition check_cells (row : json) : result unit :=
  let! _ := check_row_bits row in
  let! marks := item row "source_table_lane_marks" in
  let! cells := item row "source_table_lane_cells" in
  let! l := items cells in
  let active := map (fun p => JInt (fst p)) (List.filter (fun p => py_eq (snd p) (JStr "A")) (enumerate 0 l)) in
  require! py_eq marks (JList active) else AddressError "Table 8-6 active lane marks disagree with raw A cells" in
  Ok tt.

(** [sum(row[key] == value for row in rows)] *)
Definition count_of (key : string) (value : json) (rows : list json) : result json :=
  let! l := map_res (fun row => let! v := item row key in Ok (py_eq v value)) rows in Ok (JInt (count_true l)).
Definition access_count (cases : list json) : result json :=
  let! l := map_res accesses_of cases in Ok (JInt (fold_left (fun n a => n + Z.of_nat (length a)) l 0)).

Definition counts (aligned cases aligned32 cases32 : list json) : result json :=
  let n l := JInt (Z.of_nat (length (l : list json))) in
  let sized k := count_of "transfer_size_bytes" (JInt k) in
  let! b := sized 1 aligned in let! h := sized 2 aligned in let! w := sized 4 aligned in let! d := sized 8 aligned in
  let! a := access_count cases in
  let! al := count_of "alignment" (JStr "aligned") cases in let! mis := count_of "alignment" (JStr "misaligned") cases in
  let! beats := sum_of "data_beat_count" aligned32 in
  let! b32 := sized 1 aligned32 in let! h32 := sized 2 aligned32 in let! w32 := sized 4 aligned32 in let! d32 := sized 8 aligned32 in
  let! a32 := access_count cases32 in
  let! al32 := count_of "alignment" (JStr "aligned") cases32 in let! mis32 := count_of "alignment" (JStr "misaligned") cases32 in
  Ok (JObj [("table_8_4_rows", n aligned); ("table_8_4_byte_rows", b); ("table_8_4_halfword_rows", h);
            ("table_8_4_word_rows", w); ("table_8_4_doubleword_rows", d); ("table_8_5_start_cases", n cases);
            ("table_8_5_access_rows", a); ("table_8_5_aligned_cases", al); ("table_8_5_misaligned_cases", mis);
            ("table_8_6_request_rows", n aligned32); ("table_8_6_data_beat_rows", JInt beats);
            ("table_8_6_byte_rows", b32); ("table_8_6_halfword_rows", h32); ("table_8_6_word_rows", w32);
            ("table_8_6_doubleword_request_rows", d32); ("table_8_7_start_cases", n cases32);
            ("table_8_7_access_rows", a32); ("table_8_7_aligned_cases", al32); ("table_8_7_misaligned_cases", mis32)]).

(** [spec.get(key) != expected] *)
Definition check_equal (spec : json) (key : string) (dflt expected : json) (msg : string) : result unit :=
  let! value := get_or spec key dflt in
  require! py_eq value expected else AddressError msg in Ok tt.

Definition validate (spec : json) : result json :=
  let! _ := check_equal spec "schema_version" JNull (JInt 1) "unsupported schema_version" in
  let! _ := check_equal spec "contract" JNull
              (JStr "MPC603e Tables 8-4 through 8-7 address, size, and physical data-lane decomposition")
              "contract must name the bounded Tables 8-4 through 8-7 scope" in
  let! _ := check_equal spec "source" JNull expected_source
              "primary source provenance must identify the visually checked pages" in
  let! _ := check_equal spec "lane_signal_source" JNull expected_lane_signals
              "physical lane-to-signal provenance or scope differs from Tables 7-7/8.6.1" in
  let! _ := check_conventions spec in
  let! _ := check_completed spec in
  let! _ := check_equal spec "source_conflicts" (JList []) expected_conflicts
              "the rendered Table 8-5 through 8-7 conflicts must be preserved exactly" in
  let! _ := check_equal spec "tsiz_by_bytes" (JObj [])
              (JObj [("1", JStr "001"); ("2", JStr "010"); ("3", JStr "011"); ("4", JStr "100"); ("8", JStr "000")])
              "TSIZ size mapping disagrees with selected table rows" in
  let! width_applicability := get_or spec "width_applicability" (JObj []) in
  let! _ := check_equal width_applicability "32" JNull expected_width_32
              "32-bit width applicability must retain direct tables and endian limits" in
  let! aligned := check_aligned spec "table_8_4_aligned_64" _expected_aligned_rows check_row_bits in
  let! cases := check_cases spec "table_8_5_four_byte_cases" _expected_four_byte_case in
  let! aligned32 := check_aligned spec "table_8_6_aligned_32" _expected_aligned_32_rows check_cells in
  let! cases32 := check_cases spec "table_8_7_four_byte_cases" _expected_four_byte_32_case in
  let! counts := counts aligned cases aligned32 cases32 in
  let! expected := get spec "expected_counts" in
  require! py_eq counts expected else AddressError "count mismatch" in
  Ok counts.

(** ** Queries *)

(** A query's argument: an integer and not a truth value. *)
Definition int_in (x : json) (ok : Z -> bool) (msg : string) : result Z :=
  match x with JInt z => if ok z then Ok z else Raise (AddressError msg) | _ => Raise (AddressError msg) end.
Definition _check_query (address size bus_width : json) : result (Z * Z * Z) :=
  let! a := int_in address (fun z => (0 <=? z) && (z <=? MAX_ADDRESS)) "address must be a 32-bit unsigned byte address" in
  let! n := int_in size (fun z => existsb (Z.eqb z) [1; 2; 4; 8]) "size must be 1, 2, 4, or 8 bytes" in
  let! w := int_in bus_width (fun z => existsb (Z.eqb z) [32; 64]) "bus_width must be 32 or 64" in
  require! a + n - 1 <=? MAX_ADDRESS else AddressError "query wraps beyond the 32-bit physical address space" in
  Ok (a, n, w).

(** [f"0x{value:08x}"] of a word *)
Definition hex_digit (d : Z) : ascii := default "0"%char (String.get (Z.to_nat d) "0123456789abcdef").
Definition hex8 (value : Z) : string :=
  "0x" +:+ String.string_of_list_ascii (map (fun k => hex_digit (Z.land (Z.shiftr value (4 * k)) 15)) [7; 6; 5; 4; 3; 2; 1; 0]).

(** [next(x for x in l if p(x))] *)
Fixpoint first_of (p : json -> result bool) (l : list json) : result (option json) :=
  match l with
  | [] => Ok None
  | x :: l' => let! b := p x in if b : bool then Ok (Some x) else first_of p l'
  end.
Definition rows_of (spec : json) (key : string) : result (list json) := let! t := item spec key in items t.

(** The rows the query selects, the tables they are in, and the basis. *)
Definition select_four_byte (spec : json) (offset bus_width : Z) : result (json * list string * string) :=
  let wide := bus_width =? 64 in
  let! rows := rows_of spec (if wide then "table_8_5_four_byte_cases" else "table_8_7_four_byte_cases") in
  let! found := first_of (fun x => let! s := item x "start_a29_31" in Ok (py_eq s (JStr (bin 3 offset)))) rows in
  match found with
  | None => Raise StopIteration
  | Some case =>
      let! alignment := item case "alignment" in
      let tables := [if wide then "8-5" else "8-7"] in
      Ok (case, if py_eq alignment (JStr "aligned") then (if wide then "8-4" else "8-6") :: tables else tables,
          if wide then "direct_64_bit_table_rows" else "direct_32_bit_table_rows")
  end.
Definition select_aligned (spec : json) (address size offset bus_width : Z) : result (json * list string * string) :=
  let wide := bus_width =? 64 in
  if negb (address mod size =? 0) then Raise (ScopeError "outside_selected_tables")
  else
    let! rows := rows_of spec (if wide then "table_8_4_aligned_64" else "table_8_6_aligned_32") in
    let! found := first_of (fun x => let! n := item x "transfer_size_bytes" in
                                     if py_eq n (JInt size) then let! a := item x "a29_31" in Ok (py_eq a (JStr (bin 3 offset)))
                                     else Ok false) rows in
    match found with
    | None => Raise (ScopeError "outside_selected_tables: no matching row")
    | Some row =>
        let fields := match row with JObj d => d | _ => [] end in
        Ok (JObj [("alignment", JStr "aligned");
                  ("accesses", JList [JObj (update [("sequence", JStr "only"); ("address_delta_bytes", JInt 0)] fields)])],
            [if wide then "8-4" else "8-6"], if wide then "direct_64_bit_table_row" else "direct_32_bit_table_row")
    end.

(** The keys copied from a table row when it has them. *)
Definition optional (x : json) (key : string) : result (list (string * json)) :=
  if has x key then let! v := item x key in Ok [(key, v)] else Ok [].
Definition conflict_fields (x : json) : result (list (string * json)) :=
  if has x "source_table_tsiz" then
    let! t := item x "source_table_tsiz" in
    let! s := item x "tsiz_status" in
    let! c := item x "source_conflict" in
    Ok [("source_table_tsiz", t); ("tsiz_status", s); ("source_conflict", c)]
  else Ok [].
Definition with_signals (x : json) : result json :=
  let! marks := item x "source_table_lane_marks" in
  let! signals := _active_data_signals marks in
  Ok (JObj (set_key (match x with JObj d => d | _ => [] end) "source_table_active_data_signals" signals)).
Definition beat_fields (x : json) : result (list (string * json)) :=
  if has x "source_table_data_beats" then
    let! beats := item x "source_table_data_beats" in
    let! l := items beats in
    let! l := map_res with_signals l in Ok [("source_table_data_beats", JList l)]
  else Ok [].

Definition build_access (address : Z) (table : string) (table_rows : list string) (x : json) : result json :=
  let! delta := item x "address_delta_bytes" in
  let! delta := int delta in
  let access_address := address + delta in
  let! sequence := item x "sequence" in
  let! a29_31 := item x "a29_31" in
  let! size := item x "transfer_size_bytes" in
  let! t := item x "tsiz" in
  let! beat_count := get_or x "data_beat_count" (JInt 1) in
  let! conflict := conflict_fields x in
  let! marks := item x "source_table_lane_marks" in
  let! active := _active_data_signals marks in
  let! cells := optional x "source_table_lane_cells" in
  let! normalizations := optional x "lane_cell_normalizations" in
  let! beats := beat_fields x in
  Ok (JObj ([("sequence", sequence); ("address", JInt access_address); ("address_hex", JStr (hex8 access_address));
             ("a29_31", a29_31); ("transfer_size_bytes", size); ("tsiz", t); ("data_beat_count", beat_count);
             ("source_table", JStr table); ("source_table_rows", JList (map JStr table_rows))]
            ++ conflict
            ++ [("source_table_lane_marks", marks); ("source_table_active_data_signals", active)]
            ++ cells ++ normalizations ++ beats))%list.

Definition query (address size bus_width spec : json) : result json :=
  let! _ := validate spec in
  let! (address, size, bus_width) := _check_query address size bus_width in
  let offset := Z.land address 7 in
  let! (case, source_tables, width_basis) :=
    (if size =? 4 then select_four_byte spec offset bus_width else select_aligned spec address size offset bus_width) in
  let table := if (bus_width =? 64) && (size =? 4) then "8-5" else if (bus_width =? 32) && (size =? 4) then "8-7"
               else if bus_width =? 64 then "8-4" else "8-6" in
  let! l := accesses_of case in
  let! alignment := item case "alignment" in
  let! accesses := map_res (build_access address table (if py_eq alignment (JStr "aligned") then source_tables else [table])) l in
  let crosses_word := negb (address / 4 =? (address + size - 1) / 4) in
  let crosses_coherency := negb (address / 32 =? (address + size - 1) / 32) in
  let! action := (if crosses_coherency then let! rule := item spec "coherency_boundary_rule" in item rule "rule"
                  else Ok (JStr "not_applicable")) in
  Ok (JObj [("request", JObj [("address", JInt address); ("address_hex", JStr (hex8 address)); ("a29_31", JStr (bin 3 offset));
                              ("transfer_size_bytes", JInt size); ("bus_width", JInt bus_width)]);
            ("status", JStr (if existsb (fun a => has a "source_conflict" || has a "lane_cell_normalizations") accesses
                             then "defined_with_explicit_source_conflict" else "defined_by_selected_tables"));
            ("interpretation", JStr "selected_nonburst_bus_decomposition_only");
            ("address_domain", JStr "already_bus_side_32_bit_byte_address");
            ("cpu_access_to_bus_prediction", JStr "not_provided_requires_cacheability_and_memory_hierarchy_context");
            ("alignment", alignment);
            ("access_count", JInt (Z.of_nat (length accesses)));
            ("accesses", JList accesses);
            ("crosses_word_boundary", JBool crosses_word);
            ("crosses_32_byte_boundary", JBool crosses_coherency);
            ("coherency_boundary_action", action);
            ("source_tables", JList (map JStr source_tables));
            ("width_basis", JStr width_basis);
            ("lane_result_scope", JStr "physical_data_bus_signal_groups_marked_active_by_the_selected_source_table");
            ("operand_byte_to_lane_mapping", JStr "not_provided_requires_an_explicit_endian_and_access_semantics_contract");
            ("endian_lane_steering", JStr "outside_scope")]).

End bus_address.
