(* ===== verification/BusTheorems.v ===== *)
(** * The bus tools are right about any manifest they accept

    A manifest that validates equals the reconstructed tables up to Python's
    equality, and every operation of a query respects that equality: so a query on
    it decomposes an access as the tables do. *)
From S2P Require Import Prelude Json BusData BusDecode BusAddress.
Import json bus_address.
#[local] Open Scope Z_scope.

(** ** Equality of values *)
Definition eqv (x y : json) : Prop := py_eq x y = true.

Lemma eqv_str x s : eqv x (JStr s) -> x = JStr s.
Proof. unfold eqv. destruct x; cbn; try discriminate. intros H. apply String.eqb_eq in H as ->. reflexivity. Qed.
Lemma eqv_number x y : eqv x y -> number x = number y.
Proof.
  unfold eqv. destruct x, y; cbn; try discriminate; try reflexivity; intros H; apply Z.eqb_eq in H; congruence.
Qed.
Lemma eqv_list x l : eqv x (JList l) -> exists l', x = JList l' /\ Forall2 eqv l' l.
Proof.
  unfold eqv. destruct x as [| | | | l' |]; cbn; try discriminate. intros H. exists l'. split; [reflexivity |].
  revert l H. induction l' as [| x l' IH]; intros [| y l]; try discriminate; [constructor |].
  intros H. apply andb_true_iff in H as [H1 H2]. constructor; [exact H1 | apply IH; exact H2].
Qed.

(** The value of a key, in both or in neither. *)
Definition same_value (u w : option json) : Prop :=
  match u, w with Some u, Some w => eqv u w | None, None => True | _, _ => False end.
Definition same_fields (d e : list (string * json)) : Prop := forall k, same_value (dict_get d k) (dict_get e k).

Lemma dict_get_mem {V} (d : dict V) k v : In (k, v) d -> dict_mem d k = true.
Proof.
  unfold dict_mem. induction d as [| [k' w] d IH]; cbn; [intros [] |]. intros [[= -> ->] | H]; [rewrite String.eqb_refl; reflexivity |].
  destruct (String.eqb k k'); [reflexivity | exact (IH H)].
Qed.
Lemma eqv_obj x e : eqv x (JObj e) -> exists d, x = JObj d /\ same_fields d e.
Proof.
  unfold eqv. destruct x as [| | | | | d]; cbn [py_eq]; try discriminate. intros H. exists d. split; [reflexivity |].
  apply andb_true_iff in H as [H H3]. apply andb_true_iff in H as [_ H2]. intros k.
  assert (Hall : forall k u, In (k, u) d -> exists w, dict_get e k = Some w /\ eqv u w).
  { clear H3. induction d as [| [k' u'] d IH]; [intros ? ? [] |]. apply andb_true_iff in H2 as [H1 H2].
    intros k0 u0 [[= -> ->] | Hi]; [| exact (IH H2 _ _ Hi)]. destruct (dict_get e k0) as [w |]; [exists w; auto | discriminate]. }
  destruct (dict_get d k) as [u |] eqn:Ed; cbn.
  - apply dict_get_In in Ed. destruct (Hall _ _ Ed) as (w & -> & Hw). exact Hw.
  - destruct (dict_get e k) as [w |] eqn:Ee; [| exact I]. apply dict_get_In in Ee. rewrite forallb_forall in H3.
    specialize (H3 _ Ee). cbn in H3. unfold dict_mem in H3. rewrite Ed in H3. discriminate.
Qed.

(** Two dictionaries with the same fields. *)
Definition alike (x y : json) : Prop := exists d e, x = JObj d /\ y = JObj e /\ same_fields d e.
Lemma eqv_alike x e : eqv x (JObj e) -> alike x (JObj e).
Proof. intros H. destruct (eqv_obj _ _ H) as (d & -> & Hd). exists d, e. auto. Qed.

(** Outcomes with equal values, or the same exception. *)
Definition same_result {A B} (R : A -> B -> Prop) (r : result A) (r' : result B) : Prop :=
  match r, r' with Ok a, Ok b => R a b | Raise e, Raise e' => e = e' | _, _ => False end.

Lemma item_same x y k : alike x y -> same_result eqv (item x k) (item y k).
Proof.
  intros (d & e & -> & -> & H). specialize (H k). unfold item. destruct (dict_get d k), (dict_get e k); cbn in *; tauto.
Qed.
Lemma has_same x y k : alike x y -> has x k = has y k.
Proof.
  intros (d & e & -> & -> & H). specialize (H k). unfold has, dict_mem. destruct (dict_get d k), (dict_get e k); cbn in *; tauto.
Qed.
(** A field whose value is known on one side. *)
Lemma item_eqv x y k v : alike x y -> item y k = Ok v -> exists u, item x k = Ok u /\ eqv u v.
Proof. intros H E. pose proof (item_same x y k H) as S. rewrite E in S. destruct (item x k); cbn in S; [eauto | tauto]. Qed.
Lemma get_or_ok x y k v : alike x y -> exists u, get_or x k v = Ok u.
Proof. intros (d & e & -> & _). cbn. eauto. Qed.

Lemma dict_get_app {V} (d e : dict V) k :
  dict_get (d ++ e)%list k = match dict_get d k with Some v => Some v | None => dict_get e k end.
Proof. induction d as [| [k' v] d IH]; cbn; [reflexivity |]. destruct (String.eqb k k'); [reflexivity | exact IH]. Qed.
Lemma update_get d e k : dict_get (update d e) k = match dict_get e k with Some v => Some v | None => dict_get d k end.
Proof.
  unfold update. rewrite dict_get_app.
  assert (H1 : dict_get (map (fun p => (fst p, default (snd p) (dict_get e (fst p)))) d) k =
               match dict_get d k with Some v => Some (default v (dict_get e k)) | None => None end).
  { induction d as [| [k' v] d IH]; cbn; [reflexivity |]. destruct (String.eqb_spec k k') as [-> |]; [reflexivity | exact IH]. }
  rewrite H1. destruct (dict_get d k) as [v |] eqn:Ed; [destruct (dict_get e k); reflexivity |].
  enough (E : dict_get (List.filter (fun p => negb (dict_mem d (fst p))) e) k = dict_get e k) by (rewrite E; destruct (dict_get e k); reflexivity).
  clear H1. induction e as [| [k' v] e IH]; cbn; [reflexivity |]. destruct (String.eqb_spec k k') as [-> | Hne].
  - unfold dict_mem at 1. rewrite Ed. cbn. rewrite String.eqb_refl. reflexivity.
  - destruct (negb _); cbn; [| exact IH]. apply String.eqb_neq in Hne. rewrite Hne. exact IH.
Qed.
Lemma update_same b d e :
  Forall (fun p => eqv (snd p) (snd p)) b -> same_fields d e -> same_fields (update b d) (update b e).
Proof.
  intros Hb H k. rewrite !update_get. specialize (H k). destruct (dict_get d k), (dict_get e k); cbn in *; try tauto.
  destruct (dict_get b k) as [v |] eqn:E; cbn; [| exact I]. apply dict_get_In in E. rewrite Forall_forall in Hb.
  apply (Hb (k, v)), list_elem_of_In, E.
Qed.

(** ** One access *)

(** What a table row or an access says: a position, a size, a TSIZ code, lanes. *)
Definition transfer : Type := Z * Z * string * list Z.
Definition lane_list (x : json) : option (list Z) := match x with JList l => mapM number l | _ => None end.
Definition view_of (x : json) (position : string) : option transfer :=
  match item x position, item x "transfer_size_bytes", item x "tsiz", item x "source_table_lane_marks" with
  | Ok p, Ok n, Ok (JStr t), Ok m =>
      match number p, number n, lane_list m with Some p, Some n, Some m => Some (p, n, t, m) | _, _, _ => None end
  | _, _, _, _ => None
  end.
Definition view_row (x : json) : option transfer := view_of x "address_delta_bytes".
Definition view_access (x : json) : option transfer := view_of x "address".
Definition shift (address : Z) (t : transfer) : transfer := let '(p, n, c, m) := t in (address + p, n, c, m).

Lemma eqv_lanes x y l : eqv x y -> lane_list y = Some l -> lane_list x = Some l.
Proof.
  intros H. destruct y as [| | | | l' |]; try discriminate. apply eqv_list in H as (l0 & -> & H). cbn.
  revert l. induction H as [| u w l0 l' Hu H IH]; intros l; cbn; [auto |]. rewrite (eqv_number _ _ Hu).
  destruct (number w); cbn; [| discriminate]. destruct (mapM number l') as [m |]; cbn in *; [| discriminate].
  rewrite (IH m eq_refl). auto.
Qed.

(** A row every field of which a query can copy. *)
Definition lanes_in_range (x : json) : bool := match lane_list x with Some l => forallb (fun n => (0 <=? n) && (n <? 8)) l | None => false end.
Definition good_beat (x : json) : bool :=
  match x with JObj d => match dict_get d "source_table_lane_marks" with Some m => lanes_in_range m | None => false end | _ => false end.
Definition good_row (x : json) : bool :=
  match x with
  | JObj d =>
      dict_mem d "sequence" && dict_mem d "a29_31" &&
      match dict_get d "source_table_lane_marks" with Some m => lanes_in_range m | None => false end &&
      (negb (dict_mem d "source_table_tsiz") || (dict_mem d "tsiz_status" && dict_mem d "source_conflict")) &&
      match dict_get d "source_table_data_beats" with Some (JList l) => forallb good_beat l | Some _ => false | None => true end
  | _ => false
  end.

Lemma py_get_signals n : 0 <= n < 8 -> exists s, py_get signals n = Ok s.
Proof.
  intros H. assert (E : n = 0 \/ n = 1 \/ n = 2 \/ n = 3 \/ n = 4 \/ n = 5 \/ n = 6 \/ n = 7) by lia.
  repeat destruct E as [-> | E]; try subst n; eexists; vm_compute; reflexivity.
Qed.
Lemma signals_ok x : lanes_in_range x = true -> exists s, _active_data_signals x = Ok s.
Proof.
  unfold lanes_in_range. destruct x as [| | | | l |]; try discriminate. cbn [lane_list]. destruct (mapM number l) as [m |] eqn:Em; [| discriminate].
  intros H. unfold _active_data_signals. cbn [items]. cbv beta iota.
  enough (Hs : exists s, map_res (fun lane => let! n := int lane in let! s := py_get signals n in Ok (JStr s)) l = Ok s)
    by (destruct Hs as (s & ->); eauto).
  revert m Em H. induction l as [| x l IH]; intros m Em H; cbn [map_res]; [eauto |].
  cbn in Em. destruct (number x) as [n |] eqn:En; cbn in Em; [| discriminate].
  destruct (mapM number l) as [m' |]; cbn in Em; [| discriminate]. injection Em as <-. cbn in H. apply andb_true_iff in H as [Hn Hm].
  assert (Ei : int x = Ok n) by (unfold int; rewrite En; reflexivity). rewrite Ei. destruct (py_get_signals n) as (s & ->); [lia |]. destruct (IH m' eq_refl Hm) as (ss & ->). eauto.
Qed.
Lemma lanes_same x y : eqv x y -> lanes_in_range y = true -> lanes_in_range x = true.
Proof.
  unfold lanes_in_range. intros H. destruct (lane_list y) as [l |] eqn:E; [| discriminate]. rewrite (eqv_lanes _ _ _ H E). auto.
Qed.

Lemma item_dict d k v : dict_get d k = Some v -> item (JObj d) k = Ok v.
Proof. intros H. cbn. rewrite H. reflexivity. Qed.
Lemma item_mem d k : dict_mem d k = true -> exists v, item (JObj d) k = Ok v.
Proof. unfold dict_mem. cbn. destruct (dict_get d k); [eauto | discriminate]. Qed.
Lemma mem_same d e k : same_fields d e -> dict_mem d k = dict_mem e k.
Proof. intros H. specialize (H k). unfold dict_mem. destruct (dict_get d k), (dict_get e k); cbn in *; tauto. Qed.

Lemma with_signals_ok x y : eqv x y -> good_beat y = true -> exists b, with_signals x = Ok b.
Proof.
  intros H Hy. destruct y as [| | | | | e]; try discriminate. cbn in Hy. destruct (dict_get e _) as [m |] eqn:Em; [| discriminate].
  destruct (item_eqv _ _ _ _ (eqv_alike _ _ H) (item_dict _ _ _ Em)) as (u & Eu & Hu). unfold with_signals. rewrite Eu.
  destruct (signals_ok u (lanes_same _ _ Hu Hy)) as (s & ->). eauto.
Qed.
Lemma all_signals_ok l l' : Forall2 eqv l l' -> forallb good_beat l' = true -> exists b, map_res with_signals l = Ok b.
Proof.
  induction 1 as [| x y l l' Hx Hl IH]; cbn; [eauto |]. intros H. apply andb_true_iff in H as [H1 H2].
  destruct (with_signals_ok _ _ Hx H1) as (b & ->). destruct (IH H2) as (bs & ->). eauto.
Qed.

Lemma optional_ok x k : exists l, optional x k = Ok l.
Proof.
  unfold optional, has. destruct x; eauto. unfold dict_mem. cbn. destruct (dict_get d k) eqn:E; cbn; rewrite ?E; eauto.
Qed.

Lemma build_ok address table rows x y t :
  alike x y -> good_row y = true -> view_row y = Some t ->
  exists a, build_access address table rows x = Ok a /\ view_access a = Some (shift address t).
Proof.
  intros Ha Hg Hv. destruct y as [| | | | | e]; try discriminate. unfold view_row, view_of in Hv.
  destruct (item (JObj e) "address_delta_bytes") as [p |] eqn:Ep; [| discriminate].
  destruct (item (JObj e) "transfer_size_bytes") as [n |] eqn:En; [| discriminate].
  destruct (item (JObj e) "tsiz") as [[| | | c | |] |] eqn:Ec; try discriminate.
  destruct (item (JObj e) "source_table_lane_marks") as [m |] eqn:Em; [| discriminate].
  destruct (number p) as [pz |] eqn:Zp; [| discriminate]. destruct (number n) as [nz |] eqn:Zn; [| discriminate].
  destruct (lane_list m) as [ml |] eqn:Zm; [| discriminate]. injection Hv as <-.
  cbn [good_row] in Hg. bool_prop.
  destruct (item_eqv _ _ _ _ Ha Ep) as (p' & Ep' & Hp). destruct (item_eqv _ _ _ _ Ha En) as (n' & En' & Hn).
  destruct (item_eqv _ _ _ _ Ha Ec) as (c' & Ec' & Hc). apply eqv_str in Hc as ->. destruct (item_eqv _ _ _ _ Ha Em) as (m' & Em' & Hm).
  destruct (item_mem e "sequence") as (q & Eq); [assumption |]. destruct (item_eqv _ _ _ _ Ha Eq) as (q' & Eq' & _).
  destruct (item_mem e "a29_31") as (b & Eb); [assumption |]. destruct (item_eqv _ _ _ _ Ha Eb) as (b' & Eb' & _).
  destruct (get_or_ok x (JObj e) "data_beat_count" (JInt 1) Ha) as (bc & Ebc).
  assert (Hl : lanes_in_range m' = true).
  { apply (lanes_same m' m Hm). cbn in Em. destruct (dict_get e _); [injection Em as <-; assumption | discriminate]. }
  destruct (signals_ok m' Hl) as (s & Es). destruct (optional_ok x "source_table_lane_cells") as (cells & Ecells).
  destruct (optional_ok x "lane_cell_normalizations") as (norms & Enorms).
  assert (Hconf : exists l, conflict_fields x = Ok l /\ (l = [] \/ exists u v w, l = [("source_table_tsiz", u); ("tsiz_status", v); ("source_conflict", w)]%string)).
  { unfold conflict_fields. rewrite (has_same _ _ _ Ha). cbn [has].
    destruct (dict_mem e "source_table_tsiz") eqn:E1; [| eauto].
    match goal with H : negb true = true \/ _ |- _ => destruct H as [[=] | H]; bool_prop end.
    destruct (item_mem _ _ E1) as (u & Eu). destruct (item_eqv _ _ _ _ Ha Eu) as (u' & -> & _).
    destruct (item_mem e "tsiz_status") as (v & Ev); [assumption |]. destruct (item_eqv _ _ _ _ Ha Ev) as (v' & -> & _).
    destruct (item_mem e "source_conflict") as (w & Ew); [assumption |]. destruct (item_eqv _ _ _ _ Ha Ew) as (w' & -> & _).
    eexists. split; [reflexivity |]. right. eauto. }
  destruct Hconf as (conf & Econf & Hconf).
  assert (Hbeats : exists l, beat_fields x = Ok l).
  { unfold beat_fields. rewrite (has_same _ _ _ Ha). cbn [has]. unfold dict_mem.
    destruct (dict_get e "source_table_data_beats") as [bt |] eqn:E1; [| eauto].
    destruct (item_eqv _ _ _ _ Ha (item_dict _ _ _ E1)) as (bt' & -> & Hb). destruct bt as [| | | | l |]; try discriminate.
    apply eqv_list in Hb as (l' & -> & Hb). cbn [items]. destruct (all_signals_ok _ _ Hb) as (bs & ->); [assumption |]. eauto. }
  destruct Hbeats as (beats & Ebeats).
  unfold build_access, int. rewrite Ep', (eqv_number _ _ Hp), Zp, Eq', Eb', En', Ec', Ebc, Econf, Em', Es, Ecells, Enorms, Ebeats.
  eexists. split; [reflexivity |]. unfold view_access, view_of.
  assert (Emarks : item (JObj ([("sequence", q'); ("address", JInt (address + pz)); ("address_hex", JStr (hex8 (address + pz)));
             ("a29_31", b'); ("transfer_size_bytes", n'); ("tsiz", JStr c); ("data_beat_count", bc);
             ("source_table", JStr table); ("source_table_rows", JList (map JStr rows))]
            ++ conf ++ [("source_table_lane_marks", m'); ("source_table_active_data_signals", s)] ++ cells ++ norms ++ beats)%list)%string
            "source_table_lane_marks" = Ok m') by (destruct Hconf as [-> | (u & v & w & ->)]; reflexivity).
  rewrite Emarks. cbn [item dict_get app String.eqb Ascii.eqb Bool.eqb number].
  rewrite (eqv_number _ _ Hn), Zn, (eqv_lanes _ _ _ Hm Zm). reflexivity.
Qed.

(** ** Selecting the rows *)
Lemma item_eqv_same x y k : eqv x y -> same_result eqv (item x k) (item y k).
Proof.
  intros H. destruct y as [| | | | | e]; [.. | apply item_same, eqv_alike, H]; destruct x; cbn; auto;
    unfold eqv in H; cbn in H; discriminate.
Qed.
Lemma eqv_test_str x y c : eqv x y -> py_eq x (JStr c) = py_eq y (JStr c).
Proof.
  intros H. destruct y as [| | | s | |]; [| | | apply eqv_str in H as ->; reflexivity | |];
    destruct x; try reflexivity; unfold eqv in H; discriminate H.
Qed.
Lemma py_eq_int x n : py_eq x (JInt n) = match number x with Some m => m =? n | None => false end.
Proof. destruct x; reflexivity. Qed.
Lemma eqv_test_int x y n : eqv x y -> py_eq x (JInt n) = py_eq y (JInt n).
Proof. intros H. rewrite !py_eq_int, (eqv_number _ _ H). reflexivity. Qed.

Lemma first_of_same p l l' :
  (forall x y, eqv x y -> p x = p y) -> Forall2 eqv l l' -> same_result same_value (first_of p l) (first_of p l').
Proof.
  intros Hp. induction 1 as [| x y l l' Hx Hl IH]; cbn [first_of]; [exact I |]. rewrite (Hp x y Hx).
  destruct (p y) as [[] |]; [exact Hx | exact IH | reflexivity].
Qed.
Definition at_start (c : string) (x : json) : result bool := let! s := item x "start_a29_31" in Ok (py_eq s (JStr c)).
Definition at_row (size : Z) (c : string) (x : json) : result bool :=
  let! n := item x "transfer_size_bytes" in
  if py_eq n (JInt size) then let! a := item x "a29_31" in Ok (py_eq a (JStr c)) else Ok false.
Lemma item_test {A} k (f g : json -> result A) x y :
  eqv x y -> (forall u w, eqv u w -> f u = g w) -> (let! s := item x k in f s) = (let! s := item y k in g s).
Proof.
  intros H Hf. pose proof (item_eqv_same x y k H) as S. destruct (item x k), (item y k); cbn in S; try tauto; [exact (Hf _ _ S) | congruence].
Qed.
Lemma at_start_same c x y : eqv x y -> at_start c x = at_start c y.
Proof. intros H. apply (item_test _ (fun s => Ok (py_eq s _)) (fun s => Ok (py_eq s _))); [exact H |]. intros u w Hu. rewrite (eqv_test_str _ _ c Hu). reflexivity. Qed.
Lemma at_row_same size c x y : eqv x y -> at_row size c x = at_row size c y.
Proof.
  intros H. unfold at_row. apply (item_test _ (fun n => if py_eq n _ then _ else _) (fun n => if py_eq n _ then _ else _)); [exact H |]. intros u w Hu. rewrite (eqv_test_int _ _ size Hu).
  destruct (py_eq w (JInt size)); [| reflexivity].
  apply (item_test _ (fun a => Ok (py_eq a _)) (fun a => Ok (py_eq a _))); [exact H |]. intros u' w' Hu'. rewrite (eqv_test_str _ _ c Hu'). reflexivity.
Qed.

(** The tables themselves, as a manifest. *)
Definition tables : json :=
  JObj [("table_8_4_aligned_64", JList _expected_aligned_rows);
        ("table_8_5_four_byte_cases", JList (map _expected_four_byte_case (seqZ 0 8)));
        ("table_8_6_aligned_32", JList _expected_aligned_32_rows);
        ("table_8_7_four_byte_cases", JList (map _expected_four_byte_32_case (seqZ 0 8)))]%string.
Definition has_tables (spec : json) : Prop :=
  forall key l', rows_of tables key = Ok l' -> exists l, rows_of spec key = Ok l /\ Forall2 eqv l l'.

Definition select (spec : json) (address size offset w : Z) : result (json * list string * string) :=
  if size =? 4 then select_four_byte spec offset w else select_aligned spec address size offset w.

(** What a query needs of the case it selected. *)
Definition usable (case : json) (l : list json) (alignment : string) : Prop :=
  accesses_of case = Ok l /\ item case "alignment" = Ok (JStr alignment).

Lemma alike_list l l' : Forall2 eqv l l' -> forallb good_row l' = true -> Forall2 alike l l'.
Proof.
  induction 1 as [| x y l l' Hx Hl IH]; cbn; [constructor |]. intros H. apply andb_true_iff in H as [H1 H2].
  constructor; [| exact (IH H2)]. destruct y; try discriminate. apply eqv_alike. exact Hx.
Qed.

Lemma four_byte_same spec offset w y t b l' al :
  has_tables spec -> select_four_byte tables offset w = Ok (y, t, b) -> usable y l' al -> forallb good_row l' = true ->
  exists x l, select_four_byte spec offset w = Ok (x, t, b) /\ usable x l al /\ Forall2 alike l l'.
Proof.
  intros Hs. unfold select_four_byte. set (key := if w =? 64 then _ else _). specialize (Hs key).
  destruct (rows_of tables key) as [rows' |] eqn:Er; [| discriminate]. destruct (Hs rows' eq_refl) as (rows & Erows & Hrows).
  cbv beta zeta. rewrite Erows. fold (at_start (bin 3 offset)).
  pose proof (first_of_same _ _ _ (at_start_same (bin 3 offset)) Hrows) as Hf.
  destruct (first_of _ rows') as [[y' |] |] eqn:E2; try discriminate.
  destruct (first_of _ rows) as [[x |] |] eqn:E1; cbn in Hf; try tauto.
  intros H [Ha Hal] Hg. destruct (item y' "alignment") as [al' |] eqn:Eal; [| discriminate]. apply ok_inj in H.
  apply pair_equal_spec in H as [H Hb]. apply pair_equal_spec in H as [-> Ht]. rewrite Hal in Eal. apply ok_inj in Eal. subst al'.
  pose proof (item_eqv_same _ _ "alignment" Hf) as Sa. rewrite Hal in Sa. destruct (item x "alignment") as [xa |] eqn:Exa; cbn in Sa; [| tauto].
  apply eqv_str in Sa as ->. unfold accesses_of in Ha. pose proof (item_eqv_same _ _ "accesses" Hf) as Sc.
  destruct (item y "accesses") as [yl |]; [| discriminate]. destruct (item x "accesses") as [xl |] eqn:Exl; cbn in Sc; [| tauto].
  assert (Hl : exists l, items xl = Ok l /\ Forall2 alike l l').
  { destruct yl as [| | | s | yl | d]; try discriminate.
    - apply eqv_str in Sc as ->. exists l'. split; [exact Ha |]. cbn in Ha. injection Ha as <-.
      destruct (String.list_ascii_of_string s); [constructor | discriminate Hg].
    - apply eqv_list in Sc as (l & -> & Hl). cbn in Ha. injection Ha as <-. exists l. split; [reflexivity | exact (alike_list _ _ Hl Hg)].
    - cbn in Ha. injection Ha as <-. destruct d; [| discriminate Hg]. apply eqv_obj in Sc as (d & -> & Hd).
      destruct d as [| [k v] d]; [exists []; split; [reflexivity | constructor] |]. specialize (Hd k). cbn in Hd. rewrite String.eqb_refl in Hd. destruct Hd. }
  destruct Hl as (l & El & Hl). exists x, l. rewrite Ht, Hb. split; [reflexivity |]. split; [| exact Hl].
  split; [unfold accesses_of; rewrite Exl; exact El | exact Exa].
Qed.

Lemma aligned_same spec address size offset w r :
  has_tables spec -> select_aligned tables address size offset w = r ->
  match r with
  | Raise e => select_aligned spec address size offset w = Raise e
  | Ok (y, t, b) => forall l' al, usable y l' al -> forallb good_row l' = true ->
      exists x l, select_aligned spec address size offset w = Ok (x, t, b) /\ usable x l al /\ Forall2 alike l l'
  end.
Proof.
  intros Hs <-. unfold select_aligned. case_if; [reflexivity |]. clear E. set (key := if w =? 64 then _ else _).
  specialize (Hs key). destruct (rows_of tables key) as [rows' |] eqn:Er.
  2: { exfalso. unfold key in Er. destruct (w =? 64); vm_compute in Er; discriminate Er. }
  destruct (Hs rows' eq_refl) as (rows & Erows & Hrows). cbv beta zeta. rewrite Erows. fold (at_row size (bin 3 offset)).
  pose proof (first_of_same _ _ _ (at_row_same size (bin 3 offset)) Hrows) as Hf.
  destruct (first_of _ rows') as [[y |] |] eqn:E2, (first_of _ rows) as [[x |] |] eqn:E1; cbn in Hf; try tauto; [| congruence].
  intros l' al [Ha Hal] Hg. unfold accesses_of in Ha. cbn [item dict_get String.eqb Ascii.eqb Bool.eqb items] in Ha, Hal.
  injection Ha as <-. injection Hal as <-. do 2 eexists. split; [reflexivity |]. split; [split; reflexivity |].
  constructor; [| constructor]. cbn [forallb] in Hg. destruct y as [| | | | | e];
    [.. | apply eqv_obj in Hf as (d & -> & Hd); eexists _, _; split; [reflexivity |]; split; [reflexivity |];
          apply update_same; [repeat constructor | exact Hd]];
    cbn in Hg; discriminate Hg.
Qed.

(** ** What validation establishes *)
Lemma fold_unit_ok {A} (f : unit -> A -> result unit) l : fold_res f tt l = Ok tt -> Forall (fun x => f tt x = Ok tt) l.
Proof.
  induction l as [| x l IH]; cbn; [constructor |]. destruct (f tt x) as [[] |] eqn:E; [| discriminate]. intros H. constructor; auto.
Qed.
Lemma get_or_found spec key l : get_or spec key (JList []) = Ok l -> l <> JList [] -> item spec key = Ok l.
Proof.
  unfold get_or, item. destruct spec; try discriminate. destruct (dict_get _ key); cbn; intros [= <-]; [auto | intros []; reflexivity].
Qed.

Lemma check_aligned_ok spec key expected check rows :
  expected <> [] -> check_aligned spec key expected check = Ok rows -> rows_of spec key = Ok rows /\ Forall2 eqv rows expected.
Proof.
  unfold check_aligned. intros Hne. destruct (get_or _ _ _) as [t |] eqn:Et; [| discriminate]. case_if; [| discriminate].
  apply eqv_list in E as (l & -> & Hl). cbn [items]. destruct (fold_res _ _ _); [| discriminate]. intros [= <-]. split; [| exact Hl].
  unfold rows_of. rewrite (get_or_found _ _ _ Et); [reflexivity |]. intros [= ->]. inversion Hl. congruence.
Qed.
Lemma enumerate_In {A} (l : list A) : forall k j x, l !! j = Some x -> In (k + Z.of_nat j, x) (enumerate k l).
Proof.
  induction l as [| y l IH]; intros k [| j] x H; cbn in *; try discriminate.
  - injection H as ->. left. f_equal. lia.
  - right. specialize (IH (k + 1) j x H). replace (k + Z.of_nat (S j)) with (k + 1 + Z.of_nat j) by lia. exact IH.
Qed.
Lemma map_res_length {A B} (f : A -> result B) l l' : map_res f l = Ok l' -> length l' = length l.
Proof.
  revert l'. induction l as [| x l IH]; intros l'; cbn; [intros [= <-]; reflexivity |].
  destruct (f x); [| discriminate]. destruct (map_res f l) as [ys |]; [| discriminate]. intros [= <-]. cbn. f_equal. exact (IH _ eq_refl).
Qed.
Lemma check_cases_ok spec key expected cases :
  check_cases spec key expected = Ok cases -> rows_of spec key = Ok cases /\ Forall2 eqv cases (map expected (seqZ 0 8)).
Proof.
  unfold check_cases. destruct (get_or _ _ _) as [t |] eqn:Et; [| discriminate]. destruct (items t) as [l |] eqn:El; [| discriminate].
  destruct (map_res _ l) as [starts |] eqn:Es; [| discriminate]. destruct (py_eq (JList starts) _) eqn:Eq; [| discriminate].
  apply eqv_list in Eq as (starts' & [= <-] & Hq). apply Forall2_length in Hq. rewrite length_map, length_seqZ in Hq.
  apply map_res_length in Es. destruct (fold_res _ _ _) as [[] |] eqn:Ef; [| discriminate]. intros [= <-]. split.
  - unfold rows_of. rewrite (get_or_found _ _ _ Et); [exact El |]. intros ->. cbn in El. injection El as <-. rewrite Hq in Es. discriminate Es.
  - apply fold_unit_ok in Ef. rewrite Forall_forall in Ef. apply Forall2_same_length_lookup_2; [rewrite length_map, length_seqZ; congruence |].
    intros j x y Hx Hy. rewrite list_lookup_fmap in Hy. destruct (seqZ 0 8 !! j) as [o |] eqn:Eo; [| discriminate]. injection Hy as <-.
    apply lookup_seqZ in Eo as [-> _]. pose proof (enumerate_In l 0 j x Hx) as Hi. apply list_elem_of_In in Hi. specialize (Ef _ Hi).
    cbn [fst snd] in Ef. destruct (py_eq x (expected _)) eqn:E; [exact E | discriminate].
Qed.

Lemma validate_tables spec c : validate spec = Ok c -> has_tables spec.
Proof.
  unfold validate. intros H.
  repeat match type of H with
         | (match check_equal ?a ?b ?c ?d ?e with _ => _ end) = _ => destruct (check_equal a b c d e); [| discriminate H]
         | (match check_conventions ?a with _ => _ end) = _ => destruct (check_conventions a); [| discriminate H]
         | (match check_completed ?a with _ => _ end) = _ => destruct (check_completed a); [| discriminate H]
         | (match get_or ?a ?b ?c with _ => _ end) = _ => destruct (get_or a b c); [| discriminate H]
         end.
  destruct (check_aligned spec _ _expected_aligned_rows _) as [r1 |] eqn:E1; [| discriminate H].
  destruct (check_cases spec _ _expected_four_byte_case) as [r2 |] eqn:E2; [| discriminate H].
  destruct (check_aligned spec _ _expected_aligned_32_rows _) as [r3 |] eqn:E3; [| discriminate H].
  destruct (check_cases spec _ _expected_four_byte_32_case) as [r4 |] eqn:E4; [| discriminate H]. clear H.
  apply check_aligned_ok in E1; [| vm_compute; discriminate]. apply check_aligned_ok in E3; [| vm_compute; discriminate].
  apply check_cases_ok in E2, E4.
  intros key l'.
  destruct (String.eqb_spec key "table_8_4_aligned_64") as [-> | N1]; [intros Hl; apply ok_inj in Hl; subst l'; eauto |].
  destruct (String.eqb_spec key "table_8_5_four_byte_cases") as [-> | N2]; [intros Hl; apply ok_inj in Hl; subst l'; eauto |].
  destruct (String.eqb_spec key "table_8_6_aligned_32") as [-> | N3]; [intros Hl; apply ok_inj in Hl; subst l'; eauto |].
  destruct (String.eqb_spec key "table_8_7_four_byte_cases") as [-> | N4]; [intros Hl; apply ok_inj in Hl; subst l'; eauto |].
  apply String.eqb_neq in N1, N2, N3, N4. unfold rows_of, tables, item. cbn [dict_get]. rewrite N1, N2, N3, N4. discriminate.
Qed.

(** ** What a query answers *)

(** The transfers of an access: a misaligned word is split at the word boundary,
    anything else is one transfer; each has its TSIZ code and, on a bus of [w]
    bits, the lanes its first beat drives. *)
Definition split (address size : Z) : list (Z * Z) :=
  if (size =? 4) && negb (address mod 4 =? 0) then
    let first := 4 - address mod 4 in [(address, first); (address + first, size - first)]
  else [(address, size)].
Definition transfer_at (w : Z) (part : Z * Z) : transfer :=
  let '(a, n) := part in (a, n, tsiz n, seqZ (a mod (w / 8)) (Z.min n (w / 8))).
Definition bus_transfers (w address size : Z) : list transfer := map (transfer_at w) (split address size).
Definition accepted (address size : Z) : bool := (size =? 4) || (address mod size =? 0).


Lemma size_cases size (P : Z -> Prop) : existsb (Z.eqb size) [1; 2; 4; 8] = true -> P 1 -> P 2 -> P 4 -> P 8 -> P size.
Proof. cbn. rewrite !orb_true_iff, !Z.eqb_eq. intros [-> | [-> | [-> | [-> | [=]]]]]; auto. Qed.
Lemma width_cases w (P : Z -> Prop) : existsb (Z.eqb w) [32; 64] = true -> P 32 -> P 64 -> P w.
Proof. cbn. rewrite !orb_true_iff, !Z.eqb_eq. intros [-> | [-> | [=]]]; auto. Qed.

Lemma mod_shift a q w : existsb (Z.eqb w) [32; 64] = true -> (8 * q + a) mod (w / 8) = a mod (w / 8).
Proof.
  intros Hw. pattern w. apply width_cases; [exact Hw | ..]; change (32 / 8) with 4; change (64 / 8) with 8;
    Z.div_mod_to_equations; lia.
Qed.
Lemma transfers_shift w q o size :
  existsb (Z.eqb w) [32; 64] = true -> bus_transfers w (8 * q + o) size = map (shift (8 * q)) (bus_transfers w o size).
Proof.
  intros Hw. unfold bus_transfers, split. replace ((8 * q + o) mod 4) with (o mod 4) by (Z.div_mod_to_equations; lia).
  destruct (_ && _); cbn [map transfer_at shift]; rewrite ?mod_shift by exact Hw; [| reflexivity].
  rewrite <- (Z.add_assoc (8 * q) o), mod_shift by exact Hw. reflexivity.
Qed.

(** The accesses of a selected case, transfer by transfer. *)
Lemma build_all address table rows l l' ts :
  Forall2 alike l l' -> forallb good_row l' = true -> mapM view_row l' = Some ts ->
  exists acc, map_res (build_access address table rows) l = Ok acc /\ mapM view_access acc = Some (map (shift address) ts).
Proof.
  intros H. revert ts. induction H as [| x y l l' Hx Hl IH]; intros ts Hg Hv; cbn in Hv; [injection Hv as <-; exists []; auto |].
  cbn in Hg. apply andb_true_iff in Hg as [Hg1 Hg2]. destruct (view_row y) as [t |] eqn:Et; [| discriminate]. cbn in Hv.
  destruct (mapM view_row l') as [ts' |]; [| discriminate]. injection Hv as <-.
  destruct (build_ok address table rows x y t Hx Hg1 Et) as (a & Ea & Va). destruct (IH ts' Hg2 eq_refl) as (acc & Eacc & Vacc).
  exists (a :: acc). cbn [map_res]. rewrite Ea, Eacc. split; [reflexivity |]. cbn. rewrite Va. cbn. rewrite Vacc. reflexivity.
Qed.

(** The tables hold, at each place in a doubleword, the transfers of that access. *)
Definition case_ok (w size offset : Z) : bool :=
  match select tables offset size offset w with
  | Ok (y, t, b) =>
      accepted offset size &&
      match accesses_of y, item y "alignment"%string with
      | Ok l, Ok (JStr _) =>
          forallb good_row l && bool_decide (mapM view_row l = Some (map (shift (- offset)) (bus_transfers w offset size)))
      | _, _ => false
      end
  | Raise (ScopeError _) => negb (accepted offset size)
  | Raise _ => false
  end.
Lemma tables_ok : forallb (fun w => forallb (fun size => forallb (case_ok w size) (seqZ 0 8)) [1; 2; 4; 8]) [32; 64] = true.
Proof. vm_compute. reflexivity. Qed.
Lemma case_holds w size offset :
  existsb (Z.eqb w) [32; 64] = true -> existsb (Z.eqb size) [1; 2; 4; 8] = true -> 0 <= offset < 8 -> case_ok w size offset = true.
Proof.
  intros Hw Hn Ho. pose proof tables_ok as H. rewrite forallb_forall in H. apply existsb_exists in Hw as (w' & Hw & Ew), Hn as (n' & Hn & En).
  apply Z.eqb_eq in Ew as <-, En as <-. specialize (H w Hw). rewrite forallb_forall in H. specialize (H size Hn).
  rewrite forallb_forall in H. apply H, list_elem_of_In, elem_of_seqZ. lia.
Qed.

(** The place in a doubleword decides. *)
Lemma land7 a : Z.land a 7 = a mod 8.
Proof. change 7 with (Z.ones 3). apply Z.land_ones. lia. Qed.
Lemma accepted_offset a size : existsb (Z.eqb size) [1; 2; 4; 8] = true -> accepted (Z.land a 7) size = accepted a size.
Proof.
  intros Hn. pattern size. apply size_cases; [exact Hn | ..]; unfold accepted; rewrite land7; cbn [Z.eqb Pos.eqb orb]; try reflexivity;
    f_equal; Z.div_mod_to_equations; lia.
Qed.
Lemma select_offset spec a size w :
  existsb (Z.eqb size) [1; 2; 4; 8] = true -> select spec a size (Z.land a 7) w = select spec (Z.land a 7) size (Z.land a 7) w.
Proof.
  intros Hn. unfold select, select_aligned. case_if; [reflexivity |]. pose proof (accepted_offset a size Hn) as H. unfold accepted in H.
  rewrite E in H. cbn [orb] in H. rewrite H. reflexivity.
Qed.

(** What the query selects from a validated manifest: the case of the tables, or nothing. *)
Lemma select_ok spec a size w :
  has_tables spec -> existsb (Z.eqb w) [32; 64] = true -> existsb (Z.eqb size) [1; 2; 4; 8] = true ->
  if accepted a size then
    exists x t b l al l', select spec a size (Z.land a 7) w = Ok (x, t, b) /\ usable x l al /\ Forall2 alike l l' /\
      forallb good_row l' = true /\ mapM view_row l' = Some (map (shift (- Z.land a 7)) (bus_transfers w (Z.land a 7) size))
  else exists m, select spec a size (Z.land a 7) w = Raise (ScopeError m).
Proof.
  intros Hs Hw Hn. rewrite select_offset, <- (accepted_offset a size Hn) by exact Hn.
  assert (Ho : 0 <= Z.land a 7 < 8) by (rewrite land7; apply Z.mod_pos_bound; lia). generalize dependent (Z.land a 7). intros o Ho.
  pose proof (case_holds w size o Hw Hn Ho) as H. unfold case_ok in H. destruct (select tables o size o w) as [[[y t] b] | e] eqn:Es.
  - apply andb_true_iff in H as [Ha H]. rewrite Ha. destruct (accesses_of y) as [l' |] eqn:El; [| discriminate].
    destruct (item y "alignment") as [[| | | al | |] |] eqn:Eal; try discriminate. apply andb_true_iff in H as [Hg Hv].
    apply bool_decide_eq_true in Hv. pose proof (conj El Eal : usable y l' al) as Hu.
    assert (Hx : exists x l, select spec o size o w = Ok (x, t, b) /\ usable x l al /\ Forall2 alike l l').
    { unfold select in *. destruct (size =? 4); [exact (four_byte_same _ _ _ _ _ _ _ _ Hs Es Hu Hg) |].
      exact (aligned_same _ _ _ _ _ _ Hs Es l' al Hu Hg). }
    destruct Hx as (x & l & Ex & Hux & Hl). exists x, t, b, l, al, l'. auto.
  - destruct e; try discriminate. apply negb_true_iff in H. rewrite H. exists msg. unfold select in *. unfold accepted in H.
    destruct (size =? 4); [discriminate H |]. exact (aligned_same _ _ _ _ _ _ Hs Es).
Qed.

(** The arguments a query takes. *)
Definition query_domain (address size bus_width : json) : option (Z * Z * Z) :=
  match address, size, bus_width with
  | JInt a, JInt n, JInt w =>
      if (0 <=? a) && (a + n - 1 <=? MAX_ADDRESS) && existsb (Z.eqb n) [1; 2; 4; 8] && existsb (Z.eqb w) [32; 64]
      then Some (a, n, w) else None
  | _, _, _ => None
  end.
Lemma check_query_domain address size bus_width :
  match query_domain address size bus_width with
  | Some r => _check_query address size bus_width = Ok r
  | None => exists m, _check_query address size bus_width = Raise (AddressError m)
  end.
Proof.
  unfold query_domain, _check_query. destruct address as [| | a | | |]; cbn [int_in]; try (eexists; reflexivity).
  destruct size as [| | n | | |].
  3: destruct bus_width as [| | w | | |].
  5: { cbn [int_in]. destruct (_ && _ && _ && _) eqn:E.
       - apply andb_true_iff in E as [E Ew]. apply andb_true_iff in E as [E En]. apply andb_true_iff in E as [E0 E].
         assert (Ea : (a <=? MAX_ADDRESS) = true).
         { apply Z.leb_le in E. apply Z.leb_le. apply (size_cases n (fun n => a + n - 1 <= MAX_ADDRESS -> a <= MAX_ADDRESS) En); lia. }
         rewrite E0, Ea. cbn [andb]. rewrite En, Ew, E. reflexivity.
       - repeat match goal with |- context [if ?b then _ else _] => destruct b eqn:?; [| eexists; reflexivity] end.
         repeat match goal with H : _ && _ = true |- _ => apply andb_true_iff in H as [? ?] end.
         repeat match goal with H : _ = true |- _ => rewrite H in E end. discriminate E. }
  all: cbn [int_in]; repeat (match goal with |- context [if ?b then _ else _] => destruct b end; cbn [int_in]); eexists; reflexivity.
Qed.

(** What an answer says of its transfers. *)
Definition view (r : json) : option (list transfer) :=
  match item r "accesses"%string with Ok (JList l) => mapM view_access l | _ => None end.
(** The rule of the manifest that an access crossing a 32-byte granule is given. The
    validation does not look at it. *)
Definition boundary_action (spec : json) (a n : Z) : result json :=
  if a / 32 =? (a + n - 1) / 32 then Ok (JStr "not_applicable"%string)
  else let! rule := item spec "coherency_boundary_rule"%string in item rule "rule"%string.
Definition has_rule (spec : json) : Prop :=
  exists rule v, item spec "coherency_boundary_rule"%string = Ok rule /\ item rule "rule"%string = Ok v.
Lemma has_rule_action spec a n : has_rule spec -> exists action, boundary_action spec a n = Ok action.
Proof. intros (rule & v & Hr & Hv). unfold boundary_action. rewrite Hr. case_if; [eauto |]. exists v. exact Hv. Qed.

Lemma domain_sizes address size bus_width a n w :
  query_domain address size bus_width = Some (a, n, w) -> existsb (Z.eqb n) [1; 2; 4; 8] = true /\ existsb (Z.eqb w) [32; 64] = true.
Proof.
  unfold query_domain. intros Ed. destruct address, size, bus_width; try discriminate. destruct (_ && _ && _ && _) eqn:E in Ed; [| discriminate].
  injection Ed as -> -> ->. apply andb_true_iff in E as [E Hw]. apply andb_true_iff in E as [_ Hn]. auto.
Qed.

(** An access of the tables is answered with its transfers, if it can be given its rule. *)
Lemma query_decides spec counts address size bus_width a n w :
  validate spec = Ok counts -> query_domain address size bus_width = Some (a, n, w) -> accepted a n = true ->
  match boundary_action spec a n with
  | Ok action => exists r, query address size bus_width spec = Ok r /\ view r = Some (bus_transfers w a n) /\
                           item r "coherency_boundary_action"%string = Ok action
  | Raise e => query address size bus_width spec = Raise e
  end.
Proof.
  intros Hv Ed Ha. unfold query. rewrite Hv. pose proof (check_query_domain address size bus_width) as Hd.
  rewrite Ed in Hd. rewrite Hd. destruct (domain_sizes _ _ _ _ _ _ Ed) as [Hn Hw].
  pose proof (select_ok spec a n w (validate_tables _ _ Hv) Hw Hn) as Hs. fold (select spec a n (Z.land a 7) w). rewrite Ha in Hs.
  destruct Hs as (x & t & b & l & al & l' & -> & [El Eal] & Hl & Hg & Hts). rewrite El, Eal.
  set (rows := if py_eq _ _ then t else _). set (table := if _ && _ then _ else _).
  destruct (build_all a table rows l l' _ Hl Hg Hts) as (acc & Eacc & Vacc). rewrite Eacc.
  assert (Eact : (if negb (a / 32 =? (a + n - 1) / 32) then let! r := item spec "coherency_boundary_rule" in item r "rule"
                  else Ok (JStr "not_applicable")) = boundary_action spec a n).
  { unfold boundary_action. destruct (a / 32 =? (a + n - 1) / 32); reflexivity. }
  rewrite Eact. destruct (boundary_action spec a n) as [action | e]; [| reflexivity].
  eexists. split; [reflexivity |]. split; [| reflexivity].
  change (mapM view_access acc = Some (bus_transfers w a n)). rewrite Vacc. f_equal.
  assert (Eo : 8 * (a / 8) + Z.land a 7 = a) by (rewrite land7; Z.div_mod_to_equations; lia).
  transitivity (bus_transfers w (8 * (a / 8) + Z.land a 7) n); [| rewrite Eo; reflexivity].
  rewrite transfers_shift, map_map by exact Hw. apply map_ext. intros [[[p k] c] m]. cbn [shift].
  f_equal. f_equal. f_equal. lia.
Qed.

Lemma query_accepted spec counts address size bus_width a n w :
  validate spec = Ok counts -> has_rule spec -> query_domain address size bus_width = Some (a, n, w) -> accepted a n = true ->
  exists r, query address size bus_width spec = Ok r /\ view r = Some (bus_transfers w a n).
Proof.
  intros Hv Hr Ed Ha. pose proof (query_decides _ _ _ _ _ _ _ _ Hv Ed Ha) as H.
  destruct (has_rule_action spec a n Hr) as [action E]. rewrite E in H. destruct H as (r & Hq & V & _). exists r. auto.
Qed.




(** ** The queries together *)

(** What a size query says of the transfer, on a bus of [w] bits. *)
Definition size_decoded (w : Z) (t : transfer) : bool :=
  let '(_, n, c, _) := t in
  match bus_decode.decode_size "negated" c w "memory" bus_encodings with
  | Ok d =>
      match item d "status", item d "transfer_size_bytes", item d "data_beats" with
      | Ok (JStr s), Ok (JInt k), Ok (JInt beats) => String.eqb s "defined" && (k =? n) && (beats =? (n + w / 8 - 1) / (w / 8))
      | _, _, _ => false
      end
  | Raise _ => false
  end.
Lemma sizes_decoded w a n c m :
  existsb (Z.eqb w) [32; 64] = true -> existsb (Z.eqb n) [1; 2; 3; 4; 8] = true -> c = tsiz n -> size_decoded w (a, n, c, m) = true.
Proof.
  intros Hw Hn ->. cbn in Hn. rewrite !orb_true_iff, !Z.eqb_eq in Hn. pattern w. apply width_cases; [exact Hw | ..];
    destruct Hn as [-> | [-> | [-> | [-> | [-> | [=]]]]]]; vm_compute; reflexivity.
Qed.
Lemma transfers_decoded w a n :
  existsb (Z.eqb w) [32; 64] = true -> existsb (Z.eqb n) [1; 2; 4; 8] = true -> Forall (fun t => size_decoded w t = true) (bus_transfers w a n).
Proof.
  intros Hw Hn. unfold bus_transfers, split. case_if.
  - apply andb_true_iff in E as [E1 E2]. apply Z.eqb_eq in E1 as ->. apply negb_true_iff, Z.eqb_neq in E2.
    pose proof (Z.mod_pos_bound a 4 eq_refl) as B.
    assert (Ec : a mod 4 = 1 \/ a mod 4 = 2 \/ a mod 4 = 3) by lia.
    destruct Ec as [-> | [-> | ->]]; repeat constructor; apply sizes_decoded; auto.
  - repeat constructor. apply sizes_decoded; [exact Hw | | reflexivity]. pattern n. apply size_cases; [exact Hn | reflexivity ..].
Qed.

(** The addressing tool and the encoding tool agree. Every transfer a query
    answers with has a TSIZ code that the size query on the shipped encodings
    decodes, for a nonburst memory access on that bus width, to a defined entry of
    the same size, moved in as many beats as the bus needs. *)
Theorem query_sizes_decode spec counts address size bus_width a n w :
  validate spec = Ok counts -> has_rule spec -> query_domain address size bus_width = Some (a, n, w) -> accepted a n = true ->
  exists r ts, query address size bus_width spec = Ok r /\ view r = Some ts /\ ts <> [] /\ Forall (fun t => size_decoded w t = true) ts.
Proof.
  intros Hv Hr Ed Ha. destruct (query_accepted _ _ _ _ _ _ _ _ Hv Hr Ed Ha) as (r & E & V). exists r, (bus_transfers w a n).
  destruct (domain_sizes _ _ _ _ _ _ Ed) as [Hn Hw]. split; [exact E |]. split; [exact V |]. split; [| exact (transfers_decoded w a n Hw Hn)].
  unfold bus_transfers, split. case_if; discriminate.
Qed.

Lemma query_sizes_decode_witness :
  exists r ts, query (JInt 0x1002) (JInt 4) (JInt 64) bus_addressing = Ok r /\ view r = Some ts /\ ts <> [] /\
    Forall (fun t => size_decoded 64 t = true) ts.
Proof.
  destruct (validate bus_addressing) as [counts | e] eqn:E; [| vm_compute in E; discriminate E].
  apply (query_sizes_decode bus_addressing counts _ _ _ 0x1002 4 64 E); [do 2 eexists; split; reflexivity | reflexivity ..].
Defined.

Lemma decode_tt_correct_witness :
  exists rows row, bus_decode.decode_tt "01010" "master" true bus_encodings = bus_decode.describe_row bus_encodings row "01010" "master" true /\
    tt_rows bus_encodings = Ok rows /\ List.filter (row_matches "01010") rows = [row].
Proof.
  destruct (bus_decode.validate bus_encodings) as [counts | e] eqn:E; [| vm_compute in E; discriminate E].
  destruct (decode_tt_correct bus_encodings counts "01010" "master" true E) as (rows & row & H1 & H2 & H3).
  exists rows, row. split; [exact H3 | split; [exact H1 | exact H2]].
Defined.
