(* ===== verification/IsaMatrix.v ===== *)
(** * The shipped ISA matrix

    The decode entries of [sim/spec/isa.json] that the self-test generator reads:
    mask, value, variants, privilege, mnemonic and unit, in the order of the file. *)
From S2P Require Import Prelude SelftestRun.
Import selftest_run.
#[local] Open Scope string_scope.
#[local] Open Scope Z_scope.

Module isa_matrix.

Definition row (mask value : Z) (m u p : string) (status : dict string) : entry :=
  {| e_mask := mask; e_value := value; variants := status; privilege := p; mnemonic := m; unit_ := u |}.
Definition variants_0 : dict string := [("PID6-603e", "legal"); ("PID7v-603e", "legal"); ("EC603e", "legal"); ("603", "legal"); ("602", "legal")].
Definition variants_1 : dict string := [("PID6-603e", "legal"); ("PID7v-603e", "legal"); ("EC603e", "legal"); ("603", "legal"); ("602", "emulation_trap")].
Definition variants_2 : dict string := [("PID6-603e", "legal"); ("PID7v-603e", "legal"); ("EC603e", "legal"); ("603", "legal"); ("602", "illegal")].
Definition variants_3 : dict string := [("PID6-603e", "legal"); ("PID7v-603e", "legal"); ("EC603e", "legal"); ("603", "illegal"); ("602", "legal")].
Definition variants_4 : dict string := [("PID6-603e", "legal"); ("PID7v-603e", "legal"); ("EC603e", "fp_unavailable"); ("603", "legal"); ("602", "tag_checked")].
Definition variants_5 : dict string := [("PID6-603e", "legal"); ("PID7v-603e", "legal"); ("EC603e", "fp_unavailable"); ("603", "legal"); ("602", "emulation_trap")].

Definition decode_entries : list entry := [
  row 0xfc000000 0x38000000 "addi" "Integer/SRU" "user" variants_0;
  row 0xfc000000 0x3c000000 "addis" "Integer/SRU" "user" variants_0;
  row 0xfc000000 0x60000000 "ori" "Integer" "user" variants_0;
  row 0xfc000000 0x64000000 "oris" "Integer" "user" variants_0;
  row 0xfc000000 0x68000000 "xori" "Integer" "user" variants_0;
  row 0xfc000000 0x6c000000 "xoris" "Integer" "user" variants_0;
  row 0xfc0007ff 0x7c000214 "add" "Integer/SRU" "user" variants_0;
  row 0xfc0007ff 0x7c000215 "add." "Integer" "user" variants_0;
  row 0xfc0007ff 0x7c000614 "addo" "Integer/SRU" "user" variants_0;
  row 0xfc0007ff 0x7c000615 "addo." "Integer" "user" variants_0;
  row 0xfc0007ff 0x7c000014 "addc" "Integer" "user" variants_0;
  row 0xfc0007ff 0x7c000015 "addc." "Integer" "user" variants_0;
  row 0xfc0007ff 0x7c000414 "addco" "Integer" "user" variants_0;
  row 0xfc0007ff 0x7c000415 "addco." "Integer" "user" variants_0;
  row 0xfc0007ff 0x7c000114 "adde" "Integer" "user" variants_0;
  row 0xfc0007ff 0x7c000115 "adde." "Integer" "user" variants_0;
  row 0xfc0007ff 0x7c000514 "addeo" "Integer" "user" variants_0;
  row 0xfc0007ff 0x7c000515 "addeo." "Integer" "user" variants_0;
  row 0xfc00ffff 0x7c0001d4 "addme" "Integer" "user" variants_0;
  row 0xfc00ffff 0x7c0001d5 "addme." "Integer" "user" variants_0;
  row 0xfc00ffff 0x7c0005d4 "addmeo" "Integer" "user" variants_0;
  row 0xfc00ffff 0x7c0005d5 "addmeo." "Integer" "user" variants_0;
  row 0xfc00ffff 0x7c000194 "addze" "Integer" "user" variants_0;
  row 0xfc00ffff 0x7c000195 "addze." "Integer" "user" variants_0;
  row 0xfc00ffff 0x7c000594 "addzeo" "Integer" "user" variants_0;
  row 0xfc00ffff 0x7c000595 "addzeo." "Integer" "user" variants_0;
  row 0xfc0007ff 0x7c000038 "and" "Integer" "user" variants_0;
  row 0xfc0007ff 0x7c000039 "and." "Integer" "user" variants_0;
  row 0xfc0007ff 0x7c000078 "andc" "Integer" "user" variants_0;
  row 0xfc0007ff 0x7c000079 "andc." "Integer" "user" variants_0;
  row 0xfc0007ff 0x7c000378 "or" "Integer" "user" variants_0;
  row 0xfc0007ff 0x7c000379 "or." "Integer" "user" variants_0;
  row 0xfc0007ff 0x7c000338 "orc" "Integer" "user" variants_0;
  row 0xfc0007ff 0x7c000339 "orc." "Integer" "user" variants_0;
  row 0xfc0007ff 0x7c000278 "xor" "Integer" "user" variants_0;
  row 0xfc0007ff 0x7c000279 "xor." "Integer" "user" variants_0;
  row 0xfc0007ff 0x7c0003b8 "nand" "Integer" "user" variants_0;
  row 0xfc0007ff 0x7c0003b9 "nand." "Integer" "user" variants_0;
  row 0xfc0007ff 0x7c0000f8 "nor" "Integer" "user" variants_0;
  row 0xfc0007ff 0x7c0000f9 "nor." "Integer" "user" variants_0;
  row 0xfc0007ff 0x7c000238 "eqv" "Integer" "user" variants_0;
  row 0xfc0007ff 0x7c000239 "eqv." "Integer" "user" variants_0;
  row 0xfc000001 0x50000000 "rlwimi" "Integer" "user" variants_0;
  row 0xfc000001 0x50000001 "rlwimi." "Integer" "user" variants_0;
  row 0xfc000001 0x54000000 "rlwinm" "Integer" "user" variants_0;
  row 0xfc000001 0x54000001 "rlwinm." "Integer" "user" variants_0;
  row 0xfc000001 0x5c000000 "rlwnm" "Integer" "user" variants_0;
  row 0xfc000001 0x5c000001 "rlwnm." "Integer" "user" variants_0;
  row 0xfc0007ff 0x7c000030 "slw" "Integer" "user" variants_0;
  row 0xfc0007ff 0x7c000031 "slw." "Integer" "user" variants_0;
  row 0xfc0007ff 0x7c000430 "srw" "Integer" "user" variants_0;
  row 0xfc0007ff 0x7c000431 "srw." "Integer" "user" variants_0;
  row 0xfc0007ff 0x7c000630 "sraw" "Integer" "user" variants_0;
  row 0xfc0007ff 0x7c000631 "sraw." "Integer" "user" variants_0;
  row 0xfc0007ff 0x7c000670 "srawi" "Integer" "user" variants_0;
  row 0xfc0007ff 0x7c000671 "srawi." "Integer" "user" variants_0;
  row 0xfc6007ff 0x7c000000 "cmp" "Integer/SRU" "user" variants_0;
  row 0xfc600000 0x2c000000 "cmpi" "Integer/SRU" "user" variants_0;
  row 0xfc6007ff 0x7c000040 "cmpl" "Integer/SRU" "user" variants_0;
  row 0xfc600000 0x28000000 "cmpli" "Integer/SRU" "user" variants_0;
  row 0xfc000003 0x48000000 "b" "BPU" "user" variants_0;
  row 0xfc000003 0x48000001 "bl" "BPU" "user" variants_0;
  row 0xfc000003 0x48000002 "ba" "BPU" "user" variants_0;
  row 0xfc000003 0x48000003 "bla" "BPU" "user" variants_0;
  row 0xfc000003 0x40000000 "bc" "BPU" "user" variants_0;
  row 0xfc000003 0x40000001 "bcl" "BPU" "user" variants_0;
  row 0xfc000003 0x40000002 "bca" "BPU" "user" variants_0;
  row 0xfc000003 0x40000003 "bcla" "BPU" "user" variants_0;
  row 0xfc00ffff 0x4c000020 "bclr" "BPU" "user" variants_0;
  row 0xfc00ffff 0x4c000021 "bclrl" "BPU" "user" variants_0;
  row 0xfc00ffff 0x4c000420 "bcctr" "BPU" "user" variants_0;
  row 0xfc00ffff 0x4c000421 "bcctrl" "BPU" "user" variants_0;
  row 0xfc1fffff 0x7c0802a6 "mflr" "SRU" "user" variants_0;
  row 0xfc1fffff 0x7c0902a6 "mfctr" "SRU" "user" variants_0;
  row 0xfc1fffff 0x7c0803a6 "mtlr" "SRU" "user" variants_0;
  row 0xfc1fffff 0x7c0903a6 "mtctr" "SRU" "user" variants_0;
  row 0xfc000000 0x80000000 "lwz" "LSU" "user" variants_0;
  row 0xfc000000 0x88000000 "lbz" "LSU" "user" variants_0;
  row 0xfc000000 0x90000000 "stw" "LSU" "user" variants_0;
  row 0xfc000000 0x98000000 "stb" "LSU" "user" variants_0;
  row 0xfc000000 0xa0000000 "lhz" "LSU" "user" variants_0;
  row 0xfc000000 0xa8000000 "lha" "LSU" "user" variants_0;
  row 0xfc000000 0xb0000000 "sth" "LSU" "user" variants_0;
  row 0xfc0007ff 0x7c00002e "lwzx" "LSU" "user" variants_0;
  row 0xfc0007ff 0x7c0000ae "lbzx" "LSU" "user" variants_0;
  row 0xfc0007ff 0x7c00012e "stwx" "LSU" "user" variants_0;
  row 0xfc0007ff 0x7c0001ae "stbx" "LSU" "user" variants_0;
  row 0xfc0007ff 0x7c00022e "lhzx" "LSU" "user" variants_0;
  row 0xfc0007ff 0x7c0002ae "lhax" "LSU" "user" variants_0;
  row 0xfc0007ff 0x7c00032e "sthx" "LSU" "user" variants_0;
  row 0xfc0007ff 0x7c000050 "subf" "Integer" "user" variants_0;
  row 0xfc0007ff 0x7c000051 "subf." "Integer" "user" variants_0;
  row 0xfc0007ff 0x7c000450 "subfo" "Integer" "user" variants_0;
  row 0xfc0007ff 0x7c000451 "subfo." "Integer" "user" variants_0;
  row 0xfc00ffff 0x7c0000d0 "neg" "Integer" "user" variants_0;
  row 0xfc00ffff 0x7c0000d1 "neg." "Integer" "user" variants_0;
  row 0xfc00ffff 0x7c0004d0 "nego" "Integer" "user" variants_0;
  row 0xfc00ffff 0x7c0004d1 "nego." "Integer" "user" variants_0;
  row 0xfc0007ff 0x7c000010 "subfc" "Integer" "user" variants_0;
  row 0xfc0007ff 0x7c000011 "subfc." "Integer" "user" variants_0;
  row 0xfc0007ff 0x7c000410 "subfco" "Integer" "user" variants_0;
  row 0xfc0007ff 0x7c000411 "subfco." "Integer" "user" variants_0;
  row 0xfc0007ff 0x7c000110 "subfe" "Integer" "user" variants_0;
  row 0xfc0007ff 0x7c000111 "subfe." "Integer" "user" variants_0;
  row 0xfc0007ff 0x7c000510 "subfeo" "Integer" "user" variants_0;
  row 0xfc0007ff 0x7c000511 "subfeo." "Integer" "user" variants_0;
  row 0xfc00ffff 0x7c0001d0 "subfme" "Integer" "user" variants_0;
  row 0xfc00ffff 0x7c0001d1 "subfme." "Integer" "user" variants_0;
  row 0xfc00ffff 0x7c0005d0 "subfmeo" "Integer" "user" variants_0;
  row 0xfc00ffff 0x7c0005d1 "subfmeo." "Integer" "user" variants_0;
  row 0xfc00ffff 0x7c000190 "subfze" "Integer" "user" variants_0;
  row 0xfc00ffff 0x7c000191 "subfze." "Integer" "user" variants_0;
  row 0xfc00ffff 0x7c000590 "subfzeo" "Integer" "user" variants_0;
  row 0xfc00ffff 0x7c000591 "subfzeo." "Integer" "user" variants_0;
  row 0xfc000000 0x20000000 "subfic" "Integer" "user" variants_0;
  row 0xfc000000 0x30000000 "addic" "Integer" "user" variants_0;
  row 0xfc000000 0x34000000 "addic." "Integer" "user" variants_0;
  row 0xfc000000 0x70000000 "andi." "Integer" "user" variants_0;
  row 0xfc000000 0x74000000 "andis." "Integer" "user" variants_0;
  row 0xfc00ffff 0x7c000034 "cntlzw" "Integer" "user" variants_0;
  row 0xfc00ffff 0x7c000035 "cntlzw." "Integer" "user" variants_0;
  row 0xfc00ffff 0x7c000774 "extsb" "Integer" "user" variants_0;
  row 0xfc00ffff 0x7c000775 "extsb." "Integer" "user" variants_0;
  row 0xfc00ffff 0x7c000734 "extsh" "Integer" "user" variants_0;
  row 0xfc00ffff 0x7c000735 "extsh." "Integer" "user" variants_0;
  row 0xfc1fffff 0x7c000026 "mfcr" "SRU" "user" variants_0;
  row 0xfc100fff 0x7c000120 "mtcrf" "SRU" "user" variants_0;
  row 0xfc0007ff 0x4c000202 "crand" "SRU" "user" variants_0;
  row 0xfc0007ff 0x4c000102 "crandc" "SRU" "user" variants_0;
  row 0xfc0007ff 0x4c000242 "creqv" "SRU" "user" variants_0;
  row 0xfc0007ff 0x4c0001c2 "crnand" "SRU" "user" variants_0;
  row 0xfc0007ff 0x4c000042 "crnor" "SRU" "user" variants_0;
  row 0xfc0007ff 0x4c000382 "cror" "SRU" "user" variants_0;
  row 0xfc0007ff 0x4c000342 "crorc" "SRU" "user" variants_0;
  row 0xfc0007ff 0x4c000182 "crxor" "SRU" "user" variants_0;
  row 0xfc63ffff 0x4c000000 "mcrf" "SRU" "user" variants_0;
  row 0xfc7fffff 0x7c000400 "mcrxr" "SRU" "user" variants_0;
  row 0xfc000000 0x1c000000 "mulli" "Integer" "user" variants_0;
  row 0xfc0007ff 0x7c0001d6 "mullw" "Integer" "user" variants_0;
  row 0xfc0007ff 0x7c0001d7 "mullw." "Integer" "user" variants_0;
  row 0xfc0007ff 0x7c0005d6 "mullwo" "Integer" "user" variants_0;
  row 0xfc0007ff 0x7c0005d7 "mullwo." "Integer" "user" variants_0;
  row 0xfc0007ff 0x7c000096 "mulhw" "Integer" "user" variants_0;
  row 0xfc0007ff 0x7c000097 "mulhw." "Integer" "user" variants_0;
  row 0xfc0007ff 0x7c000016 "mulhwu" "Integer" "user" variants_0;
  row 0xfc0007ff 0x7c000017 "mulhwu." "Integer" "user" variants_0;
  row 0xfc0007ff 0x7c000396 "divwu" "Integer" "user" variants_0;
  row 0xfc0007ff 0x7c000397 "divwu." "Integer" "user" variants_0;
  row 0xfc0007ff 0x7c000796 "divwuo" "Integer" "user" variants_0;
  row 0xfc0007ff 0x7c000797 "divwuo." "Integer" "user" variants_0;
  row 0xfc0007ff 0x7c0003d6 "divw" "Integer" "user" variants_0;
  row 0xfc0007ff 0x7c0003d7 "divw." "Integer" "user" variants_0;
  row 0xfc0007ff 0x7c0007d6 "divwo" "Integer" "user" variants_0;
  row 0xfc0007ff 0x7c0007d7 "divwo." "Integer" "user" variants_0;
  row 0xfc000000 0x84000000 "lwzu" "LSU" "user" variants_0;
  row 0xfc000000 0x8c000000 "lbzu" "LSU" "user" variants_0;
  row 0xfc000000 0xa4000000 "lhzu" "LSU" "user" variants_0;
  row 0xfc000000 0xac000000 "lhau" "LSU" "user" variants_0;
  row 0xfc000000 0x94000000 "stwu" "LSU" "user" variants_0;
  row 0xfc000000 0x9c000000 "stbu" "LSU" "user" variants_0;
  row 0xfc000000 0xb4000000 "sthu" "LSU" "user" variants_0;
  row 0xfc0007ff 0x7c00006e "lwzux" "LSU" "user" variants_0;
  row 0xfc0007ff 0x7c0000ee "lbzux" "LSU" "user" variants_0;
  row 0xfc0007ff 0x7c00026e "lhzux" "LSU" "user" variants_0;
  row 0xfc0007ff 0x7c0002ee "lhaux" "LSU" "user" variants_0;
  row 0xfc0007ff 0x7c00016e "stwux" "LSU" "user" variants_0;
  row 0xfc0007ff 0x7c0001ee "stbux" "LSU" "user" variants_0;
  row 0xfc0007ff 0x7c00036e "sthux" "LSU" "user" variants_0;
  row 0xfc1fffff 0x7c1042a6 "mfsprg0" "SRU" "supervisor" variants_0;
  row 0xfc1fffff 0x7c1043a6 "mtsprg0" "SRU" "supervisor" variants_0;
  row 0xfc1fffff 0x7c1142a6 "mfsprg1" "SRU" "supervisor" variants_0;
  row 0xfc1fffff 0x7c1143a6 "mtsprg1" "SRU" "supervisor" variants_0;
  row 0xfc1fffff 0x7c1242a6 "mfsprg2" "SRU" "supervisor" variants_0;
  row 0xfc1fffff 0x7c1243a6 "mtsprg2" "SRU" "supervisor" variants_0;
  row 0xfc1fffff 0x7c1342a6 "mfsprg3" "SRU" "supervisor" variants_0;
  row 0xfc1fffff 0x7c1343a6 "mtsprg3" "SRU" "supervisor" variants_0;
  row 0xffffffff 0x44000002 "sc" "SRU" "user" variants_0;
  row 0xffffffff 0x4c000064 "rfi" "SRU" "supervisor" variants_0;
  row 0xfc1fffff 0x7c0000a6 "mfmsr" "SRU" "supervisor" variants_0;
  row 0xfc1fffff 0x7c1a02a6 "mfsrr0" "SRU" "supervisor" variants_0;
  row 0xfc1fffff 0x7c1b02a6 "mfsrr1" "SRU" "supervisor" variants_0;
  row 0xfc1fffff 0x7c1a03a6 "mtsrr0" "SRU" "supervisor" variants_0;
  row 0xfc1fffff 0x7c1b03a6 "mtsrr1" "SRU" "supervisor" variants_0;
  row 0xffffffff 0x4c00012c "isync" "SRU" "user" variants_0;
  row 0xffffffff 0x7c0004ac "sync" "SRU" "user" variants_0;
  row 0xffffffff 0x7c0006ac "eieio" "SRU" "user" variants_0;
  row 0xfc1fffff 0x7c0102a6 "mfxer" "SRU" "user" variants_0;
  row 0xfc1fffff 0x7c0103a6 "mtxer" "SRU" "user" variants_0;
  row 0xfc1fffff 0x7c000124 "mtmsr" "SRU" "supervisor" variants_0;
  row 0xfc1fffff 0x7c1602a6 "mfdec" "SRU" "supervisor" variants_0;
  row 0xfc1fffff 0x7c1603a6 "mtdec" "SRU" "supervisor" variants_0;
  row 0xfc1fffff 0x7c0c42e6 "mftbl" "SRU" "user" variants_0;
  row 0xfc1fffff 0x7c0d42e6 "mftbu" "SRU" "user" variants_0;
  row 0xfc1fffff 0x7c1c43a6 "mttbl" "SRU" "supervisor" variants_0;
  row 0xfc1fffff 0x7c1d43a6 "mttbu" "SRU" "supervisor" variants_0;
  row 0xfc1fffff 0x7c1082a6 "mfibat0u" "SRU" "supervisor" variants_0;
  row 0xfc1fffff 0x7c1083a6 "mtibat0u" "SRU" "supervisor" variants_0;
  row 0xfc1fffff 0x7c1182a6 "mfibat0l" "SRU" "supervisor" variants_0;
  row 0xfc1fffff 0x7c1183a6 "mtibat0l" "SRU" "supervisor" variants_0;
  row 0xfc1fffff 0x7c1282a6 "mfibat1u" "SRU" "supervisor" variants_0;
  row 0xfc1fffff 0x7c1283a6 "mtibat1u" "SRU" "supervisor" variants_0;
  row 0xfc1fffff 0x7c1382a6 "mfibat1l" "SRU" "supervisor" variants_0;
  row 0xfc1fffff 0x7c1383a6 "mtibat1l" "SRU" "supervisor" variants_0;
  row 0xfc1fffff 0x7c1482a6 "mfibat2u" "SRU" "supervisor" variants_0;
  row 0xfc1fffff 0x7c1483a6 "mtibat2u" "SRU" "supervisor" variants_0;
  row 0xfc1fffff 0x7c1582a6 "mfibat2l" "SRU" "supervisor" variants_0;
  row 0xfc1fffff 0x7c1583a6 "mtibat2l" "SRU" "supervisor" variants_0;
  row 0xfc1fffff 0x7c1682a6 "mfibat3u" "SRU" "supervisor" variants_0;
  row 0xfc1fffff 0x7c1683a6 "mtibat3u" "SRU" "supervisor" variants_0;
  row 0xfc1fffff 0x7c1782a6 "mfibat3l" "SRU" "supervisor" variants_0;
  row 0xfc1fffff 0x7c1783a6 "mtibat3l" "SRU" "supervisor" variants_0;
  row 0xfc1fffff 0x7c1882a6 "mfdbat0u" "SRU" "supervisor" variants_0;
  row 0xfc1fffff 0x7c1883a6 "mtdbat0u" "SRU" "supervisor" variants_0;
  row 0xfc1fffff 0x7c1982a6 "mfdbat0l" "SRU" "supervisor" variants_0;
  row 0xfc1fffff 0x7c1983a6 "mtdbat0l" "SRU" "supervisor" variants_0;
  row 0xfc1fffff 0x7c1a82a6 "mfdbat1u" "SRU" "supervisor" variants_0;
  row 0xfc1fffff 0x7c1a83a6 "mtdbat1u" "SRU" "supervisor" variants_0;
  row 0xfc1fffff 0x7c1b82a6 "mfdbat1l" "SRU" "supervisor" variants_0;
  row 0xfc1fffff 0x7c1b83a6 "mtdbat1l" "SRU" "supervisor" variants_0;
  row 0xfc1fffff 0x7c1c82a6 "mfdbat2u" "SRU" "supervisor" variants_0;
  row 0xfc1fffff 0x7c1c83a6 "mtdbat2u" "SRU" "supervisor" variants_0;
  row 0xfc1fffff 0x7c1d82a6 "mfdbat2l" "SRU" "supervisor" variants_0;
  row 0xfc1fffff 0x7c1d83a6 "mtdbat2l" "SRU" "supervisor" variants_0;
  row 0xfc1fffff 0x7c1e82a6 "mfdbat3u" "SRU" "supervisor" variants_0;
  row 0xfc1fffff 0x7c1e83a6 "mtdbat3u" "SRU" "supervisor" variants_0;
  row 0xfc1fffff 0x7c1f82a6 "mfdbat3l" "SRU" "supervisor" variants_0;
  row 0xfc1fffff 0x7c1f83a6 "mtdbat3l" "SRU" "supervisor" variants_0;
  row 0xfc10ffff 0x7c0001a4 "mtsr" "SRU" "supervisor" variants_0;
  row 0xfc1f07ff 0x7c0001e4 "mtsrin" "SRU" "supervisor" variants_0;
  row 0xfc10ffff 0x7c0004a6 "mfsr" "SRU" "supervisor" variants_0;
  row 0xfc1f07ff 0x7c000526 "mfsrin" "SRU" "supervisor" variants_0;
  row 0xffff07ff 0x7c000264 "tlbie" "LSU" "supervisor" variants_0;
  row 0xffffffff 0x7c00046c "tlbsync" "LSU" "supervisor" variants_0;
  row 0xffff07ff 0x7c0007a4 "tlbld" "LSU" "supervisor" variants_0;
  row 0xffff07ff 0x7c0007e4 "tlbli" "LSU" "supervisor" variants_0;
  row 0xfc1fffff 0x7c11f2a6 "mfdcmp" "SRU" "supervisor" variants_0;
  row 0xfc1fffff 0x7c11f3a6 "mtdcmp" "SRU" "supervisor" variants_0;
  row 0xfc1fffff 0x7c15f2a6 "mficmp" "SRU" "supervisor" variants_0;
  row 0xfc1fffff 0x7c15f3a6 "mticmp" "SRU" "supervisor" variants_0;
  row 0xfc1fffff 0x7c16f2a6 "mfrpa" "SRU" "supervisor" variants_0;
  row 0xfc1fffff 0x7c16f3a6 "mtrpa" "SRU" "supervisor" variants_0;
  row 0xfc1fffff 0x7c1902a6 "mfsdr1" "SRU" "supervisor" variants_0;
  row 0xfc1fffff 0x7c1903a6 "mtsdr1" "SRU" "supervisor" variants_0;
  row 0xfc1fffff 0x7c10f2a6 "mfdmiss" "SRU" "supervisor" variants_0;
  row 0xfc1fffff 0x7c12f2a6 "mfhash1" "SRU" "supervisor" variants_0;
  row 0xfc1fffff 0x7c13f2a6 "mfhash2" "SRU" "supervisor" variants_0;
  row 0xfc1fffff 0x7c14f2a6 "mfimiss" "SRU" "supervisor" variants_0;
  row 0xfc1fffff 0x7c10f3a6 "mtdmiss" "SRU" "supervisor" variants_0;
  row 0xfc1fffff 0x7c14f3a6 "mtimiss" "SRU" "supervisor" variants_0;
  row 0xfc1fffff 0x7c1202a6 "mfdsisr" "SRU" "supervisor" variants_0;
  row 0xfc1fffff 0x7c1203a6 "mtdsisr" "SRU" "supervisor" variants_0;
  row 0xfc1fffff 0x7c1302a6 "mfdar" "SRU" "supervisor" variants_0;
  row 0xfc1fffff 0x7c1303a6 "mtdar" "SRU" "supervisor" variants_0;
  row 0xffe007ff 0x7c0000ac "dcbf" "LSU" "user" variants_0;
  row 0xffe007ff 0x7c0003ac "dcbi" "LSU" "supervisor" variants_0;
  row 0xffe007ff 0x7c00006c "dcbst" "LSU" "user" variants_0;
  row 0xffe007ff 0x7c00022c "dcbt" "LSU" "user" variants_0;
  row 0xffe007ff 0x7c0001ec "dcbtst" "LSU" "user" variants_0;
  row 0xffe007ff 0x7c0007ec "dcbz" "LSU" "user" variants_0;
  row 0xffe007ff 0x7c0007ac "icbi" "LSU" "user" variants_0;
  row 0xfc000000 0xb8000000 "lmw" "LSU" "user" variants_0;
  row 0xfc000000 0xbc000000 "stmw" "LSU" "user" variants_0;
  row 0xfc0007ff 0x7c0004aa "lswi" "LSU" "user" variants_1;
  row 0xfc0007ff 0x7c00042a "lswx" "LSU" "user" variants_1;
  row 0xfc0007ff 0x7c0005aa "stswi" "LSU" "user" variants_1;
  row 0xfc0007ff 0x7c00052a "stswx" "LSU" "user" variants_1;
  row 0xfc0007ff 0x7c000028 "lwarx" "LSU" "user" variants_0;
  row 0xfc0007ff 0x7c00012d "stwcx." "LSU" "user" variants_0;
  row 0xfc0007ff 0x7c00062c "lhbrx" "LSU" "user" variants_0;
  row 0xfc0007ff 0x7c00042c "lwbrx" "LSU" "user" variants_0;
  row 0xfc0007ff 0x7c00072c "sthbrx" "LSU" "user" variants_0;
  row 0xfc0007ff 0x7c00052c "stwbrx" "LSU" "user" variants_0;
  row 0xfc0007ff 0x7c000008 "tw" "Integer" "user" variants_0;
  row 0xfc000000 0x0c000000 "twi" "Integer" "user" variants_0;
  row 0xfc0007ff 0x7c00026c "eciwx" "LSU" "user" variants_2;
  row 0xfc0007ff 0x7c00036c "ecowx" "LSU" "user" variants_2;
  row 0xfc1fffff 0x7c1f42a6 "mfpvr" "SRU" "supervisor" variants_0;
  row 0xfc1fffff 0x7c10faa6 "mfhid0" "SRU" "supervisor" variants_0;
  row 0xfc1fffff 0x7c10fba6 "mthid0" "SRU" "supervisor" variants_0;
  row 0xfc1fffff 0x7c11faa6 "mfhid1" "SRU" "supervisor" variants_3;
  row 0xfc1fffff 0x7c11fba6 "mthid1" "SRU" "supervisor" variants_3;
  row 0xfc1fffff 0x7c1a42a6 "mfear" "SRU" "supervisor" variants_2;
  row 0xfc1fffff 0x7c1a43a6 "mtear" "SRU" "supervisor" variants_2;
  row 0xff9fffff 0x7c0004ac "sync_l" "SRU" "user" variants_0;
  row 0xfc000000 0xc0000000 "lfs" "LSU" "user" variants_4;
  row 0xfc000000 0xc4000000 "lfsu" "LSU" "user" variants_4;
  row 0xfc000000 0xc8000000 "lfd" "LSU" "user" variants_4;
  row 0xfc000000 0xcc000000 "lfdu" "LSU" "user" variants_4;
  row 0xfc000000 0xd0000000 "stfs" "LSU" "user" variants_4;
  row 0xfc000000 0xd4000000 "stfsu" "LSU" "user" variants_4;
  row 0xfc000000 0xd8000000 "stfd" "LSU" "user" variants_4;
  row 0xfc000000 0xdc000000 "stfdu" "LSU" "user" variants_4;
  row 0xfc0007fe 0x7c00042e "lfsx" "LSU" "user" variants_4;
  row 0xfc0007fe 0x7c00046e "lfsux" "LSU" "user" variants_4;
  row 0xfc0007fe 0x7c0004ae "lfdx" "LSU" "user" variants_4;
  row 0xfc0007fe 0x7c0004ee "lfdux" "LSU" "user" variants_4;
  row 0xfc0007fe 0x7c00052e "stfsx" "LSU" "user" variants_4;
  row 0xfc0007fe 0x7c00056e "stfsux" "LSU" "user" variants_4;
  row 0xfc0007fe 0x7c0005ae "stfdx" "LSU" "user" variants_4;
  row 0xfc0007fe 0x7c0005ee "stfdux" "LSU" "user" variants_4;
  row 0xfc0007fe 0x7c0007ae "stfiwx" "LSU" "user" variants_4;
  row 0xfc00003e 0xec000024 "fdivs" "FPU" "user" variants_4;
  row 0xfc00003e 0xec000028 "fsubs" "FPU" "user" variants_4;
  row 0xfc00003e 0xec00002a "fadds" "FPU" "user" variants_4;
  row 0xfc00003e 0xec000030 "fres" "FPU" "user" variants_4;
  row 0xfc00003e 0xec000032 "fmuls" "FPU" "user" variants_4;
  row 0xfc00003e 0xec000038 "fmsubs" "FPU" "user" variants_4;
  row 0xfc00003e 0xec00003a "fmadds" "FPU" "user" variants_4;
  row 0xfc00003e 0xec00003c "fnmsubs" "FPU" "user" variants_4;
  row 0xfc00003e 0xec00003e "fnmadds" "FPU" "user" variants_4;
  row 0xfc00003e 0xfc000024 "fdiv" "FPU" "user" variants_5;
  row 0xfc00003e 0xfc000028 "fsub" "FPU" "user" variants_5;
  row 0xfc00003e 0xfc00002a "fadd" "FPU" "user" variants_5;
  row 0xfc00003e 0xfc00002e "fsel" "FPU" "user" variants_4;
  row 0xfc00003e 0xfc000032 "fmul" "FPU" "user" variants_5;
  row 0xfc00003e 0xfc000034 "frsqrte" "FPU" "user" variants_4;
  row 0xfc00003e 0xfc000038 "fmsub" "FPU" "user" variants_5;
  row 0xfc00003e 0xfc00003a "fmadd" "FPU" "user" variants_5;
  row 0xfc00003e 0xfc00003c "fnmsub" "FPU" "user" variants_5;
  row 0xfc00003e 0xfc00003e "fnmadd" "FPU" "user" variants_5;
  row 0xfc0007fe 0xfc000000 "fcmpu" "FPU" "user" variants_4;
  row 0xfc0007fe 0xfc000018 "frsp" "FPU" "user" variants_4;
  row 0xfc0007fe 0xfc00001c "fctiw" "FPU" "user" variants_5;
  row 0xfc0007fe 0xfc00001e "fctiwz" "FPU" "user" variants_4;
  row 0xfc0007fe 0xfc000040 "fcmpo" "FPU" "user" variants_4;
  row 0xfc0007fe 0xfc00004c "mtfsb1" "FPU" "user" variants_4;
  row 0xfc0007fe 0xfc000050 "fneg" "FPU" "user" variants_4;
  row 0xfc0007fe 0xfc000080 "mcrfs" "FPU" "user" variants_4;
  row 0xfc0007fe 0xfc00008c "mtfsb0" "FPU" "user" variants_4;
  row 0xfc0007fe 0xfc000090 "fmr" "FPU" "user" variants_4;
  row 0xfc0007fe 0xfc00010c "mtfsfi" "FPU" "user" variants_4;
  row 0xfc0007fe 0xfc000110 "fnabs" "FPU" "user" variants_4;
  row 0xfc0007fe 0xfc000210 "fabs" "FPU" "user" variants_4;
  row 0xfc0007fe 0xfc00048e "mffs" "FPU" "user" variants_4;
  row 0xfc0007fe 0xfc00058e "mtfsf" "FPU" "user" variants_4].

End isa_matrix.
