(* ===== verification/SelftestCases.v ===== *)
(** * The cases of the self-test ([toolchain/demo/selftest/gen.py])

    The builders: each appends its cases, in order, and stops at an exception. A
    Python float is the binary64 word of its value. *)
From stdpp Require Import pretty.
From S2P Require Import Prelude FpReference FpPpc FpStatus SelftestInsn SelftestMachine SelftestRun.

Module selftest_cases.
Import selftest_insn selftest selftest_run.
#[local] Open Scope string_scope.
#[local] Open Scope Z_scope.

(** ** Writing cases *)
Definition pure (i : Insn) : result Insn := Ok i.

Fixpoint sequence {A} (l : list (result A)) : result (list A) :=
  match l with [] => Ok [] | r :: l' => let! x := r in let! xs := sequence l' in Ok (x :: xs) end.

(** What a builder appends. *)
Definition cases : Type := result (list Case).
Definition done : cases := Ok [].
Definition after (a b : cases) : cases := let! x := a in let! y := b in Ok (x ++ y)%list.
#[local] Infix "+++" := after.
(** [for x in l: ...] *)
Definition each {A} (l : list A) (f : A -> cases) : cases := fold_right (fun x r => after (f x) r) done l.

(** [B.add(G, name, code, inp=..., msr=..., need=...)] *)
Definition add_full (G nm : string) (code0 : list (result Insn)) (inp0 : list input) (msr0 : Z) (need0 : option (string * Insn))
    (fpu0 : bool) : cases :=
  let! l := sequence code0 in
  Ok [{| group := G; name := nm; code := l; inp := inp0; case_msr := msr0; need := need0; fpu := fpu0 |}].
Definition add (G nm : string) (code0 : list (result Insn)) (inp0 : list input) : cases := add_full G nm code0 inp0 MSR_SUP None false.
Definition add_at (msr0 : Z) (G nm : string) (code0 : list (result Insn)) (inp0 : list input) : cases :=
  add_full G nm code0 inp0 msr0 None false.

(** A register's input value. *)
Definition R (n x : Z) : input := InR n (Int x).

Definition sfx (oe rc : Z) : string := (if truthy oe then "o" else "") +:+ (if truthy rc then "." else "").
Definition PAIRS : list (Z * Z) :=
  [(0x12345678, 0x0FEDCBA9); (0x7FFFFFFF, 1); (0x80000000, M32); (M32, M32);
   (0, 0); (0x80000000, 0x80000000); (0xFFFF0000, 0x00010000); (5, 0xFFFFFFFB)].
Definition flags01 : list Z := [0; 1].

(** ** Integer arithmetic and logic *)
Definition build_int : cases :=
  let G := "INT" in
  each ["add"; "addc"; "adde"; "subf"; "subfc"; "subfe"; "mullw"; "divw"; "divwu"] (fun m0 =>
    each flags01 (fun oe => each flags01 (fun rc =>
      each (enumerate 0 (if truthy oe || truthy rc then take 4 PAIRS else take 6 PAIRS)) (fun p =>
        let '(k, (a, b)) := p in
        let xer0 := if truthy (k mod 2) then 0x20000000 else 0 in
        let b := if startswith m0 "div" && (k =? 3) then 0 else b in
        add G (m0 +:+ sfx oe rc) [xo m0 5 3 4 oe rc]
            [R 3 a; R 4 b; InXer (Z.lor xer0 (if k =? 2 then 0x80000000 else 0))]))))
  +++ each ["mulhw"; "mulhwu"] (fun m0 => each flags01 (fun rc => each (take 5 PAIRS) (fun p =>
        add G (m0 +:+ sfx 0 rc) [xo m0 5 3 4 0 rc] [R 3 (fst p); R 4 (snd p)])))
  +++ each ["addme"; "addze"; "subfme"; "subfze"; "neg"] (fun m0 => each flags01 (fun oe => each flags01 (fun rc =>
        each (enumerate 0 [0; M32; 0x7FFFFFFF; 0x80000000]) (fun p =>
          add G (m0 +:+ sfx oe rc) [xo m0 5 3 0 oe rc]
              [R 3 (snd p); InXer (if fst p mod 2 =? 0 then 0x20000000 else 0)]))))
  +++ each [0; M32; 0x7FFF] (fun a => each [1; -1; 0x7FFF; -0x8000] (fun imm =>
        add G "addi" [pure (dimm "addi" 14 5 3 imm)] [R 3 a]
        +++ add G "addis" [pure (dimm "addis" 15 5 3 imm)] [R 3 a]))
  +++ add G "addi r0" [pure (dimm "addi" 14 5 0 0x123)] []
  +++ add G "addis r0" [pure (dimm "addis" 15 5 0 (-2))] []
  +++ each [("addic", 12); ("addic.", 13); ("subfic", 8); ("mulli", 7)] (fun p =>
        each [0; 1; M32; 0x80000000; 0x7FFFFFFF] (fun a => each [1; -1; 0x1234] (fun imm =>
          add G (fst p) [pure (dimm (fst p) (snd p) 5 3 imm)] [R 3 a; InXer 0x80000000])))
  +++ each ["and"; "andc"; "or"; "orc"; "xor"; "nand"; "nor"; "eqv"] (fun m0 => each flags01 (fun rc =>
        each [(0x12345678, 0xF0F0F0F0); (0, 0); (M32, 0x80000000)] (fun p =>
          add G (m0 +:+ sfx 0 rc) [logx m0 5 3 4 rc] [R 3 (fst p); R 4 (snd p)])))
  +++ each [("andi.", 28); ("andis.", 29); ("ori", 24); ("oris", 25); ("xori", 26); ("xoris", 27)] (fun p =>
        each [0x12345678; 0; 0x8000FFFF] (fun a =>
          add G (fst p) [pure (dlog (fst p) (snd p) 5 3 0x8421)] [R 3 a; InXer 0x80000000]))
  +++ each ["extsb"; "extsh"; "cntlzw"] (fun m0 => each flags01 (fun rc =>
        each [0; 0x80; 0x7F7F; 0x8000; 0x00010000; M32; 1] (fun a =>
          add G (m0 +:+ sfx 0 rc) [unx m0 5 3 rc] [R 3 a]))).

(** ** Rotates and shifts *)
Definition build_rot : cases :=
  let G := "ROT" in
  let vals := [0x12345678; 0x80000001; M32; 0] in
  each flags01 (fun rc =>
    each [(0, 0, 31); (4, 0, 27); (31, 31, 31); (8, 24, 7); (16, 16, 31)] (fun p =>
      let '(sh, mb, me) := p in
      each (take 3 vals) (fun a =>
        add G ("rlwinm" +:+ sfx 0 rc) [pure (mform "rlwinm" 21 3 5 sh mb me rc)] [R 3 a]
        +++ add G ("rlwimi" +:+ sfx 0 rc) [pure (mform "rlwimi" 20 3 5 sh mb me rc)] [R 3 a; R 5 0xCAFEBABE]))
    +++ each [(3, 0, 31); (35, 4, 27); (0xFFFFFFE0, 28, 3)] (fun p =>
          let '(n, mb, me) := p in
          add G ("rlwnm" +:+ sfx 0 rc) [pure (mform "rlwnm" 23 3 5 4 mb me rc)] [R 3 0x12345678; R 4 n])
    +++ each ["slw"; "srw"; "sraw"] (fun m0 => each [0x12345678; 0x80000001; M32] (fun a =>
          each [0; 1; 31; 32; 63; 0xFFFFFF04] (fun n =>
            if (n =? 63) && negb (a =? 0x80000001) then done
            else add G (m0 +:+ sfx 0 rc) [logx m0 5 3 4 rc] [R 3 a; R 4 n; InXer 0x20000000])))
    +++ each [0x12345678; 0x80000001; M32; 0xFFFFFFF0] (fun a => each [0; 1; 4; 31] (fun sh =>
          add G ("srawi" +:+ sfx 0 rc) [pure (srawi 5 3 sh rc)] [R 3 a; InXer 0x20000000]))).

(** ** Compares, the condition register and branches *)
Definition skip : Insn := dimm "addi" 14 3 3 1.
Definition tail4 : Insn := dimm "addi" 14 4 4 2.
Definition babs (lk : Z) : Insn := mk 0 "babs" [("lk", lk)].

Definition build_compares (G : string) : cases :=
  each ["cmp"; "cmpl"] (fun m0 => each [0; 3; 7] (fun bf =>
    each [(1, 2); (M32, 1); (5, 5); (0x80000000, 0x7FFFFFFF)] (fun p =>
      add G m0 [pure (cmp_ m0 bf 3 4)] [R 3 (fst p); R 4 (snd p); InXer (if bf =? 7 then 0x80000000 else 0)])))
  +++ each ["cmpi"; "cmpli"] (fun m0 => each [0; 5] (fun bf =>
        each [(1, 2); (M32, 0xFFFF); (5, 5); (0x8000, 0x8000)] (fun p =>
          add G m0 [pure (cmp_ m0 bf 3 (snd p))] [R 3 (fst p)])))
  +++ each (map fst CR_OPS) (fun m0 => each [0x9A3C5F00; 0x5A5A5A5A] (fun cr0 =>
        add G m0 [let! x := item CR_OPS m0 in Ok (xl m0 x 5 2 30 0)] [InCr cr0]
        +++ add G m0 [let! x := item CR_OPS m0 in Ok (xl m0 x 31 7 7 0)] [InCr (Z.lxor cr0 0xFFFFFFFF)]))
  +++ add G "mcrf" [pure (mcrf 6 1)] [InCr 0x0A000000]
  +++ add G "mcrf" [pure (mcrf 0 7)] [InCr 0x5000000F]
  +++ add G "mcrxr" [pure (mcrxr 2)] [InXer 0xE000007F; InCr 0x12345678]
  +++ add G "mfcr" [pure (mfcr 5)] [InCr 0x89ABCDEF]
  +++ each [0xFF; 0x81; 0x10; 0x00] (fun fxm => add G "mtcrf" [pure (mtcrf fxm 3)] [R 3 0x13579BDF; InCr 0x2468ACE0]).

Definition build_branches (G : string) : cases :=
  add G "b" [pure (b_ 8 0); pure skip; pure tail4] []
  +++ add G "bl" [pure (b_ 8 1); pure skip; pure tail4] []
  +++ add G "b back" [pure (b_ 12 0); pure tail4; pure (b_ 16 0); pure (b_ 4 0)] []
  +++ add G "ba" [pure (babs 0)] []
  +++ add G "bla" [pure (babs 1)] []
  +++ each [(12, 2, 0x20000000, 0); (12, 2, 0, 0); (4, 0, 0x80000000, 0);
            (4, 0, 0, 0); (16, 0, 0, 2); (16, 0, 0, 1); (18, 0, 0, 1);
            (18, 0, 0, 5); (8, 1, 0x40000000, 3); (8, 1, 0x40000000, 1);
            (0, 3, 0, 3); (10, 3, 0x10000000, 1); (2, 3, 0, 1); (20, 0, 0, 0)] (fun p =>
        let '(bo, bi, cr0, ctr0) := p in
        each flags01 (fun lk =>
          add G (if truthy lk then "bcl" else "bc") [pure (bc bo bi 8 lk); pure skip; pure tail4] [InCr cr0; InCtr (Int ctr0)]))
  +++ add G "bdnz loop" [pure (dimm "addi" 14 3 3 3); pure (bc 16 0 0 0)] [InCtr (Int 5); R 3 0]
  +++ each [(20, 0, 0); (12, 2, 0x20000000); (12, 2, 0); (4, 6, 0)] (fun p =>
        let '(bo, bi, cr0) := p in
        each flags01 (fun lk =>
          add G (if truthy lk then "bclrl" else "bclr") [pure (bclr bo bi lk); pure skip; pure tail4] [InCr cr0; InLr (Rel 8)]
          +++ add G (if truthy lk then "bcctrl" else "bcctr") [pure (bcctr bo bi lk); pure skip; pure tail4]
                  [InCr cr0; InCtr (Rel 8)]))
  +++ add G "bdnzlr" [pure (bclr 16 0 0); pure skip; pure tail4] [InCtr (Int 2); InLr (Rel 8)]
  +++ add G "bdzlr" [pure (bclr 18 0 0); pure skip; pure tail4] [InCtr (Int 1); InLr (Rel 8)]
  +++ add G "blrl lr" [pure (bclr 20 0 1); pure skip] [InLr (Rel 4)].
Definition build_cmp_br : cases := let G := "CMP/BR" in build_compares G +++ build_branches G.

(** ** Loads and stores *)
Definition base : Z := BUF + 0x40.
Definition build_scalars (G : string) : cases :=
  each ["lwz"; "lbz"; "lhz"; "lha"; "lwzu"; "lbzu"; "lhzu"; "lhau"] (fun m0 => each [0; 6; -0x10] (fun d =>
    add G m0 [ldst m0 5 d 3] [R 3 base]))
  +++ each ["stw"; "stb"; "sth"; "stwu"; "stbu"; "sthu"] (fun m0 => each [0; 6; -0x10] (fun d =>
        add G m0 [ldst m0 5 d 3] [R 3 base; R 5 0x8899AABB]))
  +++ each ["lwzx"; "lbzx"; "lhzx"; "lhax"; "lwzux"; "lbzux"; "lhzux"; "lhaux"; "lhbrx"; "lwbrx"] (fun m0 =>
        each [4; 0x22] (fun off => add G m0 [ldstx m0 5 3 4] [R 3 base; R 4 off]))
  +++ each ["stwx"; "stbx"; "sthx"; "stwux"; "stbux"; "sthux"; "sthbrx"; "stwbrx"] (fun m0 =>
        each [8; 0x2A] (fun off => add G m0 [ldstx m0 5 3 4] [R 3 base; R 4 off; R 5 0x8899AABB]))
  +++ add G "lwzx r0" [ldstx "lwzx" 5 0 4] [R 4 (BUF + 0x10)]
  +++ each [("lwz", 1); ("lwz", 2); ("lwz", 3); ("lhz", 1); ("lha", 3); ("stw", 1); ("stw", 3); ("sth", 5)] (fun p =>
        add G (fst p +:+ " +" +:+ pretty (snd p)) [ldst (fst p) 5 (snd p) 3] [R 3 base; R 5 0x8899AABB]).
Definition build_multiples (G : string) : cases :=
  add G "lmw" [ldst "lmw" 20 0 3] [R 3 (BUF + 0x20)]
  +++ add G "lmw" [ldst "lmw" 28 4 3] [R 3 (BUF + 0x20)]
  +++ add G "lmw r3" [ldst "lmw" 3 0x10 2] [R 2 BUF]
  +++ each [25; 30] (fun rs => add G "stmw" [ldst "stmw" rs 8 3] [R 3 (BUF + 0x20)])
  +++ each [1; 4; 7; 0] (fun nb => add G "lswi" [pure (lswi 5 3 nb)] [R 3 (BUF + 0x13)])
  +++ each [0; 3; 9] (fun cnt => add G "lswx" [ldstx "lswx" 5 3 4] [R 3 (BUF + 0x10); R 4 1; InXer cnt])
  +++ each [1; 6; 8] (fun nb =>
        add G "stswi" [pure (stswi 5 3 nb)] [R 3 (BUF + 0x31); R 5 0x11223344; R 6 0x55667788])
  +++ each [0; 5] (fun cnt =>
        add G "stswx" [ldstx "stswx" 5 3 4] [R 3 (BUF + 0x30); R 4 2; InXer cnt; R 5 0xA1B2C3D4; R 6 0xE5F60718]).
Definition build_reservations (G : string) : cases :=
  add G "lwarx" [ldstx "lwarx" 5 3 4] [R 3 BUF; R 4 0x18]
  +++ add G "stwcx. ok" [ldstx "lwarx" 5 3 4; ldstx "stwcx." 6 3 4] [R 3 BUF; R 4 0x18; R 6 0x600DF00D]
  +++ add G "stwcx. so" [ldstx "lwarx" 5 3 4; ldstx "stwcx." 6 3 4] [R 3 BUF; R 4 0x18; R 6 0x600DF00D; InXer 0x80000000]
  +++ add G "stwcx. fail" [ldstx "lwarx" 5 3 4; ldstx "stwcx." 6 3 4; ldstx "stwcx." 7 3 4]
          [R 3 BUF; R 4 0x18; R 6 0x600DF00D; R 7 0xBAD0BAD0].
Definition build_ldst : cases := let G := "LD/ST" in build_scalars G +++ build_multiples G +++ build_reservations G.

(** ** Special registers *)
Definition spr_name (spr : Z) : result string :=
  match find (fun p => fst p =? spr) SPRS with Some p => Ok (snd p) | None => Raise KeyError end.
(** The label 16 bytes on, in r3. *)
Definition to_label : input := InR 3 (Rel 16).

Definition build_registers (G : string) (v : variant) : cases :=
  each (range 4) (fun n =>
    add G ("sprg" +:+ pretty n) [pure (mtspr (272 + n) 3); pure (mfspr 5 (272 + n))] [R 3 (0x5A5A0000 + n)])
  +++ each [(26, 0x12345678); (27, 0x0000FF73); (19, 0xDEADBEE0); (18, 0x42000000)] (fun p =>
        let! nm := spr_name (fst p) in
        add G ("mt/mf " +:+ nm) [pure (mtspr (fst p) 3); pure (mfspr 5 (fst p))] [R 3 (snd p)])
  +++ add G "mfspr xer" [pure (mfspr 5 1)] [InXer 0xA000001F]
  +++ add G "mtspr xer" [pure (mtspr 1 3)] [R 3 0x6000007F]
  +++ add G "mtlr/mflr" [pure (mtspr 8 3); pure (mfspr 5 8)] [R 3 0x0000ABCC]
  +++ add G "mtctr/mfctr" [pure (mtspr 9 3); pure (mfspr 5 9)] [R 3 0xFFFF0001]
  +++ add_at MSR_USER G "mfxer user" [pure (mfspr 5 1)] [InXer 0x20000005]
  +++ add G "mfpvr" [pure (mfspr 5 287)] []
  +++ (if has_ear v then
         add G "mt/mf ear" [pure (mtspr 282 3); pure (mfspr 5 282); pure (mtspr 282 6)] [R 3 0x80000005; R 6 0]
       else done).
Definition build_msr (G : string) : cases :=
  add G "mfmsr" [pure (mfmsr 5)] []
  +++ add G "mtmsr pr" [pure (mtmsr 3); pure (dimm "addi" 14 4 4 1)] [R 3 MSR_USER]
  +++ add G "mtmsr dr" [pure (mtmsr 3); pure (dimm "addi" 14 4 4 1); pure (mtmsr 6)]
          [R 3 (Z.land MSR_SUP (Z.lnot MSR_DR)); R 6 MSR_SUP]
  +++ add G "mtmsr ir" [pure (mtmsr 3); pure ISYNC; pure (dimm "addi" 14 4 4 1); pure (mtmsr 6); pure ISYNC]
          [R 3 (Z.land MSR_SUP (Z.lnot MSR_IR)); R 6 MSR_SUP]
  +++ each [5; 9; 15] (fun sr0 => add G "mtsr/mfsr" [pure (mtsr sr0 3); pure (mfsr 5 sr0)] [R 3 (Z.lor 0x00ABCDE0 sr0)])
  +++ add G "mtsrin/mfsrin" [pure (mtsrin 3 4); pure (mfsrin 5 4); pure (mfsr 6 6)] [R 3 0x60123456; R 4 0x6FFF0000]
  +++ add G "rfi" [pure (mtspr 26 3); pure (mtspr 27 4); pure RFI; pure (dimm "addi" 14 5 5 1); pure (dimm "addi" 14 6 6 1)]
          [to_label; R 4 MSR_SUP]
  +++ add G "rfi to user"
          [pure (mtspr 26 3); pure (mtspr 27 4); pure RFI; pure (dimm "addi" 14 5 5 1); pure (dimm "addi" 14 6 6 1)]
          [to_label; R 4 MSR_USER]
  +++ add G "sync" [pure SYNC; pure (dimm "addi" 14 5 3 1)] []
  +++ add G "isync" [pure ISYNC; pure (dimm "addi" 14 5 3 1)] []
  +++ add G "eieio" [pure EIEIO; pure (dimm "addi" 14 5 3 1)] []
  +++ add_at MSR_USER G "sync user" [pure SYNC] []
  +++ add G "mftb" [pure (mftb 5 268); pure (mftb 6 269)] []
  +++ add_at MSR_USER G "mftb user" [pure (mftb 5 268); pure (mftb 6 269)] [].
Definition build_spr (v : variant) : cases := let G := "SPR" in build_registers G v +++ build_msr G.

(** ** Exceptions *)

(** An instruction given by its word, with its ISA status. *)
Definition raw_status (m0 : string) (w : Z) (st : option (dict string)) : Insn := with_status st false (raw m0 w []).
Definition with_priv (i : Insn) : Insn := with_status (status i) true i.
Definition illegal_everywhere : dict string := [("PID7v-603e", "illegal"); ("602", "illegal")].

(** [for name, ins in [...]: ins.f["priv"] = True]. [RFI] and [TLBSYNC] are shared
    objects there: the flag stays on them, where the ISA matrix puts it anyway. *)
Definition privileged : list (string * result Insn) :=
  [("mfmsr", pure (mfmsr 5)); ("mtmsr", pure (mtmsr 3)); ("rfi", pure RFI);
   ("mfsr", pure (mfsr 5 1)); ("mtsr", pure (mtsr 1 3)); ("mfsrin", pure (mfsrin 5 4));
   ("mtsrin", pure (mtsrin 3 4)); ("mfsprg0", pure (mfspr 5 272));
   ("mtsrr0", pure (mtspr 26 3)); ("mfdar", pure (mfspr 5 19)); ("mfpvr", pure (mfspr 5 287));
   ("mtdec", pure (mtspr 22 3)); ("mttbl", pure (mtspr 284 3)); ("mfsdr1", pure (mfspr 5 25));
   ("mfhid0", pure (mfspr 5 1008)); ("mtibat0u", pure (mtspr 528 3));
   ("tlbie", pure (tlbie 4)); ("tlbsync", pure TLBSYNC); ("tlbld", pure (tlbld 4));
   ("tlbli", pure (tlbli 4)); ("dcbi", cache "dcbi" 0 4)].

Definition build_traps (G : string) (v : variant) (isa0 : list entry) : cases :=
  each [(4, 5, 5); (4, 5, 6); (16, M32, 0); (8, M32, 0); (2, M32, 0); (1, M32, 0); (31, 1, 1); (0, 1, 1)] (fun p =>
    let '(to, a, b) := p in add G "tw" [pure (tw to 3 4)] [R 3 a; R 4 b])
  +++ each [(4, 7, 7); (24, 7, 7); (1, 1, -1); (2, 1, -1)] (fun p =>
        let '(to, a, imm) := p in add G "twi" [pure (twi to 3 imm)] [R 3 a])
  +++ add_at MSR_USER G "trap user" [pure (tw 31 3 3)] []
  +++ add G "sc" [pure SC; pure (dimm "addi" 14 5 5 1)] []
  +++ add_at MSR_USER G "sc user" [pure SC] []
  +++ (let ill := [(isa v, "illegal")] in
       each [0x00000000; 0x04000000; 0x7C000002; 0x7C0007FE; 0x10000000; 0xE4000000] (fun w =>
         match lookup_status isa0 (raw "" w []) with
         | Some _ => Raise AssertionError
         | None => add G "illegal" [pure (raw_status ".long" w (Some ill))] []
         end)
       +++ add_at MSR_USER G "illegal user" [pure (raw_status ".long" 0 (Some ill))] [])
  +++ add G "tlbia" [pure (raw_status "tlbia" 0x7C0002E4 (Some illegal_everywhere))] []
  +++ add G "mfspr 0" [pure (mfspr 5 0)] []
  +++ add_at MSR_USER G "mfspr 0 user" [pure (mfspr 5 0)] []
  +++ each privileged (fun p =>
        add_at MSR_USER G (fst p +:+ " user") [let! i := snd p in Ok (with_priv i)] [R 4 BUF]).

Definition build_faults (G : string) (v : variant) : cases :=
  add G "lmw align" [ldst "lmw" 28 2 3] [R 3 BUF]
  +++ add G "stmw align" [ldst "stmw" 28 1 3] [R 3 BUF]
  +++ add G "lwarx align" [ldstx "lwarx" 5 3 4] [R 3 BUF; R 4 2]
  +++ add G "stwcx. align" [ldstx "stwcx." 5 3 4] [R 3 BUF; R 4 6]
  +++ add G "lwz page" [ldst "lwz" 5 0xFFE 3] [R 3 BUF]
  +++ add G "lwzu page" [ldst "lwzu" 5 0xFFD 3] [R 3 BUF]
  +++ add G "sthx page" [ldstx "sthx" 5 3 4] [R 3 BUF; R 4 0xFFF]
  +++ add G "dcbz inhib" [cache "dcbz" 3 4] [R 3 IO_EA; R 4 4]
  +++ (let ro := R 3 (RO_EA + (BUF - RO_PA)) in
       add G "dsi store" [ldst "stw" 5 0x10 3] [ro]
       +++ add G "dsi stb" [ldst "stbu" 5 3 3] [ro]
       +++ add G "ro load" [ldst "lwz" 5 0x10 3] [ro]
       +++ add G "dsi dcbz" [cache "dcbz" 3 4] [ro; R 4 0x40])
  +++ add G "dsi t=1 ld" [ldst "lwz" 5 8 3] [R 3 DIRECT_EA]
  +++ add G "dsi t=1 st" [ldst "stw" 5 8 3] [R 3 DIRECT_EA]
  +++ (let e0 := if has_ear v then " E=0" else "" in
       add G ("eciwx" +:+ e0) [ldstx "eciwx" 5 3 4] [R 3 BUF; R 4 8]
       +++ add G ("ecowx" +:+ e0) [ldstx "ecowx" 5 3 4] [R 3 BUF; R 4 8])
  +++ add G "isi bat" [pure (bcctr 20 0 0)] [InCtr (Int (NX_EA + 0x100))]
  +++ add_at MSR_USER G "isi bat user" [pure (bcctr 20 0 0)] [InCtr (Int (NX_EA + 0x100))]
  +++ add G "itlb miss" [pure (bcctr 20 0 0)] [InCtr (Int (MISS_EA + 0x40)); InCr 0x50000000]
  +++ add G "dtlb miss ld" [ldst "lwz" 5 0x20 3] [R 3 MISS_EA; InCr 0xA0000000]
  +++ add G "dtlb miss st" [ldst "stw" 5 0x20 3] [R 3 MISS_EA]
  +++ add_at MSR_USER G "dtlb miss user" [ldst "lbz" 5 0x21 3] [R 3 MISS_EA].
Definition build_exc (v : variant) (isa0 : list entry) : cases := let G := "EXC" in build_traps G v isa0 +++ build_faults G v.

(** ** Caches *)

(** The rewritten routine: [addi r3,r3,v]. *)
Definition stub_sem (v : Z) (s : State) : result State :=
  let! x := py_get (gpr s) 3 in
  let! x := as_int x in
  let! g := py_set (gpr s) 3 (Int (Z.land (x + v) M32)) in
  Ok (set_gpr g s).
Definition with_sem (g : State -> result State) (i : Insn) : Insn :=
  {| word := word i; m := m i; f := f i; kind := kind i; xform := xform i; status := status i; priv := priv i;
     fp := fp i; fpop := fpop i; branch_to := branch_to i; sem := Some g |}.
Definition stub (v : Z) : Insn := with_sem (stub_sem v) (mk 0 "external" []).
Definition with_need (nm : string) (i : Insn) (r : cases) : cases :=
  let! l := r in
  Ok (map (fun c => {| group := group c; name := name c; code := code c; inp := inp c; case_msr := case_msr c;
                       need := Some (nm, i); fpu := fpu c |}) l).

Definition build_cache : cases :=
  let G := "CACHE" in
  add G "dcbz" [cache "dcbz" 3 4] [R 3 (BUF + 0x40); R 4 5]
  +++ add G "dcbz r0" [cache "dcbz" 0 4] [R 4 (BUF + 0xA0)]
  +++ add_at MSR_USER G "dcbz user" [cache "dcbz" 3 4] [R 3 BUF; R 4 0x80]
  +++ each ["dcbf"; "dcbst"; "dcbt"; "dcbtst"] (fun m0 =>
        add G m0 [ldst "stw" 5 0x14 3; cache m0 3 4; ldst "lwz" 6 0x14 3] [R 3 BUF; R 4 0x14; R 5 0x31415926]
        +++ add_at MSR_USER G (m0 +:+ " user") [ldst "stw" 5 0x14 3; cache m0 3 4; ldst "lwz" 6 0x14 3]
                [R 3 BUF; R 4 0x14; R 5 0x27182818])
  +++ add G "dcbi" [cache "dcbf" 3 4; ldst "stw" 5 0x24 3; cache "dcbi" 3 4; ldst "lwz" 6 0x24 3]
          [R 3 BUF; R 4 0x20; R 5 0xD15CA4D0]
  +++ each [(0, 5); (1, 9)] (fun p =>
        let '(k, v) := p in
        with_need "stub" (stub v)
          (add G ("icbi " +:+ pretty k)
             [ldst "stw" 4 0 5; ldst "stw" 6 4 5; cache "dcbst" 0 5; pure SYNC; cache "icbi" 0 5; pure ISYNC;
              pure (mtspr 9 5); pure (bcctr 20 0 1)]
             [R 3 100; R 4 (Z.lor 0x38630000 v); R 5 STUB; R 6 0x4E800020]))
  +++ add G "tlbie" [pure (tlbie 4); pure SYNC; pure TLBSYNC; pure SYNC; ldst "lwz" 5 0 3] [R 3 BUF; R 4 0x12345000]
  +++ add G "tlbsync" [pure TLBSYNC; pure (dimm "addi" 14 5 3 1)] [].

End selftest_cases.
