(* ===== verification/SelftestFpCases.v ===== *)
(** * The floating-point cases of the self-test ([toolchain/demo/selftest/gen.py])

    The forms of every FP instruction for a processor without an FPU, and the
    cases of one with it. A Python float is the binary64 word of its value, so
    [dbits] is the identity. *)
From stdpp Require Import pretty.
From S2P Require Import Prelude FpReference FpPpc FpStatus SelftestInsn SelftestMachine SelftestRun SelftestCases.

Module selftest_fp_cases.
Import selftest_insn selftest selftest_run selftest_cases.
#[local] Open Scope string_scope.
#[local] Open Scope Z_scope.
#[local] Infix "+++" := after.

(** ** The forms *)
Definition FP_ONE : list string :=
  ["fres"; "frsqrte"; "frsp"; "fctiw"; "fctiwz"; "fneg"; "fmr"; "fnabs"; "fabs"; "fsqrt"; "fsqrts"].
Definition FP_FMA : list string :=
  ["fmadd"; "fmsub"; "fnmadd"; "fnmsub"; "fmadds"; "fmsubs"; "fnmadds"; "fnmsubs"; "fsel"].

(** Operand fields: frD 1, frA 2, frB 4, frC 5; rA 3, rB 4. *)
Definition fp_word (m0 : string) (value : Z) : Z :=
  let base := rstrip_dot m0 in
  let w := value in
  if startswith base "lf" || startswith base "stf" then
    ors [w; Z.shiftl 1 21; Z.shiftl 3 16; if negb (Z.shiftr w 26 =? 31) then 8 else Z.shiftl 4 11]
  else if str_in base FP_ONE then ors [w; Z.shiftl 1 21; Z.shiftl 4 11]
  else if str_in base FP_FMA then ors [w; Z.shiftl 1 21; Z.shiftl 2 16; Z.shiftl 4 11; Z.shiftl 5 6]
  else if str_in base ["fmul"; "fmuls"] then ors [w; Z.shiftl 1 21; Z.shiftl 2 16; Z.shiftl 5 6]
  else if str_in base ["fcmpu"; "fcmpo"] then ors [w; Z.shiftl 1 23; Z.shiftl 2 16; Z.shiftl 4 11]
  else if str_in base ["mffs"; "mtfsb0"; "mtfsb1"] then ors [w; Z.shiftl 1 21]
  else if String.eqb base "mcrfs" then ors [w; Z.shiftl 1 23; Z.shiftl 2 18]
  else if String.eqb base "mtfsfi" then ors [w; Z.shiftl 1 23; Z.shiftl 6 12]
  else if String.eqb base "mtfsf" then ors [w; Z.shiftl 0x0F 17; Z.shiftl 4 11]
  else ors [w; Z.shiftl 1 21; Z.shiftl 2 16; Z.shiftl 4 11].

Definition fp_insns (isa0 : list entry) : list (string * Z * dict string) :=
  (map (fun e => (mnemonic e, fp_word (mnemonic e) (e_value e), variants e)) (List.filter (fun e => String.eqb (unit_ e) "FPU") isa0)
   ++ map (fun p => (fst p, fp_word (fst p) (snd p), illegal_everywhere)) [("fsqrt", 0xFC00002C); ("fsqrts", 0xEC00002C)])%list.

(** ** Values *)

(** The float nearest to [n / d]. *)
Definition flt (n d : Z) : Z := reference.p_bits (reference.pack_ratio (Z.abs n) d 0 (Z.b2z (n <? 0)) 0 reference.B64).
(** [2.0 ** n] *)
Definition two_to (n : Z) : Z := reference.p_bits (reference.pack 1 n 0 0 reference.B64).
Definition dbits (x : Z) : Z := x.
(** A value rounded to single precision: packed and unpacked. *)
Definition convert (x : Z) (from to : reference.Format) : Z := reference.bits (reference.calc_convert (reference.decode x from) 0 from to).
Definition sbits (x : Z) : Z := convert (convert x reference.B64 reference.B32) reference.B32 reference.B64.
(** [-x] *)
Definition minus (x : Z) : Z := Z.lxor x (Z.shiftl 1 63).

Definition PINF : Z := 0x7FF0000000000000.
Definition NINF : Z := 0xFFF0000000000000.
Definition PZERO : Z := 0.
Definition NZERO : Z := Z.shiftl 1 63.
Definition QNAN : Z := 0x7FF8000000000000.
Definition SNAN_BITS : Z := 0x7FF4000000000000.
Definition MAXD : Z := 0x7FEFFFFFFFFFFFFF.
Definition MIND : Z := 0x0010000000000000.
Definition VE : Z := 0x80.
Definition OE : Z := 0x40.
Definition UE : Z := 0x20.
Definition ZE : Z := 0x10.
Definition XE : Z := 0x08.
Definition NI : Z := 0x04.

(** ** With an FPU *)
Definition G : string := "FP".

(** [add(name, code, fpr, fpscr, msr, **gpr)] *)
Definition add (nm : string) (code0 : list (result Insn)) (fpr0 : list (Z * Z)) (fpscr0 msr0 : Z) (gpr0 : list (Z * Z)) : cases :=
  add_full G nm code0
    (map (fun p => InF (fst p) (snd p)) fpr0 ++ map (fun p => R (fst p) (snd p)) gpr0
     ++ (if truthy fpscr0 then [InFpscr (fp_summary fpscr0)] else []))%list msr0 None true.
Definition add1 (nm : string) (i : result Insn) (fpr0 : list (Z * Z)) (fpscr0 : Z) : cases := add nm [i] fpr0 fpscr0 MSR_FPU [].

(** [frD 1 = frA 2 op frB 4 (frC 5 for multiplies)] *)
Definition two_at (msr0 : Z) (m0 : string) (x y fpscr0 : Z) (nm : string) : cases :=
  let base := rstrip_dot m0 in
  let mul := str_in base ["fmul"; "fmuls"] in
  add nm [fpi m0 1 2 (if mul then 0 else 4) (if mul then 5 else 0) 0 0] [(2, x); (if mul then 5 else 4, y)] fpscr0 msr0 [].
Definition two : string -> Z -> Z -> Z -> string -> cases := two_at MSR_FPU.

Definition one : Z := flt 1 1.
Definition third : Z := flt 1 3.
Definition modes : list Z := [0; 1; 2; 3].

Definition fp_double : cases :=
  two "fadd" (dbits (flt 3 2)) (dbits (flt 9 4)) 0 "fadd"
  +++ each modes (fun rn =>
        two "fadd" one (dbits (two_to (-60))) rn ("fadd rn" +:+ pretty rn)
        +++ two "fadd" (dbits (flt (-1) 1)) (dbits (minus (two_to (-60)))) rn ("fadd -rn" +:+ pretty rn))
  +++ two "fadd" PINF NINF 0 "fadd vxisi"
  +++ two "fadd" (Z.lor QNAN 0x1234) one 0 "fadd qnan"
  +++ two "fadd" SNAN_BITS one 0 "fadd snan"
  +++ two "fadd" MAXD MAXD 0 "fadd ox"
  +++ two "fadd" (dbits (flt 3 1)) (dbits (flt (-3) 1)) 0 "fadd +0"
  +++ two "fadd" (dbits (flt 3 1)) (dbits (flt (-3) 1)) 3 "fadd -0 rn3"
  +++ two "fsub" (dbits (flt 5 1)) (dbits (flt 3 1)) 0 "fsub"
  +++ two "fsub" one (dbits (two_to (-60))) 1 "fsub rn1"
  +++ two "fsub" PINF PINF 0 "fsub vxisi"
  +++ two "fmul" (dbits (flt 3 1)) (dbits (flt 7 1)) 0 "fmul"
  +++ two "fmul" (dbits third) (dbits (flt 3 1)) 0 "fmul inex"
  +++ two "fmul" PZERO PINF 0 "fmul vximz"
  +++ two "fmul" MIND (dbits third) 0 "fmul ux"
  +++ two "fmul" MIND (dbits (flt 1 2)) 0 "fmul denorm"
  +++ two "fmul" MIND (dbits third) NI "fmul ni"
  +++ two "fdiv" (dbits (flt 6 1)) (dbits (flt 2 1)) 0 "fdiv"
  +++ each modes (fun rn => two "fdiv" one (dbits (flt 3 1)) rn ("fdiv rn" +:+ pretty rn))
  +++ two "fdiv" one PZERO 0 "fdiv zx"
  +++ two "fdiv" PZERO PZERO 0 "fdiv vxzdz"
  +++ two "fdiv" PINF NINF 0 "fdiv vxidi".

Definition fp_single : cases :=
  two "fadds" (sbits (flt 3 2)) (sbits (flt 9 4)) 0 "fadds"
  +++ two "fadds" (sbits one) (sbits (two_to (-30))) 0 "fadds inex"
  +++ two "fadds" (sbits one) (sbits (two_to (-30))) 2 "fadds rn2"
  +++ two "fsubs" (sbits (flt 11 2)) (sbits (flt 1 4)) 0 "fsubs"
  +++ two "fmuls" (sbits (flt 3 1)) (sbits third) 0 "fmuls inex"
  +++ two "fmuls" (sbits (flt (3 * 10 ^ 38) 1)) (sbits (flt 4 1)) 0 "fmuls ox"
  +++ two "fmuls" (dbits (two_to (-126))) (sbits third) 0 "fmuls ux"
  +++ two "fdivs" (sbits one) (sbits (flt 3 1)) 0 "fdivs"
  +++ two "fdivs" (sbits (flt (-1) 1)) PZERO 0 "fdivs zx".

(** [{2: 1 + 2**-30, 5: 1 - 2**-30, 4: -1}] *)
Definition fused : list (Z * Z) :=
  [(2, dbits (flt (2 ^ 30 + 1) (2 ^ 30))); (5, dbits (flt (2 ^ 30 - 1) (2 ^ 30))); (4, dbits (flt (-1) 1))].
Definition fp_fused : cases :=
  each ["fmadd"; "fmsub"; "fnmadd"; "fnmsub"] (fun m0 =>
    add1 m0 (fpi m0 1 2 4 5 0 0) fused 0
    +++ add1 (m0 +:+ "s") (fpi (m0 +:+ "s") 1 2 4 5 0 0)
             [(2, sbits (flt 3 2)); (5, sbits (flt 5 2)); (4, sbits (flt 3 4))] 0)
  +++ add1 "fmadd 1/3" (fpi "fmadd" 1 2 4 5 0 0) [(2, dbits third); (5, dbits (flt 3 1)); (4, dbits (flt (-1) 1))] 0
  +++ add1 "fmadd vximz" (fpi "fmadd" 1 2 4 5 0 0) [(2, PINF); (5, PZERO); (4, one)] 0
  +++ add1 "fmadd vxisi" (fpi "fmadd" 1 2 4 5 0 0) [(2, PINF); (5, one); (4, NINF)] 0
  +++ (let x := sbits (flt (2 ^ 20 + 1) (2 ^ 20)) in
       add1 "fmadds inex" (fpi "fmadds" 1 2 4 5 0 0) [(2, x); (5, x); (4, sbits (two_to (-22)))] 0).

Definition fp_conversions : cases :=
  each [0; 1; 2] (fun rn => add1 ("frsp rn" +:+ pretty rn) (fpi "frsp" 1 0 4 0 0 0) [(4, dbits third)] rn)
  +++ add1 "frsp ox" (fpi "frsp" 1 0 4 0 0 0) [(4, dbits (flt (10 ^ 300) 1))] 0
  +++ add1 "frsp denorm" (fpi "frsp" 1 0 4 0 0 0) [(4, dbits (flt 1 (10 ^ 40)))] 0
  +++ add1 "frsp snan" (fpi "frsp" 1 0 4 0 0 0) [(4, SNAN_BITS)] 0
  +++ each [("fctiw", flt 5 2, 0, "2.5"); ("fctiw", flt 5 2, 2, "2.5"); ("fctiw", flt (-5) 2, 0, "-2.5");
            ("fctiw", flt (-5) 2, 3, "-2.5"); ("fctiwz", flt 27 10, 0, "2.7"); ("fctiwz", flt (-27) 10, 2, "-2.7");
            ("fctiw", flt (3 * 10 ^ 9) 1, 0, "3e+09"); ("fctiw", flt (-3 * 10 ^ 9) 1, 0, "-3e+09");
            ("fctiw", flt 21474836474 10, 0, "2.14748e+09")] (fun p =>
        let '(m0, x, rn, text) := p in
        add1 (String.substring 0 12 (m0 +:+ " " +:+ text)) (fpi m0 1 0 4 0 0 0) [(4, dbits x)] rn)
  +++ add1 "fctiw snan" (fpi "fctiw" 1 0 4 0 0 0) [(4, SNAN_BITS)] 0
  +++ add1 "fctiwz qnan" (fpi "fctiwz" 1 0 4 0 0 0) [(4, QNAN)] 0.

Definition fp_compares : cases :=
  each [("fcmpu", flt 1 1, flt 2 1, 0); ("fcmpu", flt 2 1, flt 1 1, 3); ("fcmpu", minus (flt 0 1), flt 0 1, 7);
        ("fcmpo", flt 1 1, flt 2 1, 5)] (fun p =>
    let '(m0, x, y, crf) := p in
    add1 (m0 +:+ " cr" +:+ pretty crf) (fpi m0 (Z.shiftl crf 2) 2 4 0 0 0) [(2, dbits x); (4, dbits y)] 0)
  +++ add1 "fcmpu qnan" (fpi "fcmpu" (Z.shiftl 2 2) 2 4 0 0 0) [(2, QNAN); (4, one)] 0
  +++ add1 "fcmpu snan" (fpi "fcmpu" (Z.shiftl 2 2) 2 4 0 0 0) [(2, one); (4, SNAN_BITS)] 0
  +++ add1 "fcmpo qnan" (fpi "fcmpo" (Z.shiftl 6 2) 2 4 0 0 0) [(2, QNAN); (4, one)] 0
  +++ add1 "fcmpo snan" (fpi "fcmpo" (Z.shiftl 6 2) 2 4 0 0 0) [(2, SNAN_BITS); (4, one)] 0.

Definition fp_moves : cases :=
  each ["fmr"; "fneg"; "fabs"; "fnabs"] (fun m0 =>
    add1 m0 (fpi m0 1 0 4 0 0 0) [(4, dbits (flt (-5) 2))] 0
    +++ add1 (m0 +:+ " nan") (fpi m0 1 0 4 0 0 0) [(4, Z.lor SNAN_BITS 0x5A5)] 0)
  +++ each [(flt 2 1, "ge"); (flt (-2) 1, "lt"); (minus (flt 0 1), "-0")] (fun p =>
        add1 ("fsel " +:+ snd p) (fpi "fsel" 1 2 4 5 0 0) [(2, dbits (fst p)); (4, dbits (flt 7 1)); (5, dbits (flt 9 1))] 0)
  +++ add1 "fsel nan" (fpi "fsel" 1 2 4 5 0 0) [(2, QNAN); (4, dbits (flt 7 1)); (5, dbits (flt 9 1))] 0
  +++ each [("fres", PINF, "inf"); ("fres", NZERO, "-0"); ("fres", SNAN_BITS, "snan"); ("frsqrte", PZERO, "+0");
            ("frsqrte", PINF, "inf"); ("frsqrte", dbits (flt (-1) 1), "-1"); ("frsqrte", NZERO, "-0")] (fun p =>
        let '(m0, x, nm) := p in add1 (m0 +:+ " " +:+ nm) (fpi m0 1 0 4 0 0 0) [(4, x)] 0).

Definition fx_ox : Z := Z.lor (Z.shiftl 1 31) (Z.shiftl 1 28).
Definition fp_status : cases :=
  add1 "mffs" (fpi "mffs" 1 0 0 0 0 0) [] (ors [fx_ox; ZE; 2])
  +++ add1 "mtfsf ff" (fpi "mtfsf" 0 0 4 0 0 (Z.shiftl 0xFF 17)) [(4, 0x000000008000078B)] 0
  +++ add1 "mtfsf 01" (fpi "mtfsf" 0 0 4 0 0 (Z.shiftl 0x01 17)) [(4, 0xFFFFFFFF00000003)] VE
  +++ add1 "mtfsf 80" (fpi "mtfsf" 0 0 4 0 0 (Z.shiftl 0x80 17)) [(4, 0x0000000090000000)] 0
  +++ add1 "mtfsfi 7" (fpi "mtfsfi" (Z.shiftl 7 2) 0 0 0 0 (Z.shiftl 3 12)) [] VE
  +++ add1 "mtfsfi 6" (fpi "mtfsfi" (Z.shiftl 6 2) 0 0 0 0 (Z.shiftl 8 12)) [] 0
  +++ add1 "mtfsb1 rn" (fpi "mtfsb1" 31 0 0 0 0 0) [] 0
  +++ add1 "mtfsb1 ox" (fpi "mtfsb1" 3 0 0 0 0 0) [] 0
  +++ add1 "mtfsb0 ze" (fpi "mtfsb0" 27 0 0 0 0 0) [] (Z.lor ZE VE)
  +++ add1 "mtfsb0 fex" (fpi "mtfsb0" 1 0 0 0 0 0) [] (ors [fx_ox; OE; Z.shiftl 1 30])
  +++ add1 "mcrfs 1" (fpi "mcrfs" (Z.shiftl 3 2) (Z.shiftl 1 2) 0 0 0 0) [] (Z.lor fx_ox (Z.shiftl 1 26))
  +++ add1 "mcrfs 7" (fpi "mcrfs" 0 (Z.shiftl 7 2) 0 0 0 0) [] (ors [fx_ox; XE; 1]).

Definition fp_records : cases :=
  two "fadd." (dbits (flt 3 2)) (dbits (flt 9 4)) 0 "fadd."
  +++ two "fadd." MAXD MAXD 0 "fadd. ox"
  +++ two "fsub." PINF PINF 0 "fsub. vxisi"
  +++ two "fmuls." (sbits (flt 3 1)) (sbits (flt 5 1)) 0 "fmuls."
  +++ two "fdiv." one PZERO 0 "fdiv. zx"
  +++ add1 "fmadd." (fpi "fmadd." 1 2 4 5 0 0) fused 0
  +++ add1 "fctiw." (fpi "fctiw." 1 0 4 0 0 0) [(4, dbits (flt (3 * 10 ^ 9) 1))] 0
  +++ add1 "frsp." (fpi "frsp." 1 0 4 0 0 0) [(4, dbits third)] 0
  +++ add1 "fmr." (fpi "fmr." 1 0 4 0 0 0) [(4, dbits (flt (-5) 2))] fx_ox
  +++ add1 "fneg." (fpi "fneg." 1 0 4 0 0 0) [(4, one)] (Z.shiftl 1 31)
  +++ add1 "fsel." (fpi "fsel." 1 2 4 5 0 0) [(2, one); (4, dbits (flt 7 1)); (5, dbits (flt 9 1))] 0
  +++ add1 "fres." (fpi "fres." 1 0 4 0 0 0) [(4, PZERO)] 0
  +++ add1 "mffs." (fpi "mffs." 1 0 0 0 0 0) [] fx_ox
  +++ add1 "mtfsf." (fpi "mtfsf." 0 0 4 0 0 (Z.shiftl 0x80 17)) [(4, 0x0000000090000000)] 0
  +++ add1 "mtfsfi." (fpi "mtfsfi." (Z.shiftl 7 2) 0 0 0 0 (Z.shiftl 1 12)) [] 0
  +++ add1 "mtfsb1." (fpi "mtfsb1." 3 0 0 0 0 0) [] 0
  +++ add1 "mtfsb0." (fpi "mtfsb0." 0 0 0 0 0 0) [] fx_ox.

Definition fe : Z := ors [MSR_FPU; MSR_FE0; MSR_FE1].
Definition fp_enabled : cases :=
  two_at fe "fadd" PINF NINF VE "fe ve fadd"
  +++ two_at fe "fadd." PINF NINF VE "fe ve fadd."
  +++ two_at fe "fadd" SNAN_BITS one VE "fe ve snan"
  +++ two_at fe "fdiv" one PZERO ZE "fe ze fdiv"
  +++ two_at fe "fmul" MAXD (dbits (flt 4 1)) OE "fe oe fmul"
  +++ two_at fe "fmul" MIND (dbits third) UE "fe ue fmul"
  +++ two_at fe "fmuls" (sbits (flt (3 * 10 ^ 38) 1)) (sbits (flt 4 1)) OE "fe oe fmuls"
  +++ two_at fe "fadd" one (dbits (two_to (-60))) XE "fe xe fadd"
  +++ add "fe ve fcmpo" [fpi "fcmpo" (Z.shiftl 1 2) 2 4 0 0 0] [(2, QNAN); (4, one)] VE fe []
  +++ add "fe ve fctiw" [fpi "fctiw" 1 0 4 0 0 0] [(4, dbits (flt (3 * 10 ^ 9) 1))] VE fe []
  +++ add "fe ze fres" [fpi "fres" 1 0 4 0 0 0] [(4, PZERO)] ZE fe []
  +++ add "fe mtfsb1" [fpi "mtfsb1" 24 0 0 0 0 0] [] (Z.lor (Z.shiftl 1 31) (Z.shiftl 1 10)) fe []
  +++ two "fadd" PINF NINF VE "ve no fe"
  +++ two_at fe "fadd" PINF NINF 0 "fe no ve".

(** [mem(name, code, fpr, **gpr)]: r3 is the buffer. *)
Definition mem (nm : string) (code0 : list (result Insn)) (fpr0 : list (Z * Z)) (gpr0 : list (Z * Z)) : cases :=
  add nm code0 fpr0 0 MSR_FPU ((3, BUF) :: gpr0).
(** [f"{x:08x}"] of a word *)
Definition hex_digit (d : Z) : Ascii.ascii := default Ascii.zero (String.get (Z.to_nat d) "0123456789abcdef").
Definition hex8 (x : Z) : string :=
  String.string_of_list_ascii (map (fun k => hex_digit (Z.land (Z.shiftr x (4 * k)) 15)) [7; 6; 5; 4; 3; 2; 1; 0]).

Definition fp_memory : cases :=
  each [0x3FC00000; 0x00000001; 0x7FA00000; 0x80000000; 0xFF800000] (fun x =>
    mem (String.substring 0 12 ("lfs " +:+ hex8 x)) [ldst "stw" 7 8 3; fpi "lfs" 1 3 0 0 8 0] [] [(7, x)])
  +++ mem "lfsu" [ldst "stw" 7 16 3; fpi "lfsu" 1 3 0 0 16 0] [] [(7, 0x40490FDB)]
  +++ mem "lfsx" [ldst "stw" 7 24 3; fpi "lfsx" 1 3 6 0 0 0] [] [(6, 24); (7, 0xC0490FDB)]
  +++ mem "lfsux" [ldst "stw" 7 32 3; fpi "lfsux" 1 3 6 0 0 0] [] [(6, 32); (7, 0x3EAAAAAB)]
  +++ mem "lfd" [fpi "lfd" 1 3 0 0 8 0] [] []
  +++ mem "lfdu" [fpi "lfdu" 1 3 0 0 40 0] [] []
  +++ mem "lfdx" [fpi "lfdx" 1 3 6 0 0 0] [] [(6, 48)]
  +++ mem "lfdux" [fpi "lfdux" 1 3 6 0 0 0] [] [(6, 56)]
  +++ mem "lfd wordal" [fpi "lfd" 1 3 0 0 12 0] [] []
  +++ each [("stfs", dbits (flt 3 2)); ("stfs denorm", dbits (two_to (-140))); ("stfs snan", SNAN_BITS);
            ("stfs -denorm", dbits (minus (two_to (-127))))] (fun p =>
        mem (fst p) [fpi "stfs" 1 3 0 0 8 0] [(1, snd p)] [])
  +++ mem "stfsu" [fpi "stfsu" 1 3 0 0 16 0] [(1, sbits (flt 1 10))] []
  +++ mem "stfsx" [fpi "stfsx" 1 3 6 0 0 0] [(1, sbits (flt (-1) 10))] [(6, 20)]
  +++ mem "stfsux" [fpi "stfsux" 1 3 6 0 0 0] [(1, sbits (flt 7 1))] [(6, 28)]
  +++ mem "stfd" [fpi "stfd" 1 3 0 0 8 0] [(1, dbits third)] []
  +++ mem "stfdu" [fpi "stfdu" 1 3 0 0 40 0] [(1, Z.lor SNAN_BITS 0x123)] []
  +++ mem "stfdx" [fpi "stfdx" 1 3 6 0 0 0] [(1, NZERO)] [(6, 48)]
  +++ mem "stfdux" [fpi "stfdux" 1 3 6 0 0 0] [(1, MIND)] [(6, 56)]
  +++ mem "stfiwx" [fpi "stfiwx" 1 3 6 0 0 0] [(1, 0x123456789ABCDEF0)] [(6, 64)]
  +++ mem "lfd align" [fpi "lfd" 1 3 0 0 10 0] [] []
  +++ mem "stfs align" [fpi "stfs" 1 3 0 0 5 0] [(1, one)] []
  +++ mem "lfsx align" [fpi "lfsx" 1 3 6 0 0 0] [] [(6, 2)]
  +++ mem "stfdux alig" [fpi "stfdux" 1 3 6 0 0 0] [(1, one)] [(6, 6)]
  +++ add "lfd user" [fpi "lfd" 1 3 0 0 8 0] [] 0 (Z.lor MSR_USER MSR_FP) [(3, BUF)]
  +++ mem "lfd stfd" [fpi "lfd" 7 3 0 0 16 0; fpi "stfd" 7 3 0 0 64 0] [] [].

Definition build_fp_unit : cases :=
  fp_double +++ fp_single +++ fp_fused +++ fp_conversions +++ fp_compares +++ fp_moves +++ fp_status +++ fp_records
  +++ fp_enabled +++ fp_memory.

(** ** Without an FPU *)
Definition with_fp (i : Insn) : Insn :=
  {| word := word i; m := m i; f := f i; kind := kind i; xform := xform i; status := status i; priv := priv i;
     fp := true; fpop := fpop i; branch_to := branch_to i; sem := sem i |}.
(** [VARIANTS[B.variant]], by name. *)
Definition VARIANTS : dict variant := [("603e", v603e); ("602", v602)].

Definition build_fp (variant_name : string) (isa0 : list entry) : cases :=
  let! v := item VARIANTS variant_name in
  let isa_name := isa v in
  each (fp_insns isa0) (fun p =>
    let '(m0, w, var) := p in
    let illegal := match dict_get var isa_name with Some s => String.eqb s "illegal" | None => false end in
    let ins := with_fp (raw_status m0 w (Some [(isa_name, if illegal then "illegal" else "legal")])) in
    selftest_cases.add G m0 [pure ins] [R 3 BUF]
    +++ (if str_in m0 ["fadd"; "fmr"; "lfd"; "mffs"] then add_at MSR_USER G (m0 +:+ " user") [pure ins] [R 3 BUF] else done))
  +++ each [("fadd.", 0xFC00002B); ("fmr.", 0xFC000091)] (fun p =>
        let w := fp_word (fst p) (snd p) in
        selftest_cases.add G (fst p) [pure (with_fp (raw (fst p) w []))] [R 3 BUF])
  +++ (if String.eqb variant_name "603e" then build_fp_unit else done).

(** ** The whole list, in the order of [main] *)
Definition build_all (variant_name : string) (isa0 : list entry) : cases :=
  let! v := item VARIANTS variant_name in
  build_int +++ build_rot +++ build_cmp_br +++ build_ldst +++ build_spr v +++ build_exc v isa0 +++ build_cache
  +++ build_fp variant_name isa0.

End selftest_fp_cases.
