(* ===== verification/SelftestMain.v ===== *)
(** * The self-test's table ([toolchain/demo/selftest/gen.py], [selftest.c])

    [main] evaluates every case and writes, for each, the fields its inputs change
    from the default state and the fields its expected results change from its
    inputs; the firmware's [run_case] rebuilds both states from them. *)
From S2P Require Import Prelude SelftestInsn SelftestMachine SelftestRun SelftestCases SelftestFpCases.

Module selftest_main.
Import selftest_insn selftest selftest_run selftest_cases selftest_fp_cases.
#[local] Open Scope string_scope.
#[local] Open Scope Z_scope.

Definition F_VEC : Z := 36.
Definition F_SRR0 : Z := 37.
Definition F_SRR1 : Z := 38.
Definition F_MSR : Z := 39.
Definition N_FIELDS : Z := 171.
(** The value is relative to the case's first instruction. *)
Definition REL : Z := 0x100.
Definition GROUPS : list string := ["INT"; "ROT"; "CMP/BR"; "LD/ST"; "SPR"; "EXC"; "CACHE"; "FP"].

(** A field of a row: value, mask, relative; a row has [N_FIELDS]. *)
Definition field : Type := Z * Z * Z.
Definition value (x : field) : Z := fst (fst x).
Definition mask_of (x : field) : Z := snd (fst x).
Definition rel (x : field) : Z := snd x.
Definition field_eqb (x y : field) : bool := (value x =? value y) && (mask_of x =? mask_of y) && (rel x =? rel y).
Definition at_ (row : list field) (f : Z) : field := nth (Z.to_nat f) row (0, 0, 0).

(** An entry of [kv]: the field with its flag, the value, the mask. *)
Definition kv : Type := Z * Z * Z.
Definition tagged (f : Z) (x : field) (mk0 : Z) : kv := (Z.lor f (if truthy (rel x) then REL else 0), value x, mk0).

Definition in_listed (base inp : list field) (f : Z) : bool := negb (field_eqb (at_ inp f) (at_ base f)) || (f =? F_MSR).
Definition in_fields (base inp : list field) : list kv :=
  concat (map (fun f => if in_listed base inp f then [tagged f (at_ inp f) M32] else []) (range N_FIELDS)).
Definition ex_listed (inp outp : list field) (f : Z) : bool :=
  (negb (field_eqb (at_ outp f) (value (at_ inp f), M32, rel (at_ inp f))) || (f =? F_VEC))
  && negb ((f =? F_VEC) && (value (at_ outp f) =? 0)).
Definition ex_fields (inp outp : list field) : list kv :=
  concat (map (fun f => if ex_listed inp outp f then [tagged f (at_ outp f) (mask_of (at_ outp f))] else []) (range N_FIELDS)).

(** A row of the C table. *)
Record st_case : Type := {
  c_name : string; c_group : Z; c_words : Z; c_fpu : bool; in_first : Z; in_n : Z; ex_first : Z; ex_n : Z
}.

(** [GROUPS.index(g)] *)
Fixpoint index_from (k : Z) (g : string) (l : list string) : result Z :=
  match l with [] => Raise (ValueError "not in list") | x :: l' => if String.eqb x g then Ok k else index_from (k + 1) g l' end.
Definition len {A} (l : list A) : Z := Z.of_nat (length l).

(** One turn of the loop over the cases. *)
Definition emit_case (v : variant) (isa0 : list entry) (base : list field) (t : list kv * list st_case) (c : Case)
    : result (list kv * list st_case) :=
  let '(table, l) := t in
  let! (inp0, outp) := evaluate v c isa0 in
  let! words := resolve c in
  let table1 := (table ++ in_fields base inp0)%list in
  let table2 := (table1 ++ ex_fields inp0 outp)%list in
  let! g := index_from 0 (group c) GROUPS in
  Ok (table2, (l ++ [{| c_name := String.substring 0 12 (name c); c_group := g; c_words := len words; c_fpu := fpu c;
                        in_first := len table; in_n := len table1 - len table;
                        ex_first := len table1; ex_n := len table2 - len table1 |}])%list).
Fixpoint emit_all (v : variant) (isa0 : list entry) (base : list field) (l : list Case) (t : list kv * list st_case)
    : result (list kv * list st_case) :=
  match l with [] => Ok t | c :: l' => let! t := emit_case v isa0 base t c in emit_all v isa0 base l' t end.

(** [main]: the default row, the table and the cases. *)
Definition main (variant_name : string) (isa0 : list entry) : result (list field * list kv * list st_case) :=
  let! l := build_all variant_name isa0 in
  let! v := item VARIANTS variant_name in
  let base := flatten default_state in
  let! (table, rows) := emit_all v isa0 base l ([], []) in
  Ok (base, table, rows).

(** The summary [main] prints: the cases of each group. *)
Definition group_counts (l : list Case) : list (string * Z) :=
  map (fun g => (g, len (List.filter (fun c => String.eqb (group c) g) l))) GROUPS.

End selftest_main.

(** ** The reader, [run_case] of [selftest.c] *)
Module selftest_c.
Import selftest_insn selftest selftest_main.
#[local] Open Scope Z_scope.

Definition ST_REL : Z := 0x100.
Definition ST_FIELD : Z := 0xff.
(** [kv->value + (kv->field & ST_REL ? base : 0)], in 32 bits *)
Definition field_value (code : Z) (x : kv) : Z :=
  let '(field, val, _) := x in Z.land (val + (if truthy (Z.land field ST_REL) then code else 0)) M32.
Definition field_index (x : kv) : nat := Z.to_nat (Z.land (fst (fst x)) ST_FIELD).

(** The entries [first .. first + n - 1] of the table; both are [uint16_t]. *)
Definition u16 (x : Z) : Z := Z.land x 0xffff.
Definition entries (table : list kv) (first n : Z) : list kv := take (Z.to_nat (u16 n)) (drop (Z.to_nat (u16 first)) table).

Definition put_value (code : Z) (st : list Z) (x : kv) : list Z := <[field_index x := field_value code x]> st.
Definition put_mask (st : list Z) (x : kv) : list Z := <[field_index x := snd x]> st.

(** [in_st], [exp_st] and [mask_st] when the case is entered. *)
Definition read_in (dflt : list Z) (table : list kv) (c : st_case) (code : Z) : list Z :=
  fold_left (put_value code) (entries table (in_first c) (in_n c)) dflt.
Definition no_event (st : list Z) : list Z := <[36%nat := 0]> (<[37%nat := 0]> (<[38%nat := 0]> st)).
Definition read_exp (dflt : list Z) (table : list kv) (c : st_case) (code : Z) : list Z :=
  fold_left (put_value code) (entries table (ex_first c) (ex_n c)) (no_event (read_in dflt table c code)).
Definition read_mask (table : list kv) (c : st_case) : list Z :=
  fold_left put_mask (entries table (ex_first c) (ex_n c)) (replicate (Z.to_nat N_FIELDS) M32).

End selftest_c.
