(* ===== verification/SelftestReader.v ===== *)
(** * The firmware reads the self-test's table back

    For the cases of the generator, whatever they are, the two states [run_case]
    rebuilds from the emitted table are the two rows the model evaluated, relative
    fields placed at the case's address. *)
From S2P Require Import Prelude Words FpReference SelftestInsn SelftestMachine SelftestRun SelftestTyped SelftestTable.
From S2P Require Import SelftestCases SelftestFpCases SelftestMain IsaMatrix.
Import selftest_insn selftest selftest_run selftest_cases selftest_fp_cases selftest_main selftest_c.
#[local] Open Scope Z_scope.

(** ** Listed fields *)

(** The entries of the fields [p] selects. *)
Definition listing (p : Z -> bool) (e : Z -> kv) (l : list Z) : list kv := concat (map (fun f => if p f then [e f] else []) l).

(** Writing them, one place each, in any array. *)
Lemma fold_listing (get : kv -> Z) p e l st j :
  NoDup l -> (forall f, In f l -> field_index (e f) = Z.to_nat f) -> (forall f, In f l -> 0 <= f) -> 0 <= j -> (Z.to_nat j < length st)%nat ->
  fold_left (fun st x => <[field_index x := get x]> st) (listing p e l) st !! Z.to_nat j =
  if bool_decide (j ∈ l) && p j then Some (get (e j)) else st !! Z.to_nat j.
Proof.
  intros Hd Hi Hp Hj. revert st. induction l as [| f l IH]; intros st Hs; cbn [listing map concat]; [reflexivity |].
  apply NoDup_cons in Hd as [Hf Hd]. fold (listing p e l).
  assert (IH' := IH Hd (fun g H => Hi g (or_intror H)) (fun g H => Hp g (or_intror H))). clear IH. rewrite fold_left_app.
  pose proof (Hi f (or_introl eq_refl)) as Ef. pose proof (Hp f (or_introl eq_refl)) as Pf.
  destruct (decide (j = f)) as [-> | Hne].
  - rewrite (bool_decide_eq_true_2 (f ∈ f :: l)) by left. cbn [andb]. destruct (p f); cbn [fold_left].
    + rewrite IH' by (rewrite length_insert; exact Hs). rewrite bool_decide_eq_false_2 by exact Hf. cbn [andb]. rewrite Ef.
      apply list_lookup_insert_eq. exact Hs.
    + rewrite IH' by exact Hs. rewrite bool_decide_eq_false_2 by exact Hf. reflexivity.
  - replace (bool_decide (j ∈ f :: l)) with (bool_decide (j ∈ l)) by (apply bool_decide_ext; rewrite elem_of_cons; tauto).
    destruct (p f); cbn [fold_left]; rewrite IH' by (rewrite ?length_insert; exact Hs); [| reflexivity].
    rewrite Ef, list_lookup_insert_ne by lia. reflexivity.
Qed.
Lemma fold_length (get : kv -> Z) l st : length (fold_left (fun st x => <[field_index x := get x]> st) l st) = length st.
Proof. revert st. induction l as [| x l IH]; intros st; cbn [fold_left]; [reflexivity |]. rewrite IH. apply length_insert. Qed.

(** What the tag of a field keeps. *)
Lemma tag_bits f : 0 <= f < N_FIELDS -> Z.land (Z.lor f 0) 0xff = f /\ Z.land (Z.lor f REL) 0xff = f /\ Z.land (Z.lor f 0) 0x100 = 0 /\ Z.land (Z.lor f REL) 0x100 = 0x100.
Proof.
  intros H. assert (E : forallb (fun f => (Z.land (Z.lor f 0) 0xff =? f) && (Z.land (Z.lor f REL) 0xff =? f) && (Z.land (Z.lor f 0) 0x100 =? 0)
                           && (Z.land (Z.lor f REL) 0x100 =? 0x100)) (seqZ 0 N_FIELDS) = true) by (vm_compute; reflexivity).
  rewrite forallb_forall in E. specialize (E f). rewrite <- list_elem_of_In, elem_of_seqZ in E. specialize (E ltac:(lia)).
  repeat (apply andb_true_iff in E as [E ?]). repeat split; apply Z.eqb_eq; assumption.
Qed.
Lemma tagged_index f x mk0 : 0 <= f < N_FIELDS -> field_index (tagged f x mk0) = Z.to_nat f.
Proof. intros H. destruct (tag_bits f H) as (H1 & H2 & _). unfold field_index, tagged, ST_FIELD. cbn [fst]. destruct (truthy (rel x)); congruence. Qed.

(** A field at an address. *)
Definition placed (code0 : Z) (x : field) : Z := Z.land (value x + (if truthy (rel x) then code0 else 0)) M32.
Lemma tagged_value code0 f x mk0 : 0 <= f < N_FIELDS -> field_value code0 (tagged f x mk0) = placed code0 x.
Proof.
  intros H. destruct (tag_bits f H) as (_ & _ & H3 & H4). unfold field_value, tagged, placed, ST_REL. destruct (truthy (rel x)); [rewrite H4 | rewrite H3]; reflexivity.
Qed.

Lemma in_fields_listing base inp : in_fields base inp = listing (in_listed base inp) (fun f => tagged f (at_ inp f) M32) (seqZ 0 N_FIELDS).
Proof. reflexivity. Qed.
Lemma ex_fields_listing inp outp :
  ex_fields inp outp = listing (ex_listed inp outp) (fun f => tagged f (at_ outp f) (mask_of (at_ outp f))) (seqZ 0 N_FIELDS).
Proof. reflexivity. Qed.

(** Reading a listing, values or masks. *)
Lemma read_listing (get : kv -> Z) p g mk0 st f :
  length st = 171%nat -> 0 <= f < N_FIELDS ->
  fold_left (fun st x => <[field_index x := get x]> st) (listing p (fun f => tagged f (g f) (mk0 f)) (seqZ 0 N_FIELDS)) st !! Z.to_nat f =
  if p f then Some (get (tagged f (g f) (mk0 f))) else st !! Z.to_nat f.
Proof.
  intros Hs Hf. rewrite fold_listing.
  - rewrite bool_decide_eq_true_2 by (apply elem_of_seqZ; lia). reflexivity.
  - apply NoDup_seqZ.
  - intros g0 Hg. apply list_elem_of_In, elem_of_seqZ in Hg. apply tagged_index. lia.
  - intros g0 Hg. apply list_elem_of_In, elem_of_seqZ in Hg. lia.
  - lia.
  - rewrite Hs. unfold N_FIELDS in Hf. lia.
Qed.

(** ** The table *)
Definition entered (table : list kv) (k : st_case) (base inp outp : list field) : Prop :=
  0 <= in_first k /\ 0 <= in_n k /\ ex_first k = in_first k + in_n k /\ 0 <= ex_n k /\ ex_first k + ex_n k <= len table /\
  take (Z.to_nat (in_n k)) (drop (Z.to_nat (in_first k)) table) = in_fields base inp /\
  take (Z.to_nat (ex_n k)) (drop (Z.to_nat (ex_first k)) table) = ex_fields inp outp.

Lemma slice_app {A} (a b c : list A) n : n = len b -> take (Z.to_nat n) (drop (Z.to_nat (len a)) (a ++ b ++ c)) = b.
Proof. intros ->. unfold len. rewrite !Nat2Z.id, drop_app_length, take_app_length. reflexivity. Qed.
Lemma len_app {A} (a b : list A) : len (a ++ b) = len a + len b.
Proof. unfold len. rewrite length_app. lia. Qed.
Lemma slice_later {A} (t u : list A) i n :
  0 <= i -> 0 <= n -> i + n <= len t -> take (Z.to_nat n) (drop (Z.to_nat i) (t ++ u)) = take (Z.to_nat n) (drop (Z.to_nat i) t).
Proof.
  unfold len. intros Hi Hn H. rewrite drop_app_le by lia. rewrite take_app_le; [reflexivity |]. rewrite length_drop. lia.
Qed.
Lemma entered_later t u k base inp outp : entered t k base inp outp -> entered (t ++ u) k base inp outp.
Proof.
  intros (H1 & H2 & H3 & H4 & H5 & H6 & H7). unfold entered. rewrite len_app. assert (0 <= len u) by (unfold len; lia).
  rewrite !slice_later by lia. repeat split; try assumption; lia.
Qed.

Section Emitted.
Context (v : variant) (isa0 : list entry) (base : list field).

Lemma emit_case_entered t l c t' l' :
  emit_case v isa0 base (t, l) c = Ok (t', l') ->
  exists u k inp outp, t' = (t ++ u)%list /\ l' = (l ++ [k])%list /\ evaluate v c isa0 = Ok (inp, outp) /\ entered t' k base inp outp.
Proof using.
  unfold emit_case. destruct (evaluate v c isa0) as [[inp outp] |]; [| discriminate]. destruct (resolve c) as [words |]; [| discriminate].
  destruct (index_from _ _ _) as [g |]; [| discriminate]. intros H. apply ok_inj, pair_equal_spec in H as [<- <-].
  exists (in_fields base inp ++ ex_fields inp outp)%list. do 3 eexists. split; [symmetry; apply app_assoc |]. split; [reflexivity |].
  split; [reflexivity |]. unfold entered. cbn [in_first in_n ex_first ex_n]. rewrite !len_app.
  assert (0 <= len t /\ 0 <= len (in_fields base inp) /\ 0 <= len (ex_fields inp outp)) by (unfold len; lia).
  repeat split; try lia.
  - rewrite <- app_assoc. apply slice_app. lia.
  - rewrite <- len_app. rewrite <- (app_nil_r ((t ++ _) ++ _)), <- (app_assoc (t ++ _)). apply slice_app. rewrite len_app. lia.
Qed.

Lemma emit_all_entered l t r t' r' :
  emit_all v isa0 base l (t, r) = Ok (t', r') ->
  exists u ks, t' = (t ++ u)%list /\ r' = (r ++ ks)%list /\
    Forall2 (fun c k => exists inp outp, evaluate v c isa0 = Ok (inp, outp) /\ entered t' k base inp outp) l ks.
Proof using.
  revert t r. induction l as [| c l IH]; intros t r; cbn [emit_all].
  - intros H. apply ok_inj, pair_equal_spec in H as [-> ->]. exists [], []. rewrite !app_nil_r. repeat split. constructor.
  - destruct (emit_case v isa0 base (t, r) c) as [[t1 r1] |] eqn:E; [| discriminate]. intros H.
    destruct (emit_case_entered _ _ _ _ _ E) as (u & k & inp & outp & Et & Er & Ev & Hk).
    destruct (IH t1 r1 H) as (u' & ks & -> & -> & Hks).
    exists (u ++ u')%list, (k :: ks). rewrite Et, Er, <- !app_assoc. split; [reflexivity |]. split; [reflexivity |].
    constructor; [| rewrite Et, <- app_assoc in Hks; exact Hks]. exists inp, outp. split; [exact Ev |].
    rewrite app_assoc, <- Et. apply entered_later, Hk.
Qed.
End Emitted.

(** ** The rows of a case *)

(** An input that is a value: not unpredicted, not partly masked. *)
Definition plain (x : val) : Prop := match x with Undef | Masked _ _ => False | _ => True end.
Definition plain_input (x : input) : Prop := match x with InR _ w | InLr w | InCtr w => plain w | _ => True end.

(** A state before the case runs. *)
Record fresh (s : State) : Prop := {
  fresh_gpr : Forall plain (gpr s); fresh_lr : plain (lr s); fresh_ctr : plain (ctr s);
  fresh_event : vec s = 0 /\ srr0 s = Int 0 /\ srr1 s = Int 0 /\ dar s = Int 0 /\ dsisr s = Int 0; fresh_mask : dontcare s = ∅
}.
Lemma default_fresh : fresh default_state.
Proof. constructor; try exact I; [| repeat split; reflexivity | reflexivity]. unfold default_state. cbn [gpr]. repeat constructor. Qed.
Lemma apply_input_fresh r x s : (forall s0, r = Ok s0 -> fresh s0) -> plain_input x -> apply_input r x = Ok s -> fresh s.
Proof.
  intros Hr Hx. unfold apply_input. destruct r as [s0 |]; [| discriminate]. destruct (Hr s0 eq_refl) as [H1 H2 H3 H4 H5].
  destruct x; cbn [plain_input] in Hx; [destruct (py_set (gpr s0) n x) as [l |] eqn:E; [| discriminate]
                                       | destruct (py_set (fpr s0) n x) as [l |]; [| discriminate] | ..];
    intros H; apply ok_inj in H as <-; constructor; try assumption. exact (Forall_py_set _ _ _ _ _ H1 Hx E).
Qed.
Lemma inputs_fresh l r s :
  (forall s0, r = Ok s0 -> fresh s0) -> Forall plain_input l -> fold_left apply_input l r = Ok s -> fresh s.
Proof.
  intros Hr Hl. revert r Hr. induction Hl as [| x l Hx Hl IH]; intros r Hr; cbn [fold_left]; [apply Hr |].
  apply IH. intros s0. apply apply_input_fresh; assumption.
Qed.

Lemma put_mask_plain x mk0 : plain x -> mask_of (put x mk0) = mk0.
Proof. destruct x; cbn; tauto. Qed.
Lemma flatten_fresh_masks s : fresh s -> Forall (fun x => mask_of x = M32) (flatten s).
Proof.
  intros [H1 H2 H3 H4 H5]. unfold flatten. rewrite H5. destruct H4 as (E1 & E2 & E3 & E4 & E5). rewrite E2, E3, E4, E5.
  repeat (apply Forall_app; split).
  - apply Forall_map. eapply Forall_impl; [exact H1 |]. intros x. apply put_mask_plain.
  - repeat constructor; apply put_mask_plain; try exact I; assumption.
  - apply Forall_map, Forall_forall. intros k _. reflexivity.
  - apply Forall_concat, Forall_map, Forall_forall. intros p _. repeat constructor.
  - repeat constructor.
Qed.
(** The event fields of a row. *)
Lemma flatten_event s j x :
  typed s -> nth_error [put (Int (vec s)) (default M32 (dontcare s !! "vec"%string)); put (srr0 s) (default M32 (dontcare s !! "srr0"%string));
                        put (srr1 s) (default M32 (dontcare s !! "srr1"%string))] j = Some x ->
  nth (36 + j) (flatten s) (0, 0, 0) = x.
Proof.
  intros Hs. destruct (ty_gpr _ Hs) as [Hg _]. unfold flatten. rewrite app_nth2 by (rewrite length_map, Hg; lia). rewrite length_map, Hg.
  destruct j as [| [| [| j]]]; cbn [nth_error]; [intros [= <-]; reflexivity .. |]. destruct j; discriminate.
Qed.

(** The row of the inputs and of the results. *)
Record input_row (l : list field) : Prop := {
  ir_fields : row_ok l; ir_masks : Forall (fun x => mask_of x = M32) l;
  ir_event : at_ l 36 = (0, M32, 0) /\ at_ l 37 = (0, M32, 0) /\ at_ l 38 = (0, M32, 0)
}.
Lemma at_msr x l f : f <> F_MSR -> 0 <= f -> at_ (with_msr_field x l) f = at_ l f.
Proof.
  intros Hf H0. unfold at_, with_msr_field, selftest_run.F_MSR. unfold F_MSR in Hf. rewrite !nth_lookup, list_lookup_insert_ne by lia. reflexivity.
Qed.
Lemma input_row_of s x : typed s -> fresh s -> fits 32 x -> input_row (with_msr_field x (flatten s)).
Proof.
  intros Hs Hf Hx. pose proof (fresh_event s Hf) as (E1 & E2 & E3 & _). pose proof (fresh_mask s Hf) as Em. constructor.
  - apply with_msr_row; [exact Hx |]. apply flatten_row, Hs.
  - apply Forall_insert; [exact (flatten_fresh_masks s Hf) | reflexivity].
  - rewrite !at_msr by (unfold F_MSR; lia). repeat split.
    + apply (flatten_event s 0); [exact Hs |]. cbn. rewrite E1, Em. reflexivity.
    + apply (flatten_event s 1); [exact Hs |]. cbn. rewrite E2, Em. reflexivity.
    + apply (flatten_event s 2); [exact Hs |]. cbn. rewrite E3, Em. reflexivity.
Qed.
Lemma event_rel s x : typed s -> rel (at_ (with_msr_field x (flatten s)) 36) = 0.
Proof. intros Hs. rewrite at_msr by (unfold F_MSR; lia). change (at_ (flatten s) 36) with (nth (36 + 0) (flatten s) (0, 0, 0)). rewrite (flatten_event s 0 _ Hs eq_refl). reflexivity. Qed.

(** A case of the generator: encodable instructions, words as inputs. *)
Definition case_good (c : Case) : Prop := case_ok c /\ Forall plain_input (inp c).

Lemma evaluate_rows v c isa0 before after :
  case_good c -> evaluate v c isa0 = Ok (before, after) -> input_row before /\ row_ok after /\ rel (at_ after 36) = 0.
Proof.
  intros [Hc Hp]. unfold evaluate. destruct (fold_left apply_input _ _) as [s0 |] eqn:E0; [| discriminate].
  destruct (final_state v c isa0) as [s |] eqn:E1; [| discriminate].
  intros E. apply ok_inj in E. apply pair_equal_spec in E as [<- <-]. pose proof (final_state_typed v c Hc isa0 s E1) as Hs.
  destruct Hc as (_ & Hx & Hm & _).
  assert (H0 : typed s0) by (apply inputs_typed in E0; [exact E0 | intros s1 [= <-]; exact default_state_typed | exact Hx]).
  assert (F0 : fresh s0) by (apply inputs_fresh in E0; [exact E0 | intros s1 [= <-]; exact default_fresh | exact Hp]).
  split; [apply input_row_of; assumption |]. split; [| apply event_rel; exact Hs].
  apply with_msr_row; [fits | apply flatten_row; exact Hs].
Qed.

(** ** Reading back *)
Lemma row_field (l : list field) f : row_ok l -> 0 <= f < N_FIELDS -> l !! Z.to_nat f = Some (at_ l f) /\ field_ok (at_ l f).
Proof.
  intros [Hl Hf] Hr. destruct (l !! Z.to_nat f) as [x |] eqn:E.
  - assert (Ex : at_ l f = x) by (unfold at_; rewrite nth_lookup, E; reflexivity). rewrite Ex. split; [reflexivity |].
    rewrite Forall_lookup in Hf. exact (Hf _ _ E).
  - apply lookup_ge_None in E. unfold N_FIELDS, field in *. lia.
Qed.
Lemma field_eqb_true x y : field_eqb x y = true -> x = y.
Proof.
  destruct x as [[a b] c], y as [[a' b'] c']. unfold field_eqb, value, mask_of, rel. cbn [fst snd]. intros H.
  apply andb_true_iff in H as [H H3]. apply andb_true_iff in H as [H1 H2]. apply Z.eqb_eq in H1, H2, H3. congruence.
Qed.
Lemma field_eta (x : field) : x = (value x, mask_of x, rel x).
Proof. destruct x as [[a b] c]. reflexivity. Qed.

(** The default row as the firmware's array: no field is relative. *)
Record default_row (base : list field) : Prop := {
  dr_fields : row_ok base; dr_masks : Forall (fun x => mask_of x = M32) base; dr_rel : Forall (fun x => rel x = 0) base
}.
Lemma default_row_flatten : default_row (flatten default_state).
Proof.
  constructor; [apply flatten_row, default_state_typed | apply flatten_fresh_masks, default_fresh |].
  apply (Forall_impl (fun x => (rel x =? 0) = true)); [| intros x; apply Z.eqb_eq]. apply Forall_forall. intros x Hx.
  assert (E : forallb (fun x => rel x =? 0) (flatten default_state) = true) by (vm_compute; reflexivity).
  rewrite forallb_forall in E. apply E, list_elem_of_In, Hx.
Qed.

Section Read.
Context (base inp outp : list field) (code0 : Z).
Context (Hb : default_row base) (Hi : input_row inp) (Ho : row_ok outp) (Hv : rel (at_ outp 36) = 0).

Lemma placed_absolute x : field_ok x -> rel x = 0 -> placed code0 x = value x.
Proof using. intros (H1 & _) E. unfold placed. rewrite E. cbn. rewrite Z.add_0_r. apply (mask32_id (value x)), H1. Qed.

Lemma read_in_place f :
  0 <= f < N_FIELDS -> fold_left (put_value code0) (in_fields base inp) (map value base) !! Z.to_nat f = Some (placed code0 (at_ inp f)).
Proof using Hb Hi.
  intros Hf. rewrite in_fields_listing. change (put_value code0) with (fun (st : list Z) x => <[field_index x := field_value code0 x]> st).
  destruct (dr_fields _ Hb) as [Hl _]. rewrite read_listing with (mk0 := fun _ => M32) by (rewrite ?length_map; assumption).
  unfold in_listed. destruct (field_eqb (at_ inp f) (at_ base f)) eqn:E; cbn [negb orb]; [| rewrite tagged_value by exact Hf; reflexivity].
  case_if; [rewrite tagged_value by exact Hf; reflexivity |]. apply field_eqb_true in E. rewrite E.
  destruct (row_field base f (dr_fields _ Hb) Hf) as [El Eo]. rewrite list_lookup_fmap, El. cbn. f_equal. symmetry. apply placed_absolute; [exact Eo |].
  pose proof (dr_rel _ Hb) as Hr. rewrite Forall_lookup in Hr. exact (Hr _ _ El).
Qed.

(** The array the expected entries are written into. *)
Definition expected_base (st : list Z) (f : Z) : option Z := if (36 <=? f) && (f <=? 38) then Some 0 else st !! Z.to_nat f.
Lemma no_event_place st f : length st = 171%nat -> 0 <= f < N_FIELDS -> no_event st !! Z.to_nat f = expected_base st f.
Proof using.
  intros Hl Hf. unfold no_event, expected_base, N_FIELDS in *.
  destruct (decide (f = 36)) as [-> | N1]; [apply list_lookup_insert_eq; rewrite !length_insert; lia |]. rewrite list_lookup_insert_ne by lia.
  destruct (decide (f = 37)) as [-> | N2]; [apply list_lookup_insert_eq; rewrite !length_insert; lia |]. rewrite list_lookup_insert_ne by lia.
  destruct (decide (f = 38)) as [-> | N3]; [apply list_lookup_insert_eq; lia |]. rewrite list_lookup_insert_ne by lia.
  replace ((36 <=? f) && (f <=? 38)) with false by lia. reflexivity.
Qed.

(** What is not listed is what the inputs say, or no event. *)
Lemma unlisted f :
  0 <= f < N_FIELDS -> ex_listed inp outp f = false ->
  at_ outp f = (value (at_ inp f), M32, rel (at_ inp f)) \/ f = F_VEC /\ value (at_ outp f) = 0.
Proof using.
  intros Hf. unfold ex_listed. destruct (field_eqb _ _) eqn:E; [left; apply field_eqb_true; exact E |]. cbn [negb orb andb].
  intros H. apply negb_false_iff, andb_true_iff in H as [H1 H2]. right. split; apply Z.eqb_eq; assumption.
Qed.

Lemma read_exp_place f :
  0 <= f < N_FIELDS ->
  fold_left (put_value code0) (ex_fields inp outp) (no_event (fold_left (put_value code0) (in_fields base inp) (map value base)))
    !! Z.to_nat f = Some (placed code0 (at_ outp f)).
Proof using Hb Hi Ho Hv.
  intros Hf. rewrite ex_fields_listing. set (st := fold_left (put_value code0) (in_fields base inp) _).
  assert (Hl : length st = 171%nat).
  { destruct (dr_fields _ Hb) as [Hl _]. unfold st. change (put_value code0) with (fun (st : list Z) x => <[field_index x := field_value code0 x]> st).
    rewrite fold_length, length_map. exact Hl. }
  change (put_value code0) with (fun (st : list Z) x => <[field_index x := field_value code0 x]> st).
  rewrite read_listing with (mk0 := fun f => mask_of (at_ outp f)) by (unfold no_event; rewrite ?length_insert; assumption).
  destruct (ex_listed inp outp f) eqn:E; [rewrite tagged_value by exact Hf; reflexivity |].
  rewrite no_event_place by assumption. unfold expected_base. destruct (ir_event _ Hi) as (E6 & E7 & E8).
  destruct (unlisted f Hf E) as [Eo | [-> Eo]].
  - rewrite Eo. destruct ((36 <=? f) && (f <=? 38)) eqn:Er.
    + assert (Ef : f = 36 \/ f = 37 \/ f = 38) by lia. destruct Ef as [-> | [-> | ->]]; [rewrite E6 | rewrite E7 | rewrite E8]; reflexivity.
    + unfold st. rewrite read_in_place by exact Hf. reflexivity.
  - cbn. f_equal. unfold placed. fold F_VEC in Hv. rewrite Eo, Hv. reflexivity.
Qed.

Lemma read_mask_place f :
  0 <= f < N_FIELDS ->
  fold_left put_mask (ex_fields inp outp) (replicate (Z.to_nat N_FIELDS) M32) !! Z.to_nat f =
  Some (if (f =? F_VEC) && (value (at_ outp f) =? 0) then M32 else mask_of (at_ outp f)).
Proof using Hi.
  intros Hf. rewrite ex_fields_listing. change put_mask with (fun (st : list Z) (x : kv) => <[field_index x := snd x]> st).
  rewrite (read_listing snd) with (mk0 := fun f => mask_of (at_ outp f)) by (reflexivity || assumption).
  destruct (ex_listed inp outp f) eqn:E.
  - unfold ex_listed in E. apply andb_true_iff in E as [_ E]. apply negb_true_iff in E. rewrite E. reflexivity.
  - rewrite lookup_replicate_2 by (unfold N_FIELDS in *; lia).
    f_equal. destruct (unlisted f Hf E) as [-> | [-> ->]]; [destruct (_ && _); reflexivity | reflexivity].
Qed.
End Read.

(** ** The table of any list of cases *)
Lemma u16_small x : 0 <= x < 65536 -> u16 x = x.
Proof. intros H. unfold u16. change 0xffff with (Z.ones 16). rewrite Z.land_ones by lia. apply Z.mod_small. exact H. Qed.
Lemma entries_of table k base inp outp :
  entered table k base inp outp -> len table < 65536 ->
  entries table (in_first k) (in_n k) = in_fields base inp /\ entries table (ex_first k) (ex_n k) = ex_fields inp outp.
Proof. intros (H1 & H2 & H3 & H4 & H5 & H6 & H7) Hl. unfold entries. rewrite !u16_small by lia. auto. Qed.

Definition dflt : list Z := map value (flatten default_state).

(** C28. The firmware reads the table back. For any list of generated cases, if the
    table fits the sixteen-bit indices of the C structure, then for each case and
    each field the input the firmware loads is the input the model ran on, and the
    value and mask it compares with are the model's result and mask, at whatever
    address the case is placed; an unpredicted event is compared as no event. *)
Theorem table_reads_back v isa0 l table rows :
  Forall case_good l -> emit_all v isa0 (flatten default_state) l ([], []) = Ok (table, rows) -> len table < 65536 ->
  forall n c, l !! n = Some c -> exists k inp outp, rows !! n = Some k /\ evaluate v c isa0 = Ok (inp, outp) /\
    forall code0 f, 0 <= f < N_FIELDS ->
      read_in dflt table k code0 !! Z.to_nat f = Some (placed code0 (at_ inp f)) /\
      read_exp dflt table k code0 !! Z.to_nat f = Some (placed code0 (at_ outp f)) /\
      read_mask table k !! Z.to_nat f = Some (if (f =? F_VEC) && (value (at_ outp f) =? 0) then M32 else mask_of (at_ outp f)).
Proof.
  intros Hg He Hl n c Hc. destruct (emit_all_entered _ _ _ _ _ _ _ _ He) as (u & ks & -> & -> & Hf). cbn [app] in *.
  destruct (Forall2_lookup_l _ _ _ _ _ Hf Hc) as (k & Hk & inp0 & outp & Ev & En). exists k, inp0, outp.
  split; [exact Hk |]. split; [exact Ev |]. intros code0 f Hr. destruct (entries_of _ _ _ _ _ En Hl) as [Ei Eo].
  rewrite Forall_lookup in Hg. destruct (evaluate_rows _ _ _ _ _ (Hg _ _ Hc) Ev) as (H1 & H2 & H3).
  unfold read_exp, read_in, read_mask. rewrite Ei, Eo. pose proof default_row_flatten as Hb.
  split; [apply read_in_place; assumption |]. split; [apply read_exp_place; assumption | apply read_mask_place; assumption].
Qed.

(** ** The shipped tables *)
Lemma stub_typed v : external_typed (stub v).
Proof.
  intros g s s' [= <-] Hs. unfold stub_sem. destruct (py_get (gpr s) 3) as [x |]; [| discriminate].
  destruct (as_int x) as [z |]; [| discriminate]. destruct (py_set (gpr s) 3 _) as [l |] eqn:E; [| discriminate]. intros [= <-].
  apply typed_gpr; [exact Hs |]. refine (sized_set _ _ _ _ _ _ (ty_gpr _ Hs) _ E). apply fits_M32.
Qed.

(** What a computation can check of a case; the routine it calls is compared apart. *)
Definition input_okb (x : input) : bool :=
  match x with
  | InR _ w | InLr w | InCtr w => val_okb w && match w with Undef | Masked _ _ => false | _ => true end
  | InF _ w => in_word 64 w
  | InCr w | InXer w | InFpscr w => in_word 32 w
  end.
Definition case_okb (c : Case) : bool :=
  forallb (fun i => encodable i && match sem i with None => true | Some _ => false end) (code c)
  && forallb input_okb (inp c) && in_word 32 (case_msr c).
Definition needs (l : list Case) : list (string * Insn) := omap need l.

Lemma input_okb_ok x : input_okb x = true -> input_ok x /\ plain_input x.
Proof.
  destruct x; cbn; auto using in_word_fits; intros H; apply andb_true_iff in H as [H1 H2];
    (split; [apply val_okb_ok; exact H1 | destruct x; try discriminate H2; exact I]).
Qed.
Lemma case_okb_ok c :
  case_okb c = true -> match need c with Some (_, st) => external_typed st | None => True end -> case_good c.
Proof.
  unfold case_okb. intros H Hn. apply andb_true_iff in H as [H Hm]. apply andb_true_iff in H as [Hi Hx].
  rewrite forallb_forall in Hi, Hx. split; [split; [| split; [| split]] |].
  - apply Forall_forall. intros i H. apply list_elem_of_In, Hi, andb_true_iff in H as [H1 H2]. split; [exact H1 |].
    intros g s s' Hs. rewrite Hs in H2. discriminate H2.
  - apply Forall_forall. intros x H. apply list_elem_of_In, Hx, input_okb_ok in H. tauto.
  - exact (in_word_fits _ _ Hm).
  - exact Hn.
  - apply Forall_forall. intros x H. apply list_elem_of_In, Hx, input_okb_ok in H. tauto.
Qed.
Lemma cases_good l : forallb case_okb l = true -> Forall (fun p => external_typed (snd p)) (needs l) -> Forall case_good l.
Proof.
  intros H Hn. apply Forall_forall. intros c Hc. rewrite forallb_forall in H. apply case_okb_ok; [apply H, list_elem_of_In, Hc |].
  destruct (need c) as [[nm st] |] eqn:E; [| exact I]. rewrite Forall_forall in Hn. apply (Hn (nm, st)).
  apply list_elem_of_omap. exists c. auto.
Qed.

(** The C types of an entry. *)
Definition fits_c (k : st_case) : bool :=
  (String.length (c_name k) <=? 12)%nat && in_word 3 (c_group k) && in_word 8 (c_words k) && in_word 16 (in_first k)
  && in_word 16 (in_n k) && in_word 16 (ex_first k) && in_word 16 (ex_n k).

(** *** The table's sizes, without the table

    What the loop of [main] counts depends on the cases one by one: the entries of each
    and the place of the first. *)
Definition b2n (b : bool) : Z := if b then 1 else 0.
(** The entries of three rows from field [f] on. *)
Fixpoint counts (f : Z) (base inp outp : list field) : Z * Z :=
  match base, inp, outp with
  | b :: base', i :: inp', o :: outp' =>
      let '(n, e) := counts (f + 1) base' inp' outp' in
      (b2n (negb (field_eqb i b) || (f =? F_MSR)) + n,
       b2n ((negb (field_eqb o (value i, M32, rel i)) || (f =? F_VEC)) && negb ((f =? F_VEC) && (value o =? 0))) + e)
  | _, _, _ => (0, 0)
  end.

Lemma drop_at (l : list field) k n : length l = (k + S n)%nat -> drop k l = at_ l (Z.of_nat k) :: drop (S k) l.
Proof.
  intros H. unfold at_. rewrite Nat2Z.id. destruct (lookup_lt_is_Some_2 l k ltac:(lia)) as [x E].
  rewrite (nth_lookup_Some _ _ _ _ E). apply drop_S. exact E.
Qed.
Lemma len_listing_cons p e f l : len (listing p e (f :: l)) = b2n (p f) + len (listing p e l).
Proof. unfold listing. cbn [map concat]. rewrite len_app. destruct (p f); reflexivity. Qed.
Lemma counts_from base inp outp n k :
  length base = (k + n)%nat -> length inp = (k + n)%nat -> length outp = (k + n)%nat ->
  counts (Z.of_nat k) (drop k base) (drop k inp) (drop k outp) =
  (len (listing (in_listed base inp) (fun f => tagged f (at_ inp f) M32) (seqZ (Z.of_nat k) (Z.of_nat n))),
   len (listing (ex_listed inp outp) (fun f => tagged f (at_ outp f) (mask_of (at_ outp f))) (seqZ (Z.of_nat k) (Z.of_nat n)))).
Proof.
  revert k. induction n as [| n IH]; intros k Hb Hi Ho.
  - rewrite !drop_ge by lia. reflexivity.
  - rewrite (drop_at base k n Hb), (drop_at inp k n Hi), (drop_at outp k n Ho). rewrite seqZ_cons by lia.
    cbn [counts]. replace (Z.of_nat k + 1) with (Z.of_nat (S k)) by lia. replace (Z.pred (Z.of_nat (S n))) with (Z.of_nat n) by lia.
    rewrite IH by lia. rewrite !len_listing_cons. replace (Z.succ (Z.of_nat k)) with (Z.of_nat (S k)) by lia. reflexivity.
Qed.
Lemma counts_fields base inp outp :
  length base = Z.to_nat N_FIELDS -> length inp = Z.to_nat N_FIELDS -> length outp = Z.to_nat N_FIELDS ->
  counts 0 base inp outp = (len (in_fields base inp), len (ex_fields inp outp)).
Proof. intros Hb Hi Ho. apply (counts_from base inp outp (Z.to_nat N_FIELDS) 0); assumption. Qed.

(** The final size of the table, the cases, and those that need an FPU. *)
Fixpoint tally (v : variant) (isa0 : list entry) (base : list field) (l : list Case) (t : Z) : option (Z * Z * Z) :=
  match l with
  | [] => Some (t, 0, 0)
  | c :: l' =>
      match evaluate v c isa0, resolve c, index_from 0 (group c) GROUPS with
      | Ok (inp0, outp), Ok words, Ok g =>
          let '(n, e) := counts 0 base inp0 outp in
          if (length inp0 =? Z.to_nat N_FIELDS)%nat && (length outp =? Z.to_nat N_FIELDS)%nat
             && fits_c {| c_name := String.substring 0 12 (name c); c_group := g; c_words := len words; c_fpu := fpu c;
                          in_first := t; in_n := n; ex_first := t + n; ex_n := e |}
          then match tally v isa0 base l' (t + n + e) with
               | Some (t', rows, fpus) => Some (t', 1 + rows, b2n (fpu c) + fpus)
               | None => None
               end
          else None
      | _, _, _ => None
      end
  end.
Lemma tally_emits v isa0 base l t t' n m table rows :
  length base = Z.to_nat N_FIELDS -> tally v isa0 base l t = Some (t', n, m) -> len table = t ->
  exists table' rows', emit_all v isa0 base l (table, rows) = Ok (table', (rows ++ rows')%list) /\ len table' = t' /\
    Forall (fun k => fits_c k = true) rows' /\ len rows' = n /\ len (List.filter c_fpu rows') = m.
Proof.
  intros Hb. revert t t' n m table rows. induction l as [| c l IH]; intros t t' n m table rows H Ht; cbn [tally emit_all] in *.
  - injection H as <- <- <-. exists table, []. rewrite app_nil_r. repeat split; auto.
  - unfold emit_case. destruct (evaluate v c isa0) as [[inp0 outp] |]; [| discriminate].
    destruct (resolve c) as [ws |]; [| discriminate]. destruct (index_from 0 (group c) GROUPS) as [g |]; [| discriminate].
    destruct (counts 0 base inp0 outp) as [ni ne] eqn:Ec.
    destruct (_ && fits_c _) eqn:Ef; [| discriminate]. apply andb_true_iff in Ef as [Ef Hfit]. apply andb_true_iff in Ef as [Hi Ho].
    apply Nat.eqb_eq in Hi, Ho. rewrite (counts_fields _ _ _ Hb Hi Ho) in Ec. injection Ec as <- <-.
    destruct (tally v isa0 base l _) as [[[t1 n1] m1] |] eqn:Et; [| discriminate]. injection H as <- <- <-.
    match goal with |- context [emit_all v isa0 base l (?tb, (rows ++ [?row])%list)] =>
      destruct (IH _ _ _ _ tb (rows ++ [row])%list Et) as (table' & rows' & E & Ht' & Hf & Hn & Hm); [rewrite !len_app; lia |] end.
    rewrite E. rewrite <- app_assoc. eexists table', (_ :: rows'). split; [reflexivity |]. split; [exact Ht' |].
    split; [apply List.Forall_cons; [| exact Hf] |].
    + rewrite <- Hfit. unfold fits_c. cbn [c_name c_group c_words in_first in_n ex_first ex_n]. rewrite !len_app, Ht.
      replace (t + len (in_fields base inp0) - t) with (len (in_fields base inp0)) by lia.
      replace (t + len (in_fields base inp0) + len (ex_fields inp0 outp) - (t + len (in_fields base inp0))) with (len (ex_fields inp0 outp)) by lia.
      reflexivity.
    + cbn [List.filter c_fpu]. change (len (?x :: rows')) with (len ([x] ++ rows')). rewrite len_app. split; [rewrite Hn; reflexivity |].
      destruct (fpu c); cbn [b2n]; [change (len (?x :: ?y)) with (len ([x] ++ y)); rewrite len_app, Hm; reflexivity | exact Hm].
Qed.

(** The number of cases, and of those that need an FPU. *)
Definition expected_counts (variant_name : string) : Z * Z := if String.eqb variant_name "603e" then (1218, 171) else (1046, 0).
Definition shipped_ok (variant_name : string) : bool :=
  match build_all variant_name isa_matrix.decode_entries, item VARIANTS variant_name with
  | Ok l, Ok v =>
      forallb case_okb l
      && match tally v isa_matrix.decode_entries (flatten default_state) l 0 with
         | Some (t, n, m) => (t <? 65536) && bool_decide ((n, m) = expected_counts variant_name)
         | None => false
         end
  | _, _ => false
  end.
Lemma shipped_computed : forallb shipped_ok (map fst VARIANTS) = true.
Proof. vm_cast_no_check (eq_refl true). Qed.
Definition stubs : list (string * Insn) := [("stub"%string, stub 5); ("stub"%string, stub 9)].
Lemma shipped_needs name l : In name (map fst VARIANTS) -> build_all name isa_matrix.decode_entries = Ok l -> needs l = stubs.
Proof.
  intros H. assert (E : (let! l := build_all name isa_matrix.decode_entries in Ok (needs l)) = Ok stubs) by (destruct H as [<- | [<- | []]]; lazy -[stub_sem]; reflexivity).
  intros Hl. rewrite Hl in E. apply ok_inj in E. exact E.
Qed.

(** [RFI] and [TLBSYNC] are objects several cases share, and one case marks them
    privileged: the matrix does too, so the others do not see it. *)
Lemma shared_flag_redundant :
  Forall (fun i => classified isa_matrix.decode_entries (with_priv i) = classified isa_matrix.decode_entries i) [RFI; TLBSYNC].
Proof. repeat constructor. Qed.

(** C29. The generator ships a complete table. On the shipped ISA matrix, for both
    processors, [main] returns: every case is built, evaluates and resolves (no
    exception of the generator, no case past its 400 turns), is of encodable
    instructions and word inputs, and is entered in the table, whose names, counts
    and indices fit the C structure; there are 1218 cases for the 603e, 171 of
    which need an FPU, and 1046 for the 602. *)
Theorem shipped_tables name :
  In name (map fst VARIANTS) ->
  exists l base table rows, build_all name isa_matrix.decode_entries = Ok l /\
    main name isa_matrix.decode_entries = Ok (base, table, rows) /\ Forall case_good l /\
    Forall (fun k => fits_c k = true) rows /\ len table < 65536 /\ (len rows, len (List.filter c_fpu rows)) = expected_counts name.
Proof.
  intros Hn. pose proof shipped_computed as H. rewrite forallb_forall in H. specialize (H name Hn). unfold shipped_ok in H.
  destruct (build_all name _) as [l |] eqn:El; [| discriminate]. destruct (item VARIANTS name) as [v |] eqn:Ev; [| discriminate].
  apply andb_true_iff in H as [Hg H]. destruct (tally v _ _ l 0) as [[[t n] m] |] eqn:Et; [| discriminate].
  apply andb_true_iff in H as [Hl Hc]. apply Z.ltb_lt in Hl. apply bool_decide_eq_true in Hc.
  destruct (tally_emits v _ (flatten default_state) l 0 t n m [] [] ltac:(vm_compute; reflexivity) Et eq_refl) as (table & rows & E & Ht & Hf & Hn' & Hm).
  exists l, (flatten default_state), table, rows. split; [reflexivity |].
  split; [unfold main; rewrite El, Ev, E; reflexivity |].
  split; [| split; [exact Hf | split; [lia | rewrite Hn', Hm; exact Hc]]].
  apply cases_good; [exact Hg |]. rewrite (shipped_needs name l Hn El). apply List.Forall_cons; [apply stub_typed |]. apply List.Forall_cons; [apply stub_typed | constructor].
Qed.
Lemma shipped_tables_witness :
  exists l base table rows, build_all "602" isa_matrix.decode_entries = Ok l /\
    main "602" isa_matrix.decode_entries = Ok (base, table, rows) /\ Forall case_good l /\
    Forall (fun k => fits_c k = true) rows /\ len table < 65536 /\ (len rows, len (List.filter c_fpu rows)) = (1046, 0).
Proof. apply (shipped_tables "602"). right. left. reflexivity. Defined.

(** A small table for the reader: the branches. *)
Lemma table_reads_back_witness :
  exists l table rows, build_branches "CMP/BR" = Ok l /\ emit_all v603e [] (flatten default_state) l ([], []) = Ok (table, rows) /\
    forall n c, l !! n = Some c -> exists k inp outp, rows !! n = Some k /\ evaluate v603e c [] = Ok (inp, outp) /\
      forall code0 f, 0 <= f < N_FIELDS ->
        read_in dflt table k code0 !! Z.to_nat f = Some (placed code0 (at_ inp f)) /\
        read_exp dflt table k code0 !! Z.to_nat f = Some (placed code0 (at_ outp f)) /\
        read_mask table k !! Z.to_nat f = Some (if (f =? F_VEC) && (value (at_ outp f) =? 0) then M32 else mask_of (at_ outp f)).
Proof.
  assert (H : match build_branches "CMP/BR" with
              | Ok l => match emit_all v603e [] (flatten default_state) l ([], []) with
                        | Ok (table, _) => forallb case_okb l && (length (needs l) =? 0)%nat && (len table <? 65536)
                        | Raise _ => false
                        end
              | Raise _ => false
              end = true) by (vm_compute; reflexivity).
  destruct (build_branches "CMP/BR") as [l |]; [| discriminate H].
  destruct (emit_all v603e [] (flatten default_state) l ([], [])) as [[table rows] |] eqn:Ee; [| discriminate H].
  apply andb_true_iff in H as [H Hl]. apply andb_true_iff in H as [Hg Hn].
  exists l, table, rows. split; [reflexivity |]. split; [exact Ee |].
  apply (table_reads_back v603e [] l table rows); [| exact Ee | apply Z.ltb_lt; exact Hl].
  apply cases_good; [exact Hg |]. destruct (needs l); [constructor | discriminate Hn].
Defined.
