(* ===== verification/LeProgram.v ===== *)
(** * Little-endian core program ([sim/tools/le_core_program.py])

    The generator of the program that exercises little-endian mode: a model of
    physical memory with both byte orders, the emission of code with its overlap
    check, the sections of the program with the memory each is expected to leave,
    and the images it writes. The module's globals, which [use_chip_layout] rebinds,
    are a class with one instance per layout. *)
From stdpp Require Import sorting mapset.
From S2P Require Import Prelude.

(** [s.add(a)] and [s.discard(a)], without rebuilding the set. *)
Definition set_add (a : Z) (s : gset Z) : gset Z := let '(Mapset t) := s in Mapset (<[a := tt]> t).
Definition set_discard (a : Z) (s : gset Z) : gset Z := let '(Mapset t) := s in Mapset (delete a t).

Lemma set_add_spec a s : set_add a s = {[a]} ∪ s.
Proof.
  apply set_eq. intros x. destruct s as [t]. rewrite elem_of_union, elem_of_singleton.
  unfold set_add, elem_of, gset_elem_of, mapset_elem_of. cbn. rewrite lookup_insert_Some.
  destruct (decide (a = x)); intuition.
Qed.
Lemma set_discard_spec a s : set_discard a s = s ∖ {[a]}.
Proof.
  apply set_eq. intros x. destruct s as [t]. rewrite elem_of_difference, elem_of_singleton.
  unfold set_discard, elem_of, gset_elem_of, mapset_elem_of. cbn. rewrite lookup_delete_Some. intuition congruence.
Qed.

Module le_core_program.

(** The globals [use_chip_layout] changes. *)
Class Globals : Type := {
  CHIP : bool; RESET_PC : Z; LE_ENTRY : Z; BE_ENTRY : Z; DATA : Z; STORE : Z; FPDATA : Z;
  RES : Z; LOG : Z; DONE : Z
}.
Definition core_layout : Globals :=
  {| CHIP := false; RESET_PC := 0x4000; LE_ENTRY := 0x20000; BE_ENTRY := 0x21000; DATA := 0x40000; STORE := 0x44000;
     FPDATA := 0x48000; RES := 0x50000; LOG := 0x60000; DONE := 0x70000 |}.
Definition use_chip_layout : Globals :=
  {| CHIP := true; RESET_PC := 0xfff02000; LE_ENTRY := 0xfff06000; BE_ENTRY := 0xfff06800; DATA := 0xfff0c000;
     STORE := 0xfff0c400; FPDATA := 0xfff0e000; RES := 0xfff10000; LOG := 0xfff20000; DONE := 0xfff3ff00 |}.

Definition CHIP_BASE : Z := 0xfff00000.
Definition CHIP_IMAGE_BYTES : Z := 0x10000.
Definition TABLE : Z := 0xfff07000.
Definition PROT_LO : Z := 0x7F000.
Definition PROT_HI : Z := 0x7F0FC.
Definition MSR_LE : Z := 0x1.
Definition MSR_ILE : Z := 0x10000.
Definition MSR_IP : Z := 0x40.
Definition MSR_FP : Z := 0x2000.
Definition SENTINEL : Z := 0xdeadbeef.
Definition VARIANTS : list string := ["pid7v"; "pid6"; "603"; "602"]%string.
Definition VECTORS : list Z := [0x300; 0x600; 0x700; 0xc00; 0x1600].
Definition SRR0 : Z := 26.
Definition SRR1 : Z := 27.
Definition DAR : Z := 19.
Definition DSISR : Z := 18.
Definition LR : Z := 8.
Definition CTR : Z := 9.

Definition d_form (op rt ra d : Z) : Z :=
  ors [Z.shiftl op 26; Z.shiftl rt 21; Z.shiftl ra 16; Z.land d 0xffff].
Definition x_form (op rt ra rb xo rc : Z) : Z :=
  ors [Z.shiftl op 26; Z.shiftl rt 21; Z.shiftl ra 16; Z.shiftl rb 11; Z.shiftl xo 1; rc].
Definition mfspr (rt spr : Z) : Z := x_form 31 rt (Z.land spr 31) (Z.shiftr spr 5) 339 0.
Definition mtspr (spr rs : Z) : Z := x_form 31 rs (Z.land spr 31) (Z.shiftr spr 5) 467 0.
Definition dsisr_d (insn : Z) : Z :=
  ors [Z.shiftl (Z.land (Z.shiftr insn 26) 1) 14; Z.shiftl (Z.land (Z.shiftr insn 27) 0xf) 10;
       Z.shiftl (Z.land (Z.shiftr insn 21) 31) 5; Z.land (Z.shiftr insn 16) 31].
Definition dsisr_x (insn : Z) : Z :=
  ors [Z.shiftl (Z.land (Z.shiftr insn 1) 3) 15; Z.shiftl (Z.land (Z.shiftr insn 6) 1) 14;
       Z.shiftl (Z.land (Z.shiftr insn 7) 0xf) 10; Z.shiftl (Z.land (Z.shiftr insn 21) 31) 5; Z.land (Z.shiftr insn 16) 31].

(** [value.to_bytes(n, 'big')], most significant byte first, and
    [int.from_bytes(bs, 'little')]. *)
Definition to_bytes_big (value n : Z) : result (list Z) :=
  require! in_range 0 (2 ^ (8 * n)) value else OverflowError in
  Ok (map (fun i => Z.land (Z.shiftr value (8 * (n - 1 - i))) 0xff) (seqZ 0 n)).
Fixpoint from_bytes_little (bs : list Z) : Z :=
  match bs with [] => 0 | b :: bs' => b + 256 * from_bytes_little bs' end.
Definition byterev (value n : Z) : result Z :=
  let! bs := to_bytes_big value n in Ok (from_bytes_little bs).

Definition RFI : Z := x_form 19 0 0 0 50 0.
Definition SC : Z := Z.lor (Z.shiftl 17 26) 2.
Definition SYNC : Z := x_form 31 0 0 0 598 0.
Definition ISYNC : Z := x_form 19 0 0 0 150 0.
Definition BLR : Z := x_form 19 20 0 0 16 0.
Definition NOP : Z := d_form 24 0 0 0.
Definition BDNZ_BO : Z := 16.

(** The attributes of a [Program]. *)
Record Program : Type := {
  variant : string;
  init : gmap Z Z;       (* physical byte -> initial value *)
  cur : gmap Z Z;        (* physical byte -> value after the run *)
  checked : gset Z;
  pc : Z;
  le : bool;
  msr : Z;
  res_next : Z;
  log_next : Z;
  events : Z;
  handler_le : bool
}.
Definition m : Type -> Type := method Program.

Definition with_memory (i c : gmap Z Z) (k : gset Z) (p : Program) : Program :=
  {| variant := variant p; init := i; cur := c; checked := k; pc := pc p; le := le p; msr := msr p;
     res_next := res_next p; log_next := log_next p; events := events p; handler_le := handler_le p |}.
Definition with_pc (a : Z) (l : bool) (p : Program) : Program :=
  {| variant := variant p; init := init p; cur := cur p; checked := checked p; pc := a; le := l; msr := msr p;
     res_next := res_next p; log_next := log_next p; events := events p; handler_le := handler_le p |}.
Definition with_msr (v : Z) (l h : bool) (p : Program) : Program :=
  {| variant := variant p; init := init p; cur := cur p; checked := checked p; pc := pc p; le := l; msr := v;
     res_next := res_next p; log_next := log_next p; events := events p; handler_le := h |}.
Definition with_log (r l e : Z) (p : Program) : Program :=
  {| variant := variant p; init := init p; cur := cur p; checked := checked p; pc := pc p; le := le p; msr := msr p;
     res_next := r; log_next := l; events := e; handler_le := handler_le p |}.

(** Statements over [p]. *)
Notation set_ := (@m_update Program).
Notation get_ := (@m_view Program _).
Notation assert_ := (@m_assert Program).
Notation each := (@m_each Program _).
Notation each_with := (@m_each_with Program _ _).

(** ** Memory *)
Definition poke (addr value : Z) (p : Program) : Program :=
  with_memory (<[addr := value]> (init p)) (<[addr := value]> (cur p)) (checked p) p.
Definition put32 (addr word : Z) (p : Program) : Program :=
  fold_left (fun p i => poke (addr + i) (Z.land (Z.shiftr word (24 - 8 * i)) 0xff) p) (seqZ 0 4) p.

(** The byte [i] of an access: where it is and which byte of the value. *)
Definition byte_address (ea i : Z) (le : bool) : Z := if le then Z.lxor (ea + i) 7 else ea + i.
Definition byte_shift (n i : Z) (le : bool) : Z := if le then 8 * i else 8 * (n - 1 - i).
Definition write_byte (addr byte : Z) (check : bool) (p : Program) : Program :=
  with_memory (init p) (<[addr := byte]> (cur p)) (if check then set_add addr (checked p) else checked p) p.
Definition write (ea n value : Z) (le : bool) (check : bool) (p : Program) : Program :=
  fold_left (fun p i => write_byte (byte_address ea i le) (Z.land (Z.shiftr value (byte_shift n i le)) 0xff) check p)
    (seqZ 0 n) p.
Definition cur_byte (p : Program) (addr : Z) : Z := default 0 (cur p !! addr).
Definition read (ea n : Z) (le : bool) (p : Program) : Z :=
  fold_left (fun value i => if le then Z.lor value (Z.shiftl (cur_byte p (Z.lxor (ea + i) 7)) (8 * i))
                            else Z.lor (Z.shiftl value 8) (cur_byte p (ea + i))) (seqZ 0 n) 0.
Definition fill (base size seed : Z) (p : Program) : Program :=
  fold_left (fun p k => let p := poke (base + k) (Z.land (seed + 37 * k) 0xff) p in
                        with_memory (init p) (cur p) (set_add (base + k) (checked p)) p) (seqZ 0 size) p.

(** ** Code *)
Definition emit (insn : Z) : m Z :=
  do! at_ := get_ pc in
  do! l := get_ le in
  let addr := Z.lxor at_ (if l then 4 else 0) in
  do! i := get_ init in
  do! _ := assert_ (bool_decide (i !! addr = None)) in
  do! _ := set_ (put32 addr (Z.land insn 0xffffffff)) in
  do! _ := set_ (fun p => with_pc (pc p + 4) (le p) p) in
  m_ret at_.
Definition emit_ (insn : Z) : m unit := do! _ := emit insn in m_ret tt.
Definition li32 (r value : Z) : m unit :=
  do! _ := emit (d_form 15 r 0 (Z.shiftr value 16)) in
  emit_ (d_form 24 r r (Z.land value 0xffff)).
Definition mtmsr (value : Z) : m unit :=
  do! _ := li32 9 value in
  do! at_ := get_ pc in
  do! _ := m_when (at_ mod 8 =? 0) (emit_ NOP) in
  do! _ := emit (x_form 31 9 0 0 146 0) in
  set_ (with_msr value (truthy (Z.land value MSR_LE)) (negb (truthy (Z.land value MSR_IP)))).
(** [slot = p.res_next; p.res_next += n] *)
Definition next_slot (n : Z) : m Z :=
  do! slot := get_ res_next in
  do! _ := set_ (fun p => with_log (slot + n) (log_next p) (events p) p) in
  m_ret slot.
Definition store_result (r value : Z) : m unit :=
  do! slot := next_slot 4 in
  do! _ := li32 21 slot in
  do! _ := emit (d_form 36 r 21 0) in
  set_ (fun p => write slot 4 value (le p) true p).
Definition event (vector srr0 : Z) (dar dsisr : option Z) : m unit :=
  do! v := get_ msr in
  do! h := get_ handler_le in
  do! _ := assert_ (eqb (truthy (Z.land v MSR_ILE)) h) in
  do! base := get_ log_next in
  do! _ := set_ (fun p => with_log (res_next p) (base + 20) (events p) p) in
  do! _ := each [(0, Some srr0); (4, Some (Z.land v 0xffff)); (8, dar); (12, dsisr); (16, Some vector)]
    (fun '(off, value) => match value with Some x => set_ (write (base + off) 4 x h true) | None => m_ret tt end) in
  set_ (fun p => with_log (res_next p) (log_next p) (events p + 1) p).
Definition misaligned_traps (ea n : Z) (p : Program) : bool :=
  negb (ea mod n =? 0) && negb (String.eqb (variant p) "pid7v").

(** ** The sections *)
Section Sections.
Context {G : Globals}.

Definition new_program (v : string) : Program :=
  {| variant := v; init := ∅; cur := ∅; checked := ∅; pc := RESET_PC; le := false; msr := MSR_IP; res_next := RES;
     log_next := LOG; events := 0; handler_le := false |}.

Definition handler (base : Z) (l : bool) (vector : Z) : m unit :=
  do! _ := set_ (with_pc (Z.lor base vector) l) in
  do! _ := each [(SRR0, 0); (SRR1, 4); (DAR, 8); (DSISR, 12)]
    (fun '(spr, off) => do! _ := emit (mfspr 26 spr) in emit_ (d_form 36 26 29 off)) in
  do! _ := emit (d_form 14 26 0 vector) in
  do! _ := emit (d_form 36 26 29 16) in
  do! _ := emit (d_form 14 29 29 20) in
  do! _ := m_when (negb (vector =? 0xc00))
    (do! _ := emit (mfspr 26 SRR0) in
     do! _ := emit (d_form 14 26 26 4) in
     emit_ (mtspr SRR0 26)) in
  emit_ RFI.
Definition handlers (base : Z) (l : bool) : m unit :=
  each (if CHIP then take 4 VECTORS else VECTORS) (handler base l).

(** name, D form, op or xo, bytes, signed, reversed *)
Definition LOADS : list (string * bool * Z * Z * bool * bool) :=
  [("lbz"%string, true, 34, 1, false, false);
   ("lhz"%string, true, 40, 2, false, false);
   ("lha"%string, true, 42, 2, true, false);
   ("lwz"%string, true, 32, 4, false, false);
   ("lbzx"%string, false, 87, 1, false, false);
   ("lhbrx"%string, false, 790, 2, false, true);
   ("lwbrx"%string, false, 534, 4, false, true)].
Definition STORES : list (string * bool * Z * Z * bool) :=
  [("stb"%string, true, 38, 1, false);
   ("sth"%string, true, 44, 2, false);
   ("stw"%string, true, 36, 4, false);
   ("stwx"%string, false, 151, 4, false);
   ("sthbrx"%string, false, 918, 2, true);
   ("stwbrx"%string, false, 662, 4, true)].

Definition access (d : bool) (op rt ea_reg : Z) : Z :=
  if d then d_form op rt ea_reg 0 else x_form 31 rt 0 ea_reg op 0.
Definition dsisr_of (d : bool) (insn : Z) : Z := if d then dsisr_d insn else dsisr_x insn.

(** The register after a load of [value]. *)
Definition loaded (value n : Z) (signed rev : bool) : result Z :=
  let! value := (if rev then byterev value n else Ok value) in
  Ok (if signed && truthy (Z.shiftr value (8 * n - 1)) then value - Z.shiftl 1 (8 * n) else value).

Definition load_at (row : string * bool * Z * Z * bool * bool) (off : Z) : m unit :=
  let '(_, d, op, n, signed, rev) := row in
  let ea := DATA + 0x10 + off in
  do! _ := li32 5 ea in
  do! _ := li32 10 SENTINEL in
  let insn := access d op 10 5 in
  do! at_ := emit insn in
  do! trap := get_ (misaligned_traps ea n) in
  do! value :=
    (if trap then do! _ := event 0x600 at_ (Some ea) (Some (dsisr_of d insn)) in m_ret SENTINEL
     else do! value := get_ (read ea n true) in m_lift (loaded value n signed rev)) in
  store_result 10 (Z.land value 0xffffffff).
Definition loads : m unit := each LOADS (fun row => each (seqZ 0 16) (load_at row)).

Definition store_at (row : string * bool * Z * Z * bool) (off region : Z) : m Z :=
  let '(_, d, op, n, rev) := row in
  do! _ := set_ (fill region 32 (off * 13 + n)) in
  let ea := region + 4 + off in
  do! _ := li32 5 ea in
  do! _ := li32 11 0x8899aabb in
  let insn := access d op 11 5 in
  do! at_ := emit insn in
  do! trap := get_ (misaligned_traps ea n) in
  do! _ :=
    (if trap then event 0x600 at_ (Some ea) (Some (dsisr_of d insn))
     else let value := Z.land 0x8899aabb (Z.shiftl 1 (8 * n) - 1) in
          do! value := m_lift (if rev then byterev value n else Ok value) in
          set_ (write ea n value true true)) in
  m_ret (region + 32).
Definition stores : m unit :=
  do! _ := each_with STORES STORE (fun row region => each_with (seqZ 0 16) region (store_at row)) in m_ret tt.

Definition lwzu_at (off : Z) : m unit :=
  let ea := DATA + 0x30 + off in
  do! _ := li32 5 (ea - 4) in
  do! _ := li32 10 SENTINEL in
  let insn := d_form 33 10 5 4 in
  do! at_ := emit insn in
  do! trap := get_ (misaligned_traps ea 4) in
  do! _ := m_when trap (event 0x600 at_ (Some ea) (Some (dsisr_d insn))) in
  do! v := get_ (read ea 4 true) in
  do! _ := store_result 10 (if trap then SENTINEL else v) in
  store_result 5 (if trap then ea - 4 else ea).
Definition update_forms : m unit :=
  do! _ := each [8; 10] lwzu_at in
  do! _ := set_ (fill (STORE + 0x1000) 16 0x5a) in
  let ea := STORE + 0x1000 + 4 in
  do! _ := li32 5 (ea - 8) in
  do! _ := li32 11 0x01020304 in
  do! _ := emit (d_form 37 11 5 8) in
  do! _ := set_ (write ea 4 0x01020304 true true) in
  store_result 5 ea.

Definition reservation : m unit :=
  let ea := DATA + 0x20 in
  do! _ := set_ (fill (STORE + 0x1100) 16 0x33) in
  do! _ := li32 5 ea in
  do! _ := emit (x_form 31 10 0 5 20 0) in
  do! v := get_ (read ea 4 true) in
  do! _ := store_result 10 v in
  let st := STORE + 0x1100 + 8 in
  do! _ := li32 5 st in
  do! _ := li32 11 0xcafef00d in
  do! _ := emit (x_form 31 10 0 5 20 0) in
  do! _ := emit (x_form 31 11 0 5 150 1) in
  do! _ := set_ (write st 4 0xcafef00d true true) in
  do! _ := li32 5 (ea + 2) in
  let insn := x_form 31 10 0 5 20 0 in
  do! at_ := emit insn in
  event 0x600 at_ (Some (ea + 2)) (Some (dsisr_x insn)).

(** instruction, DAR, D form *)
Definition NONSCALARS : list (Z * Z * bool) :=
  [(d_form 46 30 5 0, DATA + 4, true);
   (d_form 47 30 5 8, DATA + 12, true);
   (x_form 31 10 5 4 597 0, DATA, false);
   (x_form 31 10 0 5 533 0, DATA, false);
   (x_form 31 30 5 8 725 0, DATA, false);
   (x_form 31 30 0 5 661 0, DATA, false)].
Definition nonscalars : m unit :=
  do! _ := li32 5 DATA in
  do! _ := li32 30 0x30303030 in
  do! _ := li32 31 0x31313131 in
  do! _ := each NONSCALARS (fun '(insn, dar, d) =>
    do! at_ := emit insn in
    do! v := get_ variant in
    if negb d && String.eqb v "602" then event 0x1600 at_ None None
    else event 0x600 at_ (Some dar) (Some (dsisr_of d insn))) in
  do! _ := store_result 30 0x30303030 in
  store_result 31 0x31313131.

(** [p.init[a] = p.cur[a]] *)
Definition preset (addr : Z) : m unit :=
  do! c := get_ cur in
  match c !! addr with
  | Some b => set_ (fun p => with_memory (<[addr := b]> (init p)) (cur p) (checked p) p)
  | None => m_raise KeyError
  end.
Definition preset_data (ea n v : Z) : m unit :=
  do! _ := set_ (write ea n v true false) in
  each (seqZ 0 n) (fun i => preset (Z.lxor (ea + i) 7)).
Definition store_fpr (fr v : Z) : m unit :=
  do! next := get_ res_next in
  let slot := Z.land (next + 7) (Z.lnot 7) in
  do! _ := set_ (fun p => with_log (slot + 8) (log_next p) (events p) p) in
  do! _ := li32 21 slot in
  do! _ := emit (d_form 54 fr 21 0) in
  set_ (write slot 8 v true true).
Definition stfd_at (value off : Z) : m unit :=
  let insn := d_form 54 1 6 off in
  do! at_ := emit insn in
  do! trap := get_ (misaligned_traps (STORE + 0x1200 + off) 8) in
  if trap then event 0x600 at_ (Some (STORE + 0x1200 + off)) (Some (dsisr_d insn))
  else set_ (write (STORE + 0x1200 + off) 8 value true true).
Definition floating : m unit :=
  let value := 0x400921fb54442d18 in
  let other := 0xc01e000000000000 in
  let single := 0x3fc00000 in
  do! _ := each [(FPDATA, value); (FPDATA + 0x10, other); (FPDATA + 0x24, value)] (fun '(ea, v) => preset_data ea 8 v) in
  do! _ := preset_data (FPDATA + 0x30) 4 single in
  do! _ := li32 5 FPDATA in
  do! _ := emit (d_form 50 1 5 0) in
  do! _ := store_fpr 1 value in
  do! _ := emit (d_form 50 2 5 0x10) in
  let insn := d_form 50 2 5 0x24 in
  do! at_ := emit insn in
  do! trap := get_ (misaligned_traps (FPDATA + 0x24) 8) in
  do! _ := m_when trap (event 0x600 at_ (Some (FPDATA + 0x24)) (Some (dsisr_d insn))) in
  do! _ := store_fpr 2 (if trap then other else value) in
  do! _ := set_ (fill (STORE + 0x1200) 32 0x77) in
  do! _ := li32 6 (STORE + 0x1200) in
  do! _ := each [0; 12] (stfd_at value) in
  do! _ := emit (d_form 48 3 5 0x30) in
  do! slot := next_slot 4 in
  do! _ := li32 21 slot in
  do! _ := emit (d_form 52 3 21 0) in
  do! _ := set_ (write slot 4 single true true) in
  do! slot := next_slot 4 in
  do! _ := li32 21 slot in
  do! _ := emit (x_form 31 1 0 21 983 0) in
  do! _ := set_ (write slot 4 (Z.land value 0xffffffff) true true) in
  let insn := d_form 48 3 5 0x32 in
  do! at_ := emit insn in
  event 0x600 at_ (Some (FPDATA + 0x32)) (Some (dsisr_d insn)).

Definition bdnz_to (loop here : Z) : Z :=
  ors [Z.shiftl 16 26; Z.shiftl BDNZ_BO 21; Z.land (loop - here) 0xfffc].
Definition branches : m unit :=
  do! _ := li32 12 0 in
  do! skip := emit 0 in
  do! sub := get_ pc in
  do! _ := emit (mfspr 10 LR) in
  do! _ := emit (d_form 14 12 12 1) in
  do! _ := emit BLR in
  do! target := get_ pc in
  do! l := get_ le in
  do! _ := set_ (put32 (Z.lxor skip (if l then 4 else 0)) (Z.lor (Z.shiftl 18 26) (Z.land (target - skip) 0x3fffffc))) in
  do! here := get_ pc in
  do! at_ := emit (ors [Z.shiftl 18 26; Z.land (sub - here) 0x3fffffc; 1]) in
  do! _ := store_result 10 (at_ + 4) in
  do! _ := li32 13 3 in
  do! _ := emit (mtspr CTR 13) in
  do! _ := li32 14 0 in
  do! loop := get_ pc in
  do! _ := emit (d_form 14 14 14 5) in
  do! _ := emit (d_form 14 15 0 7) in
  do! _ := emit (d_form 14 16 0 9) in
  do! here := get_ pc in
  do! _ := emit (bdnz_to loop here) in
  do! _ := store_result 14 15 in
  store_result 12 1.

(** instruction, bytes, store *)
Definition PROTECTED : list (Z * Z * bool) := [(d_form 40 10 5 0, 2, false); (d_form 36 11 5 0, 4, true)].
Definition protection : m unit :=
  each PROTECTED (fun '(insn, n, store) =>
    let ea := PROT_LO + 0x10 + (if n =? 2 then 6 else 4) in
    do! _ := li32 5 ea in
    do! at_ := emit insn in
    event 0x300 at_ (Some ea) (Some (if store then 0x0a000000 else 0x08000000))).

(** [at = p.emit(SC); p.event(0xc00, at + 4)] *)
Definition system_call : m unit := do! at_ := emit SC in event 0xc00 (at_ + 4) None None.

Definition ile (base : Z) : m unit :=
  do! _ := mtmsr (Z.lor (Z.lor (Z.land base (Z.lnot MSR_IP)) MSR_LE) MSR_ILE) in
  do! _ := system_call in
  do! _ := li32 5 (DATA + 1) in
  let insn := x_form 31 10 0 5 20 0 in
  do! at_ := emit insn in
  do! _ := event 0x600 at_ (Some (DATA + 1)) (Some (dsisr_x insn)) in
  do! _ := mtmsr (Z.lor (Z.land base (Z.lnot MSR_IP)) MSR_ILE) in
  do! _ := system_call in
  do! _ := li32 5 (DATA + 0x10) in
  do! _ := emit (d_form 32 10 5 0) in
  do! v := get_ (read (DATA + 0x10) 4 false) in
  store_result 10 v.

(** One half of [rfi_round_trip]: rfi to [entry] with [v] in the MSR, then a load. *)
Definition rfi_to (entry v : Z) (l : bool) : m unit :=
  do! _ := li32 9 entry in
  do! _ := emit (mtspr SRR0 9) in
  do! _ := li32 9 v in
  do! _ := emit (mtspr SRR1 9) in
  do! _ := emit RFI in
  do! _ := set_ (fun p => with_pc entry l (with_msr v l (handler_le p) p)) in
  do! _ := li32 5 (DATA + 0x18) in
  do! _ := emit (d_form 32 10 5 0) in
  do! x := get_ (read (DATA + 0x18) 4 l) in
  store_result 10 x.
Definition rfi_round_trip (base : Z) : m unit :=
  do! _ := mtmsr base in
  do! here := get_ pc in
  do! _ := assert_ (here <? LE_ENTRY) in
  do! _ := rfi_to LE_ENTRY (Z.lor base MSR_LE) true in
  rfi_to BE_ENTRY base false.

(** ** Expected words *)
(** [sorted({a & ~3 for a in s})] *)
Definition words_of (s : gset Z) : list Z :=
  merge_sort Z.le (elements (set_fold (fun a words => set_add (Z.land a (Z.lnot 3)) words) (∅ : gset Z) s)).
Definition expected_word (p : Program) (w : Z) : Z * Z * Z :=
  let '(value, mask) := fold_left (fun '(value, mask) i =>
    (Z.lor (Z.shiftl value 8) (cur_byte p (w + i)),
     Z.lor (Z.shiftl mask 8) (if bool_decide (w + i ∈ checked p) then 0xff else 0))) (seqZ 0 4) (0, 0) in
  (w, Z.land value mask, mask).
Definition expected_words (p : Program) : list (Z * Z * Z) := map (expected_word p) (words_of (checked p)).

Definition self_check : m unit :=
  do! table := get_ expected_words in
  do! _ := li32 3 TABLE in
  do! _ := li32 4 (Z.of_nat (length table)) in
  do! _ := li32 30 DONE in
  do! _ := emit (mtspr CTR 4) in
  do! loop := emit (d_form 32 6 3 0) in
  do! _ := emit (d_form 32 7 3 4) in
  do! _ := emit (d_form 32 8 3 8) in
  do! _ := emit (d_form 14 3 3 12) in
  do! _ := emit (d_form 32 5 6 0) in
  do! _ := emit (x_form 31 5 5 8 28 0) in
  do! _ := emit (x_form 31 0 5 7 0 0) in
  do! _ := emit (ors [Z.shiftl 16 26; Z.shiftl 4 21; Z.shiftl 2 16; 16]) in
  do! here := get_ pc in
  do! _ := emit (bdnz_to loop here) in
  do! _ := emit (d_form 14 5 0 1) in
  do! _ := emit (Z.lor (Z.shiftl 18 26) 8) in
  do! _ := emit (d_form 14 5 0 2) in
  do! _ := emit (d_form 36 5 30 0) in
  do! _ := emit (x_form 31 0 0 30 86 0) in
  do! _ := emit SYNC in
  do! _ := emit (Z.shiftl 18 26) in
  do! _ := each (enumerate 0 table) (fun '(k, (w, value, mask)) =>
    each (enumerate 0 [w; value; mask]) (fun '(i, v) => set_ (put32 (TABLE + 12 * k + 4 * i) v))) in
  assert_ (TABLE + 12 * Z.of_nat (length table) <=? DATA).

(** ** The program *)
Definition is_fp (v : string) : bool := str_in v ["pid7v"; "pid6"; "603"]%string.
Definition build_body (v : string) : m unit :=
  let fp := is_fp v in
  do! _ := handlers 0xfff00000 false in
  do! _ := (if CHIP then set_ (put32 0xfff00100 (Z.lor (Z.shiftl 18 26) (Z.land (RESET_PC - 0xfff00100) 0x3fffffc)))
            else handlers 0x00000000 true) in
  do! _ := set_ (fill DATA 0x80 0x11) in
  do! _ := each (seqZ 0 0x80) (fun k =>
    set_ (fun p => with_memory (init p) (cur p) (set_discard (DATA + k) (checked p)) p)) in
  do! _ := set_ (with_pc RESET_PC false) in
  do! _ := li32 29 LOG in
  do! _ := m_when CHIP
    (do! _ := emit (mfspr 7 1008) in
     do! _ := emit (d_form 24 7 7 0xc000) in
     do! _ := emit SYNC in
     do! _ := emit (mtspr 1008 7) in
     emit_ ISYNC) in
  let base := Z.lor MSR_IP (if fp then MSR_FP else 0) in
  do! _ := mtmsr (Z.lor base MSR_LE) in
  do! _ := loads in
  do! _ := stores in
  do! _ := update_forms in
  do! _ := reservation in
  do! _ := nonscalars in
  do! _ := m_when fp floating in
  do! _ := branches in
  do! _ := m_when (negb CHIP) protection in
  do! _ := system_call in
  do! _ := m_when (negb CHIP) (ile base) in
  do! _ := rfi_round_trip base in
  if CHIP then self_check
  else do! _ := li32 5 DONE in emit_ (d_form 36 0 5 0).
Definition build (v : string) : result Program :=
  match build_body v (new_program v) with (p, Ok _) => Ok p | (_, Raise e) => Raise e end.

(** ** Images *)
(** One line of the text image: memory, expected word, done address, protected range. *)
Inductive line : Type :=
| LM (addr data : Z)
| LE (addr value mask : Z)
| LD (addr : Z)
| LP (lo hi : Z).
Definition init_word (p : Program) (w : Z) : Z :=
  fold_left (fun value i => Z.lor (Z.shiftl value 8) (default 0 (init p !! (w + i)))) (seqZ 0 4) 0.
Definition write_image (p : Program) : list line :=
  (map (fun w => LM w (init_word p w)) (words_of (dom (init p)))
   ++ map (fun '(w, v, k) => LE w v k) (expected_words p) ++ [LD DONE; LP PROT_LO PROT_HI])%list.

(** One turn of the loop of [write_chip_image]. *)
Definition put_byte (image : list Z) (addr byte : Z) : result (list Z) :=
  let offset := addr - CHIP_BASE in
  require! in_range 0 CHIP_IMAGE_BYTES offset else AssertionError in
  require! in_range 0 256 byte else ValueError "byte must be in range(0, 256)" in
  Ok (<[Z.to_nat offset := byte]> image).
Definition write_chip_image (p : Program) : result (list Z) :=
  map_fold (fun addr byte r => let! image := r in put_byte image addr byte)
    (Ok (replicate (Z.to_nat CHIP_IMAGE_BYTES) 0)) (init p).
End Sections.

(** What [main] writes: the text image or the chip's bytes. *)
Inductive output : Type :=
| Text (l : list line)
| Bytes (l : list Z).
Definition main (chip : bool) (v : string) : result output :=
  require! str_in v VARIANTS else SystemExit "invalid choice" in
  let G := if chip then use_chip_layout else core_layout in
  let! p := build v in
  if chip then let! b := write_chip_image p in Ok (Bytes b) else Ok (Text (write_image p)).
End le_core_program.
