(* ===== verification/LeMachine.v ===== *)
(** * A reference machine with both byte orders

    The contract of docs/LITTLE_ENDIAN.md as an interpreter, written from the
    contract and not from [le_core_program]: instructions are fetched at EA XOR 4 in
    little-endian mode, an aligned access moves big-endian at EA XOR (8 - n), a split
    access keeps the byte order of single bytes, exceptions copy ILE into LE. Bits of
    an instruction are numbered from its most significant one, as in the manuals.
    Only the instructions the program uses are here; any other stops the machine. *)
From S2P Require Import Prelude FpReference.

Module le_machine.

(** What the parts and the bench differ in. *)
Record part : Type := {
  splits : bool;            (* misaligned little-endian scalars are split in hardware *)
  string_trap : bool;       (* strings take the emulation trap first *)
  protected : Z -> bool     (* physical words that answer with a protection fault *)
}.

Record cpu : Type := {
  gpr : list Z; fpr : list Z; spr : gmap Z Z; cr : Z; msr : Z; pc : Z;
  reserved : bool; mem : gmap Z Z; steps : Z; exceptions : Z
}.

Definition ibits (w a b : Z) : Z := field w (31 - b) (b - a + 1).
Definition sext16 (v : Z) : Z := if v <? 0x8000 then v else v - 0x10000.
Definition word (v : Z) : Z := Z.land v 0xffffffff.

Definition little (c : cpu) : bool := Z.testbit (msr c) 0.
Definition ILE (c : cpu) : bool := Z.testbit (msr c) 16.
Definition IP (c : cpu) : bool := Z.testbit (msr c) 6.
Definition FP (c : cpu) : bool := Z.testbit (msr c) 13.
Definition r (c : cpu) (n : Z) : Z := nth (Z.to_nat n) (gpr c) 0.
Definition r0 (c : cpu) (n : Z) : Z := if n =? 0 then 0 else r c n.
Definition fr (c : cpu) (n : Z) : Z := nth (Z.to_nat n) (fpr c) 0.
Definition sp (c : cpu) (n : Z) : Z := default 0 (spr c !! n).

Definition set_r (n v : Z) (c : cpu) : cpu :=
  {| gpr := <[Z.to_nat n := word v]> (gpr c); fpr := fpr c; spr := spr c; cr := cr c; msr := msr c; pc := pc c;
     reserved := reserved c; mem := mem c; steps := steps c; exceptions := exceptions c |}.
Definition set_fr (n v : Z) (c : cpu) : cpu :=
  {| gpr := gpr c; fpr := <[Z.to_nat n := v]> (fpr c); spr := spr c; cr := cr c; msr := msr c; pc := pc c;
     reserved := reserved c; mem := mem c; steps := steps c; exceptions := exceptions c |}.
Definition set_sp (n v : Z) (c : cpu) : cpu :=
  {| gpr := gpr c; fpr := fpr c; spr := <[n := v]> (spr c); cr := cr c; msr := msr c; pc := pc c;
     reserved := reserved c; mem := mem c; steps := steps c; exceptions := exceptions c |}.
Definition set_cr0 (v : Z) (c : cpu) : cpu :=
  {| gpr := gpr c; fpr := fpr c; spr := spr c; cr := Z.lor (Z.shiftl v 28) (field (cr c) 0 28); msr := msr c; pc := pc c;
     reserved := reserved c; mem := mem c; steps := steps c; exceptions := exceptions c |}.
Definition set_mode (v a : Z) (c : cpu) : cpu :=
  {| gpr := gpr c; fpr := fpr c; spr := spr c; cr := cr c; msr := v; pc := word a;
     reserved := reserved c; mem := mem c; steps := steps c; exceptions := exceptions c |}.
Definition goto (a : Z) (c : cpu) : cpu := set_mode (msr c) a c.
Definition next (c : cpu) : cpu := goto (pc c + 4) c.
Definition reserve (b : bool) (c : cpu) : cpu :=
  {| gpr := gpr c; fpr := fpr c; spr := spr c; cr := cr c; msr := msr c; pc := pc c;
     reserved := b; mem := mem c; steps := steps c; exceptions := exceptions c |}.
Definition set_mem (x : gmap Z Z) (c : cpu) : cpu :=
  {| gpr := gpr c; fpr := fpr c; spr := spr c; cr := cr c; msr := msr c; pc := pc c;
     reserved := reserved c; mem := x; steps := steps c; exceptions := exceptions c |}.
Definition count (s e : Z) (c : cpu) : cpu :=
  {| gpr := gpr c; fpr := fpr c; spr := spr c; cr := cr c; msr := msr c; pc := pc c;
     reserved := reserved c; mem := mem c; steps := steps c + s; exceptions := exceptions c + e |}.

(** ** Memory: where the bytes of an access are, most significant first. *)
Definition aligned (ea n : Z) : bool := ea mod n =? 0.
Definition places (l : bool) (ea n : Z) : list Z :=
  if l then if aligned ea n then seqZ (Z.lxor ea (8 - n)) n
            else map (fun i => Z.lxor (ea + (n - 1 - i)) 7) (seqZ 0 n)
  else seqZ ea n.
Definition mget (x : gmap Z Z) (l : list Z) : Z := fold_left (fun v a => v * 256 + default 0 (x !! a)) l 0.
Fixpoint mput (x : gmap Z Z) (l : list Z) (v : Z) : gmap Z Z :=
  match l with [] => x | a :: l' => mput (<[a := v / 256 ^ Z.of_nat (length l') mod 256]> x) l' v end.

Definition reverse (n v : Z) : Z :=
  fold_left (fun acc i => acc * 256 + v / 256 ^ i mod 256) (seqZ 0 n) 0.

(** ** Exceptions *)
Definition SRR0 : Z := 26.
Definition SRR1 : Z := 27.
Definition DSISR : Z := 18.
Definition DAR : Z := 19.
Definition LR : Z := 8.
Definition CTR : Z := 9.

Definition trap (vector return_ : Z) (c : cpu) : cpu :=
  let saved := set_sp SRR1 (field (msr c) 0 16) (set_sp SRR0 return_ c) in
  count 0 1 (set_mode (Z.lor (Z.land (msr c) 0x10040) (if ILE c then 1 else 0))
                      (Z.lor (if IP c then 0xfff00000 else 0) vector) saved).
Definition data_trap (vector ea dsisr : Z) (c : cpu) : cpu :=
  trap vector (pc c) (set_sp DSISR dsisr (set_sp DAR ea c)).

(** DSISR[15:31] of an alignment exception (UM Table 4-13). *)
Definition dsisr_alignment (w : Z) : Z :=
  let opcode := if ibits w 0 5 =? 31
                then ibits w 29 30 * 2 ^ 15 + ibits w 25 25 * 2 ^ 14 + ibits w 21 24 * 2 ^ 10
                else ibits w 5 5 * 2 ^ 14 + ibits w 1 4 * 2 ^ 10 in
  opcode + ibits w 6 10 * 2 ^ 5 + ibits w 11 15.

Inductive kind : Type := Scalar | Float | Reserve.
Definition alignment (t : part) (c : cpu) (k : kind) (ea n : Z) : bool :=
  let split_trap := little c && negb (aligned ea n) && negb (splits t) in
  match k with
  | Reserve => negb (aligned ea 4)
  | Float => negb (aligned ea 4) || split_trap
  | Scalar => split_trap
  end.

(** An access: its exception, or [done] on the machine past the instruction. *)
Definition access (t : part) (w : Z) (k : kind) (store : bool) (ea n : Z) (done : list Z -> cpu -> cpu) (c : cpu) : option cpu :=
  let ea := word ea in
  if negb (match k with Float => FP c | _ => true end) then None
  else if alignment t c k ea n then Some (data_trap 0x600 ea (dsisr_alignment w) c)
  else let l := places (little c) ea n in
       if existsb (fun a => protected t (a / 4 * 4)) l
       then Some (data_trap 0x300 ea (if store then 0x0a000000 else 0x08000000) c)
       else Some (next (done l c)).
Definition load (t : part) (w : Z) (k : kind) (ea n : Z) (put : Z -> cpu -> cpu) (c : cpu) : option cpu :=
  access t w k false ea n (fun l c => put (mget (mem c) l) c) c.
Definition store (t : part) (w : Z) (k : kind) (ea n v : Z) (also : cpu -> cpu) (c : cpu) : option cpu :=
  access t w k true ea n (fun l c => also (set_mem (mput (mem c) l v) c)) c.

Definition to_double (v : Z) : Z := reference.bits (reference.calc_convert (reference.decode v reference.B32) 0 reference.B32 reference.B64).
Definition to_single (v : Z) : Z := reference.bits (reference.calc_convert (reference.decode v reference.B64) 0 reference.B64 reference.B32).

(** ** Instructions *)
Definition branch_taken (bo bi : Z) (c : cpu) : bool * cpu :=
  let ctr := word (sp c CTR - 1) in
  let counts := negb (Z.testbit bo 2) in
  let c := if counts then set_sp CTR ctr c else c in
  let ctr_ok := negb counts || xorb (negb (ctr =? 0)) (Z.testbit bo 1) in
  let cond_ok := Z.testbit bo 4 || eqb (Z.testbit (cr c) (31 - bi)) (Z.testbit bo 3) in
  (ctr_ok && cond_ok, c).
Definition link (w : Z) (c : cpu) : cpu := if ibits w 31 31 =? 1 then set_sp LR (word (pc c + 4)) c else c.

Definition multiple (w ea : Z) (c : cpu) : option cpu :=
  if little c then Some (data_trap 0x600 (word (ea + 4)) (dsisr_alignment w) c) else None.
Definition string_insn (t : part) (w ea : Z) (c : cpu) : option cpu :=
  if string_trap t then Some (trap 0x1600 (pc c) c)
  else if little c then Some (data_trap 0x600 (word ea) (dsisr_alignment w) c) else None.

Definition step31 (t : part) (w : Z) (c : cpu) : option cpu :=
  let d := ibits w 6 10 in
  let ea := r0 c (ibits w 11 15) + r c (ibits w 16 20) in
  let spr_n := ibits w 16 20 * 32 + ibits w 11 15 in
  match ibits w 21 30 with
  | 0 => let a := r c (ibits w 11 15) in let b := r c (ibits w 16 20) in
         Some (next (set_cr0 (if to_signed32 a <? to_signed32 b then 8 else if a =? b then 2 else 4) c))
  | 28 => Some (next (set_r (ibits w 11 15) (Z.land (r c d) (r c (ibits w 16 20))) c))
  | 86 | 598 => Some (next c)                                     (* dcbf, sync *)
  | 146 => Some (set_mode (r c d) (pc c + 4) c)                    (* mtmsr *)
  | 339 => Some (next (set_r d (sp c spr_n) c))
  | 467 => Some (next (set_sp spr_n (r c d) c))
  | 20 => load t w Reserve ea 4 (fun v c => reserve true (set_r d v c)) c
  | 150 => if reserved c then store t w Reserve ea 4 (r c d) (fun c => reserve false (set_cr0 2 c)) c
           else Some (next (set_cr0 0 c))
  | 87 => load t w Scalar ea 1 (set_r d) c
  | 790 => load t w Scalar ea 2 (fun v => set_r d (reverse 2 v)) c
  | 534 => load t w Scalar ea 4 (fun v => set_r d (reverse 4 v)) c
  | 151 => store t w Scalar ea 4 (r c d) id c
  | 918 => store t w Scalar ea 2 (reverse 2 (r c d)) id c
  | 662 => store t w Scalar ea 4 (reverse 4 (r c d)) id c
  | 983 => store t w Float ea 4 (word (fr c d)) id c
  | 533 | 661 => string_insn t w ea c
  | 597 | 725 => string_insn t w (r0 c (ibits w 11 15)) c
  | _ => None
  end.

Definition step (t : part) (c : cpu) : option cpu :=
  let c := count 1 0 c in
  let at_ := if little c then Z.lxor (pc c) 4 else pc c in
  let w := mget (mem c) (seqZ at_ 4) in
  let d := ibits w 6 10 in
  let a := ibits w 11 15 in
  let imm := sext16 (ibits w 16 31) in
  let ea := r0 c a + imm in
  match ibits w 0 5 with
  | 14 => Some (next (set_r d ea c))
  | 15 => Some (next (set_r d (r0 c a + imm * 2 ^ 16) c))
  | 24 => Some (next (set_r a (Z.lor (r c d) (ibits w 16 31)) c))
  | 16 => let '(taken, c') := branch_taken d a c in
          if taken then Some (goto ((if ibits w 30 30 =? 1 then 0 else pc c) + sext16 (ibits w 16 29 * 4)) (link w c')) else Some (next (link w c'))
  | 17 => Some (trap 0xc00 (word (pc c + 4)) c)
  | 18 => let li := ibits w 6 29 * 4 in
          let li := if li <? 2 ^ 25 then li else li - 2 ^ 26 in
          Some (goto ((if ibits w 30 30 =? 1 then 0 else pc c) + li) (link w c))
  | 19 => match ibits w 21 30 with
          | 16 => let '(taken, c') := branch_taken d a c in
                  let to_ := sp c LR / 4 * 4 in
                  if taken then Some (goto to_ (link w c')) else Some (next (link w c'))
          | 50 => Some (set_mode (Z.lor (Z.land (msr c) 0x10000) (field (sp c SRR1) 0 16)) (sp c SRR0 / 4 * 4) c)
          | 150 => Some (next c)
          | _ => None
          end
  | 31 => step31 t w c
  | 32 => load t w Scalar ea 4 (set_r d) c
  | 33 => load t w Scalar (r c a + imm) 4 (fun v c' => set_r a (r c a + imm) (set_r d v c')) c
  | 34 => load t w Scalar ea 1 (set_r d) c
  | 40 => load t w Scalar ea 2 (set_r d) c
  | 42 => load t w Scalar ea 2 (fun v => set_r d (sext16 v)) c
  | 36 => store t w Scalar ea 4 (r c d) id c
  | 37 => store t w Scalar (r c a + imm) 4 (r c d) (set_r a (r c a + imm)) c
  | 38 => store t w Scalar ea 1 (r c d) id c
  | 44 => store t w Scalar ea 2 (r c d) id c
  | 46 | 47 => multiple w ea c
  | 48 => load t w Float ea 4 (fun v => set_fr d (to_double v)) c
  | 50 => load t w Float ea 8 (set_fr d) c
  | 52 => store t w Float ea 4 (to_single (fr c d)) id c
  | 54 => store t w Float ea 8 (fr c d) id c
  | _ => None
  end.

(** Run until [stop] holds, for at most [fuel] instructions. *)
Fixpoint run (fuel : nat) (t : part) (stop : cpu -> bool) (c : cpu) : option cpu :=
  if stop c then Some c
  else match fuel with O => None | S fuel' => match step t c with Some c' => run fuel' t stop c' | None => None end end.

(** The machine out of reset: MSR[IP] set, everything else clear. *)
Definition reset (a : Z) (x : gmap Z Z) : cpu :=
  {| gpr := replicate 32 0; fpr := replicate 32 0; spr := ∅; cr := 0; msr := 0x40; pc := a;
     reserved := false; mem := x; steps := 0; exceptions := 0 |}.
End le_machine.
