(* ===== verification/LeMemory.v ===== *)
(** * Memory of the little-endian program

    The byte model of [Program.write] and [Program.read]: what a write leaves, that a
    read returns it in the same byte order, that an aligned little-endian access is a
    big-endian access at the munged address, and that the model is the memory of the
    reference machine. *)
From S2P Require Import Prelude Words LeProgram LeMachine.
Import le_core_program.

(** ** Loops over [range(n)] *)
Lemma fold_range_ind {A} (P : Z -> A -> Prop) (f : A -> Z -> A) (a : A) (n : Z) :
  0 <= n -> P 0 a -> (forall k x, 0 <= k < n -> P k x -> P (k + 1) (f x k)) -> P n (fold_left f (seqZ 0 n) a).
Proof.
  intros Hn H0 Hs. rewrite <- (Z2Nat.id n Hn) in Hs |- *. clear Hn. revert Hs. generalize (Z.to_nat n) as j.
  induction j as [| j IH]; intros Hs; [exact H0 |].
  rewrite Nat2Z.inj_succ, <- Z.add_1_r, seqZ_app, fold_left_app by lia. rewrite Z.add_0_l. cbn [fold_left seqZ].
  change (seqZ (Z.of_nat j) 1) with [0 + Z.of_nat j]. cbn [fold_left]. rewrite Z.add_0_l.
  apply Hs; [lia |]. apply IH. intros k x Hk. apply Hs. lia.
Qed.

(** ** What a write leaves *)
(** The position in an access at [ea] of the byte at [a]. *)
Definition offset_of (ea : Z) (l : bool) (a : Z) : Z := (if l then Z.lxor a 7 else a) - ea.

Lemma lxor_7_7 a : Z.lxor (Z.lxor a 7) 7 = a.
Proof. rewrite Z.lxor_assoc. apply Z.lxor_0_r. Qed.

Lemma byte_address_iff ea i l a : byte_address ea i l = a <-> i = offset_of ea l a.
Proof.
  unfold byte_address, offset_of. destruct l; [| lia]. split; intros H.
  - rewrite <- H, lxor_7_7. lia.
  - rewrite H. replace (ea + (Z.lxor a 7 - ea)) with (Z.lxor a 7) by lia. apply lxor_7_7.
Qed.

(** The byte of [v] at position [i] of an access of [n] bytes. *)
Definition byte_at (v n i : Z) (l : bool) : Z := Z.land (Z.shiftr v (byte_shift n i l)) 0xff.

Lemma write_spec p ea n v l chk :
  0 <= n ->
  exists c k,
    write ea n v l chk p = with_memory (init p) c k p /\
    (forall a, c !! a = if in_range 0 n (offset_of ea l a) then Some (byte_at v n (offset_of ea l a) l) else cur p !! a) /\
    (forall a, a ∈ k <-> (chk = true /\ in_range 0 n (offset_of ea l a) = true) \/ a ∈ checked p).
Proof.
  intros Hn. unfold write.
  apply (fold_range_ind (fun j q => exists c k, q = with_memory (init p) c k p /\
    (forall a, c !! a = if in_range 0 j (offset_of ea l a) then Some (byte_at v n (offset_of ea l a) l) else cur p !! a) /\
    (forall a, a ∈ k <-> (chk = true /\ in_range 0 j (offset_of ea l a) = true) \/ a ∈ checked p))); [exact Hn | |].
  - exists (cur p), (checked p). split; [destruct p; reflexivity |].
    assert (H0 : forall x, in_range 0 0 x = false) by (intros x; destruct (in_range 0 0 x) eqn:E; [apply in_range_iff in E; lia | reflexivity]).
    split; intros a; rewrite H0; [reflexivity | intuition discriminate].
  - intros j q Hj (c & k & -> & Hc & Hk).
    exists (<[byte_address ea j l := byte_at v n j l]> c), (if chk then set_add (byte_address ea j l) k else k).
    split; [reflexivity |].
    assert (Hr : forall a, byte_address ea j l <> a -> in_range 0 (j + 1) (offset_of ea l a) = in_range 0 j (offset_of ea l a)).
    { intros a Ha. rewrite byte_address_iff in Ha. apply Bool.eq_iff_eq_true. rewrite !in_range_iff. lia. }
    assert (Hy : forall a, byte_address ea j l = a -> in_range 0 (j + 1) (offset_of ea l a) = true).
    { intros a Ha. rewrite byte_address_iff in Ha. apply in_range_iff. lia. }
    split; intros a; destruct (Z.eq_dec (byte_address ea j l) a) as [E | E].
    + rewrite (Hy a E). rewrite E, lookup_insert. rewrite decide_True by reflexivity. apply byte_address_iff in E. rewrite <- E. reflexivity.
    + rewrite (Hr a E). rewrite lookup_insert_ne by exact E. apply Hc.
    + rewrite (Hy a E). destruct chk; [| rewrite Hk; intuition discriminate].
      rewrite set_add_spec, elem_of_union, elem_of_singleton. intuition.
    + rewrite (Hr a E). destruct chk; [| apply Hk].
      rewrite set_add_spec, elem_of_union, elem_of_singleton, Hk. intuition congruence.
Qed.

(** ** What a read returns *)
Lemma lor_shift_bytes v j b :
  0 <= j -> b = Z.land (Z.shiftr v (8 * j)) 0xff ->
  Z.lor (v mod 2 ^ (8 * j)) (Z.shiftl b (8 * j)) = v mod 2 ^ (8 * (j + 1)).
Proof.
  intros Hj ->. apply Z.bits_inj'. intros i Hi. change 0xff with (Z.ones 8).
  rewrite <- !Z.land_ones, Z.lor_spec, !Z.land_spec, Z.shiftl_spec, !testbit_ones by lia.
  destruct (Z.ltb_spec i (8 * j)).
  - rewrite (Z.testbit_neg_r _ (i - 8 * j)) by lia. rewrite (proj2 (Z.ltb_lt i (8 * (j + 1)))) by lia.
    cbn [andb]. rewrite orb_false_r. reflexivity.
  - rewrite Z.land_spec, testbit_ones, Z.shiftr_spec, andb_false_r by lia. replace (i - 8 * j + 8 * j) with i by lia. cbn [orb].
    f_equal. apply Bool.eq_iff_eq_true. rewrite !Z.ltb_lt. lia.
Qed.

Lemma shift_in_byte v j b :
  0 <= j -> b = Z.land v 0xff ->
  Z.lor (Z.shiftl (Z.shiftr v 8 mod 2 ^ (8 * j)) 8) b = v mod 2 ^ (8 * (j + 1)).
Proof.
  intros Hj ->. change 0xff with (Z.ones 8). rewrite Z.land_ones, Z.shiftr_div_pow2, lor_shiftl_add by (apply Z.mod_pos_bound || lia; lia).
  replace (8 * (j + 1)) with (8 + 8 * j) by lia. rewrite Z.pow_add_r, Z.rem_mul_r by lia. lia.
Qed.

(** [read] sees the bytes of [v]. *)
Lemma read_of_bytes q ea n v l :
  0 <= n -> (forall i, 0 <= i < n -> cur_byte q (byte_address ea i l) = byte_at v n i l) ->
  read ea n l q = v mod 2 ^ (8 * n).
Proof.
  intros Hn Hb. unfold read. destruct l.
  - apply (fold_range_ind (fun j x => x = v mod 2 ^ (8 * j))); [exact Hn | symmetry; apply Z.mod_1_r |].
    intros j x Hj ->. apply lor_shift_bytes; [lia |]. apply Hb. lia.
  - transitivity (Z.shiftr v (8 * (n - n)) mod 2 ^ (8 * n)).
    2: { rewrite Z.sub_diag. reflexivity. }
    apply (fold_range_ind (fun j x => x = Z.shiftr v (8 * (n - j)) mod 2 ^ (8 * j))); [exact Hn | symmetry; apply Z.mod_1_r |].
    intros j x Hj ->.
    replace (Z.shiftr v (8 * (n - j))) with (Z.shiftr (Z.shiftr v (8 * (n - (j + 1)))) 8)
      by (rewrite Z.shiftr_shiftr by lia; f_equal; lia).
    apply shift_in_byte; [lia |]. change (ea + j) with (byte_address ea j false). rewrite (Hb j) by lia. unfold byte_at, byte_shift. do 2 f_equal. lia.
Qed.

(** C33. A load returns what a store in the same byte order left, at any address and
    for any size, aligned or not, and a store touches the bytes it names only. *)
Theorem read_write_back p ea n v l chk :
  0 <= n ->
  let q := write ea n v l chk p in
  read ea n l q = v mod 2 ^ (8 * n) /\
  (forall a, in_range 0 n (offset_of ea l a) = false -> cur q !! a = cur p !! a) /\
  (forall a, a ∈ checked q <-> (chk = true /\ in_range 0 n (offset_of ea l a) = true) \/ a ∈ checked p).
Proof.
  intros Hn q. destruct (write_spec p ea n v l chk Hn) as (c & k & E & Hc & Hk). subst q. rewrite E. cbn [cur checked with_memory].
  split; [| split; [intros a Ha; rewrite Hc, Ha; reflexivity | exact Hk]].
  apply read_of_bytes; [exact Hn |]. intros i Hi. unfold cur_byte. cbn [cur with_memory]. rewrite Hc.
  assert (offset_of ea l (byte_address ea i l) = i) as -> by (symmetry; apply byte_address_iff; reflexivity).
  rewrite (proj2 (in_range_iff _ _ _)) by lia. reflexivity.
Qed.

Lemma read_write_back_witness :
  let q := write 0x1003 4 0x8899aabb true true (new_program (G := core_layout) "603") in
  read 0x1003 4 true q = 0x8899aabb mod 2 ^ (8 * 4) /\
  (forall a, in_range 0 4 (offset_of 0x1003 true a) = false -> cur q !! a = (∅ : gmap Z Z) !! a) /\
  (forall a, a ∈ checked q <-> (true = true /\ in_range 0 4 (offset_of 0x1003 true a) = true) \/ a ∈ (∅ : gset Z)).
Proof. apply (read_write_back (new_program (G := core_layout) "603") 0x1003 4 0x8899aabb true true). lia. Defined.

(** ** Munging *)
Lemma lxor_low q t c : 0 <= t < 8 -> 0 <= c < 8 -> Z.lxor (8 * q + t) c = 8 * q + Z.lxor t c.
Proof.
  intros Ht Hc.
  assert (Hx : 0 <= Z.lxor t c < 2 ^ 3).
  { assert (0 <= Z.lxor t c) by (apply Z.lxor_nonneg; lia). split; [assumption |].
    apply bound_of_bits; [lia | assumption |]. intros i Hi.
    rewrite Z.lxor_spec, (testbit_high t 3), (testbit_high c 3) by lia. reflexivity. }
  replace (8 * q) with (q * 2 ^ 3) by lia.
  rewrite <- (lor_shiftl_add q t 3), <- (lor_shiftl_add q (Z.lxor t c) 3) by lia.
  apply Z.bits_inj'. intros i Hi. rewrite Z.lxor_spec, !Z.lor_spec, Z.lxor_spec, !Z.shiftl_spec by lia.
  destruct (Z.ltb_spec i 3).
  - rewrite (Z.testbit_neg_r q) by lia. reflexivity.
  - rewrite (testbit_high t 3), (testbit_high c 3) by lia. rewrite orb_false_r, !xorb_false_r, orb_false_r. reflexivity.
Qed.

(** Case analysis on a number below eight. *)
Ltac below_8 t :=
  let Hc := fresh "Hc" in
  assert (Hc : In t (seqZ 0 8)) by (rewrite <- list_elem_of_In; apply elem_of_seqZ; lia);
  vm_compute in Hc; intuition subst.

Lemma lxor_7 a : Z.lxor a 7 = 8 * (a / 8) + (7 - a mod 8).
Proof.
  rewrite (Z.div_mod a 8) at 1 by lia. pose proof (Z.mod_pos_bound a 8 ltac:(lia)) as Ht.
  rewrite lxor_low by lia. f_equal. revert Ht. generalize (a mod 8). intros t Ht. below_8 t; reflexivity.
Qed.

(** The sizes of a scalar. *)
Definition SIZES : list Z := [1; 2; 4; 8].

Lemma munged n ea : In n SIZES -> ea mod n = 0 -> Z.lxor ea (8 - n) = 8 * (ea / 8) + (8 - n - ea mod 8).
Proof.
  intros Hn Ha. rewrite (Z.div_mod ea 8) at 1 by lia.
  pose proof (Z.mod_pos_bound ea 8 ltac:(lia)) as Ht.
  assert (Hm : ea mod 8 mod n = 0).
  { destruct Hn as [<- | [<- | [<- | [<- | []]]]]; word_lia. }
  rewrite lxor_low by (cbn in Hn; lia). f_equal.
  revert Hm Ht. generalize (ea mod 8). intros t Hm Ht.
  destruct Hn as [<- | [<- | [<- | [<- | []]]]]; below_8 t; try reflexivity; discriminate.
Qed.

(** The byte at [a] of an aligned access, in the two byte orders. *)
Lemma munged_offset n ea a :
  In n SIZES -> ea mod n = 0 ->
  in_range 0 n (offset_of (Z.lxor ea (8 - n)) false a) = in_range 0 n (offset_of ea true a) /\
  (in_range 0 n (offset_of ea true a) = true ->
   offset_of (Z.lxor ea (8 - n)) false a = n - 1 - offset_of ea true a).
Proof.
  intros Hn Ha. unfold offset_of. rewrite (munged n ea Hn Ha), lxor_7.
  assert (Hd : ea mod 8 + n <= 8) by (destruct Hn as [<- | [<- | [<- | [<- | []]]]]; word_lia).
  assert (0 < n) by (cbn in Hn; lia).
  pose proof (Z.div_mod a 8 ltac:(lia)). pose proof (Z.div_mod ea 8 ltac:(lia)).
  pose proof (Z.mod_pos_bound a 8 ltac:(lia)). pose proof (Z.mod_pos_bound ea 8 ltac:(lia)).
  split.
  - apply Bool.eq_iff_eq_true. rewrite !in_range_iff. lia.
  - rewrite in_range_iff. lia.
Qed.

Lemma with_memory_eq p i c c' k k' : (forall a, c !! a = c' !! a) -> (forall a : Z, a ∈ k <-> a ∈ k') -> with_memory i c k p = with_memory i c' k' p.
Proof. intros Hc Hk. f_equal; [apply map_eq; exact Hc | apply set_eq; exact Hk]. Qed.

(** Any bytes are the bytes of some value. *)
Lemma bytes_have_value (f : Z -> Z) n :
  0 <= n -> (forall i, 0 <= f i < 256) -> exists v, forall i, 0 <= i < n -> Z.land (Z.shiftr v (8 * i)) 0xff = f i.
Proof.
  intros Hn. rewrite <- (Z2Nat.id n Hn). clear Hn. revert f. induction (Z.to_nat n) as [| j IH]; intros f Hf; [exists 0; lia |].
  destruct (IH (fun i => f (i + 1))) as [v Hv]; [auto |].
  exists (Z.lor (Z.shiftl v 8) (f 0)). intros i Hi. change 0xff with (Z.ones 8) in *.
  rewrite lor_shiftl_add by (lia || apply Hf). rewrite Z.land_ones, Z.shiftr_div_pow2 by lia. specialize (Hf 0).
  destruct (Z.eq_dec i 0) as [-> | Hi0].
  - rewrite Z.div_1_r. word_lia.
  - rewrite <- (Z.sub_add 1 i) at 2. rewrite <- Hv by lia. rewrite Z.land_ones, Z.shiftr_div_pow2 by lia.
    replace (8 * i) with (8 + 8 * (i - 1)) by lia. rewrite Z.pow_add_r, <- Z.div_div by (try apply Z.pow_pos_nonneg; lia).
    do 2 f_equal. word_lia.
Qed.

Definition bytes (x : gmap Z Z) : Prop := map_Forall (fun _ b => 0 <= b < 256) x.
Lemma cur_byte_range p a : bytes (cur p) -> 0 <= cur_byte p a < 256.
Proof. intros H. unfold cur_byte. destruct (cur p !! a) as [b |] eqn:E; [exact (H a b E) | cbn; lia]. Qed.

(** Two reads of [n] bytes that see the same bytes in the same positions of the value. *)
Lemma read_same p q ea ea' n l l' :
  0 <= n -> bytes (cur p) ->
  (forall i, 0 <= i < n -> cur_byte p (byte_address ea i l) = cur_byte q (byte_address ea' (if eqb l l' then i else n - 1 - i) l')) ->
  read ea n l p = read ea' n l' q.
Proof.
  intros Hn Hb H.
  destruct (bytes_have_value (fun i => cur_byte p (byte_address ea (if l then i else n - 1 - i) l)) n Hn) as [v Hv].
  { intros i. apply cur_byte_range. exact Hb. }
  rewrite (read_of_bytes p ea n v l Hn); [rewrite (read_of_bytes q ea' n v l' Hn); [reflexivity |] |]; intros i Hi.
  - unfold byte_at, byte_shift. destruct l, l'; rewrite Hv by lia; cbn [eqb] in H.
    + symmetry. apply H. lia.
    + replace i with (n - 1 - (n - 1 - i)) at 1 by lia. symmetry. apply H. lia.
    + rewrite H by lia. f_equal. f_equal. lia.
    + replace (n - 1 - (n - 1 - i)) with i by lia. symmetry. apply H. lia.
  - unfold byte_at, byte_shift. destruct l; rewrite Hv by lia; [reflexivity |]. do 2 f_equal. lia.
Qed.

Lemma munged_address n ea i :
  In n SIZES -> ea mod n = 0 -> 0 <= i < n -> byte_address ea i true = byte_address (Z.lxor ea (8 - n)) (n - 1 - i) false.
Proof.
  intros Hn Ha Hi. apply byte_address_iff. set (b := byte_address _ _ false).
  destruct (munged_offset n ea b Hn Ha) as [E1 E2].
  assert (Eb : offset_of (Z.lxor ea (8 - n)) false b = n - 1 - i) by (symmetry; apply byte_address_iff; reflexivity).
  rewrite Eb in *. rewrite <- E1 in E2. rewrite (proj2 (in_range_iff _ _ _)) in E2 by lia. specialize (E2 eq_refl). lia.
Qed.

(** Address munging: an aligned little-endian store of one, two, four or
    eight bytes is the big-endian store at EA XOR (8 - n), and the little-endian
    load is the big-endian load there. This is how the processor implements
    little-endian mode; the model moves the bytes one by one. *)
Theorem aligned_access_munges p ea n v chk :
  In n SIZES -> ea mod n = 0 ->
  write ea n v true chk p = write (Z.lxor ea (8 - n)) n v false chk p /\
  (bytes (cur p) -> read ea n true p = read (Z.lxor ea (8 - n)) n false p).
Proof.
  intros Hn Ha. assert (0 < n) by (cbn in Hn; lia). split.
  - destruct (write_spec p ea n v true chk ltac:(lia)) as (c & k & -> & Hc & Hk).
    destruct (write_spec p (Z.lxor ea (8 - n)) n v false chk ltac:(lia)) as (c' & k' & -> & Hc' & Hk').
    apply with_memory_eq; intros a; destruct (munged_offset n ea a Hn Ha) as [E1 E2].
    + rewrite Hc, Hc', E1. destruct (in_range 0 n (offset_of ea true a)); [| reflexivity].
      f_equal. unfold byte_at, byte_shift. rewrite E2 by reflexivity. do 2 f_equal. lia.
    + rewrite Hk, Hk', E1. reflexivity.
  - intros Hb. apply read_same; [lia | exact Hb |]. intros i Hi. cbn [eqb]. f_equal. apply munged_address; assumption.
Qed.

Lemma aligned_access_munges_witness :
  let p := new_program (G := core_layout) "603" in
  write 0x40012 2 0x8c61 true true p = write 0x40014 2 0x8c61 false true p /\
  (bytes (cur p) -> read 0x40012 2 true p = read 0x40014 2 false p).
Proof. apply (aligned_access_munges (new_program (G := core_layout) "603") 0x40012 2 0x8c61 true); [cbn; tauto | reflexivity]. Defined.

(** ** The reference machine's memory *)
Import le_machine.

(** The address of the byte that is the [i]-th from the most significant. *)
Definition place (l : bool) (ea n i : Z) : Z := byte_address ea (if l then n - 1 - i else i) l.

Lemma seqZ_shift b n : seqZ b n = map (Z.add b) (seqZ 0 n).
Proof. change (seqZ b n = Z.add b <$> seqZ 0 n). rewrite fmap_add_seqZ. f_equal. lia. Qed.

Lemma places_eq l ea n : In n SIZES -> places l ea n = map (place l ea n) (seqZ 0 n).
Proof.
  intros Hn. unfold places, place. destruct l; [| apply seqZ_shift].
  unfold aligned. destruct (Z.eqb_spec (ea mod n) 0) as [Ha | Ha]; [| reflexivity].
  rewrite seqZ_shift. apply map_ext_in. intros i Hi. apply in_seqZ in Hi.
  rewrite (munged_address n ea (n - 1 - i) Hn Ha) by lia. unfold byte_address. lia.
Qed.

Lemma place_inj l ea n i j : place l ea n i = place l ea n j -> i = j.
Proof. unfold place. intros H. apply byte_address_iff in H. rewrite <- (proj1 (byte_address_iff ea _ l _) eq_refl) in H. destruct l; lia. Qed.

Lemma byte_place p l ea n i :
  default 0 (cur p !! place l ea n i) = cur_byte p (byte_address ea (if l then n - 1 - i else i) l).
Proof. reflexivity. Qed.

Lemma mget_of_bytes (x : gmap Z Z) g n v :
  0 <= n -> (forall i, 0 <= i < n -> default 0 (x !! g i) = Z.land (Z.shiftr v (8 * (n - 1 - i))) 0xff) ->
  mget x (map g (seqZ 0 n)) = v mod 2 ^ (8 * n).
Proof.
  intros Hn Hb. unfold mget. transitivity (fold_left (fun y i => y * 256 + default 0 (x !! g i)) (seqZ 0 n) 0).
  { enough (G : forall l y, fold_left (fun v a => v * 256 + default 0 (x !! a)) (map g l) y
      = fold_left (fun y i => y * 256 + default 0 (x !! g i)) l y) by apply G.
    induction l as [| i l IH]; intros y; [reflexivity | apply IH]. }
  transitivity (Z.shiftr v (8 * (n - n)) mod 2 ^ (8 * n)).
  2: { rewrite Z.sub_diag. reflexivity. }
  apply (fold_range_ind (fun j x => x = Z.shiftr v (8 * (n - j)) mod 2 ^ (8 * j))); [exact Hn | symmetry; apply Z.mod_1_r |].
  intros j y Hj ->. rewrite Hb by lia. replace (n - 1 - j) with (n - (j + 1)) by lia.
  set (u := Z.shiftr v (8 * (n - (j + 1)))).
  replace (Z.shiftr v (8 * (n - j))) with (Z.shiftr u 8) by (unfold u; rewrite Z.shiftr_shiftr by lia; f_equal; lia).
  rewrite <- (shift_in_byte u j (Z.land u 0xff)) by (lia || reflexivity).
  rewrite lor_shiftl_add; [reflexivity | lia |]. change 0xff with (Z.ones 8). rewrite Z.land_ones by lia. apply Z.mod_pos_bound. lia.
Qed.

Lemma mput_notin x l v a : a ∉ l -> mput x l v !! a = x !! a.
Proof.
  revert x. induction l as [| b l IH]; intros x Ha; [reflexivity |]. apply not_elem_of_cons in Ha. cbn [mput].
  rewrite IH by tauto. apply lookup_insert_ne. intuition congruence.
Qed.
Lemma mput_in x l v k a :
  NoDup l -> l !! k = Some a -> mput x l v !! a = Some (v / 256 ^ (Z.of_nat (length l) - 1 - Z.of_nat k) mod 256).
Proof.
  revert x k. induction l as [| b l IH]; intros x k Hd Hk; [discriminate |]. apply NoDup_cons in Hd as [Hb Hd]. cbn [mput].
  destruct k as [| k]; cbn in Hk.
  - injection Hk as <-. rewrite mput_notin by exact Hb. rewrite lookup_insert, decide_True by reflexivity.
    cbn [length]. do 4 f_equal. lia.
  - rewrite (IH _ k Hd Hk). cbn [length]. do 4 f_equal. lia.
Qed.

(** C32. The generator's memory is the contract's: for every scalar size, at every
    address and in both byte orders, its byte-by-byte load and store are those of
    the reference machine, which munges aligned accesses and splits the others. *)
Theorem memory_is_contract p ea n v l chk :
  In n SIZES ->
  (bytes (cur p) -> read ea n l p = mget (cur p) (places l ea n)) /\
  cur (write ea n v l chk p) = mput (cur p) (places l ea n) v.
Proof.
  intros Hn. rewrite (places_eq l ea n Hn). assert (0 < n) by (cbn in Hn; lia). split.
  - intros Hb. destruct (bytes_have_value (fun i => cur_byte p (byte_address ea (if l then i else n - 1 - i) l)) n) as [u Hu];
      [lia | intros i; apply cur_byte_range; exact Hb |].
    rewrite (read_of_bytes p ea n u l), (mget_of_bytes _ _ n u); [reflexivity | lia | | lia |]; intros i Hi.
    + rewrite byte_place, Hu by lia. f_equal. f_equal. destruct l; [reflexivity | lia].
    + unfold byte_at, byte_shift. destruct l; rewrite Hu by lia; [reflexivity |]. do 2 f_equal. lia.
  - destruct (write_spec p ea n v l chk ltac:(lia)) as (c & k & -> & Hc & _). cbn [cur with_memory].
    apply map_eq. intros a. rewrite Hc. destruct (in_range 0 n (offset_of ea l a)) eqn:E.
    + apply in_range_iff in E. set (o := offset_of ea l a) in *. set (i := if l then n - 1 - o else o).
      assert (Hi : 0 <= i < n) by (unfold i; destruct l; lia).
      symmetry. rewrite (mput_in _ _ _ (Z.to_nat i) a).
      * rewrite length_map, length_seqZ, !Z2Nat.id by lia. f_equal. unfold byte_at, byte_shift. change 0xff with (Z.ones 8).
        rewrite Z.land_ones, Z.shiftr_div_pow2 by (destruct l; lia). change 256 with (2 ^ 8). rewrite <- Z.pow_mul_r by lia.
        unfold i. destruct l; do 3 f_equal; lia.
      * apply NoDup_fmap_2; [intros x y; apply place_inj | apply NoDup_seqZ].
      * change (map (place l ea n) (seqZ 0 n)) with (place l ea n <$> seqZ 0 n).
        rewrite list_lookup_fmap, lookup_seqZ_lt by lia. cbn. f_equal. apply byte_address_iff. fold o. unfold i. destruct l; lia.
    + symmetry. apply mput_notin. intros Hin. change (a ∈ place l ea n <$> seqZ 0 n) in Hin.
      apply list_elem_of_fmap in Hin as (i & -> & Hi). apply elem_of_seqZ in Hi.
      unfold place in E. rewrite <- (proj1 (byte_address_iff ea _ l _) eq_refl) in E.
      assert (in_range 0 n (if l then n - 1 - i else i) = true) by (apply in_range_iff; destruct l; lia). congruence.
Qed.

Lemma memory_is_contract_witness :
  let p := new_program (G := core_layout) "pid7v" in
  (bytes (cur p) -> read 0x40017 4 true p = mget (cur p) [0x4001d; 0x4001e; 0x4001f; 0x40010]) /\
  cur (write 0x40017 4 0x8899aabb true true p) = mput (cur p) [0x4001d; 0x4001e; 0x4001f; 0x40010] 0x8899aabb.
Proof. apply (memory_is_contract (new_program (G := core_layout) "pid7v") 0x40017 4 0x8899aabb true true). cbn. tauto. Defined.
