(* ===== verification/LeTheorems.v ===== *)
(** * What the little-endian generator produces

    The invariant of [Program] on every section of the program, the expected words
    as a check of every recorded byte, the chip image, and the images run on the
    reference machine. *)
From stdpp Require Import sorting.
From S2P Require Import Prelude Words LeProgram LeMachine LeMemory.
Import le_core_program.

(** ** The invariant *)
(** Memory holds bytes, every byte with an initial value has a final one, and
    every recorded byte has a final value. *)
Record wf (p : Program) : Prop := {
  wf_init : bytes (init p);
  wf_cur : bytes (cur p);
  wf_dom : dom (init p) ⊆ dom (cur p);
  wf_checked : checked p ⊆ dom (cur p)
}.

(** A method keeps the invariant, whether it returns or raises. *)
Definition stable {A} (x : m A) : Prop := forall p, wf p -> wf (fst (x p)).

Lemma stable_ret {A} (a : A) : stable (m_ret a).
Proof. intros p H. exact H. Qed.
Lemma stable_lift {A} (x : result A) : stable (m_lift x).
Proof. intros p H. exact H. Qed.
Lemma stable_raise {A} e : stable (m_raise (A := A) e).
Proof. intros p H. exact H. Qed.
Lemma stable_get {A} (f : Program -> A) : stable (get_ f).
Proof. intros p H. exact H. Qed.
Lemma stable_assert c : stable (assert_ c).
Proof. intros p H. destruct c; exact H. Qed.
Lemma stable_set f : (forall p, wf p -> wf (f p)) -> stable (set_ f).
Proof. intros Hf p H. apply Hf. exact H. Qed.
Lemma stable_bind {A B} (x : m A) (k : A -> m B) : stable x -> (forall a, stable (k a)) -> stable (m_bind x k).
Proof.
  intros Hx Hk p H. specialize (Hx p H). unfold m_bind. destruct (x p) as [q [a | e]]; cbn in *; [apply Hk |]; exact Hx.
Qed.
Lemma stable_when c x : stable x -> stable (m_when c x).
Proof. intros Hx. destruct c; [exact Hx | apply stable_ret]. Qed.
Lemma stable_if {A} (c : bool) (x y : m A) : stable x -> stable y -> stable (if c then x else y).
Proof. destruct c; auto. Qed.
Lemma stable_each {A} (l : list A) body : (forall a, stable (body a)) -> stable (each l body).
Proof. intros Hb. induction l as [| a l IH]; [apply stable_ret | apply stable_bind; auto]. Qed.
Lemma stable_each_with {A B} (l : list A) (b : B) body : (forall a b, stable (body a b)) -> stable (each_with l b body).
Proof. intros Hb. revert b. induction l as [| a l IH]; intros b; [apply stable_ret | apply stable_bind; auto]. Qed.

Lemma land_ff_range x : 0 <= Z.land x 0xff < 256.
Proof. change 0xff with (Z.ones 8). rewrite Z.land_ones by lia. apply Z.mod_pos_bound. lia. Qed.

Lemma bytes_insert x a b : bytes x -> 0 <= b < 256 -> bytes (<[a := b]> x).
Proof. intros H Hb. apply map_Forall_insert_2; assumption. Qed.

Lemma fold_left_wf {A} (l : list A) (f : Program -> A -> Program) p :
  (forall q a, wf q -> wf (f q a)) -> wf p -> wf (fold_left f l p).
Proof. intros Hf. revert p. induction l as [| a l IH]; intros p H; [exact H | apply IH, Hf, H]. Qed.

Lemma poke_wf a b p : 0 <= b < 256 -> wf p -> wf (poke a b p).
Proof.
  intros Hb [H1 H2 H3 H4]. constructor; cbn [init cur checked poke with_memory];
    [apply bytes_insert; assumption | apply bytes_insert; assumption | |]; rewrite !dom_insert; clear - H3 H4; set_solver.
Qed.
Lemma put32_wf a w p : wf p -> wf (put32 a w p).
Proof. apply fold_left_wf. intros q i. apply poke_wf, land_ff_range. Qed.
Lemma write_byte_wf a b chk p : 0 <= b < 256 -> wf p -> wf (write_byte a b chk p).
Proof.
  intros Hb [H1 H2 H3 H4]. constructor; cbn [init cur checked write_byte with_memory];
    [assumption | apply bytes_insert; assumption | |]; rewrite dom_insert; clear - H3 H4; [set_solver |].
  destruct chk; [rewrite set_add_spec |]; set_solver.
Qed.
Lemma write_wf ea n v l chk p : wf p -> wf (write ea n v l chk p).
Proof. apply fold_left_wf. intros q i. apply write_byte_wf, land_ff_range. Qed.
Lemma fill_wf b n s p : wf p -> wf (fill b n s p).
Proof.
  apply fold_left_wf. intros q k Hq. destruct (poke_wf (b + k) _ q (land_ff_range (s + 37 * k)) Hq) as [H1 H2 H3 H4].
  constructor; cbn [init cur checked poke with_memory] in *; [assumption | assumption | assumption |].
  rewrite set_add_spec. rewrite dom_insert in H4 |- *. clear - H4. set_solver.
Qed.
Lemma with_pc_wf a l p : wf p -> wf (with_pc a l p).
Proof. intros [H1 H2 H3 H4]. constructor; assumption. Qed.
Lemma with_msr_wf v l h p : wf p -> wf (with_msr v l h p).
Proof. intros [H1 H2 H3 H4]. constructor; assumption. Qed.
Lemma with_log_wf r l e p : wf p -> wf (with_log r l e p).
Proof. intros [H1 H2 H3 H4]. constructor; assumption. Qed.

Create HintDb stable discriminated.
#[export] Hint Resolve stable_ret stable_lift stable_raise stable_get stable_assert stable_set stable_bind stable_when stable_if
  stable_each stable_each_with put32_wf write_wf fill_wf with_pc_wf with_msr_wf with_log_wf : stable.

(** One statement at a time. *)
Ltac stab :=
  repeat (intros; cbv zeta;
    lazymatch goal with
    | |- stable (m_bind _ _) => apply stable_bind
    | |- stable (m_when _ _) => apply stable_when
    | |- stable (each _ _) => apply stable_each
    | |- stable (each_with _ _ _) => apply stable_each_with
    | |- stable (if _ then _ else _) => apply stable_if
    | |- stable (match ?x with _ => _ end) => destruct x
    | |- _ => solve [auto 8 with stable]
    end).

Lemma stable_emit insn : stable (emit insn).
Proof. unfold emit. stab. Qed.
#[export] Hint Resolve stable_emit : stable.
Lemma stable_emit_ insn : stable (emit_ insn).
Proof. unfold emit_. stab. Qed.
#[export] Hint Resolve stable_emit_ : stable.
Lemma stable_li32 r v : stable (li32 r v).
Proof. unfold li32. stab. Qed.
#[export] Hint Resolve stable_li32 : stable.
Lemma stable_mtmsr v : stable (mtmsr v).
Proof. unfold mtmsr. stab. Qed.
#[export] Hint Resolve stable_mtmsr : stable.
Lemma stable_next_slot n : stable (next_slot n).
Proof. unfold next_slot. stab. Qed.
#[export] Hint Resolve stable_next_slot : stable.
Lemma stable_store_result r v : stable (store_result r v).
Proof. unfold store_result. stab. Qed.
#[export] Hint Resolve stable_store_result : stable.
Lemma stable_event v s d f : stable (event v s d f).
Proof. unfold event. stab. Qed.
#[export] Hint Resolve stable_event : stable.

Section Layout.
Context {G : Globals}.

Lemma stable_handlers b l : stable (handlers b l).
Proof. unfold handlers, handler. stab. Qed.
Lemma stable_loads : stable loads.
Proof. unfold loads, load_at. stab. Qed.
Lemma stable_stores : stable stores.
Proof. unfold stores, store_at. stab. Qed.
Lemma stable_update_forms : stable update_forms.
Proof. unfold update_forms, lwzu_at. stab. Qed.
Lemma stable_reservation : stable reservation.
Proof. unfold reservation. stab. Qed.
Lemma stable_nonscalars : stable nonscalars.
Proof. unfold nonscalars. stab. Qed.
Lemma stable_preset a : stable (preset a).
Proof.
  intros p [H1 H2 H3 H4]. unfold preset, m_bind, get_, set_, m_raise. cbn. destruct (cur p !! a) as [b |] eqn:E; cbn; [| constructor; assumption].
  constructor; cbn [init cur checked with_memory]; [apply bytes_insert; [assumption | exact (H2 a b E)] | assumption | | assumption].
  rewrite dom_insert. apply elem_of_dom_2 in E. clear - E H3. set_solver.
Qed.
#[local] Hint Resolve stable_preset : stable.
Lemma stable_preset_data ea n v : stable (preset_data ea n v).
Proof. unfold preset_data. stab. Qed.
#[local] Hint Resolve stable_preset_data : stable.
Lemma stable_store_fpr f v : stable (store_fpr f v).
Proof. unfold store_fpr. stab. Qed.
#[local] Hint Resolve stable_store_fpr : stable.
Lemma stable_floating : stable floating.
Proof. unfold floating, stfd_at. stab. Qed.
Lemma stable_branches : stable branches.
Proof. unfold branches. stab. Qed.
Lemma stable_protection : stable protection.
Proof. unfold protection. stab. Qed.
Lemma stable_system_call : stable system_call.
Proof. unfold system_call. stab. Qed.
#[local] Hint Resolve stable_system_call : stable.
Lemma stable_ile b : stable (ile b).
Proof. unfold ile. stab. Qed.
Lemma stable_rfi_round_trip b : stable (rfi_round_trip b).
Proof. unfold rfi_round_trip, rfi_to. stab. Qed.
Lemma stable_self_check : stable self_check.
Proof. unfold self_check. stab. Qed.
Lemma discard_wf a p : wf p -> wf (with_memory (init p) (cur p) (set_discard a (checked p)) p).
Proof.
  intros [H1 H2 H3 H4]. constructor; cbn [init cur checked with_memory]; try assumption.
  rewrite set_discard_spec. clear - H4. set_solver.
Qed.
#[local] Hint Resolve stable_handlers stable_loads stable_stores stable_update_forms stable_reservation stable_nonscalars
  stable_floating stable_branches stable_protection stable_ile stable_rfi_round_trip stable_self_check discard_wf : stable.
Lemma stable_build_body v : stable (build_body v).
Proof. unfold build_body. stab. Qed.

Lemma new_program_wf v : wf (new_program v).
Proof.
  constructor; cbn [init cur checked new_program]; [apply map_Forall_empty | apply map_Forall_empty | |]; apply empty_subseteq || rewrite dom_empty; reflexivity.
Qed.
End Layout.

(** Whatever the memory layout, a program that [build] returns is well
    formed: initial and final memory hold bytes, and every byte with an initial
    value or an expectation has a final value. *)
Theorem build_wf (G : Globals) v p : build v = Ok p -> wf p.
Proof.
  unfold build. intros H. pose proof (stable_build_body v _ (new_program_wf v)) as Hw.
  destruct (build_body v (new_program v)) as [q [[] | e]]; [| discriminate]. apply ok_inj in H as <-. exact Hw.
Qed.

Lemma build_wf_witness : exists p, build (G := core_layout) "602" = Ok p /\ wf p.
Proof.
  assert (H : is_ok (build (G := core_layout) "602") = true) by (vm_compute; reflexivity).
  destruct (build (G := core_layout) "602") as [p | e] eqn:E; [| discriminate].
  exists p. split; [reflexivity | exact (build_wf core_layout "602" p E)].
Defined.

(** ** Expected words *)
Lemma word_base a : Z.land a (Z.lnot 3) = a - a mod 4.
Proof.
  rewrite <- Z.ldiff_land. change 3 with (Z.ones 2). rewrite Z.ldiff_ones_r, Z.shiftl_mul_pow2, Z.shiftr_div_pow2 by lia. word_lia.
Qed.

Lemma words_of_iff s w : w ∈ words_of s <-> exists a, a ∈ s /\ w = Z.land a (Z.lnot 3).
Proof.
  unfold words_of. rewrite merge_sort_Permutation, elem_of_elements.
  apply (set_fold_ind_L (fun (words : gset Z) s => w ∈ words <-> exists a, a ∈ s /\ w = Z.land a (Z.lnot 3))).
  - set_solver.
  - intros a t words _ IH. rewrite set_add_spec, elem_of_union, elem_of_singleton, IH. set_solver.
Qed.

Lemma words_of_sorted s : StronglySorted Z.lt (words_of s).
Proof.
  unfold words_of. set (t := set_fold _ _ _).
  assert (Hd : List.NoDup (merge_sort Z.le (elements t))).
  { apply NoDup_ListNoDup. rewrite merge_sort_Permutation. apply NoDup_elements. }
  pose proof (StronglySorted_merge_sort Z.le (elements t)) as Hs. revert Hs Hd.
  generalize (merge_sort Z.le (elements t)) as l. induction l as [| a l IH]; intros Hs Hd; [constructor |].
  inversion Hs as [| ? ? Hs' Ha]; subst. inversion Hd as [| ? ? Hn Hd']; subst. constructor; [auto |].
  apply List.Forall_forall. intros b Hb. rewrite List.Forall_forall in Ha. specialize (Ha b Hb).
  destruct (Z.eq_dec a b) as [-> | Hne]; [contradiction | lia].
Qed.

Lemma land_cat A a M k : 0 <= a < 256 -> 0 <= k < 256 -> Z.land (A * 256 + a) (M * 256 + k) = Z.land A M * 256 + Z.land a k.
Proof.
  intros Ha Hk. change 256 with (2 ^ 8) in *. pose proof (land_bound_l a k 8 ltac:(lia) Ha).
  rewrite <- !(lor_shiftl_add _ _ 8) by lia. apply Z.bits_inj'. intros i Hi.
  rewrite Z.land_spec, !Z.lor_spec, Z.land_spec, !Z.shiftl_spec by lia. destruct (Z.ltb_spec i 8).
  - rewrite !(Z.testbit_neg_r _ (i - 8)) by lia. reflexivity.
  - rewrite Z.land_spec, (testbit_high a 8), (testbit_high k 8) by lia. rewrite !orb_false_r. reflexivity.
Qed.

(** A word of four bytes, most significant first. *)
Definition word4 (f : Z -> Z) : Z := ((f 0 * 256 + f 1) * 256 + f 2) * 256 + f 3.
Definition byte_range (f : Z -> Z) : Prop := forall i, 0 <= f i < 256.

Lemma land_word4 f g : byte_range f -> byte_range g -> Z.land (word4 f) (word4 g) = word4 (fun i => Z.land (f i) (g i)).
Proof. intros Hf Hg. unfold word4. rewrite !land_cat by auto. reflexivity. Qed.

Lemma word4_inj f g : byte_range f -> byte_range g -> word4 f = word4 g <-> (forall i, 0 <= i < 4 -> f i = g i).
Proof.
  intros Hf Hg. unfold word4. pose proof (Hf 0); pose proof (Hf 1); pose proof (Hf 2); pose proof (Hf 3).
  pose proof (Hg 0); pose proof (Hg 1); pose proof (Hg 2); pose proof (Hg 3). split; intros H'.
  - assert (f 0 = g 0 /\ f 1 = g 1 /\ f 2 = g 2 /\ f 3 = g 3) as (? & ? & ? & ?) by lia.
    intros i Hi. assert (i = 0 \/ i = 1 \/ i = 2 \/ i = 3) as [-> | [-> | [-> | ->]]] by lia; assumption.
  - rewrite !H' by lia. reflexivity.
Qed.

Lemma mget_word4 (x : gmap Z Z) w : le_machine.mget x (seqZ w 4) = word4 (fun i => default 0 (x !! (w + i))).
Proof.
  rewrite seqZ_shift. change (seqZ 0 4) with [0; 1; 2; 3]. unfold le_machine.mget, word4. cbn [map fold_left]. lia.
Qed.

Definition mask_byte (p : Program) (a : Z) : Z := if bool_decide (a ∈ checked p) then 0xff else 0.
Lemma mask_byte_range p w : byte_range (fun i => mask_byte p (w + i)).
Proof. intros i. unfold mask_byte. destruct (bool_decide _); lia. Qed.

Lemma cat_lor A a : 0 <= a < 256 -> Z.lor (Z.shiftl A 8) a = A * 256 + a.
Proof. intros. rewrite lor_shiftl_add by lia. reflexivity. Qed.

Lemma expected_word_eq p w :
  bytes (cur p) ->
  expected_word p w = (w, Z.land (word4 (fun i => cur_byte p (w + i))) (word4 (fun i => mask_byte p (w + i))),
                       word4 (fun i => mask_byte p (w + i))).
Proof.
  intros Hb. unfold expected_word. change (seqZ 0 4) with [0; 1; 2; 3]. cbn [fold_left].
  pose proof (fun i => cur_byte_range p (w + i) Hb) as Hc. pose proof (mask_byte_range p w) as Hm. cbv beta in Hm.
  fold (mask_byte p (w + 0)) (mask_byte p (w + 1)) (mask_byte p (w + 2)) (mask_byte p (w + 3)).
  rewrite !cat_lor by auto. unfold word4. rewrite !Z.mul_0_l, !Z.add_0_l. reflexivity.
Qed.

Lemma expected_word_passes p (x : gmap Z Z) w :
  bytes (cur p) -> bytes x ->
  Z.land (le_machine.mget x (seqZ w 4)) (word4 (fun i => mask_byte p (w + i))) =
    Z.land (word4 (fun i => cur_byte p (w + i))) (word4 (fun i => mask_byte p (w + i))) <->
  (forall i, 0 <= i < 4 -> w + i ∈ checked p -> default 0 (x !! (w + i)) = cur_byte p (w + i)).
Proof.
  intros Hb Hx. pose proof (mask_byte_range p w) as Hm.
  assert (Hc : byte_range (fun i => cur_byte p (w + i))) by (intros i; apply cur_byte_range, Hb).
  assert (Hd : byte_range (fun i => default 0 (x !! (w + i)))).
  { intros i. destruct (x !! (w + i)) as [b |] eqn:E; [exact (Hx _ b E) | cbn; lia]. }
  rewrite mget_word4, !land_word4 by assumption.
  assert (Hl : forall f, byte_range f -> byte_range (fun i => Z.land (f i) (mask_byte p (w + i)))).
  { intros f Hf i. change 256 with (2 ^ 8). apply land_bound_l; [lia | apply Hf]. }
  rewrite word4_inj by (apply Hl; assumption).
  assert (Hff : forall b, 0 <= b < 256 -> Z.land b 0xff = b) by (intros b H; change 0xff with (Z.ones 8); rewrite Z.land_ones by lia; apply Z.mod_small; exact H).
  split; intros H i Hi.
  - intros Hin. specialize (H i Hi). unfold mask_byte in H. rewrite bool_decide_eq_true_2 in H by exact Hin.
    rewrite !Hff in H by (apply Hd || apply Hc). exact H.
  - unfold mask_byte. case_bool_decide as Hin; [rewrite H by assumption; reflexivity | rewrite !Z.land_0_r; reflexivity].
Qed.

(** The expected words check what the program recorded, no more and no less:
    a memory passes every one of them exactly when each recorded byte has its final
    value. They are listed once each, in increasing order, word-aligned. *)
Theorem expected_words_exact p (x : gmap Z Z) :
  bytes (cur p) -> bytes x ->
  ((forall w v k, In (w, v, k) (expected_words p) -> Z.land (le_machine.mget x (seqZ w 4)) k = v) <->
   (forall a, a ∈ checked p -> default 0 (x !! a) = cur_byte p a)) /\
  StronglySorted Z.lt (map (fun e => fst (fst e)) (expected_words p)) /\
  (forall w v k, In (w, v, k) (expected_words p) -> w mod 4 = 0).
Proof.
  intros Hb Hx.
  assert (Hin : forall w v k, In (w, v, k) (expected_words p) <-> w ∈ words_of (checked p) /\ expected_word p w = (w, v, k)).
  { intros w v k. unfold expected_words. rewrite in_map_iff. split.
    - intros (w' & E & Hw). rewrite list_elem_of_In. pose proof E as E'. rewrite expected_word_eq in E' by exact Hb.
      injection E' as -> _ _. split; assumption.
    - intros [Hw E]. exists w. rewrite <- list_elem_of_In. split; assumption. }
  split; [| split].
  - split; intros H.
    + intros a Ha. set (w := Z.land a (Z.lnot 3)). pose proof (word_base a) as Hwb. fold w in Hwb. pose proof (Z.mod_pos_bound a 4 ltac:(lia)).
      replace a with (w + (a - w)) by lia. apply (proj1 (expected_word_passes p x w Hb Hx)); [| lia | replace (w + (a - w)) with a by lia; exact Ha].
      apply H with (w := w). apply Hin. split; [apply words_of_iff; exists a; auto | apply expected_word_eq; exact Hb].
    + intros w v k Hwk. apply Hin in Hwk as [Hw E]. rewrite expected_word_eq in E by exact Hb. injection E as <- <-.
      apply (proj2 (expected_word_passes p x w Hb Hx)). intros i _ Hi. apply H. exact Hi.
  - unfold expected_words. rewrite map_map. rewrite (map_ext _ id), map_id; [apply words_of_sorted |].
    intros w. rewrite expected_word_eq by exact Hb. reflexivity.
  - intros w v k Hwk. apply Hin in Hwk as [Hw _]. apply words_of_iff in Hw as (a & _ & ->). rewrite word_base. word_lia.
Qed.

(** Two stores that overlap in a doubleword, one of them recorded. *)
Definition small : Program := write 0x12 2 0x8c61 true true (write 0x10 4 0x01020304 true false (new_program (G := core_layout) "603")).
Lemma expected_words_exact_witness :
  ((forall w v k, In (w, v, k) (expected_words small) -> Z.land (le_machine.mget (cur small) (seqZ w 4)) k = v) <->
   (forall a, a ∈ checked small -> default 0 (cur small !! a) = cur_byte small a)) /\
  StronglySorted Z.lt (map (fun e => fst (fst e)) (expected_words small)) /\
  (forall w v k, In (w, v, k) (expected_words small) -> w mod 4 = 0).
Proof.
  apply (expected_words_exact small (cur small));
    (apply write_wf, write_wf, new_program_wf).
Defined.
Example small_words : expected_words small = [(0x14, 0x8c610000, 0xffff0000)].
Proof. vm_compute. reflexivity. Qed.

(** ** Byte reversal *)
Definition byte_of (v i : Z) : Z := Z.land (Z.shiftr v (8 * i)) 0xff.

Lemma from_bytes_little_spec (f : Z -> Z) n :
  0 <= n -> byte_range f ->
  let v := from_bytes_little (map f (seqZ 0 n)) in 0 <= v < 2 ^ (8 * n) /\ (forall i, 0 <= i < n -> byte_of v i = f i).
Proof.
  intros Hn. rewrite <- (Z2Nat.id n Hn). clear Hn. revert f. induction (Z.to_nat n) as [| j IH]; intros f Hf; [split; [vm_compute; intuition discriminate | lia] |].
  specialize (IH (fun i => f (1 + i)) (fun i => Hf (1 + i))). cbv zeta in IH |- *.
  rewrite Nat2Z.inj_succ, seqZ_cons by lia. rewrite Z.pred_succ, seqZ_shift. cbn [map from_bytes_little]. rewrite map_map.
  change (Z.succ 0) with 1. set (u := from_bytes_little _) in *. destruct IH as [Hu Hb]. specialize (Hf 0).
  replace (f 0 + 256 * u) with (Z.lor (Z.shiftl u 8) (f 0)) by (rewrite cat_lor by exact Hf; lia). split.
  - rewrite cat_lor by exact Hf. replace (8 * Z.succ (Z.of_nat j)) with (8 + 8 * Z.of_nat j) by lia. rewrite Z.pow_add_r by lia. change (2 ^ 8) with 256. lia.
  - intros i Hi. unfold byte_of. change 0xff with (Z.ones 8). destruct (Z.eq_dec i 0) as [-> | Hi0].
    + rewrite cat_lor, Z.land_ones, Z.shiftr_div_pow2 by (exact Hf || lia). rewrite Z.div_1_r. word_lia.
    + specialize (Hb (i - 1) ltac:(lia)). unfold byte_of in Hb. replace (1 + (i - 1)) with i in Hb by lia. rewrite <- Hb.
      change 0xff with (Z.ones 8). f_equal. replace (8 * i) with (8 + 8 * (i - 1)) by lia. rewrite <- Z.shiftr_shiftr by lia. f_equal.
      rewrite cat_lor, Z.shiftr_div_pow2 by (exact Hf || lia). word_lia.
Qed.

(** Values are equal when their bytes are. *)
Lemma bytes_ext v w n :
  0 <= n -> 0 <= v < 2 ^ (8 * n) -> 0 <= w < 2 ^ (8 * n) -> (forall i, 0 <= i < n -> byte_of v i = byte_of w i) -> v = w.
Proof.
  intros Hn Hv Hw H. apply Z.bits_inj'. intros i Hi. destruct (Z.ltb_spec i (8 * n)) as [Hlt | Hge].
  - specialize (H (i / 8)). assert (Hq : 0 <= i / 8 < n) by word_lia. specialize (H Hq). unfold byte_of in H.
    apply (f_equal (fun x => Z.testbit x (i mod 8))) in H. pose proof (Z.mod_pos_bound i 8 ltac:(lia)).
    change 0xff with (Z.ones 8) in H. rewrite !Z.land_spec, !Z.shiftr_spec, !testbit_ones, (proj2 (Z.ltb_lt _ _)), !andb_true_r in H by lia.
    replace (i mod 8 + 8 * (i / 8)) with i in H by word_lia. exact H.
  - rewrite (testbit_high v (8 * n)), (testbit_high w (8 * n)) by lia. reflexivity.
Qed.

(** [byterev] swaps the bytes end for end and is its own inverse, for every
    size; a value that does not fit its size is refused. *)
Theorem byterev_involutive v n :
  0 <= n ->
  (0 <= v < 2 ^ (8 * n) ->
   exists w, byterev v n = Ok w /\ 0 <= w < 2 ^ (8 * n) /\ (forall i, 0 <= i < n -> byte_of w i = byte_of v (n - 1 - i)) /\
     byterev w n = Ok v) /\
  (~ 0 <= v < 2 ^ (8 * n) -> byterev v n = Raise OverflowError).
Proof.
  intros Hn. split.
  - intros Hv.
    assert (Hrun : forall u, 0 <= u < 2 ^ (8 * n) -> byterev u n = Ok (from_bytes_little (map (fun i => byte_of u (n - 1 - i)) (seqZ 0 n)))).
    { intros u Hu. unfold byterev, to_bytes_big. rewrite (proj2 (in_range_iff _ _ _)) by exact Hu. reflexivity. }
    assert (Hspec : forall u, byte_range (fun i => byte_of u (n - 1 - i))) by (intros u i; apply land_ff_range).
    destruct (from_bytes_little_spec _ n Hn (Hspec v)) as [Hw Hb]. set (w := from_bytes_little _) in *.
    exists w. split; [apply Hrun; exact Hv |]. split; [exact Hw |]. split; [exact Hb |].
    rewrite (Hrun w Hw). destruct (from_bytes_little_spec _ n Hn (Hspec w)) as [Hv' Hb']. f_equal.
    apply (bytes_ext _ v n Hn Hv' Hv). intros i Hi. rewrite Hb' by lia. rewrite Hb by lia. f_equal. lia.
  - intros Hv. unfold byterev, to_bytes_big. destruct (in_range 0 (2 ^ (8 * n)) v) eqn:E; [| reflexivity].
    apply in_range_iff in E. contradiction.
Qed.

Lemma byterev_involutive_witness :
  (0 <= 0x8899aabb < 2 ^ (8 * 4) ->
   exists w, byterev 0x8899aabb 4 = Ok w /\ 0 <= w < 2 ^ (8 * 4) /\ (forall i, 0 <= i < 4 -> byte_of w i = byte_of 0x8899aabb (4 - 1 - i)) /\
     byterev w 4 = Ok 0x8899aabb) /\
  (~ 0 <= 0x8899aabb < 2 ^ (8 * 4) -> byterev 0x8899aabb 4 = Raise OverflowError).
Proof. apply (byterev_involutive 0x8899aabb 4). lia. Defined.

(** ** The chip image *)
Definition in_chip (a : Z) : Prop := CHIP_BASE <= a < CHIP_BASE + CHIP_IMAGE_BYTES.

(** What [write_chip_image] has done after the bytes [x]. *)
Definition chip_state (x : gmap Z Z) (r : result (list Z)) : Prop :=
  bytes x ->
  (map_Forall (fun a _ => in_chip a) x ->
   exists b, r = Ok b /\ length b = Z.to_nat CHIP_IMAGE_BYTES /\
     (forall i, 0 <= i < CHIP_IMAGE_BYTES -> b !! Z.to_nat i = Some (default 0 (x !! (CHIP_BASE + i))))) /\
  (~ map_Forall (fun a _ => in_chip a) x -> r = Raise AssertionError).

Lemma put_byte_in b a v :
  in_chip a -> 0 <= v < 256 -> put_byte b a v = Ok (<[Z.to_nat (a - CHIP_BASE) := v]> b).
Proof.
  intros Ha Hv. unfold put_byte. unfold in_chip in Ha. rewrite !(proj2 (in_range_iff _ _ _)) by lia. reflexivity.
Qed.
Lemma put_byte_out b a v : ~ in_chip a -> put_byte b a v = Raise AssertionError.
Proof.
  intros Ha. unfold put_byte. destruct (in_range 0 CHIP_IMAGE_BYTES (a - CHIP_BASE)) eqn:E; [| reflexivity].
  apply in_range_iff in E. unfold in_chip in Ha. lia.
Qed.

Lemma in_chip_dec a : {in_chip a} + {~ in_chip a}.
Proof. unfold in_chip. destruct (Z_le_dec CHIP_BASE a), (Z_lt_dec a (CHIP_BASE + CHIP_IMAGE_BYTES)); (left; lia) || (right; lia). Qed.
#[local] Instance in_chip_decision a : Decision (in_chip a) := in_chip_dec a.

Lemma chip_step a v (x : gmap Z Z) r :
  x !! a = None -> chip_state x r -> chip_state (<[a := v]> x) (let! image := r in put_byte image a v).
Proof.
  intros Ha H Hb. apply map_Forall_insert in Hb as [Hv Hb]; [| exact Ha]. specialize (H Hb) as [Hok Hbad].
  rewrite map_Forall_insert by exact Ha.
  destruct (decide (map_Forall (fun a _ => in_chip a) x)) as [Hx | Hx].
  - destruct (Hok Hx) as (b & -> & Hl & Hi). destruct (in_chip_dec a) as [Hc | Hc].
    + split; [intros _ | intros []; auto]. rewrite put_byte_in by assumption. eexists. split; [reflexivity |].
      split; [rewrite length_insert; exact Hl |]. intros i Hir. unfold in_chip in Hc.
      destruct (Z.eq_dec (CHIP_BASE + i) a) as [<- | Hne].
      * rewrite lookup_insert, decide_True by reflexivity. replace (CHIP_BASE + i - CHIP_BASE) with i by lia.
        apply list_lookup_insert_eq. rewrite Hl. apply Z2Nat.inj_lt; lia.
      * rewrite lookup_insert_ne by congruence. rewrite list_lookup_insert_ne; [apply Hi; exact Hir |].
        intros E. apply Hne. apply Z2Nat.inj in E; lia.
    + rewrite put_byte_out by exact Hc. split; [intros [? _]; contradiction | reflexivity].
  - rewrite (Hbad Hx). split; [intros [_ ?]; contradiction | reflexivity].
Qed.

(** The chip image holds the program's initial memory and zeros elsewhere;
    the writer refuses a program with a byte outside the image, and only such a
    program. *)
Theorem chip_image_exact p :
  bytes (init p) ->
  (map_Forall (fun a _ => in_chip a) (init p) ->
   exists b, write_chip_image p = Ok b /\ length b = Z.to_nat CHIP_IMAGE_BYTES /\
     (forall i, 0 <= i < CHIP_IMAGE_BYTES -> b !! Z.to_nat i = Some (default 0 (init p !! (CHIP_BASE + i))))) /\
  (~ map_Forall (fun a _ => in_chip a) (init p) -> write_chip_image p = Raise AssertionError).
Proof.
  enough (H : chip_state (init p) (write_chip_image p)) by (intros Hb; exact (H Hb)).
  unfold write_chip_image. apply (map_fold_weak_ind (fun r x => chip_state x r)).
  - intros _. split; [intros _ | intros H; contradict H; apply map_Forall_empty].
    eexists. split; [reflexivity |]. split; [apply length_replicate |]. intros i Hi. rewrite lookup_empty.
    apply lookup_replicate_2. apply Z2Nat.inj_lt; lia.
  - intros a v x r Ha H. apply chip_step; assumption.
Qed.

Definition one_byte : Program := poke CHIP_BASE 0x48 (new_program (G := use_chip_layout) "pid7v").
Lemma chip_image_exact_witness :
  (map_Forall (fun a _ => in_chip a) (init one_byte) ->
   exists b, write_chip_image one_byte = Ok b /\ length b = Z.to_nat CHIP_IMAGE_BYTES /\
     (forall i, 0 <= i < CHIP_IMAGE_BYTES -> b !! Z.to_nat i = Some (default 0 (init one_byte !! (CHIP_BASE + i))))) /\
  (~ map_Forall (fun a _ => in_chip a) (init one_byte) -> write_chip_image one_byte = Raise AssertionError).
Proof. apply (chip_image_exact one_byte). apply poke_wf; [lia | apply new_program_wf]. Defined.
