(* ===== verification/LeRuns.v ===== *)
(** * The little-endian images on the reference machine

    [build] returns for every variant; the bench's image, run from reset, leaves every
    expected word; the chip's image reports success, and failure when its table is
    corrupted; the one combination without a handler is the chip layout for the 602. *)
From S2P Require Import Prelude LeProgram LeMachine.
Import le_core_program.

(** ** Parts and benches *)
(** A part as docs/LITTLE_ENDIAN.md has it: PID7v splits misaligned scalars, the
    602 traps strings first. *)
Definition part_of (v : string) (protected : Z -> bool) : le_machine.part :=
  {| le_machine.splits := String.eqb v "pid7v"; le_machine.string_trap := String.eqb v "602"; le_machine.protected := protected |}.

(** The text image as tb_core_le reads it. *)
Definition bench_memory (l : list line) : gmap Z Z :=
  fold_left (fun x ln => match ln with LM a d => le_machine.mput x (seqZ a 4) d | _ => x end) l ∅.
Definition bench_protected (l : list line) : Z -> bool :=
  let ranges := omap (fun ln => match ln with LP lo hi => Some (lo, hi) | _ => None end) l in
  fun a => existsb (fun '(lo, hi) => (lo <=? a) && (a <=? hi)) ranges.
Definition bench_done (l : list line) : le_machine.cpu -> bool :=
  let done := omap (fun ln => match ln with LD a => Some a | _ => None end) l in
  fun c => existsb (fun a => bool_decide (is_Some (le_machine.mem c !! a))) done.
Definition STEPS : nat := Z.to_nat 40000.
Definition bench_run (v : string) (l : list line) : option le_machine.cpu :=
  le_machine.run STEPS (part_of v (bench_protected l)) (bench_done l) (le_machine.reset 0x4000 (bench_memory l)).

Definition word_passes (x : gmap Z Z) (w value mask : Z) : bool := Z.land (le_machine.mget x (seqZ w 4)) mask =? value.
Definition line_passes (x : gmap Z Z) (ln : line) : bool :=
  match ln with LE w value mask => word_passes x w value mask | _ => true end.

(** Instructions up to the final store: docs/LITTLE_ENDIAN_VERIFICATION.md has
    1760 retirements for PID7v, and 3307 and 3238 with the two that follow it. *)
Definition retirements (v : string) : Z :=
  if String.eqb v "pid7v" then 1760 else if String.eqb v "602" then 3236 else 3305.

Definition core_check (v : string) : bool :=
  match build (G := core_layout) v with
  | Ok p => let l := write_image (G := core_layout) p in
            match bench_run v l with
            | Some c => forallb (line_passes (le_machine.mem c)) l
                        && (le_machine.exceptions c =? events p) && (le_machine.steps c =? retirements v)
            | None => false
            end
  | Raise _ => false
  end.

Lemma core_checks : forallb core_check VARIANTS = true.
Proof. vm_cast_no_check (eq_refl true). Qed.

(** C30. The bench's image is right for every variant: the generator returns, its
    image runs from reset on the reference machine to the final store, every expected
    word then holds, the machine took exactly the exceptions the generator logged and
    executed the published number of instructions. *)
Theorem core_image_passes v :
  In v VARIANTS ->
  exists p c, build (G := core_layout) v = Ok p /\ main false v = Ok (Text (write_image (G := core_layout) p)) /\
    bench_run v (write_image (G := core_layout) p) = Some c /\
    (forall w value mask, In (LE w value mask) (write_image (G := core_layout) p) ->
       Z.land (le_machine.mget (le_machine.mem c) (seqZ w 4)) mask = value) /\
    le_machine.exceptions c = events p /\ le_machine.steps c = retirements v.
Proof.
  intros Hv. pose proof core_checks as H. rewrite forallb_forall in H. specialize (H v Hv). unfold core_check in H.
  destruct (build v) as [p | e] eqn:E; [| discriminate].
  destruct (bench_run v (write_image p)) as [c |] eqn:Er; [| discriminate]. bool_prop. exists p, c.
  repeat split; try assumption.
  - assert (Hm : str_in v VARIANTS = true) by (apply existsb_exists; exists v; split; [exact Hv | apply String.eqb_refl]).
    unfold main. rewrite Hm, E. reflexivity.
  - intros w value mask Hin. rewrite forallb_forall in H. specialize (H _ Hin). cbn in H. unfold word_passes in H. bool_prop. exact H.
Qed.

Lemma core_image_passes_witness :
  exists p c, build (G := core_layout) "602" = Ok p /\ main false "602" = Ok (Text (write_image (G := core_layout) p)) /\
    bench_run "602" (write_image (G := core_layout) p) = Some c /\
    (forall w value mask, In (LE w value mask) (write_image (G := core_layout) p) ->
       Z.land (le_machine.mget (le_machine.mem c) (seqZ w 4)) mask = value) /\
    le_machine.exceptions c = events p /\ le_machine.steps c = 3236.
Proof. apply (core_image_passes "602"). cbn. tauto. Defined.

(** ** The chip *)
(** From the hard reset vector to the store in the mailbox. *)
Definition HARD_RESET : Z := 0xfff00100.
Definition MAILBOX : Z := 0xfff3ff00.
Definition chip_run (v : string) (x : gmap Z Z) : option le_machine.cpu :=
  le_machine.run STEPS (part_of v (fun _ => false)) (fun c => bool_decide (is_Some (le_machine.mem c !! MAILBOX)))
    (le_machine.reset HARD_RESET x).
Definition mailbox (c : le_machine.cpu) : Z := le_machine.mget (le_machine.mem c) (seqZ MAILBOX 4).

(** One bit of the expected value of table entry [k], flipped. *)
Definition corrupt (k : Z) (p : Program) : gmap Z Z :=
  let a := TABLE + 12 * k + 4 in <[a := Z.lxor (default 0 (init p !! a)) 0x80]> (init p).
Definition last_entry (p : Program) : Z := Z.of_nat (length (expected_words p)) - 1.
Definition fails (v : string) (x : gmap Z Z) : bool :=
  match chip_run v x with Some c => mailbox c =? 2 | None => false end.

Definition CHIP_VARIANTS : list string := ["pid7v"; "pid6"; "603"]%string.
(** Instructions up to the mailbox: docs/LITTLE_ENDIAN_VERIFICATION.md has 10301 for
    PID7v. *)
Definition chip_retirements (v : string) : Z := if String.eqb v "pid7v" then 10301 else 16481.
Definition in_image (p : Program) : bool :=
  forallb (fun ab => in_range 0 CHIP_IMAGE_BYTES (fst ab - CHIP_BASE)) (map_to_list (init p)).
Definition chip_check (v : string) : bool :=
  match build (G := use_chip_layout) v with
  | Ok p => in_image p
            && match chip_run v (init p) with
               | Some c => (mailbox c =? 1) && (le_machine.exceptions c =? events p) && (le_machine.steps c =? chip_retirements v)
               | None => false
               end
            && fails v (corrupt 0 p) && fails v (corrupt (last_entry p) p)
  | Raise _ => false
  end.

Lemma in_image_spec p : in_image p = true -> forall a b, init p !! a = Some b -> CHIP_BASE <= a < CHIP_BASE + CHIP_IMAGE_BYTES.
Proof.
  unfold in_image. rewrite forallb_forall. intros H a b E. apply elem_of_map_to_list, list_elem_of_In in E.
  apply H, in_range_iff in E. cbn [fst] in E. lia.
Qed.
Lemma fails_spec v x : fails v x = true -> exists c, chip_run v x = Some c /\ mailbox c = 2.
Proof. unfold fails. destruct (chip_run v x) as [c |]; [| discriminate]. intros H. bool_prop. eauto. Qed.

Lemma chip_checks : forallb chip_check CHIP_VARIANTS = true.
Proof. vm_cast_no_check (eq_refl true). Qed.

(** C31. The self-checking chip image is right for PID7v, PID6 and the 603: the
    generator returns, every initial byte lies in the image, and run from the hard
    reset vector the image puts 1 in the mailbox after the exceptions the generator
    logged; with one bit of the first or of the last table entry flipped it puts 2
    there. *)
Theorem chip_image_passes v :
  In v CHIP_VARIANTS ->
  exists p c, build (G := use_chip_layout) v = Ok p /\
    (forall a b, init p !! a = Some b -> CHIP_BASE <= a < CHIP_BASE + CHIP_IMAGE_BYTES) /\
    chip_run v (init p) = Some c /\ mailbox c = 1 /\ le_machine.exceptions c = events p /\ le_machine.steps c = chip_retirements v /\
    (forall k, k = 0 \/ k = last_entry p -> exists c', chip_run v (corrupt k p) = Some c' /\ mailbox c' = 2).
Proof.
  intros Hv. pose proof chip_checks as H. rewrite forallb_forall in H. specialize (H v Hv). unfold chip_check in H.
  destruct (build v) as [p | e] eqn:E; [| discriminate].
  destruct (chip_run v (init p)) as [c |] eqn:Er; [| bool_prop; discriminate]. bool_prop. exists p, c.
  split; [reflexivity |]. split; [apply in_image_spec; assumption |]. repeat (split; [assumption |]).
  intros k [-> | ->]; apply fails_spec; assumption.
Qed.

Lemma chip_image_passes_witness :
  exists p c, build (G := use_chip_layout) "603" = Ok p /\
    (forall a b, init p !! a = Some b -> CHIP_BASE <= a < CHIP_BASE + CHIP_IMAGE_BYTES) /\
    chip_run "603" (init p) = Some c /\ mailbox c = 1 /\ le_machine.exceptions c = events p /\ le_machine.steps c = 16481 /\
    (forall k, k = 0 \/ k = last_entry p -> exists c', chip_run "603" (corrupt k p) = Some c' /\ mailbox c' = 2).
Proof. apply (chip_image_passes "603"). cbn. tauto. Defined.

(** ** The chip layout for the 602 *)
Definition run_602 (p : Program) : option le_machine.cpu :=
  le_machine.run STEPS (part_of "602" (fun _ => false)) (fun c => le_machine.pc c =? 0xfff01600) (le_machine.reset HARD_RESET (init p)).
Definition chip_602_check : bool :=
  match build (G := use_chip_layout) "602" with
  | Ok p => match run_602 p with
            | Some c => (le_machine.pc c =? 0xfff01600)
                        && match le_machine.step (part_of "602" (fun _ => false)) c with Some _ => false | None => true end
                        && forallb (fun i => bool_decide (init p !! (0xfff01600 + i) = None)) (seqZ 0 4)
            | None => false
            end
  | Raise _ => false
  end.
Lemma chip_602_checks : chip_602_check = true.
Proof. vm_cast_no_check (eq_refl true). Qed.

(** The chip layout installs no handler at 0x1600, the vector the 602 takes for a
    string instruction, and its program has string instructions: the image for the
    602 builds, and its run ends at the missing handler. *)
Theorem chip_602_has_no_handler :
  exists p c, build (G := use_chip_layout) "602" = Ok p /\ run_602 p = Some c /\ le_machine.pc c = 0xfff01600 /\
    le_machine.step (part_of "602" (fun _ => false)) c = None /\
    (forall i, 0 <= i < 4 -> init p !! (0xfff01600 + i) = None).
Proof.
  pose proof chip_602_checks as H. unfold chip_602_check in H.
  destruct (build "602") as [p | e]; [| discriminate]. destruct (run_602 p) as [c |] eqn:Er; [| discriminate].
  bool_prop. exists p, c. split; [reflexivity |]. split; [exact Er |]. split; [assumption |].
  split; [destruct (le_machine.step _ c); [discriminate | reflexivity] |].
  intros i Hi. match goal with Hf : forallb _ _ = true |- _ => rewrite forallb_forall in Hf; specialize (Hf i) as Hn end.
  apply bool_decide_eq_true in Hn; [exact Hn |]. apply list_elem_of_In, elem_of_seqZ. lia.
Qed.
