(* ===== verification/FpuProgram.v ===== *)
(** * Floating-point core program ([sim/tools/fpu_core_program.py])

    The generator of the program that exercises the FPU attached to the core: the
    emission of code, data and expected words, the directed sections, the random
    enabled-exception cases, the latency section, and the images it writes. The
    module's globals, which the [use_] functions rebind, are a class. The methods the
    602 program overrides are a class of their own, so that the sections it shares
    with this program are written once. *)
From stdpp Require Import sorting.
From S2P Require Import Prelude PyRandom FpReference FpPpc FpStatus FpCases.

Module fpu_core_program.
Import enabled_vectors production_vectors.

(** ** Constants *)
Definition PROT_LO : Z := 0x7F000.
Definition PROT_HI : Z := 0x7FFFC.
Definition CHANGED_LO : Z := 0x7E000.
Definition CHANGED_HI : Z := 0x7EFFC.
Definition TEA_LO : Z := 0x7D000.
Definition TEA_HI : Z := 0x7DFFC.
Definition CHIP_BASE : Z := 0xfff00000.
Definition CHIP_IMAGE_BYTES : Z := 0x10000.
Definition MSR_FP : Z := 0x2000.
Definition MSR_IP : Z := 0x40.
Definition FE0 : Z := 0x800.
Definition FE1 : Z := 0x100.
Definition SRR1_ILLEGAL : Z := 0x00080000.
Definition SRR1_FP : Z := 0x00100000.
Definition SRR1_NEXT : Z := 0x00010000.
Definition NOP : Z := Z.shiftl 24 26.
Definition VECTORS : list Z := [0x200; 0x300; 0x600; 0x700; 0x800; 0x1200].
Definition MSR_ME : Z := 0x1000.
Definition MSR_DR : Z := 0x10.
Definition SRR1_TEA : Z := 0x00040000.
Definition ONE : Z := 0x3ff0000000000000.
Definition TWO : Z := 0x4000000000000000.
Definition HALF : Z := 0x3fe0000000000000.
Definition QNAN : Z := 0x7ff8000000001234.
Definition SNAN : Z := 0x7ff0000000000042.
Definition PINF : Z := 0x7ff0000000000000.
Definition NINF : Z := 0xfff0000000000000.
Definition NZERO : Z := Z.shiftl 1 63.
Definition EXCEPTION_BITS : list Z := map (fun b => 31 - b) [3; 4; 5; 6; 7; 8; 9; 10; 11; 12; 21; 22; 23].
Definition VX_BITS : list Z := map (fun b => 31 - b) [7; 8; 9; 10; 11; 12; 21; 22; 23].
(** name, latency, initiation interval *)
Definition TABLE_6_5 : dict (Z * Z) :=
  [("fadd", (3, 1)); ("fadds", (3, 1)); ("fmul", (4, 2)); ("fmuls", (3, 1)); ("fmadd", (4, 2)); ("fmadds", (3, 1));
   ("fdiv", (33, 33)); ("fdivs", (18, 18)); ("fres", (18, 18)); ("frsqrte", (3, 1)); ("fsel", (3, 1)); ("fmr", (3, 1));
   ("fcmpu", (3, 1)); ("frsp", (3, 1)); ("fctiw", (3, 1)); ("mffs", (3, 3)); ("mtfsf", (3, 3)); ("mtfsfi", (3, 3));
   ("mcrfs", (3, 3))]%string.
Definition LOADS_BEHIND_STORES : Z := 4.
Definition SYNC : Z := Z.lor (Z.shiftl 31 26) (Z.shiftl 598 1).

(** [d.update(e)] *)
Fixpoint dict_set {V} (d : dict V) (k : string) (v : V) : dict V :=
  match d with
  | [] => [(k, v)]
  | (k', v') :: d' => if String.eqb k k' then (k', v) :: d' else (k', v') :: dict_set d' k v
  end.
Definition update {V} (d e : dict V) : dict V := fold_left (fun d kv => dict_set d (fst kv) (snd kv)) e d.
(** [d[k]] *)
Definition key {V} (d : dict V) (k : string) : result V :=
  match dict_get d k with Some v => Ok v | None => Raise KeyError end.

(** ** The module's globals *)
Class Globals : Type := {
  CHIP : bool; RESET_PC : Z; DATA : Z; RES : Z; LOG : Z; DONE : Z; MACHINE_CHECK : bool;
  LATENCY : dict Z; MEMORY_SPACING : dict Z; PIPE_MEM : bool; DUAL_WRITE : bool; BASE_SNOOP : bool
}.
Definition module_globals : Globals :=
  {| CHIP := false; RESET_PC := 0x1000; DATA := 0x40000; RES := 0x50000; LOG := 0x60000; DONE := 0x70000;
     MACHINE_CHECK := false;
     LATENCY := update (map (fun '(name, (lat, _)) => (name, lat + 1)) TABLE_6_5)
       [("lfd", 6); ("lfs", 6); ("stfd", 7); ("stfs", 7); ("stfiwx", 7); ("add", 2); ("lwz", 5); ("stw", 5)]%string;
     MEMORY_SPACING :=
       [("lfd-issue", 15); ("lfd-retire", 15); ("lfs-issue", 15); ("lfs-retire", 15); ("stfd-issue", 18);
        ("stfd-retire", 18); ("stfs-issue", 18); ("stfs-retire", 18); ("fadd-stfd", 6); ("stw-retire", 12)]%string;
     PIPE_MEM := false; DUAL_WRITE := false; BASE_SNOOP := false |}.

Definition use_chip_layout (g : Globals) : Globals :=
  {| CHIP := true; RESET_PC := 0xfff02000; DATA := 0xfff0c000; RES := 0xfff10000; LOG := 0xfff20000; DONE := 0xfff3ff00;
     MACHINE_CHECK := @MACHINE_CHECK g; LATENCY := @LATENCY g; MEMORY_SPACING := @MEMORY_SPACING g;
     PIPE_MEM := @PIPE_MEM g; DUAL_WRITE := @DUAL_WRITE g; BASE_SNOOP := @BASE_SNOOP g |}.
Definition with_tables (lat spacing : dict Z) (g : Globals) : Globals :=
  {| CHIP := @CHIP g; RESET_PC := @RESET_PC g; DATA := @DATA g; RES := @RES g; LOG := @LOG g; DONE := @DONE g;
     MACHINE_CHECK := @MACHINE_CHECK g; LATENCY := lat; MEMORY_SPACING := spacing;
     PIPE_MEM := @PIPE_MEM g; DUAL_WRITE := @DUAL_WRITE g; BASE_SNOOP := @BASE_SNOOP g |}.
Definition with_switches (mc pipe dual snoop : bool) (g : Globals) : Globals :=
  {| CHIP := @CHIP g; RESET_PC := @RESET_PC g; DATA := @DATA g; RES := @RES g; LOG := @LOG g; DONE := @DONE g;
     MACHINE_CHECK := mc; LATENCY := @LATENCY g; MEMORY_SPACING := @MEMORY_SPACING g;
     PIPE_MEM := pipe; DUAL_WRITE := dual; BASE_SNOOP := snoop |}.
Definition use_lsu_pipe (split pipe_mem : bool) (g : Globals) : Globals :=
  let lat := update (@LATENCY g)
    [("lwz", 3); ("stw", 3); ("lfd", 3); ("lfs", 3); ("stfd", 3); ("stfs", 3); ("stfiwx", 3)]%string in
  let load := if pipe_mem then 3 else 6 in
  let issue := if pipe_mem then 3 else 4 in
  let spacing := update (@MEMORY_SPACING g)
    [("lfd-issue", issue); ("lfd-retire", load); ("lfs-issue", issue); ("lfs-retire", load); ("stfd-issue", 3);
     ("stfd-retire", 3); ("stfs-issue", 3); ("stfs-retire", 3); ("fadd-stfd", 2); ("stw-retire", 3)]%string in
  if split then
    with_tables (update lat [("lfd", 5); ("stfd", 5)]%string)
      (update spacing [("lfd-issue", 12); ("lfd-retire", 12); ("stfd-issue", 14); ("stfd-retire", 15);
                       ("fadd-stfd", 5)]%string) g
  else with_tables lat spacing g.
Definition use_machine_check (on : bool) (g : Globals) : Globals :=
  with_switches on (@PIPE_MEM g) (@DUAL_WRITE g) (@BASE_SNOOP g) g.
Definition use_pipe_mem (g : Globals) : Globals :=
  with_switches (@MACHINE_CHECK g) true (@DUAL_WRITE g) (@BASE_SNOOP g) g.
Definition use_dual_write (g : Globals) : Globals :=
  with_switches (@MACHINE_CHECK g) (@PIPE_MEM g) true (@BASE_SNOOP g) g.
Definition use_base_snoop (g : Globals) : Globals :=
  with_switches (@MACHINE_CHECK g) (@PIPE_MEM g) (@DUAL_WRITE g) true g.
Definition use_split_doublewords (g : Globals) : Globals :=
  with_tables (update (@LATENCY g) [("lfd", 8); ("stfd", 9)]%string)
    (update (@MEMORY_SPACING g) [("lfd-issue", 21); ("lfd-retire", 21); ("stfd-issue", 24); ("stfd-retire", 24);
                                 ("fadd-stfd", 8)]%string) g.

(** ** Words *)
Definition d_form (op rt ra d : Z) : Z :=
  ors [Z.shiftl op 26; Z.shiftl rt 21; Z.shiftl ra 16; Z.land d 0xffff].
Definition x_form (op rt ra rb xo rc : Z) : Z :=
  ors [Z.shiftl op 26; Z.shiftl rt 21; Z.shiftl ra 16; Z.shiftl rb 11; Z.shiftl xo 1; rc].
Definition a_form (op frt fra frb frc xo rc : Z) : Z :=
  ors [Z.shiftl op 26; Z.shiftl frt 21; Z.shiftl fra 16; Z.shiftl frb 11; Z.shiftl frc 6; Z.shiftl xo 1; rc].

(** [fpscr >> s & fpscr >> e & 1] *)
Definition recompute (fpscr : Z) : Z :=
  let vx := existsb (fun b => bit_at fpscr b) VX_BITS in
  let fpscr := put_field fpscr 1 29 (Z.b2z vx) in
  let fex := existsb (fun '(s, e) => enabled_cause fpscr s e) [(29, 7); (28, 6); (27, 5); (26, 4); (25, 3)] in
  put_field fpscr 1 30 (Z.b2z fex).

Definition narrow (bits : Z) : Z :=
  let sign := Z.shiftr bits 63 in
  let exponent := Z.land (Z.shiftr bits 52) 0x7ff in
  if exponent =? 0 then Z.shiftl sign 31
  else Z.lor (Z.lor (Z.shiftl sign 31) (Z.shiftl (exponent - 1023 + 127) 23)) (Z.land (Z.shiftr bits 29) 0x7fffff).

(** A Python float is its binary64 word: [flt n d] is the float nearest to [n/d],
    [two_to n] is [2.0 ** n]. *)
Definition flt (n d : Z) : Z :=
  reference.p_bits (reference.pack_ratio (Z.abs n) d 0 (Z.b2z (n <? 0)) 0 reference.B64).
Definition two_to (n : Z) : Z := reference.p_bits (reference.pack 1 n 0 0 reference.B64).
(** [struct.pack('>f', value)], a finite value that fits, and [struct.pack('>d', value)]. *)
Definition f32 (value : Z) : Z :=
  reference.bits (reference.calc_convert (reference.decode value reference.B64) 0 reference.B64 reference.B32).
Definition f64 (value : Z) : Z := value.

(** ** The program *)
Record event_record : Type := { vector : Z; srr0 : Z; srr1 : option Z; dar : option Z; dsisr : option Z }.
Inductive stage : Type := Issue | Retire.

Record Program : Type := {
  words : gmap Z Z;
  pc : Z;
  expects : list (Z * Z * Z);       (* address, value, mask *)
  probes : list (Z * Z);            (* a dictionary, in insertion order *)
  spacings : list (stage * Z * Z * Z);
  data_next : Z;
  res_next : Z;
  log : list event_record;
  fpscr : Z;
  cr : Z;
  msr : Z
}.

(** Assignments. *)
Definition set_words (x : gmap Z Z) (p : Program) : Program :=
  {| words := x; pc := pc p; expects := expects p; probes := probes p; spacings := spacings p; data_next := data_next p;
     res_next := res_next p; log := log p; fpscr := fpscr p; cr := cr p; msr := msr p |}.
Definition set_pc (v : Z) (p : Program) : Program :=
  {| words := words p; pc := v; expects := expects p; probes := probes p; spacings := spacings p; data_next := data_next p;
     res_next := res_next p; log := log p; fpscr := fpscr p; cr := cr p; msr := msr p |}.
Definition set_expects (l : list (Z * Z * Z)) (p : Program) : Program :=
  {| words := words p; pc := pc p; expects := l; probes := probes p; spacings := spacings p; data_next := data_next p;
     res_next := res_next p; log := log p; fpscr := fpscr p; cr := cr p; msr := msr p |}.
Definition set_probes (l : list (Z * Z)) (p : Program) : Program :=
  {| words := words p; pc := pc p; expects := expects p; probes := l; spacings := spacings p; data_next := data_next p;
     res_next := res_next p; log := log p; fpscr := fpscr p; cr := cr p; msr := msr p |}.
Definition set_spacings (l : list (stage * Z * Z * Z)) (p : Program) : Program :=
  {| words := words p; pc := pc p; expects := expects p; probes := probes p; spacings := l; data_next := data_next p;
     res_next := res_next p; log := log p; fpscr := fpscr p; cr := cr p; msr := msr p |}.
Definition set_data_next (v : Z) (p : Program) : Program :=
  {| words := words p; pc := pc p; expects := expects p; probes := probes p; spacings := spacings p; data_next := v;
     res_next := res_next p; log := log p; fpscr := fpscr p; cr := cr p; msr := msr p |}.
Definition set_res_next (v : Z) (p : Program) : Program :=
  {| words := words p; pc := pc p; expects := expects p; probes := probes p; spacings := spacings p; data_next := data_next p;
     res_next := v; log := log p; fpscr := fpscr p; cr := cr p; msr := msr p |}.
Definition set_log (l : list event_record) (p : Program) : Program :=
  {| words := words p; pc := pc p; expects := expects p; probes := probes p; spacings := spacings p; data_next := data_next p;
     res_next := res_next p; log := l; fpscr := fpscr p; cr := cr p; msr := msr p |}.
Definition set_fpscr (v : Z) (p : Program) : Program :=
  {| words := words p; pc := pc p; expects := expects p; probes := probes p; spacings := spacings p; data_next := data_next p;
     res_next := res_next p; log := log p; fpscr := v; cr := cr p; msr := msr p |}.
Definition set_cr (v : Z) (p : Program) : Program :=
  {| words := words p; pc := pc p; expects := expects p; probes := probes p; spacings := spacings p; data_next := data_next p;
     res_next := res_next p; log := log p; fpscr := fpscr p; cr := v; msr := msr p |}.
Definition set_msr (v : Z) (p : Program) : Program :=
  {| words := words p; pc := pc p; expects := expects p; probes := probes p; spacings := spacings p; data_next := data_next p;
     res_next := res_next p; log := log p; fpscr := fpscr p; cr := cr p; msr := v |}.

(** A class of programs: its [Program] part. *)
Class Extends (P : Type) : Type := { base : P -> Program; on_base : (Program -> Program) -> P -> P }.
#[global] Instance program_itself : Extends Program := {| base := fun p => p; on_base := fun f => f |}.

(** ** The methods every program has *)
Section Methods.
Context {P : Type} {E : Extends P}.
Let m : Type -> Type := method P.

Definition set_ (f : Program -> Program) : m unit := m_update (on_base f).
Definition get_ {A} (f : Program -> A) : m A := m_view (fun p => f (base p)).

(** Statements in order. *)
Fixpoint block (l : list (m unit)) : m unit :=
  match l with [] => m_ret tt | s :: l' => do! _ := s in block l' end.
Definition skip {A} (s : m A) : m unit := do! _ := s in m_ret tt.
(** [[f(x) for x in l]] *)
Fixpoint m_map {A B} (f : A -> m B) (l : list A) : m (list B) :=
  match l with [] => m_ret [] | a :: l' => do! b := f a in do! bs := m_map f l' in m_ret (b :: bs) end.

Definition emit (insn : Z) : m Z :=
  do! at_ := get_ pc in
  do! _ := set_ (fun p => set_words (<[at_ := Z.land insn 0xffffffff]> (words p)) p) in
  do! _ := set_ (set_pc (at_ + 4)) in
  m_ret at_.
Definition emit_ (insn : Z) : m unit := skip (emit insn).
Definition li32 (r value : Z) : m unit :=
  block [emit_ (d_form 15 r 0 (Z.shiftr value 16)); emit_ (d_form 24 r r (Z.land value 0xffff))].
Definition word_at (addr v : Z) : m unit := set_ (fun p => set_words (<[addr := v]> (words p)) p).
Definition data (values64 : list Z) : m Z :=
  do! addr := get_ data_next in
  do! _ := m_each values64 (fun v =>
    do! next := get_ data_next in
    block [word_at next (Z.shiftr v 32); word_at (next + 4) (Z.land v 0xffffffff); set_ (set_data_next (next + 8))]) in
  m_ret addr.
Definition expect_masked (addr value mask : Z) : m unit :=
  set_ (fun p => set_expects (expects p ++ [(addr, Z.land value 0xffffffff, Z.land mask 0xffffffff)]) p).
Definition expect (addr value : Z) : m unit := expect_masked addr value 0xffffffff.
Definition result_slot (words_ : Z) : m Z :=
  do! addr := get_ res_next in
  do! _ := set_ (set_res_next (addr + 4 * words_)) in
  m_ret addr.
Definition mtmsr (value : Z) : m unit :=
  block [li32 9 value; emit_ (x_form 31 9 0 0 146 0); set_ (set_msr value)].
Definition event_with (vector_ srr0_ : Z) (srr1_ dar_ dsisr_ : option Z) : m unit :=
  do! _ := set_ (fun p => set_log (log p ++ [{| vector := vector_; srr0 := srr0_; srr1 := srr1_; dar := dar_; dsisr := dsisr_ |}]) p) in
  match srr1_ with
  | Some v => m_when ((vector_ =? 0x700) && truthy (Z.land v SRR1_FP))
                (set_ (fun p => set_msr (Z.land (msr p) (Z.lnot (Z.lor FE0 FE1))) p))
  | None => m_ret tt
  end.
Definition event (vector_ srr0_ srr1_ : Z) : m unit := event_with vector_ srr0_ (Some srr1_) None None.
Definition data_event (vector_ srr0_ srr1_ dar_ dsisr_ : Z) : m unit :=
  event_with vector_ srr0_ (Some srr1_) (Some dar_) (Some dsisr_).

Definition store_fpr_masked (fr value mask64 : Z) : m unit :=
  do! addr := result_slot 2 in
  block [li32 21 addr; emit_ (d_form 54 fr 21 0); expect_masked addr (Z.shiftr value 32) (Z.shiftr mask64 32);
         expect_masked (addr + 4) value mask64].
Definition store_fpr (fr value : Z) : m unit := store_fpr_masked fr value (Z.shiftl 1 64 - 1).
Definition store_gpr (r value : Z) : m unit :=
  do! addr := result_slot 1 in
  block [li32 21 addr; emit_ (d_form 36 r 21 0); expect addr value].
Definition check_cr : m unit :=
  do! _ := emit (x_form 31 8 0 0 19 0) in
  do! v := get_ cr in
  store_gpr 8 v.
Definition set_cr_field (field_ value : Z) : m unit :=
  let shift := 28 - 4 * field_ in
  set_ (fun p => set_cr (Z.lor (Z.land (cr p) (Z.lnot (Z.shiftl 0xf shift))) (Z.shiftl (Z.land value 0xf) shift)) p).
Definition load_fpr_at (fr value : Z) : m Z :=
  do! addr := data [value] in
  do! _ := li32 5 addr in
  do! _ := emit (d_form 50 fr 5 0) in
  m_ret addr.
Definition load_fpr (fr value : Z) : m unit := skip (load_fpr_at fr value).
(** [p.spacings.append((kind, pcs[i], pcs[j], cycles))] *)
Definition spacing (kind : stage) (pcs : list Z) (i j cycles : Z) : m unit :=
  do! a := m_lift (py_get pcs i) in
  do! b := m_lift (py_get pcs j) in
  set_ (fun p => set_spacings (spacings p ++ [(kind, a, b, cycles)]) p).
(** [p.probes[at] = cycles] *)
Fixpoint probe_set (l : list (Z * Z)) (at_ cycles : Z) : list (Z * Z) :=
  match l with
  | [] => [(at_, cycles)]
  | (a, c) :: l' => if a =? at_ then (a, cycles) :: l' else (a, c) :: probe_set l' at_ cycles
  end.
Definition probe (at_ cycles : Z) : m unit := set_ (fun p => set_probes (probe_set (probes p) at_ cycles) p).
(** [p.fpscr = f(p.fpscr)] *)
Definition fpscr_set (f : Z -> Z) : m unit := set_ (fun p => set_fpscr (f (fpscr p)) p).
Definition msr_set (f : Z -> Z) : m unit := set_ (fun p => set_msr (f (msr p)) p).
(** [p.mtmsr(p.msr | v)], [p.mtmsr(p.msr & ~v)] *)
Definition msr_on (v : Z) : m unit := do! x := get_ msr in mtmsr (Z.lor x v).
Definition msr_off (v : Z) : m unit := do! x := get_ msr in mtmsr (Z.land x (Z.lnot v)).
(** [at = p.emit(insn); p.event(vector, at, p.msr | cause)] and with DAR and DSISR *)
Definition faults (vector_ insn cause : Z) : m unit :=
  do! at_ := emit insn in
  do! v := get_ msr in
  event vector_ at_ (Z.lor v cause).
Definition data_faults (vector_ insn dar_ dsisr_ : Z) : m unit :=
  do! at_ := emit insn in
  do! v := get_ msr in
  data_event vector_ at_ v dar_ dsisr_.
End Methods.

(** The methods a subclass overrides. *)
Class Virtual (P : Type) {E : Extends P} : Type := {
  clear_fpscr : method P unit;
  check_fpscr_masked : Z -> method P unit
}.
Definition check_fpscr {P} {E : Extends P} {V : Virtual P} : method P unit := check_fpscr_masked 0xffffffff.
#[global] Instance program_methods : Virtual Program :=
  {| clear_fpscr := block [emit_ (ors [Z.shiftl 63 26; Z.shiftl 0xff 17; Z.shiftl 31 11; Z.shiftl 711 1]);
                           fpscr_set (fun _ => 0)];
     check_fpscr_masked := fun mask =>
       do! _ := emit (x_form 63 30 0 0 583 0) in
       do! v := get_ fpscr in
       store_fpr_masked 30 v mask |}.

(** ** Exception handlers *)
Definition clear_fe_if_fp : list Z :=
  [x_form 31 29 (Z.land 275 31) (Z.shiftr 275 5) 467 0;
   x_form 31 29 27 0 339 0;
   ors [Z.shiftl 21 26; Z.shiftl 29 21; Z.shiftl 26 16; Z.shiftl 12 11; Z.shiftl 31 6; Z.shiftl 31 1];
   d_form 7 26 26 (Z.lor FE0 FE1);
   x_form 31 29 29 26 60 0;
   x_form 31 29 27 0 467 0;
   x_form 31 29 (Z.land 275 31) (Z.shiftr 275 5) 339 0].

(** [for insn in seq: p.words[pc] = insn; pc += 4] *)
Definition put_code {P} {E : Extends P} (at_ : Z) (seq : list Z) : method P unit :=
  m_each (enumerate 0 seq) (fun '(i, insn) => word_at (at_ + 4 * i) insn).
Definition handler_code (vector_ : Z) : list Z :=
  flat_map (fun '(spr, off) => [x_form 31 26 (Z.land spr 31) (Z.shiftr spr 5) 339 0; d_form 36 26 29 off])
    [(26, 0); (27, 4); (19, 8); (18, 12)]
  ++ [d_form 14 26 0 vector_; d_form 36 26 29 16; d_form 14 29 29 20]
  ++ (if vector_ =? 0x700 then clear_fe_if_fp else [])
  ++ (if vector_ =? 0x800
      then [x_form 31 26 27 0 339 0; d_form 24 26 26 MSR_FP; x_form 31 26 27 0 467 0]
      else [x_form 31 26 26 0 339 0; d_form 14 26 26 4; x_form 31 26 26 0 467 0])
  ++ [x_form 19 0 0 0 50 0].
Definition handlers_at {P} {E : Extends P} (vectors : list Z) : method P unit :=
  m_each vectors (fun v => put_code (Z.lor 0xfff00000 v) (handler_code v)).
Definition handlers : method Program unit := handlers_at VECTORS.

Definition VIRT_OFFSET : Z := 0xeff00000.
Definition miss_code (vector_ : Z) : list Z :=
  [x_form 31 1 (Z.land 976 31) (Z.shiftr 976 5) 339 0;
   x_form 31 0 26 0 339 0; d_form 36 0 29 0;
   x_form 31 0 27 0 339 0; d_form 36 0 29 4;
   d_form 36 1 29 8; d_form 14 0 0 0; d_form 36 0 29 12;
   d_form 14 0 0 vector_; d_form 36 0 29 16;
   d_form 14 29 29 20;
   d_form 15 2 0 (Z.shiftr VIRT_OFFSET 16); x_form 31 2 1 2 266 0;
   ors [Z.shiftl 21 26; Z.shiftl 2 21; Z.shiftl 2 16; Z.shiftl 0 11; Z.shiftl 0 6; Z.shiftl 19 1];
   d_form 24 2 2 0x182;
   x_form 31 2 (Z.land 982 31) (Z.shiftr 982 5) 467 0;
   x_form 31 0 0 1 978 0;
   x_form 31 0 27 0 339 0;
   ors [Z.shiftl 31 26; Z.shiftl 0 21; Z.shiftl 0x80 12; Z.shiftl 144 1];
   x_form 19 0 0 0 50 0].
Definition miss_handlers : method Program unit :=
  m_each [0x1100; 0x1200] (fun v => put_code (Z.lor 0xfff00000 v) (miss_code v)).

Definition dsisr_d (insn : Z) : Z :=
  ors [Z.shiftl (Z.land (Z.shiftr insn 26) 1) 14; Z.shiftl (Z.land (Z.shiftr insn 27) 0xf) 10;
       Z.shiftl (Z.land (Z.shiftr insn 21) 31) 5; Z.land (Z.shiftr insn 16) 31].
Definition dsisr_x (insn : Z) : Z :=
  ors [Z.shiftl (Z.land (Z.shiftr insn 1) 3) 15; Z.shiftl (Z.land (Z.shiftr insn 6) 1) 14;
       Z.shiftl (Z.land (Z.shiftr insn 7) 0xf) 10; Z.shiftl (Z.land (Z.shiftr insn 21) 31) 5; Z.land (Z.shiftr insn 16) 31].

(** ** The sections *)
Section Sections.
Context {G : Globals}.
Let m : Type -> Type := method Program.

(** [p.data_next = (p.data_next + k) & ~k] and the same of [res_next] *)
Definition align_data (k : Z) : m unit := set_ (fun p => set_data_next (Z.land (data_next p + k) (Z.lnot k)) p).
Definition align_res (k : Z) : m unit := set_ (fun p => set_res_next (Z.land (res_next p + k) (Z.lnot k)) p).

Definition new_program : Program :=
  {| words := ∅; pc := RESET_PC; expects := []; probes := []; spacings := []; data_next := DATA; res_next := RES;
     log := []; fpscr := 0; cr := 0; msr := MSR_IP |}.

Definition tlb_miss : m unit :=
  do! _ := load_fpr 1 ONE in
  do! src := data [0x3ff8000000000000] in
  do! dst := result_slot 2 in
  do! _ := block [li32 5 (src - VIRT_OFFSET); li32 6 (dst - VIRT_OFFSET); li32 7 0x123;
                  emit_ (ors [Z.shiftl 31 26; Z.shiftl 7 21; Z.shiftl (Z.shiftr (src - VIRT_OFFSET) 28) 16; Z.shiftl 210 1]);
                  emit_ SYNC; msr_on 0x10] in
  do! at_ := emit (d_form 50 24 5 0) in
  do! _ := event_with 0x1100 at_ None (Some (src - VIRT_OFFSET)) (Some 0) in
  do! _ := emit (a_form 63 24 24 1 0 21 0) in
  do! at_ := emit (d_form 54 24 6 0) in
  do! _ := event_with 0x1200 at_ None (Some (dst - VIRT_OFFSET)) (Some 0) in
  block [msr_off 0x10; expect dst 0x40040000; expect (dst + 4) 0; fpscr_set (fun _ => 0x4000); check_fpscr; clear_fpscr].

Definition uncached_doublewords : m unit :=
  let value := 0x400921fb54442d18 in
  do! _ := align_data 31 in
  do! src := data [value; 0; 0; 0] in
  do! _ := align_res 31 in
  do! dst := result_slot 8 in
  block [li32 5 src; li32 6 dst;
         emit_ (x_form 31 7 (Z.land 1008 31) (Z.shiftr 1008 5) 339 0);
         emit_ (d_form 26 7 8 0x4000);
         emit_ (x_form 31 8 (Z.land 1008 31) (Z.shiftr 1008 5) 467 0);
         emit_ (d_form 50 24 5 0);
         emit_ (d_form 54 24 6 0);
         emit_ (x_form 31 7 (Z.land 1008 31) (Z.shiftr 1008 5) 467 0);
         expect dst (Z.shiftr value 32); expect (dst + 4) (Z.land value 0xffffffff)].

(** Illegal outranks FP unavailable, which the handler enables. *)
Definition unavailable : m unit :=
  do! _ := block [li32 29 LOG; li32 20 DATA; li32 31 PROT_LO; li32 30 DONE] in
  do! _ := m_when CHIP
    (block [emit_ (x_form 31 5 (Z.land 1008 31) (Z.shiftr 1008 5) 339 0);
            emit_ (d_form 24 5 5 0x4000);
            emit_ (x_form 31 5 (Z.land 1008 31) (Z.shiftr 1008 5) 467 0);
            emit_ (x_form 19 0 0 0 150 0)]) in
  do! zero := data [0] in
  block [faults 0x700 (a_form 63 1 1 1 1 21 0) SRR1_ILLEGAL;
         faults 0x700 (a_form 63 1 0 1 0 22 0) SRR1_ILLEGAL;
         li32 5 zero;
         faults 0x800 (d_form 50 31 5 0) 0;
         msr_set (fun v => Z.lor v MSR_FP);
         clear_fpscr; check_fpscr].

(** [name.startswith('stfd')], ['u' in name[4:]] *)
Definition is_double (name : string) : bool := String.prefix "stfd" name.
Definition has_update (name : string) : bool := match String.index 4 "u" name with Some _ => true | None => false end.
Definition STORE_FORMS : list (Z * string) :=
  [(663, "stfsx"); (695, "stfsux"); (727, "stfdx"); (759, "stfdux"); (53, "stfsu"); (55, "stfdu"); (54, "stfd")]%string.
Definition store_form (d0 : Z) (form : Z * string) : m unit :=
  let '(xo, name) := form in
  do! slot := result_slot 2 in
  block [(if 100 <? xo then block [li32 10 (slot - 8); li32 8 8; emit_ (x_form 31 3 10 8 xo 0)]
          else block [li32 10 (slot - 8); emit_ (d_form xo 3 10 8)]);
         (if is_double name then block [expect slot (Z.shiftr d0 32); expect (slot + 4) d0]
          else expect slot (f32 (flt 13 4)));
         m_when (has_update name) (store_gpr 10 slot)].

Definition loads_stores : m unit :=
  let s0 := f32 (flt 3 2) in
  let s1 := f32 (flt (-3) 8) in
  do! sw := data [Z.lor (Z.shiftl s0 32) s1] in
  let d0 := f64 (flt 13 4) in
  do! dw := data [d0; f64 (flt (-7) 1); 0x123456789abcdef0] in
  do! _ := block [li32 5 sw; emit_ (d_form 48 1 5 0); store_fpr 1 (widen s0);
                  emit_ (d_form 48 2 5 4); store_fpr 2 (widen s1);
                  li32 6 dw; emit_ (d_form 50 3 6 0); store_fpr 3 d0] in
  do! slot := result_slot 1 in
  do! _ := block [li32 7 slot; emit_ (d_form 52 3 7 0); expect slot (f32 (flt 13 4));
                  li32 8 8; emit_ (x_form 31 4 6 8 599 0); store_fpr 4 (f64 (flt (-7) 1));
                  li32 8 4; emit_ (x_form 31 5 5 8 535 0); store_fpr 5 (widen s1);
                  li32 10 dw; emit_ (d_form 51 6 10 16); store_gpr 10 (dw + 16); store_fpr 6 0x123456789abcdef0] in
  do! slot := result_slot 1 in
  do! _ := block [li32 10 slot; li32 8 0; emit_ (x_form 31 6 10 8 983 0); expect slot 0x9abcdef0;
                  li32 10 sw; emit_ (d_form 49 7 10 4); store_gpr 10 (sw + 4); store_fpr 7 (widen s1);
                  li32 10 sw; li32 8 4; emit_ (x_form 31 8 10 8 567 0); store_gpr 10 (sw + 4);
                  li32 10 dw; li32 8 8; emit_ (x_form 31 9 10 8 631 0); store_gpr 10 (dw + 8);
                  store_fpr 9 (f64 (flt (-7) 1))] in
  do! _ := m_each STORE_FORMS (store_form d0) in
  do! odd := data [0x1111111122222222; 0x3333333344444444] in
  block [li32 10 (odd + 4); emit_ (d_form 50 10 10 0); store_fpr 10 0x2222222233333333].

(** [p.set_cr_field(1, p.fpscr >> k)] *)
Definition cr_from_fpscr (field_ k : Z) : m unit := do! v := get_ fpscr in set_cr_field field_ (Z.shiftr v k).
Definition MOVES : list (Z * (Z -> Z)) :=
  [(72, fun v => v); (40, fun v => Z.lxor v (Z.shiftl 1 63)); (264, fun v => Z.land v (Z.lnot (Z.shiftl 1 63)));
   (136, fun v => Z.lor v (Z.shiftl 1 63))].
Definition moves : m unit :=
  block [emit_ (x_form 63 3 0 0 38 0);
         fpscr_set (fun v => recompute (Z.lor (Z.lor v (Z.shiftl 1 28)) (Z.shiftl 1 31)));
         load_fpr 11 SNAN; load_fpr 12 NZERO;
         m_each MOVES (fun '(xo, fn) =>
           m_each [11; 12] (fun src =>
             let value := if src =? 11 then SNAN else NZERO in
             block [emit_ (x_form 63 13 0 src xo 1); cr_from_fpscr 1 28; store_fpr 13 (fn value)]));
         check_cr; check_fpscr].
Definition selects : m unit :=
  block [load_fpr 14 ONE; load_fpr 15 TWO;
         m_each [(NZERO, ONE); (0, ONE); (f64 (flt (-1) 1), TWO); (QNAN, TWO); (PINF, ONE)] (fun '(sel, pick) =>
           block [load_fpr 16 sel; emit_ (a_form 63 17 16 15 14 23 0); store_fpr 17 pick])].
(** XO, crf, operands *)
Definition COMPARES : list (Z * Z * Z * Z) :=
  [(0, 3, ONE, TWO); (32, 4, TWO, ONE); (0, 5, NZERO, 0); (32, 6, QNAN, ONE); (0, 2, SNAN, ONE)].
Definition no_controls : ppc_reference.enables :=
  {| ppc_reference.single := false; ppc_reference.ni := false; ppc_reference.ve := false; ppc_reference.oe := false;
     ppc_reference.ue := false; ppc_reference.ze := false |}.
Definition compares : m unit :=
  do! _ := clear_fpscr in
  do! _ := m_each COMPARES (fun '(opx, crf, a, b) =>
    do! _ := block [load_fpr 18 a; load_fpr 19 b;
                    emit_ (ors [Z.shiftl 63 26; Z.shiftl crf 23; Z.shiftl 18 16; Z.shiftl 19 11; Z.shiftl opx 1])] in
    do! exp := m_lift (ppc_reference.arithmetic (if truthy opx then "cmpo" else "cmpu") a b 0 0 no_controls) in
    block [fpscr_set (fun v => fpscr_after v exp);
           fpscr_set (fun v => put_field v 0xf 12 (ppc_reference.fpcc exp));
           set_cr_field crf (ppc_reference.fpcc exp)]) in
  block [check_cr; check_fpscr].

(** [sum(1 << b for b in EXCEPTION_BITS)] *)
Definition exception_mask : Z := fold_left (fun s b => s + Z.shiftl 1 b) EXCEPTION_BITS 0.
Definition cr_moves : m unit :=
  block [emit_ (ors [Z.shiftl 63 26; Z.shiftl 7 23; Z.shiftl 0 18; Z.shiftl 64 1]);
         cr_from_fpscr 7 28;
         fpscr_set (fun v => recompute (Z.land v (Z.lnot (Z.lor (Z.shiftl 1 31) (Z.shiftl 1 28)))));
         emit_ (ors [Z.shiftl 63 26; Z.shiftl 1 23; Z.shiftl 1 18; Z.shiftl 64 1]);
         cr_from_fpscr 1 24;
         fpscr_set (fun v => recompute (Z.land v (Z.lnot (Z.land (Z.shiftl 0xf 24) exception_mask))));
         check_cr; check_fpscr].
Definition status : m unit :=
  block [emit_ (ors [Z.shiftl 63 26; Z.shiftl 7 23; Z.shiftl 0x3 12; Z.shiftl 134 1; 1]);
         fpscr_set (fun v => recompute (Z.lor (Z.land v (Z.lnot 0xf)) 0x3));
         cr_from_fpscr 1 28;
         load_fpr 20 0x00000000a5000000;
         emit_ (ors [Z.shiftl 63 26; Z.shiftl 0x60 17; Z.shiftl 20 11; Z.shiftl 711 1; 1]);
         fpscr_set (fun v => recompute (Z.lor (Z.land v (Z.lnot 0x0ff00000)) 0x05000000));
         cr_from_fpscr 1 28;
         emit_ (x_form 63 5 0 0 70 1);
         fpscr_set (fun v => recompute (Z.land v (Z.lnot (Z.shiftl 1 26))));
         cr_from_fpscr 1 28;
         check_cr; check_fpscr; clear_fpscr].

(** primary, XO, source, value, FPSCR bits *)
Definition ESTIMATES : list (Z * Z * Z * Z * Z) :=
  [(59, 24, 0, PINF, Z.shiftl 1 26); (59, 24, NINF, NZERO, 0); (63, 26, PINF, 0, 0);
   (63, 26, f64 (flt (-1) 1), 0x7ff8000000000000, Z.lor (Z.shiftl 1 9) (Z.shiftl 1 29))].
(** [classes[value]] *)
Definition class_of (value : Z) : result Z :=
  if value =? PINF then Ok 5 else if value =? NZERO then Ok 18 else if value =? 0 then Ok 2
  else if value =? 0x7ff8000000000000 then Ok 17 else Raise KeyError.
Definition estimates : m unit :=
  m_each ESTIMATES (fun '(primary, xo, src, value, extra) =>
    do! _ := block [load_fpr 21 src; emit_ (a_form primary 22 0 21 0 xo 0); store_fpr 22 value] in
    do! old := get_ fpscr in
    let new := Z.lor old extra in
    let new := if truthy (Z.land (Z.land new (Z.lnot old)) exception_mask) then Z.lor new (Z.shiftl 1 31) else new in
    do! c := m_lift (class_of value) in
    block [fpscr_set (fun _ => recompute (put_field new 0x1f 12 c));
           check_fpscr_masked (Z.land 0xffffffff (Z.lnot (Z.shiftl 3 17)))]).

Definition ALIGNMENTS : list (Z * bool * Z) :=
  [(d_form 50 23 20 2, false, DATA + 2); (d_form 55 23 20 6, false, DATA + 6); (x_form 31 23 20 8 599 0, true, DATA + 0x12)].
Definition alignment : m unit :=
  m_each ALIGNMENTS (fun '(insn, xform, ea) =>
    block [m_when xform (li32 8 0x12); load_fpr 23 ONE; li32 20 DATA;
           data_faults 0x600 insn ea (if xform then dsisr_x insn else dsisr_d insn);
           store_fpr 23 ONE; store_gpr 20 DATA]).

Definition dsi : m unit :=
  block [load_fpr 24 ONE;
         data_faults 0x300 (d_form 50 24 31 0) PROT_LO 0x08000000;
         data_faults 0x300 (d_form 54 24 31 8) (PROT_LO + 8) 0x0a000000;
         data_faults 0x300 (d_form 51 24 31 (Z.land (-4) 0xffff)) PROT_LO 0x08000000;
         data_faults 0x300 (d_form 55 24 31 8) (PROT_LO + 8) 0x0a000000;
         data_faults 0x300 (d_form 53 24 31 4) (PROT_LO + 4) 0x0a000000;
         store_fpr 24 ONE; store_gpr 31 PROT_LO].
End Sections.

(** ** Sections shared with the 602 program *)
(** name, primary opcode or XO, store, update *)
Definition FP_ACCESS_FORMS : list (string * Z * bool * bool) :=
  [("lfs", 48, false, false); ("lfsu", 49, false, true); ("lfd", 50, false, false); ("lfdu", 51, false, true);
   ("stfs", 52, true, false); ("stfsu", 53, true, true); ("stfd", 54, true, false); ("stfdu", 55, true, true);
   ("lfsx", 535, false, false); ("lfsux", 567, false, true); ("lfdx", 599, false, false); ("lfdux", 631, false, true);
   ("stfsx", 663, true, false); ("stfsux", 695, true, true); ("stfdx", 727, true, false); ("stfdux", 759, true, true);
   ("stfiwx", 983, true, false)]%string.

(** The methods [access_faults] calls on a program of singles. *)
Record SingleMethods (P : Type) : Type := {
  sm_lfs : Z -> Z -> method P unit; sm_write_fpr : Z -> bool -> bool -> method P unit; sm_store_sp : Z -> Z -> method P unit
}.
Arguments sm_lfs {P}. Arguments sm_write_fpr {P}. Arguments sm_store_sp {P}.

Section Shared.
Context {G : Globals} {P : Type} {E : Extends P} {V : Virtual P}.
Let m : Type -> Type := method P.

Definition fault_kinds : list (string * Z) :=
  [("dsi", PROT_LO); ("changed", CHANGED_LO)]%string ++ (if MACHINE_CHECK then [("tea", TEA_LO)]%string else []).
Definition kind_bit (kind : string) : option Z :=
  if String.eqb kind "tea" then Some MSR_ME else if String.eqb kind "changed" then Some MSR_DR else None.
Definition access_word (name : string) (op : Z) : Z :=
  let frs := if String.eqb name "stfiwx" then 21 else 20 in
  if op <? 64 then d_form op frs 16 8 else x_form 31 frs 16 17 op 0.
Definition access_fault (kind : string) (lo cr_ i : Z) (form : string * Z * bool * bool) : m unit :=
  let '(name, op, store, upd) := form in
  if String.eqb kind "changed" && negb store then m_ret tt
  else
    let base_ := lo + 0x20 * i in
    do! _ := li32 16 base_ in
    let insn := access_word name op in
    let ea := base_ + 8 in
    do! at_ := emit insn in
    do! v := get_ msr in
    do! _ :=
      (if String.eqb kind "dsi" then data_event 0x300 at_ v ea (Z.lor 0x08000000 (if store then 0x02000000 else 0))
       else if String.eqb kind "changed"
       then event 0x1200 at_ (Z.lor (Z.lor (Z.land cr_ 0xf0000000) 0x00030000) (Z.land v 0x0700ffff))
       else event 0x200 at_ (Z.lor (Z.land v 0xffff) SRR1_TEA)) in
    m_when upd (store_gpr 16 base_).
Definition changed_words : list Z := map (fun i => CHANGED_LO + 4 * i) (seqZ 0 0x100).
Definition SENTINEL : Z := 0xc3c3c3c3.

Definition access_faults (single : option (SingleMethods P)) : m unit :=
  do! _ := match single with
           | Some s => block [sm_lfs s 20 (f32 (flt 5 4)); emit_ (x_form 63 21 0 0 583 0); sm_write_fpr s 21 false true]
           | None => load_fpr 20 ONE
           end in
  do! _ := li32 17 8 in
  do! old := get_ cr in
  let cr_ := Z.lor 0x5a000000 (Z.land old 0x00ffffff) in
  do! _ := block [li32 8 cr_; emit_ (ors [Z.shiftl 31 26; Z.shiftl 8 21; Z.shiftl 0xff 12; Z.shiftl 144 1]);
                  set_ (set_cr cr_);
                  m_each changed_words (fun addr => word_at addr SENTINEL)] in
  do! _ := m_each fault_kinds (fun '(kind, lo) =>
    block [match kind_bit kind with Some b => msr_on b | None => m_ret tt end;
           m_each (enumerate 0 FP_ACCESS_FORMS) (fun '(i, form) => access_fault kind lo cr_ i form);
           match kind_bit kind with Some b => msr_off b | None => m_ret tt end]) in
  do! _ := match single with Some s => sm_store_sp s 20 (f32 (flt 5 4)) | None => store_fpr 20 ONE end in
  do! _ := m_each changed_words (fun addr => expect addr SENTINEL) in
  let value := f64 (flt 3 2) in
  do! _ := block [word_at (CHANGED_LO + 0x400) (Z.shiftr value 32); word_at (CHANGED_LO + 0x404) (Z.land value 0xffffffff);
                  li32 16 (CHANGED_LO + 0x400); emit_ (d_form 50 22 16 0)] in
  match single with
  | Some s => block [sm_write_fpr s 22 true false; sm_store_sp s 22 (f32 (flt 3 2))]
  | None => store_fpr 22 value
  end.

(** [mtfsb1 24] (VE), [mtfsb1 21] (VXSOFT), and the word they leave. *)
Definition set_fex : m unit := block [emit_ (x_form 63 24 0 0 38 0); emit_ (x_form 63 21 0 0 38 0)].
Definition with_fex (v : Z) : Z := recompute (Z.lor (Z.lor (Z.lor v (Z.shiftl 1 7)) (Z.shiftl 1 10)) (Z.shiftl 1 31)).
Definition FE : Z := Z.lor FE0 FE1.
(** The default of the parameter [update]. *)
Definition update_fex (upd : option (m unit)) : m unit :=
  match upd with None => fpscr_set with_fex | Some u => u end.

Definition fp_enable_deferred (upd : option (m unit)) : m unit :=
  do! _ := block [clear_fpscr; set_fex; update_fex upd] in
  do! v := get_ msr in
  let enabled := Z.lor (Z.lor v FE0) FE1 in
  do! _ := li32 9 enabled in
  do! at_ := emit (x_form 31 9 0 0 146 0) in
  block [emit_ NOP; event 0x700 (at_ + 4) (Z.lor (Z.lor enabled SRR1_FP) SRR1_NEXT); check_fpscr; clear_fpscr].

Definition RFI_CASES : list (Z * bool) := [(FE, true); (FE1, true); (FE0, true); (0, true); (FE, false)].
Definition rfi_case (upd : option (m unit)) (c : Z * bool) : m unit :=
  let '(fe, fex) := c in
  do! _ := clear_fpscr in
  do! _ := m_when fex (block [set_fex; update_fex upd]) in
  do! v := get_ msr in
  let restored := Z.lor v fe in
  do! _ := block [li32 9 restored; emit_ (x_form 31 9 27 0 467 0)] in
  do! here := get_ pc in
  let target := here + 4 * 4 in
  do! _ := block [li32 9 target; emit_ (x_form 31 9 26 0 467 0); emit_ (x_form 19 0 0 0 50 0)] in
  do! at_ := emit (d_form 14 10 10 1) in
  do! _ := m_assert (at_ =? target) in
  do! _ :=
    (if truthy fe && fex then event 0x700 target (Z.lor (Z.lor restored SRR1_FP) SRR1_NEXT)
     else block [store_gpr 10 1; li32 10 0; set_ (set_msr restored); emit_ (x_form 31 8 0 0 83 0);
                 store_gpr 8 restored; mtmsr (Z.land restored (Z.lnot FE))]) in
  check_fpscr.
Definition fp_enable_rfi (upd : option (m unit)) : m unit :=
  block [li32 10 0; m_each RFI_CASES (rfi_case upd); store_gpr 10 0; clear_fpscr].
End Shared.

Section Program603.
Context {G : Globals}.
Let m : Type -> Type := method Program.

Definition fp_enabled : m unit :=
  block [clear_fpscr; (do! v := get_ msr in mtmsr (Z.lor (Z.lor v FE0) FE1));
         emit_ (x_form 63 24 0 0 38 0);
         faults 0x700 (x_form 63 21 0 0 38 0) SRR1_FP;
         fpscr_set with_fex;
         msr_off FE; check_fpscr; clear_fpscr].

Definition directed : m unit :=
  block [unavailable; loads_stores; moves; selects; compares; cr_moves; status; estimates; alignment;
         m_when (negb CHIP) (block [dsi; access_faults None]);
         fp_enabled; fp_enable_deferred None; fp_enable_rfi None].

(** ** Exceptions with work in flight *)
Definition THREE : Z := 0x4008000000000000.
(** [p.spacings.append((kind, a, b, cycles))] *)
Definition apart (kind : stage) (a b cycles : Z) : m unit := spacing kind [a; b] 0 1 cycles.
(** An enabled invalid fsub with an addi and an fadd dispatched behind it. *)
Definition fsub_replayed : m unit :=
  do! _ := block [msr_on FE; emit_ (x_form 63 24 0 0 38 0); emit_ SYNC] in
  do! at_ := emit (a_form 63 4 7 7 0 20 0) in
  do! _ := emit (d_form 14 10 10 1) in
  do! younger := emit (a_form 63 6 6 1 0 21 0) in
  do! _ := apart Issue at_ younger 2 in
  do! v := get_ msr in
  block [event 0x700 at_ (Z.lor v SRR1_FP);
         fpscr_set (fun v => recompute (ors [v; Z.shiftl 1 7; Z.shiftl 1 23; Z.shiftl 1 31; Z.shiftl 1 14]));
         check_fpscr].
(** The same with an overlapped store behind it. *)
Definition store_cancelled : m unit :=
  do! _ := block [clear_fpscr; msr_on FE; emit_ (x_form 63 24 0 0 38 0)] in
  do! slot := result_slot 2 in
  do! _ := block [li32 23 slot; emit_ SYNC] in
  do! at_ := emit (a_form 63 4 7 7 0 20 0) in
  do! _ := emit (d_form 54 1 23 0) in
  do! v := get_ msr in
  block [event 0x700 at_ (Z.lor v SRR1_FP);
         expect slot (Z.shiftr ONE 32); expect (slot + 4) (Z.land ONE 0xffffffff);
         fpscr_set (fun _ => recompute (ors [Z.shiftl 1 7; Z.shiftl 1 23; Z.shiftl 1 31]));
         check_fpscr; clear_fpscr;
         store_fpr 4 HALF; store_fpr 6 TWO; store_gpr 10 1].
Definition branch_on_compare : m unit :=
  block [emit_ SYNC;
         emit_ (ors [Z.shiftl 63 26; Z.shiftl 2 23; Z.shiftl 1 16; Z.shiftl 2 11]);
         emit_ (ors [Z.shiftl 16 26; Z.shiftl 12 21; Z.shiftl 8 16; 8]);
         emit_ (d_form 14 10 10 100);
         emit_ (Z.lor (Z.shiftl 18 26) 8);
         emit_ (a_form 63 6 6 1 0 21 0);
         set_cr_field 2 8; check_cr; clear_fpscr; store_gpr 10 1; store_fpr 6 TWO].
(** A DSI at an integer load cancels the work behind it; one at an FP access lets the
    older fadd retire. *)
Definition dsi_in_flight : m unit :=
  do! _ := emit SYNC in
  do! at_ := emit (d_form 32 11 31 0) in
  do! younger := emit (a_form 63 6 6 1 0 21 0) in
  do! _ := emit (d_form 14 10 10 1) in
  do! _ := apart Issue at_ younger 1 in
  do! v := get_ msr in
  block [data_event 0x300 at_ v PROT_LO 0x08000000; store_fpr 6 THREE; store_gpr 10 2;
         load_fpr 6 ONE; emit_ SYNC;
         emit_ (a_form 63 6 6 1 0 21 0);
         data_faults 0x300 (d_form 50 24 31 0) PROT_LO 0x08000000;
         emit_ (a_form 63 6 6 1 0 21 0);
         data_faults 0x300 (d_form 54 6 31 8) (PROT_LO + 8) 0x0a000000;
         store_fpr 6 THREE].
Definition in_flight : m unit :=
  block [clear_fpscr; load_fpr 7 PINF; load_fpr 6 ONE; load_fpr 4 HALF; load_fpr 1 ONE; load_fpr 2 TWO; li32 10 0;
         fsub_replayed; store_cancelled; branch_on_compare; m_when (negb CHIP) dsi_in_flight].

(** ** Random cases, as drawn *)
Definition mtfsfi (field_ value : Z) : Z := ors [Z.shiftl 63 26; Z.shiftl field_ 23; Z.shiftl value 12; Z.shiftl 134 1].
Definition fe_bits (fe : Z) : Z :=
  Z.lor (if truthy (Z.land fe 2) then FE0 else 0) (if truthy (Z.land fe 1) then FE1 else 0).
Definition random_case (base_msr : Z) (k : enabled_cases.case) : m unit :=
  let sentinel := 0x5a5a5a5a5a5a5a5a in
  let old := enabled_cases.old k in
  let bits := fe_bits (enabled_cases.fe k) in
  let write := enabled_cases.write k in
  do! addr := data [enabled_cases.ra k; enabled_cases.rb k; enabled_cases.rc_ k; sentinel] in
  do! _ := block [li32 5 addr;
                  m_each [1; 2; 3; 4] (fun fr => emit_ (d_form 50 fr 5 (8 * (fr - 1))));
                  clear_fpscr;
                  emit_ (mtfsfi 6 (Z.land (Z.shiftr old 4) 0xf));
                  emit_ (mtfsfi 7 (Z.land old 0xf));
                  m_when (truthy bits) (mtmsr (Z.lor base_msr bits))] in
  do! at_ := emit (enabled_cases.insn k) in
  do! v := get_ msr in
  block [m_when (truthy (enabled_cases.exc k)) (event 0x700 at_ (Z.lor v SRR1_FP));
         m_when (truthy bits) (mtmsr base_msr);
         fpscr_set (fun _ => enabled_cases.new k);
         m_when (truthy (enabled_cases.rc k)) (set_cr_field 1 (enabled_cases.cr1 k));
         store_fpr_masked 4 (if write then enabled_cases.result k else sentinel)
                            (if write then enabled_cases.mask k else Z.shiftl 1 64 - 1);
         emit_ (x_form 63 5 0 0 583 0);
         store_fpr_masked 5 (enabled_cases.new k) (enabled_cases.fmask k);
         check_cr].
Definition random_cases (cases : list enabled_cases.case) : m unit :=
  do! base_msr := get_ msr in m_each cases (random_case base_msr).
End Program603.

(** ** The latency section *)
Definition latency_forms : dict Z :=
  [("fadd", a_form 63 4 1 2 0 21 0); ("fadds", a_form 59 4 1 2 0 21 0); ("fmul", a_form 63 4 1 0 2 25 0);
   ("fmuls", a_form 59 4 1 0 2 25 0); ("fmadd", a_form 63 4 1 2 3 29 0); ("fmadds", a_form 59 4 1 2 3 29 0);
   ("fdiv", a_form 63 4 1 2 0 18 0); ("fdivs", a_form 59 4 1 2 0 18 0); ("fres", a_form 59 4 0 2 0 24 0);
   ("frsqrte", a_form 63 4 0 2 0 26 0); ("fsel", a_form 63 4 1 2 3 23 0); ("fmr", x_form 63 4 0 2 72 0);
   ("fcmpu", ors [Z.shiftl 63 26; Z.shiftl 3 23; Z.shiftl 1 16; Z.shiftl 2 11]);
   ("frsp", x_form 63 4 0 2 12 0); ("fctiw", x_form 63 4 0 2 14 0); ("mffs", x_form 63 4 0 0 583 0);
   ("mtfsf", ors [Z.shiftl 63 26; Z.shiftl 0x01 17; Z.shiftl 31 11; Z.shiftl 711 1]);
   ("mtfsfi", ors [Z.shiftl 63 26; Z.shiftl 7 23; Z.shiftl 134 1]);
   ("mcrfs", ors [Z.shiftl 63 26; Z.shiftl 2 23; Z.shiftl 64 1]);
   ("lfd", d_form 50 4 5 0); ("lfs", d_form 48 4 5 0); ("stfd", d_form 54 1 21 0); ("stfs", d_form 52 1 21 0);
   ("stfiwx", x_form 31 1 21 8 983 0); ("add", x_form 31 10 10 11 266 0); ("lwz", d_form 32 10 5 0);
   ("stw", d_form 36 10 21 0)]%string.
Definition with_dst (insn frt : Z) : Z := Z.lor (Z.land insn (Z.lnot (Z.shiftl 31 21))) (Z.shiftl frt 21).
(** [(insn & ~(31 << at)) | (r << at)] *)
Definition with_src (at_ insn r : Z) : Z := Z.lor (Z.land insn (Z.lnot (Z.shiftl 31 at_))) (Z.shiftl r at_).

Section Latency.
Context {G : Globals}.
Let m : Type -> Type := method Program.

Definition form (name : string) : m Z := m_lift (key latency_forms name).
Definition cycles (name : string) : m Z := m_lift (key LATENCY name).
Definition memory_spacing (name : string) : m Z := m_lift (key MEMORY_SPACING name).
(** [p.probes[p.emit(insn)] = cycles] *)
Definition probed (insn n : Z) : m unit := do! at_ := emit insn in probe at_ n.
(** [p.emit(SYNC); pcs = [p.emit(insn), ...]] *)
Definition group (insns : list Z) : m (list Z) := do! _ := emit SYNC in m_map emit insns.

(** A denormal load and the store of its value. *)
Definition denormal_probe (word extra : Z) : m unit :=
  do! addr := data [Z.shiftl word 32] in
  do! slot := result_slot 1 in
  do! lfs := form "lfs" in
  do! l := cycles "lfs" in
  do! s := cycles "stfs" in
  block [li32 5 addr; li32 21 slot; emit_ SYNC; probed lfs (l + extra); emit_ SYNC;
         probed (d_form 52 4 21 0) (s + extra); expect slot word].

(** [while p.data_next % 32: p.data(0)], a doubleword a turn. *)
Fixpoint fill_line (fuel : nat) : m unit :=
  match fuel with
  | O => m_raise OutOfFuel
  | Datatypes.S fuel' =>
      do! next := get_ data_next in
      if truthy (next mod 32) then do! _ := data [0] in fill_line fuel' else m_ret tt
  end.
Definition denormal_hits : m unit :=
  do! _ := fill_line 5 in
  do! addr := data [Z.shiftl 0x00400000 32; 0] in
  do! _ := align_res 0xfff in
  do! slot := result_slot 8 in
  do! lfs := form "lfs" in
  block [li32 5 addr; li32 21 slot; emit_ (d_form 32 6 21 0);
         m_each (seqZ 1 8) (fun k => block [li32 7 (CHIP_BASE + 0x1000 * k + 0x40 * k); emit_ (d_form 32 6 7 0)]);
         emit_ lfs; emit_ SYNC; emit_ lfs; emit_ (d_form 52 4 21 0); emit_ SYNC;
         expect slot 0x00400000].
Definition data_dependent_latency : m unit :=
  let fadds := a_form 59 4 1 9 0 21 0 in
  do! _ := load_fpr 9 (f64 (two_to (-30))) in
  do! n := cycles "fadds" in
  block [m_each [1; 0] (fun extra => block [emit_ SYNC; probed fadds (n + extra)]);
         clear_fpscr;
         m_each [(0x00400000, 2); (0x00000001, 24); (0x3f800000, 0)] (fun '(word, extra) => denormal_probe word extra);
         align_res 7;
         m_when CHIP denormal_hits].

(** The sources still in rename: updates, bases and store data. *)
Definition update_and_rename_streams : m unit :=
  let word := 0x2468ACE0 in
  do! slot := result_slot 8 in
  do! _ := block [li32 10 word; li32 23 slot; emit_ SYNC] in
  do! pcs := group (map (fun _ => d_form 37 10 23 4) (seqZ 0 4)) in
  do! _ := block [spacing Issue pcs 0 (-1) 3; spacing Retire pcs 0 (-1) 3;
                  m_each (seqZ 0 4) (fun k => expect (slot + 4 + 4 * k) word);
                  li32 24 (slot + 3)] in
  do! pcs := group (map (fun k => d_form 35 (11 + k) 24 4) (seqZ 0 2)) in
  let base_gap := if BASE_SNOOP then 2 else 3 in
  do! _ := block [spacing Issue pcs 0 1 1; spacing Retire pcs 0 1 (if DUAL_WRITE then 1 else 2);
                  store_gpr 11 (Z.land word 0xff); store_gpr 12 (Z.land word 0xff); store_gpr 24 (slot + 11);
                  emit_ (d_form 36 23 23 4); expect (slot + 20) (slot + 16)] in
  do! pcs := group [d_form 32 25 23 4; d_form 32 26 25 0] in
  do! _ := block [spacing Retire pcs 0 1 base_gap; store_gpr 26 word] in
  do! pcs := group [d_form 14 25 23 0; d_form 32 26 25 0] in
  do! _ := block [spacing Retire pcs 0 1 base_gap; store_gpr 26 word;
                  li32 19 0x1357; emit_ SYNC; emit_ (d_form 32 25 23 4);
                  data_faults 0x600 (d_form 32 19 25 2) (slot + 18) (dsisr_d (d_form 32 19 25 2));
                  store_gpr 19 0x1357] in
  do! pcs := group [d_form 32 26 23 (-4); d_form 36 26 23 12] in
  block [spacing Retire pcs 0 1 2; expect (slot + 28) word].

(** The streams over stores that retire one a cycle. *)
Definition queued_stores : m unit :=
  let word := 0x13579BDF in
  do! slot := result_slot 4 in
  do! _ := block [li32 21 slot; li32 10 word] in
  do! pcs := group [d_form 36 10 21 0; d_form 32 11 22 0] in
  do! _ := spacing Retire pcs 0 1 1 in
  do! pcs := group [d_form 36 10 21 8; d_form 32 12 21 8] in
  do! _ := spacing Retire pcs 0 1 3 in
  do! pcs := group (map (fun k => d_form 36 10 21 (4 * k)) (seqZ 0 4) ++ map (fun k => d_form 32 11 22 (4 * k)) (seqZ 0 4)) in
  do! _ := block [spacing Retire pcs 3 (-1) LOADS_BEHIND_STORES;
                  li32 31 PROT_LO; emit_ SYNC; emit_ (d_form 36 10 21 4);
                  data_faults 0x300 (d_form 32 11 31 0) PROT_LO 0x08000000;
                  emit_ SYNC] in
  do! at_ := emit (d_form 32 11 31 0) in
  do! _ := emit (d_form 36 10 21 12) in
  do! v := get_ msr in
  block [data_event 0x300 at_ v PROT_LO 0x08000000;
         expect slot word; expect (slot + 4) word; expect (slot + 12) word; expect (slot + 8) word;
         store_gpr 12 word;
         update_and_rename_streams].
Definition integer_memory_streams : m unit :=
  do! pcs := group (map (fun k => d_form 32 (10 + k) 22 (4 * k)) (seqZ 0 4)) in
  do! _ := block [spacing Issue pcs 0 (-1) 3; spacing Retire pcs 0 (-1) 3] in
  do! pcs := group [d_form 32 10 22 0; x_form 31 11 10 10 266 0] in
  do! _ := spacing Retire pcs 0 1 1 in
  do! pcs := group (map (fun k => d_form 36 (10 + k) 22 (16 + 4 * k)) (seqZ 0 4)) in
  do! n := memory_spacing "stw-retire" in
  do! _ := spacing Retire pcs 0 (-1) n in
  if negb (n =? 3) then m_ret tt else queued_stores.

Definition fp_memory_streams : m unit :=
  do! slot := result_slot 8 in
  do! _ := li32 22 slot in
  do! _ := m_each ["lfd"; "lfs"; "stfd"; "stfs"]%string (fun name =>
    do! insn := form name in
    do! pcs := group (map (fun k => if String.prefix "l" name then with_dst insn (4 + k)
                                    else Z.lor (with_src 16 insn 22) (8 * k)) (seqZ 0 4)) in
    do! i := memory_spacing (name ++ "-issue")%string in
    do! r := memory_spacing (name ++ "-retire")%string in
    block [spacing Issue pcs 0 (-1) i; spacing Retire pcs 0 (-1) r]) in
  do! lfd := form "lfd" in
  do! pcs := group (with_dst lfd 4 :: map (fun k => d_form 14 (10 + k) (10 + k) 1) (seqZ 0 3)) in
  do! _ := spacing Issue pcs 0 (-1) 3 in
  do! fadd := form "fadd" in
  do! stfd := form "stfd" in
  do! pcs := group [with_dst fadd 4; with_src 21 stfd 4] in
  do! n := memory_spacing "fadd-stfd" in
  do! _ := spacing Retire pcs 0 1 n in
  m_when PIPE_MEM integer_memory_streams.

(** Independent instances one interval apart; dependent ones one latency apart. *)
Definition independent (row : string * (Z * Z)) : m unit :=
  let '(name, (_, ii)) := row in
  if String.prefix "m" name then m_ret tt
  else
    let count := if 2 <? ii then 2 else 4 in
    do! insn := form name in
    do! pcs := group (map (fun k =>
      if String.eqb name "fcmpu" then Z.lor (Z.land insn (Z.lnot (Z.shiftl 7 23))) (Z.shiftl (4 + k) 23)
      else with_dst insn (4 + k)) (seqZ 0 count)) in
    spacing Retire pcs 0 (-1) ((count - 1) * ii).
Definition DEPENDENT : list string :=
  ["fadd"; "fadds"; "fmul"; "fmuls"; "fmadd"; "fmadds"; "frsp"; "fmr"; "fsel"]%string.
Definition dependent (name : string) : m unit :=
  do! row := m_lift (key TABLE_6_5 name) in
  do! insn := form name in
  let at_ := if str_in name ["frsp"; "fmr"]%string then 11 else 16 in
  do! pcs := group (map (fun k => with_src at_ (with_dst insn (4 + k)) (if k =? 0 then 1 else 4 + (k - 1))) (seqZ 0 4)) in
  spacing Retire pcs 0 (-1) (3 * fst row).
Definition blocking (name : string) : m unit :=
  do! insn := form name in
  do! pcs := group [insn; insn] in
  do! n := cycles name in
  spacing Retire pcs 0 1 (n + 1).

Definition latency : m unit :=
  do! _ := block [align_res 7; clear_fpscr] in
  do! one := load_fpr_at 1 ONE in
  do! _ := block [load_fpr 2 TWO; load_fpr 3 HALF; data_dependent_latency] in
  do! slot := result_slot 2 in
  do! _ := block [li32 21 slot; li32 8 0; li32 5 one;
                  m_each latency_forms (fun '(name, insn) =>
                    do! _ := emit SYNC in do! n := cycles name in probed insn n);
                  m_each TABLE_6_5 independent;
                  m_each DEPENDENT dependent;
                  m_each ["mtfsfi"; "mffs"]%string blocking] in
  do! pcs := group [a_form 63 4 1 2 0 21 0; d_form 14 10 10 1; a_form 59 5 1 0 2 25 0; d_form 14 11 11 1;
                    a_form 63 6 1 2 3 29 0; d_form 14 12 12 1] in
  block [spacing Issue pcs 0 (-1) 5; spacing Retire pcs 0 1 1; spacing Retire pcs 4 5 1; fp_memory_streams].

(** ** The program *)
(** Five words of the log for each event. *)
Definition log_expects {P} {E : Extends P} (log_base : Z) : method P unit :=
  do! events := get_ log in
  do! _ := m_each (enumerate 0 events) (fun '(i, e) =>
    let at_ := log_base + 20 * i in
    let optional v := match v with None => 0 | Some _ => 0xffffffff end in
    block [expect at_ (srr0 e);
           expect_masked (at_ + 4) (default 0 (srr1 e)) (optional (srr1 e));
           expect_masked (at_ + 8) (default 0 (dar e)) (optional (dar e));
           expect_masked (at_ + 12) (default 0 (dsisr e)) (optional (dsisr e));
           expect (at_ + 16) (vector e)]) in
  expect (log_base + 20 * Z.of_nat (length events) + 16) 0.

(** The comparison of an expected word; the branch taken on a mismatch is patched later. *)
Definition check_word (row : Z * Z * Z) : m (list Z) :=
  let '(addr, value, mask) := row in
  if mask =? 0 then m_ret []
  else
    do! _ := block [li32 6 addr; emit_ (d_form 32 5 6 0);
                    m_when (negb (mask =? 0xffffffff)) (block [li32 8 mask; emit_ (x_form 31 5 5 8 28 0)]);
                    li32 7 (Z.land value mask);
                    emit_ (x_form 31 0 5 7 0 0);
                    emit_ (ors [Z.shiftl 16 26; Z.shiftl 12 21; Z.shiftl 2 16; 8])] in
    do! at_ := emit 0 in
    m_ret [at_].
Definition report (mailbox : Z) : m unit :=
  block [emit_ (d_form 14 5 0 mailbox); emit_ (d_form 36 5 30 0); emit_ (x_form 31 0 0 30 86 0);
         emit_ (x_form 31 0 0 0 598 0); emit_ (Z.shiftl 18 26)].
Definition self_check : m unit :=
  do! _ := block [set_ (set_probes []); set_ (set_spacings []);
                  word_at 0xfff00100 (Z.lor (Z.shiftl 18 26) (Z.land (RESET_PC - 0xfff00100) 0x3fffffc))] in
  do! rows := get_ expects in
  do! branches := m_map check_word rows in
  do! _ := report 1 in
  do! here := get_ pc in
  do! _ := m_each (concat branches) (fun at_ =>
    word_at at_ (Z.lor (Z.shiftl 18 26) (Z.land (here - at_) 0x3fffffc))) in
  do! _ := report 2 in
  do! last := get_ pc in
  m_assert (last <=? DATA).

Definition build_body (cases : list enabled_cases.case) : m unit :=
  block [handlers; directed; random_cases cases; in_flight;
         m_when CHIP (block [miss_handlers; tlb_miss; uncached_doublewords]);
         latency;
         m_when (negb CHIP) (block [emit_ (d_form 36 0 30 0); emit_ (Z.shiftl 18 26)]);
         log_expects LOG;
         m_when CHIP self_check].
(** [build(seed, count)], on any source of draws. The emission draws nothing, so the
    cases can be drawn first. *)
Definition build {S} `{Rng S} (rng : S) (count : nat) : result Program :=
  let! cases := snd (enabled_cases.repeat_case count enabled_cases.case_603 rng) in
  match build_body cases new_program with (p, Ok _) => Ok p | (_, Raise e) => Raise e end.

(** ** Images *)
(** [image[offset:offset + 4] = word.to_bytes(4, 'big')] *)
Definition put_word (image : list Z) (entry : Z * Z) : result (list Z) :=
  let '(addr, word) := entry in
  let offset := addr - CHIP_BASE in
  require! in_range 0 CHIP_IMAGE_BYTES offset else AssertionError in
  require! in_range 0 (2 ^ 32) word else OverflowError in
  let n := Z.to_nat offset in
  Ok (take n image ++ map (fun k => Z.land (Z.shiftr word (8 * (3 - k))) 0xff) (seqZ 0 4) ++ drop (n + 4) image).
Fixpoint put_words (image : list Z) (entries : list (Z * Z)) : result (list Z) :=
  match entries with
  | [] => Ok image
  | e :: entries' => let! image := put_word image e in put_words image entries'
  end.
Definition write_chip_image (p : Program) : result (list Z) :=
  put_words (replicate (Z.to_nat CHIP_IMAGE_BYTES) 0) (map_to_list (words p)).

(** The lines of the text image. *)
Inductive line : Type :=
| LineP (lo hi : Z) | LineD (addr : Z) | LineC (lo hi : Z) | LineT (lo hi : Z)
| LineM (addr word : Z) | LineE (addr value mask : Z) | LineL (pc_ cycles_ : Z) | LineS (kind : stage) (a b cycles_ : Z).
(** [sorted(p.words.items())] *)
Definition address_le (a b : Z * Z) : Prop := a.1 <= b.1.
#[export] Instance address_le_dec a b : Decision (address_le a b) := Z_le_dec a.1 b.1.
Definition sorted_words (x : gmap Z Z) : list (Z * Z) := merge_sort address_le (map_to_list x).
Definition image_lines (done : Z) (p : Program) : list line :=
  [LineP PROT_LO PROT_HI; LineD done; LineC CHANGED_LO CHANGED_HI; LineT TEA_LO TEA_HI]
  ++ map (fun '(a, v) => LineM a v) (sorted_words (words p))
  ++ map (fun '(a, v, k) => LineE a v k) (expects p)
  ++ map (fun '(at_, n) => LineL at_ n) (probes p)
  ++ map (fun '(kind, a, b, n) => LineS kind a b n) (spacings p).
End Latency.

(** The command line. *)
Record options : Type := {
  chip_image : bool; seed : Z; random : nat; dmem_bits : Z; lsu_pipe : bool; pipe_mem : bool; dual_write : bool;
  machine_check : bool; base_snoop : bool
}.
Definition globals_of (o : options) : Globals :=
  let g := use_machine_check (machine_check o) module_globals in
  let g := if chip_image o then use_chip_layout g else g in
  let g := if dmem_bits o =? 32 then use_split_doublewords g else g in
  let g := if lsu_pipe o then use_lsu_pipe (dmem_bits o =? 32) (pipe_mem o) g else g in
  let g := if pipe_mem o then use_pipe_mem g else g in
  let g := if dual_write o then use_dual_write g else g in
  if base_snoop o then use_base_snoop g else g.
Inductive output : Type := ChipImage (bytes : list Z) | TextImage (lines : list line).
Definition main (o : options) : result output :=
  let g := globals_of o in
  let! p := build (G := g) (mersenne.Random_ (seed o)) (random o) in
  if chip_image o then let! image := write_chip_image p in Ok (ChipImage image)
  else Ok (TextImage (image_lines (@DONE g) p)).
End fpu_core_program.
