(* ===== verification/FpuMachine.v ===== *)
(** * A reference machine with the floating-point unit

    The contracts of docs/FPU_CONTRACT.md, docs/FPU_CORE_INTEGRATION.md and
    docs/ALIGNMENT_EXCEPTIONS.md as an interpreter, written from the contracts and
    not from [fpu_core_program]: which forms are illegal, FP unavailable, the status
    word as a function on the architecture's bit numbers (0 is the most significant),
    precise data faults, FP enabled exceptions and the late ones of mtmsr and rfi, the
    TLB miss of a C=0 page or of an empty TLB. Rounded results are the PowerPC model's
    ([ppc_reference.arithmetic]). Only the instructions the program uses are here; any
    other stops the machine. *)
From S2P Require Import Prelude FpReference FpPpc.
Import reference.

Module fpu_machine.

(** What the bench and the chip differ in. *)
Record part : Type := {
  protected : Z -> bool;       (* words that answer with a protection fault *)
  unchanged_page : Z -> bool;  (* words of C=0 pages: a translated store misses *)
  bus_error : Z -> bool;       (* words that end in TEA *)
  identity : bool;             (* translation is the identity; otherwise the TLB holds what tlbld wrote *)
  miss_way : bool              (* the way a miss reports *)
}.

Record cpu : Type := {
  gpr : list Z; tgpr : list Z; fpr : list Z; spr : gmap Z Z; cr : Z; msr : Z; fpscr : Z; pc : Z;
  tlb : gmap Z Z; mem : gmap Z Z; steps : Z; exceptions : Z
}.

(** ** Registers *)
Definition ibits (w a b : Z) : Z := field w (31 - b) (b - a + 1).
Definition sext16 (v : Z) : Z := if v <? 0x8000 then v else v - 0x10000.
Definition word (v : Z) : Z := Z.land v 0xffffffff.
(** Bit [b] of a word, from the most significant. *)
Definition bit (w b : Z) : bool := Z.testbit w (31 - b).
Definition word_of (f : Z -> bool) : Z := fold_left (fun v b => 2 * v + Z.b2z (f b)) (seqZ 0 32) 0.

(** MSR bits *)
Definition TGPR (c : cpu) : bool := bit (msr c) 14.
Definition ME (c : cpu) : bool := bit (msr c) 19.
Definition FP (c : cpu) : bool := bit (msr c) 18.
Definition DR (c : cpu) : bool := bit (msr c) 27.
Definition IP (c : cpu) : bool := bit (msr c) 25.
Definition FE_of (v : Z) : bool := bit v 20 || bit v 23.

Definition banked (c : cpu) (n : Z) : bool := TGPR c && (n <? 4).
Definition r (c : cpu) (n : Z) : Z := nth (Z.to_nat n) (if banked c n then tgpr c else gpr c) 0.
Definition r0 (c : cpu) (n : Z) : Z := if n =? 0 then 0 else r c n.
Definition fr (c : cpu) (n : Z) : Z := nth (Z.to_nat n) (fpr c) 0.
Definition sp (c : cpu) (n : Z) : Z := default 0 (spr c !! n).

Definition set_r (n v : Z) (c : cpu) : cpu :=
  let b := banked c n in
  {| gpr := if b then gpr c else <[Z.to_nat n := word v]> (gpr c);
     tgpr := if b then <[Z.to_nat n := word v]> (tgpr c) else tgpr c;
     fpr := fpr c; spr := spr c; cr := cr c; msr := msr c; fpscr := fpscr c; pc := pc c; tlb := tlb c; mem := mem c;
     steps := steps c; exceptions := exceptions c |}.
Definition set_fr (n v : Z) (c : cpu) : cpu :=
  {| gpr := gpr c; tgpr := tgpr c; fpr := <[Z.to_nat n := v]> (fpr c); spr := spr c; cr := cr c; msr := msr c; fpscr := fpscr c;
     pc := pc c; tlb := tlb c; mem := mem c; steps := steps c; exceptions := exceptions c |}.
Definition set_sp (n v : Z) (c : cpu) : cpu :=
  {| gpr := gpr c; tgpr := tgpr c; fpr := fpr c; spr := <[n := v]> (spr c); cr := cr c; msr := msr c; fpscr := fpscr c;
     pc := pc c; tlb := tlb c; mem := mem c; steps := steps c; exceptions := exceptions c |}.
Definition set_cr (v : Z) (c : cpu) : cpu :=
  {| gpr := gpr c; tgpr := tgpr c; fpr := fpr c; spr := spr c; cr := v; msr := msr c; fpscr := fpscr c;
     pc := pc c; tlb := tlb c; mem := mem c; steps := steps c; exceptions := exceptions c |}.
Definition set_fpscr (v : Z) (c : cpu) : cpu :=
  {| gpr := gpr c; tgpr := tgpr c; fpr := fpr c; spr := spr c; cr := cr c; msr := msr c; fpscr := v;
     pc := pc c; tlb := tlb c; mem := mem c; steps := steps c; exceptions := exceptions c |}.
Definition set_mode (v a : Z) (c : cpu) : cpu :=
  {| gpr := gpr c; tgpr := tgpr c; fpr := fpr c; spr := spr c; cr := cr c; msr := v; fpscr := fpscr c;
     pc := word a; tlb := tlb c; mem := mem c; steps := steps c; exceptions := exceptions c |}.
Definition set_tlb (page rpa : Z) (c : cpu) : cpu :=
  {| gpr := gpr c; tgpr := tgpr c; fpr := fpr c; spr := spr c; cr := cr c; msr := msr c; fpscr := fpscr c;
     pc := pc c; tlb := <[page := rpa]> (tlb c); mem := mem c; steps := steps c; exceptions := exceptions c |}.
Definition set_mem (x : gmap Z Z) (c : cpu) : cpu :=
  {| gpr := gpr c; tgpr := tgpr c; fpr := fpr c; spr := spr c; cr := cr c; msr := msr c; fpscr := fpscr c;
     pc := pc c; tlb := tlb c; mem := x; steps := steps c; exceptions := exceptions c |}.
Definition count (s e : Z) (c : cpu) : cpu :=
  {| gpr := gpr c; tgpr := tgpr c; fpr := fpr c; spr := spr c; cr := cr c; msr := msr c; fpscr := fpscr c;
     pc := pc c; tlb := tlb c; mem := mem c; steps := steps c + s; exceptions := exceptions c + e |}.
Definition goto (a : Z) (c : cpu) : cpu := set_mode (msr c) a c.
Definition next (c : cpu) : cpu := goto (pc c + 4) c.
(** Field [n] of the CR. *)
Definition set_crf (n v : Z) (c : cpu) : cpu :=
  set_cr (word_of (fun b => if b / 4 =? n then Z.testbit v (3 - b mod 4) else bit (cr c) b)) c.

(** ** Exceptions *)
Definition DSISR : Z := 18.
Definition DAR : Z := 19.
Definition SRR0 : Z := 26.
Definition SRR1 : Z := 27.
Definition DMISS : Z := 976.
Definition RPA : Z := 982.

(** Entry: SRR1 is the low half of the MSR with the cause, the MSR keeps ILE, IP and,
    but for a machine check, ME. *)
Definition trap (vector return_ cause : Z) (c : cpu) : cpu :=
  let saved := set_sp SRR1 (Z.lor (field (msr c) 0 16) cause) (set_sp SRR0 return_ c) in
  let kept := if vector =? 0x200 then 0x10040 else 0x11040 in
  count 0 1 (set_mode (Z.land (msr c) kept) (Z.lor (if IP c then 0xfff00000 else 0) vector) saved).
Definition data_trap (vector ea dsisr : Z) (c : cpu) : cpu :=
  trap vector (pc c) 0 (set_sp DSISR dsisr (set_sp DAR ea c)).
(** A TLB miss: CR0, the way and the store bit in SRR1, and the shadow GPRs. *)
Definition miss (t : part) (store : bool) (ea : Z) (c : cpu) : cpu :=
  let cause := Z.shiftl (field (cr c) 28 4) 28 + (if miss_way t then 0x20000 else 0) + (if store then 0x10000 else 0) in
  let c := trap (if store then 0x1200 else 0x1100) (pc c) cause (set_sp DMISS ea c) in
  set_mode (Z.lor (msr c) 0x20000) (pc c) c.
Definition illegal (c : cpu) : cpu := trap 0x700 (pc c) 0x80000 c.

(** FPSCR[FEX] *)
Definition FEX (c : cpu) : bool := bit (fpscr c) 1.
(** A new MSR that sets FE0 or FE1 from 00 with FEX set takes the FP enabled exception
    before the instruction at [a]. *)
Definition enter_mode (v a : Z) (c : cpu) : cpu :=
  let late := negb (FE_of (msr c)) && FE_of v && FEX c in
  let c := set_mode v a c in
  if late then trap 0x700 (pc c) 0x110000 c else c.
(** An instruction that updated the FPSCR. *)
Definition fp_done (c : cpu) : cpu :=
  if FE_of (msr c) && FEX c then trap 0x700 (pc c) 0x100000 c else next c.

(** DSISR[15:31] of an alignment exception (UM Table 4-13). *)
Definition dsisr_alignment (w : Z) : Z :=
  let opcode := if ibits w 0 5 =? 31
                then ibits w 29 30 * 2 ^ 15 + ibits w 25 25 * 2 ^ 14 + ibits w 21 24 * 2 ^ 10
                else ibits w 5 5 * 2 ^ 14 + ibits w 1 4 * 2 ^ 10 in
  opcode + ibits w 6 10 * 2 ^ 5 + ibits w 11 15.

(** ** Memory *)
Definition read (x : gmap Z Z) (a : Z) : Z := default 0 (x !! a).

(** The outcome of one word of an access. *)
Inductive reply : Type := Done (a : Z) | Fault (f : cpu -> option cpu).
Definition lookup_word (t : part) (store : bool) (ea : Z) (c : cpu) : reply :=
  let physical a :=
    if protected t a then Fault (fun c => Some (data_trap 0x300 ea (if store then 0x0a000000 else 0x08000000) c))
    else if store && DR c && unchanged_page t a then Fault (fun c => Some (miss t store ea c))
    else if bus_error t a then Fault (fun c => if ME c then Some (trap 0x200 (pc c) 0x40000 c) else None)
    else Done a in
  if DR c && negb (identity t) then
    match tlb c !! (ea / 0x1000) with
    | Some rpa => physical (rpa / 0x1000 * 0x1000 + ea mod 0x1000)
    | None => Fault (fun c => Some (miss t store ea c))
    end
  else physical ea.

(** The words of an access, in order; a store keeps the words written before a fault. *)
Fixpoint load_words (t : part) (eas : list Z) (v : Z) (put : Z -> cpu -> cpu) (c : cpu) : option cpu :=
  match eas with
  | [] => Some (next (put v c))
  | ea :: eas' => match lookup_word t false ea c with
                  | Done a => load_words t eas' (v * 2 ^ 32 + read (mem c) a) put c
                  | Fault f => f c
                  end
  end.
Fixpoint store_words (t : part) (eas : list Z) (v : Z) (also : cpu -> cpu) (c : cpu) : option cpu :=
  match eas with
  | [] => Some (next (also c))
  | ea :: eas' => match lookup_word t true ea c with
                  | Done a => store_words t eas' v also
                                (set_mem (<[a := word (Z.shiftr v (32 * Z.of_nat (length eas')))]> (mem c)) c)
                  | Fault f => f c
                  end
  end.
Definition words_at (ea n : Z) : list Z := if n =? 8 then [ea; word (ea + 4)] else [ea].

(** An access of words at a word-aligned address; [fp]: one of the FPU's. *)
Definition access (fp : bool) (w ea : Z) (go : Z -> cpu -> option cpu) (c : cpu) : option cpu :=
  let ea := word ea in
  if fp && negb (FP c) then Some (trap 0x800 (pc c) 0 c)
  else if negb (ea mod 4 =? 0) then Some (data_trap 0x600 ea (dsisr_alignment w) c)
  else go ea c.
Definition load (t : part) (fp : bool) (w ea n : Z) (put : Z -> cpu -> cpu) : cpu -> option cpu :=
  access fp w ea (fun ea => load_words t (words_at ea n) 0 put).
Definition store (t : part) (fp : bool) (w ea n v : Z) (also : cpu -> cpu) : cpu -> option cpu :=
  access fp w ea (fun ea => store_words t (words_at ea n) v also).
(** A byte never faults for alignment. *)
Definition load_byte (t : part) (ea : Z) (put : Z -> cpu -> cpu) (c : cpu) : option cpu :=
  let ea := word ea in
  load_words t [ea / 4 * 4] 0 (fun v => put (field v (8 * (3 - ea mod 4)) 8)) c.

(** ** The status word *)
Definition to_double (v : Z) : Z := bits (calc_convert (decode v B32) 0 B32 B64).
Definition to_single (v : Z) : Z := bits (calc_convert (decode v B64) 0 B64 B32).

Definition VX_CAUSES : list Z := [7; 8; 9; 10; 11; 12; 21; 22; 23].
Definition EXCEPTIONS : list Z := [3; 4; 5; 6] ++ VX_CAUSES.
Definition is_exception (b : Z) : bool := existsb (Z.eqb b) EXCEPTIONS.
(** VX is the OR of the invalid causes, FEX of the enabled exceptions. *)
Definition summed (f : Z -> bool) : Z :=
  let vx := existsb f VX_CAUSES in
  let fex := (vx && f 24) || (f 3 && f 25) || (f 4 && f 26) || (f 5 && f 27) || (f 6 && f 28) in
  word_of (fun b => if b =? 1 then fex else if b =? 2 then vx else f b).
(** FX also records an exception bit that changed from zero to one. *)
Definition recorded (old : Z) (f : Z -> bool) : Z :=
  let fresh := existsb (fun b => f b && negb (bit old b)) EXCEPTIONS in
  summed (fun b => if b =? 0 then f 0 || fresh else f b).

Definition raises (o : ppc_reference.out) (b : Z) : bool :=
  if b =? 3 then ppc_reference.ox o else if b =? 4 then ppc_reference.ux o
  else if b =? 5 then ppc_reference.zx o else if b =? 6 then ppc_reference.xx o
  else existsb (fun '(k, v) => (v =? b) && Z.testbit (ppc_reference.o_invalid o) k) (enumerate 0 VX_CAUSES).
(** What an operation leaves: sticky exceptions, FR, FI and FPRF when it defines them,
    FPCC of a compare. *)
Definition after (old : Z) (o : ppc_reference.out) : Z :=
  recorded old (fun b =>
    if in_range 16 20 b && ppc_reference.compare_valid o then Z.testbit (ppc_reference.fpcc o) (19 - b)
    else if in_range 15 20 b && ppc_reference.fprf_valid o then Z.testbit (ppc_reference.fprf o) (19 - b)
    else if (b =? 13) && ppc_reference.frfi_valid o then ppc_reference.fr o
    else if (b =? 14) && ppc_reference.frfi_valid o then ppc_reference.fi o
    else bit old b || raises o b).

(** CR1 is FPSCR[0:3] after a record form. *)
Definition record (w : Z) (c : cpu) : cpu := if ibits w 31 31 =? 1 then set_crf 1 (Z.shiftr (fpscr c) 28) c else c.
Definition update (w : Z) (v : Z) (c : cpu) : cpu := record w (set_fpscr v c).

(** ** Floating-point instructions *)
(** High words the architecture leaves undefined. *)
Definition UNDEFINED : Z := 0xfff8000000000000.

(** Estimates: the operands with a defined result, and correctly rounded ones for the rest. *)
Definition sign_of (v : Z) : Z := Z.shiftr v 63.
Definition signed (s v : Z) : Z := Z.lor (Z.shiftl s 63) v.
Definition nan_estimate (v : Z) (ve : bool) : ppc_reference.out :=
  let inv := if is_snan (d_kind (decode v B64)) then ppc_reference.SNAN else 0 in
  ppc_reference.settled inv false (quiet v B64) (negb (ve && truthy inv)).
Definition estimated (v : Z) : ppc_reference.out :=
  {| ppc_reference.o_result := to_double v; ppc_reference.write_result := true; ppc_reference.o_invalid := 0;
     ppc_reference.ox := false; ppc_reference.ux := false; ppc_reference.zx := false; ppc_reference.xx := false;
     ppc_reference.fr := false; ppc_reference.fi := false; ppc_reference.frfi_valid := false;
     ppc_reference.fprf := ppc_reference.classify v B32; ppc_reference.fprf_valid := true; ppc_reference.fpcc := 0;
     ppc_reference.compare_valid := false; ppc_reference.tiny_before_round := false |}.
Definition fres (v : Z) (ve ze : bool) : ppc_reference.out :=
  let x := decode v B64 in
  if is_nan (d_kind x) then nan_estimate v ve
  else if is_inf (d_kind x) then ppc_reference.settled 0 false (signed (sign_of v) 0) true
  else if is_zero x then ppc_reference.settled 0 true (signed (sign_of v) (infinity B64)) (negb ze)
  else estimated (p_bits (pack_ratio 1 (d_sig x) (- d_exp x) (d_sign x) 0 B32)).
Definition frsqrte (v : Z) (ve ze : bool) : ppc_reference.out :=
  let x := decode v B64 in
  if is_nan (d_kind x) then nan_estimate v ve
  else if is_zero x then ppc_reference.settled 0 true (signed (sign_of v) (infinity B64)) (negb ze)
  else if truthy (d_sign x) then ppc_reference.settled ppc_reference.SQRT false ppc_reference.DEFAULT_NAN (negb ve)
  else if is_inf (d_kind x) then ppc_reference.settled 0 false 0 true
  else let odd := d_exp x mod 2 in
       let root := Z.sqrt (2 ^ 160 / (d_sig x * 2 ^ odd)) in
       estimated (p_bits (pack root (- 80 - (d_exp x - odd) / 2) 0 0 B32)).

(** Deliver a result: the target unless suppressed, the status word, CR1, and the
    exception it enables. *)
Definition deliver (w : Z) (o : ppc_reference.out) (value : Z) (c : cpu) : cpu :=
  let c' := update w (after (fpscr c) o) c in
  fp_done (if ppc_reference.write_result o then set_fr (ibits w 6 10) value c' else c').
Definition controls (single : bool) (c : cpu) : ppc_reference.enables :=
  let f := bit (fpscr c) in
  {| ppc_reference.single := single; ppc_reference.ve := f 24; ppc_reference.oe := f 25; ppc_reference.ue := f 26;
     ppc_reference.ze := f 27; ppc_reference.ni := f 29 |}.
Definition operate (w : Z) (op : string) (single : bool) (c : cpu) : option cpu :=
  match ppc_reference.arithmetic op (fr c (ibits w 11 15)) (fr c (ibits w 16 20)) (fr c (ibits w 21 25))
          (field (fpscr c) 0 2) (controls single c) with
  | Ok o => Some (deliver w o (if str_in op ["fctiw"; "fctiwz"]%string
                               then Z.lor UNDEFINED (ppc_reference.o_result o) else ppc_reference.o_result o) c)
  | Raise _ => None
  end.
Definition compare (w : Z) (op : string) (c : cpu) : option cpu :=
  match ppc_reference.arithmetic op (fr c (ibits w 11 15)) (fr c (ibits w 16 20)) 0 0 (controls false c) with
  | Ok o => Some (fp_done (set_crf (ibits w 6 8) (ppc_reference.fpcc o) (set_fpscr (after (fpscr c) o) c)))
  | Raise _ => None
  end.
Definition move (w : Z) (v : Z) (c : cpu) : option cpu := Some (next (record w (set_fr (ibits w 6 10) v c))).

(** A form: the fields that must be zero, and the instruction. *)
Inductive reserved : Type := FrA | FrB | FrC | FrD.
Definition is_zero_field (w : Z) (x : reserved) : bool :=
  match x with FrA => ibits w 11 15 =? 0 | FrB => ibits w 16 20 =? 0 | FrC => ibits w 21 25 =? 0 | FrD => ibits w 6 10 =? 0 end.
Definition form (w : Z) (zeros : list reserved) (go : cpu -> option cpu) (c : cpu) : option cpu :=
  if negb (forallb (is_zero_field w) zeros) then Some (illegal c)
  else if negb (FP c) then Some (trap 0x800 (pc c) 0 c) else go c.

(** The A-forms both primaries have. *)
Definition a_form (w : Z) (single : bool) : option (cpu -> option cpu) :=
  match ibits w 26 30 with
  | 18 => Some (form w [FrC] (operate w "div" single))
  | 20 => Some (form w [FrC] (operate w "sub" single))
  | 21 => Some (form w [FrC] (operate w "add" single))
  | 25 => Some (form w [FrB] (operate w "mul" single))
  | 28 => Some (form w [] (operate w "msub" single))
  | 29 => Some (form w [] (operate w "madd" single))
  | 30 => Some (form w [] (operate w "nmsub" single))
  | 31 => Some (form w [] (operate w "nmadd" single))
  | _ => None
  end.
Definition single_form (w : Z) (c : cpu) : option cpu :=
  match a_form w true with
  | Some go => go c
  | None =>
      if ibits w 26 30 =? 24
      then form w [FrA; FrC] (fun c => let o := fres (fr c (ibits w 16 20)) (bit (fpscr c) 24) (bit (fpscr c) 27) in
                                       Some (deliver w o (ppc_reference.o_result o) c)) c
      else Some (illegal c)
  end.

(** The status register's instructions. *)
Definition move_to_field (k v : Z) (old b : Z) : bool := if b / 4 =? k then Z.testbit v (3 - b mod 4) else bit old b.
Definition x_form (w : Z) (c : cpu) : option cpu :=
  let d := ibits w 6 10 in
  let fb := fr c (ibits w 16 20) in
  match ibits w 21 30 with
  | 0 => form w [] (compare w "cmpu") c
  | 32 => form w [] (compare w "cmpo") c
  | 12 => form w [FrA] (operate w "frsp" false) c
  | 14 => form w [FrA] (operate w "fctiw" false) c
  | 15 => form w [FrA] (operate w "fctiwz" false) c
  | 72 => form w [FrA] (move w fb) c
  | 40 => form w [FrA] (move w (Z.lxor fb (2 ^ 63))) c
  | 264 => form w [FrA] (move w (field fb 0 63)) c
  | 136 => form w [FrA] (move w (Z.lor fb (2 ^ 63))) c
  | 38 => form w [FrA; FrB]
            (fun c => Some (fp_done (update w (recorded (fpscr c) (fun b => (b =? d) || bit (fpscr c) b)) c))) c
  | 70 => form w [FrA; FrB]
            (fun c => Some (fp_done (update w (summed (fun b => negb (b =? d) && bit (fpscr c) b)) c))) c
  | 64 => form w [FrB]
            (fun c => let k := ibits w 11 13 in
                      let clears b := (b / 4 =? k) && (is_exception b || (b =? 0)) in
                      let c' := set_crf (ibits w 6 8) (field (fpscr c) (28 - 4 * k) 4) c in
                      Some (fp_done (set_fpscr (summed (fun b => negb (clears b) && bit (fpscr c) b)) c'))) c
  | 134 => form w [FrA]
            (fun c => Some (fp_done (update w (summed (move_to_field (ibits w 6 8) (ibits w 16 19) (fpscr c))) c))) c
  | 583 => form w [FrA; FrB]
            (fun c => Some (next (record w (set_fr d (Z.lor UNDEFINED (fpscr c)) c)))) c
  | 711 => form w []
            (fun c => Some (fp_done (update w (summed (fun b =>
               if Z.testbit (ibits w 7 14) (7 - b / 4) then bit (word fb) b else bit (fpscr c) b)) c))) c
  | _ => Some (illegal c)
  end.
Definition double_form (w : Z) (c : cpu) : option cpu :=
  match a_form w false with
  | Some go => go c
  | None =>
      match ibits w 26 30 with
      | 23 => form w [] (fun c => let x := decode (fr c (ibits w 11 15)) B64 in
                let negative := is_nan (d_kind x) || (truthy (d_sign x) && negb (is_zero x)) in
                move w (fr c (if negative then ibits w 16 20 else ibits w 21 25)) c) c
      | 26 => form w [FrA; FrC] (fun c =>
                let o := frsqrte (fr c (ibits w 16 20)) (bit (fpscr c) 24) (bit (fpscr c) 27) in
                Some (deliver w o (ppc_reference.o_result o) c)) c
      | _ => x_form w c
      end
  end.

(** ** Integer instructions *)
Definition branch_taken (bo bi : Z) (c : cpu) : bool := Z.testbit bo 4 || eqb (bit (cr c) bi) (Z.testbit bo 3).
(** The CR fields a mtcrf mask selects. *)
Definition mtcrf (mask v : Z) (c : cpu) : cpu :=
  set_cr (word_of (fun b => if Z.testbit mask (7 - b / 4) then bit v b else bit (cr c) b)) c.
Definition rotate_mask (v n mb me : Z) : Z :=
  let rot := Z.lor (Z.shiftl v n) (Z.shiftr v (32 - n)) in
  word_of (fun b => (if mb <=? me then in_range mb (me + 1) b else (mb <=? b) || (b <=? me)) && bit (word rot) b).
Definition compare_words (a b : Z) : Z := if to_signed32 a <? to_signed32 b then 8 else if a =? b then 2 else 4.

Definition float_load (t : part) (w ea : Z) (double : bool) (also : cpu -> cpu) : cpu -> option cpu :=
  load t true w ea (if double then 8 else 4)
    (fun v c => also (set_fr (ibits w 6 10) (if double then v else to_double v) c)).
Definition float_store (t : part) (w ea : Z) (double : bool) (also : cpu -> cpu) (c : cpu) : option cpu :=
  let v := fr c (ibits w 6 10) in
  store t true w ea (if double then 8 else 4) (if double then v else to_single v) also c.

Definition step31 (t : part) (w : Z) (c : cpu) : option cpu :=
  let d := ibits w 6 10 in
  let a := ibits w 11 15 in
  let b := ibits w 16 20 in
  let ea := r0 c a + r c b in
  let upd c' := set_r a (r c a + r c b) c' in
  let spr_n := b * 32 + a in
  match ibits w 21 30 with
  | 0 => Some (next (set_crf (ibits w 6 8) (compare_words (r c a) (r c b)) c))
  | 19 => Some (next (set_r d (cr c) c))
  | 28 => Some (next (set_r a (Z.land (r c d) (r c b)) c))
  | 60 => Some (next (set_r a (Z.land (r c d) (Z.lnot (r c b))) c))
  | 83 => Some (next (set_r d (msr c) c))
  | 144 => Some (next (mtcrf (ibits w 12 19) (r c d) c))
  | 146 => Some (enter_mode (r c d) (pc c + 4) c)
  | 86 | 598 | 210 => Some (next c)                                (* dcbf, sync, mtsr *)
  | 266 => Some (next (set_r d (r c a + r c b) c))
  | 339 => Some (next (set_r d (sp c spr_n) c))
  | 467 => Some (next (set_sp spr_n (r c d) c))
  | 978 => Some (next (set_tlb (r c b / 0x1000) (sp c RPA) c))     (* tlbld *)
  | 535 => float_load t w ea false id c
  | 567 => float_load t w (r c a + r c b) false upd c
  | 599 => float_load t w ea true id c
  | 631 => float_load t w (r c a + r c b) true upd c
  | 663 => float_store t w ea false id c
  | 695 => float_store t w (r c a + r c b) false upd c
  | 727 => float_store t w ea true id c
  | 759 => float_store t w (r c a + r c b) true upd c
  | 983 => store t true w ea 4 (word (fr c d)) id c
  | _ => None
  end.

Definition step (t : part) (c : cpu) : option cpu :=
  let c := count 1 0 c in
  let w := read (mem c) (pc c) in
  let d := ibits w 6 10 in
  let a := ibits w 11 15 in
  let imm := sext16 (ibits w 16 31) in
  let ea := r0 c a + imm in
  let ea_u := r c a + imm in
  let upd c' := set_r a ea_u c' in
  match ibits w 0 5 with
  | 7 => Some (next (set_r d (to_signed32 (r c a) * imm) c))
  | 14 => Some (next (set_r d ea c))
  | 15 => Some (next (set_r d (r0 c a + imm * 2 ^ 16) c))
  | 16 => Some (if branch_taken d a c then goto (pc c + sext16 (ibits w 16 29 * 4)) c else next c)
  | 18 => let li := ibits w 6 29 * 4 in
          Some (goto (pc c + (if li <? 2 ^ 25 then li else li - 2 ^ 26)) c)
  | 19 => match ibits w 21 30 with
          | 50 => Some (enter_mode (Z.lor (Z.land (msr c) 0x10000) (field (sp c SRR1) 0 16)) (sp c SRR0 / 4 * 4) c)
          | 150 => Some (next c)
          | _ => None
          end
  | 21 => Some (next (set_r a (rotate_mask (r c d) (ibits w 16 20) (ibits w 21 25) (ibits w 26 30)) c))
  | 24 => Some (next (set_r a (Z.lor (r c d) (ibits w 16 31)) c))
  | 26 => Some (next (set_r a (Z.lxor (r c d) (ibits w 16 31)) c))
  | 31 => step31 t w c
  | 32 => load t false w ea 4 (set_r d) c
  | 35 => load_byte t ea_u (fun v c => upd (set_r d v c)) c
  | 36 => store t false w ea 4 (r c d) id c
  | 37 => store t false w ea_u 4 (r c d) upd c
  | 48 => float_load t w ea false id c
  | 49 => float_load t w ea_u false upd c
  | 50 => float_load t w ea true id c
  | 51 => float_load t w ea_u true upd c
  | 52 => float_store t w ea false id c
  | 53 => float_store t w ea_u false upd c
  | 54 => float_store t w ea true id c
  | 55 => float_store t w ea_u true upd c
  | 59 => single_form w c
  | 63 => double_form w c
  | _ => None
  end.

(** Run until [stop] holds, for at most [fuel] instructions. *)
Fixpoint run (fuel : nat) (t : part) (stop : cpu -> bool) (c : cpu) : option cpu :=
  if stop c then Some c
  else match fuel with O => None | S fuel' => match step t c with Some c' => run fuel' t stop c' | None => None end end.

(** The machine out of reset: MSR[IP] set, everything else clear. *)
Definition reset (a : Z) (x : gmap Z Z) : cpu :=
  {| gpr := replicate 32 0; tgpr := replicate 4 0; fpr := replicate 32 0; spr := ∅; cr := 0; msr := 0x40; fpscr := 0; pc := a;
     tlb := ∅; mem := x; steps := 0; exceptions := 0 |}.
End fpu_machine.
