(* ===== verification/FpuTheorems.v ===== *)
(** * The floating-point core program and the contract

    The status word the expectations carry is the contract's, and the reference
    machine answers every random case: one step on the case's instruction leaves what
    the generator then checks. *)
From S2P Require Import Prelude FpReference FpPpc FpStatus PyRandom FpCases Words FpRange FpCaseTheorems FpuProgram FpuMachine.
Import reference ppc_reference enabled_vectors.

(** ** Words and their bits *)
Lemma testbit_horner (f : Z -> bool) l v i :
  0 <= i ->
  Z.testbit (fold_left (fun v b => 2 * v + Z.b2z (f b)) l v) i =
  if i <? Z.of_nat (length l) then f (nth (length l - 1 - Z.to_nat i) l 0) else Z.testbit v (i - Z.of_nat (length l)).
Proof.
  intros Hi. revert v. induction l as [| b l IH]; intros v.
  - cbn [fold_left length]. rewrite (proj2 (Z.ltb_ge i (Z.of_nat 0))), Z.sub_0_r by lia. reflexivity.
  - cbn [fold_left]. rewrite IH. cbn [length]. set (n := length l).
    destruct (Z.ltb_spec i (Z.of_nat n)), (Z.ltb_spec i (Z.of_nat (S n))); try lia.
    + replace (S n - 1 - Z.to_nat i)%nat with (S (n - 1 - Z.to_nat i)) by lia. reflexivity.
    + replace (i - Z.of_nat n) with 0 by lia. rewrite Z.testbit_0_r.
      replace (S n - 1 - Z.to_nat i)%nat with 0%nat by lia. reflexivity.
    + replace (i - Z.of_nat n) with (Z.succ (i - Z.of_nat (S n))) by lia. apply Z.testbit_succ_r. lia.
Qed.

(** Bit [i] of a word built from its architectural bits is bit [31 - i] of those. *)
Lemma testbit_word_of f i : 0 <= i < 32 -> Z.testbit (fpu_machine.word_of f) i = f (31 - i).
Proof.
  intros Hi. unfold fpu_machine.word_of. rewrite testbit_horner by lia.
  replace (Z.of_nat (length (seqZ 0 32))) with 32 by reflexivity. rewrite (proj2 (Z.ltb_lt i 32)) by lia. f_equal.
  assert (E : length (seqZ 0 32) = 32%nat) by reflexivity. rewrite E.
  rewrite (nth_lookup_Some _ _ _ (31 - i)); [reflexivity |]. apply lookup_seqZ. lia.
Qed.
Lemma word_of_high f i : 32 <= i -> Z.testbit (fpu_machine.word_of f) i = false.
Proof.
  intros Hi. unfold fpu_machine.word_of. rewrite testbit_horner by lia.
  replace (Z.of_nat (length (seqZ 0 32))) with 32 by reflexivity. rewrite (proj2 (Z.ltb_ge i 32)) by lia. apply Z.bits_0.
Qed.
Lemma horner_nonneg (f : Z -> bool) l v : 0 <= v -> 0 <= fold_left (fun v b => 2 * v + Z.b2z (f b)) l v.
Proof. revert v. induction l as [| b l IH]; intros v Hv; cbn [fold_left]; [exact Hv |]. apply IH. destruct (f b); cbn; lia. Qed.
Lemma word_of_fits f : fits 32 (fpu_machine.word_of f).
Proof.
  assert (H : 0 <= fpu_machine.word_of f) by (apply horner_nonneg; lia).
  split; [exact H |]. apply bound_of_bits; [lia | exact H | intros i Hi; apply word_of_high; exact Hi].
Qed.
(** A word is known by its architectural bits. *)
Lemma word_ext v w : fits 32 v -> fits 32 w -> (forall b, 0 <= b < 32 -> fpu_machine.bit v b = fpu_machine.bit w b) -> v = w.
Proof.
  intros Hv Hw H. apply Z.bits_inj'. intros i Hi. destruct (Z.ltb_spec i 32).
  - specialize (H (31 - i) ltac:(lia)). unfold fpu_machine.bit in H. replace (31 - (31 - i)) with i in H by lia. exact H.
  - rewrite !(fun x Hx => testbit_high x 32 i Hx ltac:(lia)) by assumption. reflexivity.
Qed.
(** A property of the 32 bits, bit by bit. *)
Lemma each_bit (P : Z -> Prop) : Forall P (seqZ 0 32) -> forall b, 0 <= b < 32 -> P b.
Proof. intros H b Hb. rewrite Forall_forall in H. apply H, elem_of_seqZ. lia. Qed.
Ltac each_bit := apply each_bit; vm_compute (seqZ 0 32); repeat first [apply List.Forall_cons | apply List.Forall_nil].

(** ** The status word *)
Section Status.
Variable old : Z.
Variable o : out.
Hypothesis Hold : fits 32 old.
Hypothesis Hfprf : fits 5 (fprf o).
Hypothesis Hfpcc : fits 4 (fpcc o).

(** The bits an operation records, in the architecture's order. *)
Definition stored (b : Z) : bool :=
  if in_range 16 20 b && compare_valid o then Z.testbit (fpcc o) (19 - b)
  else if in_range 15 20 b && fprf_valid o then Z.testbit (fprf o) (19 - b)
  else if (b =? 13) && frfi_valid o then ppc_reference.fr o
  else if (b =? 14) && frfi_valid o then fi o
  else fpu_machine.bit old b || fpu_machine.raises o b.

Lemma stored_recorded b :
  0 <= b < 32 ->
  stored b = if in_range 16 20 b && compare_valid o then Z.testbit (fpcc o) (19 - b) else FpStatus.recorded old o (31 - b).
Proof.
  revert b. each_bit.
  all: unfold stored, recorded, raised, fpu_machine.raises, fpu_machine.bit, in_range.
  all: cbn -[Z.testbit]; rewrite ?orb_false_r.
  all: first [reflexivity | destruct (compare_valid o), (fprf_valid o); reflexivity
             | destruct (frfi_valid o); rewrite ?orb_false_r; reflexivity].
Qed.

Lemma causes_recorded : existsb stored fpu_machine.VX_CAUSES = existsb (FpStatus.recorded old o) INVALID_BITS.
Proof. unfold fpu_machine.VX_CAUSES. cbn [existsb]. rewrite !stored_recorded by lia. reflexivity. Qed.
Lemma fresh_recorded :
  existsb (fun b => stored b && negb (fpu_machine.bit old b)) fpu_machine.EXCEPTIONS =
  existsb (fun i => FpStatus.recorded old o i && negb (Z.testbit old i)) exception_bits.
Proof.
  unfold fpu_machine.EXCEPTIONS, exception_bits. rewrite !existsb_app, orb_comm. unfold fpu_machine.VX_CAUSES.
  cbn [existsb app]. rewrite !stored_recorded by lia. reflexivity.
Qed.

(** The contract's word, bit by bit. *)
Lemma after_bits b :
  0 <= b < 32 ->
  fpu_machine.bit (fpu_machine.after old o) b =
  if in_range 16 20 b && compare_valid o then Z.testbit (fpcc o) (19 - b) else fpscr_bit old o (31 - b).
Proof.
  intros Hb. unfold fpu_machine.bit, fpu_machine.after. fold stored. unfold fpu_machine.recorded, fpu_machine.summed.
  rewrite testbit_word_of by lia. replace (31 - (31 - b)) with b by lia. unfold fpscr_bit.
  match goal with |- context [existsb ?f fpu_machine.VX_CAUSES] =>
    change (existsb f fpu_machine.VX_CAUSES) with (existsb stored fpu_machine.VX_CAUSES) end.
  rewrite causes_recorded, fresh_recorded. cbn [Z.eqb]. rewrite !stored_recorded by lia.
  revert b Hb. each_bit. all: reflexivity.
Qed.
Lemma after_fits : fits 32 (fpu_machine.after old o).
Proof. apply word_of_fits. Qed.

(** The word computed with masks and shifts is the contract's: [fpscr_after], and for
    a comparison its FPCC on top. *)
Lemma after_contract :
  (if compare_valid o then put_field (fpscr_after old o) 0xf 12 (fpcc o) else fpscr_after old o) = fpu_machine.after old o.
Proof.
  pose proof (fpscr_after_fits old o Hold Hfprf) as Hn.
  apply word_ext; [case_if; [apply (put_field_fits _ _ _ _ 4); (assumption || lia) | assumption] | apply after_fits |].
  intros b Hb. rewrite after_bits by exact Hb. unfold fpu_machine.bit.
  destruct (compare_valid o); rewrite ?andb_true_r, ?andb_false_r; [| apply fpscr_after_bits; [assumption | lia]].
  rewrite (testbit_put_field _ 0xf 12 _ (31 - b) 4), fpscr_after_bits by (assumption || reflexivity || lia).
  unfold in_range. destruct (Z.leb_spec 16 b), (Z.ltb_spec b 20), (Z.leb_spec 12 (31 - b)), (Z.ltb_spec (31 - b) (12 + 4));
    cbn [andb]; try lia; try reflexivity. f_equal. lia.
Qed.
End Status.

(** [recompute] gives the summaries of the contract. *)
Lemma recompute_summed v : fits 32 v -> fpu_core_program.recompute v = fpu_machine.summed (fpu_machine.bit v).
Proof.
  intros Hv. unfold fpu_core_program.recompute, fpu_machine.summed. cbv zeta.
  set (vx := existsb (fun b => bit_at v b) _). set (V := put_field v 1 29 _).
  assert (B1 : forall b : bool, fits 1 (Z.b2z b)) by (intros []; unfold fits; cbn; lia).
  assert (HV : forall j, 0 <= j -> Z.testbit V j = if j =? 29 then vx else Z.testbit v j).
  { intros j Hj. subst V. rewrite (testbit_put_field v 1 29 _ j 1) by (apply B1 || reflexivity || lia).
    destruct (Z.eqb_spec j 29) as [-> |]; [cbn; apply Z.b2z_bit0 |].
    destruct (Z.leb_spec 29 j), (Z.ltb_spec j (29 + 1)); cbn [andb]; try reflexivity; lia. }
  set (fex := existsb _ _).
  assert (Hvx : vx = existsb (fpu_machine.bit v) fpu_machine.VX_CAUSES).
  { subst vx. unfold fpu_core_program.VX_BITS, fpu_machine.VX_CAUSES, fpu_machine.bit. cbn [map existsb].
    rewrite !bit_at_testbit by lia. reflexivity. }
  assert (Hfex : fex = (vx && Z.testbit v 7) || (Z.testbit v 28 && Z.testbit v 6) || (Z.testbit v 27 && Z.testbit v 5)
                       || (Z.testbit v 26 && Z.testbit v 4) || (Z.testbit v 25 && Z.testbit v 3)).
  { subst fex. cbn [existsb]. rewrite !enabled_cause_testbit by lia. rewrite !HV by lia. cbn [Z.eqb Pos.eqb].
    rewrite orb_false_r, !orb_assoc. reflexivity. }
  apply word_ext; [apply (put_field_fits _ _ _ _ 1); [lia .. | apply B1 | apply (put_field_fits _ _ _ _ 1); [lia .. | apply B1 | exact Hv]]
                  | apply word_of_fits |].
  intros b Hb. unfold fpu_machine.bit at 1 2. rewrite testbit_word_of by lia. replace (31 - (31 - b)) with b by lia.
  rewrite (testbit_put_field V 1 30 _ (31 - b) 1), HV by (apply B1 || reflexivity || lia).
  rewrite <- Hvx. fold (fpu_machine.bit v b).
  destruct (Z.eqb_spec b 1) as [-> | H1]; [| destruct (Z.eqb_spec b 2) as [-> | H2]].
  - cbn [Z.leb Z.ltb Z.compare Pos.compare Pos.compare_cont andb Z.add Pos.add Pos.succ Z.sub Z.opp Z.pos_sub].
    replace (Z.testbit (Z.b2z fex) _) with fex by (symmetry; apply Z.b2z_bit0). rewrite Hfex. reflexivity.
  - reflexivity.
  - rewrite (proj2 (Z.eqb_neq (31 - b) 29)) by lia.
    destruct (Z.leb_spec 30 (31 - b)), (Z.ltb_spec (31 - b) (30 + 1)); cbn [andb]; try reflexivity; lia.
Qed.

(** A word an operation left has its summaries already. *)
Lemma recompute_after old o :
  fits 32 old -> fits 5 (fprf o) -> fpu_core_program.recompute (fpscr_after old o) = fpscr_after old o.
Proof.
  intros Hold Hf. pose proof (fpscr_after_fits old o Hold Hf) as Hn. rewrite recompute_summed by exact Hn.
  apply word_ext; [apply word_of_fits | exact Hn |]. intros b Hb. unfold fpu_machine.summed.
  unfold fpu_machine.bit at 1. rewrite testbit_word_of by lia. replace (31 - (31 - b)) with b by lia.
  assert (H : forall b, 0 <= b < 32 -> fpu_machine.bit (fpscr_after old o) b = fpscr_bit old o (31 - b)).
  { intros j Hj. apply fpscr_after_bits; [exact Hf | lia]. }
  unfold fpu_machine.VX_CAUSES. cbn [existsb]. rewrite !H by lia.
  revert b Hb. each_bit. all: reflexivity.
Qed.

(** C38. The status words of the program are the contract's. What [fpscr_after] leaves,
    with FPCC on top for a comparison, is the contract's word for every operation: the
    sticky causes, FR, FI and FPRF, then the summaries FX, VX and FEX; [recompute] gives
    any word the contract's VX and FEX, and changes nothing in a word an operation
    left. *)
Theorem status_word_is_contract old o :
  fits 32 old -> fits 5 (fprf o) -> fits 4 (fpcc o) ->
  (if compare_valid o then put_field (fpscr_after old o) 0xf 12 (fpcc o) else fpscr_after old o) = fpu_machine.after old o /\
  (forall v, fits 32 v -> fpu_core_program.recompute v = fpu_machine.summed (fpu_machine.bit v)) /\
  fpu_core_program.recompute (fpscr_after old o) = fpscr_after old o.
Proof.
  intros Hold Hf Hc. split; [apply after_contract; assumption |]. split; [exact recompute_summed |].
  apply recompute_after; assumption.
Qed.
(** An overflow with OE set: FX, FEX and OX. *)
Lemma status_word_is_contract_witness :
  let o := {| o_result := 0; write_result := true; o_invalid := 0; ox := true; ux := false; zx := false; xx := true; fr := false;
              fi := true; frfi_valid := true; fprf := 5; fprf_valid := true; fpcc := 0; compare_valid := false;
              tiny_before_round := false |} in
  fpscr_after 0x40 o = 0xd2025040 /\
  (if compare_valid o then put_field (fpscr_after 0x40 o) 0xf 12 (fpcc o) else fpscr_after 0x40 o) = fpu_machine.after 0x40 o /\
  (forall v, fits 32 v -> fpu_core_program.recompute v = fpu_machine.summed (fpu_machine.bit v)) /\
  fpu_core_program.recompute (fpscr_after 0x40 o) = fpscr_after 0x40 o.
Proof. split; [reflexivity |]. apply status_word_is_contract; const_fits. Defined.

(** ** One case on the machine *)
Import enabled_cases.

(** The operations of a random case and the oracle's names. *)
Definition ORACLE : dict string :=
  [("fdiv", "div"); ("fsub", "sub"); ("fadd", "add"); ("fmul", "mul"); ("fmsub", "msub"); ("fmadd", "madd");
   ("fnmsub", "nmsub"); ("fnmadd", "nmadd"); ("frsp", "frsp"); ("fctiw", "fctiw"); ("fctiwz", "fctiwz")]%string.
Lemma oracle_cases name op : oracle_of name = Ok op -> In (name, op) ORACLE.
Proof.
  unfold oracle_of. intros H. destruct (dict_get AFORM name) as [[x y] |] eqn:E;
    [| destruct (dict_get XFORM name) as [[x y] |] eqn:E'; [| discriminate]];
    [apply dict_get_In in E as Hin | apply dict_get_In in E' as Hin]; apply ok_inj in H; subst y;
    cbn in Hin; repeat destruct Hin as [Hin | Hin]; try contradiction; injection Hin as <- <- <-; cbn; tauto.
Qed.

(** The instruction word reaches the operation with the registers the case names. *)
Definition reaches (name op : string) (single : bool) (rc : Z) : Prop := forall t w c,
  encode name single rc = Ok w -> fpu_machine.read (fpu_machine.mem c) (fpu_machine.pc c) = w -> fpu_machine.FP c = true ->
  fpu_machine.ibits w 6 10 = 4 /\ fpu_machine.ibits w 31 31 = rc /\
  fpu_machine.step t c = fpu_machine.operate w op (single && dict_mem AFORM name) (fpu_machine.count 1 0 c).
Lemma step_59 t c w :
  fpu_machine.read (fpu_machine.mem c) (fpu_machine.pc c) = w -> fpu_machine.ibits w 0 5 = 59 ->
  fpu_machine.step t c = fpu_machine.single_form w (fpu_machine.count 1 0 c).
Proof.
  intros Hm Hw. unfold fpu_machine.step. cbv zeta.
  change (fpu_machine.read _ (fpu_machine.pc (fpu_machine.count 1 0 c))) with (fpu_machine.read (fpu_machine.mem c) (fpu_machine.pc c)).
  rewrite Hm, Hw. reflexivity.
Qed.
Lemma step_63 t c w :
  fpu_machine.read (fpu_machine.mem c) (fpu_machine.pc c) = w -> fpu_machine.ibits w 0 5 = 63 ->
  fpu_machine.step t c = fpu_machine.double_form w (fpu_machine.count 1 0 c).
Proof.
  intros Hm Hw. unfold fpu_machine.step. cbv zeta.
  change (fpu_machine.read _ (fpu_machine.pc (fpu_machine.count 1 0 c))) with (fpu_machine.read (fpu_machine.mem c) (fpu_machine.pc c)).
  rewrite Hm, Hw. reflexivity.
Qed.
(** A form of a known word, with the FPU on. *)
Ltac known_form :=
  repeat match goal with
  | |- context [fpu_machine.ibits ?w 26 30] => let v := eval vm_compute in (fpu_machine.ibits w 26 30) in
      change (fpu_machine.ibits w 26 30) with v; cbv iota
  | |- context [fpu_machine.x_form] => unfold fpu_machine.x_form; cbv zeta
  | |- context [fpu_machine.ibits ?w 21 30] => let v := eval vm_compute in (fpu_machine.ibits w 21 30) in
      change (fpu_machine.ibits w 21 30) with v; cbv iota
  end;
  unfold fpu_machine.form;
  match goal with |- context [negb (forallb (fpu_machine.is_zero_field ?w) ?l)] =>
    change (negb (forallb (fpu_machine.is_zero_field w) l)) with false; cbv iota end.
Lemma step_reaches name op single rc : In (name, op) ORACLE -> fits 1 rc -> reaches name op single rc.
Proof.
  intros Hin Hrc. assert (rc = 0 \/ rc = 1) as Hr by (unfold fits in Hrc; lia). clear Hrc.
  cbn in Hin. repeat destruct Hin as [Hin | Hin]; try contradiction; injection Hin as <- <-;
    destruct Hr as [-> | ->], single; intros t w c Hw Hm HFP; vm_compute in Hw; apply ok_inj in Hw; symmetry in Hw;
    change (fpu_machine.FP c) with (fpu_machine.FP (fpu_machine.count 1 0 c)) in HFP;
    (first [rewrite (step_59 t c w Hm) by (subst w; reflexivity) | rewrite (step_63 t c w Hm) by (subst w; reflexivity)]);
    subst w; (split; [reflexivity |]; split; [reflexivity |]);
    unfold fpu_machine.single_form, fpu_machine.double_form, fpu_machine.a_form; known_form; rewrite HFP; reflexivity.
Qed.

(** The operands the instruction does not name do not matter to the operation. *)
Lemma operands_reach name op single rc w c o :
  In (name, op) ORACLE -> fits 1 rc -> encode name single rc = Ok w ->
  arithmetic op (fpu_machine.fr c 1) (fpu_machine.fr c 2) (fpu_machine.fr c 3) (field (fpu_machine.fpscr c) 0 2)
    (fpscr_controls single (fpu_machine.fpscr c)) = Ok o ->
  arithmetic op (fpu_machine.fr c (fpu_machine.ibits w 11 15)) (fpu_machine.fr c (fpu_machine.ibits w 16 20))
    (fpu_machine.fr c (fpu_machine.ibits w 21 25)) (field (fpu_machine.fpscr c) 0 2)
    (fpu_machine.controls (single && dict_mem AFORM name) c) = Ok o.
Proof.
  intros Hin Hrc Hw Ho. assert (rc = 0 \/ rc = 1) as Hr by (unfold fits in Hrc; lia). clear Hrc.
  cbn in Hin. repeat destruct Hin as [Hin | Hin]; try contradiction; injection Hin as <- <-;
    destruct Hr as [-> | ->], single; vm_compute in Hw; apply ok_inj in Hw; subst w; exact Ho.
Qed.

Lemma arithmetic_no_compare op a b c rn k o :
  str_in op ["cmpu"; "cmpo"]%string = false -> arithmetic op a b c rn k = Ok o -> compare_valid o = false.
Proof.
  intros Hop. unfold arithmetic. rewrite Hop.
  outer_if; [intros Ho; apply ok_inj in Ho; subst o; reflexivity |].
  destruct (first_nan_of _); [intros Ho; apply ok_inj in Ho; subst o; reflexivity |].
  outer_if; [intros Ho; apply ok_inj in Ho; subst o; reflexivity |].
  assert (Hr : forall op inv n d e s rn fmt ni oe ue, compare_valid (rounded_out op inv n d e s rn fmt ni oe ue) = false).
  { intros. unfold rounded_out. cbv zeta. case_if; [destruct (unbounded_round _ _ _ _ _ _) as [[[? ?] ?] ?] |]; reflexivity. }
  outer_if; [destruct (finite _ _ _ _ _) as [[[? ?] ?] ?]; intros Ho; apply ok_inj in Ho; subst o; apply Hr |].
  outer_if; [| discriminate].
  outer_if; [intros Ho; apply ok_inj in Ho; subst o; reflexivity |]. cbv zeta.
  outer_if; [intros Ho; apply ok_inj in Ho; subst o; reflexivity |].
  outer_if; [unfold infinite_out; match goal with |- match ?r with _ => _ end = _ -> _ => destruct r end; [| discriminate];
    intros Ho; apply ok_inj in Ho; subst o; reflexivity |].
  destruct (finite _ _ _ _ _) as [[[? ?] ?] ?]. intros Ho; apply ok_inj in Ho; subst o; apply Hr.
Qed.

(** The machine about to run the instruction of a case, loaded as the generator
    loads it. *)
Record loaded (k : case) (c : fpu_machine.cpu) : Prop := {
  l_insn : fpu_machine.read (fpu_machine.mem c) (fpu_machine.pc c) = insn k;
  l_ra : fpu_machine.fr c 1 = ra k;
  l_rb : fpu_machine.fr c 2 = rb k;
  l_rc : fpu_machine.fr c 3 = rc_ k;
  l_fprs : length (fpu_machine.fpr c) = 32%nat;
  l_fpscr : fpu_machine.fpscr c = old k;
  l_fp : fpu_machine.FP c = true;
  l_fe : fpu_machine.FE_of (fpu_machine.msr c) = negb (fe k =? 0)
}.

(** What no arithmetic instruction changes: the GPRs with their shadows, the TLB and
    memory. *)
Record untouched (c c' : fpu_machine.cpu) : Prop := {
  u_gpr : fpu_machine.gpr c' = fpu_machine.gpr c;
  u_tgpr : fpu_machine.tgpr c' = fpu_machine.tgpr c;
  u_tlb : fpu_machine.tlb c' = fpu_machine.tlb c;
  u_mem : fpu_machine.mem c' = fpu_machine.mem c
}.
(** An exception taken at the instruction of [c]: SRR0 and SRR1 are the only SPRs it
    writes, and the MSR keeps ILE, ME and IP. *)
Record entered (vector cause : Z) (c c' : fpu_machine.cpu) : Prop := {
  e_pc : fpu_machine.pc c' = fpu_machine.word (Z.lor (if fpu_machine.IP c then 0xfff00000 else 0) vector);
  e_spr : fpu_machine.spr c' = <[fpu_machine.SRR1 := Z.lor (field (fpu_machine.msr c) 0 16) cause]>
                                 (<[fpu_machine.SRR0 := fpu_machine.pc c]> (fpu_machine.spr c));
  e_msr : fpu_machine.msr c' = Z.land (fpu_machine.msr c) 0x11040;
  e_count : fpu_machine.exceptions c' = fpu_machine.exceptions c + 1
}.
(** The next instruction, with the SPRs and the MSR as they were. *)
Record continued (c c' : fpu_machine.cpu) : Prop := {
  n_pc : fpu_machine.pc c' = fpu_machine.word (fpu_machine.pc c + 4);
  n_spr : fpu_machine.spr c' = fpu_machine.spr c;
  n_msr : fpu_machine.msr c' = fpu_machine.msr c;
  n_count : fpu_machine.exceptions c' = fpu_machine.exceptions c
}.
(** CR1 of a record form; the other fields kept. *)
Definition recorded (k : case) (c c' : fpu_machine.cpu) : Prop :=
  if rc k =? 1
  then fits 32 (fpu_machine.cr c') /\
       forall b, 0 <= b < 32 -> fpu_machine.bit (fpu_machine.cr c') b =
         if b / 4 =? 1 then Z.testbit (cr1 k) (3 - b mod 4) else fpu_machine.bit (fpu_machine.cr c) b
  else fpu_machine.cr c' = fpu_machine.cr c.

(** The instruction of [k] answered as the case expects, between [c] and [c']: every
    component of the machine. Its status word, its result or its target kept, CR1 of a
    record form, the FP enabled exception or the next instruction, and the rest
    untouched; [steps] counts instructions. *)
Record answered (k : case) (c c' : fpu_machine.cpu) : Prop := {
  w_fpscr : fpu_machine.fpscr c' = new k;
  w_target : if write k then Z.land (fpu_machine.fr c' 4) (mask k) = result k else fpu_machine.fr c' 4 = fpu_machine.fr c 4;
  w_others : forall n : nat, n <> 4%nat -> fpu_machine.fpr c' !! n = fpu_machine.fpr c !! n;
  w_cr : recorded k c c';
  w_exc : if exc k =? FP_ENABLED then entered 0x700 fpu_core_program.SRR1_FP c c' else continued c c';
  w_rest : untouched c c';
  w_steps : fpu_machine.steps c' = fpu_machine.steps c + 1
}.

Section Deliver.
Variable c : fpu_machine.cpu.
Variables w value : Z.
Variable o : out.
Hypothesis Htarget : fpu_machine.ibits w 6 10 = 4.
Hypothesis Hlen : length (fpu_machine.fpr c) = 32%nat.
Let v := fpu_machine.after (fpu_machine.fpscr c) o.
Let c' := fpu_machine.deliver w o value c.
Let traps := fpu_machine.FE_of (fpu_machine.msr c) && fpu_machine.bit v 1.

#[local] Opaque fpu_machine.word_of fpu_machine.after.
(** What delivering a result does, part by part. *)
Lemma deliver_fprs : fpu_machine.fpr c' = if write_result o then <[4%nat := value]> (fpu_machine.fpr c) else fpu_machine.fpr c.
Proof.
  subst c'. unfold fpu_machine.deliver, fpu_machine.fp_done, fpu_machine.update, fpu_machine.record. rewrite Htarget.
  destruct (write_result o), (fpu_machine.ibits w 31 31 =? 1); cbv zeta; case_if; reflexivity.
Qed.
Ltac delivered :=
  unfold fpu_machine.deliver, fpu_machine.fp_done, fpu_machine.update, fpu_machine.record;
  destruct (write_result o), (fpu_machine.ibits w 31 31 =? 1); cbv zeta.
Lemma deliver_rest :
  fpu_machine.fpscr c' = v /\ untouched c c' /\ fpu_machine.steps c' = fpu_machine.steps c + 0 /\
  fpu_machine.cr c' = if fpu_machine.ibits w 31 31 =? 1 then fpu_machine.cr (fpu_machine.set_crf 1 (Z.shiftr v 28) c)
                      else fpu_machine.cr c.
Proof. subst c'. rewrite Z.add_0_r. delivered; case_if; repeat split; cbn; rewrite ?Z.add_0_r; reflexivity. Qed.
Lemma deliver_flow : if traps then entered 0x700 fpu_core_program.SRR1_FP c c' else continued c c'.
Proof.
  subst c' traps. fold v. delivered;
    match goal with |- context [if fpu_machine.FE_of ?m && fpu_machine.FEX ?x then _ else _] =>
      change (fpu_machine.FE_of m && fpu_machine.FEX x) with (fpu_machine.FE_of (fpu_machine.msr c) && fpu_machine.bit v 1) end;
    destruct (_ && _); constructor; first [reflexivity | apply Z.add_0_r].
Qed.
End Deliver.

Lemma bit_set_crf v c b :
  0 <= b < 32 ->
  fpu_machine.bit (fpu_machine.cr (fpu_machine.set_crf 1 v c)) b =
  if b / 4 =? 1 then Z.testbit v (3 - b mod 4) else fpu_machine.bit (fpu_machine.cr c) b.
Proof.
  intros Hb. unfold fpu_machine.bit at 1. change (fpu_machine.cr (fpu_machine.set_crf 1 v c)) with
    (fpu_machine.word_of (fun b => if b / 4 =? 1 then Z.testbit v (3 - b mod 4) else fpu_machine.bit (fpu_machine.cr c) b)).
  rewrite testbit_word_of by lia. replace (31 - (31 - b)) with b by lia. reflexivity.
Qed.

Lemma set_crf_cr v c c' :
  fpu_machine.cr c = fpu_machine.cr c' -> fpu_machine.cr (fpu_machine.set_crf 1 v c) = fpu_machine.cr (fpu_machine.set_crf 1 v c').
Proof. unfold fpu_machine.set_crf, fpu_machine.set_cr. cbn [fpu_machine.cr]. intros ->. reflexivity. Qed.
Lemma recorded_crf k c c' w :
  fpu_machine.ibits w 31 31 = rc k ->
  fpu_machine.cr c' = (if fpu_machine.ibits w 31 31 =? 1 then fpu_machine.cr (fpu_machine.set_crf 1 (cr1 k) c) else fpu_machine.cr c) ->
  recorded k c c'.
Proof.
  intros -> Hcr. unfold recorded. destruct (rc k =? 1); [| exact Hcr]. rewrite Hcr.
  split; [apply word_of_fits | intros b Hb; apply bit_set_crf, Hb].
Qed.

(** The integer conversions leave the undefined high word beside their result. *)
Lemma delivered_result op o :
  fits 64 (o_result o) ->
  let mask := if str_in op ["fctiw"; "fctiwz"]%string then Z.ones 32 else Z.ones 64 in
  Z.land (if str_in op ["fctiw"; "fctiwz"]%string then Z.lor fpu_machine.UNDEFINED (o_result o) else o_result o) mask =
  Z.land (o_result o) mask.
Proof. intros Hr. cbv zeta. case_if; [| reflexivity]. rewrite Z.land_lor_distr_l. reflexivity. Qed.

Lemma oracle_rounds name op : In (name, op) ORACLE -> str_in op ["cmpu"; "cmpo"]%string = false.
Proof. cbn [ORACLE In]. intuition (simplify_eq; reflexivity). Qed.

(** What a case expects is what the machine does. *)
Lemma answers_step k name op single exp t c :
  answers k name op single exp -> loaded k c -> exists c', fpu_machine.step t c = Some c' /\ answered k c c'.
Proof.
  intros H L. pose proof (oracle_cases name op (a_op _ _ _ _ _ H)) as Hin.
  destruct (step_reaches name op single (rc k) Hin (a_rc _ _ _ _ _ H) t (insn k) c (a_insn _ _ _ _ _ H) (l_insn _ _ L) (l_fp _ _ L))
    as (Hd & Hrec & Hstep).
  assert (Hexp := a_exp _ _ _ _ _ H).
  pose proof (oracle_rounds name op Hin) as Hop. pose proof (arithmetic_no_compare _ _ _ _ _ _ _ Hop Hexp) as Hcmp.
  pose proof (Forall_inv (a_words _ _ _ _ _ H)) as Ha. pose proof (Forall_inv (Forall_inv_tail (a_words _ _ _ _ _ H))) as Hb.
  pose proof (Forall_inv (Forall_inv_tail (Forall_inv_tail (a_words _ _ _ _ _ H)))) as Hc.
  destruct (arithmetic_fits _ _ _ _ _ _ _ Ha Hb Hc Hexp) as [Hr Hf Hcc].
  assert (Hold : fits 32 (old k)) by (apply (fits_le 8); [apply (a_old _ _ _ _ _ H) | lia]).
  pose proof (after_contract (old k) exp Hold Hf Hcc) as Hafter. rewrite Hcmp, <- (a_new _ _ _ _ _ H) in Hafter.
  rewrite <- (l_ra _ _ L), <- (l_rb _ _ L), <- (l_rc _ _ L), <- (l_fpscr _ _ L) in Hexp.
  pose proof (operands_reach name op single (rc k) (insn k) (fpu_machine.count 1 0 c) exp Hin (a_rc _ _ _ _ _ H) (a_insn _ _ _ _ _ H) Hexp) as Hrun.
  eexists. split; [rewrite Hstep; unfold fpu_machine.operate; rewrite Hrun; reflexivity |].
  set (c1 := fpu_machine.count 1 0 c). set (value := if str_in op _ then _ else _).
  pose proof (deliver_fprs c1 (insn k) value exp Hd) as Hfprs.
  destruct (deliver_rest c1 (insn k) value exp) as (Hstatus & Hrest & Hsteps & Hcr).
  pose proof (deliver_flow c1 (insn k) value exp) as Hflow.
  change (fpu_machine.fpscr c1) with (fpu_machine.fpscr c) in *. rewrite (l_fpscr _ _ L), <- Hafter in *.
  set (c' := fpu_machine.deliver (insn k) exp value c1) in *. clearbody c'.
  constructor.
  - exact Hstatus.
  - rewrite (a_write _ _ _ _ _ H). unfold fpu_machine.fr. rewrite Hfprs. destruct (write_result exp); [| reflexivity].
    change (Z.to_nat 4) with 4%nat. rewrite (nth_lookup_Some _ _ _ value);
      [| apply list_lookup_insert_eq; change (fpu_machine.fpr c1) with (fpu_machine.fpr c); rewrite (l_fprs _ _ L); lia].
    rewrite (a_result _ _ _ _ _ H), (a_mask _ _ _ _ _ H). apply delivered_result. exact Hr.
  - intros n Hn4. rewrite Hfprs. destruct (write_result exp); [| reflexivity].
    rewrite list_lookup_insert_ne by congruence. reflexivity.
  - apply (recorded_crf k c c' (insn k)); [exact Hrec |]. rewrite (a_cr1 _ _ _ _ _ H).
    rewrite (set_crf_cr _ c1 c eq_refl) in Hcr. change (fpu_machine.cr c1) with (fpu_machine.cr c) in Hcr. exact Hcr.
  - rewrite (a_exc _ _ _ _ _ H). change (fpu_machine.msr c1) with (fpu_machine.msr c) in Hflow. rewrite (l_fe _ _ L) in Hflow.
    change (fpu_machine.bit (new k) 1) with (Z.testbit (new k) 30) in Hflow.
    destruct (negb (fe k =? 0) && Z.testbit (new k) 30);
      [change (FP_ENABLED =? FP_ENABLED) with true | change (NO_EXCEPTION =? FP_ENABLED) with false];
      destruct Hflow as [H1 H2 H3 H4]; (constructor; [exact H1 | exact H2 | exact H3 |]);
      change (fpu_machine.exceptions c1) with (fpu_machine.exceptions c + 0) in H4; rewrite Z.add_0_r in H4; exact H4.
  - destruct Hrest as [H1 H2 H3 H4]. constructor; assumption.
  - rewrite Hsteps. apply Z.add_0_r.
Qed.

(** A machine with the case loaded. *)
Definition machine_of (k : case) : fpu_machine.cpu :=
  {| fpu_machine.gpr := replicate 32 0; fpu_machine.tgpr := replicate 4 0;
     fpu_machine.fpr := [0; ra k; rb k; rc_ k] ++ replicate 28 0; fpu_machine.spr := ∅; fpu_machine.cr := 0;
     fpu_machine.msr := if fe k =? 0 then 0x2000 else 0x2900; fpu_machine.fpscr := old k; fpu_machine.pc := 0x1000;
     fpu_machine.tlb := ∅; fpu_machine.mem := {[0x1000 := insn k]}; fpu_machine.steps := 0; fpu_machine.exceptions := 0 |}.
Lemma machine_of_loaded k : loaded k (machine_of k).
Proof.
  constructor; try reflexivity; cbn [machine_of fpu_machine.msr fpu_machine.pc fpu_machine.mem].
  - unfold fpu_machine.FP. cbn [machine_of fpu_machine.msr]. case_if; reflexivity.
  - case_if; reflexivity.
Qed.

(** C37. The reference machine answers every random case: whatever the draws, on the
    instruction of a case the generator returns, with its operands in f1 to f3 and its
    status word and MSR[FE] in place, one step leaves the status word, the target, CR1
    and the exception that the generator goes on to check. Every other register, the
    TLB and memory are as they were; the exception writes SRR0, SRR1 and the MSR. *)
Theorem case_603_answered {S : Type} `{!Rng S} `{!RngLaws S} (s s' : S) k t c :
  case_603 s = (s', Ok k) -> loaded k c ->
  exists c', fpu_machine.step t c = Some c' /\ answered k c c'.
Proof.
  intros E Hl. pose proof (case_603_yields s) as H. rewrite E in H. destruct H as (name & op & single & exp & H).
  apply (answers_step k name op single exp); assumption.
Qed.

(** The first case of the default seed. *)
Lemma case_603_answered_witness :
  exists s' k, case_603 (mersenne.Random_ 0x603e) = (s', Ok k) /\ insn k = 4236316922 /\ loaded k (machine_of k) /\
    exists c', fpu_machine.step {| fpu_machine.protected := fun _ => false; fpu_machine.unchanged_page := fun _ => false;
                                  fpu_machine.bus_error := fun _ => false; fpu_machine.identity := true;
                                  fpu_machine.miss_way := true |} (machine_of k) = Some c' /\ answered k (machine_of k) c'.
Proof.
  assert (Hok : match snd (case_603 (mersenne.Random_ 0x603e)) with Ok k => insn k =? 4236316922 | Raise _ => false end = true)
    by (vm_compute; reflexivity).
  destruct (case_603 (mersenne.Random_ 0x603e)) as [s' r] eqn:E. cbn [snd] in Hok. destruct r as [k | e]; [| discriminate].
  exists s', k. split; [reflexivity |]. split; [apply Z.eqb_eq, Hok |]. split; [apply machine_of_loaded |].
  exact (case_603_answered _ _ _ _ _ E (machine_of_loaded k)).
Defined.
