(* ===== verification/FpuRuns.v ===== *)
(** * The floating-point core images on the reference machine

    The images of the Makefile's targets, generated from their seed, run from reset
    on [fpu_machine]: the bench's images leave every expected word, the chip's image
    reports success, and failure when an expected word is changed. *)
From stdpp Require Import sorting.
From S2P Require Import Prelude PyRandom FpCases FpuProgram FpuMachine.
Import fpu_core_program.

(** The text image as tb_core_fpu reads it. *)
Definition in_line (f : line -> option (Z * Z)) (l : list line) : Z -> bool :=
  match omap f l with
  | (lo, hi) :: _ => fun a => (lo <=? a) && (a <=? hi)
  | [] => fun _ => false
  end.
Definition bench_part (l : list line) : fpu_machine.part :=
  {| fpu_machine.protected := in_line (fun x => match x with LineP lo hi => Some (lo, hi) | _ => None end) l;
     fpu_machine.unchanged_page := in_line (fun x => match x with LineC lo hi => Some (lo, hi) | _ => None end) l;
     fpu_machine.bus_error := in_line (fun x => match x with LineT lo hi => Some (lo, hi) | _ => None end) l;
     fpu_machine.identity := true; fpu_machine.miss_way := true |}.
Definition bench_memory (l : list line) : gmap Z Z :=
  fold_left (fun x ln => match ln with LineM a v => <[a := v]> x | _ => x end) l ∅.
Definition bench_done (l : list line) : fpu_machine.cpu -> bool :=
  let done := omap (fun ln => match ln with LineD a => Some a | _ => None end) (take 4 l) in
  fun c => existsb (fun a => match fpu_machine.mem c !! a with Some _ => true | None => false end) done.
Definition STEPS : nat := Z.to_nat 12000.
Definition bench_run (l : list line) : option fpu_machine.cpu :=
  fpu_machine.run STEPS (bench_part l) (bench_done l) (fpu_machine.reset 0x1000 (bench_memory l)).

Definition word_passes (x : gmap Z Z) (a value mask : Z) : bool :=
  Z.land (Z.lxor (fpu_machine.read x a) value) mask =? 0.
(** The settings of the targets of sim/Makefile that run tb_core_fpu: FPU_CORE_SEED and
    FPU_CORE_RANDOM, with and without the load/store unit where the target follows the
    build, and of width 1 and 2. test-core-fpu-compact and the compact machine check
    target have the images of test-core-fpu and of test-core-fpu-machine-check-603. *)
Definition FPU_CORE_SEED : Z := 0x603e.
Definition FPU_CORE_RANDOM : nat := 200.
Definition setting (bits : Z) (pipe mem dual mc snoop : bool) : options :=
  {| chip_image := false; seed := FPU_CORE_SEED; random := FPU_CORE_RANDOM; dmem_bits := bits; lsu_pipe := pipe; pipe_mem := mem;
     dual_write := dual; machine_check := mc; base_snoop := snoop |}.
Definition test_core_fpu : options := setting 64 false false false false false.
Definition BENCH_TARGETS : list options :=
  [test_core_fpu;
   setting 64 true false false false false;     (* test-core-fpu with the unit *)
   setting 64 true true false false false;      (* test-core-lsu-timing *)
   setting 64 true true true false false;       (* test-core-lsu-timing, width 2 *)
   setting 64 true true false false true;       (* test-core-lsu-timing-snoop *)
   setting 64 true true true false true;        (* test-core-lsu-timing-snoop, width 2 *)
   setting 64 true false false true false;      (* test-core-fpu-machine-check-lsu *)
   setting 64 false false false true false;     (* test-core-fpu-machine-check-603 *)
   setting 32 false false false false false;    (* test-core-fpu-split *)
   setting 32 true false false false false].    (* test-core-fpu-split with the unit *)

(** The cases are the same for every target; they are drawn once. *)
Definition drawn (s : Z) (n : nat) : result (list enabled_cases.case) :=
  snd (enabled_cases.repeat_case n enabled_cases.case_603 (mersenne.Random_ s)).
Definition build_with {G : Globals} (cases : list enabled_cases.case) : result Program :=
  match build_body cases new_program with (p, Ok _) => Ok p | (_, Raise e) => Raise e end.
Lemma build_drawn {G : Globals} s n cases :
  drawn s n = Ok cases -> build (mersenne.Random_ s) n = build_with cases.
Proof. unfold drawn, build. intros ->. reflexivity. Qed.

(** What the image holds, without going through its lines: its memory is the program's
    words, and its first four lines are those of the parts. *)
Definition write_words (l : list (Z * Z)) (x : gmap Z Z) : gmap Z Z := fold_left (fun x e => <[e.1 := e.2]> x) l x.
Lemma write_words_lookup l a : forall x,
  NoDup l.*1 -> write_words l x !! a = match (list_to_map l : gmap Z Z) !! a with Some v => Some v | None => x !! a end.
Proof.
  induction l as [| [k v] l IH]; intros x Hn; [reflexivity |]. cbn in Hn. apply NoDup_cons in Hn as [Hk Hn].
  change (write_words ((k, v) :: l) x) with (write_words l (<[k := v]> x)). rewrite (IH _ Hn). cbn [list_to_map foldr uncurry].
  destruct (decide (k = a)) as [-> | Hne].
  - rewrite (not_elem_of_list_to_map_1 l a Hk), !lookup_insert_eq. reflexivity.
  - rewrite !lookup_insert_ne by exact Hne. reflexivity.
Qed.
(** A line of the memory image, written. *)
Definition write_line (x : gmap Z Z) (ln : line) : gmap Z Z := match ln with LineM a v => <[a := v]> x | _ => x end.
Lemma write_other l x : Forall (fun ln => match ln with LineM _ _ => False | _ => True end) l -> fold_left write_line l x = x.
Proof.
  revert x. induction l as [| ln l IH]; intros x H; [reflexivity |]. apply Forall_cons in H as [H1 H2]. cbn [fold_left].
  destruct ln; first [contradiction | apply IH, H2].
Qed.
Lemma write_memory l x : fold_left write_line (map (fun '(a, v) => LineM a v) l) x = write_words l x.
Proof. revert x. induction l as [| [a v] l IH]; intros x; [reflexivity | apply IH]. Qed.
Lemma bench_memory_of {G : Globals} done p : bench_memory (image_lines done p) = words p.
Proof.
  change (bench_memory (image_lines done p)) with (fold_left write_line (image_lines done p) ∅).
  unfold image_lines. rewrite !fold_left_app, write_memory. cbn [fold_left write_line].
  rewrite !write_other by (apply Forall_map, Forall_forall; intros x _; repeat destruct x as [x ?]; exact I).
  apply map_eq. intros a. pose proof (merge_sort_Permutation address_le (map_to_list (words p))) as Hp.
  fold (sorted_words (words p)) in Hp. pose proof (NoDup_fst_map_to_list (words p)) as Hn. rewrite <- Hp in Hn.
  rewrite write_words_lookup, (list_to_map_proper _ _ Hn Hp), list_to_map_to_list, lookup_empty by exact Hn.
  destruct (words p !! a); reflexivity.
Qed.
(** An expectation of the image is one of the program. *)
Lemma expected_line {G : Globals} done p a value mask :
  In (LineE a value mask) (image_lines done p) -> In (a, value, mask) (expects p).
Proof.
  unfold image_lines. rewrite !in_app_iff, !in_map_iff. cbn [In].
  intros [[H | [H | [H | [H | []]]]] | [[[? ?] [H _]] | [[[[a' v'] k'] [H Hin]] | [[[? ?] [H _]] | [[[[? ?] ?] ?] [H _]]]]]]; try discriminate H.
  injection H as -> -> ->. exact Hin.
Qed.

Definition bench_check (cases : list enabled_cases.case) (o : options) : bool :=
  match build_with (G := globals_of o) cases with
  | Ok p => let l := image_lines (@DONE (globals_of o)) p in
            match fpu_machine.run STEPS (bench_part l) (bench_done l) (fpu_machine.reset 0x1000 (words p)) with
            | Some c => forallb (fun '(a, v, k) => word_passes (fpu_machine.mem c) a v k) (expects p)
                        && (fpu_machine.exceptions c =? Z.of_nat (length (log p)))
            | None => false
            end
  | Raise _ => false
  end.
(** A check on a drawn value, for each element of a list. *)
Definition checked {A B} (r : result A) (check : A -> B -> bool) (l : list B) : bool :=
  match r with Ok a => forallb (check a) l | Raise _ => false end.
Lemma checked_each {A B} (r : result A) (check : A -> B -> bool) (l : list B) x :
  checked r check l = true -> In x l -> exists a, r = Ok a /\ check a x = true.
Proof. unfold checked. destruct r as [a | e]; [| discriminate]. rewrite forallb_forall. intros H Hx. exists a. auto. Qed.
Lemma bench_checks : checked (drawn FPU_CORE_SEED FPU_CORE_RANDOM) bench_check BENCH_TARGETS = true.
Proof. vm_cast_no_check (eq_refl true). Qed.
Lemma bench_settings o :
  In o BENCH_TARGETS -> chip_image o = false /\ seed o = FPU_CORE_SEED /\ random o = FPU_CORE_RANDOM.
Proof. cbn [In BENCH_TARGETS]. intuition (subst o; reflexivity). Qed.

Lemma main_built o p :
  chip_image o = false -> build (G := globals_of o) (mersenne.Random_ (seed o)) (random o) = Ok p ->
  main o = Ok (TextImage (image_lines (@DONE (globals_of o)) p)).
Proof. intros Hc E. unfold main. rewrite E, Hc. reflexivity. Qed.
Lemma built o cases :
  In o BENCH_TARGETS -> drawn FPU_CORE_SEED FPU_CORE_RANDOM = Ok cases ->
  build (G := globals_of o) (mersenne.Random_ (seed o)) (random o) = build_with (G := globals_of o) cases.
Proof. intros Ho Ed. destruct (bench_settings o Ho) as (_ & -> & ->). apply build_drawn, Ed. Qed.
Lemma check_builds cases o : bench_check cases o = true -> exists p, build_with (G := globals_of o) cases = Ok p.
Proof. unfold bench_check. destruct (build_with _) as [p | e]; [eauto | intros H; discriminate H]. Qed.
Lemma word_passes_spec x l :
  forallb (fun '(a, v, k) => word_passes x a v k) l = true ->
  forall a value mask, In (a, value, mask) l -> Z.land (Z.lxor (fpu_machine.read x a) value) mask = 0.
Proof. rewrite forallb_forall. intros H a value mask Hin. specialize (H _ Hin). apply Z.eqb_eq, H. Qed.

Lemma check_runs cases o p :
  bench_check cases o = true -> build_with (G := globals_of o) cases = Ok p ->
  let l := image_lines (@DONE (globals_of o)) p in
  exists c, bench_run l = Some c /\
    (forall a value mask, In (LineE a value mask) l ->
       Z.land (Z.lxor (fpu_machine.read (fpu_machine.mem c) a) value) mask = 0) /\
    fpu_machine.exceptions c = Z.of_nat (length (log p)).
Proof.
  unfold bench_check. intros H E. rewrite E in H. cbv zeta in *. unfold bench_run. rewrite (bench_memory_of (G := globals_of o)).
  destruct (fpu_machine.run _ _ _ _) as [c |]; [| discriminate H]. bool_prop. exists c. split; [reflexivity |].
  split; [| assumption]. intros a value mask Hin. eapply word_passes_spec; [eassumption |]. exact (expected_line (G := globals_of o) _ _ _ _ _ Hin).
Qed.

(** C35. The bench's image is right for every target: the generator returns on the
    target's seed and number of random cases, its image runs from reset on the
    reference machine to the final store, every expected word then holds under its
    mask, and the machine took exactly the exceptions the generator logged. *)
Theorem bench_image_passes o :
  In o BENCH_TARGETS ->
  exists p l c, build (G := globals_of o) (mersenne.Random_ (seed o)) (random o) = Ok p /\ main o = Ok (TextImage l) /\
    bench_run l = Some c /\
    (forall a value mask, In (LineE a value mask) l ->
       Z.land (Z.lxor (fpu_machine.read (fpu_machine.mem c) a) value) mask = 0) /\
    fpu_machine.exceptions c = Z.of_nat (length (log p)).
Proof.
  intros Ho. destruct (checked_each _ _ _ o bench_checks Ho) as (cases & Ed & H).
  destruct (check_builds cases o H) as [p Ep]. pose proof (built o cases Ho Ed) as E. rewrite Ep in E.
  destruct (check_runs cases o p H Ep) as (c & Hc). exists p, (image_lines (@DONE (globals_of o)) p), c.
  split; [exact E |]. split; [apply main_built; [apply (bench_settings o Ho) | exact E] | exact Hc].
Qed.

Lemma bench_image_passes_witness :
  exists p l c, build (G := globals_of test_core_fpu) (mersenne.Random_ 0x603e) 200 = Ok p /\ main test_core_fpu = Ok (TextImage l) /\
    bench_run l = Some c /\
    (forall a value mask, In (LineE a value mask) l ->
       Z.land (Z.lxor (fpu_machine.read (fpu_machine.mem c) a) value) mask = 0) /\
    fpu_machine.exceptions c = Z.of_nat (length (log p)).
Proof. apply (bench_image_passes test_core_fpu). left. reflexivity. Defined.

(** ** The chip *)
Definition chip_part : fpu_machine.part :=
  {| fpu_machine.protected := fun _ => false; fpu_machine.unchanged_page := fun _ => false;
     fpu_machine.bus_error := fun _ => false; fpu_machine.identity := false; fpu_machine.miss_way := false |}.
Definition HARD_RESET : Z := 0xfff00100.
Definition MAILBOX : Z := 0xfff3ff00.
Definition chip_run (x : gmap Z Z) : option fpu_machine.cpu :=
  fpu_machine.run STEPS chip_part (fun c => bool_decide (is_Some (fpu_machine.mem c !! MAILBOX))) (fpu_machine.reset HARD_RESET x).
Definition mailbox (c : fpu_machine.cpu) : Z := fpu_machine.read (fpu_machine.mem c) MAILBOX.

(** test-chip-fpu *)
Definition test_chip_fpu : options :=
  {| chip_image := true; seed := 0x603e; random := 40; dmem_bits := 64; lsu_pipe := false; pipe_mem := false;
     dual_write := false; machine_check := false; base_snoop := false |}.
Definition CHIP_TARGETS : list options := [test_chip_fpu].
(** The immediate of the last comparison, with one bit flipped: [ori r7, r7, value],
    the compare, two branches and the ten words of the two reports end the code. *)
Definition corrupt (p : Program) : gmap Z Z :=
  let a := pc p - 4 * 14 in <[a := Z.lxor (default 0 (words p !! a)) 1]> (words p).
Definition in_image (p : Program) : bool :=
  forallb (fun e => in_range 0 (CHIP_IMAGE_BYTES - 3) (fst e - CHIP_BASE) && in_range 0 (2 ^ 32) (snd e)) (map_to_list (words p)).
Definition chip_check (o : options) : bool :=
  match build (G := globals_of o) (mersenne.Random_ (seed o)) (random o) with
  | Ok p => in_image p
            && match chip_run (words p) with
               | Some c => (mailbox c =? 1) && (fpu_machine.exceptions c =? Z.of_nat (length (log p)))
                           && forallb (fun '(a, v, k) => word_passes (fpu_machine.mem c) a v k) (expects p)
               | None => false
               end
            && match chip_run (corrupt p) with Some c => mailbox c =? 2 | None => false end
  | Raise _ => false
  end.
Lemma in_fpu_image p :
  in_image p = true -> forall a v, words p !! a = Some v -> CHIP_BASE <= a <= CHIP_BASE + CHIP_IMAGE_BYTES - 4 /\ 0 <= v < 2 ^ 32.
Proof.
  unfold in_image. rewrite forallb_forall. intros H a v E. apply elem_of_map_to_list, list_elem_of_In in E.
  specialize (H _ E). cbn [fst snd] in H. bool_prop.
  repeat match goal with H : in_range _ _ _ = true |- _ => apply in_range_iff in H end. split; [lia | assumption].
Qed.
Lemma fpu_chip_checks : forallb chip_check CHIP_TARGETS = true.
Proof. vm_cast_no_check (eq_refl true). Qed.

(** C36. The self-checking chip image is right: the generator returns, every word lies
    in the image, and run from the hard reset vector, with an empty TLB and the
    translated accesses missing, the image puts 1 in the mailbox after the exceptions
    the generator logged and with every expected word in place; with one bit of the
    last comparison flipped it puts 2 there. *)
Theorem chip_image_reports o :
  In o CHIP_TARGETS ->
  exists p c c', build (G := globals_of o) (mersenne.Random_ (seed o)) (random o) = Ok p /\
    (forall a v, words p !! a = Some v -> CHIP_BASE <= a <= CHIP_BASE + CHIP_IMAGE_BYTES - 4 /\ 0 <= v < 2 ^ 32) /\
    chip_run (words p) = Some c /\ mailbox c = 1 /\ fpu_machine.exceptions c = Z.of_nat (length (log p)) /\
    (forall a value mask, In (a, value, mask) (expects p) ->
       Z.land (Z.lxor (fpu_machine.read (fpu_machine.mem c) a) value) mask = 0) /\
    chip_run (corrupt p) = Some c' /\ mailbox c' = 2.
Proof.
  intros Ho. pose proof fpu_chip_checks as H. rewrite forallb_forall in H. specialize (H o Ho). unfold chip_check in H.
  destruct (build _ _) as [p | e] eqn:E; [| discriminate].
  destruct (chip_run (words p)) as [c |] eqn:Er; [| bool_prop; discriminate].
  destruct (chip_run (corrupt p)) as [c' |] eqn:Ec; [| bool_prop; discriminate]. bool_prop.
  exists p, c, c'. split; [reflexivity |]. split; [apply in_fpu_image; assumption |].
  split; [exact Er |]. do 2 (split; [assumption |]). split; [apply word_passes_spec; assumption | auto].
Qed.

Lemma chip_image_reports_witness :
  exists p c c', build (G := globals_of test_chip_fpu) (mersenne.Random_ 0x603e) 40 = Ok p /\
    (forall a v, words p !! a = Some v -> CHIP_BASE <= a <= CHIP_BASE + CHIP_IMAGE_BYTES - 4 /\ 0 <= v < 2 ^ 32) /\
    chip_run (words p) = Some c /\ mailbox c = 1 /\ fpu_machine.exceptions c = Z.of_nat (length (log p)) /\
    (forall a value mask, In (a, value, mask) (expects p) ->
       Z.land (Z.lxor (fpu_machine.read (fpu_machine.mem c) a) value) mask = 0) /\
    chip_run (corrupt p) = Some c' /\ mailbox c' = 2.
Proof. apply (chip_image_reports test_chip_fpu). left. reflexivity. Defined.
