(* ===== verification/Fpu602Program.v ===== *)
(** * Floating-point core program of the 602 ([sim/tools/fpu_core_602_program.py])

    The generator of the 602's program: the class [Program602], which adds the SP and
    LT tag words and the count of sticky stalls to [Program] and overrides two of its
    methods, the directed sections, the random enabled-exception cases, the timing
    sections and the image. The sections the module imports are those of
    [fpu_core_program]. *)
From S2P Require Import Prelude PyRandom FpReference FpPpc FpStatus FpCases FpuProgram.

Module fpu_core_602_program.
Import enabled_vectors production_vectors_602 fpu_core_program.

Definition MSR_PR : Z := 0x4000.
Definition MSR_SE : Z := 0x400.
Definition SRR1_PRIV : Z := 0x00040000.
Definition VECTORS : list Z := [0x200; 0x300; 0x600; 0x700; 0x800; 0x1200; 0x1600].
Definition SPR_SP : Z := 1021.
Definition SPR_LT : Z := 1022.
Definition STICKY : Z := fold_left (fun s b => s + Z.shiftl 1 b) EXCEPTION_BITS 0.
Definition THIRD : Z := 0x3fd5555555555555.

Definition narrow (bits : Z) : Z :=
  reference.bits (reference.calc_convert (reference.decode bits reference.B64) 0 reference.B64 reference.B32).
Definition mtspr (spr rs : Z) : Z := x_form 31 rs (Z.land spr 31) (Z.shiftr spr 5) 467 0.
(** [mfspr(rd, spr)]; the extended opcode defaults to 339. *)
Definition mfspr_xo (rd spr xo : Z) : Z := x_form 31 rd (Z.land spr 31) (Z.shiftr spr 5) xo 0.
Definition mfspr (rd spr : Z) : Z := mfspr_xo rd spr 339.
Definition tag (fr : Z) : Z := Z.shiftl 1 (31 - fr).

(** ** The program *)
Record Program602 : Type := { program : Program; sticky : Z; sp : Z; lt : Z }.
#[global] Instance extends_602 : Extends Program602 :=
  {| base := program;
     on_base := fun f p => {| program := f (program p); sticky := sticky p; sp := sp p; lt := lt p |} |}.
Definition set_sticky (v : Z) (p : Program602) : Program602 :=
  {| program := program p; sticky := v; sp := sp p; lt := lt p |}.
Definition put_tags (s l : Z) (p : Program602) : Program602 :=
  {| program := program p; sticky := sticky p; sp := s; lt := l |}.

Section Program602.
Context {G : Globals}.
Let m : Type -> Type := method Program602.

Definition new_program_602 : Program602 := {| program := new_program; sticky := 0; sp := 0; lt := 0 |}.

(** Retire an FP result: a completion stall for a newly set sticky bit with FE clear. *)
Definition fpscr_update (new : Z) : m unit :=
  do! v := get_ msr in
  do! old := get_ fpscr in
  do! _ := m_when (negb (truthy (Z.land v (Z.lor FE0 FE1))) && truthy (Z.land (Z.land new (Z.lnot old)) STICKY))
             (m_update (fun p => set_sticky (sticky p + 1) p)) in
  set_ (set_fpscr new).
(** [p.fpscr_update(f(p.fpscr))] *)
Definition fpscr_update_by (f : Z -> Z) : m unit := do! v := get_ fpscr in fpscr_update (f v).

Definition with_tag (word fr : Z) (on : bool) : Z := Z.lor (Z.land word (Z.lnot (tag fr))) (if on then tag fr else 0).
Definition write_fpr (fr : Z) (s l : bool) : m unit :=
  m_update (fun p => put_tags (with_tag (sp p) fr s) (with_tag (lt p) fr l) p).

Definition lfs (fr bits : Z) : m unit :=
  do! addr := data [Z.shiftl bits 32] in
  block [li32 5 addr; emit_ (d_form 48 fr 5 0); write_fpr fr true false].
Definition store_sp (fr bits : Z) : m unit :=
  do! addr := result_slot 1 in
  block [li32 21 addr; emit_ (d_form 52 fr 21 0); expect addr bits].
Definition store_lt_masked (fr bits mask : Z) : m unit :=
  do! addr := result_slot 1 in
  block [li32 21 addr; li32 22 0; emit_ (x_form 31 fr 21 22 983 0); expect_masked addr bits mask].
Definition store_lt (fr bits : Z) : m unit := store_lt_masked fr bits 0xffffffff.

Definition clear_fpscr_602 : m unit :=
  block [m_each (seqZ 0 8) (fun field_ => emit_ (ors [Z.shiftl 63 26; Z.shiftl field_ 23; Z.shiftl 134 1]));
         fpscr_set (fun _ => 0)].
Definition check_fpscr_602 (mask : Z) : m unit :=
  do! _ := block [emit_ (x_form 63 30 0 0 583 0); write_fpr 30 false true] in
  do! v := get_ fpscr in
  store_lt_masked 30 v mask.
#[global] Instance virtual_602 : Virtual Program602 :=
  {| clear_fpscr := clear_fpscr_602; check_fpscr_masked := check_fpscr_602 |}.

Definition check_tags : m unit :=
  do! _ := emit (mfspr 6 SPR_SP) in
  do! v := m_view sp in
  do! _ := store_gpr 6 v in
  do! _ := emit (mfspr 6 SPR_LT) in
  do! v := m_view lt in
  store_gpr 6 v.
Definition set_tags (s l : Z) : m unit :=
  block [li32 6 s; emit_ (mtspr SPR_SP 6); li32 6 l; emit_ (mtspr SPR_LT 6); m_update (put_tags s l)].
(** [p.set_tags(p.sp & ~tag(fr), p.lt)] and [p.set_tags(p.sp | tag(fr), p.lt)] *)
Definition untag (fr : Z) : m unit := do! p := m_get in set_tags (Z.land (sp p) (Z.lnot (tag fr))) (lt p).
Definition retag (fr : Z) : m unit := do! p := m_get in set_tags (Z.lor (sp p) (tag fr)) (lt p).

(** A single-precision instruction on binary32 sources, and its binary32 result. *)
Definition arith (insn : Z) (op : string) (dst a b c : Z) : m Z :=
  do! v := get_ fpscr in
  do! exp := m_lift (expected_602 op (widen_raw a) (widen_raw b) (widen_raw c) (Z.land v 3) false false false false false) in
  do! _ := emit insn in
  do! _ := fpscr_update (fpscr_after v exp) in
  if String.eqb op "fctiwz" then
    do! _ := write_fpr dst false true in
    m_ret (Z.land (ppc_reference.o_result exp) 0xffffffff)
  else
    do! _ := write_fpr dst true false in
    m_ret (narrow (ppc_reference.o_result exp)).
Definition arith_ (insn : Z) (op : string) (dst a b c : Z) : m unit := skip (arith insn op dst a b c).
(** [r = p.arith(...); p.store_sp(dst, r)] *)
Definition arith_stored (insn : Z) (op : string) (dst a b c : Z) : m unit :=
  do! r := arith insn op dst a b c in store_sp dst r.

Definition handlers : m unit :=
  block [handlers_at VECTORS;
         put_code 0xfff00c00
           [x_form 31 26 27 0 339 0;
            ors [Z.shiftl 21 26; Z.shiftl 26 21; Z.shiftl 26 16; Z.shiftl 18 6; Z.shiftl 16 1];
            x_form 31 26 27 0 467 0; x_form 19 0 0 0 50 0]].

Definition trap (insn : Z) : m unit := faults 0x1600 insn 0.

(** ** Directed sections *)
Definition unavailable_and_illegal : m unit :=
  do! _ := faults 0x700 (a_form 63 1 0 1 0 22 0) SRR1_ILLEGAL in
  do! at_ := emit (a_form 63 1 1 1 0 21 0) in
  do! v := get_ msr in
  do! _ := block [event 0x800 at_ v; msr_set (fun v => Z.lor v MSR_FP)] in
  do! v := get_ msr in
  block [event 0x1600 at_ v; clear_fpscr; set_tags 0 0].

Definition sp_lt : m unit :=
  do! _ := block [li32 5 0x12345678; emit_ (mtspr SPR_SP 5); li32 5 0x0f0f0f0f; emit_ (mtspr SPR_LT 5);
                  m_update (put_tags 0x12345678 0x0f0f0f0f); check_tags;
                  emit_ (mfspr_xo 7 SPR_SP 371); store_gpr 7 0x12345678;
                  msr_off MSR_FP;
                  li32 5 0x00ff00ff; emit_ (mtspr SPR_SP 5); emit_ (mfspr 7 SPR_SP); store_gpr 7 0x00ff00ff;
                  msr_on MSR_FP; set_tags 0 0;
                  lfs 3 (f32 (flt 3 2))] in
  do! v := arith (x_form 63 4 0 3 15 0) "fctiwz" 4 0 (f32 (flt 3 2)) 0 in
  block [store_lt 4 v; check_fpscr; check_tags;
         msr_on MSR_PR;
         faults 0x700 (mfspr 7 SPR_SP) SRR1_PRIV;
         faults 0x700 (mtspr SPR_LT 7) SRR1_PRIV;
         emit_ 0x44000002;
         msr_set (fun v => Z.land v (Z.lnot MSR_PR));
         check_tags; clear_fpscr].

Definition tag_traps : m unit :=
  do! _ := block [m_each [(10, f32 (flt 3 2)); (11, f32 (flt 1 4)); (12, f32 (flt 4 1)); (13, f32 (flt 3 1))]
                    (fun '(fr, bits) => lfs fr bits);
                  lfs 14 (f32 (flt (-2) 1));
                  untag 10; trap (a_form 59 14 10 11 0 21 0); retag 10; store_sp 14 (f32 (flt (-2) 1));
                  trap (a_form 63 14 10 11 0 21 0);
                  trap (a_form 63 14 10 0 12 25 0);
                  trap (x_form 63 14 0 10 14 0);
                  trap (ors [Z.shiftl 63 26; Z.shiftl 0xff 17; Z.shiftl 10 11; Z.shiftl 711 1])] in
  do! slot := result_slot 2 in
  do! _ := block [li32 21 slot; li32 22 0;
                  trap (x_form 31 10 21 22 983 0);
                  emit_ (x_form 63 15 0 0 583 0); write_fpr 15 false true;
                  trap (d_form 54 15 21 0)] in
  do! addr := data [THIRD] in
  block [li32 5 addr; trap (d_form 50 14 5 0); store_sp 14 (f32 (flt (-2) 1)); check_tags; check_fpscr].

Definition arithmetic_602 : m unit :=
  let one_half := f32 (flt 3 2) in
  let quarter := f32 (flt 1 4) in
  let four := f32 (flt 4 1) in
  let three := f32 (flt 3 1) in
  do! _ := block [clear_fpscr;
                  arith_stored (a_form 59 16 10 11 0 21 0) "add" 16 one_half quarter 0;
                  arith_stored (a_form 59 17 10 0 12 25 0) "mul" 17 one_half 0 four;
                  arith_stored (a_form 59 18 10 12 11 29 0) "madd" 18 one_half four quarter;
                  arith_stored (a_form 59 19 0 12 0 24 0) "fres" 19 0 four 0;
                  check_fpscr;
                  arith_stored (a_form 59 20 11 13 0 18 0) "div" 20 quarter three 0;
                  arith_stored (a_form 59 21 10 13 0 18 0) "div" 21 one_half three 0;
                  arith_stored (x_form 63 22 0 10 12 0) "frsp" 22 0 one_half 0;
                  check_fpscr;
                  emit_ (x_form 63 23 0 10 40 0); write_fpr 23 true false; store_sp 23 (Z.lxor one_half 0x80000000);
                  emit_ (a_form 63 24 23 12 11 23 0); write_fpr 24 true false; store_sp 24 four] in
  do! exp := m_lift (ppc_reference.arithmetic "cmpu" (widen_raw one_half) (widen_raw four) 0 0 no_controls) in
  do! _ := emit (ors [Z.shiftl 63 26; Z.shiftl 3 23; Z.shiftl 10 16; Z.shiftl 12 11]) in
  do! _ := block [fpscr_update_by (fun v => put_field (fpscr_after v exp) 0xf 12 (ppc_reference.fpcc exp));
                  set_cr_field 3 (ppc_reference.fpcc exp); check_cr; check_fpscr] in
  do! addr := data [f64 (flt (-13) 2)] in
  do! _ := block [li32 5 addr; emit_ (d_form 50 25 5 0); write_fpr 25 true false; store_sp 25 (f32 (flt (-13) 2))] in
  do! slot := result_slot 2 in
  block [li32 21 slot; emit_ (d_form 54 25 21 0);
         expect slot (Z.shiftr (f64 (flt (-13) 2)) 32); expect (slot + 4) (f64 (flt (-13) 2));
         check_tags; clear_fpscr].

(** ** Every byte offset *)
(** [p.words[addr]] *)
Definition word_of (addr : Z) : m Z :=
  do! x := get_ words in
  match x !! addr with Some w => m_ret w | None => m_raise KeyError end.
Definition to_bytes (w : Z) : list Z := map (fun k => Z.land (Z.shiftr w (8 * (3 - k))) 0xff) (seqZ 0 4).
(** [int.from_bytes(raw[off:off + 4], 'big')] *)
Definition from_bytes (raw : list Z) (off : Z) : Z :=
  fold_left (fun v b => Z.lor (Z.shiftl v 8) b) (take 4 (drop (Z.to_nat off) raw)) 0.
Definition put_byte (value area off i : Z) : m unit :=
  let addr := area + off + i in
  let word := Z.land addr (Z.lnot 3) in
  let shift := 8 * (3 - Z.land addr 3) in
  let byte := Z.land (Z.shiftr value (8 * (7 - i))) 0xff in
  do! w := word_of word in
  word_at word (Z.lor (Z.land w (Z.lnot (Z.shiftl 0xff shift))) (Z.shiftl byte shift)).
Definition lfd_at (off : Z) : m unit :=
  let value := Z.lxor (f64 (flt (16 + off) 16)) (Z.shiftl (Z.land off 1) 63) in
  do! area := data [0xa5a5a5a5a5a5a5a5; 0xa5a5a5a5a5a5a5a5] in
  do! _ := block [m_each (seqZ 0 8) (put_byte value area off); li32 5 area;
                  (if off =? 3 then block [li32 8 off; emit_ (x_form 31 27 5 8 599 0)] else emit_ (d_form 50 27 5 off));
                  write_fpr 27 true false] in
  do! slot := result_slot 2 in
  block [li32 21 slot; emit_ (d_form 54 27 21 0); expect slot (Z.shiftr value 32); expect (slot + 4) value].
(** [drawn]: three words of [random.Random(0x602)]. *)
Definition unaligned (drawn : list Z) : m unit :=
  do! base_ := data drawn in
  do! ws := m_map (fun i => word_of (base_ + 4 * i)) (seqZ 0 6) in
  let raw := flat_map to_bytes ws in
  do! _ := block [li32 20 base_;
                  m_each [1; 2; 3; 5; 6; 7] (fun off =>
                    block [emit_ (d_form 48 26 20 off); write_fpr 26 true false; store_sp 26 (from_bytes raw off)]);
                  m_each (seqZ 1 7) lfd_at;
                  li32 10 base_; emit_ (d_form 49 26 10 6); store_sp 26 (from_bytes raw 6); store_gpr 10 (base_ + 6);
                  lfs 28 (f32 (flt 7 1));
                  m_each [(d_form 48 28 31 (Z.land (-2) 0xffff), PROT_LO); (d_form 50 28 31 (Z.land (-6) 0xffff), PROT_LO);
                          (d_form 50 28 31 1, PROT_LO + 1)]
                    (fun '(insn, dar_) => data_faults 0x300 insn dar_ 0x08000000);
                  store_sp 28 (f32 (flt 7 1))] in
  do! slot := result_slot 2 in
  block [li32 20 slot;
         m_each [(d_form 52 28 20 1, false, slot + 1); (d_form 55 28 20 2, false, slot + 2); (x_form 31 28 20 8 663 0, true, slot + 3)]
           (fun '(insn, xform, ea) =>
              block [m_when xform (li32 8 3); data_faults 0x600 insn ea (if xform then dsisr_x insn else dsisr_d insn)]);
         expect slot 0; expect (slot + 4) 0; store_gpr 20 slot].

(** A trapping fadds cancels the store overlapped behind it. *)
Definition in_flight : m unit :=
  do! _ := block [li32 10 0; lfs 1 (f32 (flt 1 1)); untag 2] in
  do! slot := result_slot 1 in
  block [li32 23 slot; emit_ SYNC; trap (a_form 59 4 1 2 0 21 0); emit_ (d_form 52 1 23 0); emit_ (d_form 14 10 10 1);
         expect slot (f32 (flt 1 1)); store_gpr 10 1; retag 2].

Definition fp_enabled : m unit :=
  do! _ := block [clear_fpscr; (do! v := get_ msr in mtmsr (Z.lor (Z.lor v FE0) FE1));
                  emit_ (x_form 63 24 0 0 38 0); fpscr_update_by (fun v => Z.lor v (Z.shiftl 1 7))] in
  do! at_ := emit (x_form 63 21 0 0 38 0) in
  do! _ := fpscr_update_by (fun v => ors [v; Z.shiftl 1 10; Z.shiftl 1 29; Z.shiftl 1 30; Z.shiftl 1 31]) in
  do! v := get_ msr in
  block [event 0x700 at_ (Z.lor v SRR1_FP); msr_off FE; check_fpscr; clear_fpscr].

(** ** Timing *)
Definition TINY : Z := f32 (two_to (-30)).
Definition sticky_timing : m unit :=
  let one := f32 (flt 1 1) in
  let two := f32 (flt 2 1) in
  block [lfs 1 one; lfs 2 two; lfs 3 TINY; clear_fpscr;
         m_each [2; 1] (fun n =>
           do! _ := emit SYNC in
           do! first := get_ pc in
           do! _ := arith (a_form 59 6 1 2 0 21 0) "add" 6 one two 0 in
           do! last := get_ pc in
           do! _ := arith (a_form 59 7 1 3 0 21 0) "add" 7 one TINY 0 in
           spacing Retire [first; last] 0 1 n);
         check_fpscr; clear_fpscr].

(** latency, spacing *)
Definition MEMORY_TIMING : dict (dict (Z * Z)) :=
  [("lane", [("lfs", (6, 15)); ("lfd", (6, 15)); ("stfs", (7, 18)); ("stfd", (7, 18)); ("stfiwx", (7, 18))]);
   ("unit", [("lfs", (3, 6)); ("lfd", (4, 6)); ("stfs", (3, 3)); ("stfd", (4, 6)); ("stfiwx", (3, 3))]);
   ("table", [("lfs", (3, 3)); ("lfd", (4, 6)); ("stfs", (3, 3)); ("stfd", (4, 6)); ("stfiwx", (3, 3))])]%string.

Definition doubles : list Z := map (fun k => f64 (flt (1 + k) 1)) (seqZ 0 4).
Definition singles : list Z := map (fun k => f32 (flt (1 + 2 * k) 2)) (seqZ 0 4).
(** name, form, values, size of a store *)
Definition memory_rows (ws : list Z) : list (string * (Z -> Z) * list Z * Z) :=
  [("lfd", fun k => d_form 50 (4 + k) 20 (8 * k), doubles, 0);
   ("stfd", fun k => d_form 54 (4 + k) 21 (8 * k), doubles, 8);
   ("lfs", fun k => d_form 48 (4 + k) 19 (4 * k), singles, 0);
   ("stfs", fun k => d_form 52 (4 + k) 21 (4 * k), singles, 4);
   ("stfiwx", fun k => x_form 31 (12 + k) 21 (24 + k) 983 0, ws, 4)]%string.
Definition expect_stored (values : list Z) (size addr k : Z) : m unit :=
  let at_ := addr + size * k in
  do! v := m_lift (py_get values k) in
  if size =? 8 then block [expect at_ (Z.shiftr v 32); expect (at_ + 4) v] else expect at_ v.
Definition memory_row (timing : dict (Z * Z)) (row : string * (Z -> Z) * list Z * Z) : m unit :=
  let '(name, form, values, size) := row in
  do! t := m_lift (key timing name) in
  let '(lat, n) := t in
  let store := truthy size in
  do! slots := (if store then do! a := result_slot (size / 4) in do! b := result_slot size in m_ret [a; b] else m_ret []) in
  let slot i := m_lift (py_get slots i) in
  do! _ := m_when store (do! a := slot 0 in li32 21 a) in
  do! _ := emit SYNC in
  do! at_ := emit (form 0) in
  do! _ := probe at_ lat in
  do! _ := m_when store (do! a := slot 1 in li32 21 a) in
  do! _ := emit SYNC in
  do! pcs := m_map (fun k => emit (form k)) (seqZ 0 4) in
  do! _ := spacing Retire pcs 0 (-1) n in
  if store then
    do! a := slot 0 in
    do! b := slot 1 in
    block [expect_stored values size a 0; m_each (seqZ 0 4) (expect_stored values size b)]
  else m_each (seqZ 0 4) (fun k => write_fpr (4 + k) true false).
Definition memory_timing (timing : dict (Z * Z)) : m unit :=
  do! _ := set_ (fun p => set_res_next (Z.land (res_next p + 7) (Z.lnot 7)) p) in
  do! dbase := data doubles in
  do! s0 := m_lift (py_get singles 0) in
  do! s1 := m_lift (py_get singles 1) in
  do! s2 := m_lift (py_get singles 2) in
  do! s3 := m_lift (py_get singles 3) in
  do! sbase := data [Z.lor (Z.shiftl s0 32) s1; Z.lor (Z.shiftl s2 32) s3] in
  do! ws := m_map (fun k =>
    do! s := m_lift (py_get singles k) in
    do! _ := lfs (12 + k) s in
    arith (x_form 63 (12 + k) 0 (12 + k) 15 0) "fctiwz" (12 + k) 0 s 0) (seqZ 0 4) in
  block [li32 20 dbase; li32 19 sbase; m_each (seqZ 0 4) (fun k => li32 (24 + k) (4 * k));
         m_each (memory_rows ws) (memory_row timing)].

Definition trace_sticky : m unit :=
  let one := f32 (flt 1 1) in
  do! _ := block [word_at 0xfff00d00 (x_form 19 0 0 0 50 0); lfs 1 one; lfs 3 TINY; clear_fpscr; msr_on MSR_SE] in
  do! sum7 := arith (a_form 59 7 1 3 0 21 0) "add" 7 one TINY 0 in
  do! sum8 := arith (a_form 59 8 1 3 0 21 0) "add" 8 one TINY 0 in
  block [msr_off MSR_SE; store_sp 7 sum7; store_sp 8 sum8; check_fpscr; clear_fpscr].

(** ** Random cases, as drawn *)
Definition random_case (base_msr : Z) (k : enabled_cases.case) : m unit :=
  let sentinel := 0x5a5a5a5a in
  let old := enabled_cases.old k in
  let insn := enabled_cases.insn k in
  let exc := truthy (enabled_cases.exc k) in
  let kept := enabled_cases.write k && negb exc in
  let bits := fe_bits (enabled_cases.fe k) in
  do! addr := data [Z.lor (Z.shiftl (enabled_cases.ra k) 32) (enabled_cases.rb k);
                    Z.lor (Z.shiftl (enabled_cases.rc_ k) 32) sentinel] in
  do! _ := block [li32 5 addr;
                  m_each [1; 2; 3; 4] (fun fr => block [emit_ (d_form 48 fr 5 (4 * (fr - 1))); write_fpr fr true false]);
                  clear_fpscr;
                  emit_ (mtfsfi 6 (Z.land (Z.shiftr old 4) 0xf));
                  emit_ (mtfsfi 7 (Z.land old 0xf));
                  fpscr_set (fun _ => old);
                  m_when (truthy bits) (mtmsr (Z.lor base_msr bits));
                  (if exc then trap insn
                   else block [emit_ insn; fpscr_update (enabled_cases.new k);
                               m_when (truthy (enabled_cases.rc k)) (set_cr_field 1 (enabled_cases.cr1 k))]);
                  m_when (truthy bits) (mtmsr base_msr)] in
  let fctiwz := (Z.shiftr insn 26 =? 63) && (Z.land (Z.shiftr insn 1) 0x3ff =? 15) in
  do! _ := (if kept && fctiwz then block [write_fpr 4 false true; store_lt 4 (enabled_cases.result k)]
            else store_sp 4 (if kept then enabled_cases.result k else sentinel)) in
  do! _ := block [emit_ (x_form 63 5 0 0 583 0); write_fpr 5 false true] in
  do! v := get_ fpscr in
  block [store_lt_masked 5 v (if exc then 0xffffffff else enabled_cases.fmask k); check_cr].
Definition random_cases (cases : list enabled_cases.case) : m unit :=
  do! base_msr := get_ msr in m_each cases (random_case base_msr).

(** ** The program *)
Definition single_methods : SingleMethods Program602 := {| sm_lfs := lfs; sm_write_fpr := write_fpr; sm_store_sp := store_sp |}.
Definition fex : m unit :=
  fpscr_update_by (fun v => ors [v; Z.shiftl 1 7; Z.shiftl 1 10; Z.shiftl 1 29; Z.shiftl 1 30; Z.shiftl 1 31]).
Definition build_body (drawn : list Z) (cases : list enabled_cases.case) (timing : string) : m unit :=
  do! _ := block [handlers; li32 29 LOG; li32 31 PROT_LO; li32 30 DONE;
                  unavailable_and_illegal; sp_lt; tag_traps; arithmetic_602; unaligned drawn;
                  access_faults (Some single_methods); in_flight; fp_enabled;
                  fp_enable_deferred (Some fex); fp_enable_rfi (Some fex);
                  random_cases cases; sticky_timing; trace_sticky] in
  do! t := m_lift (key MEMORY_TIMING timing) in
  do! _ := block [memory_timing t; check_tags; emit_ (d_form 36 0 30 0); emit_ (Z.shiftl 18 26); log_expects LOG] in
  do! last := get_ pc in
  m_assert (last <=? DATA).
(** [build(seed, count, timing)], on any source of draws; the words of [unaligned] come
    from a generator of their own. *)
Definition build {S} `{Rng S} (rng : S) (count : nat) (timing : string) : result Program602 :=
  let! cases := snd (enabled_cases.repeat_case count enabled_cases.case_602 rng) in
  let! drawn := snd (enabled_cases.repeat_case 3 (getrandbits 64) (mersenne.Random_ 0x602)) in
  match build_body drawn cases timing new_program_602 with (p, Ok _) => Ok p | (_, Raise e) => Raise e end.

(** The lines of the text image: those of the program, and one with the count of
    sticky stalls before the memory. *)
Inductive line_602 : Type := Line (l : line) | LineSticky (n : Z).
Definition image_lines_602 (p : Program602) : list line_602 :=
  let l := image_lines DONE (program p) in
  map Line (take 4 l) ++ [LineSticky (sticky p)] ++ map Line (drop 4 l).
End Program602.

(** The command line. *)
Record options : Type := { seed : Z; random : nat; lsu_pipe : bool; pipe_mem : bool; machine_check : bool }.
Definition globals_of (o : options) : Globals := use_machine_check (machine_check o) module_globals.
Definition timing_of (o : options) : string :=
  if lsu_pipe o then if pipe_mem o then "table" else "unit" else "lane".
Definition main (o : options) : result (list line_602) :=
  let g := globals_of o in
  let! p := build (G := g) (mersenne.Random_ (seed o)) (random o) (timing_of o) in
  Ok (image_lines_602 (G := g) p).
End fpu_core_602_program.
