(* ===== verification/Fpu602Machine.v ===== *)
(** * A reference machine with the 602's floating-point unit

    docs/FPU_602_CONTRACT.md and the 602 section of docs/FPU_CORE_INTEGRATION.md as an
    interpreter over [fpu_machine], written from the contracts and not from
    [fpu_core_602_program]: 32-bit FPRs with the SP and LT tags, the emulation trap at
    0x1600, FP loads at any byte offset, lfd that must fit a binary32, the privileged
    tag registers, problem state, sc and trace. What the 602 does as the 603 is left to
    [fpu_machine]. *)
From S2P Require Import Prelude FpReference FpPpc FpuMachine.
Import reference fpu_machine.

Module fpu_602_machine.

(** [unlogged]: system calls and trace exceptions, whose handlers keep no log. *)
Record cpu602 : Type := { cpu : fpu_machine.cpu; sp_tags : Z; lt_tags : Z; unlogged : Z }.
Definition on (f : fpu_machine.cpu -> fpu_machine.cpu) (c : cpu602) : cpu602 :=
  {| cpu := f (cpu c); sp_tags := sp_tags c; lt_tags := lt_tags c; unlogged := unlogged c |}.
(** A step that the 603 takes in the same way. *)
Definition same (f : fpu_machine.cpu -> option fpu_machine.cpu) (c : cpu602) : option cpu602 :=
  match f (cpu c) with Some c' => Some (on (fun _ => c') c) | None => None end.

(** ** Tags: bit [n] of SP or LT, from the most significant, is that of FPR [n]. *)
Definition SP (c : cpu602) (n : Z) : bool := bit (sp_tags c) n.
Definition LT (c : cpu602) (n : Z) : bool := bit (lt_tags c) n.
Definition tagged (word : Z) (n : Z) (b : bool) : Z := word_of (fun k => if k =? n then b else bit word k).
Definition put (single : bool) (n v : Z) (c : cpu602) : cpu602 :=
  {| cpu := set_fr n v (cpu c); sp_tags := tagged (sp_tags c) n single; lt_tags := tagged (lt_tags c) n (negb single);
     unlogged := unlogged c |}.
Definition reg (c : cpu602) (n : Z) : Z := fr (cpu c) n.

Definition PR (c : cpu602) : bool := bit (msr (cpu c)) 17.
Definition SE (c : cpu602) : bool := bit (msr (cpu c)) 21.

(** ** Traps *)
Definition emulate (c : cpu602) : option cpu602 := Some (on (fun c => trap 0x1600 (pc c) 0 c) c).
Definition finish (c : cpu602) : option cpu602 := Some (on next c).
Definition unless (b : bool) (go : cpu602 -> option cpu602) (c : cpu602) : option cpu602 := if b then go c else emulate c.
Definition form (w : Z) (zeros : list reserved) (go : cpu602 -> option cpu602) (c : cpu602) : option cpu602 :=
  if negb (forallb (is_zero_field w) zeros) then Some (on illegal c)
  else if negb (FP (cpu c)) then Some (on (fun c => trap 0x800 (pc c) 0 c) c)
  else go c.

(** ** Arithmetic on binary32 sources *)
(** The binary64 operand of a binary32 word; a NaN keeps its payload, and signals if it did. *)
Definition expanded (v : Z) : Z :=
  if (field v 23 8 =? 255) && negb (field v 0 23 =? 0)
  then Z.shiftr v 31 * 2 ^ 63 + 0x7ff * 2 ^ 52 + field v 0 23 * 2 ^ 29 else to_double v.
(** An enabled condition, and with NI clear any tiny result, goes to software. *)
Definition to_software (o : ppc_reference.out) (c : fpu_machine.cpu) : bool :=
  let f := bit (fpscr c) in
  (truthy (ppc_reference.o_invalid o) && f 24) || (ppc_reference.ox o && f 25) || (ppc_reference.ux o && f 26)
  || (ppc_reference.zx o && f 27) || (ppc_reference.xx o && f 28) || (negb (f 29) && ppc_reference.tiny_before_round o).
(** With NI set a tiny result is a zero of its sign. *)
Definition flushed (o : ppc_reference.out) (c : fpu_machine.cpu) : ppc_reference.out :=
  if bit (fpscr c) 29 && ppc_reference.tiny_before_round o
  then let s := Z.shiftr (ppc_reference.o_result o) 63 in
       {| ppc_reference.o_result := Z.shiftl s 63; ppc_reference.write_result := true;
          ppc_reference.o_invalid := ppc_reference.o_invalid o; ppc_reference.ox := ppc_reference.ox o;
          ppc_reference.ux := ppc_reference.ux o; ppc_reference.zx := ppc_reference.zx o;
          ppc_reference.xx := ppc_reference.xx o; ppc_reference.fr := ppc_reference.fr o; ppc_reference.fi := ppc_reference.fi o;
          ppc_reference.frfi_valid := ppc_reference.frfi_valid o;
          ppc_reference.fprf := ppc_reference.classify (Z.shiftl s 63) B64; ppc_reference.fprf_valid := true;
          ppc_reference.fpcc := 0; ppc_reference.compare_valid := false; ppc_reference.tiny_before_round := true |}
  else o.
Definition operate (w : Z) (op : string) (a b k : Z) (sources : list Z) (c : cpu602) : option cpu602 :=
  unless (forallb (SP c) sources) (fun c =>
    let x := cpu c in
    match ppc_reference.arithmetic op a b k (field (fpscr x) 0 2) (controls (negb (String.eqb op "fctiwz")) x) with
    | Raise _ => None
    | Ok o =>
        if to_software o x then emulate c
        else
          let o := flushed o x in
          let integer := String.eqb op "fctiwz" in
          let v := if integer then word (ppc_reference.o_result o) else to_single (ppc_reference.o_result o) in
          finish (put (negb integer) (ibits w 6 10) v (on (update w (after (fpscr x) o)) c))
    end) c.
Definition frA (w : Z) : Z := ibits w 11 15.
Definition frB (w : Z) : Z := ibits w 16 20.
Definition frC (w : Z) : Z := ibits w 21 25.
Definition arithmetic (w : Z) (op : string) (sources : list Z) (c : cpu602) : option cpu602 :=
  let v n := expanded (reg c n) in operate w op (v (frA w)) (v (frB w)) (v (frC w)) sources c.

(** The A-forms of primary 59. *)
Definition single_form (w : Z) (c : cpu602) : option cpu602 :=
  match ibits w 26 30 with
  | 18 => form w [FrC] (arithmetic w "div" [frA w; frB w]) c
  | 20 => form w [FrC] (arithmetic w "sub" [frA w; frB w]) c
  | 21 => form w [FrC] (arithmetic w "add" [frA w; frB w]) c
  | 24 => form w [FrA; FrC] (fun c => operate w "div" (expanded 0x3f800000) (expanded (reg c (frB w))) 0 [frB w] c) c
  | 25 => form w [FrB] (arithmetic w "mul" [frA w; frC w]) c
  | 28 => form w [] (arithmetic w "msub" [frA w; frB w; frC w]) c
  | 29 => form w [] (arithmetic w "madd" [frA w; frB w; frC w]) c
  | 30 => form w [] (arithmetic w "nmsub" [frA w; frB w; frC w]) c
  | 31 => form w [] (arithmetic w "nmadd" [frA w; frB w; frC w]) c
  | _ => Some (on illegal c)
  end.

Definition compare (w : Z) (op : string) (c : cpu602) : option cpu602 :=
  unless (SP c (frA w) && SP c (frB w)) (fun c =>
    match ppc_reference.arithmetic op (expanded (reg c (frA w))) (expanded (reg c (frB w))) 0 0 (controls false (cpu c)) with
    | Raise _ => None
    | Ok o => if to_software o (cpu c) then emulate c
              else finish (on (fun x => set_crf (ibits w 6 8) (ppc_reference.fpcc o) (set_fpscr (after (fpscr x) o) x)) c)
    end) c.
Definition move (w : Z) (f : Z -> Z) (c : cpu602) : option cpu602 :=
  unless (SP c (frB w)) (fun c => finish (on (record w) (put true (ibits w 6 10) (f (reg c (frB w))) c))) c.
Definition select (w : Z) (c : cpu602) : option cpu602 :=
  unless (SP c (frA w)) (fun c =>
    let x := decode (reg c (frA w)) B32 in
    let n := if is_nan (d_kind x) || (truthy (d_sign x) && negb (is_zero x)) then frB w else frC w in
    unless (SP c n) (fun c => finish (on (record w) (put true (ibits w 6 10) (reg c n) c))) c) c.

Definition double_form (w : Z) (c : cpu602) : option cpu602 :=
  match ibits w 26 30 with
  | 18 | 20 | 21 => form w [FrC] emulate c
  | 25 => form w [FrB] emulate c
  | 28 | 29 | 30 | 31 => form w [] emulate c
  | 23 => form w [] (select w) c
  | _ =>
      match ibits w 21 30 with
      | 0 => form w [] (compare w "cmpu") c
      | 32 => form w [] (compare w "cmpo") c
      | 12 => form w [FrA] (arithmetic w "frsp" [frB w]) c
      | 14 => form w [FrA] emulate c
      | 15 => form w [FrA] (arithmetic w "fctiwz" [frB w]) c
      | 72 => form w [FrA] (move w id) c
      | 40 => form w [FrA] (move w (fun v => Z.lxor v (2 ^ 31))) c
      | 264 => form w [FrA] (move w (fun v => field v 0 31)) c
      | 136 => form w [FrA] (move w (fun v => Z.lor v (2 ^ 31))) c
      | 583 => form w [FrA; FrB] (fun c => finish (on (record w) (put false (ibits w 6 10) (fpscr (cpu c)) c))) c
      | 711 => form w [] (unless (LT c (frB w)) (same (x_form w))) c
      | 38 | 70 | 64 | 134 => same (x_form w) c
      | _ => Some (on illegal c)
      end
  end.

(** ** Loads and stores *)
(** The words an access of [n] bytes touches, with the address a fault reports. *)
Definition spans (ea n : Z) : list Z :=
  ea :: map (fun k => word (ea / 4 * 4 + 4 * k)) (seqZ 1 ((ea mod 4 + n - 1) / 4)).
Fixpoint load_spans (t : part) (eas : list Z) (v : Z) (go : Z -> cpu602 -> option cpu602) (c : cpu602) : option cpu602 :=
  match eas with
  | [] => go v c
  | ea :: eas' => match lookup_word t false ea (cpu c) with
                  | Done a => load_spans t eas' (v * 2 ^ 32 + read (mem (cpu c)) (a / 4 * 4)) go c
                  | Fault f => same f c
                  end
  end.
Definition load (t : part) (w ea n : Z) (go : Z -> cpu602 -> option cpu602) (c : cpu602) : option cpu602 :=
  let ea := word ea in
  if negb (FP (cpu c)) then Some (on (fun c => trap 0x800 (pc c) 0 c) c)
  else let l := spans ea n in
       load_spans t l 0 (fun v => go (field v (8 * (4 * Z.of_nat (length l) - n - ea mod 4)) (8 * n))) c.

(** A double that is a normal binary32 or a zero. *)
Definition normal32 (s : Z) : bool :=
  let x := decode s B32 in is_finite (d_kind x) && (is_zero x || negb (field s 23 8 =? 0)).
Definition fits32 (v : Z) : bool := normal32 (to_single v) && (to_double (to_single v) =? v).

Definition float_load (t : part) (w ea : Z) (double : bool) (also : fpu_machine.cpu -> fpu_machine.cpu) : cpu602 -> option cpu602 :=
  load t w ea (if double then 8 else 4) (fun v =>
    unless (negb double || fits32 v) (fun c =>
      finish (on also (put true (ibits w 6 10) (if double then to_single v else v) c)))).
Definition float_store (t : part) (w ea : Z) (double : bool) (also : fpu_machine.cpu -> fpu_machine.cpu) (c : cpu602) : option cpu602 :=
  let v := reg c (ibits w 6 10) in
  let ok := SP c (ibits w 6 10) && (negb double || normal32 v) in
  if FP (cpu c) && (word ea mod 4 =? 0) && negb ok then emulate c
  else same (store t true w ea (if double then 8 else 4) (if double then to_double v else v) also) c.
Definition integer_store (t : part) (w ea : Z) (c : cpu602) : option cpu602 :=
  if FP (cpu c) && (word ea mod 4 =? 0) && negb (LT c (ibits w 6 10)) then emulate c
  else same (store t true w ea 4 (reg c (ibits w 6 10)) id) c.

(** ** The tag registers *)
Definition spr_of (w : Z) : Z := ibits w 16 20 * 32 + ibits w 11 15.
Definition get_tags (w : Z) (c : cpu602) : option cpu602 :=
  finish (on (set_r (ibits w 6 10) (if spr_of w =? 1021 then sp_tags c else lt_tags c)) c).
Definition set_tags (w : Z) (c : cpu602) : option cpu602 :=
  let v := r (cpu c) (ibits w 6 10) in
  let first := spr_of w =? 1021 in
  finish {| cpu := cpu c; sp_tags := if first then v else sp_tags c; lt_tags := if first then lt_tags c else v;
            unlogged := unlogged c |}.
Definition is_tag_spr (w : Z) : bool := (spr_of w =? 1021) || (spr_of w =? 1022).

(** Supervisor instructions: mfmsr, mtmsr, rfi and the SPRs whose number has bit 4 set. *)
Definition privileged (w : Z) : bool :=
  ((ibits w 0 5 =? 31)
   && (existsb (Z.eqb (ibits w 21 30)) [83; 146] || (existsb (Z.eqb (ibits w 21 30)) [339; 371; 467] && Z.testbit (spr_of w) 4)))
  || ((ibits w 0 5 =? 19) && (ibits w 21 30 =? 50)).

Definition step31 (t : part) (w : Z) (c : cpu602) : option cpu602 :=
  let x := cpu c in
  let a := ibits w 11 15 in
  let ea := r0 x a + r x (ibits w 16 20) in
  let ea_u := r x a + r x (ibits w 16 20) in
  let upd x := set_r a ea_u x in
  match ibits w 21 30 with
  | 339 => if is_tag_spr w then get_tags w c else same (step t) c
  | 371 => if is_tag_spr w then get_tags w c else None
  | 467 => if is_tag_spr w then set_tags w c else same (step t) c
  | 535 => float_load t w ea false id c
  | 567 => float_load t w ea_u false upd c
  | 599 => float_load t w ea true id c
  | 631 => float_load t w ea_u true upd c
  | 663 => float_store t w ea false id c
  | 695 => float_store t w ea_u false upd c
  | 727 => float_store t w ea true id c
  | 759 => float_store t w ea_u true upd c
  | 983 => integer_store t w ea c
  | _ => same (step t) c
  end.

Definition execute (t : part) (w : Z) (c : cpu602) : option cpu602 :=
  let x := cpu c in
  let a := ibits w 11 15 in
  let imm := sext16 (ibits w 16 31) in
  let ea := r0 x a + imm in
  let ea_u := r x a + imm in
  let upd x := set_r a ea_u x in
  if PR c && privileged w then Some (on (fun c => trap 0x700 (pc c) 0x40000 c) c)
  else
    match ibits w 0 5 with
    | 17 => let c := on (fun c => trap 0xc00 (word (pc c + 4)) 0 c) c in
            Some {| cpu := cpu c; sp_tags := sp_tags c; lt_tags := lt_tags c; unlogged := unlogged c + 1 |}
    | 31 => step31 t w c
    | 48 => float_load t w ea false id c
    | 49 => float_load t w ea_u false upd c
    | 50 => float_load t w ea true id c
    | 51 => float_load t w ea_u true upd c
    | 52 => float_store t w ea false id c
    | 53 => float_store t w ea_u false upd c
    | 54 => float_store t w ea true id c
    | 55 => float_store t w ea_u true upd c
    | 59 => single_form w c
    | 63 => double_form w c
    | _ => same (step t) c
    end.

(** In trace mode an instruction that completes is followed by the trace exception,
    rfi excepted. *)
Definition traced (w : Z) (before after_ : cpu602) : cpu602 :=
  if SE before && negb ((ibits w 0 5 =? 19) && (ibits w 21 30 =? 50)) && (exceptions (cpu after_) =? exceptions (cpu before))
  then let c := on (fun c => trap 0xd00 (pc c) 0 c) after_ in
       {| cpu := cpu c; sp_tags := sp_tags c; lt_tags := lt_tags c; unlogged := unlogged c + 1 |}
  else after_.
Definition step_602 (t : part) (c : cpu602) : option cpu602 :=
  let w := read (mem (cpu c)) (pc (cpu c)) in
  match execute t w c with Some c' => Some (traced w c c') | None => None end.

Fixpoint run (fuel : nat) (t : part) (stop : fpu_machine.cpu -> bool) (c : cpu602) : option cpu602 :=
  if stop (cpu c) then Some c
  else match fuel with O => None | S fuel' => match step_602 t c with Some c' => run fuel' t stop c' | None => None end end.

(** Out of reset, the tags as the simulation has them. *)
Definition reset_602 (a : Z) (x : gmap Z Z) : cpu602 := {| cpu := reset a x; sp_tags := 0; lt_tags := 0; unlogged := 0 |}.
End fpu_602_machine.
