(* ===== verification/Fpu602Theorems.v ===== *)
(** * The 602's random cases and its reference machine

    What [case_602] returns for every source of draws, and that one step of
    [fpu_602_machine] on the case's instruction answers it: the emulation trap with
    nothing changed, or the result, its tag, the status word and CR1. *)
From S2P Require Import Prelude FpReference FpPpc FpStatus PyRandom FpCases Words FpRange FpCaseTheorems.
From S2P Require Import FpuProgram FpuMachine FpuTheorems Fpu602Machine.
Import reference ppc_reference enabled_vectors production_vectors_602 enabled_cases.

(** ** What a case is *)
(** The expectation of an operation under a status word. *)
Definition expected_under (op : string) (a b c old : Z) : Prelude.result out :=
  expected_602 op (widen_raw a) (widen_raw b) (widen_raw c) (field old 0 2) (Z.testbit old 2) (Z.testbit old 7) (Z.testbit old 6)
    (Z.testbit old 5) (Z.testbit old 4).
(** An enabled condition, or with NI clear a tiny result, is software's. *)
Definition software (old : Z) (exp : out) : bool :=
  (truthy (o_invalid exp) && Z.testbit old 7) || (ox exp && Z.testbit old 6) || (ux exp && Z.testbit old 5)
  || (zx exp && Z.testbit old 4) || (xx exp && Z.testbit old 3) || (negb (Z.testbit old 2) && tiny_before_round exp).

Record answers_602 (k : case) (name op : string) (rc0 : Z) (exp : out) : Prop := {
  b_op : In (name, op) ORACLE /\ op <> "fctiw"%string;
  b_rc : fits 1 rc0;
  b_insn : encode name true rc0 = Ok (insn k);
  b_exp : expected_under op (ra k) (rb k) (rc_ k) (old k) = Ok exp;
  b_words : Forall (fits 32) [ra k; rb k; rc_ k];
  b_old : fits 8 (old k);
  b_fe : fits 2 (fe k);
  b_exc : exc k = if software (old k) exp then EMULATION_TRAP else NO_EXCEPTION;
  b_write : write k = negb (software (old k) exp) && write_result exp;
  b_new : new k = if software (old k) exp then old k else fpscr_after (old k) exp;
  b_result : software (old k) exp = false ->
             result k = if String.eqb op "fctiwz" then Z.land (o_result exp) 0xffffffff else narrow (o_result exp);
  b_fmask : fmask k = if software (old k) exp then 0xffffffff else fpscr_mask exp (Z.testbit (old k) 6);
  b_control : software (old k) exp = false -> rc k = rc0 /\ cr1 k = Z.shiftr (new k) 28
}.
Definition sound_602 (k : case) : Prop := exists name op rc0 exp, answers_602 k name op rc0 exp.

Lemma expected_total op a b c rn ni ve oe ue ze :
  str_in op (rounding_ops ++ ["frsp"; "fctiw"; "fctiwz"; "cmpu"; "cmpo"]%string) = true -> String.eqb op "fres" = false ->
  exists exp, expected_602 op a b c rn ni ve oe ue ze = Ok exp.
Proof.
  intros Hop Hf. unfold expected_602. rewrite Hf.
  match goal with |- context [arithmetic op a b c rn ?k] => destruct (arithmetic_total op a b c rn k Hop) as [o ->] end. eauto.
Qed.
Lemma named_602 name : In name names_602 -> exists op, oracle_of name = Ok op /\ In (name, op) ORACLE /\ op <> "fctiw"%string
  /\ str_in op (rounding_ops ++ ["frsp"; "fctiw"; "fctiwz"; "cmpu"; "cmpo"]%string) = true
  /\ String.eqb op "fres" = false /\ String.eqb name "fctiwz" = String.eqb op "fctiwz"
  /\ forall rc, exists w, encode name true rc = Ok w.
Proof.
  unfold names_602. intros H. apply (in_map (fun n => n)) in H. cbn in H.
  repeat destruct H as [<- | H]; try contradiction; eexists; (split; [reflexivity |]); (split; [cbn; tauto |]);
    (split; [discriminate |]); repeat (split; [reflexivity |]); intros; eexists; reflexivity.
Qed.

(** The draws of the modes are the fields of the word written. *)
Lemma modes_spec e n r :
  fits 5 e -> fits 1 n -> 0 <= r < 4 ->
  let w := old_word e n r in
  fits 8 w /\ field w 0 2 = r /\ truthy n = Z.testbit w 2 /\ enable e 0 = Z.testbit w 7 /\ enable e 1 = Z.testbit w 6 /\
  enable e 2 = Z.testbit w 5 /\ enable e 3 = Z.testbit w 4 /\ enable e 4 = Z.testbit w 3.
Proof.
  intros He Hn Hr. pose proof (modes_agreed e n r He Hn Hr) as H. unfold modes_agree in H. cbn [forallb] in H. bool_prop.
  repeat match goal with H : eqb _ _ = true |- _ => apply eqb_prop in H end.
  cbv zeta. repeat split; try congruence; unfold fits in *; lia.
Qed.

Section Case602.
Context {S : Type} `{!Rng S} `{!RngLaws S}.

Lemma case_602_yields : yields (S:=S) sound_602 case_602.
Proof.
  unfold case_602. eapply yields_bind; [apply yields_choice; discriminate |]. cbn beta. intros name Hname.
  destruct (named_602 name Hname) as (op & Eop & Hin & Hw & Htotal & Hf & Hz & Henc).
  eapply yields_bind; [apply (yields_lift (eq op) _ op Eop eq_refl) |]. intros ? <-.
  eapply yields_bind; [apply sources_fit |]. cbn beta. intros [[a b] c] (Ha & Hb & Hc).
  eapply yields_bind; [apply draw_modes_ok |]. intros [[e n] rn] (Hem & Hn & Hrn). cbn [map3].
  destruct (modes_spec e n rn Hem Hn Hrn) as (Hold & Hr & Eni & E0 & E1 & E2 & E3 & E4).
  destruct (expected_total op (widen_raw a) (widen_raw b) (widen_raw c) rn (truthy n) (enable e 0) (enable e 1) (enable e 2)
              (enable e 3) Htotal Hf) as [exp Eexp].
  eapply yields_bind; [apply (yields_lift (eq exp) _ exp Eexp eq_refl) |]. intros ? <-.
  eapply yields_bind; [apply draw_control_ok |]. intros [fe' rc'] [Hfe Hrc].
  destruct (Henc rc') as [w Ew]. unfold case_602_of. rewrite Ew.
  assert (Es : enabled_602 exp e || (negb (truthy n) && tiny_before_round exp) = software (old_word e n rn) exp).
  { unfold enabled_602, software. rewrite Eni, E0, E1, E2, E3, E4. reflexivity. }
  rewrite Es. rewrite <- Hr in Eexp at 1. rewrite Eni, E0, E1, E2, E3 in Eexp.
  destruct (software (old_word e n rn) exp) eqn:Esoft; (eapply yields_lift; [reflexivity |]); exists name, op, rc', exp;
    constructor; cbn [insn ra rb rc_ old fe exc write result mask new fmask rc cr1]; rewrite ?Esoft; try discriminate;
    try reflexivity; auto.
  - intros _. rewrite Hz. reflexivity.
  - rewrite E1. reflexivity.
Qed.
End Case602.

(** ** Operands *)
Lemma land_exponent v : Z.land v 0x7f800000 = Z.shiftl (field v 23 8) 23.
Proof.
  apply Z.bits_inj'. intros i Hi. change 0x7f800000 with (Z.shiftl (Z.ones 8) 23). rewrite Z.land_spec, !Z.shiftl_spec by lia.
  destruct (Z.ltb_spec i 23).
  - rewrite !(Z.testbit_neg_r _ (i - 23)) by lia. apply andb_false_r.
  - rewrite field_spec, testbit_ones by lia. replace (i - 23 + 23) with i by lia. apply andb_comm.
Qed.
Lemma expanded_widen v : fits 32 v -> fpu_602_machine.expanded v = widen_raw v.
Proof.
  intros Hv. unfold fpu_602_machine.expanded, widen_raw. rewrite land_exponent.
  assert (Ef : Z.land v 0x007fffff = field v 0 23) by (unfold field; rewrite Z.shiftr_0_r; reflexivity).
  pose proof (field_range v 23 8 ltac:(lia) ltac:(lia)) as He. pose proof (field_range v 0 23 ltac:(lia) ltac:(lia)) as Hf.
  replace (Z.shiftl (field v 23 8) 23 =? 0x7f800000) with (field v 23 8 =? 255)
    by (rewrite Z.shiftl_mul_pow2 by lia; change (2 ^ 23) with 0x800000;
        destruct (Z.eqb_spec (field v 23 8) 255), (Z.eqb_spec (field v 23 8 * 0x800000) 0x7f800000); try reflexivity; lia).
  rewrite Ef. unfold truthy. destruct (_ && _); [| reflexivity].
  assert (Hs : 0 <= Z.shiftr v 31) by (apply Z.shiftr_nonneg, Hv).
  rewrite (lor_shiftl_add (Z.shiftr v 31) (Z.shiftl 0x7ff 52) 63) by (lia || (vm_compute; split; [discriminate | reflexivity])).
  symmetry. rewrite (lor_disjoint _ (Z.shiftl (field v 0 23) 29) 52); [rewrite !Z.shiftl_mul_pow2 by lia; reflexivity | lia | |].
  - rewrite Z.shiftl_mul_pow2 by lia. replace (2 ^ 63) with (2 ^ 11 * 2 ^ 52) by reflexivity.
    rewrite Z.mul_assoc, <- Z.mul_add_distr_r. apply Z.mod_mul. lia.
  - rewrite Z.shiftl_mul_pow2 by lia. cbn in Hf |- *. lia.
Qed.

Lemma widen_raw_fits v : fits 32 v -> fits 64 (widen_raw v).
Proof.
  intros Hv. unfold widen_raw. case_if; [| apply widen_fits; exact Hv].
  apply fits_lor; [lia | apply fits_lor; [lia | | const_fits] |].
  - apply fits_shiftl; [lia | lia |]. unfold fits in *. rewrite Z.shiftr_div_pow2 by lia.
    split; [apply Z.div_pos; lia | apply Z.div_lt_upper_bound; lia].
  - apply fits_shiftl; [lia | lia |]. change 0x7fffff with (Z.ones 23). rewrite Z.land_ones by lia.
    apply (fits_le 23); [apply Z.mod_pos_bound; lia | lia].
Qed.

(** What [arithmetic] always satisfies: it withholds a result only for an enabled invalid
    operation or division by zero, and a tiny result is written with its class. *)
Definition regular (k : enables) (o : out) : Prop :=
  (write_result o = true \/ ve k && truthy (o_invalid o) = true \/ ze k && zx o = true) /\
  (tiny_before_round o = true -> write_result o = true /\ fprf_valid o = true /\ fpcc o = 0).
Lemma settled_regular k inv zx r w :
  w = true \/ ve k && truthy inv = true \/ ze k && zx = true -> regular k (settled inv zx r w).
Proof. intros H. split; [exact H | discriminate]. Qed.
Lemma rounded_regular k op inv n d e s rn fmt ni oe ue : regular k (rounded_out op inv n d e s rn fmt ni oe ue).
Proof.
  unfold rounded_out. cbv zeta. case_if; [destruct (unbounded_round _ _ _ _ _ _) as [[[? ?] ?] ?] |]; (split; [left; reflexivity | auto]).
Qed.
Lemma kept_or b : negb b = true \/ b = true.
Proof. destruct b; auto. Qed.
Lemma arithmetic_regular op a b c rn k o :
  str_in op ["cmpu"; "cmpo"]%string = false -> arithmetic op a b c rn k = Ok o -> regular k o.
Proof.
  intros Hop. unfold arithmetic. rewrite Hop.
  outer_if; [intros Ho; apply ok_inj in Ho; subst o; split; [cbn; destruct (kept_or (ve k && truthy (o_invalid (integer_out op (invalid_causes op a b c) b rn (ve k))))); auto | discriminate] |].
  destruct (first_nan_of _); [intros Ho; apply ok_inj in Ho; subst o; apply settled_regular; destruct (kept_or (ve k && truthy (invalid_causes op a b c))); auto |].
  outer_if; [intros Ho; apply ok_inj in Ho; subst o; apply settled_regular; auto |].
  outer_if; [destruct (finite _ _ _ _ _) as [[[? ?] ?] ?]; intros Ho; apply ok_inj in Ho; subst o; apply rounded_regular |].
  outer_if; [| discriminate].
  outer_if; [intros Ho; apply ok_inj in Ho; subst o; apply settled_regular; rewrite andb_true_r; destruct (kept_or (ze k)); auto |]. cbv zeta.
  match goal with |- (if truthy ?i then _ else _) = _ -> _ => destruct (truthy i) eqn:Ei end;
    [intros Ho; apply ok_inj in Ho; subst o; apply settled_regular; rewrite Ei, andb_true_r; destruct (kept_or (ve k)); auto |].
  outer_if; [unfold infinite_out; match goal with |- match ?r with _ => _ end = _ -> _ => destruct r end; [| discriminate];
    intros Ho; apply ok_inj in Ho; subst o; apply settled_regular; auto |].
  destruct (finite _ _ _ _ _) as [[[? ?] ?] ?]. intros Ho; apply ok_inj in Ho; subst o; apply rounded_regular.
Qed.

(** ** The operation on the machine *)
Import fpu_602_machine.

(** What an operation does with the model's outcome. *)
Definition delivered_602 (w : Z) (op : string) (r : Prelude.result out) (c : cpu602) : option cpu602 :=
  match r with
  | Raise _ => None
  | Ok o =>
      if to_software o (cpu c) then emulate c
      else let o := flushed o (cpu c) in
           let integer := String.eqb op "fctiwz" in
           let v := if integer then fpu_machine.word (o_result o) else fpu_machine.to_single (o_result o) in
           finish (put (negb integer) (fpu_machine.ibits w 6 10) v
             (on (fpu_machine.update w (fpu_machine.after (fpu_machine.fpscr (cpu c)) o)) c))
  end.
Definition value_of (c : cpu602) (n : Z) : Z := expanded (reg c n).
Definition sources_tagged (c : cpu602) : Prop := SP c 1 = true /\ SP c 2 = true /\ SP c 3 = true.

(** The operands the instruction does not name do not matter to the operation. *)
Lemma operands_named (f : Z -> Z) name op rc0 w rn k :
  In (name, op) ORACLE -> op <> "fctiw"%string -> fits 1 rc0 -> encode name true rc0 = Ok w ->
  ppc_reference.arithmetic op (f (frA w)) (f (frB w)) (f (frC w)) rn k = ppc_reference.arithmetic op (f 1) (f 2) (f 3) rn k.
Proof.
  intros Hin Hop Hrc Hw. assert (rc0 = 0 \/ rc0 = 1) as Hr by (unfold fits in Hrc; lia). clear Hrc.
  assert (E : frA w = (if String.eqb op "frsp" || String.eqb op "fctiwz" then 0 else 1) /\
              frB w = (if String.eqb op "mul" then 0 else 2) /\
              frC w = (if is_fused op || String.eqb op "mul" then 3 else 0)).
  { cbn in Hin. repeat destruct Hin as [Hin | Hin]; try contradiction; injection Hin as <- <-; try (exfalso; apply Hop; reflexivity);
      destruct Hr as [-> | ->]; vm_compute in Hw; apply ok_inj in Hw; subst w; repeat split; reflexivity. }
  destruct E as (-> & -> & ->). clear Hw Hr.
  cbn in Hin. repeat destruct Hin as [Hin | Hin]; try contradiction; injection Hin as <- <-; try (exfalso; apply Hop; reflexivity);
    cbv [String.eqb Ascii.eqb is_fused str_in existsb fused orb Bool.eqb];
    generalize (f 0) (f 1) (f 2) (f 3); intros z0 z1 z2 z3; reflexivity.
Qed.

(** The instruction word reaches the operation with the registers the case names. *)
Definition reaches_602 (op : string) (rc0 w : Z) : Prop := forall t c,
  fpu_machine.FP (cpu c) = true -> sources_tagged c ->
  execute t w c =
  delivered_602 w op (ppc_reference.arithmetic op (value_of c (frA w)) (value_of c (frB w)) (value_of c (frC w))
                        (field (fpu_machine.fpscr (cpu c)) 0 2) (fpu_machine.controls (negb (String.eqb op "fctiwz")) (cpu c))) c.
Ltac known_word :=
  repeat match goal with
  | |- context [fpu_machine.ibits ?w ?a 30] =>
      let v := eval vm_compute in (fpu_machine.ibits w a 30) in change (fpu_machine.ibits w a 30) with v; cbv iota
  end.
Lemma unless_tagged c go a l :
  sources_tagged c -> l = [1; 2; 3] \/ l = [1; 2] \/ l = [1; 3] \/ l = [2] -> go c = a -> unless (forallb (SP c) l) go c = a.
Proof.
  intros (H1 & H2 & H3) Hl E. replace (forallb (SP c) l) with true; [exact E |].
  destruct Hl as [-> | [-> | [-> | ->]]]; cbn [forallb]; rewrite ?H1, ?H2, ?H3; reflexivity.
Qed.
Lemma execute_59 t w c : privileged w = false -> fpu_machine.ibits w 0 5 = 59 -> execute t w c = single_form w c.
Proof. intros Hp Hw. unfold execute. cbv zeta. rewrite Hp, andb_false_r, Hw. reflexivity. Qed.
Lemma execute_63 t w c : privileged w = false -> fpu_machine.ibits w 0 5 = 63 -> execute t w c = double_form w c.
Proof. intros Hp Hw. unfold execute. cbv zeta. rewrite Hp, andb_false_r, Hw. reflexivity. Qed.
Lemma form_on w zeros go c :
  forallb (fpu_machine.is_zero_field w) zeros = true -> fpu_machine.FP (cpu c) = true -> form w zeros go c = go c.
Proof. intros Hz Hf. unfold form. rewrite Hz, Hf. reflexivity. Qed.
Lemma execute_reaches name op rc0 w :
  In (name, op) ORACLE -> op <> "fctiw"%string -> fits 1 rc0 -> encode name true rc0 = Ok w ->
  fpu_machine.ibits w 6 10 = 4 /\ fpu_machine.ibits w 31 31 = rc0 /\ reaches_602 op rc0 w.
Proof.
  intros Hin Hop Hrc Hw. assert (rc0 = 0 \/ rc0 = 1) as Hr by (unfold fits in Hrc; lia). clear Hrc.
  cbn in Hin. repeat destruct Hin as [Hin | Hin]; try contradiction; injection Hin as <- <-; try (exfalso; apply Hop; reflexivity);
    destruct Hr as [-> | ->]; vm_compute in Hw; apply ok_inj in Hw; subst w;
    (split; [reflexivity |]; split; [reflexivity |]); intros t c HFP Hs;
    (first [rewrite execute_59 by reflexivity | rewrite execute_63 by reflexivity]);
    unfold single_form, double_form; known_word; rewrite form_on by (reflexivity || exact HFP);
    unfold fpu_602_machine.arithmetic, operate;
    (apply (unless_tagged c _ _ _ Hs); [vm_compute; tauto |]); reflexivity.
Qed.

(** The controls of a status word. *)
Definition controls_of (op : string) (old : Z) : enables := fpscr_controls (negb (String.eqb op "fctiwz")) old.
Lemma expected_operates name op a b c old exp :
  In (name, op) ORACLE -> expected_under op a b c old = Ok exp ->
  exists o, ppc_reference.arithmetic op (widen_raw a) (widen_raw b) (widen_raw c) (field old 0 2) (controls_of op old) = Ok o /\
    exp = if Z.testbit old 2 && tiny_before_round o && write_result o
          then with_result (Z.shiftl (Z.shiftr (o_result o) 63) 63) (if truthy (Z.shiftr (o_result o) 63) then 18 else 2) o
          else o.
Proof.
  intros Hin. unfold expected_under, expected_602.
  assert (E : String.eqb op "fres" = false /\ str_in op ["fctiwz"; "cmpu"; "cmpo"]%string = String.eqb op "fctiwz")
    by (cbn in Hin; intuition (simplify_eq; reflexivity)).
  destruct E as [-> ->]. change {| single := _; ni := _; ve := _; oe := _; ue := _; ze := _ |} with (controls_of op old).
  destruct (ppc_reference.arithmetic op _ _ _ _ _) as [o |]; [| discriminate]. intros H. apply ok_inj in H. subst exp. eauto.
Qed.

Section Outcome.
Variable old : Z.
Variable op : string.
Variable o exp : out.
Variable x : fpu_machine.cpu.
Hypothesis Hold : fpu_machine.fpscr x = old.
Hypothesis Hregular : regular (controls_of op old) o.
Hypothesis Hcompare : compare_valid o = false.
Hypothesis Hfits : fits 64 (o_result o).
Hypothesis Hexp : exp = if Z.testbit old 2 && tiny_before_round o && write_result o
  then with_result (Z.shiftl (Z.shiftr (o_result o) 63) 63) (if truthy (Z.shiftr (o_result o) 63) then 18 else 2) o else o.

Lemma sign_cases : Z.shiftr (o_result o) 63 = 0 \/ Z.shiftr (o_result o) 63 = 1.
Proof.
  pose proof Hfits as H. unfold fits in H. rewrite Z.shiftr_div_pow2 by lia.
  assert (0 <= o_result o / 2 ^ 63 < 2) by (split; [apply Z.div_pos; lia | apply Z.div_lt_upper_bound; lia]). lia.
Qed.
Lemma software_agrees : to_software o x = software old exp.
Proof.
  unfold to_software, software, fpu_machine.bit. rewrite Hold, Hexp.
  destruct (Z.testbit old 2 && tiny_before_round o && write_result o); reflexivity.
Qed.
Lemma flushed_agrees : flushed o x = exp.
Proof.
  unfold flushed, fpu_machine.bit. rewrite Hold, Hexp. change (31 - 29) with 2.
  destruct (Z.testbit old 2); cbn [andb]; [| reflexivity]. destruct (tiny_before_round o) eqn:Et; cbn [andb]; [| reflexivity].
  destruct Hregular as [_ Ht]. destruct (Ht Et) as (Hw & Hv & Hc). rewrite Hw. unfold with_result. rewrite Hw, Hv, Hc, Hcompare, Et.
  f_equal. destruct sign_cases as [-> | ->]; reflexivity.
Qed.
(** A result that is not software's is written. *)
Lemma written : software old exp = false -> write_result exp = true.
Proof.
  rewrite Hexp. intros Hs. assert (Ho : write_result o = true).
  { destruct Hregular as [[H | [H | H]] _]; [exact H | exfalso | exfalso]; revert Hs; unfold software;
      destruct (Z.testbit old 2 && tiny_before_round o && write_result o); cbn [with_result o_invalid zx ve ze controls_of fpscr_controls] in *;
      apply andb_true_iff in H as [H1 H2]; rewrite H1, H2; cbn [andb orb]; rewrite ?orb_true_r; discriminate. }
  destruct (_ && _); exact Ho.
Qed.
Lemma exp_fits : fits 5 (fprf o) -> fits 4 (fpcc o) -> fits 5 (fprf exp) /\ fits 4 (fpcc exp) /\ compare_valid exp = false.
Proof.
  intros Hf Hc. rewrite Hexp. destruct (_ && _); [| auto]. cbn [with_result fprf fpcc compare_valid].
  split; [case_if; const_fits | auto].
Qed.
End Outcome.

(** ** One case on the machine *)
(** The machine about to run the instruction of a case, loaded as the generator loads
    it; MSR[FE] is any. *)
Record loaded_602 (k : case) (c : cpu602) : Prop := {
  m_insn : fpu_machine.read (fpu_machine.mem (cpu c)) (fpu_machine.pc (cpu c)) = insn k;
  m_ra : reg c 1 = ra k;
  m_rb : reg c 2 = rb k;
  m_rc : reg c 3 = rc_ k;
  m_tags : sources_tagged c;
  m_fprs : length (fpu_machine.fpr (cpu c)) = 32%nat;
  m_fpscr : fpu_machine.fpscr (cpu c) = old k;
  m_fp : fpu_machine.FP (cpu c) = true;
  m_se : SE c = false
}.

(** [(insn >> 26) == 63 and (insn >> 1) & 0x3ff == 15] *)
Definition is_fctiwz (k : case) : bool := (Z.shiftr (insn k) 26 =? 63) && (Z.land (Z.shiftr (insn k) 1) 0x3ff =? 15).

(** The emulation trap: the vector, SRR0, SRR1 and the MSR, and nothing else of the
    machine changed. *)
Record trapped (c c' : cpu602) : Prop := {
  t_entered : entered 0x1600 0 (cpu c) (cpu c');
  t_untouched : untouched (cpu c) (cpu c');
  t_fpr : fpu_machine.fpr (cpu c') = fpu_machine.fpr (cpu c);
  t_fpscr : fpu_machine.fpscr (cpu c') = fpu_machine.fpscr (cpu c);
  t_cr : fpu_machine.cr (cpu c') = fpu_machine.cr (cpu c);
  t_steps : fpu_machine.steps (cpu c') = fpu_machine.steps (cpu c);
  t_tags : sp_tags c' = sp_tags c /\ lt_tags c' = lt_tags c;
  t_unlogged : unlogged c' = unlogged c
}.
(** The instruction of [k] carried out: the status word, the target and its tag, CR1 of
    a record form, and the next instruction; the rest of the machine as it was. *)
Record carried_out (k : case) (c c' : cpu602) : Prop := {
  d_write : write k = true;
  d_fpscr : fpu_machine.fpscr (cpu c') = new k;
  d_target : reg c' 4 = result k;
  d_tags : forall n, 0 <= n < 32 ->
             SP c' n = (if n =? 4 then negb (is_fctiwz k) else SP c n) /\ LT c' n = (if n =? 4 then is_fctiwz k else LT c n);
  d_tag_words : fits 32 (sp_tags c') /\ fits 32 (lt_tags c');
  d_others : forall n : nat, n <> 4%nat -> fpu_machine.fpr (cpu c') !! n = fpu_machine.fpr (cpu c) !! n;
  d_cr : recorded k (cpu c) (cpu c');
  d_next : continued (cpu c) (cpu c');
  d_untouched : untouched (cpu c) (cpu c');
  d_steps : fpu_machine.steps (cpu c') = fpu_machine.steps (cpu c);
  d_unlogged : unlogged c' = unlogged c
}.
Definition answered_602 (k : case) (c c' : cpu602) : Prop :=
  if exc k =? EMULATION_TRAP then trapped c c' /\ new k = old k /\ write k = false else carried_out k c c'.

Lemma emulate_traps c : exists c', emulate c = Some c' /\ trapped c c'.
Proof.
  eexists. split; [reflexivity |].
  constructor; try reflexivity; [constructor; reflexivity | constructor; reflexivity | apply Z.add_0_r | split; reflexivity].
Qed.
Lemma bit_tagged v n b k : 0 <= k < 32 -> fpu_machine.bit (tagged v n b) k = if k =? n then b else fpu_machine.bit v k.
Proof.
  intros Hk. unfold fpu_machine.bit at 1, tagged. rewrite testbit_word_of by lia. replace (31 - (31 - k)) with k by lia. reflexivity.
Qed.

Section Finish.
Variable c : cpu602.
Variables w v s : Z.
Variable single : bool.
Hypothesis Htarget : fpu_machine.ibits w 6 10 = 4.
Hypothesis Hlen : length (fpu_machine.fpr (cpu c)) = 32%nat.
Let c' := on fpu_machine.next (put single (fpu_machine.ibits w 6 10) v (on (fpu_machine.update w s) c)).
#[local] Opaque fpu_machine.word_of.

Lemma finished_parts :
  fpu_machine.fpscr (cpu c') = s /\ fpu_machine.fpr (cpu c') = <[4%nat := v]> (fpu_machine.fpr (cpu c)) /\
  continued (cpu c) (cpu c') /\ untouched (cpu c) (cpu c') /\ fpu_machine.steps (cpu c') = fpu_machine.steps (cpu c) /\
  unlogged c' = unlogged c /\ sp_tags c' = tagged (sp_tags c) 4 single /\ lt_tags c' = tagged (lt_tags c) 4 (negb single).
Proof.
  subst c'. rewrite Htarget. unfold fpu_machine.update, fpu_machine.record.
  destruct (fpu_machine.ibits w 31 31 =? 1); repeat split.
Qed.
Lemma finished_cr :
  fpu_machine.cr (cpu c') = if fpu_machine.ibits w 31 31 =? 1 then fpu_machine.cr (fpu_machine.set_crf 1 (Z.shiftr s 28) (cpu c))
                            else fpu_machine.cr (cpu c).
Proof.
  subst c'. rewrite Htarget. unfold fpu_machine.update, fpu_machine.record.
  destruct (fpu_machine.ibits w 31 31 =? 1); reflexivity.
Qed.
End Finish.

Lemma fctiwz_word name op rc0 w :
  In (name, op) ORACLE -> op <> "fctiw"%string -> fits 1 rc0 -> encode name true rc0 = Ok w ->
  (Z.shiftr w 26 =? 63) && (Z.land (Z.shiftr w 1) 0x3ff =? 15) = String.eqb op "fctiwz".
Proof.
  intros Hin Hop Hrc Hw. assert (rc0 = 0 \/ rc0 = 1) as Hr by (unfold fits in Hrc; lia). clear Hrc.
  cbn in Hin. repeat destruct Hin as [Hin | Hin]; try contradiction; injection Hin as <- <-; try (exfalso; apply Hop; reflexivity);
    destruct Hr as [-> | ->]; vm_compute in Hw; apply ok_inj in Hw; rewrite <- Hw; reflexivity.
Qed.
Lemma step_untraced t c c' :
  SE c = false -> execute t (fpu_machine.read (fpu_machine.mem (cpu c)) (fpu_machine.pc (cpu c))) c = Some c' -> step_602 t c = Some c'.
Proof. intros Hs E. unfold step_602. rewrite E. unfold traced. rewrite Hs. reflexivity. Qed.

(** What a case expects is what the machine does. *)
Lemma answers_602_step k name op rc0 exp t c :
  answers_602 k name op rc0 exp -> loaded_602 k c -> exists c', step_602 t c = Some c' /\ answered_602 k c c'.
Proof.
  intros H L. destruct (b_op _ _ _ _ _ H) as [Hin Hop].
  destruct (execute_reaches name op rc0 (insn k) Hin Hop (b_rc _ _ _ _ _ H) (b_insn _ _ _ _ _ H)) as (Hd & Hrec & Hrun).
  specialize (Hrun t c (m_fp _ _ L) (m_tags _ _ L)).
  rewrite (operands_named (value_of c) name op rc0 (insn k)) in Hrun; [| exact Hin | exact Hop | apply H | apply H].
  pose proof (b_words _ _ _ _ _ H) as Hw. pose proof (Forall_inv Hw) as Ha. apply Forall_inv_tail in Hw.
  pose proof (Forall_inv Hw) as Hb. apply Forall_inv_tail, Forall_inv in Hw as Hc.
  destruct (expected_operates name op _ _ _ _ exp Hin (b_exp _ _ _ _ _ H)) as (o & Eo & Eexp).
  unfold value_of in Hrun. rewrite (m_ra _ _ L), (m_rb _ _ L), (m_rc _ _ L), !expanded_widen in Hrun by assumption.
  rewrite (m_fpscr _ _ L) in Hrun.
  change (fpu_machine.controls (negb (String.eqb op "fctiwz")) (cpu c)) with (controls_of op (fpu_machine.fpscr (cpu c))) in Hrun.
  rewrite (m_fpscr _ _ L), Eo in Hrun.
  pose proof (oracle_rounds name op Hin) as Hno. pose proof (arithmetic_regular _ _ _ _ _ _ _ Hno Eo) as Hreg.
  pose proof (arithmetic_no_compare _ _ _ _ _ _ _ Hno Eo) as Hcmp.
  destruct (arithmetic_fits _ _ _ _ _ _ _ (widen_raw_fits _ Ha) (widen_raw_fits _ Hb) (widen_raw_fits _ Hc) Eo) as [Hr Hf Hcc].
  unfold delivered_602 in Hrun.
  rewrite (software_agrees (old k) o exp (cpu c) (m_fpscr _ _ L) Eexp) in Hrun.
  rewrite (flushed_agrees (old k) op o exp (cpu c) (m_fpscr _ _ L) Hreg Hcmp Hr Eexp) in Hrun.
  rewrite <- (m_insn _ _ L) in Hrun at 1.
  destruct (software (old k) exp) eqn:Es.
  - destruct (emulate_traps c) as (c' & E & Ht). rewrite E in Hrun. exists c'. split; [apply step_untraced; [apply L | exact Hrun] |].
    unfold answered_602. rewrite (b_exc _ _ _ _ _ H), (b_new _ _ _ _ _ H), (b_write _ _ _ _ _ H), Es. split; [exact Ht | auto].
  - destruct (exp_fits (old k) o exp Hcmp Eexp Hf Hcc) as (Hf' & Hcc' & Hcmp').
    assert (Hold : fits 32 (old k)) by (apply (fits_le 8); [apply H | lia]).
    pose proof (after_contract (old k) exp Hold Hf' Hcc') as Hafter. rewrite Hcmp' in Hafter.
    pose proof (b_new _ _ _ _ _ H) as Hnew. rewrite Es in Hnew. rewrite (m_fpscr _ _ L) in Hrun. rewrite <- Hafter, <- Hnew in Hrun.
    eexists. split; [apply step_untraced; [apply L | exact Hrun] |].
    unfold answered_602. rewrite (b_exc _ _ _ _ _ H), Es. change (NO_EXCEPTION =? EMULATION_TRAP) with false. cbv iota.
    destruct (b_control _ _ _ _ _ H Es) as [Erc Ecr].
    pose proof (b_result _ _ _ _ _ H Es) as Hres.
    pose proof (fctiwz_word name op rc0 (insn k) Hin Hop (b_rc _ _ _ _ _ H) (b_insn _ _ _ _ _ H)) as Hz. fold (is_fctiwz k) in Hz.
    set (v := if String.eqb op "fctiwz" then _ else _).
    assert (Ev : v = result k) by (rewrite Hres; reflexivity). clearbody v. subst v.
    destruct (finished_parts c (insn k) (result k) (new k) (negb (String.eqb op "fctiwz")) Hd) as (P1 & P2 & P3 & P4 & P5 & P6 & P7 & P8).
    pose proof (finished_cr c (insn k) (result k) (new k) (negb (String.eqb op "fctiwz")) Hd) as P10.
    set (c' := on fpu_machine.next _) in *. clearbody c'.
    constructor; try assumption.
    + rewrite (b_write _ _ _ _ _ H), Es. cbn [negb andb]. eapply written; eassumption.
    + unfold reg, fpu_machine.fr. rewrite P2. change (Z.to_nat 4) with 4%nat. apply nth_lookup_Some, list_lookup_insert_eq.
      rewrite (m_fprs _ _ L). lia.
    + intros n Hn. unfold SP, LT. rewrite P7, P8, !bit_tagged, negb_involutive, Hz by lia. auto.
    + rewrite P7, P8. split; apply word_of_fits.
    + intros n Hn4. rewrite P2. rewrite list_lookup_insert_ne by congruence. reflexivity.
    + apply (recorded_crf k _ _ (insn k)); [rewrite Hrec; symmetry; exact Erc |]. rewrite Ecr. exact P10.
Qed.

(** C40. The 602's machine answers every random case: whatever the draws, on the
    instruction of a case the generator returns, with its operands loaded as singles
    and its status word in place, and whatever MSR[FE], one step does one of two
    things. When the case expects it, it takes the emulation trap: SRR0, SRR1, the MSR
    and the program counter of the vector, and every other register, the tags, the TLB
    and memory as they were. Otherwise it leaves the result with its tag, the status
    word and CR1 the generator goes on to check, with the rest of the machine as it
    was. *)
Theorem case_602_answered {S : Type} `{!Rng S} `{!RngLaws S} (s s' : S) k t c :
  case_602 s = (s', Ok k) -> loaded_602 k c ->
  exists c', step_602 t c = Some c' /\ answered_602 k c c'.
Proof.
  intros E Hl. pose proof (case_602_yields s) as H. rewrite E in H. destruct H as (name & op & rc0 & exp & H).
  apply (answers_602_step k name op rc0 exp); assumption.
Qed.

(** A machine with the case loaded. *)
Definition machine_602 (k : case) : cpu602 :=
  {| cpu := machine_of k; sp_tags := 0x78000000; lt_tags := 0; unlogged := 0 |}.
Lemma machine_602_loaded k : loaded_602 k (machine_602 k).
Proof.
  destruct (machine_of_loaded k) as [Hi Ha Hb Hc Hl Hf Hp He].
  constructor; try assumption; [repeat split |]. unfold SE. cbn [machine_602 cpu machine_of fpu_machine.msr]. case_if; reflexivity.
Qed.
(** The first case of the default seed. *)
Lemma case_602_answered_witness :
  exists s' k, case_602 (mersenne.Random_ 0x602) = (s', Ok k) /\ loaded_602 k (machine_602 k) /\
    exists c', step_602 {| fpu_machine.protected := fun _ => false; fpu_machine.unchanged_page := fun _ => false;
                           fpu_machine.bus_error := fun _ => false; fpu_machine.identity := true;
                           fpu_machine.miss_way := true |} (machine_602 k) = Some c' /\ answered_602 k (machine_602 k) c'.
Proof.
  assert (Hok : match snd (case_602 (mersenne.Random_ 0x602)) with Ok k => true | Raise _ => false end = true)
    by (vm_compute; reflexivity).
  destruct (case_602 (mersenne.Random_ 0x602)) as [s' r] eqn:E. cbn [snd] in Hok. destruct r as [k | e]; [| discriminate].
  exists s', k. split; [reflexivity |]. split; [apply machine_602_loaded |].
  exact (case_602_answered _ _ _ _ _ E (machine_602_loaded k)).
Defined.
