(* ===== verification/Fpu602Runs.v ===== *)
(** * The 602's floating-point image on its reference machine

    The images of the Makefile's targets for the 602, generated from their seed, run
    from reset on [fpu_602_machine]: every expected word, and every exception logged. *)
From S2P Require Import Prelude PyRandom FpCases FpuProgram FpuMachine FpuRuns Fpu602Program Fpu602Machine.
Import fpu_core_program fpu_core_602_program.








